(* ===== verification/_CoqProject ===== *)
-Q . S2P
Prelude.v
GoLib.v
GoFloat.v
GoTime.v
PtrStore.v
Workers.v
Scheduler.v
LoadBalancer.v
Discovery.v
Heartbeat.v
HA.v
Deployments.v
Fleet.v
Platform.v
Service.v
ServiceFacts.v
Lifecycle.v
Scaling.v
Demo.v
ServiceTheorems.v
Recovery.v
Diff.v
Repair.v
Draining.v
Reconcile.v
Replicas.v
Convergence.v
Runtime.v
RuntimeFacts.v
KeyedLock.v
WorkerService.v
RuntimeFleet.v
Projects.v
Policy.v
Autoscaler.v
Registry.v
RegistryServer.v
AuditLog.v
Secrets.v
Http.v
Auth.v
Idempotency.v
RateLimit.v
Waf.v
Redact.v
Json.v
JsonDecode.v
Kms.v
ApiData.v
Api.v
ApiLogs.v
ApiRouter.v
Tenancy.v
ApiFacts.v
ApiReplay.v
ApiDemo.v
TimeParse.v
Records.v
Backup.v
PgBackup.v
Build.v
BuildWorkers.v
DockerBuild.v
RemoteRegistry.v
Cli.v
CliFacts.v
CliDemo.v
CliConfig.v
ControlPlane.v
Config.v
Startup.v
Metrics.v
NebulaCli.v
NebulaDemo.v
Sql.v
Migrations.v
Storage.v
StorageFacts.v
Pki.v
DockerEngine.v
