(* ===== verification/Prelude.v ===== *)
(** * The Nebula control plane: a verification library

    Nebula runs containers of projects on a fleet of workers. Its control plane
    (Go, under src/internal) registers workers and judges their health by
    heartbeats, places instances of deployments on them, routes requests to the
    instances, scales deployments by hand or by metrics, recovers from its own
    crashes, repairs drift, and elects a leader among several control planes.
    Users reach it over an HTTP API, by a command line client; images are built
    from source trees and kept in a registry; backups with a log of mutations
    restore it to a point in time. This library models these parts as Rocq
    definitions that read like the code and can be evaluated, and proves what
    they promise.

    ** Files, and the code they model

    Foundations:
    - Prelude.v: record update, map iteration orders, comparisons, the state
      monad [ST] with loops, and the rules for [wp m Q s] (running [m] from [s]
      ends in [Q]; computations are total, so every [wp] is total correctness);
    - GoLib.v, GoFloat.v, GoTime.v, TimeParse.v: what the code uses of
      Go's standard library (strings, stable sorting, float64 as IEEE binary64,
      formatting, dates and their text, with the parser of times), and the
      goroutine that waits on a ticker, its context and its stop channel
      ([Loop], one selected case at a time, with what others do in between);
    - Json.v and JsonDecode.v: encoding/json, the encoder, the parser and the
      decoding into structs; Http.v: requests and responses of net/http, on the
      side of a server and of a client;
    - PtrStore.v: records that two Go maps share by pointer, as a heap.

    Workers and traffic:
    - Workers.v: workers/*.go, the registry, the health state machine, the
      schedulability checks and the in-memory repository;
    - Scheduler.v: scheduler/*.go, filter, ranking and selection;
    - LoadBalancer.v: loadbalancer/router.go;
    - Discovery.v: discovery/*.go, the endpoints and their effect on the router;
    - Heartbeat.v: heartbeat/timeout_monitor.go, a scan of the monitor, on the
      registry and the service registry, and its loop;
    - HA.v: ha/election.go, the two advisory locks, one elector, and a
      cluster of electors as a step relation. A tick of an elector is two steps,
      the call of the lock and the use of its answer, so that stops, decisions,
      other electors and the clock come between them.

    Deployments:
    - Deployments.v: deployments/model.go, state_machine.go, repository.go and
      events.go. The service uses deployments and instances through the classes
      [DeploymentRepository] and [InstanceRepository]; the laws they promise
      ([DeploymentStore], [InstanceStore], relating every operation to the
      abstract contents, a finite map) are proved for the in-memory
      repositories;
    - Fleet.v: the worker clients of deployments/service.go, as the class
      [WorkerClientFactory], and the in-memory fleet that implements it;
    - Platform.v: the state [Sys] the control plane shares, the calls that read
      and change it, and the effect of each call on the abstract contents
      [view]. [sys_ok] is the invariant: records are under their identifiers,
      identifiers still to be drawn are not in use, the registry and the router
      are well formed;
    - Service.v: deployments/service.go, every operation; ServiceFacts.v,
      Lifecycle.v and Scaling.v: the lemmas on starting, stopping and scaling
      instances; ServiceTheorems.v: the contract of the service;
    - Recovery.v: deployments/recovery.go;
    - Demo.v: concrete instances of every parameter, on which the theorems are
      applied.

    Control loops:
    - Diff.v: reconcile/diff.go; Repair.v: reconcile/orphan_policy.go and
      repair.go;
    - Draining.v and Reconcile.v: reconcile/loop.go, the migration from draining
      workers, the whole pass and the loop that repeats it. The pass runs on [RecSys], the platform with
      the reconciler's optional service registry; Replicas.v: its repairs and
      prunings; Convergence.v: the contract of the pass and its fixed points;
    - Projects.v: projects/projects.go;
    - Policy.v: autoscaler/policy.go; Autoscaler.v: autoscaler/autoscaler.go.

    Workers' side:
    - Runtime.v: runtime/idempotency.go, docker_client.go (the interface of the
      engine, class [DockerClient], and the in-memory engine) and
      container_ops.go; RuntimeFacts.v: its theorems, for every engine that
      keeps the laws of [ContainerEngine], which the in-memory one does;
    - DockerEngine.v: the client of the Docker engine in docker_client.go; for an
      engine with the laws of its API it is a [ContainerEngine] as well;
    - KeyedLock.v: LockInstance of the tracker, as steps of goroutines;
    - WorkerService.v: grpcapi/worker_service.go; RuntimeFleet.v: a fleet of
      such services as an instance of [WorkerClientFactory], so that the control
      plane's operations run on the runtime.

    Images and secrets:
    - Registry.v: registry/digest.go, signing.go, client.go, gc.go and
      gc_policy.go; RegistryServer.v: registry/server.go and its part of gc.go;
    - Secrets.v: secrets/store.go, keyprovider.go and rotate.go; Kms.v:
      secrets/kms.go, whose envelope provider is one of the [KeyProvider]s that
      the store is proved against, and kms_localstack.go, the client of a KMS
      over HTTP; Redact.v: secrets/redact.go;
    - AuditLog.v: observability/audit.go, the chain of hashes;
    - Build.v: build/detector.go, ports.go, sandbox.go and orchestrator.go on a
      tree of files; BuildWorkers.v: build_worker.go and worker_sandbox.go;
      DockerBuild.v: docker_builder.go against the interface of the Docker client;
    - RemoteRegistry.v: registry/remote_client.go, against any HTTP client, and
      with the class [Reaches] against the embedded registry itself.

    The HTTP API and its clients:
    - Auth.v: auth/*.go; RateLimit.v and Waf.v: loadbalancer/ratelimit.go and
      waf.go, the rules of the latter as regular expressions with their meaning;
      Idempotency.v: api/idempotency.go as steps of goroutines;
    - ApiData.v: api/dto.go; Api.v: api/handlers_*.go; ApiLogs.v:
      handlers_logs.go; ApiRouter.v: middleware.go and router.go, with the whole
      chain of middleware as [NewRouter] installs it. Handlers run on [ApiSys]
      and call the service of Service.v. Tenancy.v, ApiFacts.v and ApiReplay.v:
      the theorems; ApiDemo.v: a control plane to evaluate requests on;
    - Cli.v: cli/client.go, against any HTTP client (class [CliEnv]), CliFacts.v:
      its theorems; CliDemo.v: the client put in front of the router of
      ApiDemo.v; CliConfig.v: its configuration file;
    - Pki.v: pki/ca.go and transport/grpc.go, with the verification of
      certificates and the handshake of the standard library;
    - ControlPlane.v: grpcapi/controlplane_service.go, with heartbeat/sender.go
      as its client.
    - NebulaCli.v: cmd/nebula-cli/main.go with the package flag; NebulaDemo.v:
      its sessions on a disk against the API;
    - Config.v: config/config.go; Startup.v: the start of cmd/control-plane/main.go,
      from the choice of the storage to the first pass of the reconciler;
    - Metrics.v: observability/metrics.go.

    Database:
    - Sql.v: the SQL that the code sends, as data with its meaning on typed
      tables; Migrations.v: storage/migrations/*.sql as data, the class [Pool] of
      connections, and storage/migrate.go;
    - Storage.v: storage/*_repo.go, every statement and every method, and
      postgres.go; its repositories are instances of the classes that the
      service, the API and the registry use. StorageFacts.v: their types and
      constraints, the simulation of the in-memory repository of deployments,
      and what the tables do not keep.

    Backups:
    - Records.v: the records of the repositories as JSON, and back; Backup.v:
      storage/backup/backup.go, with backups of a small control plane;
      PgBackup.v: storage/backup/backup_postgres.go.

    ** How state and effects are modelled

    A method of a component with its own state is a function on that state
    ([Register], [RegisterTarget], [TryAcquire]). The service, the recovery,
    the repair and the autoscaler work on state that they share, so their
    methods are computations of [ST], composed as the code composes its calls,
    with every early return; an error is its message, and [None] is nil. A loop
    that may return from its function is [for_range], one that may not is
    [for_each]; both are structural on the list that the code ranges over and
    need no fuel. Fuel is used where the code has no such list: the JSON parser
    descends with more fuel than the text is long ([parse_fueled] shows that
    more does not change the answer), the star of a regular expression and the
    groups of the EXPOSE pattern are bounded by the length of the text and the
    number of its lines, and the polls of the client by [deploy_turns], which
    [deploy_returns] proves to be enough. [uuid.New], the clock and the orders
    of map iterations are streams that the state consumes ([Entropy]); theorems
    hold for all of them, and suppose only that identifiers are fresh and not
    empty ([EntropyLaws]).

    A Go int is a [Z] where the code only counts, and wraps around where it is
    converted ([int32], [uint64] for the round-robin counter). Floats are exact
    to the bit. An int conversion of a float out of range is left open by Go and
    is the class [FloatConv].

    ** What the theorems show

    - Service: after each operation, on every path, which records exist, with
      which status, and which routes ([create_and_deploy_outcome],
      [scale_deployment_outcome], [rollback_outcome], [stop_deployment_outcome],
      [recovery_settles_all]); [touches] bounds what may change at all.
    - Placement: [select_worker_sound_complete] for any workers, and
      [select_worker_optimal] for capacities up to 16: the code compares load
      ratios in float64 with a tolerance of 1e-9, which is not transitive in
      general; for these capacities the comparison is checked by evaluation
      for all pairs of ratios to be the exact one.
    - Workers, discovery, heartbeat: the registry's two indexes agree, beats
      heal and silence degrades as configured, and a worker judged unhealthy
      loses all of its routes; the monitor notices a silent worker within one
      period of the deadline ([silent_worker_detected]).
    - Router: its lists implement a finite map ([router_refines_table]), every
      request is answered, and one project's requests are spread evenly.
    - Leadership: at most one leader within its lease, over all interleavings.
    - Reconciliation: the diff accounts for every instance and container once,
      the repair never starts an instance in excess, and containers of others
      are never touched. [reconcile_pass_outcome] composes the parts of a pass,
      [reconcile_replica_counts] leaves no deployment above its desired count,
      [draining_outcome] accounts for each instance of a draining worker, and
      [converged_is_fixed] says that a pass over a platform that runs what the
      repositories want does nothing, however often the loop repeats it
      ([reconcile_loop_rests]).
    - Autoscaler: decisions stay within the bounds, respect the cooldown, and
      are carried out as the service promises.
    - Workers' side: a run or a stop ends in one of the listed outcomes on every
      engine ([run_container_outcome], [stop_container_outcome]), of an instance
      at most one container runs ([one_running_container]), as long as no stop
      fails; the lock of an instance is exclusive and never leaks
      ([keyed_lock_exclusive], [keyed_lock_drains]); the same holds on a Docker
      engine ([docker_one_running]); requests are checked before
      they reach the runtime ([rpc_RunContainer_outcome]).
    - Images: what is stored has its own digest, collections keep what is
      referenced, also while the background loop repeats them
      ([background_gc_keeps]), signatures and manifests make their round trips.
    - Secrets: a snapshot of a deployment is frozen ([snapshot_is_frozen]), and
      the rotation of master keys loses no key ([rewrap_keeps_secrets],
      [rotation_over_http]).
    - API: a user acts on projects of his own only ([requests_are_confined]), a
      request with an idempotency key takes effect once ([create_is_idempotent]),
      and the JSON of values is parsed back to them.
    - Command line: a deploy ends whatever the server answers, within the stated
      number of requests ([deploy_returns]); over the wire it does what the
      handler does ([deploy_over_the_wire]); the file of the client's
      configuration makes its round trip ([config_roundtrip]).
    - Images over the network: each outcome of a push to a remote registry, and
      what a push followed by a pull returns ([remote_push_outcome]).
    - Builds: the image of a build, its ports and its digest, for the sandbox,
      the pool of build workers and Docker ([build_from_source_outcome],
      [worker_build_outcome], [docker_build_outcome]).
    - Backups: a backup restores the repositories it was made of
      ([backup_roundtrip]), and the replay of the log stops at the asked point
      ([point_in_time_recovery]).
    - Database: whatever is written, the rows keep the types and constraints of
      the schema ([storage_keeps_types]); migrations run once or again, and are
      reverted ([migrations_apply_and_revert]); the service may be run on the
      repository of deployments in Postgres as on the one in memory
      ([postgres_answers_like_memory]).
    - Worker RPCs: a worker that was registered has its beats recorded
      ([registered_worker_beats]); errors of a deployment request and what they
      leave unchanged ([rpc_create_deployment]).
    - Start: a control plane that starts again on its repositories has nothing in
      flight, knows its workers, and has no routes ([startup_outcome]).
    - Certificates: two nodes connect exactly within the periods of their
      certificates and of their authority ([mutual_tls_outcome]), and strangers
      do not ([strangers_are_refused]).
    - Metrics: a family is a map from label sets to values
      ([family_refines_series]); settings of durations keep their bounds
      ([duration_setting_bounds]).
    - Theorems about behaviour that the code or its comments do not intend:
      [scale_after_stop], [stopped_elector_leads], [one_beat_heals],
      [round_robin_shared_counter], [evict_hits_moved_endpoint],
      [filter_ignores_partition], [policy_outside_bounds], and the evaluations
      [recorded_copies_stopped], [crashed_is_duplicate], [failed_stop_doubles],
      [restart_forgets], [stopped_again], [crash_flaps], [restart_leaks],
      [gc_drops_layers], [gc_keeps_digest_entry], [digest_pull_unlabelled],
      [nebula_project_owns_all], [colon_collides] and [add_key_replaces], and
      the examples that PROJECT.json names among its findings.

    ** What is not modelled

    Logging, tracing and context deadlines have no effect on the state
    and do not appear. Each operation runs alone, as it does under its
    component's lock; interleavings are modelled where the lock does not cover
    them (the cluster of HA.v, the lock of an instance, idempotency keys, the two
    parts of ScaleDeployment). What the service calls of the build orchestrator,
    the image registry, the signer, the secret store, the redactor and the choice
    of free ports is the parameter [Externals] of the service, although these
    components have their own files; URL parsing and Unicode case mapping are the
    parameters [NetURL] and [Unicode]. The release and event repositories of the
    service are the in-memory ones that NewService installs; a nil router,
    release or event repository, which no constructor produces, is not modelled.

    Third-party and standard code that is not written out is a class, with what
    it promises as a class of laws where a theorem needs it: AES-GCM, SHA-256,
    Ed25519 and base64 ([Cipher], [Crypto]), HMAC ([Hmac]), the token buckets
    of golang.org/x/time/rate ([RateLib]), the texts of floats, of JSON numbers
    and of times ([FloatText], [JsonText], [TimeText]), of the verb %v on a
    decoded object ([AnyText]), a KMS ([KMSService]), trace propagation
    ([Propagator]), error texts of the encoder and of files ([EncodeErrors],
    [FileErrors]), the operating system ([OS]), HTTP and Docker clients
    ([HTTPClient], [DockerImages]), gRPC clients and codes
    ([ControlPlaneClient], [GRPC]), the driver of the database, its input
    functions of types and its error texts ([Pool], [Driver], [PgTypes],
    [SqlTexts]), the Docker engine ([DockerAPI]), ECDSA and the encodings of
    certificates ([X509]), and pg_dump and pg_restore ([Tools]). The texts of
    errors of the time parser are abbreviated.

    Statements of the database run one at a time, each a transaction of its
    own, as the code sends them. The listeners are I/O. Request bodies arrive whole: errors while a body is read are not
    modelled, nor are the classes of UTF-8 in text beyond what the JSON encoder
    needs; a nil map of labels is printed like an empty one. The tar stream of
    a Docker build has its names and contents, not its headers, and source
    trees have no symbolic links. The callbacks of an elector run in goroutines
    of their own and do not appear. The router of the reconciler
    and of its service registry is the platform's. *)

From stdpp Require Import base option gmap strings list pretty sorting.
From Stdlib Require Import ZArith Lia.

Declare Scope go_scope.
Delimit Scope go_scope with go.
Open Scope go_scope.
Open Scope Z_scope.

(** ** Record update

    [r <| f := v |>] is the Go assignment [r.f = v] on a value: [derive_setter]
    builds the updater of a projection from the record's eta expansion, which
    each record of the development declares as a [Settable] instance. *)

Class Settable (R : Type) := record_eta : R → R.

Class SetField {R T : Type} (proj : R → T) := set_field : (T → T) → R → R.

Ltac derive_setter proj :=
  lazymatch goal with
  | |- @SetField ?R ?T _ =>
    let e := constr:(ltac:(typeclasses eauto) : Settable R) in
    let e' := eval hnf in e in
    let g := fresh "g" in
    let r := fresh "r" in
    unfold SetField; intros g r;
    let body := eval cbv beta in (e' r) in
    let pat := eval pattern (proj r) in body in
    lazymatch pat with
    | ?F _ => let u := eval cbv beta in (F (g (proj r))) in exact u
    end
  end.

#[export] Hint Extern 0 (SetField ?proj) => derive_setter proj : typeclass_instances.

Notation "r <| f := v |>" := (set_field (proj := f) (λ _, v) r)
  (at level 1, f at level 99, left associativity) : go_scope.
Notation "r <| f ::= g |>" := (set_field (proj := f) g r)
  (at level 1, f at level 99, left associativity) : go_scope.

(** ** Go values

    A Go [error] is its message, [None] is [nil]. [Time] counts nanoseconds
    from the zero time, so [time.Time.IsZero] is the test for 0, and
    [Duration] is a [time.Duration]. *)

Abbreviation error := string (only parsing).
Abbreviation Time := Z (only parsing).
Abbreviation Duration := Z (only parsing).

Definition IsZero (t : Time) : bool := t =? 0.

Definition Nanosecond : Duration := 1.
Definition Millisecond : Duration := 1000000.
Definition Second : Duration := 1000000000.

(** The conversion [int32(x)] and the arithmetic of [int64] and [uint64] wrap around. *)
Definition int32 (x : Z) : Z := (x + 2 ^ 31) `mod` 2 ^ 32 - 2 ^ 31.
Definition int64 (x : Z) : Z := (x + 2 ^ 63) `mod` 2 ^ 64 - 2 ^ 63.
Definition uint64 (x : Z) : Z := x `mod` 2 ^ 64.

Lemma uint64_small x : 0 ≤ x < 2 ^ 64 → uint64 x = x.
Proof. apply Z.mod_small. Qed.

(** A nil map and an empty map read alike; [lookup_str] is [m[k]] on a
    [map[string]string], whose zero value is the empty string. *)
Definition lookup_str (m : gmap string string) (k : string) : string :=
  default "" (m !! k).

Definition lookup_int (m : gmap string Z) (k : string) : Z := default 0 (m !! k).

(** ** Map iteration

    Go ranges over a map in an unspecified order. An [Order] is one such order:
    a permutation of every list. A definition that ranges over a map takes the
    order as an argument, and its theorems hold for all of them. *)

Record Order := {
  permute : ∀ {A : Type}, list A → list A;
  permute_perm : ∀ {A : Type} (l : list A), permute l ≡ₚ l
}.

Definition order_id : Order :=
  {| permute := λ A l, l; permute_perm := λ A l, Permutation_refl l |}.

Definition order_rev : Order :=
  {| permute := λ A l, rev l; permute_perm := λ A l, symmetry (Permutation_rev l) |}.

Definition map_values {V : Type} (o : Order) (m : gmap string V) : list V :=
  permute o (map_to_list m).*2.

Definition map_pairs {V : Type} (o : Order) (m : gmap string V) : list (string * V) :=
  permute o (map_to_list m).

Lemma elem_of_permute {A} (o : Order) (l : list A) x : x ∈ permute o l ↔ x ∈ l.
Proof. by rewrite (permute_perm o l). Qed.

Lemma elem_of_map_values {V} (o : Order) (m : gmap string V) x :
  x ∈ map_values o m ↔ ∃ k, m !! k = Some x.
Proof.
  unfold map_values. rewrite elem_of_permute, list_elem_of_fmap. split.
  - intros ([k y] & -> & H%elem_of_map_to_list). eauto.
  - intros [k H]. exists (k, x). by rewrite elem_of_map_to_list.
Qed.

Lemma elem_of_map_pairs {V} (o : Order) (m : gmap string V) k x :
  (k, x) ∈ map_pairs o m ↔ m !! k = Some x.
Proof. unfold map_pairs. by rewrite elem_of_permute, elem_of_map_to_list. Qed.

Lemma map_pairs_filter {V} (o : Order) (P : string * V → Prop) `{!∀ x, Decision (P x)} (m : gmap string V) :
  base.filter P (map_pairs o m) ≡ₚ map_to_list (base.filter P m).
Proof.
  apply NoDup_Permutation.
  - apply NoDup_filter. unfold map_pairs. rewrite permute_perm. apply NoDup_map_to_list.
  - apply NoDup_map_to_list.
  - intros [k x]. by rewrite list_elem_of_filter, elem_of_map_pairs, elem_of_map_to_list, map_lookup_filter_Some,
      (comm (∧)).
Qed.

Lemma map_filter_split {V} (P : string * V → Prop) `{!∀ x, Decision (P x)} (m : gmap string V) :
  map_to_list (base.filter (λ kv, ¬ P kv) m) ++ map_to_list (base.filter P m) ≡ₚ map_to_list m.
Proof.
  rewrite <- (map_pairs_filter order_id P), <- (map_pairs_filter order_id (λ kv, ¬ P kv)).
  rewrite (comm (++)). apply filter_app_complement.
Qed.

Lemma size_filter_split {V} (P : string * V → Prop) `{!∀ x, Decision (P x)} (m : gmap string V) :
  Z.of_nat (size (base.filter (λ kv, ¬ P kv) m)) + Z.of_nat (size (base.filter P m)) = Z.of_nat (size m).
Proof.
  rewrite <- !length_map_to_list, <- Nat2Z.inj_add, <- length_app. f_equal.
  apply Permutation_length, map_filter_split.
Qed.

Lemma map_values_perm {V} (o o' : Order) (m : gmap string V) :
  map_values o m ≡ₚ map_values o' m.
Proof. unfold map_values. by rewrite !permute_perm. Qed.

Lemma map_values_nil {V} (o : Order) (m : gmap string V) :
  map_values o m = [] ↔ m = ∅.
Proof.
  unfold map_values. split.
  - intros H. apply map_to_list_empty_iff, (fmap_nil_inv snd).
    apply Permutation_nil_r. by rewrite <- H, permute_perm.
  - intros ->. rewrite map_to_list_empty. apply Permutation_nil_r, permute_perm.
Qed.

(** ** Comparison functions

    Orders that are written as a cascade of tie-breaks are lexicographic
    products of comparison functions. *)

Record good_cmp {A : Type} (f : A → A → comparison) : Prop := {
  cmp_anti : ∀ x y, f y x = CompOpp (f x y);
  cmp_trans : ∀ x y z, f x y = Lt → f y z = Lt → f x z = Lt;
  cmp_eq_l : ∀ x y z, f x y = Eq → f x z = f y z
}.

Definition cmp_seq (c1 c2 : comparison) : comparison :=
  match c1 with Eq => c2 | _ => c1 end.

Lemma good_cmp_Z : good_cmp Z.compare.
Proof.
  split.
  - intros x y. apply Z.compare_antisym.
  - intros x y z. rewrite !Z.compare_lt_iff. lia.
  - intros x y z ->%Z.compare_eq_iff. done.
Qed.

Lemma good_cmp_on {A B} (g : B → A) (f : A → A → comparison) :
  good_cmp f → good_cmp (λ x y, f (g x) (g y)).
Proof. intros [H1 H2 H3]. split; intros *; eauto. Qed.

Lemma good_cmp_eq_r {A} (f : A → A → comparison) x y z :
  good_cmp f → f x y = Eq → f z x = f z y.
Proof.
  intros H E. rewrite (cmp_anti f H x z), (cmp_anti f H y z). f_equal. by apply (cmp_eq_l f H).
Qed.

Lemma good_cmp_seq {A} (f g : A → A → comparison) :
  good_cmp f → good_cmp g → good_cmp (λ x y, cmp_seq (f x y) (g x y)).
Proof.
  intros Hf Hg. split.
  - intros x y. rewrite (cmp_anti f Hf x y), (cmp_anti g Hg x y). by destruct (f x y).
  - intros x y z. destruct (f x y) eqn:E1; cbn; [|intros _|done].
    + intros G1. rewrite (cmp_eq_l f Hf x y z E1).
      destruct (f y z); cbn; [|done..]. by apply (cmp_trans g Hg).
    + destruct (f y z) eqn:E2; cbn; [|intros _|done].
      * intros _. by rewrite <- (good_cmp_eq_r f y z x Hf E2), E1.
      * by rewrite (cmp_trans f Hf x y z E1 E2).
  - intros x y z. destruct (f x y) eqn:E1; cbn; [|done..]. intros G1.
    by rewrite (cmp_eq_l f Hf x y z E1), (cmp_eq_l g Hg x y z G1).
Qed.

Lemma good_cmp_total {A} (f : A → A → comparison) x y :
  good_cmp f → f x y ≠ Gt ∨ f y x ≠ Gt.
Proof. intros H. rewrite (cmp_anti f H x y). destruct (f x y); auto. Qed.

Lemma good_cmp_le_trans {A} (f : A → A → comparison) x y z :
  good_cmp f → f x y ≠ Gt → f y z ≠ Gt → f x z ≠ Gt.
Proof.
  intros H Hxy Hyz. destruct (f x y) eqn:E1; [|clear Hxy|done].
  { by rewrite (cmp_eq_l f H x y z E1). }
  destruct (f y z) eqn:E2; [|clear Hyz|done].
  { by rewrite <- (good_cmp_eq_r f y z x H E2), E1. }
  by rewrite (cmp_trans f H x y z E1 E2).
Qed.

Lemma StronglySorted_impl_elem {A} (R R' : A → A → Prop) (l : list A) :
  (∀ x y, x ∈ l → y ∈ l → R x y → R' x y) → StronglySorted R l → StronglySorted R' l.
Proof.
  intros H Hs. induction Hs as [|x l Hs IH HF]; constructor.
  - apply IH. intros y z Hy Hz. apply H; by right.
  - rewrite Forall_forall in HF |- *. intros y Hy. apply H; [left|by right|by apply HF].
Qed.

(** ** Stateful code

    [ST S A] is a computation on the state [S]. Errors are values, because the
    code logs and ignores many of them. *)

Definition ST (S A : Type) : Type := S → A * S.

Definition ret {S A} (a : A) : ST S A := λ s, (a, s).

Definition bind {S A B} (m : ST S A) (k : A → ST S B) : ST S B :=
  λ s, k (m s).1 (m s).2.

Definition gets {S A} (f : S → A) : ST S A := λ s, (f s, s).

Definition modify {S} (f : S → S) : ST S unit := λ s, (tt, f s).

Notation "'let!' x := m 'in' k" := (bind m (λ x, k))
  (at level 10, x name, m at level 200, k at level 200) : go_scope.
Notation "'let!' ' p := m 'in' k" := (bind m (λ x, match x with p => k end))
  (at level 10, p strict pattern, m at level 200, k at level 200) : go_scope.
Notation "m ;; k" := (bind m (λ _, k))
  (at level 100, k at level 200, right associativity) : go_scope.

(** A loop body either goes on with the loop's variables or returns from the
    enclosing function. *)
Inductive Flow (B R : Type) : Type :=
| Next (b : B)
| Return (r : R).
Arguments Next {B R} b.
Arguments Return {B R} r.

(** [for _, x := range l { body }], with the mutable variables [b]. *)
Fixpoint for_range {S A B R} (l : list A) (b : B) (body : A → B → ST S (Flow B R)) :
    ST S (Flow B R) :=
  match l with
  | [] => ret (Next b)
  | x :: l' =>
    let! r := body x b in
    match r with
    | Next b' => for_range l' b' body
    | Return _ => ret r
    end
  end.

(** The same loop when its body never returns. *)
Fixpoint for_each {S A B} (l : list A) (b : B) (body : A → B → ST S B) : ST S B :=
  match l with
  | [] => ret b
  | x :: l' => let! b' := body x b in for_each l' b' body
  end.

(** ** Reasoning about stateful code

    [wp m Q s] says that running [m] from [s] ends in [Q]; computations are
    total. [steps R m] says that every run of [m] moves the state along [R]. *)

Definition wp {S A} (m : ST S A) (Q : A → S → Prop) (s : S) : Prop :=
  Q (m s).1 (m s).2.

Definition steps {S A} (R : S → S → Prop) (m : ST S A) : Prop :=
  ∀ s, R s (m s).2.

Section reasoning.
Context {S : Type}.

Lemma wp_ret {A} (a : A) (Q : A → S → Prop) s : Q a s → wp (ret a) Q s.
Proof. done. Qed.

Lemma wp_gets {A} (f : S → A) (Q : A → S → Prop) s : Q (f s) s → wp (gets f) Q s.
Proof. done. Qed.

Lemma wp_modify (f : S → S) (Q : unit → S → Prop) s : Q tt (f s) → wp (modify f) Q s.
Proof. done. Qed.

Lemma wp_bind {A B} (m : ST S A) (k : A → ST S B) Q s :
  wp m (λ a, wp (k a) Q) s → wp (bind m k) Q s.
Proof. done. Qed.

Lemma wp_bind_inv {A B} (m : ST S A) (k : A → ST S B) Q s :
  wp (bind m k) Q s → wp m (λ a, wp (k a) Q) s.
Proof. done. Qed.

Lemma wp_wand {A} (m : ST S A) (Q Q' : A → S → Prop) s :
  wp m Q s → (∀ a s', Q a s' → Q' a s') → wp m Q' s.
Proof. unfold wp. auto. Qed.

Lemma wp_run {A} (m : ST S A) (Q : A → S → Prop) s a s' :
  wp m Q s → m s = (a, s') → Q a s'.
Proof. unfold wp. by intros H E; rewrite E in H. Qed.

Lemma wp_and {A} (m : ST S A) (Q Q' : A → S → Prop) s :
  wp m Q s → wp m Q' s → wp m (λ a s', Q a s' ∧ Q' a s') s.
Proof. unfold wp. auto. Qed.

Lemma wp_for_each {A B} (I : list A → B → S → Prop) (l : list A) (b : B)
    (body : A → B → ST S B) (Q : B → S → Prop) s :
  I l b s →
  (∀ x l' b' s', x ∈ l → I (x :: l') b' s' → wp (body x b') (I l') s') →
  (∀ b' s', I [] b' s' → Q b' s') →
  wp (for_each l b body) Q s.
Proof.
  revert b s. induction l as [|x l IH]; intros b s HI Hbody HQ; cbn.
  { apply wp_ret; auto. }
  apply wp_bind. eapply wp_wand; [apply (Hbody x l b s); [set_solver|done]|].
  intros b' s' HI'. apply IH; [done| |done].
  intros y l' b'' s'' Hy. apply Hbody. set_solver.
Qed.

(** [I] is the invariant of the loop with the elements still to visit, and
    [Q] must hold both at the end of the loop and at a return. *)
Lemma wp_for_range {A B T} (I : list A → B → S → Prop) (l : list A) (b : B)
    (body : A → B → ST S (Flow B T)) (Q : Flow B T → S → Prop) s :
  I l b s →
  (∀ x l' b' s', x ∈ l → I (x :: l') b' s' →
    wp (body x b') (λ f s'', match f with Next b'' => I l' b'' s'' | Return r => Q f s'' end) s') →
  (∀ b' s', I [] b' s' → Q (Next b') s') →
  wp (for_range l b body) Q s.
Proof.
  revert b s. induction l as [|x l IH]; intros b s HI Hbody HQ; cbn.
  { apply wp_ret; auto. }
  apply wp_bind. eapply wp_wand; [apply (Hbody x l b s); [set_solver|done]|].
  intros [b'|r] s' HI'; [|by apply wp_ret].
  apply IH; [done| |done]. intros y l' b'' s'' Hy. apply Hbody. set_solver.
Qed.

Section relation.
Context (R : S → S → Prop) `{!PreOrder R}.

Lemma steps_ret {A} (a : A) : steps R (ret a).
Proof. intros s. reflexivity. Qed.

Lemma steps_gets {A} (f : S → A) : steps R (gets f).
Proof. intros s. reflexivity. Qed.

Lemma steps_bind {A B} (m : ST S A) (k : A → ST S B) :
  steps R m → (∀ a, steps R (k a)) → steps R (bind m k).
Proof. intros Hm Hk s. etransitivity; [apply Hm|apply Hk]. Qed.

Lemma steps_for_range {A B T} (l : list A) (b : B) (body : A → B → ST S (Flow B T)) :
  (∀ x b', steps R (body x b')) → steps R (for_range l b body).
Proof.
  intros H. revert b. induction l as [|x l IH]; intros b; cbn.
  { apply steps_ret. }
  apply steps_bind; [done|]. intros [b'|r]; [apply IH|apply steps_ret].
Qed.

Lemma steps_for_each {A B} (l : list A) (b : B) (body : A → B → ST S B) :
  (∀ x b', steps R (body x b')) → steps R (for_each l b body).
Proof.
  intros H. revert b. induction l as [|x l IH]; intros b; cbn.
  { apply steps_ret. }
  apply steps_bind; [done|]. intros b'. apply IH.
Qed.

Lemma steps_wp {A} (m : ST S A) s : steps R m → wp m (λ _ s', R s s') s.
Proof. intros H. apply H. Qed.
End relation.
End reasoning.

(** The automation of [steps] goals: the [go] database holds, for every
    operation of a component, the lemma that it moves along the relation. *)
Create HintDb go discriminated.

Ltac steps_tac :=
  repeat first
    [ solve [eauto with go]
    | lazymatch goal with
      | |- ∀ _, _ => intro
      | |- PreOrder _ => apply _
      | |- steps _ (ret _) => apply steps_ret
      | |- steps _ (gets _) => apply steps_gets
      | |- steps _ (bind _ _) => apply steps_bind
      | |- steps _ (for_range _ _ _) => apply steps_for_range
      | |- steps _ (for_each _ _ _) => apply steps_for_each
      | |- steps _ (match ?x with _ => _ end) => destruct x
      end ].

(** Runs the next command of the computation under [wp]. *)
Ltac wp_step :=
  lazymatch goal with
  | |- wp (bind _ _) _ _ => apply wp_bind
  | |- wp (ret _) _ _ => apply wp_ret
  | |- wp (gets _) _ _ => apply wp_gets
  | |- wp (modify _) _ _ => apply wp_modify
  | |- wp (match ?x with _ => _ end) _ _ => destruct x eqn:?
  end; cbv beta.

Ltac wp_steps := repeat wp_step.
