(* ===== verification/GoLib.v ===== *)
(** * The parts of Go's standard library the control plane calls

    Strings are byte strings. [strings.ToLower], [ToUpper], [TrimSpace] and
    [EqualFold] have an ASCII path, written out here, and a Unicode path for
    strings with a byte above 127, which is the class [Unicode].
    [sort.SliceStable] is an insertion sort (its algorithm on up to twenty
    elements; on a strict weak order every stable sort gives the same list). The
    last section is the loop of a goroutine on a ticker, as the components'
    background work is written. *)

From stdpp Require Import base option gmap strings list pretty sorting.
From Stdlib Require Import ZArith Lia Ascii.
From S2P Require Import Prelude.

(** ** Package strings *)

Class Unicode := {
  uni_ToLower : string → string;
  uni_ToUpper : string → string;
  uni_TrimSpace : string → string;
  uni_EqualFold : string → string → bool;
  uni_Fields : string → list string;
  uni_Quote : string → string
}.

Definition isASCII_char (c : ascii) : bool := (N_of_ascii c <? 128)%N.

Fixpoint isASCII (s : string) : bool :=
  match s with
  | EmptyString => true
  | String c s' => isASCII_char c && isASCII s'
  end.

Fixpoint string_map (f : ascii → ascii) (s : string) : string :=
  match s with
  | EmptyString => EmptyString
  | String c s' => String (f c) (string_map f s')
  end.

Definition lower_char (c : ascii) : ascii :=
  let n := N_of_ascii c in
  if ((65 <=? n) && (n <=? 90))%N then ascii_of_N (n + 32) else c.

Definition upper_char (c : ascii) : ascii :=
  let n := N_of_ascii c in
  if ((97 <=? n) && (n <=? 122))%N then ascii_of_N (n - 32) else c.

Definition space_char (c : ascii) : bool :=
  let n := N_of_ascii c in
  (((9 <=? n) && (n <=? 13)) || (n =? 32))%N.

Fixpoint trim_left (s : string) : string :=
  match s with
  | String c s' => if space_char c then trim_left s' else s
  | EmptyString => EmptyString
  end.

Fixpoint trim_right (s : string) : string :=
  match s with
  | EmptyString => EmptyString
  | String c s' =>
    match trim_right s' with
    | EmptyString => if space_char c then EmptyString else String c EmptyString
    | t => String c t
    end
  end.

(** [strings.HasPrefix(s, p)]. *)
Definition HasPrefix (s p : string) : bool := String.prefix p s.

(** [strings.TrimRight(s, "/")]. *)
Fixpoint trim_slashes (s : string) : string :=
  match s with
  | EmptyString => EmptyString
  | String c s' =>
    match trim_slashes s' with
    | EmptyString => if Ascii.eqb c "/" then EmptyString else String c EmptyString
    | t => String c t
    end
  end.

(** [strings.TrimPrefix(s, p)]. *)
Fixpoint drop_string (n : nat) (s : string) : string :=
  match n, s with
  | O, _ => s
  | S n', String _ s' => drop_string n' s'
  | S _, EmptyString => EmptyString
  end.

Definition TrimPrefix (s p : string) : string :=
  if HasPrefix s p then drop_string (String.length p) s else s.

(** [strings.Contains(s, sub)]. *)
Fixpoint Contains (s sub : string) : bool :=
  String.prefix sub s ||
  match s with
  | EmptyString => false
  | String _ s' => Contains s' sub
  end.

(** [strings.Cut(s, sep)] for a one-byte separator. *)
Fixpoint Cut (s : string) (sep : ascii) : string * string * bool :=
  match s with
  | EmptyString => (EmptyString, EmptyString, false)
  | String c s' =>
    if Ascii.eqb c sep then (EmptyString, s', true)
    else let '(before, after, found) := Cut s' sep in (String c before, after, found)
  end.

(** [s[:n]], which the code applies only to strings of at least [n] bytes. *)
Definition str_take (n : nat) (s : string) : string := String.substring 0 n s.

(** [strings.Split(s, sep)] for a one-byte separator: never empty. *)
Fixpoint Split (s : string) (sep : ascii) : list string :=
  match s with
  | EmptyString => [EmptyString]
  | String c s' =>
    if Ascii.eqb c sep then EmptyString :: Split s' sep
    else match Split s' sep with
         | p :: ps => String c p :: ps
         | [] => [String c EmptyString]
         end
  end.

(** [strings.Split(s, sep)[0]]. *)
Definition split_head (s : string) (sep : ascii) : string :=
  default EmptyString (head (Split s sep)).

(** The runs of characters that are not spaces; [cur] is the open one. *)
Fixpoint fields_from (cur s : string) : list string :=
  let flush := if decide (cur = "") then [] else [cur] in
  match s with
  | EmptyString => flush
  | String c s' =>
    if space_char c then flush ++ fields_from "" s'
    else fields_from (cur +:+ String c EmptyString) s'
  end.

Definition hex_digit (n : N) : ascii := ascii_of_N (if (n <? 10)%N then 48 + n else 87 + n)%N.

(** A character in a quoted string. *)
Definition quote_char (c : ascii) : string :=
  let n := N_of_ascii c in
  let esc d := String "\"%char (String d EmptyString) in
  if (n =? 34)%N || (n =? 92)%N then String "\"%char (String c EmptyString)
  else if (n =? 7)%N then esc "a"%char else if (n =? 8)%N then esc "b"%char
  else if (n =? 9)%N then esc "t"%char else if (n =? 10)%N then esc "n"%char
  else if (n =? 11)%N then esc "v"%char else if (n =? 12)%N then esc "f"%char
  else if (n =? 13)%N then esc "r"%char
  else if ((n <? 32) || (n =? 127))%N
  then String "\"%char (String "x"%char (String (hex_digit (n / 16)) (String (hex_digit (n mod 16)) EmptyString)))
  else String c EmptyString.

Fixpoint quote_chars (s : string) : string :=
  match s with
  | EmptyString => EmptyString
  | String c s' => quote_char c +:+ quote_chars s'
  end.

Section unicode.
Context `{!Unicode}.

(** [strings.Fields(s)]. *)
Definition Fields (s : string) : list string :=
  if isASCII s then fields_from "" s else uni_Fields s.

(** [strconv.Quote(s)] and the verb [%q]. *)
Definition Quote (s : string) : string :=
  if isASCII s
  then String (ascii_of_nat 34) (quote_chars s) +:+ String (ascii_of_nat 34) EmptyString
  else uni_Quote s.

Definition ToLower (s : string) : string :=
  if isASCII s then string_map lower_char s else uni_ToLower s.

Definition ToUpper (s : string) : string :=
  if isASCII s then string_map upper_char s else uni_ToUpper s.

Definition TrimSpace (s : string) : string :=
  if isASCII s then trim_right (trim_left s) else uni_TrimSpace s.

Definition EqualFold (s t : string) : bool :=
  if isASCII s && isASCII t
  then String.eqb (string_map lower_char s) (string_map lower_char t)
  else uni_EqualFold s t.

End unicode.

(** [strconv.Itoa] and the verb [%d]. *)
Definition Itoa (z : Z) : string := pretty z.

(** The verb [%q] on a string without characters to escape. *)
Definition quote (s : string) : string :=
  String (ascii_of_nat 34) s +:+ String (ascii_of_nat 34) EmptyString.

(** The trivial Unicode tables, for evaluation on ASCII inputs. *)
Definition unicode_none : Unicode :=
  {| uni_ToLower := id; uni_ToUpper := id; uni_TrimSpace := id; uni_EqualFold := String.eqb;
     uni_Fields := λ s, [s]; uni_Quote := id |}.

Example Contains_ex : Contains "registry service unavailable" "unavailable" = true.
Proof. reflexivity. Qed.

Example Fields_ex : Fields (H := unicode_none) " a  bc " = ["a"; "bc"].
Proof. reflexivity. Qed.

Example Split_ex : Split "a:b:" ":" = ["a"; "b"; ""].
Proof. reflexivity. Qed.

(** String comparison, the operator [<] on strings. *)
Lemma string_ltb_leb s t : String.ltb s t = negb (String.leb t s).
Proof.
  unfold String.ltb, String.leb. rewrite String.compare_antisym.
  by destruct (String.compare t s).
Qed.

Lemma string_ltb_irrefl s : String.ltb s s = false.
Proof.
  rewrite string_ltb_leb. assert (String.leb s s = true) as ->; [|done].
  apply Is_true_true. apply (reflexivity (R := String.le)).
Qed.

Lemma string_ltb_trans s t u :
  String.ltb s t = true → String.ltb t u = true → String.ltb s u = true.
Proof.
  rewrite !string_ltb_leb, !negb_true_iff, <- !not_true_iff_false.
  intros Hst Htu Hus. apply Hst.
  assert (String.le t u) as Ht.
  { destruct (total String.le t u) as [|H]; [done|]. apply Is_true_true in H. contradiction. }
  apply Is_true_true. apply Is_true_true in Hus. apply (transitivity (R := String.le) Ht Hus).
Qed.

Lemma string_ltb_total s t :
  String.ltb s t = false → String.ltb t s = false → s = t.
Proof.
  rewrite !string_ltb_leb, !negb_false_iff.
  intros H1 H2. by apply String.leb_antisym.
Qed.

Lemma good_cmp_string : good_cmp String.compare.
Proof.
  split.
  - intros x y. apply String.compare_antisym.
  - intros x y z. pose proof (string_ltb_trans x y z) as H. unfold String.ltb in H.
    destruct (String.compare x y), (String.compare y z); try done.
    intros _ _. by destruct (String.compare x z); [discriminate H|..|discriminate H].
  - intros x y z ->%String.compare_eq_iff. done.
Qed.

(** ** Strings joined by a separator

    A prefix without the separator is determined by the whole string. *)

Fixpoint str_free (c : ascii) (s : string) : bool :=
  match s with
  | EmptyString => true
  | String d s' => negb (Ascii.eqb d c) && str_free c s'
  end.

Lemma free_split c (s s' t t' : string) :
  str_free c s = true → str_free c s' = true →
  s +:+ String c t = s' +:+ String c t' → s = s' ∧ t = t'.
Proof.
  revert s'. induction s as [|d s IH]; intros [|d' s']; cbn; rewrite ?andb_true_iff, ?negb_true_iff.
  - intros _ _ E. by simplify_eq.
  - intros _ [Hd _] E. simplify_eq. by rewrite Ascii.eqb_refl in Hd.
  - intros [Hd _] _ E. simplify_eq. by rewrite Ascii.eqb_refl in Hd.
  - intros [_ H] [_ H'] E. simplify_eq. by destruct (IH s' H H' ltac:(done)) as [-> ->].
Qed.

(** A string without the separator, before it or on its own. *)
Lemma Cut_sep c (s t : string) : str_free c s = true → Cut (s +:+ String c t) c = (s, t, true).
Proof.
  induction s as [|d s IH].
  - intros _. change (Cut (String c t) c = ("", t, true)). cbn. by rewrite Ascii.eqb_refl.
  - change (String d s +:+ String c t) with (String d (s +:+ String c t)). cbn.
    intros [Hd%negb_true_iff Hs]%andb_true_iff. by rewrite Hd, IH.
Qed.

Lemma Cut_free c (s : string) : str_free c s = true → Cut s c = (s, EmptyString, false).
Proof.
  induction s as [|d s IH]; cbn; [done|].
  intros [Hd%negb_true_iff Hs]%andb_true_iff. by rewrite Hd, IH.
Qed.

Lemma Contains_char c (s : string) : Contains s (String c EmptyString) = negb (str_free c s).
Proof.
  induction s as [|d s IH]; cbn; [done|]. rewrite negb_andb, negb_involutive, IH, Ascii.eqb_sym.
  f_equal. destruct (ascii_dec c d) as [->|Hd]; [by rewrite Ascii.eqb_refl; destruct s|].
  symmetry. by apply Ascii.eqb_neq.
Qed.

Lemma str_app_assoc (s t u : string) : (s +:+ t) +:+ u = s +:+ (t +:+ u).
Proof.
  induction s as [|c s IH]; [done|].
  change (String c ((s +:+ t) +:+ u) = String c (s +:+ (t +:+ u))). by rewrite IH.
Qed.

Lemma str_app_nil (s : string) : s +:+ "" = s.
Proof. induction s as [|c s IH]; [done|]. change (String c (s +:+ "") = String c s). by rewrite IH. Qed.

Lemma str_app_length (s t : string) : String.length (s +:+ t) = (String.length s + String.length t)%nat.
Proof.
  induction s as [|c s IH]; [done|].
  change (S (String.length (s +:+ t)) = S (String.length s + String.length t)). by rewrite IH.
Qed.

Lemma HasPrefix_app (s p : string) : HasPrefix s p = true → ∃ t, s = p +:+ t.
Proof.
  unfold HasPrefix. revert s. induction p as [|c p IH]; intros s; [by exists s|].
  destruct s as [|d s]; cbn; [done|]. destruct (ascii_dec c d) as [->|]; [|done].
  intros [t ->]%IH. by exists t.
Qed.

Lemma prefix_app (p s : string) : String.prefix p s = true ↔ ∃ t, s = p +:+ t.
Proof.
  split; [apply HasPrefix_app|]. intros [t ->]. induction p as [|c p IH]; [by destruct t|].
  change (String.prefix (String c p) (String c (p +:+ t)) = true). cbn. by destruct (ascii_dec c c).
Qed.

Lemma drop_string_app (p s : string) : drop_string (String.length p) (p +:+ s) = s.
Proof. induction p as [|c p IH]; [by destruct s|]. exact IH. Qed.

Lemma TrimPrefix_app (p s : string) : TrimPrefix (p +:+ s) p = s.
Proof. unfold TrimPrefix, HasPrefix. rewrite (proj2 (prefix_app _ _)) by eauto. apply drop_string_app. Qed.

Lemma Contains_app (s b : string) : Contains s b = true ↔ ∃ x y, s = x +:+ b +:+ y.
Proof.
  induction s as [|c s IH].
  - change (Contains "" b) with (String.prefix b "" || false). rewrite orb_false_r, prefix_app. split.
    + intros [t ->]. by exists "", t.
    + intros (x & y & E). destruct x; [by exists y|done].
  - change (Contains (String c s) b) with (String.prefix b (String c s) || Contains s b).
    rewrite orb_true_iff, prefix_app, IH. split.
    + intros [[t E]|(x & y & ->)]; [by exists "", t|by exists (String c x), y].
    + intros (x & y & E). destruct x as [|d x]; [left; by exists y|].
      change (String c s = String d (x +:+ b +:+ y)) in E. injection E as -> ->. right. by exists x, y.
Qed.

Lemma str_free_app c (s t : string) : str_free c (s +:+ t) = str_free c s && str_free c t.
Proof.
  induction s as [|d s IH]; [done|].
  change (negb (Ascii.eqb d c) && str_free c (s +:+ t) = negb (Ascii.eqb d c) && str_free c s && str_free c t).
  by rewrite IH, andb_assoc.
Qed.

(** The characters '0' to '9'. *)
Definition is_digit (c : ascii) : bool := (48 <=? N_of_ascii c)%N && (N_of_ascii c <? 58)%N.

Lemma pretty_char_free c n : is_digit c = false → Ascii.eqb (pretty_N_char n) c = false.
Proof.
  intros Hc. apply Ascii.eqb_neq. intros <-. revert Hc. unfold pretty_N_char. repeat case_match; done.
Qed.

Lemma pretty_N_go_free c n : is_digit c = false →
  ∀ s, str_free c s = true → str_free c (pretty_N_go n s) = true.
Proof.
  intros Hc. induction (N.lt_wf_0 n) as [n _ IH]; intros s Hs.
  destruct (decide (0 < n)%N) as [Hn|Hn].
  - rewrite pretty_N_go_step by done. apply IH; [by apply N.div_lt|].
    cbn. by rewrite pretty_char_free.
  - assert (n = 0%N) as -> by lia. by rewrite pretty_N_go_0.
Qed.

Lemma pretty_positive_free c (p : positive) : is_digit c = false → str_free c (pretty p) = true.
Proof.
  intros Hc. unfold pretty, pretty_positive, pretty, pretty_N. rewrite decide_False by done.
  by apply pretty_N_go_free.
Qed.

(** A decimal number has digits only, and a dash when it is negative. *)
Lemma Itoa_free c z : is_digit c = false → 0 ≤ z ∨ Ascii.eqb "-" c = false → str_free c (Itoa z) = true.
Proof.
  intros Hc Hz. unfold Itoa. destruct z as [|p|p].
  - change (negb (Ascii.eqb "0" c) && true = true). rewrite andb_true_r, negb_true_iff.
    apply Ascii.eqb_neq. by intros <-.
  - by apply pretty_positive_free.
  - change (negb (Ascii.eqb "-" c) && str_free c (pretty p) = true).
    destruct Hz as [?|Hd]; [lia|]. by rewrite Hd, pretty_positive_free.
Qed.

(** [strings.Join]. *)
Fixpoint Join (parts : list string) (sep : string) : string :=
  match parts with
  | [] => EmptyString
  | [p] => p
  | p :: parts' => p +:+ sep +:+ Join parts' sep
  end.

Lemma Join_free c parts sep :
  Forall (λ p, str_free c p = true) parts → str_free c sep = true → str_free c (Join parts sep) = true.
Proof.
  intros Hp Hs. induction Hp as [|p [|q parts] Hp Hps IH]; [done|done|].
  change (str_free c (p +:+ sep +:+ Join (q :: parts) sep) = true). by rewrite !str_free_app, Hp, Hs.
Qed.

Lemma Split_free (s : string) sep : str_free sep s = true → Split s sep = [s].
Proof.
  induction s as [|c s IH]; cbn; [done|]. intros [Hc%negb_true_iff Hs]%andb_true_iff. by rewrite Hc, IH.
Qed.

Lemma Split_sep (s t : string) sep : str_free sep s = true → Split (s +:+ String sep t) sep = s :: Split t sep.
Proof.
  induction s as [|c s IH].
  - intros _. change (Split (String sep t) sep = "" :: Split t sep). cbn. by rewrite Ascii.eqb_refl.
  - change (String c s +:+ String sep t) with (String c (s +:+ String sep t)). cbn.
    intros [Hc%negb_true_iff Hs]%andb_true_iff. by rewrite Hc, IH.
Qed.

(** What was joined is split again. *)
Lemma Split_Join (parts : list string) sep :
  parts ≠ [] → Forall (λ p, str_free sep p = true) parts → Split (Join parts (String sep EmptyString)) sep = parts.
Proof.
  induction parts as [|p parts IH]; [done|]. intros _ [Hp Hl]%Forall_cons.
  destruct parts as [|q parts]; [by apply Split_free|].
  change (Join (p :: q :: parts) (String sep EmptyString))
    with (p +:+ String sep (Join (q :: parts) (String sep EmptyString))).
  rewrite Split_sep by done. by rewrite IH.
Qed.

(** ** bufio.Scanner

    The lines that a scanner finds, without the return at their ends; a last
    line that is empty is none. *)
Definition drop_return (line : string) : string :=
  match String.get (String.length line - 1) line with
  | Some c => if Ascii.eqb c (ascii_of_nat 13) then str_take (String.length line - 1) line else line
  | None => line
  end.

Fixpoint raw_lines (lines : list string) : list string :=
  match lines with
  | [] => []
  | [l] => if decide (l = "") then [] else [l]
  | l :: lines' => l :: raw_lines lines'
  end.

(** ** sort.SliceStable *)

Section sort.
Context {A : Type} (less : A → A → bool).

(** One pass of the inner loop: the element moves left past the larger ones of
    the sorted prefix, which is held in reverse. *)
Fixpoint sort_insert (x : A) (rp : list A) : list A :=
  match rp with
  | [] => [x]
  | y :: rp' => if less x y then y :: sort_insert x rp' else x :: rp
  end.

Definition SliceStable (l : list A) : list A :=
  rev (fold_left (λ rp x, sort_insert x rp) l []).

Lemma sort_insert_perm x rp : sort_insert x rp ≡ₚ x :: rp.
Proof.
  induction rp as [|y rp IH]; cbn; [done|]. destruct (less x y); [|done].
  rewrite IH. apply Permutation_swap.
Qed.

Lemma SliceStable_perm l : SliceStable l ≡ₚ l.
Proof.
  unfold SliceStable. rewrite <- Permutation_rev.
  assert (∀ rp, fold_left (λ rp x, sort_insert x rp) l rp ≡ₚ rp ++ l) as H.
  { induction l as [|x l IH]; intros rp; cbn; [by rewrite app_nil_r|].
    rewrite IH, sort_insert_perm. cbn. by rewrite Permutation_middle. }
  apply H.
Qed.

(** On a strict weak order ([less] is transitive and so is its incomparability,
    both folded into the transitivity of [le]) the result is sorted. *)
Let le (x y : A) : Prop := less y x = false.
Context (P : A → Prop).
Context (le_total : ∀ x y, P x → P y → le x y ∨ le y x).
Context (le_trans : ∀ x y z, P x → P y → P z → le x y → le y z → le x z).

Lemma sort_insert_sorted x rp :
  P x → Forall P rp →
  StronglySorted (flip le) rp → StronglySorted (flip le) (sort_insert x rp).
Proof.
  intros Px. induction 1 as [|y rp Py Prp IH]; cbn; intros Hs.
  { constructor; [constructor|done]. }
  apply StronglySorted_cons in Hs as [Hy Hs].
  destruct (less x y) eqn:E.
  - apply StronglySorted_cons. split; [|by apply IH].
    rewrite sort_insert_perm. constructor; [|done].
    unfold flip. destruct (le_total x y) as [|H]; [done..|]. unfold le in H. congruence.
  - apply StronglySorted_cons. split; [|by apply StronglySorted_cons].
    constructor; [done|]. rewrite Forall_forall in Hy, Prp |- *.
    intros z Hz. eapply le_trans; [..|apply (Hy z Hz)|]; auto.
Qed.

Lemma SliceStable_sorted l :
  Forall P l → StronglySorted le (SliceStable l).
Proof.
  intros Pl. unfold SliceStable.
  assert (∀ rp, Forall P rp → StronglySorted (flip le) rp →
    StronglySorted (flip le) (fold_left (λ rp x, sort_insert x rp) l rp)) as H.
  { induction Pl as [|x l Px Pl IH]; intros rp Prp Hs; cbn; [done|].
    apply IH; [rewrite sort_insert_perm; by constructor|by apply sort_insert_sorted]. }
  specialize (H [] (Forall_nil_2 _) (SSorted_nil _)).
  remember (fold_left _ l []) as rp eqn:E. clear E Pl.
  induction H as [|x rp Hs IH Hx]; cbn; [constructor|].
  apply StronglySorted_app. split; [|split; [done|repeat constructor]].
  intros a b Ha Hb%list_elem_of_singleton. subst b.
  rewrite Forall_forall in Hx. apply Hx. by rewrite <- Permutation_rev in Ha.
Qed.

End sort.

(** [sort.Strings]. *)
Definition sort_Strings (l : list string) : list string := SliceStable String.ltb l.

(** Its result does not depend on the order of the elements. *)
Lemma sort_Strings_perm l l' : l ≡ₚ l' → sort_Strings l = sort_Strings l'.
Proof.
  intros Hl. set (le x y := String.ltb y x = false).
  assert (∀ x y, String.ltb x y = true → le x y) as Hlt.
  { intros x y H. unfold le. destruct (String.ltb y x) eqn:E; [|done].
    by rewrite <- (string_ltb_irrefl x), (string_ltb_trans x y x). }
  assert (∀ x y z, le x y → le y z → le x z) as Htrans.
  { intros x y z Hxy Hyz. unfold le in Hyz |- *. destruct (String.ltb z x) eqn:E; [|done].
    destruct (String.ltb x y) eqn:E'; [by rewrite (string_ltb_trans z x y) in Hyz|].
    by rewrite (string_ltb_total x y), Hyz in E. }
  assert (∀ k, StronglySorted le (sort_Strings k)) as Hsort.
  { intros k. apply (SliceStable_sorted String.ltb (λ _, True)); [|by intros x y z _ _ _; apply (Htrans x y z)|by apply Forall_true].
    intros x y _ _. destruct (String.ltb x y) eqn:E; [left; by apply Hlt|by right]. }
  assert (AntiSymm (=) le) by (intros x y H1 H2; by apply string_ltb_total).
  apply (StronglySorted_unique le); [apply Hsort..|].
  unfold sort_Strings. by rewrite !SliceStable_perm.
Qed.

(** ** Goroutines on a ticker

    [for { select { case <-ctx.Done(): return; case <-stopCh: return; case t :=
    <-ticker.C: ... } }], with the channel that the component's Stop closes. *)

Record Loop (A : Type) := mkLoop {
  lp_state : A;
  lp_ctxDone : bool;
  lp_stopped : bool;
  lp_running : bool
}.
Arguments mkLoop {A} _ _ _ _.
Arguments lp_state {A} _.
Arguments lp_ctxDone {A} _.
Arguments lp_stopped {A} _.
Arguments lp_running {A} _.

#[export] Instance Loop_eta A : Settable (Loop A) := λ l,
  mkLoop (lp_state l) (lp_ctxDone l) (lp_stopped l) (lp_running l).

Definition go_loop {A} (a : A) : Loop A := mkLoop a false false true.

(** A closed channel stays closed. *)
Definition loop_stop {A} (l : Loop A) : Loop A := l <| lp_stopped := true |>.
Definition loop_cancel {A} (l : Loop A) : Loop A := l <| lp_ctxDone := true |>.

Inductive LoopCase (T : Type) := LoopDone | LoopStopped | LoopTick (t : T).
Arguments LoopDone {T}.
Arguments LoopStopped {T}.
Arguments LoopTick {T} _.

Section loop.
Context {A T : Type} (tick : T → A → bool * A).
Implicit Types l : Loop A.

(** Of the cases that are ready any one is taken: a tick may be taken after a
    stop, and nothing is after the return. A tick tells whether the goroutine
    goes on. *)
Definition loop_turn l (c : LoopCase T) : Loop A :=
  if negb (lp_running l) then l
  else match c with
  | LoopDone => if lp_ctxDone l then l <| lp_running := false |> else l
  | LoopStopped => if lp_stopped l then l <| lp_running := false |> else l
  | LoopTick t => let '(on, a) := tick t (lp_state l) in l <| lp_state := a |> <| lp_running := on |>
  end.

Definition loop_run (cs : list (LoopCase T)) l : Loop A := fold_left loop_turn cs l.

(** The turns of the goroutine, with what others do in between. *)
Inductive loop_step (others : A → A → Prop) : Loop A → Loop A → Prop :=
| step_turn l c : loop_step others l (loop_turn l c)
| step_call l a : others (lp_state l) a → loop_step others l (l <| lp_state := a |>)
| step_loop_stop l : loop_step others l (loop_stop l)
| step_loop_cancel l : loop_step others l (loop_cancel l).

Lemma loop_keeps (others : A → A → Prop) (P : A → Prop) l l' :
  (∀ t a, P a → P (tick t a).2) → (∀ a a', P a → others a a' → P a') →
  rtc (loop_step others) l l' → P (lp_state l) → P (lp_state l').
Proof.
  intros Ht Ho Hrun. induction Hrun as [|l1 l2 l3 Hstep _ IH]; [done|]. intros HP. apply IH.
  destruct Hstep as [l c|l a Ha|l|l]; [|by eapply Ho|done|done].
  unfold loop_turn. destruct (lp_running l); [|done]. destruct c; cbn; [by destruct (lp_ctxDone l)|by destruct (lp_stopped l)|].
  specialize (Ht t _ HP). by destruct (tick t (lp_state l)).
Qed.

Lemma loop_run_keeps (P : A → Prop) cs l :
  (∀ t a, P a → P (tick t a).2) → P (lp_state l) → P (lp_state (loop_run cs l)).
Proof.
  intros Ht. apply (loop_keeps (=) P); [done|by intros a a' HP <-|].
  revert l. induction cs as [|c cs IH]; intros l; [done|]. eapply rtc_l; [constructor|apply IH].
Qed.

(** A goroutine that has returned does nothing more. *)
Lemma loop_returned (others : A → A → Prop) l l' :
  (∀ a a', others a a' → a' = a) → rtc (loop_step others) l l' → lp_running l = false →
  lp_state l' = lp_state l ∧ lp_running l' = false.
Proof.
  intros Ho Hrun. induction Hrun as [|l1 l2 l3 Hstep _ IH]; [done|]. intros Hr.
  assert (lp_state l2 = lp_state l1 ∧ lp_running l2 = false) as [E E2].
  { destruct Hstep as [l c|l a Ha%Ho|l|l]; [unfold loop_turn; by rewrite Hr|by subst a|done|done]. }
  rewrite <- E. by apply IH.
Qed.

(** Once the context is done or the channel closed, the case is there to be
    taken and the goroutine returns. *)
Lemma loop_ends l : lp_ctxDone l = true ∨ lp_stopped l = true →
  ∃ c, lp_running (loop_turn l c) = false ∧ lp_state (loop_turn l c) = lp_state l.
Proof.
  intros H. destruct (lp_running l) eqn:Hr; [|exists LoopDone; unfold loop_turn; by rewrite Hr].
  destruct H as [H|H]; [exists LoopDone|exists LoopStopped]; unfold loop_turn; by rewrite Hr, H.
Qed.

End loop.

(** The ticks of a ticker that is started at [start] with period [p]. *)
Definition ticker (start p : Z) (n : nat) : list Z := (λ k, start + Z.of_nat (S k) * p) <$> seq 0 n.

Lemma ticker_S start p n : ticker start p (S n) = ticker start p n ++ [start + Z.of_nat (S n) * p].
Proof. unfold ticker. by rewrite seq_S, fmap_app. Qed.

(** The first tick that is not before a deadline comes within one period. *)
Lemma ticker_reaches start p deadline :
  0 < p → ∃ n, (0 < n)%nat ∧ deadline ≤ start + Z.of_nat n * p ≤ Z.max start deadline + p.
Proof.
  intros Hp. exists (Z.to_nat (Z.max 0 (deadline - start) / p + 1)).
  pose proof (Z.div_mod (Z.max 0 (deadline - start)) p ltac:(lia)).
  pose proof (Z.mod_pos_bound (Z.max 0 (deadline - start)) p Hp).
  pose proof (Z.div_pos (Z.max 0 (deadline - start)) p ltac:(lia) Hp).
  split; [lia|]. rewrite Z2Nat.id by lia. nia.
Qed.
