(* ===== verification/GoFloat.v ===== *)
(** * float64 and formatting

    Go's [float64] is IEEE 754 binary64 with rounding to nearest even: the
    operations are those of [SpecFloat] at precision 53 and maximal exponent
    1024. A constant such as [1e-9] is the nearest float64, which is the
    correctly rounded quotient of two exactly represented integers. After them
    the verbs and Stringers that messages use: [time.Duration.String],
    [time.Duration.Round] and the verb [%.1f]; the shortest decimal of a float is
    the class [FloatText]. *)

From stdpp Require Import base option strings list pretty.
From Stdlib Require Import ZArith Lia Ascii SpecFloat.
From S2P Require Import Prelude GoLib.

Abbreviation float64 := spec_float (only parsing).

Definition fprec : Z := 53.
Definition femax : Z := 1024.

Definition fadd : float64 → float64 → float64 := SFadd fprec femax.
Definition fsub : float64 → float64 → float64 := SFsub fprec femax.
Definition fmul : float64 → float64 → float64 := SFmul fprec femax.
Definition fdiv : float64 → float64 → float64 := SFdiv fprec femax.
Definition fabs : float64 → float64 := SFabs.
Definition flt : float64 → float64 → bool := SFltb.
Definition fle : float64 → float64 → bool := SFleb.
Definition fgt (x y : float64) : bool := SFltb y x.
Definition feq : float64 → float64 → bool := SFeqb.

(** The conversion [float64(n)] of an integer. *)
Definition float_of_int (n : Z) : float64 := binary_normalize fprec femax n 0 false.

Definition fone : float64 := float_of_int 1.
Definition fzero : float64 := S754_zero false.

(** The integer part [|m * 2^e|] rounded down, and whether it is exact. *)
Definition trunc_abs (m : positive) (e : Z) : Z * bool :=
  let v := Zpos m in
  if 0 <=? e then (Z.shiftl v e, true)
  else (Z.shiftr v (- e), Z.eqb (Z.shiftl (Z.shiftr v (- e)) (- e)) v).

(** [math.Floor] and [math.Ceil] followed by [int(...)]: [None] when the value
    is a NaN, an infinity or outside of the int64 range, where the result of
    the conversion is implementation-dependent. *)
Definition in_int64 (n : Z) : option Z :=
  if (- 2 ^ 63 <=? n) && (n <? 2 ^ 63) then Some n else None.

Definition int_of_floor (x : float64) : option Z :=
  match x with
  | S754_zero _ => Some 0
  | S754_finite s m e =>
    let '(t, exact) := trunc_abs m e in
    in_int64 (if s then (if exact then - t else - t - 1) else t)
  | _ => None
  end.

Definition int_of_ceil (x : float64) : option Z :=
  match x with
  | S754_zero _ => Some 0
  | S754_finite s m e =>
    let '(t, exact) := trunc_abs m e in
    in_int64 (if s then - t else (if exact then t else t + 1))
  | _ => None
  end.

(** [int(x)] of a float that is not in the range of int: the language leaves
    the value to the implementation. *)
Class FloatConv := { int_of_unrepresentable : float64 → Z }.

(** amd64 converts every float that does not fit to the smallest int. *)
Definition amd64 : FloatConv := {| int_of_unrepresentable := λ _, - 2 ^ 63 |}.

(** [int64(x)], which cuts off the fraction. *)
Definition int_of_float `{!FloatConv} (x : float64) : Z :=
  default (int_of_unrepresentable x)
    match x with
    | S754_zero _ => Some 0
    | S754_finite s m e => let '(t, _) := trunc_abs m e in in_int64 (if s then - t else t)
    | _ => None
    end.

(** ** The order of float64

    Two floats that are not NaN compare as their keys do, lexicographically. *)

Definition fkey (x : float64) : Z * Z * Z :=
  match x with
  | S754_infinity false => (2, 0, 0)
  | S754_finite false m e => (1, e, Zpos m)
  | S754_zero _ | S754_nan => (0, 0, 0)
  | S754_finite true m e => (-1, - e, Zneg m)
  | S754_infinity true => (-2, 0, 0)
  end.

Definition is_nan (x : float64) : bool :=
  match x with S754_nan => true | _ => false end.

Definition lex3 (p q : Z * Z * Z) : comparison :=
  cmp_seq (p.1.1 ?= q.1.1) (cmp_seq (p.1.2 ?= q.1.2) (p.2 ?= q.2)).

Lemma fcompare_key x y :
  is_nan x = false → is_nan y = false → SFcompare x y = Some (lex3 (fkey x) (fkey y)).
Proof.
  destruct x as [|[]| |[] m e], y as [|[]| |[] m' e']; try done; intros _ _; cbn; f_equal.
  - unfold lex3; cbn. rewrite Z.compare_opp, (Z.compare_antisym e e').
    by destruct (e ?= e').
  - unfold lex3; cbn. by destruct (e ?= e').
Qed.

Lemma good_cmp_lex3 : good_cmp lex3.
Proof.
  unfold lex3. repeat apply good_cmp_seq; apply good_cmp_on, good_cmp_Z.
Qed.

Lemma lex3_eq p q : lex3 p q = Eq ↔ p = q.
Proof.
  destruct p as [[a b] c], q as [[a' b'] c']; unfold lex3; cbn.
  destruct (Z.compare_spec a a'), (Z.compare_spec b b'), (Z.compare_spec c c');
    subst; split; intros; try done; simplify_eq; lia.
Qed.

Lemma feq_nan x y : feq x y = true → is_nan x = false ∧ is_nan y = false.
Proof. by destruct x, y. Qed.

Lemma feq_key x y :
  is_nan x = false → is_nan y = false → (feq x y = true ↔ fkey x = fkey y).
Proof.
  intros Hx Hy. unfold feq, SFeqb. rewrite (fcompare_key x y) by done.
  rewrite <- lex3_eq. by destruct (lex3 _ _).
Qed.

Lemma flt_key x y :
  is_nan x = false → is_nan y = false → flt x y = true ↔ lex3 (fkey x) (fkey y) = Lt.
Proof.
  intros Hx Hy. unfold flt, SFltb. rewrite (fcompare_key x y) by done.
  by destruct (lex3 _ _).
Qed.

Lemma flt_nan_r x y : is_nan y = true → flt x y = false.
Proof. by destruct y, x. Qed.

(** ** Durations *)

Definition digit_char (d : Z) : ascii := ascii_of_N (48 + Z.to_N d).

(** [fmtFrac]: the last [prec] decimal digits of [v] as a fraction without
    trailing zeros, before [buf], and what is left of [v]. *)
Fixpoint fmtFrac (prec : nat) (v : Z) (print : bool) (buf : string) : Z * bool * string :=
  match prec with
  | O => (v, print, buf)
  | S prec' =>
    let digit := v `mod` 10 in
    let print := print || negb (digit =? 0) in
    fmtFrac prec' (v / 10) print (if print then String (digit_char digit) buf else buf)
  end.

Definition with_frac (prec : nat) (v : Z) (unit_ : string) : Z * string :=
  let '(v, print, buf) := fmtFrac prec v false unit_ in
  (v, if print then String "."%char buf else buf).

(** The two bytes of the micro sign before the [s]. *)
Definition micros : string := String (ascii_of_nat 194) (String (ascii_of_nat 181) "s").

Definition Duration_String (d : Duration) : string :=
  let u := Z.abs d in
  let body :=
    if u <? Second then
      if u =? 0 then "0s"
      else
        let '(v, buf) :=
          if u <? 1000 then with_frac 0 u "ns"
          else if u <? Millisecond then with_frac 3 u micros
          else with_frac 6 u "ms" in
        Itoa v +:+ buf
    else
      let '(secs, buf) := with_frac 9 u "s" in
      let s := Itoa (secs `mod` 60) +:+ buf in
      let mins := secs / 60 in
      if mins =? 0 then s
      else
        let s := Itoa (mins `mod` 60) +:+ "m" +:+ s in
        let hours := mins / 60 in
        if hours =? 0 then s else Itoa hours +:+ "h" +:+ s
  in if d <? 0 then "-" +:+ body else body.

(** [d.Round(m)] for [0 < m], without the saturation at the limits of int64:
    halves are rounded away from zero. *)
Definition Duration_Round (m d : Duration) : Duration :=
  let r := Z.rem d m in
  if d <? 0 then (if - r * 2 <? m then d - r else d - r - m)
  else if r * 2 <? m then d - r else d - r + m.

(** ** [%.1f] *)

(** [|m * 2^e| * 10] to the nearest integer, ties to even. *)
Definition tenths (m : positive) (e : Z) : Z :=
  let n := 10 * Zpos m in
  if 0 <=? e then Z.shiftl n e
  else
    let q := Z.shiftr n (- e) in
    let rest := n - Z.shiftl q (- e) in
    let half := Z.shiftl 1 (- e - 1) in
    if rest <? half then q
    else if half <? rest then q + 1
    else if Z.even q then q else q + 1.

Definition fmt_float1 (x : float64) : string :=
  match x with
  | S754_nan => "NaN"
  | S754_infinity false => "+Inf"
  | S754_infinity true => "-Inf"
  | S754_zero s => if s then "-0.0" else "0.0"
  | S754_finite s m e =>
    let t := tenths m e in
    (if s then "-" else "") +:+ Itoa (t / 10) +:+ "." +:+ Itoa (t `mod` 10)
  end.

(** The shortest decimal text of a float64: the verb [%g], what encoding/json
    writes, and [strconv.ParseFloat]; [None] is out of range. *)
Class FloatText := {
  ft_g : float64 → string;
  ft_json : float64 → string;
  ft_parse : string → option float64
}.

Example Duration_String_ex :
  Duration_String (3600 * Second + 90 * Second + 500 * Millisecond) = "1h1m30.5s"
  ∧ Duration_String (1500 * 1000) = "1.5ms" ∧ Duration_String (- 61 * Second) = "-1m1s".
Proof. by vm_compute. Qed.

Example fmt_float1_ex :
  fmt_float1 (float_of_int 70) = "70.0"
  ∧ fmt_float1 (fdiv (float_of_int (-1)) (float_of_int 4)) = "-0.2".
Proof. by vm_compute. Qed.
