(* ===== verification/GoTime.v ===== *)
(** * Formatting of times

    [time.Time.Format] in UTC for the layouts that the control plane uses. A
    time is its nanoseconds since the start of year 1, so its date is that of
    the Gregorian calendar, extended to the past. *)

From stdpp Require Import base option strings list pretty.
From Stdlib Require Import ZArith Lia Ascii SpecFloat.
From S2P Require Import Prelude GoLib GoFloat.

(** Year, month and day of a day, counted from January 1 of year 1. Years are
    taken to start in March, so that the leap day comes last; 400 years have
    146097 days. *)
Definition civil (day : Z) : Z * Z * Z :=
  let z := day + 306 in
  let era := z / 146097 in
  let doe := z `mod` 146097 in
  let yoe := (doe - doe / 1460 + doe / 36524 - doe / 146096) / 365 in
  let doy := doe - (365 * yoe + yoe / 4 - yoe / 100) in
  let mp := (5 * doy + 2) / 153 in
  let month := if mp <? 10 then mp + 3 else mp - 9 in
  (yoe + era * 400 + (if month <=? 2 then 1 else 0), month, doy - (153 * mp + 2) / 5 + 1).

Fixpoint zeros (n : nat) : string :=
  match n with O => EmptyString | S n => String "0"%char (zeros n) end.

(** At least [n] digits. *)
Definition pad (n : nat) (v : Z) : string := zeros (n - String.length (Itoa v)) +:+ Itoa v.

Definition day_of (t : Time) : Z := t / (86400 * Second).

(** The layout 2006-01-02T15:04:05. *)
Definition format_seconds (t : Time) : string :=
  let '(year, month, day) := civil (day_of t) in
  let secs := (t / Second) `mod` 86400 in
  pad 4 year +:+ "-" +:+ pad 2 month +:+ "-" +:+ pad 2 day +:+ "T"
  +:+ pad 2 (secs / 3600) +:+ ":" +:+ pad 2 ((secs / 60) `mod` 60) +:+ ":" +:+ pad 2 (secs `mod` 60).

(** [time.RFC3339], and the API's layout 2006-01-02T15:04:05Z. *)
Definition format_rfc3339 (t : Time) : string := format_seconds t +:+ "Z".

(** [time.RFC3339Nano]: the fraction without trailing zeros, if there is one. *)
Definition format_rfc3339_nano (t : Time) : string :=
  format_seconds t +:+ (with_frac 9 (t `mod` Second) "Z").2.

(** January 1, 1970 is day 719162. *)
Example format_rfc3339_ex :
  format_rfc3339 0 = "0001-01-01T00:00:00Z" ∧
  format_rfc3339 (719162 * 86400 * Second) = "1970-01-01T00:00:00Z" ∧
  format_rfc3339 ((62135596800 + 1709210096) * Second) = "2024-02-29T12:34:56Z" ∧
  format_rfc3339_nano ((62135596800 + 1709210096) * Second + 120340000) = "2024-02-29T12:34:56.12034Z" ∧
  format_rfc3339_nano ((62135596800 + 1709210096) * Second) = "2024-02-29T12:34:56Z".
Proof. vm_compute. done. Qed.

(** Only digits and the marks of the layout occur. *)
Definition time_mark (c : ascii) : bool :=
  is_digit c || existsb (Ascii.eqb c) ["-"; "T"; ":"; "."; "Z"]%char.

#[local] Arguments Ascii.eqb : simpl never.

Lemma zeros_free c n : is_digit c = false → str_free c (zeros n) = true.
Proof.
  intros Hc. induction n as [|n IH]; cbn; [done|]. rewrite IH, andb_true_r, negb_true_iff.
  apply Ascii.eqb_neq. by intros <-.
Qed.

Lemma pad_free c n v : is_digit c = false → Ascii.eqb "-" c = false → str_free c (pad n v) = true.
Proof. intros Hc Hd. unfold pad. rewrite str_free_app, zeros_free by done. apply Itoa_free; auto. Qed.

Lemma digit_char_free c v : is_digit c = false → 0 ≤ v < 10 → Ascii.eqb (digit_char v) c = false.
Proof.
  intros Hc Hv. apply Ascii.eqb_neq. intros <-. revert Hc. unfold is_digit, digit_char.
  rewrite N_ascii_embedding by lia. intros Hc. apply andb_false_iff in Hc as [?%N.leb_gt|?%N.ltb_ge]; lia.
Qed.

Lemma fmtFrac_free c prec : is_digit c = false → ∀ v print buf,
  str_free c buf = true → str_free c (fmtFrac prec v print buf).2 = true.
Proof.
  intros Hc. induction prec as [|prec IH]; intros v print buf Hb; cbn [fmtFrac]; [done|].
  apply IH. destruct (print || _); [|done]. cbn.
  rewrite digit_char_free by (done || apply Z.mod_pos_bound; lia). done.
Qed.

Lemma format_nano_free c t : time_mark c = false → str_free c (format_rfc3339_nano t) = true.
Proof.
  unfold time_mark. rewrite orb_false_iff. intros [Hc Hm].
  assert (∀ d, d ∈ ["-"; "T"; ":"; "."; "Z"]%char → Ascii.eqb d c = false) as Hd.
  { intros d Hd. apply Ascii.eqb_neq. intros ->. apply not_true_iff_false in Hm. apply Hm.
    apply existsb_exists. exists c. rewrite Ascii.eqb_refl. split; [by apply list_elem_of_In|done]. }
  assert (Ascii.eqb "-" c = false ∧ Ascii.eqb "T" c = false ∧ Ascii.eqb ":" c = false
    ∧ Ascii.eqb "." c = false ∧ Ascii.eqb "Z" c = false) as (H1 & H2 & H3 & H4 & H5).
  { split_and!; apply Hd; repeat (by left) || right. }
  unfold format_rfc3339_nano, format_seconds, with_frac. destruct (civil _) as [[year month] day].
  pose proof (fmtFrac_free c 9 Hc (t `mod` Second) false "Z") as Hf.
  destruct (fmtFrac _ _ _ _) as [[v print] buf]. cbn [snd] in Hf |- *.
  rewrite !str_free_app, !pad_free by done. cbn [str_free]. rewrite H1, H2, H3. cbn.
  assert (str_free c buf = true) as Hb by (apply Hf; cbn; by rewrite H5).
  destruct print; cbn; by rewrite ?H4.
Qed.
