(* ===== verification/PtrStore.v ===== *)
(** * Records behind pointers, reached through two maps

    Several components keep pointers to the same record in two Go maps (a
    primary one and an index) and update the record in place, so that a write
    through one map is read through the other. [Store] is that shared heap:
    the cells, and the two maps from strings to cells. *)

From stdpp Require Import base option gmap strings list.
From Stdlib Require Import ZArith Lia.
From S2P Require Import Prelude.

Record Store (V : Type) := mkStore {
  st_heap : gmap nat V;
  st_next : nat;
  st_pri : gmap string nat;
  st_sec : gmap string nat
}.
Arguments mkStore {V} _ _ _ _.
Arguments st_heap {V} _.
Arguments st_next {V} _.
Arguments st_pri {V} _.
Arguments st_sec {V} _.

#[export] Instance Store_eta V : Settable (Store V) :=
  λ s, mkStore (st_heap s) (st_next s) (st_pri s) (st_sec s).

Section store.
Context {V : Type}.
Implicit Types (s : Store V) (v : V) (l : nat) (k : string).

Definition st_empty : Store V := mkStore ∅ 0 ∅ ∅.

(** [&v]: a new cell, [st_next s], that holds [v]. *)
Definition st_alloc v s : Store V :=
  s <| st_heap ::= <[st_next s := v]> |> <| st_next ::= S |>.

(** [*l = v]. *)
Definition st_write l v s : Store V := s <| st_heap ::= <[l := v]> |>.

Definition link_pri k l s : Store V := s <| st_pri ::= <[k := l]> |>.
Definition link_sec k l s : Store V := s <| st_sec ::= <[k := l]> |>.

Definition get_pri k s : option V := st_pri s !! k ≫= λ l, st_heap s !! l.
Definition get_sec k s : option V := st_sec s !! k ≫= λ l, st_heap s !! l.

(** What the primary map reads. *)
Definition pri_view s : gmap string V := omap (λ l, st_heap s !! l) (st_pri s).

(** No pointer dangles, cells are allocated in order, and the primary map has
    a cell of its own for every key. *)
Record st_wf s : Prop := {
  wf_pri : ∀ k l, st_pri s !! k = Some l → is_Some (st_heap s !! l);
  wf_sec : ∀ k l, st_sec s !! k = Some l → is_Some (st_heap s !! l);
  wf_next : ∀ l, is_Some (st_heap s !! l) → (l < st_next s)%nat;
  wf_inj : ∀ k k' l, st_pri s !! k = Some l → st_pri s !! k' = Some l → k = k'
}.

Lemma lookup_pri_view s k : pri_view s !! k = get_pri k s.
Proof. unfold pri_view, get_pri. by rewrite lookup_omap. Qed.

Lemma st_wf_empty : st_wf st_empty.
Proof. split; cbn; intros *; rewrite ?lookup_empty; first [done|by intros []]. Qed.

Lemma wf_fresh s : st_wf s → st_heap s !! st_next s = None.
Proof.
  intros H. destruct (st_heap s !! st_next s) eqn:E; [|done].
  pose proof (wf_next s H (st_next s) (mk_is_Some _ _ E)). lia.
Qed.

Lemma wf_pri_fresh s k : st_wf s → st_pri s !! k ≠ Some (st_next s).
Proof.
  intros H E. apply (wf_pri s H) in E as [? E]. rewrite wf_fresh in E; done.
Qed.

Lemma wf_sec_fresh s k : st_wf s → st_sec s !! k ≠ Some (st_next s).
Proof.
  intros H E. apply (wf_sec s H) in E as [? E]. rewrite wf_fresh in E; done.
Qed.

Lemma st_wf_alloc s v : st_wf s → st_wf (st_alloc v s).
Proof.
  intros H. split; cbn.
  - intros k l Hl. apply (wf_pri s H) in Hl. rewrite lookup_insert. by case_decide.
  - intros k l Hl. apply (wf_sec s H) in Hl. rewrite lookup_insert. by case_decide.
  - intros l. rewrite lookup_insert. case_decide; [lia|].
    intros Hl%(wf_next s H). lia.
  - apply (wf_inj s H).
Qed.

Lemma st_wf_write s l v : st_wf s → is_Some (st_heap s !! l) → st_wf (st_write l v s).
Proof.
  intros H Hl. split; cbn.
  - intros k l' Hl'. apply (wf_pri s H) in Hl'. rewrite lookup_insert. by case_decide.
  - intros k l' Hl'. apply (wf_sec s H) in Hl'. rewrite lookup_insert. by case_decide.
  - intros l'. rewrite lookup_insert. case_decide; subst; intros; by apply (wf_next s H).
  - apply (wf_inj s H).
Qed.

Lemma st_wf_link_pri s k l :
  st_wf s → is_Some (st_heap s !! l) → (∀ k', st_pri s !! k' = Some l → k' = k) →
  st_wf (link_pri k l s).
Proof.
  intros H Hl Hk. split; cbn.
  - intros k' l'. rewrite lookup_insert. case_decide; [by intros [= <-]|apply (wf_pri s H)].
  - apply (wf_sec s H).
  - apply (wf_next s H).
  - intros k1 k2 l'. rewrite !lookup_insert. repeat case_decide; subst; try done.
    + intros [= ->] E. symmetry. by apply Hk.
    + intros E [= ->]. by apply Hk.
    + apply (wf_inj s H).
Qed.

Lemma st_wf_link_sec s k l :
  st_wf s → is_Some (st_heap s !! l) → st_wf (link_sec k l s).
Proof.
  intros H Hl. split; cbn; [apply (wf_pri s H)| |apply (wf_next s H)|apply (wf_inj s H)].
  intros k' l'. rewrite lookup_insert. case_decide; [by intros [= <-]|apply (wf_sec s H)].
Qed.

Lemma get_pri_cell s k v : get_pri k s = Some v → ∃ l, st_pri s !! k = Some l ∧ st_heap s !! l = Some v.
Proof. unfold get_pri. destruct (st_pri s !! k) eqn:E; naive_solver. Qed.

Lemma get_sec_cell s k v : get_sec k s = Some v → ∃ l, st_sec s !! k = Some l ∧ st_heap s !! l = Some v.
Proof. unfold get_sec. destruct (st_sec s !! k) eqn:E; naive_solver. Qed.

Lemma get_pri_None s k : st_wf s → (get_pri k s = None ↔ st_pri s !! k = None).
Proof.
  intros H. unfold get_pri. destruct (st_pri s !! k) as [l|] eqn:E; [|done]; cbn.
  apply (wf_pri s H) in E as [v ->]. done.
Qed.

(** Writing the cell of a key changes the primary map at that key only. *)
Lemma get_pri_write s k l v k' :
  st_wf s → st_pri s !! k = Some l →
  get_pri k' (st_write l v s) = if decide (k = k') then Some v else get_pri k' s.
Proof.
  intros H Hk. unfold get_pri; cbn. destruct (st_pri s !! k') as [l'|] eqn:Hk'; cbn.
  - rewrite lookup_insert. destruct (decide (l = l')) as [<-|Hne].
    + by rewrite decide_True by (eapply (wf_inj s H); eauto).
    + rewrite decide_False; [done|]. intros ->. congruence.
  - rewrite decide_False; [done|]. intros ->. congruence.
Qed.

Lemma get_sec_write s l v k' :
  get_sec k' (st_write l v s) =
  if decide (st_sec s !! k' = Some l) then Some v else get_sec k' s.
Proof.
  unfold get_sec; cbn. destruct (st_sec s !! k') as [l'|]; cbn; [|done].
  rewrite lookup_insert. repeat case_decide; naive_solver.
Qed.

Lemma get_pri_link_pri s k l k' :
  get_pri k' (link_pri k l s) = if decide (k = k') then st_heap s !! l else get_pri k' s.
Proof. unfold get_pri; cbn. rewrite lookup_insert. by case_decide. Qed.

Lemma get_pri_link_sec s k l k' : get_pri k' (link_sec k l s) = get_pri k' s.
Proof. done. Qed.

Lemma get_sec_link_sec s k l k' :
  get_sec k' (link_sec k l s) = if decide (k = k') then st_heap s !! l else get_sec k' s.
Proof. unfold get_sec; cbn. rewrite lookup_insert. by case_decide. Qed.

Lemma get_sec_link_pri s k l k' : get_sec k' (link_pri k l s) = get_sec k' s.
Proof. done. Qed.

Lemma get_pri_alloc s v k' : st_wf s → get_pri k' (st_alloc v s) = get_pri k' s.
Proof.
  intros H. unfold get_pri; cbn. destruct (st_pri s !! k') as [l|] eqn:E; cbn; [|done].
  rewrite lookup_insert_ne; [done|]. intros <-. by apply (wf_pri_fresh s k' H).
Qed.

Lemma get_sec_alloc s v k' : st_wf s → get_sec k' (st_alloc v s) = get_sec k' s.
Proof.
  intros H. unfold get_sec; cbn. destruct (st_sec s !! k') as [l|] eqn:E; cbn; [|done].
  rewrite lookup_insert_ne; [done|]. intros <-. by apply (wf_sec_fresh s k' H).
Qed.

Lemma heap_alloc s v : st_heap (st_alloc v s) !! st_next s = Some v.
Proof. cbn. apply lookup_insert_eq. Qed.

Lemma heap_write s l v : st_heap (st_write l v s) !! l = Some v.
Proof. cbn. apply lookup_insert_eq. Qed.

Lemma pri_view_write s k l v :
  st_wf s → st_pri s !! k = Some l → pri_view (st_write l v s) = <[k := v]> (pri_view s).
Proof.
  intros H Hk. apply map_eq. intros k'.
  rewrite lookup_pri_view, (get_pri_write s k) by done.
  rewrite lookup_insert, lookup_pri_view. by case_decide.
Qed.

Lemma pri_view_new s k v :
  st_wf s → pri_view (link_pri k (st_next s) (st_alloc v s)) = <[k := v]> (pri_view s).
Proof.
  intros H. apply map_eq. intros k'.
  rewrite lookup_pri_view, get_pri_link_pri, heap_alloc, get_pri_alloc by done.
  rewrite lookup_insert, lookup_pri_view. by case_decide.
Qed.

Lemma pri_view_link_sec s k l : pri_view (link_sec k l s) = pri_view s.
Proof. done. Qed.

(** Allocating a record and linking it under a primary key and an index key. *)
Definition st_insert k1 k2 v s : Store V :=
  let l := st_next s in link_sec k2 l (link_pri k1 l (st_alloc v s)).

Lemma st_wf_insert s k1 k2 v : st_wf s → st_wf (st_insert k1 k2 v s).
Proof.
  intros H. apply st_wf_link_sec; [|exists v; apply heap_alloc].
  apply st_wf_link_pri; [by apply st_wf_alloc|exists v; apply heap_alloc|].
  intros k' E. by apply (wf_pri_fresh s k') in E.
Qed.

Lemma pri_view_insert s k1 k2 v :
  st_wf s → pri_view (st_insert k1 k2 v s) = <[k1 := v]> (pri_view s).
Proof. intros H. unfold st_insert. by rewrite pri_view_link_sec, pri_view_new. Qed.

Lemma get_sec_insert s k1 k2 v k' :
  st_wf s →
  get_sec k' (st_insert k1 k2 v s) = if decide (k2 = k') then Some v else get_sec k' s.
Proof.
  intros H. unfold st_insert. rewrite get_sec_link_sec, get_sec_link_pri, get_sec_alloc by done.
  case_decide; [|done]. apply heap_alloc.
Qed.

End store.
