(* ===== verification/Workers.v ===== *)
(** * Workers: internal/workers

    The worker record and its predicates (model.go, drain.go,
    schedulability.go), the health state machine (health.go), the in-memory
    repository (repository.go) and the registry (registry.go). The registry
    keeps one record per worker behind the pointers of two maps, by key and by
    ID, and updates it in place: its state is a [Store Worker] whose primary
    map is [workers] and whose index is [byID]. *)

From stdpp Require Import base option gmap strings list pretty.
From Stdlib Require Import ZArith Lia SpecFloat.
From S2P Require Import Prelude GoLib GoFloat PtrStore.

(** ** model.go *)

Inductive WorkerState := StateUnregistered | StateReady | StateDraining | StateDown.

Inductive WorkerHealth :=
| HealthUnknown | HealthHealthy | HealthSuspected | HealthUnhealthy | HealthUnreachable.

#[export] Instance WorkerState_eq_dec : EqDecision WorkerState.
Proof. solve_decision. Defined.

#[export] Instance WorkerHealth_eq_dec : EqDecision WorkerHealth.
Proof. solve_decision. Defined.

Record Worker := mkWorker {
  w_ID : string;
  w_WorkerKey : string;
  w_Hostname : string;
  w_IPAddress : string;
  w_GRPCPort : Z;
  w_Capacity : Z;
  w_Labels : gmap string string;
  w_State : WorkerState;
  w_Health : WorkerHealth;
  w_Schedulable : bool;
  w_ActiveWorkloads : Z;
  w_LastBeatAt : option Time;
  w_ConsecutiveBeats : Z;
  w_ConsecutiveMisses : Z;
  w_IsPartitioned : bool;
  w_CreatedAt : Time;
  w_UpdatedAt : Time
}.

#[export] Instance Worker_eta : Settable Worker := λ w,
  mkWorker (w_ID w) (w_WorkerKey w) (w_Hostname w) (w_IPAddress w) (w_GRPCPort w)
    (w_Capacity w) (w_Labels w) (w_State w) (w_Health w) (w_Schedulable w)
    (w_ActiveWorkloads w) (w_LastBeatAt w) (w_ConsecutiveBeats w)
    (w_ConsecutiveMisses w) (w_IsPartitioned w) (w_CreatedAt w) (w_UpdatedAt w).

#[export] Instance Worker_eq_dec : EqDecision Worker.
Proof. solve_decision. Defined.

Definition AvailableCapacity (w : Worker) : Z :=
  let available := w_Capacity w - w_ActiveWorkloads w in
  if available <? 0 then 0 else available.

Definition Utilization (w : Worker) : float64 :=
  if w_Capacity w <=? 0 then fone
  else fdiv (float_of_int (w_ActiveWorkloads w)) (float_of_int (w_Capacity w)).

Definition Address (w : Worker) : string :=
  if w_GRPCPort w =? 0 then w_IPAddress w
  else w_IPAddress w +:+ ":" +:+ Itoa (w_GRPCPort w).

Definition CapabilityBuild : string := "build".
Definition CapabilityRuntime : string := "runtime".

Definition Capability (w : Worker) : string :=
  match w_Labels w !! "capability" with
  | Some capVal => if decide (capVal = "") then CapabilityRuntime else capVal
  | None => CapabilityRuntime
  end.

Definition IsBuildWorker (w : Worker) : bool := bool_decide (Capability w = CapabilityBuild).
Definition IsRuntimeWorker (w : Worker) : bool := negb (IsBuildWorker w).

(** ** drain.go and schedulability.go *)

Definition IsDraining (w : Worker) : bool := bool_decide (w_State w = StateDraining).

Definition CanAcceptWork (w : Worker) : bool :=
  w_Schedulable w && bool_decide (w_State w ≠ StateDraining)
  && bool_decide (w_Health w ≠ HealthUnhealthy) && (0 <? AvailableCapacity w).

Record EvaluationResult := mkEval { Allowed : bool; Reason : string }.

Definition EvaluateSchedulability (w : Worker) : EvaluationResult :=
  if negb (w_Schedulable w) then mkEval false "worker schedulable flag is false"
  else if decide (w_State w = StateDraining) then mkEval false "worker is draining"
  else if decide (w_State w ≠ StateReady) then mkEval false "worker state is not ready"
  else if bool_decide (w_Health w = HealthUnhealthy)
          || bool_decide (w_Health w = HealthUnreachable) || w_IsPartitioned w
  then mkEval false "worker is unhealthy or partitioned"
  else if AvailableCapacity w <=? 0 then mkEval false "worker capacity exhausted"
  else mkEval true "worker is schedulable".

(** ** health.go *)

Record HealthStateMachineConfig := mkHealthCfg {
  HeartbeatInterval : Duration;
  SuspectedThreshold : Z;
  UnhealthyThreshold : Z;
  ConsecutiveBeatsToHeal : Z
}.

Definition DefaultHealthConfig : HealthStateMachineConfig :=
  mkHealthCfg (1 * Second) 2 3 2.

(** Go's integer division truncates towards zero. *)
Definition EvaluateHealthTransition (currentHealth : WorkerHealth)
    (elapsedSinceLastBeat : Duration) (cfg : HealthStateMachineConfig) : WorkerHealth * Z :=
  let interval := if HeartbeatInterval cfg <=? 0 then 1 * Second else HeartbeatInterval cfg in
  let missedBeats := Z.quot elapsedSinceLastBeat interval in
  if UnhealthyThreshold cfg <=? missedBeats then (HealthUnhealthy, missedBeats)
  else if SuspectedThreshold cfg <=? missedBeats then (HealthSuspected, missedBeats)
  else (HealthHealthy, missedBeats).

Definition ApplyHeartbeatSuccess (cfg : HealthStateMachineConfig) (w : Worker) : Worker :=
  let w := w <| w_ConsecutiveBeats ::= Z.succ |> <| w_ConsecutiveMisses := 0 |> in
  match w_Health w with
  | HealthUnhealthy | HealthSuspected | HealthUnreachable =>
    if ConsecutiveBeatsToHeal cfg <=? w_ConsecutiveBeats w
    then w <| w_Health := HealthHealthy |> <| w_IsPartitioned := false |>
    else w
  | _ => w <| w_Health := HealthHealthy |>
  end.

Definition IsHealthy (w : Worker) : bool := bool_decide (w_Health w = HealthHealthy).

(** [Duration.Seconds] adds the whole seconds and the remaining nanoseconds
    over 1e9. *)
Definition Seconds (d : Duration) : float64 :=
  fadd (float_of_int (Z.quot d Second))
       (fdiv (float_of_int (Z.rem d Second)) (float_of_int Second)).

Definition SecondsSinceLastHeartbeat (w : Worker) (now : Time) : float64 :=
  match w_LastBeatAt w with
  | None => float_of_int (-1)
  | Some beat => Seconds (now - beat)
  end.

(** ** repository.go *)

Definition ErrWorkerNotFound : error := "worker not found".

(** The operations of a worker repository. [wr_Upsert] also returns the record
    as the call leaves it, since the implementations stamp it. *)
Class WorkerRepository (WR : Type) := {
  wr_Upsert : Time → Worker → WR → option error * Worker * WR;
  wr_GetByID : string → WR → error + Worker;
  wr_GetByWorkerKey : string → WR → error + Worker;
  wr_List : Order → WR → error + list Worker;
  wr_UpdateHeartbeat : Time → string → Time → WR → option error * WR;
  wr_SetDrain : Time → string → bool → WR → option error * WR;
  wr_UpdateActiveWorkloads : Time → string → Z → WR → option error * WR
}.

(** What a repository promises to the registry: storing a worker stamps it and
    changes nothing else of it. *)
Class WorkerRepositoryLaws (WR : Type) `{!WorkerRepository WR} : Prop :=
  upsert_frame : ∀ now w r,
    let w' := (wr_Upsert now w r).1.2 in
    w' = w <| w_CreatedAt := w_CreatedAt w' |> <| w_UpdatedAt := w_UpdatedAt w' |>.

Definition MemoryWorkerRepository : Type := Store Worker.

Definition NewMemoryWorkerRepository : MemoryWorkerRepository := st_empty.

(** Puts a record behind a new pointer of the two maps. *)
Definition put_worker (w : Worker) (r : Store Worker) : Store Worker :=
  let l := st_next r in
  let r := link_pri (w_WorkerKey w) l (st_alloc w r) in
  if decide (w_ID w = "") then r else link_sec (w_ID w) l r.

Definition mwr_Upsert (now : Time) (w : Worker) (r : MemoryWorkerRepository) :
    option error * Worker * MemoryWorkerRepository :=
  let w := if IsZero (w_CreatedAt w) then w <| w_CreatedAt := now |> else w in
  let w := w <| w_UpdatedAt := now |> in
  (None, w, put_worker w r).

Definition mwr_GetByID (id : string) (r : MemoryWorkerRepository) : error + Worker :=
  match get_sec id r with Some w => inr w | None => inl ErrWorkerNotFound end.

Definition mwr_GetByWorkerKey (key : string) (r : MemoryWorkerRepository) : error + Worker :=
  match get_pri key r with Some w => inr w | None => inl ErrWorkerNotFound end.

Definition mwr_List (o : Order) (r : MemoryWorkerRepository) : error + list Worker :=
  inr (map_values o (pri_view r)).

(** The updates write the record of [workers[workerKey]] in place. *)
Definition mwr_update (workerKey : string) (f : Worker → Worker) (r : MemoryWorkerRepository) :
    option error * MemoryWorkerRepository :=
  match st_pri r !! workerKey, get_pri workerKey r with
  | Some l, Some w => (None, st_write l (f w) r)
  | _, _ => (Some ErrWorkerNotFound, r)
  end.

Definition mwr_UpdateHeartbeat (now : Time) (workerKey : string) (beatAt : Time)
    (r : MemoryWorkerRepository) : option error * MemoryWorkerRepository :=
  mwr_update workerKey (λ w, w <| w_LastBeatAt := Some beatAt |> <| w_UpdatedAt := now |>) r.

Definition mwr_SetDrain (now : Time) (workerKey : string) (draining : bool)
    (r : MemoryWorkerRepository) : option error * MemoryWorkerRepository :=
  mwr_update workerKey (λ w,
    (if draining then w <| w_State := StateDraining |> <| w_Schedulable := false |>
     else w <| w_State := StateReady |> <| w_Schedulable := true |>)
    <| w_UpdatedAt := now |>) r.

(** [w.ActiveWorkloads += delta], clamped at zero. *)
Definition add_workload (delta : Z) (w : Worker) : Worker :=
  let w := w <| w_ActiveWorkloads ::= λ a, a + delta |> in
  if w_ActiveWorkloads w <? 0 then w <| w_ActiveWorkloads := 0 |> else w.

Definition mwr_UpdateActiveWorkloads (now : Time) (workerKey : string) (delta : Z)
    (r : MemoryWorkerRepository) : option error * MemoryWorkerRepository :=
  mwr_update workerKey (λ w, (add_workload delta w) <| w_UpdatedAt := now |>) r.

#[export] Instance memory_worker_repository : WorkerRepository MemoryWorkerRepository := {
  wr_Upsert := mwr_Upsert;
  wr_GetByID := mwr_GetByID;
  wr_GetByWorkerKey := mwr_GetByWorkerKey;
  wr_List := mwr_List;
  wr_UpdateHeartbeat := mwr_UpdateHeartbeat;
  wr_SetDrain := mwr_SetDrain;
  wr_UpdateActiveWorkloads := mwr_UpdateActiveWorkloads
}.

#[export] Instance memory_worker_repository_laws :
  WorkerRepositoryLaws MemoryWorkerRepository.
Proof. intros now w r. cbn. by destruct (IsZero _), w. Qed.

(** ** registry.go *)

Record RegisterParams := mkRegisterParams {
  rp_WorkerKey : string;
  rp_Hostname : string;
  rp_IPAddress : string;
  rp_GRPCPort : Z;
  rp_Capacity : Z;
  rp_Labels : gmap string string
}.

Record Registry (WR : Type) := mkRegistry {
  rg_store : Store Worker;
  rg_repo : WR;
  rg_healthCfg : HealthStateMachineConfig
}.
Arguments mkRegistry {WR} _ _ _.
Arguments rg_store {WR} _.
Arguments rg_repo {WR} _.
Arguments rg_healthCfg {WR} _.

#[export] Instance Registry_eta WR : Settable (Registry WR) := λ r,
  mkRegistry (rg_store r) (rg_repo r) (rg_healthCfg r).

Section registry.
Context {WR : Type} `{!WorkerRepository WR}.
Implicit Types r : Registry WR.

(** The cache is warmed from the repository; a failing [List] leaves it empty. *)
Definition NewRegistry (o : Order) (repo : WR) : Registry WR :=
  let store :=
    match wr_List o repo with
    | inr list => fold_left (λ st w, put_worker w st) list st_empty
    | inl _ => st_empty
    end in
  mkRegistry store repo DefaultHealthConfig.

(** [findWorkerLocked] returns the pointer and the record behind it. *)
Definition findWorkerLocked (keyOrID : string) r : option (nat * Worker) :=
  match st_pri (rg_store r) !! keyOrID with
  | Some l => (l,.) <$> st_heap (rg_store r) !! l
  | None =>
    match st_sec (rg_store r) !! keyOrID with
    | Some l => (l,.) <$> st_heap (rg_store r) !! l
    | None => None
    end
  end.

Definition write_worker (l : nat) (w : Worker) r : Registry WR :=
  r <| rg_store ::= st_write l w |>.

(** The update of the fields in [Register], on a new or an existing record. *)
Definition apply_params (p : RegisterParams) (now : Time) (w : Worker) : Worker :=
  w <| w_Hostname := rp_Hostname p |> <| w_IPAddress := rp_IPAddress p |>
    <| w_GRPCPort := rp_GRPCPort p |> <| w_Capacity := rp_Capacity p |>
    <| w_Labels := rp_Labels p |> <| w_State := StateReady |>
    <| w_Health := HealthHealthy |> <| w_Schedulable := true |>
    <| w_LastBeatAt := Some now |> <| w_UpdatedAt := now |>.

Definition new_worker (uuid key : string) (now : Time) : Worker :=
  mkWorker uuid key "" "" 0 0 ∅ StateReady HealthHealthy true 0 None 0 0 false now 0.

Definition capability_error (p : RegisterParams) : option error :=
  match rp_Labels p !! "capability" with
  | Some capVal =>
    if bool_decide (capVal ≠ "") && bool_decide (capVal ≠ CapabilityBuild)
       && bool_decide (capVal ≠ CapabilityRuntime)
    then Some ("invalid capability " +:+ quote capVal +:+ ": must be "
               +:+ quote CapabilityBuild +:+ " or " +:+ quote CapabilityRuntime)
    else None
  | None => None
  end.

(** [now] is the clock at [Register], [now'] the clock at the repository and
    [uuid] the result of [uuid.New] when the key is new. *)
Definition Register (now now' : Time) (uuid : string) (p : RegisterParams) r :
    (error + Worker) * Registry WR :=
  if decide (rp_WorkerKey p = "") then (inl "worker_key is required", r)
  else match capability_error p with
  | Some e => (inl e, r)
  | None =>
    let '(l, w, st) :=
      match st_pri (rg_store r) !! rp_WorkerKey p, get_pri (rp_WorkerKey p) (rg_store r) with
      | Some l, Some w => (l, w, rg_store r)
      | _, _ =>
        let w := new_worker uuid (rp_WorkerKey p) now in
        (st_next (rg_store r), w, st_alloc w (rg_store r))
      end in
    let w := apply_params p now w in
    let '(err, w, repo) := wr_Upsert now' w (rg_repo r) in
    let st := link_pri (w_WorkerKey w) l (st_write l w st) in
    let st := if decide (w_ID w = "") then st else link_sec (w_ID w) l st in
    (inr w, r <| rg_store := st |> <| rg_repo := repo |>)
  end.

Definition SetHealthConfig (cfg : HealthStateMachineConfig) r : Registry WR :=
  r <| rg_healthCfg := cfg |>.

Definition GetHealthConfig r : HealthStateMachineConfig := rg_healthCfg r.

Definition HeartbeatAt (now' : Time) (workerIDOrKey : string) (at_ : Time) r :
    option error * Registry WR :=
  match findWorkerLocked workerIDOrKey r with
  | None => (Some ErrWorkerNotFound, r)
  | Some (l, w) =>
    let w := w <| w_LastBeatAt := Some at_ |> <| w_UpdatedAt := at_ |> in
    let w := ApplyHeartbeatSuccess (rg_healthCfg r) w in
    let '(err, repo) := wr_UpdateHeartbeat now' (w_WorkerKey w) at_ (rg_repo r) in
    (None, (write_worker l w r) <| rg_repo := repo |>)
  end.

Definition Heartbeat (now now' : Time) (workerIDOrKey : string) r :
    option error * Registry WR := HeartbeatAt now' workerIDOrKey now r.

(** The record is stamped, stored and written back, since the repository's
    [Upsert] gets the pointer. *)
Definition SetHealthWithReason (now now' : Time) (workerIDOrKey : string)
    (health : WorkerHealth) (reason : string) r : (error + Worker) * Registry WR :=
  match findWorkerLocked workerIDOrKey r with
  | None => (inl ErrWorkerNotFound, r)
  | Some (l, w) =>
    let w := w <| w_Health := health |> in
    let w := if decide (health ≠ HealthHealthy) then w <| w_ConsecutiveBeats := 0 |> else w in
    let w := w <| w_UpdatedAt := now |> in
    let '(err, w, repo) := wr_Upsert now' w (rg_repo r) in
    (inr w, (write_worker l w r) <| rg_repo := repo |>)
  end.

Definition SetHealth (now now' : Time) (workerIDOrKey : string) (health : WorkerHealth) r :
    Registry WR := (SetHealthWithReason now now' workerIDOrKey health "explicit update" r).2.

Definition SetPartitioned (now : Time) (workerIDOrKey : string) (partitioned : bool) r :
    (error + Worker) * Registry WR :=
  match findWorkerLocked workerIDOrKey r with
  | None => (inl ErrWorkerNotFound, r)
  | Some (l, w) =>
    let w := w <| w_IsPartitioned := partitioned |> in
    let w :=
      if partitioned then w <| w_Health := HealthUnreachable |> <| w_ConsecutiveBeats := 0 |>
      else if decide (w_Health w = HealthUnreachable) then w <| w_Health := HealthSuspected |>
      else w in
    let w := w <| w_UpdatedAt := now |> in
    (inr w, write_worker l w r)
  end.

Definition Drain (now now' : Time) (workerIDOrKey : string) r : (error + Worker) * Registry WR :=
  match findWorkerLocked workerIDOrKey r with
  | None => (inl ErrWorkerNotFound, r)
  | Some (l, w) =>
    let w := w <| w_State := StateDraining |> <| w_Schedulable := false |>
               <| w_UpdatedAt := now |> in
    let '(err, repo) := wr_SetDrain now' (w_WorkerKey w) true (rg_repo r) in
    (inr w, (write_worker l w r) <| rg_repo := repo |>)
  end.

Definition Undrain (now now' : Time) (workerIDOrKey : string) r : (error + Worker) * Registry WR :=
  match findWorkerLocked workerIDOrKey r with
  | None => (inl ErrWorkerNotFound, r)
  | Some (l, w) =>
    let w := w <| w_State := StateReady |> <| w_Schedulable := true |>
               <| w_UpdatedAt := now |> in
    let '(err, repo) := wr_SetDrain now' (w_WorkerKey w) false (rg_repo r) in
    (inr w, (write_worker l w r) <| rg_repo := repo |>)
  end.

Definition Get (workerIDOrKey : string) r : option Worker :=
  snd <$> findWorkerLocked workerIDOrKey r.

Definition List (o : Order) r : list Worker := map_values o (pri_view (rg_store r)).

Definition ListBuildWorkers (o : Order) r : list Worker :=
  base.filter (λ w, IsBuildWorker w = true) (List o r).

Definition ListRuntimeWorkers (o : Order) r : list Worker :=
  base.filter (λ w, IsRuntimeWorker w = true) (List o r).

Definition UpdateWorkload (workerIDOrKey : string) (delta : Z) r : Registry WR :=
  match findWorkerLocked workerIDOrKey r with
  | None => r
  | Some (l, w) => write_worker l (add_workload delta w) r
  end.

End registry.

(** ** The registry's invariant

    Every record is under its own key, every pointer of [byID] is a pointer of
    [workers], a worker with an ID is found by it at the same pointer, and no
    workload count is negative. *)

Record reg_inv (st : Store Worker) : Prop := {
  ri_wf : st_wf st;
  ri_key : ∀ k l w, st_pri st !! k = Some l → st_heap st !! l = Some w → w_WorkerKey w = k;
  ri_sec : ∀ id l w, st_sec st !! id = Some l → st_heap st !! l = Some w →
    st_pri st !! w_WorkerKey w = Some l;
  ri_id : ∀ k l w, st_pri st !! k = Some l → st_heap st !! l = Some w → w_ID w ≠ "" →
    st_sec st !! w_ID w = Some l;
  ri_load : ∀ k l w, st_pri st !! k = Some l → st_heap st !! l = Some w →
    0 ≤ w_ActiveWorkloads w
}.

Lemma reg_inv_empty : reg_inv st_empty.
Proof. split; [apply st_wf_empty|cbn; intros *; by rewrite lookup_empty..]. Qed.

(** An in-place update that keeps the identity of the record. *)
Lemma reg_inv_write st k l w w' :
  reg_inv st → st_pri st !! k = Some l → st_heap st !! l = Some w →
  w_WorkerKey w' = w_WorkerKey w → w_ID w' = w_ID w → 0 ≤ w_ActiveWorkloads w' →
  reg_inv (st_write l w' st).
Proof.
  intros [Hwf Hkey Hsec Hid Hload] Hk Hl HK HI HL. split; cbn.
  - apply st_wf_write; eauto.
  - intros k' l' v Hk'. rewrite lookup_insert. case_decide; subst; [|eauto].
    intros [= <-]. rewrite HK. eauto.
  - intros id l' v Hi. rewrite lookup_insert. case_decide; subst; [|eauto].
    intros [= <-]. rewrite HK. eauto.
  - intros k' l' v Hk'. rewrite lookup_insert. case_decide; subst; [|eauto].
    intros [= <-]. rewrite HI. eauto.
  - intros k' l' v Hk'. rewrite lookup_insert. case_decide; subst; [|eauto].
    by intros [= <-].
Qed.

(** A new record under a new key and a new ID. *)
Lemma reg_inv_put st w :
  reg_inv st → st_pri st !! w_WorkerKey w = None →
  st_sec st !! w_ID w = None → 0 ≤ w_ActiveWorkloads w →
  reg_inv (put_worker w st).
Proof.
  intros [Hwf Hkey Hsec Hid Hload] Hk Hi HL.
  assert (∀ k, st_pri st !! k ≠ Some (st_next st)) as Hp by (intros; by apply wf_pri_fresh).
  assert (∀ k, st_sec st !! k ≠ Some (st_next st)) as Hs by (intros; by apply wf_sec_fresh).
  assert (st_wf (put_worker w st)) as Hwf'.
  { unfold put_worker. cbv zeta.
    assert (st_wf (link_pri (w_WorkerKey w) (st_next st) (st_alloc w st))) as H.
    { apply st_wf_link_pri; [by apply st_wf_alloc|exists w; apply heap_alloc|].
      intros k' E. by apply Hp in E. }
    case_decide; [done|]. apply st_wf_link_sec; [done|exists w; apply heap_alloc]. }
  assert (st_heap (put_worker w st) = <[st_next st := w]> (st_heap st)) as Eh
    by (unfold put_worker; cbv zeta; by case_decide).
  assert (st_pri (put_worker w st) = <[w_WorkerKey w := st_next st]> (st_pri st)) as Ep
    by (unfold put_worker; cbv zeta; by case_decide).
  assert (∀ id l, st_sec (put_worker w st) !! id = Some l →
    (id = w_ID w ∧ l = st_next st) ∨ st_sec st !! id = Some l) as Es.
  { unfold put_worker. cbv zeta. intros id l. case_decide; cbn; [eauto|].
    rewrite lookup_insert. case_decide; naive_solver. }
  split; [done|..].
  all: rewrite ?Ep, ?Eh.
  - intros k l v. rewrite !lookup_insert. repeat case_decide; naive_solver.
  - intros id l v [[-> ->]|H]%Es; rewrite !lookup_insert.
    + rewrite decide_True by done. intros [= <-]. by rewrite decide_True.
    + case_decide; [naive_solver|]. intros Hv. rewrite decide_False; [by eauto|].
      intros E. rewrite E in Hk. erewrite Hsec in Hk; naive_solver.
  - intros k l v. rewrite !lookup_insert. intros Hkl Hlv Hne.
    unfold put_worker. cbv zeta.
    case_decide; [case_decide; [|naive_solver]|case_decide].
    + simplify_eq. rewrite decide_False by done. cbn. apply lookup_insert_eq.
    + subst. exfalso. naive_solver.
    + case_decide; cbn; [eauto|]. rewrite lookup_insert_ne; [eauto|].
      intros E. rewrite E in Hi. erewrite Hid in Hi; [done|eauto..].
  - intros k l v. rewrite !lookup_insert. repeat case_decide; naive_solver.
Qed.

(** The records that a repository lists: keys and identifiers are unique. *)
Record listable (l : list Worker) : Prop := {
  la_keys : NoDup (w_WorkerKey <$> l);
  la_ids : NoDup (w_ID <$> l);
  la_good : Forall (λ w, w_ID w ≠ "" ∧ 0 ≤ w_ActiveWorkloads w) l
}.

Lemma pri_view_put st w : st_wf st → pri_view (put_worker w st) = <[w_WorkerKey w := w]> (pri_view st).
Proof. intros H. unfold put_worker. cbv zeta. case_decide; rewrite ?pri_view_link_sec; by apply pri_view_new. Qed.

Lemma put_worker_indexes st w w' :
  w_WorkerKey w' ≠ w_WorkerKey w → w_ID w' ≠ w_ID w →
  st_pri (put_worker w st) !! w_WorkerKey w' = st_pri st !! w_WorkerKey w'
  ∧ st_sec (put_worker w st) !! w_ID w' = st_sec st !! w_ID w'.
Proof. intros H1 H2. unfold put_worker. cbv zeta. case_decide; cbn; by rewrite ?lookup_insert_ne. Qed.

(** A registry warmed from them has these workers, and its indexes agree. *)
Lemma reg_inv_warm l : ∀ st, listable l → reg_inv st →
  (∀ w, w ∈ l → st_pri st !! w_WorkerKey w = None ∧ st_sec st !! w_ID w = None) →
  let st' := fold_left (λ st w, put_worker w st) l st in
  reg_inv st' ∧ ∀ k w, get_pri k st' = Some w ↔ get_pri k st = Some w ∨ w ∈ l ∧ w_WorkerKey w = k.
Proof.
  induction l as [|x l IH]; intros st Hl H Hnew; cbn [fold_left].
  { split; [done|]. intros k w. rewrite elem_of_nil. tauto. }
  destruct Hl as [Hk Hi Hg]. rewrite fmap_cons, NoDup_cons in Hk, Hi. apply Forall_cons in Hg as [[Hx Hload] Hg].
  destruct Hk as [Hkx Hk], Hi as [Hix Hi]. destruct (Hnew x) as [Hn1 Hn2]; [left|].
  destruct (IH (put_worker x st)) as [H1 H2]; [done|by apply reg_inv_put| |].
  - intros w Hw. destruct (put_worker_indexes st x w) as [-> ->].
    + intros E. apply Hkx. rewrite <- E. by apply list_elem_of_fmap_2.
    + intros E. apply Hix. rewrite <- E. by apply list_elem_of_fmap_2.
    + apply Hnew. by right.
  - split; [done|]. intros k w. rewrite H2, <- !lookup_pri_view, pri_view_put, lookup_insert, elem_of_cons by apply H.
    case_decide as E; [|naive_solver]. subst k. split; [naive_solver|].
    intros [Hc|[[->|Hw] E]]; [|by left|by right].
    rewrite lookup_pri_view in Hc. apply get_pri_cell in Hc as (c & Hc & _). congruence.
Qed.

Lemma NewRegistry_warm {WR} `{!WorkerRepository WR} o (repo : WR) l :
  wr_List o repo = inr l → listable l →
  reg_inv (rg_store (NewRegistry o repo))
  ∧ ∀ k w, get_pri k (rg_store (NewRegistry o repo)) = Some w ↔ w ∈ l ∧ w_WorkerKey w = k.
Proof.
  intros E Hl. unfold NewRegistry. rewrite E. cbn [rg_store].
  destruct (reg_inv_warm l st_empty Hl reg_inv_empty) as [H1 H2]; [by intros w _; cbn; rewrite !lookup_empty|].
  split; [done|]. intros k w. rewrite H2. unfold get_pri at 1. cbn. rewrite lookup_empty. naive_solver.
Qed.

Section registry_facts.
Context {WR : Type} `{!WorkerRepository WR}.
Implicit Types r : Registry WR.

Lemma findWorkerLocked_cell r x l w :
  reg_inv (rg_store r) → findWorkerLocked x r = Some (l, w) →
  st_pri (rg_store r) !! w_WorkerKey w = Some l ∧ st_heap (rg_store r) !! l = Some w.
Proof.
  intros H. unfold findWorkerLocked.
  destruct (st_pri (rg_store r) !! x) as [l'|] eqn:Ep.
  - rewrite fmap_Some. intros (v & Hv & [= -> ->]). split; [|done].
    by rewrite (ri_key _ H x l' v).
  - destruct (st_sec (rg_store r) !! x) as [l'|] eqn:Es; [|done].
    rewrite fmap_Some. intros (v & Hv & [= -> ->]). split; [|done].
    by apply (ri_sec _ H x l' v).
Qed.

Lemma findWorkerLocked_key r k w :
  get_pri k (rg_store r) = Some w → ∃ l, findWorkerLocked k r = Some (l, w).
Proof.
  intros (l & Hl & Hw)%get_pri_cell. exists l. unfold findWorkerLocked. by rewrite Hl, Hw.
Qed.

Lemma Get_key r k w : get_pri k (rg_store r) = Some w → Get k r = Some w.
Proof. intros [l H]%findWorkerLocked_key. unfold Get. by rewrite H. Qed.

Lemma Get_pri r x w :
  reg_inv (rg_store r) → Get x r = Some w → get_pri (w_WorkerKey w) (rg_store r) = Some w.
Proof.
  intros H. unfold Get. rewrite fmap_Some. intros ([l v] & Hf & ->).
  destruct (findWorkerLocked_cell r x l v) as [Hp Hh]; [done..|].
  unfold get_pri; cbn. by rewrite Hp.
Qed.

Lemma elem_of_List r o w :
  w ∈ List o r ↔ ∃ k, get_pri k (rg_store r) = Some w.
Proof.
  unfold List. rewrite elem_of_map_values. by setoid_rewrite lookup_pri_view.
Qed.

(** The in-place operations: the record found is replaced by one with the same
    identity. *)
Lemma reg_inv_write_worker r x l w w' :
  reg_inv (rg_store r) → findWorkerLocked x r = Some (l, w) →
  w_WorkerKey w' = w_WorkerKey w → w_ID w' = w_ID w →
  w_ActiveWorkloads w' = w_ActiveWorkloads w →
  reg_inv (rg_store (write_worker l w' r)).
Proof.
  intros H Hf Hk Hi Hl. destruct (findWorkerLocked_cell r x l w) as [Hp Hh]; [done..|].
  cbn. eapply reg_inv_write; eauto. rewrite Hl. by eapply (ri_load _ H).
Qed.

Lemma ApplyHeartbeatSuccess_id cfg w :
  w_WorkerKey (ApplyHeartbeatSuccess cfg w) = w_WorkerKey w
  ∧ w_ID (ApplyHeartbeatSuccess cfg w) = w_ID w
  ∧ w_ActiveWorkloads (ApplyHeartbeatSuccess cfg w) = w_ActiveWorkloads w.
Proof. unfold ApplyHeartbeatSuccess; cbn. destruct (w_Health w); cbn; by repeat case_match. Qed.

Lemma reg_inv_HeartbeatAt r now' x at_ :
  reg_inv (rg_store r) → reg_inv (rg_store (HeartbeatAt now' x at_ r).2).
Proof.
  intros H. unfold HeartbeatAt. destruct (findWorkerLocked x r) as [[l w]|] eqn:Hf; [|done].
  destruct (wr_UpdateHeartbeat _ _ _ _) as [err repo]. cbn.
  destruct (ApplyHeartbeatSuccess_id (rg_healthCfg r)
    (w <| w_LastBeatAt := Some at_ |> <| w_UpdatedAt := at_ |>)) as (?&?&?).
  by eapply reg_inv_write_worker.
Qed.

Lemma reg_inv_SetPartitioned r now x b :
  reg_inv (rg_store r) → reg_inv (rg_store (SetPartitioned now x b r).2).
Proof.
  intros H. unfold SetPartitioned. destruct (findWorkerLocked x r) as [[l w]|] eqn:Hf; [|done].
  cbn. eapply reg_inv_write_worker; [done..| | |]; destruct b; cbn; try done; by case_decide.
Qed.

Lemma reg_inv_Drain r now now' x :
  reg_inv (rg_store r) → reg_inv (rg_store (Drain now now' x r).2).
Proof.
  intros H. unfold Drain. destruct (findWorkerLocked x r) as [[l w]|] eqn:Hf; [|done].
  destruct (wr_SetDrain _ _ _ _) as [err repo]. cbn. by eapply reg_inv_write_worker.
Qed.

Lemma reg_inv_Undrain r now now' x :
  reg_inv (rg_store r) → reg_inv (rg_store (Undrain now now' x r).2).
Proof.
  intros H. unfold Undrain. destruct (findWorkerLocked x r) as [[l w]|] eqn:Hf; [|done].
  destruct (wr_SetDrain _ _ _ _) as [err repo]. cbn. by eapply reg_inv_write_worker.
Qed.

Lemma add_workload_nonneg d w : 0 ≤ w_ActiveWorkloads (add_workload d w).
Proof. unfold add_workload. cbv zeta. case_match eqn:E; cbn in *; lia. Qed.

Lemma add_workload_id d w :
  w_WorkerKey (add_workload d w) = w_WorkerKey w ∧ w_ID (add_workload d w) = w_ID w.
Proof. unfold add_workload. cbv zeta. by case_match. Qed.

Lemma reg_inv_UpdateWorkload r x d :
  reg_inv (rg_store r) → reg_inv (rg_store (UpdateWorkload x d r)).
Proof.
  intros H. unfold UpdateWorkload. destruct (findWorkerLocked x r) as [[l w]|] eqn:Hf; [|done].
  destruct (findWorkerLocked_cell r x l w) as [Hp Hh]; [done..|].
  destruct (add_workload_id d w). cbn.
  eapply reg_inv_write; eauto. apply add_workload_nonneg.
Qed.

Context `{!WorkerRepositoryLaws WR}.

Lemma upsert_id now w (repo : WR) :
  w_WorkerKey (wr_Upsert now w repo).1.2 = w_WorkerKey w
  ∧ w_ID (wr_Upsert now w repo).1.2 = w_ID w
  ∧ w_ActiveWorkloads (wr_Upsert now w repo).1.2 = w_ActiveWorkloads w.
Proof. pose proof (upsert_frame now w repo) as H. cbv zeta in H. by rewrite H. Qed.

Lemma reg_inv_SetHealthWithReason r now now' x h reason :
  reg_inv (rg_store r) → reg_inv (rg_store (SetHealthWithReason now now' x h reason r).2).
Proof.
  intros H. unfold SetHealthWithReason.
  destruct (findWorkerLocked x r) as [[l w]|] eqn:Hf; [|done]. cbv zeta.
  match goal with |- context [wr_Upsert now' ?v ?repo] =>
    pose proof (upsert_id now' v repo) as Hu;
    destruct (wr_Upsert now' v repo) as [[err w'] repo'] end.
  cbn in Hu |- *. destruct Hu as (?&?&?).
  eapply reg_inv_write_worker; [done..| | |]; case_decide; cbn in *; congruence.
Qed.

(** Registering again keeps the record; a new key gets a new one, for which
    the fresh identifier must not be in use. *)
Lemma reg_inv_Register r now now' uuid p :
  reg_inv (rg_store r) → st_sec (rg_store r) !! uuid = None →
  reg_inv (rg_store (Register now now' uuid p r).2).
Proof.
  intros H Hu. unfold Register. case_decide; [done|].
  destruct (capability_error p); [done|].
  destruct (st_pri (rg_store r) !! rp_WorkerKey p) as [l|] eqn:Hp.
  - destruct (wf_pri _ (ri_wf _ H) _ _ Hp) as [w Hw].
    assert (get_pri (rp_WorkerKey p) (rg_store r) = Some w) as ->
      by (unfold get_pri; by rewrite Hp).
    pose proof (upsert_id now' (apply_params p now w) (rg_repo r)) as Hi.
    destruct (wr_Upsert _ _ _) as [[err w'] repo']. cbn in Hi |- *.
    destruct Hi as (HK & HI & HL).
    pose proof (ri_key _ H _ _ _ Hp Hw) as Hkw.
    pose proof (ri_load _ H _ _ _ Hp Hw) as Hlw.
    assert (reg_inv (st_write l w' (rg_store r))) as Hinv.
    { eapply reg_inv_write; eauto. lia. }
    assert (st_pri (rg_store r) !! w_WorkerKey w' = Some l) as Hp' by congruence.
    assert (link_pri (w_WorkerKey w') l (st_write l w' (rg_store r))
      = st_write l w' (rg_store r)) as ->.
    { unfold link_pri, st_write, set_field; cbn. by rewrite (insert_id _ _ _ Hp'). }
    case_decide; [done|].
    assert (st_sec (rg_store r) !! w_ID w' = Some l) as Hs'.
    { rewrite HI. eapply (ri_id _ H); eauto. congruence. }
    assert (link_sec (w_ID w') l (st_write l w' (rg_store r))
      = st_write l w' (rg_store r)) as ->; [|done].
    unfold link_sec, st_write, set_field; cbn. by rewrite (insert_id _ _ _ Hs').
  - set (w0 := apply_params p now (new_worker uuid (rp_WorkerKey p) now)).
    pose proof (upsert_id now' w0 (rg_repo r)) as Hi.
    destruct (wr_Upsert _ _ _) as [[err w'] repo']. cbn in Hi |- *.
    destruct Hi as (HK & HI & HL).
    assert ((if decide (w_ID w' = "")
       then link_pri (w_WorkerKey w') (st_next (rg_store r))
              (st_write (st_next (rg_store r)) w' (st_alloc (new_worker uuid (rp_WorkerKey p) now) (rg_store r)))
       else link_sec (w_ID w') (st_next (rg_store r))
              (link_pri (w_WorkerKey w') (st_next (rg_store r))
                 (st_write (st_next (rg_store r)) w' (st_alloc (new_worker uuid (rp_WorkerKey p) now) (rg_store r)))))
       = put_worker w' (rg_store r)) as ->.
    { unfold put_worker, link_sec, link_pri, st_write, st_alloc, set_field; cbn.
      case_decide; by rewrite insert_insert_eq. }
    apply reg_inv_put; [done|by rewrite HK|by rewrite HI|by rewrite HL].
Qed.

End registry_facts.

(** ** Runs of the registry *)

Section registry_steps.
Context {WR : Type} `{!WorkerRepository WR}.

(** One call on the registry. Identifiers drawn by [uuid.New] are new. *)
Inductive reg_step : Registry WR → Registry WR → Prop :=
| step_Register now now' uuid p r :
    st_sec (rg_store r) !! uuid = None →
    reg_step r (Register now now' uuid p r).2
| step_SetHealthConfig cfg r : reg_step r (SetHealthConfig cfg r)
| step_HeartbeatAt now' x at_ r : reg_step r (HeartbeatAt now' x at_ r).2
| step_SetHealthWithReason now now' x h reason r :
    reg_step r (SetHealthWithReason now now' x h reason r).2
| step_SetPartitioned now x b r : reg_step r (SetPartitioned now x b r).2
| step_Drain now now' x r : reg_step r (Drain now now' x r).2
| step_Undrain now now' x r : reg_step r (Undrain now now' x r).2
| step_UpdateWorkload x d r : reg_step r (UpdateWorkload x d r).

Inductive reg_reachable : Registry WR → Prop :=
| reach_empty repo cfg : reg_reachable (mkRegistry st_empty repo cfg)
| reach_step r r' : reg_reachable r → reg_step r r' → reg_reachable r'.

Context `{!WorkerRepositoryLaws WR}.

Lemma reg_step_inv r r' : reg_inv (rg_store r) → reg_step r r' → reg_inv (rg_store r').
Proof.
  intros H Hs. destruct Hs; auto using reg_inv_Register, reg_inv_HeartbeatAt,
    reg_inv_SetHealthWithReason, reg_inv_SetPartitioned, reg_inv_Drain, reg_inv_Undrain,
    reg_inv_UpdateWorkload.
Qed.

Lemma reg_reachable_inv r : reg_reachable r → reg_inv (rg_store r).
Proof. induction 1; [apply reg_inv_empty|by eapply reg_step_inv]. Qed.

End registry_steps.

Lemma List_NoDup {WR} o (r : Registry WR) :
  reg_inv (rg_store r) → NoDup (w_WorkerKey <$> List o r).
Proof.
  intros Hinv. unfold List, map_values. rewrite permute_perm, <- list_fmap_compose.
  apply NoDup_fmap_2_strong; [|apply NoDup_map_to_list].
  intros [k1 w1] [k2 w2] H1%elem_of_map_to_list H2%elem_of_map_to_list E. cbn in E.
  rewrite lookup_pri_view in H1, H2.
  apply get_pri_cell in H1 as (l1 & Hp1 & Hh1), H2 as (l2 & Hp2 & Hh2).
  pose proof (ri_key _ Hinv _ _ _ Hp1 Hh1). pose proof (ri_key _ Hinv _ _ _ Hp2 Hh2).
  congruence.
Qed.

(** In every registry reached by its operations, a listed worker is found under
    its key, and under its identifier unless that is another worker's key; keys
    do not repeat in the list; workload counts are not negative. *)
Theorem registry_identity {WR} `{!WorkerRepository WR, !WorkerRepositoryLaws WR}
    (r : Registry WR) (o : Order) (w : Worker) :
  reg_reachable r → w ∈ List o r →
  Get (w_WorkerKey w) r = Some w
  ∧ (w_ID w ≠ "" → st_pri (rg_store r) !! w_ID w = None → Get (w_ID w) r = Some w)
  ∧ NoDup (w_WorkerKey <$> List o r)
  ∧ 0 ≤ w_ActiveWorkloads w.
Proof.
  intros Hr [k Hk]%elem_of_List. pose proof (reg_reachable_inv r Hr) as Hinv.
  destruct (get_pri_cell _ _ _ Hk) as (l & Hp & Hh).
  pose proof (ri_key _ Hinv _ _ _ Hp Hh) as <-.
  split; [by apply Get_key|]. split; [|split].
  - intros Hne Hnone. unfold Get, findWorkerLocked.
    rewrite Hnone, (ri_id _ Hinv _ _ _ Hp Hh Hne), Hh. done.
  - by apply List_NoDup.
  - by eapply (ri_load _ Hinv).
Qed.

(** ** Health *)

Definition degraded (h : WorkerHealth) : Prop :=
  h = HealthUnhealthy ∨ h = HealthSuspected ∨ h = HealthUnreachable.

Lemma ApplyHeartbeatSuccess_beats cfg w :
  w_ConsecutiveBeats (ApplyHeartbeatSuccess cfg w) = w_ConsecutiveBeats w + 1.
Proof.
  unfold ApplyHeartbeatSuccess; cbn. destruct (w_Health w); cbn; repeat case_match; cbn; lia.
Qed.

Lemma ApplyHeartbeatSuccess_health cfg w :
  w_Health (ApplyHeartbeatSuccess cfg w) =
  if bool_decide (degraded (w_Health w)) && (w_ConsecutiveBeats w + 1 <? ConsecutiveBeatsToHeal cfg)
  then w_Health w else HealthHealthy.
Proof.
  unfold ApplyHeartbeatSuccess, degraded; cbn.
  destruct (w_Health w) eqn:E; cbn;
    try (rewrite bool_decide_eq_false_2 by naive_solver; done);
    rewrite bool_decide_eq_true_2 by eauto; cbn;
    destruct (Z.leb_spec (ConsecutiveBeatsToHeal cfg) (Z.succ (w_ConsecutiveBeats w)));
    destruct (Z.ltb_spec (w_ConsecutiveBeats w + 1) (ConsecutiveBeatsToHeal cfg)); cbn; try done; lia.
Qed.

(** Beats heal a degraded worker exactly when as many as the configuration
    requires have arrived in a row. *)
Theorem heartbeat_hysteresis (cfg : HealthStateMachineConfig) (w : Worker) (n : nat) :
  degraded (w_Health w) → w_ConsecutiveBeats w = 0 → 0 < ConsecutiveBeatsToHeal cfg →
  w_Health (Nat.iter n (ApplyHeartbeatSuccess cfg) w) =
    if Z.of_nat n <? ConsecutiveBeatsToHeal cfg then w_Health w else HealthHealthy.
Proof.
  intros Hd Hb Hc.
  assert (w_ConsecutiveBeats (Nat.iter n (ApplyHeartbeatSuccess cfg) w) = Z.of_nat n) as Hn.
  { induction n as [|n IH]; [done|]. rewrite Nat.iter_succ, ApplyHeartbeatSuccess_beats. lia. }
  induction n as [|n IH].
  { by destruct (Z.ltb_spec (Z.of_nat 0) (ConsecutiveBeatsToHeal cfg)); [|lia]. }
  rewrite Nat.iter_succ in Hn |- *. rewrite ApplyHeartbeatSuccess_beats in Hn.
  rewrite ApplyHeartbeatSuccess_health, IH by lia.
  replace (w_ConsecutiveBeats (Nat.iter n (ApplyHeartbeatSuccess cfg) w)) with (Z.of_nat n) by lia.
  replace (Z.of_nat n + 1) with (Z.of_nat (S n)) by lia.
  destruct (Z.ltb_spec (Z.of_nat n) (ConsecutiveBeatsToHeal cfg));
    destruct (Z.ltb_spec (Z.of_nat (S n)) (ConsecutiveBeatsToHeal cfg)); try lia.
  - by rewrite bool_decide_eq_true_2.
  - by rewrite andb_false_r.
  - by rewrite bool_decide_eq_false_2 by (unfold degraded; naive_solver).
Qed.

(** With a positive interval and ordered thresholds, the health judged from the
    elapsed time is HEALTHY, SUSPECTED or UNHEALTHY exactly when the time is
    below the first threshold, between the two, or at least the second one. *)
Theorem health_by_elapsed (h : WorkerHealth) (elapsed : Duration) (cfg : HealthStateMachineConfig) :
  0 < HeartbeatInterval cfg → 0 ≤ elapsed →
  0 < SuspectedThreshold cfg → SuspectedThreshold cfg ≤ UnhealthyThreshold cfg →
  let health := (EvaluateHealthTransition h elapsed cfg).1 in
  (health = HealthHealthy ↔ elapsed < SuspectedThreshold cfg * HeartbeatInterval cfg)
  ∧ (health = HealthSuspected ↔
       SuspectedThreshold cfg * HeartbeatInterval cfg ≤ elapsed
       ∧ elapsed < UnhealthyThreshold cfg * HeartbeatInterval cfg)
  ∧ (health = HealthUnhealthy ↔ UnhealthyThreshold cfg * HeartbeatInterval cfg ≤ elapsed).
Proof.
  intros Hi He Hs Hu. unfold EvaluateHealthTransition.
  destruct (Z.leb_spec (HeartbeatInterval cfg) 0); [lia|]. cbv zeta.
  rewrite Z.quot_div_nonneg by lia.
  set (i := HeartbeatInterval cfg) in *. set (q := elapsed `div` i).
  assert (∀ t, t ≤ q ↔ t * i ≤ elapsed) as Hq.
  { intros t. split; intros Ht; [|apply Z.div_le_lower_bound; lia].
    pose proof (Z.mul_div_le elapsed i). nia. }
  pose proof (Hq (UnhealthyThreshold cfg)). pose proof (Hq (SuspectedThreshold cfg)).
  destruct (Z.leb_spec (UnhealthyThreshold cfg) q); [|destruct (Z.leb_spec (SuspectedThreshold cfg) q)];
    cbn; repeat split; try done; try lia; intros; exfalso; lia.
Qed.

(** ** A concrete registry *)

Definition demo_params (key : string) : RegisterParams :=
  mkRegisterParams key "host" "10.0.0.1" 9090 8 ∅.

Definition demo_registry : Registry MemoryWorkerRepository :=
  (Register 10 10 "w-uuid" (demo_params "worker-1")
    (mkRegistry st_empty NewMemoryWorkerRepository DefaultHealthConfig)).2.

Lemma demo_registry_reachable : reg_reachable demo_registry.
Proof. eapply reach_step; [apply reach_empty|]. by apply step_Register. Qed.

Definition demo_worker : Worker :=
  apply_params (demo_params "worker-1") 10 (new_worker "w-uuid" "worker-1" 10).

Lemma demo_worker_listed o : demo_worker ∈ List o demo_registry.
Proof. apply elem_of_List. exists "worker-1". vm_compute. reflexivity. Qed.

Lemma registry_identity_witness :
  demo_worker ∈ List order_id demo_registry ∧ Get (w_WorkerKey demo_worker) demo_registry = Some demo_worker.
Proof.
  split; [apply demo_worker_listed|].
  exact (proj1 (registry_identity demo_registry order_id demo_worker demo_registry_reachable
    (demo_worker_listed order_id))).
Defined.

(** One beat does not heal an unhealthy worker, the next one does. *)
Definition sick_worker : Worker := demo_worker <| w_Health := HealthUnhealthy |>.

Lemma heartbeat_hysteresis_witness :
  w_Health (Nat.iter 1 (ApplyHeartbeatSuccess DefaultHealthConfig) sick_worker)
  = if 1 <? ConsecutiveBeatsToHeal DefaultHealthConfig then HealthUnhealthy else HealthHealthy.
Proof.
  apply (heartbeat_hysteresis DefaultHealthConfig sick_worker 1); [by left|reflexivity|reflexivity].
Defined.

Lemma health_by_elapsed_witness :
  (EvaluateHealthTransition HealthHealthy (100 * Second) DefaultHealthConfig).1 = HealthUnhealthy.
Proof.
  apply (health_by_elapsed HealthHealthy (100 * Second) DefaultHealthConfig);
    vm_compute; discriminate || reflexivity.
Defined.
