(* ===== verification/Scheduler.v ===== *)
(** * Scheduler: internal/scheduler

    Placement is a pipeline: the feasibility filter (filter.go), the ranking
    (rank.go) and the selection of the first ranked worker (scheduler.go). *)

From stdpp Require Import base option gmap strings list pretty sorting.
From Stdlib Require Import ZArith Lia SpecFloat.
From S2P Require Import Prelude GoLib GoFloat PtrStore Workers.

(** ** constraints.go and policy.go *)

Record WorkloadRequirement := mkReq {
  req_DeploymentID : string;
  req_RequiredCapacity : Z;
  req_RequiredLabels : gmap string string
}.

Inductive SchedulingPolicy := PolicyUnset | PolicySpreading | PolicyBinPacking.

(** ** filter.go *)

Definition labels_match (required labels : gmap string string) : bool :=
  forallb (λ kv, bool_decide (lookup_str labels kv.1 = kv.2)) (map_to_list required).

Definition isBuildReq (req : WorkloadRequirement) : bool :=
  bool_decide (lookup_str (req_RequiredLabels req) "capability" = CapabilityBuild).

(** One turn of the filter's loop: whether the candidate is appended. *)
Definition keep_candidate (req : WorkloadRequirement) (w : Worker) : bool :=
  let requiredCap :=
    if req_RequiredCapacity req <=? 0 then 1 else req_RequiredCapacity req in
  if negb (w_Schedulable w) || bool_decide (w_State w = StateDraining) then false
  else if decide (w_State w ≠ StateReady) then false
  else if decide (w_Health w = HealthUnhealthy) then false
  else if w_Capacity w - w_ActiveWorkloads w <? requiredCap then false
  else if negb (labels_match (req_RequiredLabels req) (w_Labels w)) then false
  else if isBuildReq req && negb (IsBuildWorker w) then false
  else if negb (isBuildReq req) && IsBuildWorker w then false
  else true.

Definition Filter (candidates : list Worker) (req : WorkloadRequirement) : list Worker :=
  base.filter (λ w, keep_candidate req w = true) candidates.

(** ** rank.go *)

Record Ranker := mkRanker { rk_policy : SchedulingPolicy }.

Definition NewRanker (policy : SchedulingPolicy) : Ranker :=
  mkRanker (match policy with PolicyUnset => PolicySpreading | p => p end).

(** [epsilon = 1e-9]. *)
Definition epsilon : float64 := fdiv fone (float_of_int 1000000000).

(** The instances of the deployment on a worker, counted under its ID or else
    under its key; a nil map counts none. *)
Definition instance_count (counts : gmap string Z) (w : Worker) : Z :=
  let c := lookup_int counts (w_ID w) in
  if c =? 0 then lookup_int counts (w_WorkerKey w) else c.

Definition rank_less (counts : gmap string Z) (w1 w2 : Worker) : bool :=
  let count1 := instance_count counts w1 in
  let count2 := instance_count counts w2 in
  if negb (count1 =? count2) then count1 <? count2
  else
    let u1 := Utilization w1 in
    let u2 := Utilization w2 in
    if fgt (fabs (fsub u1 u2)) epsilon then flt u1 u2
    else if negb (w_ActiveWorkloads w1 =? w_ActiveWorkloads w2)
    then w_ActiveWorkloads w1 <? w_ActiveWorkloads w2
    else String.ltb (w_WorkerKey w1) (w_WorkerKey w2).

Definition Rank (rk : Ranker) (feasible : list Worker) (counts : gmap string Z) : list Worker :=
  if (length feasible <=? 1)%nat then feasible
  else SliceStable (rank_less counts) feasible.

(** ** scheduler.go *)

Definition ErrNoWorkersRegistered : error := "no workers registered in cluster".
Definition ErrNoFeasibleWorkers : error := "no feasible workers available for placement".

Definition InstanceCountProvider : Type := string → error + gmap string Z.

Record Scheduler := mkScheduler {
  sc_ranker : Ranker;
  sc_countsProvider : option InstanceCountProvider
}.

Definition NewScheduler (countsProvider : option InstanceCountProvider) : Scheduler :=
  mkScheduler (NewRanker PolicySpreading) countsProvider.

Definition no_feasible (n : nat) : error :=
  ErrNoFeasibleWorkers +:+ ": " +:+ Itoa (Z.of_nat n) +:+ " candidates evaluated".

(** The counts, when a provider is set and answers. *)
Definition deployment_counts (s : Scheduler) (req : WorkloadRequirement) : gmap string Z :=
  match sc_countsProvider s with
  | Some provider =>
    if decide (req_DeploymentID req = "") then ∅
    else match provider (req_DeploymentID req) with inr counts => counts | inl _ => ∅ end
  | None => ∅
  end.

Definition SelectWorker {WR} (s : Scheduler) (o : Order) (registry : Registry WR)
    (req : WorkloadRequirement) : error + Worker :=
  let allWorkers := List o registry in
  match allWorkers with
  | [] => inl ErrNoWorkersRegistered
  | _ =>
    match Filter allWorkers req with
    | [] => inl (no_feasible (length allWorkers))
    | feasible =>
      match Rank (sc_ranker s) feasible (deployment_counts s req) with
      | chosen :: _ => inr chosen
      | [] => inl "index out of range"
      end
    end
  end.

(** ** The filter's specification *)

Definition required_capacity (req : WorkloadRequirement) : Z := Z.max 1 (req_RequiredCapacity req).

Record Feasible (req : WorkloadRequirement) (w : Worker) : Prop := {
  fe_schedulable : w_Schedulable w = true;
  fe_ready : w_State w = StateReady;
  fe_health : w_Health w ≠ HealthUnhealthy;
  fe_capacity : w_ActiveWorkloads w + required_capacity req ≤ w_Capacity w;
  fe_labels : ∀ k v, req_RequiredLabels req !! k = Some v → lookup_str (w_Labels w) k = v;
  fe_fleet : isBuildReq req = IsBuildWorker w
}.

Lemma labels_match_spec req labels :
  labels_match req labels = true ↔ ∀ k v, req !! k = Some v → lookup_str labels k = v.
Proof.
  unfold labels_match. rewrite forallb_forall. split.
  - intros H k v Hkv. specialize (H (k, v)). cbn in H. rewrite bool_decide_eq_true in H.
    apply H. by rewrite <- list_elem_of_In, elem_of_map_to_list.
  - intros H [k v] Hkv. rewrite bool_decide_eq_true. apply H.
    by rewrite <- list_elem_of_In, elem_of_map_to_list in Hkv.
Qed.

Lemma keep_candidate_spec req w : keep_candidate req w = true ↔ Feasible req w.
Proof.
  unfold keep_candidate. cbv zeta. split.
  - intros H. destruct (negb (w_Schedulable w)) eqn:E1; [done|].
    destruct (bool_decide (w_State w = StateDraining)) eqn:E2; [done|]. cbn [orb] in H.
    repeat (case_decide; [done|]).
    destruct (_ <? _) eqn:E3 in H; [done|].
    destruct (negb (labels_match _ _)) eqn:E4 in H; [done|].
    destruct (isBuildReq req) eqn:E5, (IsBuildWorker w) eqn:E6; try done.
    all: apply negb_false_iff in E1, E4; rewrite labels_match_spec in E4.
    all: apply Z.ltb_ge in E3; split; try done; try congruence.
    all: try (by apply dec_stable).
    all: unfold required_capacity; destruct (Z.leb_spec (req_RequiredCapacity req) 0); lia.
  - intros [H1 H2 H3 H4 H5 H6]. rewrite H1, H2. cbn [negb orb].
    rewrite bool_decide_eq_false_2 by done. rewrite decide_False by tauto.
    rewrite decide_False by done.
    unfold required_capacity in H4.
    destruct (Z.ltb_spec (w_Capacity w - w_ActiveWorkloads w)
      (if req_RequiredCapacity req <=? 0 then 1 else req_RequiredCapacity req)).
    { destruct (Z.leb_spec (req_RequiredCapacity req) 0); lia. }
    rewrite (proj2 (labels_match_spec _ _) H5), H6. by destruct (IsBuildWorker w).
Qed.

Lemma elem_of_Filter req l w : w ∈ Filter l req ↔ w ∈ l ∧ Feasible req w.
Proof. unfold Filter. rewrite list_elem_of_filter, keep_candidate_spec. tauto. Qed.

Lemma Rank_perm rk l counts : Rank rk l counts ≡ₚ l.
Proof. unfold Rank. case_match; [done|]. apply SliceStable_perm. Qed.

Lemma Rank_nonempty rk l counts : l ≠ [] → Rank rk l counts ≠ [].
Proof.
  intros H E. apply H. apply Permutation_nil_r. by rewrite <- (Rank_perm rk l counts), E.
Qed.

(** ** The ranking is a lexicographic order

    The code compares utilizations up to [epsilon], which is not a transitive
    test in general. [separated] says that on the given workers it agrees with
    the exact comparison: two utilizations are equal or further apart than
    [epsilon]. *)

Definition separated_b (u1 u2 : float64) : bool :=
  Bool.eqb (fgt (fabs (fsub u1 u2)) epsilon) (negb (feq u1 u2)) && negb (is_nan u1).

Definition separated (l : list Worker) : Prop :=
  ∀ w1 w2, w1 ∈ l → w2 ∈ l → separated_b (Utilization w1) (Utilization w2) = true.

(** The order that the documentation of [Rank] states: fewer instances of the
    deployment, then lower utilization, then fewer workloads, then the key. *)
Definition rank_cmp (counts : gmap string Z) (w1 w2 : Worker) : comparison :=
  cmp_seq (instance_count counts w1 ?= instance_count counts w2)
    (cmp_seq (lex3 (fkey (Utilization w1)) (fkey (Utilization w2)))
      (cmp_seq (w_ActiveWorkloads w1 ?= w_ActiveWorkloads w2)
        (String.compare (w_WorkerKey w1) (w_WorkerKey w2)))).

Lemma good_cmp_rank counts : good_cmp (rank_cmp counts).
Proof.
  unfold rank_cmp. apply good_cmp_seq; [apply good_cmp_on, good_cmp_Z|].
  apply good_cmp_seq; [apply (good_cmp_on (λ w, fkey (Utilization w))), good_cmp_lex3|].
  apply good_cmp_seq; [apply good_cmp_on, good_cmp_Z|].
  apply good_cmp_on, good_cmp_string.
Qed.

Lemma Zltb_compare x y : (x <? y) = match x ?= y with Lt => true | _ => false end.
Proof. done. Qed.

Lemma rank_less_cmp counts w1 w2 :
  separated_b (Utilization w1) (Utilization w2) = true →
  separated_b (Utilization w2) (Utilization w1) = true →
  rank_less counts w1 w2 = match rank_cmp counts w1 w2 with Lt => true | _ => false end.
Proof.
  unfold separated_b. rewrite !andb_true_iff, !negb_true_iff, !eqb_true_iff.
  intros [Hsep Hn1] [_ Hn2]. unfold rank_less, rank_cmp. cbv zeta.
  destruct (Z.compare_spec (instance_count counts w1) (instance_count counts w2)) as [E|E|E].
  2,3: rewrite (proj2 (Z.eqb_neq _ _)) by lia; rewrite Zltb_compare;
    destruct (Z.compare_spec (instance_count counts w1) (instance_count counts w2)); first [reflexivity | lia].
  rewrite E, Z.eqb_refl. cbn [negb cmp_seq]. rewrite Hsep.
  destruct (feq (Utilization w1) (Utilization w2)) eqn:Ef.
  - rewrite (proj1 (feq_key _ _ Hn1 Hn2) Ef), (proj2 (lex3_eq _ _) eq_refl). cbn [negb cmp_seq].
    destruct (Z.compare_spec (w_ActiveWorkloads w1) (w_ActiveWorkloads w2)) as [Ea|Ea|Ea].
    { rewrite Ea, Z.eqb_refl. done. }
    all: rewrite (proj2 (Z.eqb_neq _ _)) by lia; rewrite Zltb_compare;
      destruct (Z.compare_spec (w_ActiveWorkloads w1) (w_ActiveWorkloads w2)); first [reflexivity | lia].
  - cbn [negb]. destruct (lex3 (fkey (Utilization w1)) (fkey (Utilization w2))) eqn:El; cbn.
    + apply lex3_eq in El. apply (feq_key _ _ Hn1 Hn2) in El. congruence.
    + by apply flt_key.
    + apply not_true_iff_false. rewrite flt_key by done. congruence.
Qed.

Lemma rank_cmp_eq counts w1 w2 :
  rank_cmp counts w1 w2 = Eq → w_WorkerKey w1 = w_WorkerKey w2.
Proof.
  unfold rank_cmp. repeat (match goal with |- context [cmp_seq ?c _] => destruct c end; cbn; try done).
  apply String.compare_eq_iff.
Qed.

(** The ranked list is sorted by the documented order. *)
Lemma Rank_sorted rk l counts :
  separated l → StronglySorted (λ w1 w2, rank_cmp counts w1 w2 ≠ Gt) (Rank rk l counts).
Proof.
  intros Hsep. unfold Rank. case_match eqn:E.
  { apply Nat.leb_le in E. destruct l as [|x [|]]; cbn in E; [..|lia]; repeat constructor. }
  assert (∀ w1 w2, w1 ∈ l → w2 ∈ l →
    (rank_less counts w2 w1 = false ↔ rank_cmp counts w1 w2 ≠ Gt)) as Hle.
  { intros w1 w2 H1 H2. rewrite rank_less_cmp by auto.
    rewrite (cmp_anti _ (good_cmp_rank counts) w1 w2).
    by destruct (rank_cmp counts w1 w2). }
  assert (StronglySorted (λ w1 w2, rank_less counts w2 w1 = false) (SliceStable (rank_less counts) l)) as Hs.
  { apply (SliceStable_sorted _ (λ w, w ∈ l)); [..|by apply Forall_forall].
    - intros w1 w2 H1 H2. rewrite !Hle by done. apply good_cmp_total, good_cmp_rank.
    - intros w1 w2 w3 H1 H2 H3. rewrite !Hle by done.
      apply good_cmp_le_trans, good_cmp_rank. }
  eapply StronglySorted_impl_elem; [|exact Hs].
  intros w1 w2 H1 H2. rewrite (SliceStable_perm _ l) in H1, H2. by apply Hle.
Qed.

(** ** Utilizations of small workers are separated

    For capacities up to 16 every pair of utilizations is decided by
    evaluation. *)

Definition max_capacity : nat := 16.

Definition small_loads : list (Z * Z) :=
  c ← seq 1 max_capacity; a ← seq 0 c; [(Z.of_nat a, Z.of_nat c)].

Definition load_ratio (p : Z * Z) : float64 := fdiv (float_of_int p.1) (float_of_int p.2).

Lemma small_loads_separated :
  let us := load_ratio <$> small_loads in
  forallb (λ u, forallb (separated_b u) us) us = true.
Proof. vm_compute. reflexivity. Qed.

Lemma elem_of_small_loads a c :
  0 ≤ a < c → c ≤ Z.of_nat max_capacity → (a, c) ∈ small_loads.
Proof.
  intros Ha Hc. unfold small_loads. apply list_elem_of_bind. exists (Z.to_nat c). split.
  - apply list_elem_of_bind. exists (Z.to_nat a). split.
    + rewrite !Z2Nat.id by lia. set_solver.
    + apply elem_of_seq. lia.
  - apply elem_of_seq. lia.
Qed.

Definition small_worker (w : Worker) : Prop :=
  0 ≤ w_ActiveWorkloads w < w_Capacity w ∧ w_Capacity w ≤ Z.of_nat max_capacity.

Lemma small_worker_separated l : (∀ w, w ∈ l → small_worker w) → separated l.
Proof.
  intros H. assert (∀ w, w ∈ l → Utilization w ∈ load_ratio <$> small_loads) as Hu.
  { intros w Hw. destruct (H w Hw) as [H1 H2]. unfold Utilization.
    destruct (Z.leb_spec (w_Capacity w) 0); [lia|]. apply list_elem_of_fmap.
    exists (w_ActiveWorkloads w, w_Capacity w). split; [done|]. by apply elem_of_small_loads. }
  intros w1 w2 H1 H2. pose proof small_loads_separated as S. cbv zeta in S.
  rewrite forallb_forall in S. specialize (S (Utilization w1)).
  rewrite <- list_elem_of_In, forallb_forall in S. specialize (S (Hu _ H1) (Utilization w2)).
  rewrite <- list_elem_of_In in S. auto.
Qed.

(** ** Selection *)

Lemma SelectWorker_inr {WR} s o (r : Registry WR) req w :
  SelectWorker s o r req = inr w →
  ∃ l, Rank (sc_ranker s) (Filter (List o r) req) (deployment_counts s req) = w :: l.
Proof.
  unfold SelectWorker. destruct (List o r) as [|w0 ws] eqn:E; [done|].
  destruct (Filter (w0 :: ws) req) as [|f fs] eqn:Ef; [done|].
  case_match; [done|]. intros [=->]. eauto.
Qed.

(** What [SelectWorker] promises to its callers. *)
Lemma SelectWorker_spec {WR} (s : Scheduler) (o : Order) (r : Registry WR)
    (req : WorkloadRequirement) :
  match SelectWorker s o r req with
  | inr w => w ∈ List o r ∧ Feasible req w
  | inl e =>
    (List o r = [] ∧ e = ErrNoWorkersRegistered)
    ∨ (List o r ≠ [] ∧ (∀ w, w ∈ List o r → ¬ Feasible req w)
       ∧ e = no_feasible (length (List o r)))
  end.
Proof.
  destruct (SelectWorker s o r req) as [e|w] eqn:E.
  - unfold SelectWorker in E. destruct (List o r) as [|w0 ws] eqn:El; [left; naive_solver|].
    right. destruct (Filter (w0 :: ws) req) as [|f fs] eqn:Ef.
    + split_and!; [done| |by injection E].
      intros w Hw Hf. apply (not_elem_of_nil w). rewrite <- Ef. by apply elem_of_Filter.
    + exfalso. case_match eqn:Er; [|done].
      by apply (Rank_nonempty (sc_ranker s) (f :: fs) (deployment_counts s req)).
  - destruct (SelectWorker_inr _ _ _ _ _ E) as [l Hl].
    apply elem_of_Filter. rewrite <- (Rank_perm (sc_ranker s) _ (deployment_counts s req)), Hl. set_solver.
Qed.


Section optimal.
Context {WR : Type} `{!WorkerRepository WR, !WorkerRepositoryLaws WR}.
Context (s : Scheduler) (r : Registry WR) (req : WorkloadRequirement).
Context (Hreach : reg_reachable r).
Context (Hcap : ∀ w, w ∈ List order_id r → w_Capacity w ≤ Z.of_nat max_capacity).

Lemma elem_of_List_order o o' w : w ∈ List o r ↔ w ∈ List o' r.
Proof. by rewrite !elem_of_List. Qed.

Lemma List_load o w : w ∈ List o r → 0 ≤ w_ActiveWorkloads w.
Proof.
  intros [k Hk]%elem_of_List. destruct (get_pri_cell _ _ _ Hk) as (l & Hp & Hh).
  by eapply (ri_load _ (reg_reachable_inv r Hreach)).
Qed.

Lemma List_key_inj o w1 w2 :
  w1 ∈ List o r → w2 ∈ List o r → w_WorkerKey w1 = w_WorkerKey w2 → w1 = w2.
Proof.
  intros [k1 H1]%elem_of_List [k2 H2]%elem_of_List E.
  pose proof (reg_reachable_inv r Hreach) as Hi.
  destruct (get_pri_cell _ _ _ H1) as (l1 & Hp1 & Hh1), (get_pri_cell _ _ _ H2) as (l2 & Hp2 & Hh2).
  pose proof (ri_key _ Hi _ _ _ Hp1 Hh1). pose proof (ri_key _ Hi _ _ _ Hp2 Hh2). congruence.
Qed.

Lemma Filter_small o w : w ∈ Filter (List o r) req → small_worker w.
Proof.
  intros [Hw Hf]%elem_of_Filter. split.
  - pose proof (List_load _ _ Hw). destruct Hf. unfold required_capacity in *. lia.
  - apply Hcap. by rewrite elem_of_List_order.
Qed.

Lemma SelectWorker_least o w w' :
  SelectWorker s o r req = inr w → w' ∈ List o r → Feasible req w' →
  w' = w ∨ rank_cmp (deployment_counts s req) w w' = Lt.
Proof.
  intros E Hw' Hf'. destruct (SelectWorker_inr _ _ _ _ _ E) as [l Hl].
  pose proof (Rank_perm (sc_ranker s) (Filter (List o r) req) (deployment_counts s req)) as Hp.
  pose proof (Rank_sorted (sc_ranker s) (Filter (List o r) req) (deployment_counts s req)
    (small_worker_separated _ (Filter_small o))) as Hs.
  rewrite Hl in Hp, Hs. apply StronglySorted_inv in Hs as [_ Hs]. rewrite Forall_forall in Hs.
  assert (w ∈ List o r) as Hw.
  { assert (w ∈ Filter (List o r) req) as Hw by (rewrite <- Hp; left).
    by apply elem_of_Filter in Hw as [? _]. }
  assert (w' ∈ w :: l) as [->|Hin]%elem_of_cons by (rewrite Hp; by apply elem_of_Filter).
  { by left. }
  specialize (Hs w' Hin). destruct (rank_cmp _ w w') eqn:Ec; [left|by right|done].
  symmetry. eapply List_key_inj; eauto using rank_cmp_eq.
Qed.

End optimal.

(** On workers of a capacity up to 16, where the float64 comparison of load
    ratios is exact, SelectWorker returns the least feasible worker in the
    ranking order (instances of the deployment, then load ratio, then active
    workloads, then key), so the choice does not depend on the order in which
    the registry lists the workers. *)
Theorem select_worker_optimal {WR} `{!WorkerRepository WR, !WorkerRepositoryLaws WR}
    (s : Scheduler) (o : Order) (r : Registry WR) (req : WorkloadRequirement) (w : Worker) :
  reg_reachable r → (∀ w', w' ∈ List order_id r → w_Capacity w' ≤ Z.of_nat max_capacity) →
  SelectWorker s o r req = inr w →
  (∀ w', w' ∈ List o r → Feasible req w' →
     w' = w ∨ rank_cmp (deployment_counts s req) w w' = Lt)
  ∧ (∀ o', SelectWorker s o' r req = inr w).
Proof.
  intros Hr Hcap E. split; [intros w'; by apply SelectWorker_least|]. intros o'.
  pose proof (SelectWorker_spec s o r req) as HS. rewrite E in HS. destruct HS as [Hin Hf].
  pose proof (SelectWorker_spec s o' r req) as HS'.
  destruct (SelectWorker s o' r req) as [e|w'] eqn:E'.
  - exfalso. rewrite (elem_of_List_order r o o') in Hin.
    destruct HS' as [[H _]|(_ & H & _)]; [|by apply (H w)]. rewrite H in Hin. set_solver.
  - destruct HS' as [Hin' Hf']. f_equal.
    destruct (SelectWorker_least s r req Hr Hcap o w w') as [|H]; [done|by rewrite (elem_of_List_order r o o')|done..|].
    destruct (SelectWorker_least s r req Hr Hcap o' w' w) as [|H']; [done|by rewrite <- (elem_of_List_order r o o')|done..|].
    pose proof (cmp_anti _ (good_cmp_rank (deployment_counts s req)) w w') as Ha. by rewrite H, H' in Ha.
Qed.

(** The feasibility filter treats a partitioned, UNREACHABLE worker as it does a
    healthy one, while EvaluateSchedulability refuses it. *)
Theorem filter_ignores_partition (req : WorkloadRequirement) (w : Worker) :
  let lost := w <| w_Health := HealthUnreachable |> <| w_IsPartitioned := true |> in
  keep_candidate req lost = keep_candidate req (w <| w_Health := HealthHealthy |>)
  ∧ Allowed (EvaluateSchedulability lost) = false.
Proof.
  split; [done|]. unfold EvaluateSchedulability. cbn. by repeat case_match.
Qed.

Lemma select_worker_optimal_witness :
  SelectWorker (NewScheduler None) order_rev demo_registry (mkReq "d1" 1 ∅) = inr demo_worker.
Proof.
  refine (proj2 (select_worker_optimal (NewScheduler None) order_id demo_registry (mkReq "d1" 1 ∅) demo_worker
    demo_registry_reachable _ _) order_rev).
  - intros w' [k Hk]%elem_of_List. apply get_pri_cell in Hk as (l & Hl & Hh).
    vm_compute in Hl. destruct (decide (k = "worker-1")) as [->|Hne].
    + vm_compute in Hl. injection Hl as <-. vm_compute in Hh. injection Hh as <-. vm_compute. discriminate.
    + exfalso. change (({[ "worker-1" := 0%nat ]} : gmap string nat) !! k = Some l) in Hl.
      by rewrite lookup_singleton_ne in Hl.
  - vm_compute. reflexivity.
Defined.
