(* ===== verification/LoadBalancer.v ===== *)
(** * Load balancer: internal/loadbalancer

    The router (router.go): the targets of each project, the hostnames, and
    the choice of a target for a request. [url.Parse] is the parameter
    [NetURL]: it rejects a string or gives the URL that [URL.String] prints. *)

From stdpp Require Import base option gmap strings list pretty.
From Stdlib Require Import ZArith Lia Ascii.
From S2P Require Import Prelude GoLib.

Class NetURL := url_Parse : string → error + string.

Record Target := mkTarget { t_InstanceID : string; t_URL : string }.

#[export] Instance Target_eq_dec : EqDecision Target.
Proof. solve_decision. Defined.

Record Router := mkRouter {
  rt_targets : gmap string (list Target);
  rt_hostnames : gmap string string;
  rt_cpCallbacks : Z;
  rt_counter : Z
}.

#[export] Instance Router_eta : Settable Router := λ r,
  mkRouter (rt_targets r) (rt_hostnames r) (rt_cpCallbacks r) (rt_counter r).

Definition NewRouter : Router := mkRouter ∅ ∅ 0 0.

(** [r.targets[projectID]]. *)
Definition project_targets (projectID : string) (r : Router) : list Target :=
  default [] (rt_targets r !! projectID).

(** The copy loop of [RegisterTarget] and [UnregisterTarget]. *)
Definition without_instance (instanceID : string) (l : list Target) : list Target :=
  base.filter (λ t, t_InstanceID t ≠ instanceID) l.

Definition strip_port (host : string) : string :=
  if Contains host ":" then split_head host ":" else host.

Section router.
Context `{!Unicode}.

Definition normalize_hostname (hostname : string) : string :=
  strip_port (ToLower (TrimSpace hostname)).

Definition RegisterHostname (hostname projectID : string) (r : Router) : Router :=
  r <| rt_hostnames ::= <[normalize_hostname hostname := projectID]> |>.

Definition UnregisterHostname (hostname : string) (r : Router) : Router :=
  r <| rt_hostnames ::= delete (normalize_hostname hostname) |>.

Definition GetProjectForHostname (hostname : string) (r : Router) : option string :=
  rt_hostnames r !! normalize_hostname hostname.

Definition CPCallbackCount (r : Router) : Z := rt_cpCallbacks r.

Definition target_url (targetRawURL : string) : string :=
  if negb (HasPrefix targetRawURL "http://") && negb (HasPrefix targetRawURL "https://")
  then "http://" +:+ targetRawURL else targetRawURL.

Definition RegisterTarget `{!NetURL} (projectID instanceID targetRawURL : string) (r : Router) :
    option error * Router :=
  let targetRawURL := target_url targetRawURL in
  match url_Parse targetRawURL with
  | inl e => (Some ("invalid target URL " +:+ targetRawURL +:+ ": " +:+ e), r)
  | inr targetURL =>
    let updated := without_instance instanceID (project_targets projectID r) in
    (None, r <| rt_targets ::= <[projectID := updated ++ [mkTarget instanceID targetURL]]> |>)
  end.

Definition UnregisterTarget (projectID instanceID : string) (r : Router) : Router :=
  r <| rt_targets ::=
    <[projectID := without_instance instanceID (project_targets projectID r)]> |>.

Definition GetTargets (projectID : string) (r : Router) : list string :=
  t_URL <$> project_targets projectID r.

(** What [ServeHTTP] reads of a request: the Host, the [X-Project-ID] header,
    the [project] query parameter and the path. *)
Record Request := mkRequest {
  rq_Host : string;
  rq_ProjectHeader : string;
  rq_ProjectQuery : string;
  rq_Path : string
}.

(** The reply: an error status, or the target the request is proxied to. *)
Inductive Reply := BadRequest | ServiceUnavailable (msg : string) | Proxied (t : Target).

Definition resolve_project (req : Request) (r : Router) : string :=
  let p := default "" (rt_hostnames r !! ToLower (strip_port (rq_Host req))) in
  let p := if decide (p = "") then rq_ProjectHeader req else p in
  let p := if decide (p = "") then rq_ProjectQuery req else p in
  if bool_decide (p = "") && HasPrefix (rq_Path req) "/services/"
  then split_head (TrimPrefix (rq_Path req) "/services/") "/"
  else p.

(** [None] is a panic, index out of range. *)
Definition ServeHTTP (req : Request) (r : Router) : option Reply * Router :=
  let projectID := resolve_project req r in
  if decide (projectID = "") then (Some BadRequest, r)
  else
    let targets := project_targets projectID r in
    match targets with
    | [] => (Some (ServiceUnavailable ("no active instances for project " +:+ projectID)), r)
    | _ =>
      let r := r <| rt_counter ::= λ c, uint64 (c + 1) |> in
      let idx := rt_counter r `mod` Z.of_nat (length targets) in
      (Proxied <$> targets !! Z.to_nat idx, r)
    end.

End router.

(** ** The routing table as a map

    The specification of the table: for each project a finite map from the
    instances to their URLs. *)

Definition routes (r : Router) (projectID : string) : gmap string string :=
  list_to_map ((λ t, (t_InstanceID t, t_URL t)) <$> project_targets projectID r).

(** Every instance has at most one target in a project. *)
Definition router_wf (r : Router) : Prop :=
  ∀ p, NoDup (t_InstanceID <$> project_targets p r).

Definition no_target (p i : string) (r : Router) : Prop := routes r p !! i = None.

Section router_facts.
Context {uni : Unicode} {net : NetURL}.
Implicit Types (r : Router) (p i : string).

Lemma elem_of_without i l t : t ∈ without_instance i l ↔ t ∈ l ∧ t_InstanceID t ≠ i.
Proof. unfold without_instance. rewrite list_elem_of_filter. tauto. Qed.

Lemma NoDup_without i l :
  NoDup (t_InstanceID <$> l) → NoDup (t_InstanceID <$> without_instance i l).
Proof.
  induction l as [|t l IH]; [done|]. rewrite fmap_cons, NoDup_cons. intros [Hn Hd].
  unfold without_instance. rewrite filter_cons. case_decide; [|by apply IH].
  rewrite fmap_cons, NoDup_cons. split; [|by apply IH].
  rewrite list_elem_of_fmap in Hn |- *. intros (t' & E & [? _]%elem_of_without). eauto.
Qed.

Lemma routes_without i l :
  list_to_map (M := gmap string string)
    ((λ t, (t_InstanceID t, t_URL t)) <$> without_instance i l)
  = delete i (list_to_map ((λ t, (t_InstanceID t, t_URL t)) <$> l)).
Proof.
  induction l as [|t l IH]; [symmetry; apply delete_empty|].
  unfold without_instance. rewrite filter_cons. case_decide as E.
  - rewrite !fmap_cons. cbn. fold (without_instance i l). rewrite IH.
    by rewrite delete_insert_ne.
  - fold (without_instance i l). rewrite IH, fmap_cons. cbn.
    subst. by rewrite delete_insert_eq.
Qed.

Lemma project_targets_insert p l r p' :
  project_targets p' (r <| rt_targets ::= <[p := l]> |>) =
    if decide (p = p') then l else project_targets p' r.
Proof. unfold project_targets. cbn. rewrite lookup_insert. by case_decide. Qed.

Lemma router_wf_RegisterTarget r p i u : router_wf r → router_wf (RegisterTarget p i u r).2.
Proof.
  intros H p'. unfold RegisterTarget. destruct (url_Parse _) as [e|v]; [apply H|]. cbn [snd].
  rewrite project_targets_insert. case_decide; [|apply H].
  rewrite fmap_app, NoDup_app. split_and!; [by apply NoDup_without| |by apply NoDup_singleton].
  intros x (t & -> & [_ Hne]%elem_of_without)%list_elem_of_fmap. set_solver.
Qed.

Lemma router_wf_UnregisterTarget r p i : router_wf r → router_wf (UnregisterTarget p i r).
Proof.
  intros H p'. unfold UnregisterTarget. rewrite project_targets_insert.
  case_decide; [by apply NoDup_without|apply H].
Qed.

Lemma routes_RegisterTarget r p i u v p' :
  url_Parse (target_url u) = inr v →
  routes (RegisterTarget p i u r).2 p' =
    if decide (p = p') then <[i := v]> (routes r p') else routes r p'.
Proof.
  intros E. unfold RegisterTarget, routes. rewrite E. cbn [snd].
  rewrite project_targets_insert. case_decide as Hp; [subst p'|done].
  rewrite fmap_app, list_to_map_app, routes_without. cbn.
  rewrite <- insert_union_r by apply lookup_delete_eq.
  by rewrite (right_id ∅ (∪)), insert_delete_eq.
Qed.

Lemma routes_UnregisterTarget r p i p' :
  routes (UnregisterTarget p i r) p' =
    if decide (p = p') then delete i (routes r p') else routes r p'.
Proof.
  unfold UnregisterTarget, routes. rewrite project_targets_insert.
  case_decide as Hp; [subst p'|done]. apply routes_without.
Qed.

Lemma no_target_UnregisterTarget r p i p' i' :
  no_target p' i' r → no_target p' i' (UnregisterTarget p i r).
Proof.
  unfold no_target. rewrite routes_UnregisterTarget. case_decide; [|done].
  by rewrite lookup_delete_None; right.
Qed.

Lemma elem_of_routes r p i u :
  router_wf r → (routes r p !! i = Some u ↔ mkTarget i u ∈ project_targets p r).
Proof.
  intros H. unfold routes. rewrite <- elem_of_list_to_map.
  - rewrite list_elem_of_fmap. split.
    + intros ([i' u'] & [= <- <-] & ?). done.
    + intros ?. by exists (mkTarget i u).
  - rewrite <- list_fmap_compose. apply H.
Qed.

End router_facts.

(** ** Serving sequences of requests *)

Section serving.
Context {uni : Unicode}.
Implicit Types (r : Router) (p : string).

Fixpoint serve_all (reqs : list Request) (r : Router) : list (option Reply) * Router :=
  match reqs with
  | [] => ([], r)
  | req :: reqs' =>
    let '(reply, r') := ServeHTTP req r in
    let '(replies, r'') := serve_all reqs' r' in
    (reply :: replies, r'')
  end.

(** Routing decides on the tables alone, never on the counter. *)
Definition same_tables (r r' : Router) : Prop :=
  rt_targets r' = rt_targets r ∧ rt_hostnames r' = rt_hostnames r.

Lemma resolve_same_tables req r r' :
  same_tables r r' → resolve_project req r' = resolve_project req r.
Proof. intros [_ E]. unfold resolve_project. by rewrite E. Qed.

Lemma targets_same_tables p r r' :
  same_tables r r' → project_targets p r' = project_targets p r.
Proof. intros [E _]. unfold project_targets. by rewrite E. Qed.

Lemma ServeHTTP_tables req r : same_tables r (ServeHTTP req r).2.
Proof. unfold ServeHTTP. case_decide; [done|]. by destruct (project_targets _ _). Qed.

(** The reply to a request of project [p], and the counter after it. *)
Lemma ServeHTTP_proxied req r p t ts :
  resolve_project req r = p → p ≠ "" → project_targets p r = t :: ts →
  (ServeHTTP req r).1 =
    Proxied <$> (t :: ts) !! Z.to_nat (uint64 (rt_counter r + 1) `mod` Z.of_nat (length (t :: ts)))
  ∧ rt_counter (ServeHTTP req r).2 = uint64 (rt_counter r + 1).
Proof.
  intros Hp Hne Hts. unfold ServeHTTP. rewrite Hp, decide_False, Hts by done. done.
Qed.

Lemma serve_all_lookup reqs r p (i : nat) :
  (∀ req, req ∈ reqs → resolve_project req r = p) → p ≠ "" → project_targets p r ≠ [] →
  0 ≤ rt_counter r → rt_counter r + Z.of_nat (length reqs) < 2 ^ 64 → (i < length reqs)%nat →
  (serve_all reqs r).1 !! i =
    Some (Proxied <$> project_targets p r !!
      Z.to_nat ((rt_counter r + 1 + Z.of_nat i) `mod` Z.of_nat (length (project_targets p r)))).
Proof.
  revert r i. induction reqs as [|req reqs IH]; intros r i Hres Hne Hts Hc0 Hc Hi; [cbn in Hi; lia|].
  cbn [length] in Hc, Hi.
  destruct (project_targets p r) as [|t ts] eqn:Et; [done|].
  destruct (ServeHTTP_proxied req r p t ts) as [Hr Hc']; [apply Hres; left|done..|].
  pose proof (ServeHTTP_tables req r) as Hsame.
  cbn [serve_all]. destruct (ServeHTTP req r) as [reply r'] eqn:Er. cbn [fst snd] in *.
  rewrite uint64_small in Hr, Hc' by lia.
  destruct (serve_all reqs r') as [replies r''] eqn:Es. cbn [fst].
  destruct i as [|i].
  { cbn. by rewrite Hr, Z.add_0_r. }
  change ((reply :: replies) !! S i) with (replies !! i).
  specialize (IH r' i). rewrite Es, Hc', (targets_same_tables _ _ _ Hsame), Et in IH.
  cbn [fst] in IH. rewrite IH; try done; try lia.
  - by replace (rt_counter r + 1 + Z.of_nat (S i)) with (rt_counter r + 1 + 1 + Z.of_nat i) by lia.
  - intros req' Hreq. rewrite (resolve_same_tables _ _ _ Hsame). apply Hres. by right.
Qed.

Lemma length_serve_all reqs r : length (serve_all reqs r).1 = length reqs.
Proof.
  revert r. induction reqs as [|req reqs IH]; intros r; [done|]. cbn.
  destruct (ServeHTTP req r) as [reply r']. specialize (IH r').
  destruct (serve_all reqs r') as [replies r'']. cbn in *. by f_equal.
Qed.

Lemma rotate_perm {A} n (l : list A) : rotate n l ≡ₚ l.
Proof. unfold rotate. by rewrite Permutation_app_comm, take_drop. Qed.

(** As many consecutive requests for one project as it has targets reach each of
    its targets once. *)
Theorem round_robin_fair (reqs : list Request) (r : Router) (p : string) :
  (∀ req, req ∈ reqs → resolve_project req r = p) → p ≠ "" →
  length reqs = length (project_targets p r) →
  0 ≤ rt_counter r → rt_counter r + Z.of_nat (length reqs) < 2 ^ 64 →
  (serve_all reqs r).1 ≡ₚ Some ∘ Proxied <$> project_targets p r.
Proof.
  intros Hres Hne Hlen Hc0 Hc. destruct (project_targets p r) as [|t ts] eqn:Et.
  { by destruct reqs. }
  set (l := t :: ts) in *.
  rewrite <- (rotate_perm (Z.to_nat (rt_counter r + 1)) l).
  assert ((serve_all reqs r).1 =
    Some ∘ Proxied <$> rotate (Z.to_nat (rt_counter r + 1)) l) as ->; [|done].
  apply list_eq. intros i. rewrite list_lookup_fmap.
  destruct (decide (i < length reqs)%nat) as [Hi|Hi].
  - rewrite (serve_all_lookup _ _ p) by (done || by rewrite Et).
    rewrite Et. fold l. rewrite lookup_rotate_r by lia. unfold rotate_nat_add.
    replace (Z.of_nat (Z.to_nat (rt_counter r + 1))) with (rt_counter r + 1) by lia.
    set (k := Z.to_nat ((rt_counter r + 1 + Z.of_nat i) `mod` Z.of_nat (length l))).
    assert (k < length l)%nat as Hk.
    { unfold k, l. cbn [length].
      pose proof (Z.mod_pos_bound (rt_counter r + 1 + Z.of_nat i) (Z.of_nat (S (length ts)))). lia. }
    apply lookup_lt_is_Some in Hk as [x ->]. done.
  - rewrite lookup_ge_None_2 by (rewrite length_serve_all; lia).
    by rewrite lookup_ge_None_2 by (rewrite length_rotate; lia).
Qed.

(** Two projects with two targets each, and a request of the first after every
    request of the second: the parity of the shared counter is the same at
    every request of a project. *)
Lemma serve_pair ra rb r p q a0 a1 b0 b1 :
  resolve_project ra r = p → resolve_project rb r = q → p ≠ "" → q ≠ "" →
  project_targets p r = [a0; a1] → project_targets q r = [b0; b1] →
  let odd := Z.odd (rt_counter r) in
  ∃ r', serve_all [ra; rb] r =
      ([Some (Proxied (if odd then a0 else a1)); Some (Proxied (if odd then b1 else b0))], r')
    ∧ same_tables r r' ∧ Z.odd (rt_counter r') = odd.
Proof.
  intros Hp Hq Hpe Hqe Ha Hb odd.
  assert (∀ c, uint64 (c + 1) `mod` 2 = if Z.odd c then 0 else 1) as Hpar.
  { intros c. unfold uint64. rewrite Z.mod_mod_divide by (by exists (2 ^ 63)).
    rewrite Zmod_odd, Z.add_1_r, Z.odd_succ, <- Z.negb_odd. by destruct (Z.odd c). }
  assert (∀ c, Z.odd (uint64 (c + 1)) = negb (Z.odd c)) as Hodd.
  { intros c. specialize (Hpar c). rewrite Zmod_odd in Hpar.
    by destruct (Z.odd c), (Z.odd (uint64 (c + 1))). }
  destruct (ServeHTTP_proxied ra r p a0 [a1]) as [Hr1 Hc1]; [done..|].
  pose proof (ServeHTTP_tables ra r) as Hs1. cbn [length] in Hr1. rewrite Hpar in Hr1.
  cbn [serve_all]. destruct (ServeHTTP ra r) as [rep1 r1]. cbn [fst snd] in *.
  destruct (ServeHTTP_proxied rb r1 q b0 [b1]) as [Hr2 Hc2];
    [by rewrite (resolve_same_tables _ _ _ Hs1)|done|by rewrite (targets_same_tables _ _ _ Hs1)|].
  pose proof (ServeHTTP_tables rb r1) as Hs2. cbn [length] in Hr2. rewrite Hpar, Hc1, Hodd in Hr2.
  destruct (ServeHTTP rb r1) as [rep2 r2]. cbn [fst snd] in *.
  exists r2. split_and!.
  - subst odd. rewrite Hr1, Hr2. by destruct (Z.odd (rt_counter r)).
  - destruct Hs1, Hs2. split; congruence.
  - rewrite Hc2, Hodd, Hc1, Hodd. apply negb_involutive.
Qed.

Lemma serve_all_app l1 l2 r :
  serve_all (l1 ++ l2) r =
    ((serve_all l1 r).1 ++ (serve_all l2 (serve_all l1 r).2).1, (serve_all l2 (serve_all l1 r).2).2).
Proof.
  revert r. induction l1 as [|req l1 IH]; intros r; cbn; [by destruct (serve_all l2 r)|].
  destruct (ServeHTTP req r) as [rep r']. rewrite IH. by destruct (serve_all l1 r').
Qed.

(** With two projects of two targets each and requests that alternate between
    them, every request of a project reaches the same one of its targets,
    because one counter serves all projects. *)
Theorem round_robin_shared_counter (n : nat) (ra rb : Request) (r : Router) (p q : string)
    (a0 a1 b0 b1 : Target) :
  resolve_project ra r = p → resolve_project rb r = q → p ≠ "" → q ≠ "" →
  project_targets p r = [a0; a1] → project_targets q r = [b0; b1] →
  let odd := Z.odd (rt_counter r) in
  (serve_all (mjoin (replicate n [ra; rb])) r).1 =
    mjoin (replicate n
      [Some (Proxied (if odd then a0 else a1)); Some (Proxied (if odd then b1 else b0))]).
Proof.
  revert r. induction n as [|n IH]; intros r Hp Hq Hpe Hqe Ha Hb odd; [done|].
  destruct (serve_pair ra rb r p q a0 a1 b0 b1) as (r' & E & Hs & Ho); [done..|].
  change (mjoin (replicate (S n) ?x)) with (x ++ mjoin (replicate n x)).
  change (mjoin (replicate (S n) ?x)) with (x ++ mjoin (replicate n x)).
  rewrite serve_all_app, E. cbn [fst snd]. f_equal.
  rewrite IH; [by rewrite Ho|..]; try done.
  all: by rewrite ?(resolve_same_tables _ _ _ Hs), ?(targets_same_tables _ _ _ Hs).
Qed.

End serving.

(** ** Runs of the router *)

Section router_steps.
Context {uni : Unicode} {net : NetURL}.

Inductive rt_step : Router → Router → Prop :=
| step_RegisterTarget p i u r : rt_step r (RegisterTarget p i u r).2
| step_UnregisterTarget p i r : rt_step r (UnregisterTarget p i r)
| step_RegisterHostname h p r : rt_step r (RegisterHostname h p r)
| step_UnregisterHostname h r : rt_step r (UnregisterHostname h r)
| step_ServeHTTP req r : rt_step r (ServeHTTP req r).2.

Inductive rt_reachable : Router → Prop :=
| rt_reach_new : rt_reachable NewRouter
| rt_reach_step r r' : rt_reachable r → rt_step r r' → rt_reachable r'.

Lemma rt_reachable_wf r : rt_reachable r → router_wf r ∧ 0 ≤ rt_counter r < 2 ^ 64 ∧ rt_cpCallbacks r = 0.
Proof.
  induction 1 as [|r r' _ (Hw & Hc & Hb) Hs].
  { split; [intros p; unfold project_targets; cbn; constructor|done]. }
  destruct Hs as [p i u r|p i r|h p r|h r|req r]; try done.
  - split; [by apply router_wf_RegisterTarget|]. unfold RegisterTarget. by case_match.
  - split; [by apply router_wf_UnregisterTarget|done].
  - split.
    + intros p. rewrite (targets_same_tables _ _ _ (ServeHTTP_tables req r)). apply Hw.
    + unfold ServeHTTP. case_decide; [done|]. case_match; [done|]. cbn.
      split; [|done]. apply Z.mod_pos_bound. done.
Qed.


(** ServeHTTP always answers, without an index out of range: with a bad request
    when no project is found, with service unavailable when the project has no
    target, and otherwise by proxying to a registered target of the project. *)
Theorem serve_http_total (r : Router) (req : Request) :
  rt_reachable r →
  let p := resolve_project req r in
  match (ServeHTTP req r).1 with
  | Some BadRequest => p = ""
  | Some (ServiceUnavailable _) => p ≠ "" ∧ routes r p = ∅
  | Some (Proxied t) => p ≠ "" ∧ routes r p !! t_InstanceID t = Some (t_URL t)
  | None => False
  end.
Proof.
  intros (Hw & Hc & _)%rt_reachable_wf. cbv zeta.
  destruct (decide (resolve_project req r = "")) as [E|E].
  { unfold ServeHTTP. by rewrite decide_True. }
  destruct (project_targets (resolve_project req r) r) as [|t ts] eqn:Et.
  { unfold ServeHTTP. rewrite decide_False, Et by done. cbn. split; [done|].
    unfold routes. by rewrite Et. }
  destruct (ServeHTTP_proxied req r _ t ts eq_refl E Et) as [-> _].
  set (k := Z.to_nat _). assert (k < length (t :: ts))%nat as Hk.
  { unfold k. cbn [length].
    pose proof (Z.mod_pos_bound (uint64 (rt_counter r + 1)) (Z.of_nat (S (length ts)))). lia. }
  apply lookup_lt_is_Some in Hk as [[i u] Hx]. rewrite Hx. cbn. split; [done|].
  apply elem_of_routes; [done|]. rewrite Et. by eapply list_elem_of_lookup_2.
Qed.

End router_steps.

(** ** A concrete router

    Every URL is accepted; two projects have two targets each. *)

Definition demo_url : NetURL := inr.

#[local] Existing Instance demo_url.
#[local] Existing Instance unicode_none.

Definition demo_router : Router :=
  (RegisterTarget "blog" "b2" "10.0.0.2:82" (RegisterTarget "shop" "s2" "10.0.0.2:81"
    (RegisterTarget "blog" "b1" "10.0.0.1:82" (RegisterTarget "shop" "s1" "10.0.0.1:81"
      NewRouter).2).2).2).2.

Lemma demo_router_reachable : rt_reachable demo_router.
Proof. unfold demo_router. repeat (eapply rt_reach_step; [|apply step_RegisterTarget]). apply rt_reach_new. Qed.

Definition shop_request : Request := mkRequest "" "shop" "" "/".
Definition blog_request : Request := mkRequest "" "blog" "" "/".

Lemma round_robin_fair_witness :
  (serve_all [shop_request; shop_request] demo_router).1
  ≡ₚ [Some (Proxied (mkTarget "s1" "http://10.0.0.1:81")); Some (Proxied (mkTarget "s2" "http://10.0.0.2:81"))].
Proof.
  apply (round_robin_fair [shop_request; shop_request] demo_router "shop");
    [|discriminate|reflexivity|discriminate|reflexivity].
  intros req Hreq. assert (req = shop_request) as -> by set_solver. reflexivity.
Defined.

(** Three requests of each project, in turns: each project gets one target only. *)
Lemma round_robin_shared_counter_witness :
  (serve_all [shop_request; blog_request; shop_request; blog_request; shop_request; blog_request] demo_router).1
  = mjoin (replicate 3 [Some (Proxied (mkTarget "s2" "http://10.0.0.2:81"));
                        Some (Proxied (mkTarget "b1" "http://10.0.0.1:82"))]).
Proof.
  apply (round_robin_shared_counter 3 shop_request blog_request demo_router "shop" "blog"
    (mkTarget "s1" "http://10.0.0.1:81") (mkTarget "s2" "http://10.0.0.2:81")
    (mkTarget "b1" "http://10.0.0.1:82") (mkTarget "b2" "http://10.0.0.2:82"));
    (reflexivity || discriminate).
Defined.


Lemma serve_http_total_witness :
  routes demo_router "shop" !! "s2" = Some "http://10.0.0.2:81".
Proof.
  pose proof (serve_http_total demo_router shop_request demo_router_reachable) as H.
  vm_compute in H. vm_compute. apply H.
Defined.
