(* ===== verification/Discovery.v ===== *)
(** * Service discovery: internal/discovery

    The service registry keeps one endpoint record per registration, behind
    the pointers of three maps (by instance, by worker and by project), and
    drives the router. The records are updated in place, so the maps hold
    addresses into a heap. *)

From stdpp Require Import base option gmap strings list pretty.
From Stdlib Require Import ZArith Lia Ascii.
From S2P Require Import Prelude GoLib LoadBalancer.

(** ** model.go *)

Inductive EndpointStatus := EndpointHealthy | EndpointUnhealthy | EndpointOther (s : string).

#[export] Instance EndpointStatus_eq_dec : EqDecision EndpointStatus.
Proof. solve_decision. Defined.

Record Endpoint := mkEndpoint {
  ep_InstanceID : string;
  ep_DeploymentID : string;
  ep_ProjectID : string;
  ep_WorkerID : string;
  ep_Address : string;
  ep_Status : EndpointStatus;
  ep_UpdatedAt : Time
}.

#[export] Instance Endpoint_eta : Settable Endpoint := λ e,
  mkEndpoint (ep_InstanceID e) (ep_DeploymentID e) (ep_ProjectID e) (ep_WorkerID e)
    (ep_Address e) (ep_Status e) (ep_UpdatedAt e).

#[export] Instance Endpoint_eq_dec : EqDecision Endpoint.
Proof. solve_decision. Defined.

(** ** service_registry.go *)

Abbreviation Index := (gmap string (gmap string nat)) (only parsing).

Record ServiceRegistry := mkSR {
  sr_heap : gmap nat Endpoint;
  sr_next : nat;
  sr_endpoints : gmap string nat;
  sr_byWorker : Index;
  sr_byProject : Index;
  sr_router : option Router
}.

#[export] Instance ServiceRegistry_eta : Settable ServiceRegistry := λ r,
  mkSR (sr_heap r) (sr_next r) (sr_endpoints r) (sr_byWorker r) (sr_byProject r) (sr_router r).

Definition NewServiceRegistry (router : option Router) : ServiceRegistry :=
  mkSR ∅ 0 ∅ ∅ ∅ router.

(** [m[k][i]], [m[k][i] = l] and [delete(m[k], i)]; a missing inner map reads
    as the empty one. *)
Definition idx_get (m : Index) (k i : string) : option nat := m !! k ≫= lookup i.
Definition idx_put (m : Index) (k i : string) (l : nat) : Index :=
  <[k := <[i := l]> (default ∅ (m !! k))]> m.
Definition idx_del (m : Index) (k i : string) : Index :=
  match m !! k with Some inner => <[k := delete i inner]> m | None => m end.

Definition with_router (f : Router → Router) (r : ServiceRegistry) : ServiceRegistry :=
  r <| sr_router ::= fmap f |>.

Section service_registry.
Context {net : NetURL}.
Implicit Types r : ServiceRegistry.

Definition RegisterEndpoint (now : Time) (ep : Endpoint) r : option error * ServiceRegistry :=
  let ep := if IsZero (ep_UpdatedAt ep) then ep <| ep_UpdatedAt := now |> else ep in
  let l := sr_next r in
  let r := r <| sr_heap ::= <[l := ep]> |> <| sr_next ::= S |>
             <| sr_endpoints ::= <[ep_InstanceID ep := l]> |>
             <| sr_byWorker ::= λ m, idx_put m (ep_WorkerID ep) (ep_InstanceID ep) l |>
             <| sr_byProject ::= λ m, idx_put m (ep_ProjectID ep) (ep_InstanceID ep) l |> in
  match sr_router r with
  | Some router =>
    if bool_decide (ep_Status ep = EndpointHealthy) && bool_decide (ep_Address ep ≠ "")
    then let '(err, router) := RegisterTarget (ep_ProjectID ep) (ep_InstanceID ep) (ep_Address ep) router in
         (err, r <| sr_router := Some router |>)
    else (None, r)
  | None => (None, r)
  end.

(** [r.endpoints[instanceID]]: the pointer and the record behind it. *)
Definition find_endpoint (instanceID : string) r : option (nat * Endpoint) :=
  sr_endpoints r !! instanceID ≫= λ l, (l,.) <$> sr_heap r !! l.

Definition UnregisterEndpoint (instanceID : string) r : ServiceRegistry :=
  match find_endpoint instanceID r with
  | None => r
  | Some (_, ep) =>
    with_router (UnregisterTarget (ep_ProjectID ep) instanceID)
      (r <| sr_endpoints ::= delete instanceID |>
         <| sr_byWorker ::= λ m, idx_del m (ep_WorkerID ep) instanceID |>
         <| sr_byProject ::= λ m, idx_del m (ep_ProjectID ep) instanceID |>)
  end.

Definition SetEndpointHealth (now : Time) (instanceID : string) (healthy : bool) r :
    (error + Endpoint) * ServiceRegistry :=
  match find_endpoint instanceID r with
  | None => (inl ("endpoint for instance " +:+ instanceID +:+ " not found"), r)
  | Some (l, ep) =>
    let oldStatus := ep_Status ep in
    let ep := ep <| ep_Status := if healthy then EndpointHealthy else EndpointUnhealthy |>
                 <| ep_UpdatedAt := now |> in
    let r := r <| sr_heap ::= <[l := ep]> |> in
    let r :=
      if negb healthy then with_router (UnregisterTarget (ep_ProjectID ep) (ep_InstanceID ep)) r
      else if bool_decide (oldStatus ≠ EndpointHealthy) && bool_decide (ep_Address ep ≠ "")
      then with_router (λ router,
             (RegisterTarget (ep_ProjectID ep) (ep_InstanceID ep) (ep_Address ep) router).2) r
      else r in
    (inr ep, r)
  end.

(** One turn of the eviction loop; [clock] gives the time read at the turn of
    an instance. *)
Definition evict_one (clock : string → Time) (r : ServiceRegistry) (p : string * nat) :
    ServiceRegistry :=
  match sr_heap r !! p.2 with
  | None => r
  | Some ep =>
    with_router (UnregisterTarget (ep_ProjectID ep) (ep_InstanceID ep))
      (r <| sr_heap ::= <[p.2 := ep <| ep_Status := EndpointUnhealthy |>
                                    <| ep_UpdatedAt := clock p.1 |>]> |>)
  end.

Definition EvictWorkerEndpoints (o : Order) (clock : string → Time) (workerID : string) r :
    list string * ServiceRegistry :=
  match sr_byWorker r !! workerID with
  | None => ([], r)
  | Some instances =>
    let ps := map_pairs o instances in
    (ps.*1, fold_left (evict_one clock) ps r)
  end.

Definition GetHealthyEndpoints (o : Order) (projectID : string) r : list Endpoint :=
  base.filter (λ ep, ep_Status ep = EndpointHealthy)
    (omap (λ l, sr_heap r !! l) (map_values o (default ∅ (sr_byProject r !! projectID)))).

Definition GetAllEndpoints (o : Order) r : list Endpoint :=
  omap (λ l, sr_heap r !! l) (map_values o (sr_endpoints r)).

End service_registry.

(** ** The invariant *)

Record sr_inv (r : ServiceRegistry) : Prop := {
  sr_fresh : ∀ l, (sr_next r ≤ l)%nat → sr_heap r !! l = None;
  sr_live : ∀ i l, sr_endpoints r !! i = Some l →
    ∃ ep, sr_heap r !! l = Some ep ∧ ep_InstanceID ep = i
      ∧ idx_get (sr_byWorker r) (ep_WorkerID ep) i = Some l
      ∧ idx_get (sr_byProject r) (ep_ProjectID ep) i = Some l;
  sr_worker : ∀ w i l, idx_get (sr_byWorker r) w i = Some l →
    ∃ ep, sr_heap r !! l = Some ep ∧ ep_InstanceID ep = i ∧ ep_WorkerID ep = w;
  sr_project : ∀ p i l, idx_get (sr_byProject r) p i = Some l →
    ∃ ep, sr_heap r !! l = Some ep ∧ ep_InstanceID ep = i ∧ ep_ProjectID ep = p
}.

(** Updates of a record's status keep the shape of the maps. *)
Definition ep_ids (ep : Endpoint) : string * string * string :=
  (ep_InstanceID ep, ep_WorkerID ep, ep_ProjectID ep).

Record same_shape (r r' : ServiceRegistry) : Prop := {
  ss_next : sr_next r' = sr_next r;
  ss_endpoints : sr_endpoints r' = sr_endpoints r;
  ss_byWorker : sr_byWorker r' = sr_byWorker r;
  ss_byProject : sr_byProject r' = sr_byProject r;
  ss_heap : ∀ l, ep_ids <$> sr_heap r' !! l = ep_ids <$> sr_heap r !! l
}.

#[export] Instance same_shape_preorder : PreOrder same_shape.
Proof.
  split; [done|]. intros r1 r2 r3 [] []. split; intros; congruence.
Qed.

Lemma ss_ids r r' l ep :
  same_shape r r' → sr_heap r !! l = Some ep →
  ∃ ep', sr_heap r' !! l = Some ep' ∧ ep_ids ep' = ep_ids ep.
Proof.
  intros H E. pose proof (ss_heap _ _ H l) as Hl. rewrite E in Hl. cbn in Hl.
  destruct (sr_heap r' !! l) as [ep'|]; [|done]. exists ep'. split; [done|by apply Some_inj].
Qed.

Lemma sr_inv_shape r r' : same_shape r r' → sr_inv r → sr_inv r'.
Proof.
  intros Hs [H1 H2 H3 H4]. split.
  - intros l Hl. rewrite (ss_next _ _ Hs) in Hl. pose proof (ss_heap _ _ Hs l) as E.
    rewrite (H1 l Hl) in E. by destruct (sr_heap r' !! l).
  - intros i l. rewrite (ss_endpoints _ _ Hs). intros (ep & E & Hi & Hw & Hp)%H2.
    destruct (ss_ids _ _ _ _ Hs E) as (ep' & E' & [= I1 I2 I3]). exists ep'.
    rewrite (ss_byWorker _ _ Hs), (ss_byProject _ _ Hs). split_and!; congruence.
  - intros w i l. rewrite (ss_byWorker _ _ Hs). intros (ep & E & Hi & Hw)%H3.
    destruct (ss_ids _ _ _ _ Hs E) as (ep' & E' & [= I1 I2 I3]). exists ep'. split_and!; congruence.
  - intros w i l. rewrite (ss_byProject _ _ Hs). intros (ep & E & Hi & Hw)%H4.
    destruct (ss_ids _ _ _ _ Hs E) as (ep' & E' & [= I1 I2 I3]). exists ep'. split_and!; congruence.
Qed.

Lemma same_shape_write r l ep ep' f :
  sr_heap r !! l = Some ep → ep_ids ep' = ep_ids ep →
  same_shape r (with_router f (r <| sr_heap ::= <[l := ep']> |>)).
Proof.
  intros E Hi. split; try done. intros l'. cbn. rewrite lookup_insert.
  case_decide; [subst|done]. by rewrite E; cbn; rewrite Hi.
Qed.

Lemma evict_one_shape clock r p : same_shape r (evict_one clock r p).
Proof.
  unfold evict_one. destruct (sr_heap r !! p.2) eqn:E; [|done]. by eapply same_shape_write.
Qed.

(** The targets of the router, when there is one. *)
Definition unrouted (p i : string) (r : ServiceRegistry) : Prop :=
  ∀ router, sr_router r = Some router → no_target p i router.

Lemma unrouted_with_UnregisterTarget r p i p' i' :
  unrouted p i r ∨ (p = p' ∧ i = i') → unrouted p i (with_router (UnregisterTarget p' i') r).
Proof.
  intros H router. cbn. destruct (sr_router r) as [rt|] eqn:E; [|done]. cbn. intros [= <-].
  destruct H as [H|[-> ->]]; [by apply no_target_UnregisterTarget, H|].
  unfold no_target. rewrite routes_UnregisterTarget, decide_True by done. apply lookup_delete_eq.
Qed.

Lemma unrouted_evict_fold clock ps r p i :
  unrouted p i r → unrouted p i (fold_left (evict_one clock) ps r).
Proof.
  revert r. induction ps as [|q ps IH]; intros r Hr; [done|]. cbn. apply IH.
  unfold evict_one. case_match; [|done]. apply unrouted_with_UnregisterTarget. by left.
Qed.

Lemma unrouted_Evict o clock w r p i :
  unrouted p i r → unrouted p i (EvictWorkerEndpoints o clock w r).2.
Proof. unfold EvictWorkerEndpoints. case_match; [|done]. apply unrouted_evict_fold. Qed.

(** The eviction loop over the pairs [ps]. *)
Lemma evict_fold clock ps r l ep :
  sr_heap r !! l = Some ep →
  let r' := fold_left (evict_one clock) ps r in
  same_shape r r'
  ∧ (l ∉ ps.*2 → sr_heap r' !! l = Some ep)
  ∧ (l ∈ ps.*2 → (∃ ep', sr_heap r' !! l = Some ep' ∧ ep_Status ep' = EndpointUnhealthy)
      ∧ unrouted (ep_ProjectID ep) (ep_InstanceID ep) r').
Proof.
  revert r ep. induction ps as [|[i l'] ps IH]; intros r ep E r'.
  { split_and!; [done|done|set_solver]. }
  subst r'. cbn [fold_left]. set (r1 := evict_one clock r (i, l')).
  pose proof (evict_one_shape clock r (i, l')) as Hs. fold r1 in Hs.
  destruct (ss_ids _ _ _ _ Hs E) as (ep1 & E1 & [= I1 I2 I3]).
  destruct (IH r1 ep1 E1) as (Hs' & Hout & Hin).
  split; [by etransitivity|]. rewrite fmap_cons, not_elem_of_cons, elem_of_cons. cbn [snd].
  split.
  - intros [Hne Hl]. rewrite (Hout Hl), <- E1. unfold r1, evict_one. cbn [fst snd].
    destruct (sr_heap r !! l') eqn:?; [|congruence]. cbn. by rewrite lookup_insert_ne.
  - intros Hl. destruct (decide (l ∈ ps.*2)) as [Hi|Hi].
    { rewrite <- I1, <- I3. by apply Hin. }
    destruct Hl as [<-|]; [|done]. rewrite (Hout Hi).
    assert (ep_Status ep1 = EndpointUnhealthy ∧ unrouted (ep_ProjectID ep) (ep_InstanceID ep) r1) as [Hu Hr].
    { unfold r1, evict_one in E1 |- *. cbn [fst snd] in *. rewrite E in E1 |- *.
      cbn in E1. rewrite lookup_insert_eq in E1. injection E1 as <-. split; [done|].
      apply unrouted_with_UnregisterTarget. by right. }
    split; [eauto|]. by apply unrouted_evict_fold.
Qed.

Lemma idx_get_put m k i l k' i' :
  idx_get (idx_put m k i l) k' i' =
    if decide (k = k' ∧ i = i') then Some l else idx_get m k' i'.
Proof.
  unfold idx_get, idx_put. rewrite lookup_insert. destruct (decide (k = k')) as [<-|Hk]; cbn.
  - rewrite lookup_insert. destruct (decide (i = i')) as [<-|Hi].
    + by rewrite decide_True.
    + rewrite decide_False by naive_solver. by destruct (m !! k).
  - by rewrite decide_False by naive_solver.
Qed.

Lemma idx_get_del m k i k' i' :
  idx_get (idx_del m k i) k' i' =
    if decide (k = k' ∧ i = i') then None else idx_get m k' i'.
Proof.
  unfold idx_get, idx_del. destruct (m !! k) as [inner|] eqn:E.
  - rewrite lookup_insert. destruct (decide (k = k')) as [<-|Hk]; cbn.
    + rewrite lookup_delete, E. cbn. destruct (decide (i = i')) as [<-|Hi].
      * by rewrite decide_True.
      * by rewrite decide_False by naive_solver.
    + by rewrite decide_False by naive_solver.
  - case_decide as H; [|done]. destruct H as [<- _]. by rewrite E.
Qed.

Section discovery_steps.
Context {net : NetURL}.

(** The registered record, as [RegisterEndpoint] stores it. *)
Definition stamped (now : Time) (ep : Endpoint) : Endpoint :=
  if IsZero (ep_UpdatedAt ep) then ep <| ep_UpdatedAt := now |> else ep.

Lemma stamped_ids now ep : ep_ids (stamped now ep) = ep_ids ep.
Proof. unfold stamped. by case_match. Qed.

Lemma RegisterEndpoint_maps now ep r :
  let r' := (RegisterEndpoint now ep r).2 in
  let l := sr_next r in
  sr_heap r' = <[l := stamped now ep]> (sr_heap r) ∧ sr_next r' = S l
  ∧ sr_endpoints r' = <[ep_InstanceID ep := l]> (sr_endpoints r)
  ∧ sr_byWorker r' = idx_put (sr_byWorker r) (ep_WorkerID ep) (ep_InstanceID ep) l
  ∧ sr_byProject r' = idx_put (sr_byProject r) (ep_ProjectID ep) (ep_InstanceID ep) l.
Proof.
  unfold RegisterEndpoint. fold (stamped now ep). pose proof (stamped_ids now ep) as [= E1 E2 E3].
  cbn zeta. rewrite E1, E2, E3. cbn. destruct (sr_router r) as [rt|]; [|done].
  case_match; [|done]. by destruct (RegisterTarget _ _ _ _).
Qed.

Lemma sr_inv_RegisterEndpoint now ep r : sr_inv r → sr_inv (RegisterEndpoint now ep r).2.
Proof.
  intros [H1 H2 H3 H4]. destruct (RegisterEndpoint_maps now ep r) as (Eh & En & Ee & Ew & Ep).
  pose proof (stamped_ids now ep) as [= I1 I2 I3].
  assert (∀ l ep', sr_heap r !! l = Some ep' →
    <[sr_next r := stamped now ep]> (sr_heap r) !! l = Some ep') as Hold.
  { intros l ep' Hl. rewrite lookup_insert_ne; [done|]. intros <-.
    by rewrite (H1 (sr_next r)) in Hl by lia. }
  split; rewrite ?Eh, ?En, ?Ee, ?Ew, ?Ep.
  - intros l Hl. rewrite lookup_insert_ne by lia. apply H1. lia.
  - intros i l. rewrite lookup_insert. case_decide as Hi.
    + intros [= <-]. exists (stamped now ep). rewrite lookup_insert_eq, !idx_get_put.
      rewrite !decide_True by (split; congruence). split_and!; congruence.
    + intros (ep' & E & Hid & Hw & Hp)%H2. exists ep'. rewrite !idx_get_put.
      rewrite !decide_False by naive_solver. auto.
  - intros w i l. rewrite idx_get_put. case_decide as Hd.
    + intros [= <-]. exists (stamped now ep). rewrite lookup_insert_eq. split_and!; naive_solver congruence.
    + intros (ep' & E & Hid & Hw)%H3. exists ep'. auto.
  - intros p i l. rewrite idx_get_put. case_decide as Hd.
    + intros [= <-]. exists (stamped now ep). rewrite lookup_insert_eq. split_and!; naive_solver congruence.
    + intros (ep' & E & Hid & Hp)%H4. exists ep'. auto.
Qed.

Lemma sr_inv_UnregisterEndpoint i r : sr_inv r → sr_inv (UnregisterEndpoint i r).
Proof.
  intros [H1 H2 H3 H4]. unfold UnregisterEndpoint.
  destruct (find_endpoint i r) as [[l ep]|] eqn:E; [|done]. split; cbn; [done|..].
  - intros i' l' (Hne & Hl)%lookup_delete_Some. destruct (H2 _ _ Hl) as (ep' & ? & <- & Hw & Hp).
    exists ep'. rewrite !idx_get_del, !decide_False by naive_solver. done.
  - intros w i' l'. rewrite idx_get_del. case_decide; [done|]. apply H3.
  - intros w i' l'. rewrite idx_get_del. case_decide; [done|]. apply H4.
Qed.

Lemma same_shape_SetEndpointHealth now i h r : same_shape r (SetEndpointHealth now i h r).2.
Proof.
  unfold SetEndpointHealth. destruct (find_endpoint i r) as [[l ep]|] eqn:E; [|done].
  unfold find_endpoint in E. apply bind_Some in E as (l' & El & E).
  apply fmap_Some in E as (ep' & Eh & [= -> ->]).
  cbn zeta. cbn [snd].
  assert (∀ f, same_shape r (with_router f (r <| sr_heap ::= <[l' := ep'
    <| ep_Status := if h then EndpointHealthy else EndpointUnhealthy |> <| ep_UpdatedAt := now |>]> |>)))
    as Hf by (intros f; by eapply same_shape_write).
  repeat case_match; try apply Hf.
  all: specialize (Hf id); split; [apply Hf..|]; exact (ss_heap _ _ Hf).
Qed.

Lemma same_shape_Evict o clock w r : same_shape r (EvictWorkerEndpoints o clock w r).2.
Proof.
  unfold EvictWorkerEndpoints. case_match; [|done]. cbn [snd].
  generalize (map_pairs o g) as ps. intros ps. clear H. revert r.
  induction ps as [|p ps IH]; intros r; [done|]. cbn.
  etransitivity; [apply evict_one_shape|apply IH].
Qed.

(** One call on the service registry. *)
Inductive sr_step : ServiceRegistry → ServiceRegistry → Prop :=
| step_RegisterEndpoint now ep r : sr_step r (RegisterEndpoint now ep r).2
| step_UnregisterEndpoint i r : sr_step r (UnregisterEndpoint i r)
| step_SetEndpointHealth now i h r : sr_step r (SetEndpointHealth now i h r).2
| step_EvictWorkerEndpoints o clock w r : sr_step r (EvictWorkerEndpoints o clock w r).2
| step_sr_router f r : sr_step r (with_router f r).

Inductive sr_reachable : ServiceRegistry → Prop :=
| sr_reach_new router : sr_reachable (NewServiceRegistry router)
| sr_reach_step r r' : sr_reachable r → sr_step r r' → sr_reachable r'.

Lemma sr_reachable_inv r : sr_reachable r → sr_inv r.
Proof.
  induction 1 as [router|r r' _ IH Hs].
  { split; cbn; try done; intros; by unfold idx_get in *. }
  destruct Hs; eauto using sr_inv_RegisterEndpoint, sr_inv_UnregisterEndpoint,
    sr_inv_shape, same_shape_SetEndpointHealth, same_shape_Evict.
  eapply sr_inv_shape; [|done]. by split.
Qed.

Lemma elem_of_GetAllEndpoints o r ep :
  ep ∈ GetAllEndpoints o r ↔ ∃ i l, sr_endpoints r !! i = Some l ∧ sr_heap r !! l = Some ep.
Proof.
  unfold GetAllEndpoints. rewrite list_elem_of_omap. setoid_rewrite elem_of_map_values. naive_solver.
Qed.

(** What an eviction promises to its callers. *)
Lemma Evict_spec (r : ServiceRegistry) (o o' : Order) (clock : string → Time)
    (w : string) :
  sr_inv r →
  let r' := (EvictWorkerEndpoints o clock w r).2 in
  (∀ ep, ep ∈ GetAllEndpoints o' r' → ep_WorkerID ep = w →
     ep_Status ep = EndpointUnhealthy ∧ unrouted (ep_ProjectID ep) (ep_InstanceID ep) r')
  ∧ (∀ ep, ep_WorkerID ep ≠ w → ep ∈ GetAllEndpoints o' r' ↔ ep ∈ GetAllEndpoints o' r).
Proof.
  intros Hinv r'. pose proof (same_shape_Evict o clock w r) as Hs. fold r' in Hs.
  split.
  - intros ep (i & l & Hl & Hh)%elem_of_GetAllEndpoints Hw.
    destruct (sr_live r' (sr_inv_shape _ _ Hs Hinv) i l Hl) as (ep1 & Hh' & Hi & Hbw & _).
    simplify_eq. rewrite (ss_byWorker _ _ Hs) in Hbw.
    destruct (sr_worker r Hinv _ _ _ Hbw) as (ep0 & Hh0 & Hi0 & Hw0).
    unfold idx_get in Hbw. apply bind_Some in Hbw as (inner & Hin & Hil).
    subst r'. unfold EvictWorkerEndpoints in Hh, Hs |- *. rewrite Hin in Hh, Hs |- *.
    cbn [snd] in Hh, Hs |- *.
    destruct (evict_fold clock (map_pairs o inner) r l ep0 Hh0) as (_ & _ & He).
    destruct He as ((ep2 & E2 & Hu) & Hr).
    { apply list_elem_of_fmap. exists (ep_InstanceID ep, l). split; [done|]. by apply elem_of_map_pairs. }
    destruct (ss_ids _ _ _ _ Hs Hh0) as (ep3 & E3 & [= I1 I2 I3]). simplify_eq. by rewrite I1, I3.
  - intros ep Hw. rewrite !elem_of_GetAllEndpoints, (ss_endpoints _ _ Hs).
    enough (∀ i l, sr_endpoints r !! i = Some l → sr_heap r' !! l = Some ep ↔ sr_heap r !! l = Some ep)
      by naive_solver.
    intros i l Hl. destruct (sr_live r Hinv i l Hl) as (ep0 & Hh0 & Hi0 & Hbw & _).
    subst r'. unfold EvictWorkerEndpoints in Hs |- *. destruct (sr_byWorker r !! w) as [inner|] eqn:Hin; [|done].
    cbn [snd] in Hs |- *.
    destruct (evict_fold clock (map_pairs o inner) r l ep0 Hh0) as (_ & Hout & _).
    destruct (decide (l ∈ (map_pairs o inner).*2)) as [Hm|Hm]; [|by rewrite (Hout Hm), Hh0].
    apply list_elem_of_fmap in Hm as ([i' l'] & -> & Hm%elem_of_map_pairs).
    destruct (sr_worker r Hinv w i' l') as (ep1 & Hh1 & _ & Hw1).
    { unfold idx_get. by rewrite Hin. }
    cbn [snd] in *. destruct (ss_ids _ _ _ _ Hs Hh1) as (ep2 & E2 & [= _ I2 _]).
    split; intros; simplify_eq; congruence.
Qed.

(** After EvictWorkerEndpoints every endpoint of the worker is UNHEALTHY and has
    no target in the router, and the endpoints of other workers are unchanged. *)
Theorem evict_unroutes_worker (r : ServiceRegistry) (o o' : Order) (clock : string → Time)
    (w : string) :
  sr_reachable r →
  let r' := (EvictWorkerEndpoints o clock w r).2 in
  (∀ ep, ep ∈ GetAllEndpoints o' r' → ep_WorkerID ep = w →
     ep_Status ep = EndpointUnhealthy ∧ unrouted (ep_ProjectID ep) (ep_InstanceID ep) r')
  ∧ (∀ ep, ep_WorkerID ep ≠ w → ep ∈ GetAllEndpoints o' r' ↔ ep ∈ GetAllEndpoints o' r).
Proof. intros Hinv%sr_reachable_inv. by apply Evict_spec. Qed.

Lemma elem_of_GetHealthyEndpoints o p r ep :
  ep ∈ GetHealthyEndpoints o p r ↔
  ep_Status ep = EndpointHealthy
  ∧ ∃ i l, idx_get (sr_byProject r) p i = Some l ∧ sr_heap r !! l = Some ep.
Proof.
  unfold GetHealthyEndpoints, idx_get. rewrite list_elem_of_filter, list_elem_of_omap.
  setoid_rewrite elem_of_map_values. destruct (sr_byProject r !! p); cbn; [naive_solver|].
  setoid_rewrite lookup_empty. naive_solver.
Qed.

(** An eviction visits the stale entries of a worker's map too. *)
Lemma evict_stale r o o' clock w i l1 e1 l2 e2 :
  sr_inv r → idx_get (sr_byWorker r) w i = Some l1 → sr_heap r !! l1 = Some e1 →
  idx_get (sr_byProject r) (ep_ProjectID e2) i = Some l2 → sr_heap r !! l2 = Some e2 →
  ep_WorkerID e2 ≠ w → ep_Status e2 = EndpointHealthy →
  let r' := (EvictWorkerEndpoints o clock w r).2 in
  e2 ∈ GetHealthyEndpoints o' (ep_ProjectID e2) r' ∧ unrouted (ep_ProjectID e1) (ep_InstanceID e1) r'.
Proof.
  intros Hinv Hw1 Hh1 Hp2 Hh2 Hne Hst r'.
  pose proof (same_shape_Evict o clock w r) as Hs. fold r' in Hs.
  unfold idx_get in Hw1. apply bind_Some in Hw1 as (inner & Hin & Hil).
  subst r'. unfold EvictWorkerEndpoints in Hs |- *. rewrite Hin in Hs |- *. cbn [snd] in Hs |- *.
  split.
  - destruct (evict_fold clock (map_pairs o inner) r _ _ Hh2) as (_ & Hout & _).
    apply elem_of_GetHealthyEndpoints. split; [done|]. exists i, l2.
    rewrite (ss_byProject _ _ Hs). split; [done|]. apply Hout.
    intros ([i' l] & El & Hm%elem_of_map_pairs)%list_elem_of_fmap. cbn in El. subst l.
    destruct (sr_worker r Hinv w i' l2) as (ep1 & Hh & _ & Hw); [unfold idx_get; by rewrite Hin|].
    congruence.
  - destruct (evict_fold clock (map_pairs o inner) r _ _ Hh1) as (_ & _ & He). apply He.
    apply list_elem_of_fmap. exists (i, l1). split; [done|]. by apply elem_of_map_pairs.
Qed.

(** When an instance's endpoint is registered again on another worker, the
    eviction of the worker it left removes its route, although the endpoint
    itself stays HEALTHY. *)
Theorem evict_hits_moved_endpoint (r : ServiceRegistry) (o o' : Order) (clock : string → Time)
    (t1 t2 : Time) (ep : Endpoint) (wb : string) :
  sr_reachable r → ep_Status ep = EndpointHealthy → ep_WorkerID ep ≠ wb →
  let moved := ep <| ep_WorkerID := wb |> in
  let r2 := (RegisterEndpoint t2 moved (RegisterEndpoint t1 ep r).2).2 in
  let r' := (EvictWorkerEndpoints o clock (ep_WorkerID ep) r2).2 in
  stamped t2 moved ∈ GetHealthyEndpoints o' (ep_ProjectID ep) r'
  ∧ unrouted (ep_ProjectID ep) (ep_InstanceID ep) r'.
Proof.
  intros Hinv%sr_reachable_inv Hst Hne moved.
  destruct (RegisterEndpoint_maps t1 ep r) as (Eh1 & En1 & Ee1 & Ew1 & Ep1).
  pose proof (sr_inv_RegisterEndpoint t1 ep r Hinv) as Hinv1.
  destruct (RegisterEndpoint t1 ep r) as [err1 r1]. cbn [snd] in *.
  destruct (RegisterEndpoint_maps t2 moved r1) as (Eh2 & En2 & Ee2 & Ew2 & Ep2).
  pose proof (sr_inv_RegisterEndpoint t2 moved r1 Hinv1) as Hinv2.
  destruct (RegisterEndpoint t2 moved r1) as [err2 r2]. cbn [snd] in *.
  pose proof (stamped_ids t1 ep) as [= I1 _ I3]. pose proof (stamped_ids t2 moved) as [= J1 J2 J3].
  destruct (evict_stale r2 o o' clock (ep_WorkerID ep) (ep_InstanceID ep) (sr_next r) (stamped t1 ep)
    (sr_next r1) (stamped t2 moved)) as [H1 H2].
  - done.
  - rewrite Ew2, idx_get_put, decide_False by naive_solver.
    by rewrite Ew1, idx_get_put, decide_True.
  - rewrite Eh2, lookup_insert_ne by lia. by rewrite Eh1, lookup_insert_eq.
  - rewrite Ep2, idx_get_put, decide_True; [done|by split].
  - by rewrite Eh2, lookup_insert_eq.
  - rewrite J2. cbn. congruence.
  - unfold stamped. by case_match.
  - rewrite J3 in H1. rewrite I1, I3 in H2. done.
Qed.

End discovery_steps.

(** ** A concrete registry of endpoints *)

#[local] Existing Instance demo_url.

Definition demo_endpoint : Endpoint :=
  mkEndpoint "s1" "d1" "shop" "w1" "10.0.0.1:81" EndpointHealthy 0.

Definition demo_services : ServiceRegistry :=
  (RegisterEndpoint 5 demo_endpoint (NewServiceRegistry (Some NewRouter))).2.

Lemma demo_services_reachable : sr_reachable demo_services.
Proof. eapply sr_reach_step; [apply sr_reach_new|apply step_RegisterEndpoint]. Qed.

Definition demo_after_eviction : ServiceRegistry :=
  (EvictWorkerEndpoints order_id (λ _, 9) "w1" demo_services).2.

Lemma evict_unroutes_worker_witness :
  demo_endpoint <| ep_Status := EndpointUnhealthy |> <| ep_UpdatedAt := 9 |>
    ∈ GetAllEndpoints order_id demo_after_eviction
  ∧ unrouted "shop" "s1" demo_after_eviction.
Proof.
  assert (demo_endpoint <| ep_Status := EndpointUnhealthy |> <| ep_UpdatedAt := 9 |>
    ∈ GetAllEndpoints order_id demo_after_eviction) as H by (vm_compute; left).
  split; [exact H|].
  exact (proj2 (proj1 (evict_unroutes_worker demo_services order_id order_id (λ _, 9) "w1" demo_services_reachable)
    _ H eq_refl)).
Defined.

Definition demo_moved : ServiceRegistry :=
  (RegisterEndpoint 7 (demo_endpoint <| ep_WorkerID := "w2" |>) (RegisterEndpoint 6 demo_endpoint demo_services).2).2.

Lemma evict_hits_moved_endpoint_witness :
  stamped 7 (demo_endpoint <| ep_WorkerID := "w2" |>)
    ∈ GetHealthyEndpoints order_id "shop" (EvictWorkerEndpoints order_id (λ _, 9) "w1" demo_moved).2
  ∧ unrouted "shop" "s1" (EvictWorkerEndpoints order_id (λ _, 9) "w1" demo_moved).2.
Proof.
  refine (evict_hits_moved_endpoint demo_services order_id order_id (λ _, 9) 6 7 demo_endpoint "w2"
    demo_services_reachable _ _); [reflexivity|discriminate].
Defined.
