(* ===== verification/Heartbeat.v ===== *)
(** * Heartbeat timeouts: internal/heartbeat/timeout_monitor.go

    A scan of the monitor: every worker of the registry is judged by the time
    since its last beat, and the endpoints of a worker that becomes UNHEALTHY
    are evicted from service discovery. The goroutine of [Start] repeats it, one
    selected case of its loop at a time. *)

From stdpp Require Import base option gmap strings list pretty.
From Stdlib Require Import ZArith Lia.
From S2P Require Import Prelude GoLib GoFloat PtrStore Workers LoadBalancer Discovery.

Record HealthTransition := mkTransition {
  ht_WorkerID : string;
  ht_WorkerKey : string;
  ht_OldHealth : WorkerHealth;
  ht_NewHealth : WorkerHealth;
  ht_MissedBeats : Z;
  ht_Timestamp : Time
}.

Record TimeoutMonitor (WR : Type) := mkMonitor {
  tm_registry : Registry WR;
  tm_serviceRegistry : option ServiceRegistry;
  tm_cfg : HealthStateMachineConfig
}.
Arguments mkMonitor {WR} _ _ _.
Arguments tm_registry {WR} _.
Arguments tm_serviceRegistry {WR} _.
Arguments tm_cfg {WR} _.

#[export] Instance TimeoutMonitor_eta WR : Settable (TimeoutMonitor WR) := λ m,
  mkMonitor (tm_registry m) (tm_serviceRegistry m) (tm_cfg m).

(** The clocks and the map orders read during a scan, per worker key. *)
Record ScanEnv := {
  se_now : string → Time;
  se_repo_now : string → Time;
  se_clock : string → string → Time;
  se_order : string → Order
}.

Section monitor.
Context {WR : Type} `{!WorkerRepository WR}.

Definition NewTimeoutMonitor (registry : Registry WR) (sr : option ServiceRegistry)
    (cfg : HealthStateMachineConfig) : TimeoutMonitor WR := mkMonitor registry sr cfg.

Definition SetConfig (cfg : HealthStateMachineConfig) (m : TimeoutMonitor WR) : TimeoutMonitor WR :=
  m <| tm_cfg := cfg |>.

(** The two evictions, under the worker's ID and under its key. *)
Definition evict_worker (env : ScanEnv) (w : Worker) (sr : ServiceRegistry) : ServiceRegistry :=
  let k := w_WorkerKey w in
  (EvictWorkerEndpoints (se_order env k) (se_clock env k) k
    (EvictWorkerEndpoints (se_order env k) (se_clock env k) (w_ID w) sr).2).2.

Definition health_reason (missed : Z) (elapsed : Duration) : string :=
  "missed " +:+ Itoa missed +:+ " heartbeats (elapsed: " +:+ Duration_String elapsed +:+ ")".

(** One turn of the loop over the snapshot of the workers. *)
Definition check_worker (env : ScanEnv) (now : Time)
    (acc : TimeoutMonitor WR * list HealthTransition) (w : Worker) :
    TimeoutMonitor WR * list HealthTransition :=
  let '(m, transitions) := acc in
  if w_IsPartitioned w || bool_decide (w_Health w = HealthUnreachable) then acc
  else match w_LastBeatAt w with
  | None => acc
  | Some beat =>
    let elapsed := now - beat in
    let '(newHealth, missed) := EvaluateHealthTransition (w_Health w) elapsed (tm_cfg m) in
    if decide (newHealth = w_Health w) then acc
    else
      let reason := health_reason missed elapsed in
      let m := m <| tm_registry ::= λ r,
        (SetHealthWithReason (se_now env (w_WorkerKey w)) (se_repo_now env (w_WorkerKey w))
          (w_WorkerKey w) newHealth reason r).2 |> in
      let m :=
        if decide (newHealth = HealthUnhealthy)
        then m <| tm_serviceRegistry ::= fmap (evict_worker env w) |>
        else m in
      (m, transitions ++
        [mkTransition (w_ID w) (w_WorkerKey w) (w_Health w) newHealth missed now])
  end.

Definition CheckWorkers (o : Order) (env : ScanEnv) (now : Time) (m : TimeoutMonitor WR) :
    TimeoutMonitor WR * list HealthTransition :=
  fold_left (check_worker env now) (List o (tm_registry m)) (m, []).

(** ** The goroutine of [Start] *)

(** The period of the ticker, read once. *)
Definition check_interval (cfg : HealthStateMachineConfig) : Duration :=
  let checkInterval := Z.quot (HeartbeatInterval cfg) 2 in
  if checkInterval <? 10 * Millisecond then 100 * Millisecond else checkInterval.

(** A tick carries its time. *)
Definition monitor_tick (t : Order * ScanEnv * Time) (m : TimeoutMonitor WR) : bool * TimeoutMonitor WR :=
  (true, (CheckWorkers t.1.1 t.1.2 t.2 m).1).

Definition Monitor_Start (m : TimeoutMonitor WR) : Loop (TimeoutMonitor WR) := go_loop m.

Definition Monitor_Stop (l : Loop (TimeoutMonitor WR)) : Loop (TimeoutMonitor WR) := loop_stop l.

(** ** What a scan does to one worker *)

(** The health a scan at [now] gives to a worker. *)
Definition judged (cfg : HealthStateMachineConfig) (now : Time) (w : Worker) : WorkerHealth :=
  if w_IsPartitioned w || bool_decide (w_Health w = HealthUnreachable) then w_Health w
  else match w_LastBeatAt w with
       | None => w_Health w
       | Some beat => (EvaluateHealthTransition (w_Health w) (now - beat) cfg).1
       end.

(** What a scan changes of a worker's record is its health. *)
Record rejudged (h : WorkerHealth) (w w' : Worker) : Prop := {
  rj_health : w_Health w' = h;
  rj_beat : w_LastBeatAt w' = w_LastBeatAt w;
  rj_partitioned : w_IsPartitioned w' = w_IsPartitioned w;
  rj_key : w_WorkerKey w' = w_WorkerKey w
}.

Lemma rejudged_refl w : rejudged (w_Health w) w w.
Proof. by split. Qed.

Lemma rejudged_trans h w w1 w2 : rejudged h w w1 → rejudged (w_Health w1) w1 w2 → rejudged h w w2.
Proof. intros [] []. split; congruence. Qed.

(** No endpoint of the worker is healthy or routed. *)
Definition evicted (sr : ServiceRegistry) (wid : string) : Prop :=
  ∀ ep, ep ∈ GetAllEndpoints order_id sr → ep_WorkerID ep = wid →
    ep_Status ep = EndpointUnhealthy ∧ unrouted (ep_ProjectID ep) (ep_InstanceID ep) sr.

Context `{!WorkerRepositoryLaws WR}.

Lemma SetHealthWithReason_pri (r : Registry WR) now now' k h reason w k' :
  reg_inv (rg_store r) → get_pri k (rg_store r) = Some w →
  ∃ w', rejudged h w w' ∧ get_pri k' (rg_store (SetHealthWithReason now now' k h reason r).2) =
    if decide (k = k') then Some w' else get_pri k' (rg_store r).
Proof.
  intros H Hw. destruct (findWorkerLocked_key r k w Hw) as [l Hf].
  destruct (get_pri_cell _ _ _ Hw) as (l' & Hl' & Hh').
  assert (l' = l) as ->.
  { unfold findWorkerLocked in Hf. rewrite Hl', Hh' in Hf. cbn in Hf. congruence. }
  unfold SetHealthWithReason. rewrite Hf. cbv zeta.
  match goal with |- context [wr_Upsert now' ?v ?repo] =>
    pose proof (upsert_frame now' v repo) as Hu; cbv zeta in Hu;
    destruct (wr_Upsert now' v repo) as [[err w'] repo'] end.
  cbn in Hu |- *. exists w'. split.
  - rewrite Hu. by split; cbn; case_decide.
  - by apply get_pri_write; [apply (ri_wf _ H)|].
Qed.

(** The registry after a turn: the judged worker has its new health, the
    others keep their records. *)
Lemma check_worker_pri env now m ts w k' :
  reg_inv (rg_store (tm_registry m)) →
  get_pri (w_WorkerKey w) (rg_store (tm_registry m)) = Some w →
  let m' := (check_worker env now (m, ts) w).1 in
  reg_inv (rg_store (tm_registry m')) ∧ tm_cfg m' = tm_cfg m
  ∧ ∃ w', rejudged (judged (tm_cfg m) now w) w w'
      ∧ get_pri k' (rg_store (tm_registry m')) =
          if decide (w_WorkerKey w = k') then Some w' else get_pri k' (rg_store (tm_registry m)).
Proof.
  intros H Hw. unfold check_worker, judged.
  assert (∃ w', rejudged (w_Health w) w w' ∧ get_pri k' (rg_store (tm_registry m)) =
    if decide (w_WorkerKey w = k') then Some w' else get_pri k' (rg_store (tm_registry m))) as Hsame.
  { exists w. split; [apply rejudged_refl|]. case_decide; [by subst|done]. }
  cbv zeta. destruct (w_IsPartitioned w || _); [cbn; auto|]. destruct (w_LastBeatAt w) as [beat|]; [|cbn; auto].
  destruct (EvaluateHealthTransition _ _ _) as [h missed] eqn:Ee. cbn [fst].
  destruct (decide (h = w_Health w)) as [Hh|Hh]; [cbn; rewrite Hh; auto|].
  pose proof (reg_inv_SetHealthWithReason (tm_registry m) (se_now env (w_WorkerKey w))
    (se_repo_now env (w_WorkerKey w)) (w_WorkerKey w) h
    (health_reason missed (now - beat)) H) as Hinv.
  pose proof (SetHealthWithReason_pri (tm_registry m) (se_now env (w_WorkerKey w))
    (se_repo_now env (w_WorkerKey w)) (w_WorkerKey w) h
    (health_reason missed (now - beat)) w k' H Hw) as Hpri.
  destruct (decide (h = HealthUnhealthy)); (split_and!; [exact Hinv|reflexivity|exact Hpri]).
Qed.

Lemma check_workers_pri env now l m ts k w :
  reg_inv (rg_store (tm_registry m)) → NoDup (w_WorkerKey <$> l) →
  (∀ v, v ∈ l → get_pri (w_WorkerKey v) (rg_store (tm_registry m)) = Some v) →
  get_pri k (rg_store (tm_registry m)) = Some w → w_WorkerKey w = k →
  let m' := (fold_left (check_worker env now) l (m, ts)).1 in
  ∃ w', get_pri k (rg_store (tm_registry m')) = Some w'
    ∧ rejudged (if decide (w ∈ l) then judged (tm_cfg m) now w else w_Health w) w w'.
Proof.
  revert m ts w. induction l as [|v l IH]; intros m ts w H Hnd Hl Hk Hkey m'.
  { exists w. rewrite decide_False by set_solver. split; [done|apply rejudged_refl]. }
  rewrite fmap_cons, NoDup_cons in Hnd. destruct Hnd as [Hnv Hnd].
  pose proof (Hl v ltac:(left)) as Hv. subst m'. cbn [fold_left].
  destruct (check_worker env now (m, ts) v) as [m1 ts1] eqn:E1.
  assert (∀ k', reg_inv (rg_store (tm_registry m1)) ∧ tm_cfg m1 = tm_cfg m
    ∧ ∃ w', rejudged (judged (tm_cfg m) now v) v w' ∧ get_pri k' (rg_store (tm_registry m1)) =
      if decide (w_WorkerKey v = k') then Some w' else get_pri k' (rg_store (tm_registry m))) as Hone.
  { intros k'. pose proof (check_worker_pri env now m ts v k' H Hv) as Ho. by rewrite E1 in Ho. }
  destruct (Hone k) as (H1 & Hc & w1 & Hw1 & Hg).
  assert (∀ u, u ∈ l → get_pri (w_WorkerKey u) (rg_store (tm_registry m1)) = Some u) as Hl1.
  { intros u Hu. destruct (Hone (w_WorkerKey u)) as (_ & _ & w2 & _ & ->).
    rewrite decide_False; [apply Hl; by right|]. intros E. apply Hnv. rewrite E.
    by apply (list_elem_of_fmap_2 w_WorkerKey). }
  destruct (decide (w_WorkerKey v = k)) as [Evk|Evk].
  - assert (v = w) as -> by congruence.
    assert (w1 ∉ l) as Hw1l.
    { intros Hin. pose proof (Hl1 w1 Hin) as E. apply Hnv. rewrite Hkey.
      assert (w_WorkerKey w1 = k) as <-; [|by apply (list_elem_of_fmap_2 w_WorkerKey)].
      destruct (get_pri_cell _ _ _ Hg) as (lo & Hp & Hh). by apply (ri_key _ H1 k lo). }
    destruct (IH m1 ts1 w1 H1 Hnd Hl1 Hg) as (w' & Hw' & Hh').
    { destruct (get_pri_cell _ _ _ Hg) as (lo & Hp & Hh). by apply (ri_key _ H1 k lo). }
    exists w'. split; [done|]. rewrite decide_False in Hh' by done. rewrite decide_True by left.
    by eapply rejudged_trans.
  - rewrite Hk in Hg. destruct (IH m1 ts1 w H1 Hnd Hl1 Hg Hkey) as (w' & Hw' & Hh').
    exists w'. split; [done|].
    assert (w ∈ v :: l ↔ w ∈ l) as Hiff by (rewrite elem_of_cons; naive_solver).
    by rewrite (decide_ext (w ∈ v :: l) (w ∈ l) _ _ Hiff), <- Hc.
Qed.

(** The workers of a registry are what the loop expects. *)
Lemma List_snapshot o (r : Registry WR) :
  reg_inv (rg_store r) →
  NoDup (w_WorkerKey <$> List o r)
  ∧ ∀ v, v ∈ List o r → get_pri (w_WorkerKey v) (rg_store r) = Some v.
Proof.
  intros H. split; [by apply List_NoDup|]. intros v [k Hk]%elem_of_List.
  destruct (get_pri_cell _ _ _ Hk) as (l & Hp & Hh). by rewrite (ri_key _ H _ _ _ Hp Hh).
Qed.

Lemma CheckWorkers_health o env now m w :
  reg_inv (rg_store (tm_registry m)) → w ∈ List o (tm_registry m) →
  ∃ w', Get (w_WorkerKey w) (tm_registry (CheckWorkers o env now m).1) = Some w'
    ∧ rejudged (judged (tm_cfg m) now w) w w'.
Proof.
  intros H Hw. destruct (List_snapshot o _ H) as [Hnd Hl].
  destruct (check_workers_pri env now (List o (tm_registry m)) m [] (w_WorkerKey w) w)
    as (w' & Hw' & Hh); auto.
  exists w'. rewrite decide_True in Hh by done. split; [by apply Get_key|done].
Qed.

Lemma evicted_Evict o clock w wid sr :
  sr_inv sr → evicted sr wid ∨ w = wid → evicted (EvictWorkerEndpoints o clock w sr).2 wid.
Proof.
  intros H He ep Hep Hw. destruct (Evict_spec sr o order_id clock w H) as [H1 H2].
  destruct (decide (w = wid)) as [->|Hne]; [by apply H1|]. destruct He as [He|]; [|done].
  rewrite H2 in Hep by congruence. destruct (He ep Hep Hw). split; [done|]. by apply unrouted_Evict.
Qed.

Lemma evict_worker_inv env w sr : sr_inv sr → sr_inv (evict_worker env w sr).
Proof.
  intros H. unfold evict_worker. eapply sr_inv_shape; [apply same_shape_Evict|].
  eapply sr_inv_shape; [apply same_shape_Evict|done].
Qed.

Lemma evicted_evict_worker env w wid sr :
  sr_inv sr → evicted sr wid ∨ w_ID w = wid ∨ w_WorkerKey w = wid →
  evicted (evict_worker env w sr) wid.
Proof.
  intros H He. unfold evict_worker. apply evicted_Evict.
  - eapply sr_inv_shape; [apply same_shape_Evict|done].
  - destruct He as [He|[He|He]]; [left|left|by right]; apply evicted_Evict; auto.
Qed.

(** The endpoints during the loop: what is evicted stays so. *)
Lemma check_workers_evict env now l m ts sr wid :
  tm_serviceRegistry m = Some sr → sr_inv sr →
  evicted sr wid ∨ (∃ w, w ∈ l ∧ (w_ID w = wid ∨ w_WorkerKey w = wid)
    ∧ judged (tm_cfg m) now w = HealthUnhealthy ∧ w_Health w ≠ HealthUnhealthy) →
  ∃ sr', tm_serviceRegistry (fold_left (check_worker env now) l (m, ts)).1 = Some sr' ∧ evicted sr' wid.
Proof.
  revert m ts sr. induction l as [|v l IH]; intros m ts sr Hm Hsr He.
  { exists sr. destruct He as [He|(w & Hw & _)]; [done|set_solver]. }
  cbn [fold_left].
  assert (∃ m1 ts1, check_worker env now (m, ts) v = (m1, ts1) ∧ tm_cfg m1 = tm_cfg m ∧
    (tm_serviceRegistry m1 = Some (evict_worker env v sr)
     ∨ tm_serviceRegistry m1 = Some sr ∧
       ¬ (judged (tm_cfg m) now v = HealthUnhealthy ∧ w_Health v ≠ HealthUnhealthy)))
    as (m1 & ts1 & -> & Hc & Hone).
  { unfold check_worker, judged. cbv zeta.
    destruct (w_IsPartitioned v || _); [eexists _, _; split_and!; [done..|right; naive_solver]|].
    destruct (w_LastBeatAt v); [|eexists _, _; split_and!; [done..|right; naive_solver]].
    destruct (EvaluateHealthTransition _ _ _) as [h missed]. cbn [fst].
    destruct (decide (h = w_Health v)); [eexists _, _; split_and!; [done..|right; naive_solver]|].
    destruct (decide (h = HealthUnhealthy)); eexists _, _; (split_and!; [done..|]);
      cbn; rewrite Hm; [by left|right; naive_solver]. }
  rewrite <- Hc in He. destruct Hone as [Hone|[Hone Hnot]].
  - apply (IH m1 ts1 (evict_worker env v sr)); [done|by apply evict_worker_inv|].
    destruct He as [He|(w & [->|Hw]%elem_of_cons & Hid & Hj)].
    + left. apply evicted_evict_worker; auto.
    + left. apply evicted_evict_worker; auto.
    + right. eauto.
  - apply (IH m1 ts1 sr); [done..|]. destruct He as [He|(w & [->|Hw]%elem_of_cons & Hid & Hj)];
      [by left|by rewrite Hc in Hj|right; eauto].
Qed.


Lemma HeartbeatAt_pri (r : Registry WR) now' k at_ w :
  reg_inv (rg_store r) → get_pri k (rg_store r) = Some w →
  ∃ w', get_pri k (rg_store (HeartbeatAt now' k at_ r).2) = Some w'
    ∧ w' = ApplyHeartbeatSuccess (rg_healthCfg r)
             (w <| w_LastBeatAt := Some at_ |> <| w_UpdatedAt := at_ |>).
Proof.
  intros H Hw. destruct (findWorkerLocked_key r k w Hw) as [l Hf].
  destruct (get_pri_cell _ _ _ Hw) as (l' & Hl' & Hh').
  assert (l' = l) as ->.
  { unfold findWorkerLocked in Hf. rewrite Hl', Hh' in Hf. cbn in Hf. congruence. }
  unfold HeartbeatAt. rewrite Hf. cbv zeta.
  destruct (wr_UpdateHeartbeat _ _ _ _) as [err repo].
  eexists. split; [|done].
  change (rg_store (None, (write_worker l ?w r) <| rg_repo := repo |>).2) with (st_write l w (rg_store r)).
  rewrite (get_pri_write _ k) by (done || apply (ri_wf _ H)). by rewrite decide_True.
Qed.

(** An UNHEALTHY worker that sends one beat, when more than one are required in
    a row, is still UNHEALTHY after the beat, and HEALTHY after the next scan. *)
Theorem one_beat_heals (o : Order) (env : ScanEnv) (r : Registry WR) (sr : option ServiceRegistry)
    (cfg : HealthStateMachineConfig) (w : Worker) (now' at_ now : Time) :
  reg_reachable r → w ∈ List o r → w_Health w = HealthUnhealthy → w_IsPartitioned w = false →
  1 < ConsecutiveBeatsToHeal (rg_healthCfg r) → w_ConsecutiveBeats w = 0 →
  0 < HeartbeatInterval cfg → 0 < SuspectedThreshold cfg → 0 < UnhealthyThreshold cfg →
  at_ ≤ now < at_ + HeartbeatInterval cfg →
  let r1 := (HeartbeatAt now' (w_WorkerKey w) at_ r).2 in
  let r2 := tm_registry (CheckWorkers o env now (NewTimeoutMonitor r1 sr cfg)).1 in
  w_Health <$> Get (w_WorkerKey w) r1 = Some HealthUnhealthy
  ∧ w_Health <$> Get (w_WorkerKey w) r2 = Some HealthHealthy.
Proof.
  intros H%reg_reachable_inv Hw Hh Hp Hb Hz Hi Hs Hu Hnow r1 r2.
  destruct (List_snapshot o _ H) as [_ Hl].
  destruct (HeartbeatAt_pri r now' (w_WorkerKey w) at_ w H (Hl _ Hw)) as (w' & Hw' & E).
  fold r1 in Hw'. rewrite (Get_key _ _ _ Hw').
  assert (w_Health w' = HealthUnhealthy ∧ w_IsPartitioned w' = false ∧ w_LastBeatAt w' = Some at_
    ∧ w_WorkerKey w' = w_WorkerKey w) as (E1 & E2 & E3 & E4).
  { rewrite E. unfold ApplyHeartbeatSuccess. cbn. rewrite Hh, Hz.
    destruct (Z.leb_spec (ConsecutiveBeatsToHeal (rg_healthCfg r)) (Z.succ 0)); [lia|]. cbn. auto. }
  split; [cbn; by rewrite E1|].
  assert (reg_inv (rg_store r1)) as H1 by by apply reg_inv_HeartbeatAt.
  destruct (CheckWorkers_health o env now (NewTimeoutMonitor r1 sr cfg) w') as (w'' & Hw'' & Hj%rj_health).
  { done. }
  { cbn. apply elem_of_List. eauto. }
  rewrite E4 in Hw''. cbn [tm_cfg] in Hj. subst r2. rewrite Hw''. cbn. rewrite Hj. f_equal.
  unfold judged. rewrite E1, E2, E3. cbn. unfold EvaluateHealthTransition.
  destruct (Z.leb_spec (HeartbeatInterval cfg) 0); [lia|].
  rewrite Z.quot_small by lia.
  destruct (Z.leb_spec (UnhealthyThreshold cfg) 0); [lia|].
  by destruct (Z.leb_spec (SuspectedThreshold cfg) 0); [lia|].
Qed.

(** ** The time to detect a silent worker *)

(** The first [n] ticks of the goroutine. *)
Definition scans (o : Time → Order) (env : Time → ScanEnv) (start : Time) (p : Duration) (n : nat) :
    list (LoopCase (Order * ScanEnv * Time)) :=
  (λ t, LoopTick (o t, env t, t)) <$> ticker start p n.

(** The period is positive, as [time.NewTicker] demands, and two ticks fit in an
    interval of heartbeats of at least 200 ms. *)
Lemma check_interval_bounds cfg :
  10 * Millisecond ≤ check_interval cfg
  ∧ check_interval cfg ≤ Z.max (100 * Millisecond) (Z.quot (HeartbeatInterval cfg) 2).
Proof.
  unfold check_interval. destruct (Z.ltb_spec (Z.quot (HeartbeatInterval cfg) 2) (10 * Millisecond));
    unfold Millisecond in *; lia.
Qed.

Lemma reg_inv_CheckWorkers o env now m :
  reg_inv (rg_store (tm_registry m)) →
  reg_inv (rg_store (tm_registry (CheckWorkers o env now m).1)) ∧ tm_cfg (CheckWorkers o env now m).1 = tm_cfg m.
Proof.
  intros H. destruct (List_snapshot o _ H) as [Hnd Hl]. unfold CheckWorkers.
  revert Hnd Hl H. generalize (List o (tm_registry m)) as l, (@nil HealthTransition) as ts. intros l.
  revert m. induction l as [|v l IH]; intros m ts Hnd Hl H; [done|].
  rewrite fmap_cons, NoDup_cons in Hnd. destruct Hnd as [Hnv Hnd]. pose proof (Hl v ltac:(left)) as Hv.
  pose proof (λ k', check_worker_pri env now m ts v k' H Hv) as Hone. cbv zeta in Hone. cbn [fold_left].
  destruct (check_worker env now (m, ts) v) as [m1 ts1]. cbn [fst] in Hone.
  destruct (Hone "") as (H1 & Hc & _). rewrite <- Hc. apply IH; [done| |done].
  intros u Hu. destruct (Hone (w_WorkerKey u)) as (_ & _ & w2 & _ & ->).
  rewrite decide_False; [apply Hl; by right|]. intros E. apply Hnv. rewrite E.
  by apply (list_elem_of_fmap_2 w_WorkerKey).
Qed.

(** What a run of ticks keeps of a worker that sends no beat. *)
Record silent (key : string) (beat : Time) (cfg : HealthStateMachineConfig) (l : Loop (TimeoutMonitor WR)) : Prop := {
  si_inv : reg_inv (rg_store (tm_registry (lp_state l)));
  si_running : lp_running l = true;
  si_cfg : tm_cfg (lp_state l) = cfg;
  si_worker : ∃ w, get_pri key (rg_store (tm_registry (lp_state l))) = Some w ∧ w_WorkerKey w = key
    ∧ w_LastBeatAt w = Some beat ∧ w_IsPartitioned w = false ∧ w_Health w ≠ HealthUnreachable
}.

Lemma evaluate_reachable h elapsed cfg : (EvaluateHealthTransition h elapsed cfg).1 ≠ HealthUnreachable.
Proof. unfold EvaluateHealthTransition. by repeat case_match. Qed.

Lemma tick_silent key beat cfg l o env t :
  silent key beat cfg l →
  let l' := loop_turn monitor_tick l (LoopTick (o, env, t)) in
  silent key beat cfg l'
  ∧ ∃ h, w_Health <$> Get key (tm_registry (lp_state l'))
         = Some (EvaluateHealthTransition h (t - beat) cfg).1.
Proof.
  destruct l as [m done_ stopped on]. intros [Hinv Hrun Hcfg (w & Hw & Hk & Hb & Hp & Hh)]. cbn in *.
  unfold loop_turn. rewrite Hrun. cbn.
  destruct (reg_inv_CheckWorkers o env t _ Hinv) as [Hinv' Hcfg'].
  destruct (List_snapshot o _ Hinv) as [Hnd Hl].
  assert (w ∈ List o (tm_registry m)) as Hin by (apply elem_of_List; eauto).
  destruct (check_workers_pri env t (List o (tm_registry m)) m [] key w) as (w' & Hw' & Hj); auto.
  fold (CheckWorkers o env t m) in Hw'.
  rewrite decide_True in Hj by done. unfold judged in Hj. rewrite Hp, bool_decide_false, Hb, Hcfg in Hj by done.
  cbn in Hj. split; [|exists (w_Health w); by rewrite (Get_key _ _ _ Hw'), <- (rj_health _ _ _ Hj)].
  split; cbn; [done|done|congruence|]. exists w'. destruct Hj as [Eh Eb Ep Ek].
  split_and!; [done|congruence..|]. rewrite Eh. apply evaluate_reachable.
Qed.

Lemma scans_S o env start p n l :
  loop_run monitor_tick (scans o env start p (S n)) l
  = loop_turn monitor_tick (loop_run monitor_tick (scans o env start p n) l)
      (LoopTick (o (start + Z.of_nat (S n) * p), env (start + Z.of_nat (S n) * p), start + Z.of_nat (S n) * p)).
Proof. unfold scans, loop_run. by rewrite ticker_S, fmap_app, fold_left_app. Qed.

Lemma scans_silent key beat cfg l o env start p n :
  silent key beat cfg l → silent key beat cfg (loop_run monitor_tick (scans o env start p n) l).
Proof. intros H. induction n as [|n IH]; [done|]. rewrite scans_S. by apply tick_silent. Qed.

(** C14: A worker that stops sending beats is UNHEALTHY after the first tick of
    the monitor at which the threshold of missed beats has passed, and after
    every later one, and the goroutine still runs; with the period that Start
    takes from the configuration it comes to such a tick within one period of
    the deadline, or of its start. *)
Theorem silent_worker_detected (m : TimeoutMonitor WR) (o : Time → Order) (env : Time → ScanEnv) (w : Worker)
    (beat start : Time) :
  reg_reachable (tm_registry m) → w ∈ List order_id (tm_registry m) →
  w_LastBeatAt w = Some beat → w_IsPartitioned w = false → w_Health w ≠ HealthUnreachable →
  0 < HeartbeatInterval (tm_cfg m) → 0 ≤ UnhealthyThreshold (tm_cfg m) →
  let p := check_interval (tm_cfg m) in
  let deadline := beat + UnhealthyThreshold (tm_cfg m) * HeartbeatInterval (tm_cfg m) in
  let after n := loop_run monitor_tick (scans o env start p n) (Monitor_Start m) in
  (∀ n, (0 < n)%nat → deadline ≤ start + Z.of_nat n * p →
     lp_running (after n) = true
     ∧ w_Health <$> Get (w_WorkerKey w) (tm_registry (lp_state (after n))) = Some HealthUnhealthy)
  ∧ ∃ n, (0 < n)%nat ∧ deadline ≤ start + Z.of_nat n * p ≤ Z.max start deadline + p.
Proof.
  intros H%reg_reachable_inv Hw Hb Hp Hh Hi Ht p deadline after. destruct (List_snapshot order_id _ H) as [_ Hl].
  assert (silent (w_WorkerKey w) beat (tm_cfg m) (Monitor_Start m)) as Hs by (split; [done..|]; exists w; auto).
  destruct (check_interval_bounds (tm_cfg m)) as [Hp1 _]. fold p in Hp1. unfold Millisecond in Hp1.
  split; [|apply ticker_reaches; lia].
  intros [|n] Hn Hd; [lia|]. subst after. cbv beta. rewrite scans_S. set (t := start + Z.of_nat (S n) * p) in *.
  destruct (tick_silent _ _ _ _ (o t) (env t) t (scans_silent _ _ _ _ o env start p n Hs)) as [Hs' [h ->]].
  split; [apply Hs'|]. f_equal. unfold EvaluateHealthTransition.
  destruct (Z.leb_spec (HeartbeatInterval (tm_cfg m)) 0); [lia|].
  destruct (Z.leb_spec (UnhealthyThreshold (tm_cfg m)) (Z.quot (t - beat) (HeartbeatInterval (tm_cfg m)))) as [|Hlt]; [done|].
  exfalso. apply (Z.lt_irrefl (UnhealthyThreshold (tm_cfg m))). eapply Z.le_lt_trans; [|exact Hlt].
  apply Z.quot_le_lower_bound; subst deadline; lia.
Qed.

End monitor.

(** ** A concrete scan *)

Definition demo_env : ScanEnv := {|
  se_now := λ _, 20; se_repo_now := λ _, 20; se_clock := λ _ _, 20; se_order := λ _, order_id
|}.

Definition demo_monitor : TimeoutMonitor MemoryWorkerRepository :=
  NewTimeoutMonitor demo_registry (Some demo_services) DefaultHealthConfig.


Definition sick_registry : Registry MemoryWorkerRepository :=
  (SetHealthWithReason 11 11 "worker-1" HealthUnhealthy "" demo_registry).2.

Lemma sick_registry_reachable : reg_reachable sick_registry.
Proof. eapply reach_step; [apply demo_registry_reachable|]. apply step_SetHealthWithReason. Qed.

Definition sick : Worker := default demo_worker (Get "worker-1" sick_registry).

Lemma sick_listed : sick ∈ List order_id sick_registry.
Proof. apply elem_of_List. exists "worker-1". vm_compute. reflexivity. Qed.

Lemma one_beat_heals_witness :
  w_Health <$> Get (w_WorkerKey sick) (HeartbeatAt 30 (w_WorkerKey sick) 30 sick_registry).2 = Some HealthUnhealthy
  ∧ w_Health <$> Get (w_WorkerKey sick) (tm_registry (CheckWorkers order_id demo_env 40
      (NewTimeoutMonitor (HeartbeatAt 30 (w_WorkerKey sick) 30 sick_registry).2 None DefaultHealthConfig)).1)
    = Some HealthHealthy.
Proof.
  apply (one_beat_heals order_id demo_env sick_registry None DefaultHealthConfig sick 30 30 40
    sick_registry_reachable sick_listed); (reflexivity || (split; [discriminate|reflexivity])).
Defined.

(** The demo worker, last heard at 10, under a goroutine that starts at 20. *)
Lemma silent_worker_detected_witness :
  w_Health <$> Get "worker-1" (tm_registry (lp_state (loop_run monitor_tick
    (scans (λ _, order_id) (λ _, demo_env) 20 (check_interval DefaultHealthConfig) 60) (Monitor_Start demo_monitor))))
  = Some HealthUnhealthy.
Proof.
  apply (silent_worker_detected demo_monitor (λ _, order_id) (λ _, demo_env) demo_worker 10 20
    demo_registry_reachable (demo_worker_listed order_id)); try (reflexivity || discriminate || lia).
Defined.

(** After a stop a tick that is waiting may still be taken; then the goroutine
    returns, and no later tick is taken. *)
Example monitor_stops :
  let late := loop_turn monitor_tick (Monitor_Stop (Monitor_Start demo_monitor))
    (LoopTick (order_id, demo_env, 60 * Second)) in
  let l := loop_turn monitor_tick late LoopStopped in
  w_Health <$> Get "worker-1" (tm_registry (lp_state late)) = Some HealthUnhealthy
  ∧ lp_running l = false ∧ loop_turn monitor_tick l (LoopTick (order_id, demo_env, 90 * Second)) = l.
Proof. by vm_compute. Qed.
