(* ===== verification/HA.v ===== *)
(** * High availability: internal/ha/election.go

    The in-memory advisory lock with its lease, the elector and its campaign
    loop. A tick of the loop is two steps, the call on the lock and what is
    done with its answer, since other goroutines run in between. A cluster is
    a set of electors on one lock. *)

From stdpp Require Import base option gmap strings list pretty.
From Stdlib Require Import ZArith Lia.
From S2P Require Import Prelude GoLib.

Inductive HAState := StateStandby | StateLeader | StateFenced.

#[export] Instance HAState_eq_dec : EqDecision HAState.
Proof. solve_decision. Defined.

Definition ErrNotLeader : error :=
  "instance is not the active leader; scheduling and mutation are fenced".

Definition DefaultAdvisoryLockID : Z := 42424242.

(** ** The lock *)

(** A provider answers whether the lock is held, or fails. *)
Class AdvisoryLockProvider (L : Type) := {
  lk_TryAcquire : Time → Z → string → L → (error + bool) * L;
  lk_RenewOrHold : Time → Z → string → L → (error + bool) * L;
  lk_Release : Z → string → L → L
}.

Record MemoryAdvisoryLock := mkLock {
  lk_currentOwner : string;
  lk_currentLock : Z;
  lk_lastRenew : Time;
  lk_leaseTTL : Duration;
  lk_partitions : gmap string bool
}.

#[export] Instance MemoryAdvisoryLock_eta : Settable MemoryAdvisoryLock := λ m,
  mkLock (lk_currentOwner m) (lk_currentLock m) (lk_lastRenew m) (lk_leaseTTL m) (lk_partitions m).

Definition NewMemoryAdvisoryLock (leaseTTL : Duration) : MemoryAdvisoryLock :=
  mkLock "" 0 0 (if leaseTTL <=? 0 then 1 * Second else leaseTTL) ∅.

Definition Partition (ownerID : string) (partitioned : bool) (m : MemoryAdvisoryLock) :
    MemoryAdvisoryLock := m <| lk_partitions ::= <[ownerID := partitioned]> |>.

Definition is_partitioned (ownerID : string) (m : MemoryAdvisoryLock) : bool :=
  default false (lk_partitions m !! ownerID).

Definition partition_error (ownerID : string) : error :=
  "network partition between " +:+ ownerID +:+ " and lock store".

Definition TryAcquire (now : Time) (lockID : Z) (ownerID : string) (m : MemoryAdvisoryLock) :
    (error + bool) * MemoryAdvisoryLock :=
  if is_partitioned ownerID m then (inl (partition_error ownerID), m)
  else
    let m :=
      if bool_decide (lk_currentOwner m ≠ "") && bool_decide (lk_currentOwner m ≠ ownerID)
         && (lk_leaseTTL m <? now - lk_lastRenew m)
      then m <| lk_currentOwner := "" |> else m in
    if bool_decide (lk_currentOwner m = "") || bool_decide (lk_currentOwner m = ownerID)
    then (inr true, m <| lk_currentOwner := ownerID |> <| lk_currentLock := lockID |>
                      <| lk_lastRenew := now |>)
    else (inr false, m).

Definition RenewOrHold (now : Time) (lockID : Z) (ownerID : string) (m : MemoryAdvisoryLock) :
    (error + bool) * MemoryAdvisoryLock :=
  if is_partitioned ownerID m then (inl (partition_error ownerID), m)
  else if bool_decide (lk_currentOwner m = ownerID) && (lk_currentLock m =? lockID)
  then (inr true, m <| lk_lastRenew := now |>)
  else (inr false, m).

Definition Release (lockID : Z) (ownerID : string) (m : MemoryAdvisoryLock) : MemoryAdvisoryLock :=
  if bool_decide (lk_currentOwner m = ownerID) && (lk_currentLock m =? lockID)
  then m <| lk_currentOwner := "" |> <| lk_currentLock := 0 |> else m.

Definition CurrentOwner (m : MemoryAdvisoryLock) : string := lk_currentOwner m.

#[export] Instance memory_advisory_lock : AdvisoryLockProvider MemoryAdvisoryLock := {
  lk_TryAcquire := TryAcquire;
  lk_RenewOrHold := RenewOrHold;
  lk_Release := Release
}.

(** ** The elector *)

Record DecisionRecord := mkDecision { dc_OwnerID : string; dc_Timestamp : Time }.

Record ElectorConfig := mkElectorConfig {
  ec_LockID : Z;
  ec_OwnerID : string;
  ec_PollInterval : Duration;
  ec_RenewTimeout : Duration
}.

#[export] Instance ElectorConfig_eta : Settable ElectorConfig := λ c,
  mkElectorConfig (ec_LockID c) (ec_OwnerID c) (ec_PollInterval c) (ec_RenewTimeout c).

Record Elector := mkElector {
  el_cfg : ElectorConfig;
  el_state : HAState;
  el_stopped : bool;
  el_decisions : list DecisionRecord
}.

#[export] Instance Elector_eta : Settable Elector := λ e,
  mkElector (el_cfg e) (el_state e) (el_stopped e) (el_decisions e).

Definition NewElector (cfg : ElectorConfig) : Elector :=
  let cfg := if ec_LockID cfg =? 0 then cfg <| ec_LockID := DefaultAdvisoryLockID |> else cfg in
  let cfg := if ec_PollInterval cfg <=? 0
             then cfg <| ec_PollInterval := 25 * Millisecond |> else cfg in
  let cfg := if ec_RenewTimeout cfg <=? 0
             then cfg <| ec_RenewTimeout := 100 * Millisecond |> else cfg in
  mkElector cfg StateStandby false [].

Definition IsLeader (e : Elector) : bool := bool_decide (el_state e = StateLeader).

(** The demotion callback runs in between, with the state FENCED. *)
Definition stepDown (e : Elector) : Elector :=
  if decide (el_state e = StateLeader) then e <| el_state := StateStandby |> else e.

Definition RecordDecision (now : Time) (e : Elector) : (error + Time) * Elector :=
  if negb (IsLeader e) then (inl ErrNotLeader, e)
  else (inr now, e <| el_decisions ::= λ ds, ds ++ [mkDecision (ec_OwnerID (el_cfg e)) now] |>).

Section elector.
Context {L : Type} `{!AdvisoryLockProvider L}.

Definition Stop (e : Elector) (lock : L) : Elector * L :=
  if el_stopped e then (e, lock)
  else
    let e := e <| el_stopped := true |> in
    if IsLeader e
    then (stepDown e, lk_Release (ec_LockID (el_cfg e)) (ec_OwnerID (el_cfg e)) lock)
    else (e, lock).

(** The answer a tick waits for: of a renewal or of an acquisition, and
    whether it came without an error and positive. *)
Inductive TickAnswer := Renewed (ok : bool) | Acquired (ok : bool).

Definition answer_ok (r : error + bool) : bool := match r with inr b => b | inl _ => false end.

(** The first half of a tick of [campaignLoop]: the call on the lock. *)
Definition campaign_call (now : Time) (e : Elector) (lock : L) : TickAnswer * L :=
  let id := ec_LockID (el_cfg e) in
  let owner := ec_OwnerID (el_cfg e) in
  if IsLeader e
  then let '(r, lock) := lk_RenewOrHold now id owner lock in (Renewed (answer_ok r), lock)
  else let '(r, lock) := lk_TryAcquire now id owner lock in (Acquired (answer_ok r), lock).

End elector.

(** The second half: step down after a failed renewal, or become the leader,
    if still on standby. *)
Definition campaign_apply (a : TickAnswer) (e : Elector) : Elector :=
  match a with
  | Renewed ok => if ok then e else stepDown e
  | Acquired ok =>
    if ok && bool_decide (el_state e = StateStandby) then e <| el_state := StateLeader |> else e
  end.

(** ** A cluster on one lock

    [cl_ok] is history: when the lock last answered yes to an elector. *)

Record Node := mkNode { nd_elector : Elector; nd_pending : option TickAnswer }.

Record Cluster := mkCluster {
  cl_nodes : gmap string Node;
  cl_lock : MemoryAdvisoryLock;
  cl_now : Time;
  cl_ok : gmap string Time
}.

#[export] Instance Cluster_eta : Settable Cluster := λ c,
  mkCluster (cl_nodes c) (cl_lock c) (cl_now c) (cl_ok c).

Definition answered_yes (a : TickAnswer) : bool :=
  match a with Renewed ok | Acquired ok => ok end.

Definition call_step (o : string) (nd : Node) (c : Cluster) : Cluster :=
  let '(a, lock) := campaign_call (cl_now c) (nd_elector nd) (cl_lock c) in
  c <| cl_lock := lock |>
    <| cl_ok ::= λ m, if answered_yes a then <[o := cl_now c]> m else m |>
    <| cl_nodes ::= <[o := mkNode (nd_elector nd) (Some a)]> |>.

Definition apply_step (o : string) (nd : Node) (a : TickAnswer) (c : Cluster) : Cluster :=
  c <| cl_nodes ::= <[o := mkNode (campaign_apply a (nd_elector nd)) None]> |>.

Definition stop_step (o : string) (nd : Node) (c : Cluster) : Cluster :=
  let '(e, lock) := Stop (nd_elector nd) (cl_lock c) in
  c <| cl_lock := lock |> <| cl_nodes ::= <[o := mkNode e (nd_pending nd)]> |>.

(** The other calls on an elector do not touch the lock. *)
Definition local_step (f : Elector → Elector) (o : string) (nd : Node) (c : Cluster) : Cluster :=
  c <| cl_nodes ::= <[o := mkNode (f (nd_elector nd)) (nd_pending nd)]> |>.

Inductive cl_step : Cluster → Cluster → Prop :=
| cs_time c dt : 0 ≤ dt → cl_step c (c <| cl_now ::= λ t, t + dt |>)
| cs_partition c o b : cl_step c (c <| cl_lock ::= Partition o b |>)
| cs_call c o nd : cl_nodes c !! o = Some nd → nd_pending nd = None → cl_step c (call_step o nd c)
| cs_apply c o nd a : cl_nodes c !! o = Some nd → nd_pending nd = Some a →
    cl_step c (apply_step o nd a c)
| cs_stop c o nd : cl_nodes c !! o = Some nd → cl_step c (stop_step o nd c)
| cs_stepdown c o nd : cl_nodes c !! o = Some nd → cl_step c (local_step stepDown o nd c)
| cs_decide c o nd : cl_nodes c !! o = Some nd →
    cl_step c (local_step (λ e, (RecordDecision (cl_now c) e).2) o nd c).

(** All electors start on standby, with their own names and one lock. *)
Definition cl_init (lockID : Z) (c : Cluster) : Prop :=
  (∃ ttl, cl_lock c = NewMemoryAdvisoryLock ttl) ∧ cl_ok c = ∅
  ∧ ∀ o nd, cl_nodes c !! o = Some nd →
      o ≠ "" ∧ nd_pending nd = None ∧ el_state (nd_elector nd) = StateStandby
      ∧ ec_OwnerID (el_cfg (nd_elector nd)) = o ∧ ec_LockID (el_cfg (nd_elector nd)) = lockID.

Inductive cl_reachable (lockID : Z) : Cluster → Prop :=
| cl_reach_init c : cl_init lockID c → cl_reachable lockID c
| cl_reach_step c c' : cl_reachable lockID c → cl_step c c' → cl_reachable lockID c'.

(** ** The lease invariant *)

Definition claims_lock (nd : Node) : Prop :=
  IsLeader (nd_elector nd) = true ∨ nd_pending nd = Some (Acquired true).

Definition holds_lock (lockID : Z) (o : string) (t : Time) (m : MemoryAdvisoryLock) : Prop :=
  lk_currentOwner m = o ∧ lk_currentLock m = lockID ∧ lk_lastRenew m = t.

Record node_inv (lockID : Z) (c : Cluster) (o : string) (nd : Node) : Prop := {
  ni_name : o ≠ "";
  ni_owner : ec_OwnerID (el_cfg (nd_elector nd)) = o;
  ni_lock : ec_LockID (el_cfg (nd_elector nd)) = lockID;
  ni_pending : ∀ ok, nd_pending nd = Some (Acquired ok) → IsLeader (nd_elector nd) = false;
  ni_lease : claims_lock nd → ∃ t, cl_ok c !! o = Some t
    ∧ (holds_lock lockID o t (cl_lock c) ∨ t + lk_leaseTTL (cl_lock c) < cl_now c)
}.

Definition cl_inv (lockID : Z) (c : Cluster) : Prop :=
  ∀ o nd, cl_nodes c !! o = Some nd → node_inv lockID c o nd.

Lemma call_ttl now e m : lk_leaseTTL (campaign_call now e m).2 = lk_leaseTTL m.
Proof.
  unfold campaign_call, lk_RenewOrHold, lk_TryAcquire; cbn. unfold RenewOrHold, TryAcquire.
  by repeat case_match; simplify_eq.
Qed.

(** A call of another elector takes the lock only from an expired lease. *)
Lemma call_other now e m lockID o t :
  o ≠ "" → ec_OwnerID (el_cfg e) ≠ o → holds_lock lockID o t m →
  holds_lock lockID o t (campaign_call now e m).2 ∨ t + lk_leaseTTL m < now.
Proof.
  intros Hne Ho (Howner & Hlock & Hlast).
  unfold campaign_call, lk_RenewOrHold, lk_TryAcquire; cbn. destruct (IsLeader e).
  - unfold RenewOrHold. destruct (is_partitioned _ _); [left; by subst|].
    rewrite bool_decide_eq_false_2 by congruence. left; by subst.
  - unfold TryAcquire. destruct (is_partitioned _ _); [left; by subst|]. rewrite Howner.
    rewrite (bool_decide_eq_true_2 (o ≠ "")) by done.
    rewrite (bool_decide_eq_true_2 (o ≠ ec_OwnerID (el_cfg e))) by done. cbn [andb].
    destruct (Z.ltb_spec (lk_leaseTTL m) (now - lk_lastRenew m)); [right; lia|].
    rewrite Howner, (bool_decide_eq_false_2 (o = "")), bool_decide_eq_false_2 by done.
    left; by subst.
Qed.

(** A positive answer means the lock is held from now on. *)
Lemma call_self now e m :
  answered_yes (campaign_call now e m).1 = true →
  holds_lock (ec_LockID (el_cfg e)) (ec_OwnerID (el_cfg e)) now (campaign_call now e m).2.
Proof.
  unfold campaign_call, lk_RenewOrHold, lk_TryAcquire; cbn. destruct (IsLeader e).
  - unfold RenewOrHold. destruct (is_partitioned _ _); [done|]. destruct (_ && _) eqn:E; [|done].
    apply andb_true_iff in E as [E1%bool_decide_eq_true E2%Z.eqb_eq]. done.
  - unfold TryAcquire. destruct (is_partitioned _ _); [done|]. cbv zeta. by destruct (_ || _).
Qed.

(** A leader whose renewal is refused had lost the lock before the call. *)
Lemma call_refused now e m lockID t :
  IsLeader e = true → (campaign_call now e m).1 = Renewed false → ec_LockID (el_cfg e) = lockID →
  holds_lock lockID (ec_OwnerID (el_cfg e)) t m →
  holds_lock lockID (ec_OwnerID (el_cfg e)) t (campaign_call now e m).2.
Proof.
  unfold campaign_call, lk_RenewOrHold; cbn. intros -> E <- Hh. revert E. unfold RenewOrHold.
  destruct (is_partitioned _ _); [done|]. destruct Hh as (-> & -> & <-).
  by rewrite bool_decide_eq_true_2, Z.eqb_refl by done.
Qed.

Lemma node_inv_frame lockID c c' o nd :
  node_inv lockID c o nd → cl_ok c' !! o = cl_ok c !! o →
  (∀ t, holds_lock lockID o t (cl_lock c) →
    holds_lock lockID o t (cl_lock c') ∨ t + lk_leaseTTL (cl_lock c) < cl_now c') →
  lk_leaseTTL (cl_lock c') = lk_leaseTTL (cl_lock c) → cl_now c ≤ cl_now c' →
  node_inv lockID c' o nd.
Proof.
  intros [] Hok Hh Httl Hnow. split; try done. intros Hc.
  destruct (ni_lease0 Hc) as (t & Ht & Hl). exists t. rewrite Hok, Httl. split; [done|].
  destruct Hl as [Hl|Hl]; [by apply Hh|right; lia].
Qed.

Lemma inv_call lockID c o nd :
  cl_inv lockID c → cl_nodes c !! o = Some nd → nd_pending nd = None →
  cl_inv lockID (call_step o nd c).
Proof.
  intros H Hnd Hp o' nd'. pose proof (H o nd Hnd) as [Hname Howner Hlock _ Hlease].
  unfold call_step.
  pose proof (call_ttl (cl_now c) (nd_elector nd) (cl_lock c)) as Httl.
  pose proof (call_self (cl_now c) (nd_elector nd) (cl_lock c)) as Hself.
  pose proof (λ t, call_refused (cl_now c) (nd_elector nd) (cl_lock c) lockID t) as Href.
  pose proof (λ o t, call_other (cl_now c) (nd_elector nd) (cl_lock c) lockID o t) as Hoth.
  assert (IsLeader (nd_elector nd) = true → ∃ ok, (campaign_call (cl_now c) (nd_elector nd) (cl_lock c)).1 = Renewed ok) as Hr.
  { unfold campaign_call. intros ->. destruct (lk_RenewOrHold _ _ _ _). eauto. }
  assert (∀ ok, (campaign_call (cl_now c) (nd_elector nd) (cl_lock c)).1 = Acquired ok → IsLeader (nd_elector nd) = false) as Ha.
  { unfold campaign_call. intros ok. destruct (IsLeader _); [|done]. by destruct (lk_RenewOrHold _ _ _ _). }
  destruct (campaign_call _ _ _) as [a lock]. cbn [fst snd] in *. rewrite Howner, Hlock in *.
  cbn. rewrite lookup_insert. case_decide as Ho; [subst o'; intros [= <-]|].
  - split; cbn; try done; [naive_solver|]. intros Hc.
    destruct (answered_yes a) eqn:Ea.
    { exists (cl_now c). rewrite lookup_insert_eq. split; [done|]. left. by apply Hself. }
    destruct Hc as [Hc|Hc]; cbn in Hc; [|naive_solver].
    destruct (Hr Hc) as [ok ->]. destruct ok; [done|].
    destruct (Hlease (or_introl Hc)) as (t & Ht & Hl). exists t. split; [done|]. rewrite Httl.
    destruct Hl as [Hl|Hl]; [left; by apply Href|by right].
  - intros Hnd'. eapply node_inv_frame; [by apply H|..]; cbn; try done.
    + destruct (answered_yes a); [by rewrite lookup_insert_ne|done].
    + intros t Ht. apply Hoth; try done. apply (ni_name _ _ _ _ (H _ _ Hnd')).
Qed.

Lemma inv_local lockID c o nd e p lock :
  cl_inv lockID c → cl_nodes c !! o = Some nd → el_cfg e = el_cfg (nd_elector nd) →
  (∀ ok, p = Some (Acquired ok) → IsLeader e = false) →
  (claims_lock (mkNode e p) → claims_lock nd ∧ lock = cl_lock c) →
  (∀ o' t, o' ≠ o → holds_lock lockID o' t (cl_lock c) → holds_lock lockID o' t lock) →
  lk_leaseTTL lock = lk_leaseTTL (cl_lock c) →
  cl_inv lockID (c <| cl_lock := lock |> <| cl_nodes ::= <[o := mkNode e p]> |>).
Proof.
  intros H Hnd Hcfg Hp Hc Hoth Httl o' nd'. cbn. rewrite lookup_insert.
  case_decide as Ho; [subst o'; intros [= <-]|intros Hnd'].
  - destruct (H o nd Hnd) as [Hname Howner Hlock _ Hlease].
    split; cbn; [congruence..|done|]. intros Hcl. destruct (Hc Hcl) as [Hcl' ->]. by apply Hlease.
  - eapply node_inv_frame; [by apply H|..]; cbn; try done.
    intros t Ht. left. by apply Hoth.
Qed.

Lemma stepDown_leader e : IsLeader (stepDown e) = false ∧ el_cfg (stepDown e) = el_cfg e.
Proof. unfold stepDown, IsLeader. case_decide; [done|]. by rewrite bool_decide_eq_false_2. Qed.

Lemma set_lock_id (c : Cluster) f :
  c <| cl_nodes ::= f |> = c <| cl_lock := cl_lock c |> <| cl_nodes ::= f |>.
Proof. by destruct c. Qed.

Lemma inv_step lockID c c' : cl_inv lockID c → cl_step c c' → cl_inv lockID c'.
Proof.
  intros H Hs. destruct Hs as [c dt Hdt|c o b|c o nd Hnd Hp|c o nd a Hnd Hp|c o nd Hnd|c o nd Hnd|c o nd Hnd].
  - intros o nd Hnd. eapply node_inv_frame; [by apply H|..]; cbn; [done| |done|lia]. by left.
  - intros o' nd Hnd. eapply node_inv_frame; [by apply H|..]; cbn; [done| |done|lia].
    intros t Ht. by left.
  - by apply inv_call.
  - unfold apply_step. rewrite set_lock_id. destruct (H o nd Hnd) as [_ _ _ Hni _].
    apply inv_local with nd; try done.
    + destruct a as [[]|ok]; cbn; [done|apply stepDown_leader|by case_match].
    + intros Hc. split; [|done]. destruct Hc as [Hc|]; [cbn in Hc|done].
      destruct a as [[]|ok]; cbn in Hc.
      * by left.
      * by rewrite (proj1 (stepDown_leader _)) in Hc.
      * destruct ok; cbn in Hc; [right; by rewrite Hp|by left].
  - unfold stop_step. destruct (H o nd Hnd) as [_ Ho Hl Hni _].
    unfold Stop. destruct (el_stopped (nd_elector nd)).
    { apply inv_local with nd; try done. }
    destruct (IsLeader _) eqn:El.
    + apply inv_local with nd; try done.
      * by rewrite (proj2 (stepDown_leader _)).
      * intros ok _. apply stepDown_leader.
      * intros [Hc|Hc]; cbn in Hc; [by rewrite (proj1 (stepDown_leader _)) in Hc|].
        specialize (Hni _ Hc). unfold IsLeader in Hni, El. cbn in El. congruence.
      * intros o' t Hne (<- & Hh). cbn. unfold Release. rewrite bool_decide_eq_false_2; [done|].
        rewrite Ho. done.
      * cbn. unfold Release. by case_match.
    + apply inv_local with nd; try done.
  - unfold local_step. rewrite set_lock_id. destruct (H o nd Hnd) as [_ _ _ Hni _].
    apply inv_local with nd; try done; [apply stepDown_leader|intros; apply stepDown_leader|].
    intros [Hc|Hc]; cbn in Hc; [by rewrite (proj1 (stepDown_leader _)) in Hc|]. split; [by right|done].
  - unfold local_step. rewrite set_lock_id. destruct (H o nd Hnd) as [_ _ _ Hni _].
    assert (∀ e t, el_cfg (RecordDecision t e).2 = el_cfg e ∧ IsLeader (RecordDecision t e).2 = IsLeader e) as Hd.
    { intros e t. unfold RecordDecision. by case_match. }
    apply inv_local with nd; try done; [apply Hd|intros; rewrite (proj2 (Hd _ _)); eauto|].
    unfold claims_lock. cbn. rewrite (proj2 (Hd _ _)). done.
Qed.

Lemma cl_reachable_inv lockID c : cl_reachable lockID c → cl_inv lockID c.
Proof.
  induction 1 as [c (_ & _ & H)|]; [|by eapply inv_step].
  intros o nd Hnd. destruct (H o nd Hnd) as (H1 & H2 & H3 & H4 & H5). split; try done.
  - intros ok. by rewrite H2.
  - unfold claims_lock, IsLeader. rewrite H2, H3. intros [Hc|Hc]; [|done].
    by rewrite bool_decide_eq_false_2 in Hc.
Qed.

Definition is_leader (c : Cluster) (o : string) : Prop :=
  ∃ nd, cl_nodes c !! o = Some nd ∧ IsLeader (nd_elector nd) = true.


(** ** A stop between the two halves of a tick *)

Definition standby (o : string) : Node :=
  mkNode (NewElector (mkElectorConfig 0 o 0 0)) None.

Definition two_electors : Cluster :=
  mkCluster (<["cp-1" := standby "cp-1"]> (<["cp-2" := standby "cp-2"]> ∅))
    (NewMemoryAdvisoryLock (1 * Second)) 0 ∅.

Definition at_node (f : string → Node → Cluster → Cluster) (o : string) (c : Cluster) : Cluster :=
  match cl_nodes c !! o with Some nd => f o nd c | None => c end.

Definition do_apply (o : string) (nd : Node) (c : Cluster) : Cluster :=
  match nd_pending nd with Some a => apply_step o nd a c | None => c end.

Lemma reach_at_node lockID f o nd c :
  cl_nodes c !! o = Some nd → cl_reachable lockID c → cl_step c (f o nd c) →
  cl_reachable lockID (at_node f o c).
Proof. intros E H Hs. unfold at_node. rewrite E. by eapply cl_reach_step. Qed.

(** [cp-1] gets the lock, is stopped before it reads the answer, and is then
    promoted; [cp-2] takes over when the lease ends. *)
Definition late_promotion : Cluster :=
  at_node do_apply "cp-2" (at_node call_step "cp-2"
    ((at_node do_apply "cp-1" (at_node stop_step "cp-1" (at_node call_step "cp-1" two_electors)))
       <| cl_now ::= λ t, t + 2 * Second |>)).

Ltac node_step := eapply reach_at_node; [vm_compute; reflexivity| |].

Lemma late_promotion_reachable : cl_reachable DefaultAdvisoryLockID late_promotion.
Proof.
  unfold late_promotion.
  node_step; [|eapply cs_apply; vm_compute; reflexivity].
  node_step; [|apply cs_call; vm_compute; reflexivity].
  eapply cl_reach_step; [|by apply cs_time].
  node_step; [|eapply cs_apply; vm_compute; reflexivity].
  node_step; [|apply cs_stop; vm_compute; reflexivity].
  node_step; [|apply cs_call; vm_compute; reflexivity].
  apply cl_reach_init. split; [by eexists|]. split; [done|].
  intros o nd. unfold two_electors. cbn [cl_nodes].
  rewrite !lookup_insert_Some, lookup_empty. naive_solver.
Qed.

(** A run in which an elector is stopped between the lock's positive answer and
    its promotion: it is then promoted although stopped, and after the lease is
    over two electors lead at once, both recording decisions. *)
Theorem stopped_elector_leads :
  ∃ c, cl_reachable DefaultAdvisoryLockID c ∧ is_leader c "cp-1" ∧ is_leader c "cp-2"
    ∧ (∃ nd, cl_nodes c !! "cp-1" = Some nd ∧ el_stopped (nd_elector nd) = true
        ∧ (RecordDecision (cl_now c) (nd_elector nd)).1 = inr (cl_now c)).
Proof.
  exists late_promotion. split; [apply late_promotion_reachable|].
  split_and!; eexists; (split; [vm_compute; reflexivity|]); vm_compute; auto.
Qed.


(** ** PostgresAdvisoryLock

    The lock belongs to the session of the server that took it, and is counted
    there; a session that ends gives its locks back. A pool gives a call one of
    its sessions, or fails: [pl_picks] is what it gives one call after the
    other, and a nil pool is [None]. *)

Definition LockServer : Type := gmap Z (nat * nat).

Definition pg_try_advisory_lock (session : nat) (lockID : Z) (srv : LockServer) : bool * LockServer :=
  match srv !! lockID with
  | None => (true, <[lockID := (session, 1%nat)]> srv)
  | Some (s, n) => if decide (s = session) then (true, <[lockID := (s, S n)]> srv) else (false, srv)
  end.

Definition pg_advisory_unlock (session : nat) (lockID : Z) (srv : LockServer) : bool * LockServer :=
  match srv !! lockID with
  | Some (s, S n) =>
    if decide (s = session) then (true, if decide (n = O) then delete lockID srv else <[lockID := (s, n)]> srv)
    else (false, srv)
  | _ => (false, srv)
  end.

Definition end_session (session : nat) (srv : LockServer) : LockServer := base.filter (λ kv, kv.2.1 ≠ session) srv.

Record PostgresAdvisoryLock := mkPgLock {
  pl_server : LockServer;
  pl_picks : option (nat → error + nat);
  pl_calls : nat
}.

#[export] Instance PostgresAdvisoryLock_eta : Settable PostgresAdvisoryLock := λ l,
  mkPgLock (pl_server l) (pl_picks l) (pl_calls l).

(** One query on the next session of the pool. *)
Definition on_session {A} (nil : A) (failed : error → A) (query : nat → LockServer → A * LockServer) (l : PostgresAdvisoryLock) :
    A * PostgresAdvisoryLock :=
  match pl_picks l with
  | None => (nil, l)
  | Some picks =>
    let l' := l <| pl_calls ::= S |> in
    match picks (pl_calls l) with
    | inl err => (failed err, l')
    | inr session => let '(a, srv) := query session (pl_server l) in (a, l' <| pl_server := srv |>)
    end
  end.

Definition ErrNoPool : error := "postgres pool not initialized".

Definition pgl_TryAcquire (now : Time) (lockID : Z) (ownerID : string) (l : PostgresAdvisoryLock) :
    (error + bool) * PostgresAdvisoryLock :=
  on_session (inl ErrNoPool) inl
    (λ session srv, let '(acquired, srv) := pg_try_advisory_lock session lockID srv in (inr acquired, srv)) l.

(** The query is SELECT 1: it does not look at the lock. *)
Definition pgl_RenewOrHold (now : Time) (lockID : Z) (ownerID : string) (l : PostgresAdvisoryLock) :
    (error + bool) * PostgresAdvisoryLock :=
  on_session (inl ErrNoPool) inl (λ _ srv, (inr true, srv)) l.

Definition pgl_Release (lockID : Z) (ownerID : string) (l : PostgresAdvisoryLock) : PostgresAdvisoryLock :=
  (on_session tt (λ _, tt) (λ session srv, (tt, (pg_advisory_unlock session lockID srv).2)) l).2.

#[export] Instance postgres_advisory_lock : AdvisoryLockProvider PostgresAdvisoryLock := {
  lk_TryAcquire := pgl_TryAcquire;
  lk_RenewOrHold := pgl_RenewOrHold;
  lk_Release := pgl_Release
}.

(** While one session of the server holds the advisory lock, an acquisition on
    any other session is refused, and a release on any other session leaves the
    lock as it is. *)
Theorem postgres_lock_excludes now lockID ownerID session holder n picks calls srv :
  srv !! lockID = Some (holder, n) → picks calls = inr session → session ≠ holder →
  pgl_TryAcquire now lockID ownerID (mkPgLock srv (Some picks) calls) = (inr false, mkPgLock srv (Some picks) (S calls))
  ∧ pl_server (pgl_Release lockID ownerID (mkPgLock srv (Some picks) calls)) = srv.
Proof.
  intros Hl Hp Hne. unfold pgl_TryAcquire, pgl_Release, on_session. cbn [pl_picks pl_calls pl_server]. rewrite Hp.
  unfold pg_try_advisory_lock, pg_advisory_unlock. rewrite Hl. rewrite decide_False by congruence. split; [done|].
  destruct n as [|n]; [done|]. by rewrite decide_False by congruence.
Qed.

Lemma postgres_lock_excludes_witness :
  pgl_TryAcquire 0 7 "cp-2" (mkPgLock {[7 := (1%nat, 1%nat)]} (Some (λ _, inr 2%nat)) 0)
  = (inr false, mkPgLock {[7 := (1%nat, 1%nat)]} (Some (λ _, inr 2%nat)) 1).
Proof.
  exact (proj1 (postgres_lock_excludes 0 7 "cp-2" 2 1 1 (λ _, inr 2%nat) 0 {[7 := (1%nat, 1%nat)]} eq_refl eq_refl
    ltac:(discriminate))).
Defined.

(** One tick of an elector, whose pool gives it the session. *)
Definition tick_on (session : nat) (e : Elector) (srv : LockServer) : Elector * LockServer :=
  let '(a, l) := campaign_call 0 e (mkPgLock srv (Some (λ _, inr session)) 0) in (campaign_apply a e, pl_server l).

(** The session of the leader ends and another elector takes the lock, but the
    leader's renewal on another session of its pool succeeds: both lead. *)
Example postgres_two_leaders :
  let '(a, srv) := tick_on 1 (nd_elector (standby "cp-1")) ∅ in
  let '(b, srv) := tick_on 2 (nd_elector (standby "cp-2")) (end_session 1 srv) in
  let '(a, srv) := tick_on 3 a srv in
  IsLeader a = true ∧ IsLeader b = true.
Proof. vm_compute. split; reflexivity. Qed.

(** A stop whose release runs on another session leaves the lock taken. *)
Example postgres_release_misses :
  let '(a, srv) := tick_on 1 (nd_elector (standby "cp-1")) ∅ in
  let '(a, l) := Stop a (mkPgLock srv (Some (λ _, inr 3%nat)) 0) in
  IsLeader a = false ∧ IsLeader (tick_on 2 (nd_elector (standby "cp-2")) (pl_server l)).1 = false.
Proof. vm_compute. split; reflexivity. Qed.
