(* ===== verification/Deployments.v ===== *)
(** * Deployment records: internal/deployments/{model,state_machine,events,repository}.go

    The records, the table of legal transitions, and the repositories. The
    deployment service is written against the repository interfaces: here these
    are classes, with the laws the service relies on stated over an abstract
    map, and the in-memory repositories are instances that meet the laws. *)

From stdpp Require Import base option gmap strings list pretty.
From Stdlib Require Import ZArith Lia.
From S2P Require Import Prelude GoLib GoFloat PtrStore.

(** ** model.go *)

(** A [DeploymentStatus] is a string in Go: [StatusOther] is one that is none of
    the constants, which only decoded records have. *)
Inductive DeploymentStatus :=
| StatusQueued | StatusBuilding | StatusBuilt | StatusScheduling | StatusStarting
| StatusRunning | StatusFailed | StatusStopped | StatusRolledBack | StatusOther (s : string).

#[export] Instance DeploymentStatus_eq_dec : EqDecision DeploymentStatus.
Proof. solve_decision. Defined.

Definition status_string (s : DeploymentStatus) : string :=
  match s with
  | StatusQueued => "QUEUED" | StatusBuilding => "BUILDING" | StatusBuilt => "BUILT"
  | StatusScheduling => "SCHEDULING" | StatusStarting => "STARTING"
  | StatusRunning => "RUNNING" | StatusFailed => "FAILED" | StatusStopped => "STOPPED"
  | StatusRolledBack => "ROLLED_BACK" | StatusOther s => s
  end.

Definition IsTerminal (s : DeploymentStatus) : bool :=
  bool_decide (s = StatusRunning) || bool_decide (s = StatusFailed)
  || bool_decide (s = StatusStopped) || bool_decide (s = StatusRolledBack).

Definition IsInFlight (s : DeploymentStatus) : bool :=
  bool_decide (s = StatusQueued) || bool_decide (s = StatusBuilding)
  || bool_decide (s = StatusBuilt) || bool_decide (s = StatusScheduling)
  || bool_decide (s = StatusStarting).

Record Deployment := mkDeployment {
  d_ID : string;
  d_ProjectID : string;
  d_Revision : string;
  d_Image : string;
  d_ImageDigest : string;
  d_DesiredState : string;
  d_Status : DeploymentStatus;
  d_Stage : string;
  d_InstanceCount : Z;
  d_DesiredReplicas : Z;
  d_Env : gmap string string;
  d_Labels : gmap string string;
  d_CreatedAt : Time;
  d_UpdatedAt : Time
}.

#[export] Instance Deployment_eta : Settable Deployment := λ d,
  mkDeployment (d_ID d) (d_ProjectID d) (d_Revision d) (d_Image d) (d_ImageDigest d)
    (d_DesiredState d) (d_Status d) (d_Stage d) (d_InstanceCount d) (d_DesiredReplicas d)
    (d_Env d) (d_Labels d) (d_CreatedAt d) (d_UpdatedAt d).

#[export] Instance Deployment_eq_dec : EqDecision Deployment.
Proof. solve_decision. Defined.

Record Instance_ := mkInstance {
  i_ID : string;
  i_DeploymentID : string;
  i_WorkerID : string;
  i_InstanceKey : string;
  i_Status : string;
  i_ContainerID : string;
  i_CreatedAt : Time;
  i_UpdatedAt : Time
}.

#[export] Instance Instance_eta : Settable Instance_ := λ i,
  mkInstance (i_ID i) (i_DeploymentID i) (i_WorkerID i) (i_InstanceKey i) (i_Status i)
    (i_ContainerID i) (i_CreatedAt i) (i_UpdatedAt i).

#[export] Instance Instance_eq_dec : EqDecision Instance_.
Proof. solve_decision. Defined.

(** ** state_machine.go *)

Definition legalTransitions (from to : DeploymentStatus) : bool :=
  match from, to with
  | StatusQueued, (StatusBuilding | StatusScheduling | StatusFailed) => true
  | StatusBuilding, (StatusBuilt | StatusFailed) => true
  | StatusBuilt, (StatusScheduling | StatusFailed) => true
  | StatusScheduling, (StatusStarting | StatusFailed) => true
  | StatusStarting, (StatusRunning | StatusFailed) => true
  | StatusRunning, (StatusStopped | StatusFailed | StatusRolledBack) => true
  | _, _ => false
  end.

Definition ErrIllegalTransition (from to : DeploymentStatus) : error :=
  "illegal deployment state transition from " +:+ status_string from
  +:+ " to " +:+ status_string to.

Definition ValidateTransition (from to : DeploymentStatus) : option error :=
  if decide (from = to) then None
  else if legalTransitions from to then None
  else Some (ErrIllegalTransition from to).

(** ** repository.go: deployments *)

Definition ErrDeploymentNotFound : error := "deployment not found".
Definition ErrInstanceNotFound : error := "instance not found".
Definition ErrReleaseNotFound : error := "release not found".

(** [dr_Create] also returns the record as the call leaves it. *)
Class DeploymentRepository (DR : Type) := {
  dr_Create : Time → Deployment → DR → option error * Deployment * DR;
  dr_GetByID : string → DR → error + Deployment;
  dr_UpdateStatus : Time → string → DeploymentStatus → string → DR → option error * DR;
  dr_UpdateImage : Time → string → string → string → DR → option error * DR;
  dr_UpdateScale : Time → string → Z → DR → option error * DR;
  dr_List : Order → string → DR → error + list Deployment
}.

(** The updates of a stored record. *)
Definition d_stamp (now : Time) (d : Deployment) : Deployment :=
  let d := if IsZero (d_CreatedAt d) then d <| d_CreatedAt := now |> else d in
  d <| d_UpdatedAt := now |>.

Lemma d_stamp_frame now d :
  d_ID (d_stamp now d) = d_ID d
  ∧ d_stamp now d = d <| d_CreatedAt := d_CreatedAt (d_stamp now d) |> <| d_UpdatedAt := now |>.
Proof. unfold d_stamp. case_match; [done|]. by destruct d. Qed.

Definition d_set_status (now : Time) (status : DeploymentStatus) (stage : string)
    (d : Deployment) : Deployment :=
  let d := d <| d_Status := status |> in
  let d := if decide (stage = "") then d else d <| d_Stage := stage |> in
  d <| d_UpdatedAt := now |>.

Definition d_set_image (now : Time) (image digest : string) (d : Deployment) : Deployment :=
  d <| d_Image := image |> <| d_ImageDigest := digest |> <| d_UpdatedAt := now |>.

Definition d_set_scale (now : Time) (replicaCount : Z) (d : Deployment) : Deployment :=
  d <| d_InstanceCount := replicaCount |> <| d_DesiredReplicas := replicaCount |>
    <| d_UpdatedAt := now |>.

Definition d_of_project (projectID : string) (d : Deployment) : Prop :=
  projectID = "" ∨ d_ProjectID d = projectID.

#[export] Instance d_of_project_dec p d : Decision (d_of_project p d).
Proof. unfold d_of_project. apply _. Defined.

(** A repository that keeps what it is told: its contents are a map from IDs
    to records. *)
Class DeploymentStore (DR : Type) `{!DeploymentRepository DR} := {
  dr_view : DR → gmap string Deployment;
  dr_create_spec : ∀ now d r,
    (dr_Create now d r).1 = (None, d_stamp now d)
    ∧ dr_view (dr_Create now d r).2 = <[d_ID d := d_stamp now d]> (dr_view r);
  dr_get_spec : ∀ id r,
    dr_GetByID id r = match dr_view r !! id with
                      | Some d => inr d | None => inl ErrDeploymentNotFound end;
  dr_status_spec : ∀ now id st stage r,
    dr_view (dr_UpdateStatus now id st stage r).2
      = alter (d_set_status now st stage) id (dr_view r);
  dr_image_spec : ∀ now id image digest r,
    dr_view (dr_UpdateImage now id image digest r).2
      = alter (d_set_image now image digest) id (dr_view r);
  dr_scale_spec : ∀ now id n r,
    dr_view (dr_UpdateScale now id n r).2 = alter (d_set_scale now n) id (dr_view r);
  dr_list_spec : ∀ o p r, ∃ l, dr_List o p r = inr l
    ∧ l ≡ₚ base.filter (d_of_project p) (map_to_list (dr_view r)).*2
}.

Abbreviation MemoryDeploymentRepository := (gmap string Deployment) (only parsing).

Definition NewMemoryDeploymentRepository : MemoryDeploymentRepository := ∅.

Definition mdr_Create (now : Time) (d : Deployment) (r : MemoryDeploymentRepository) :
    option error * Deployment * MemoryDeploymentRepository :=
  let d := d_stamp now d in (None, d, <[d_ID d := d]> r).

Definition mdr_GetByID (id : string) (r : MemoryDeploymentRepository) : error + Deployment :=
  match r !! id with Some d => inr d | None => inl ErrDeploymentNotFound end.

Definition mdr_update (f : Deployment → Deployment) (id : string)
    (r : MemoryDeploymentRepository) : option error * MemoryDeploymentRepository :=
  match r !! id with
  | None => (Some ErrDeploymentNotFound, r)
  | Some d => (None, <[id := f d]> r)
  end.

Definition mdr_UpdateStatus (now : Time) (id : string) (status : DeploymentStatus) (stage : string) :=
  mdr_update (d_set_status now status stage) id.

Definition mdr_UpdateImage (now : Time) (id image imageDigest : string) :=
  mdr_update (d_set_image now image imageDigest) id.

Definition mdr_UpdateScale (now : Time) (id : string) (replicaCount : Z) :=
  mdr_update (d_set_scale now replicaCount) id.

Definition mdr_List (o : Order) (projectID : string) (r : MemoryDeploymentRepository) :
    error + list Deployment :=
  inr (base.filter (d_of_project projectID) (map_values o r)).

Definition mdr_Wipe (r : MemoryDeploymentRepository) : MemoryDeploymentRepository := ∅.

#[export] Instance memory_deployment_repository :
  DeploymentRepository MemoryDeploymentRepository := {
  dr_Create := mdr_Create;
  dr_GetByID := mdr_GetByID;
  dr_UpdateStatus := mdr_UpdateStatus;
  dr_UpdateImage := mdr_UpdateImage;
  dr_UpdateScale := mdr_UpdateScale;
  dr_List := mdr_List
}.

Lemma mdr_update_alter f id (r : gmap string Deployment) : (mdr_update f id r).2 = alter f id r.
Proof.
  unfold mdr_update. apply map_eq. intros k. rewrite lookup_alter.
  destruct (r !! id) as [d|] eqn:E; cbn; [rewrite lookup_insert|];
    case_decide; subst; by rewrite ?E.
Qed.

#[export] Instance memory_deployment_store : DeploymentStore MemoryDeploymentRepository.
Proof.
  refine {| dr_view := λ r : MemoryDeploymentRepository, r |}; intros; cbn.
  - split; [done|]. unfold mdr_Create. cbn. unfold d_stamp. by case_match.
  - done.
  - apply mdr_update_alter.
  - apply mdr_update_alter.
  - apply mdr_update_alter.
  - eexists. split; [done|]. unfold map_values. by rewrite permute_perm.
Defined.

(** ** repository.go: instances *)

Class InstanceRepository (IR : Type) := {
  ir_Create : Time → Instance_ → IR → option error * Instance_ * IR;
  ir_GetByID : string → IR → error + Instance_;
  ir_GetByInstanceKey : string → IR → error + Instance_;
  ir_ListByDeployment : Order → string → IR → error + list Instance_;
  ir_ListByWorker : Order → string → IR → error + list Instance_;
  ir_Update : Time → Instance_ → IR → option error * Instance_ * IR;
  ir_CountByWorkerForDeployment : string → IR → error + gmap string Z;
  ir_ListAll : Order → IR → error + list Instance_
}.

Definition i_stamp (now : Time) (i : Instance_) : Instance_ :=
  let i := if IsZero (i_CreatedAt i) then i <| i_CreatedAt := now |> else i in
  i <| i_UpdatedAt := now |>.

Definition i_touch (now : Time) (i : Instance_) : Instance_ := i <| i_UpdatedAt := now |>.

(** [ir_ok] is the repository's own invariant. *)
Class InstanceStore (IR : Type) `{!InstanceRepository IR} := {
  ir_view : IR → gmap string Instance_;
  ir_ok : IR → Prop;
  ir_create_spec : ∀ now i r, ir_ok r → ir_view r !! i_ID i = None →
    (ir_Create now i r).1 = (None, i_stamp now i)
    ∧ ir_view (ir_Create now i r).2 = <[i_ID i := i_stamp now i]> (ir_view r)
    ∧ ir_ok (ir_Create now i r).2;
  ir_update_spec : ∀ now i r, ir_ok r →
    ir_view (ir_Update now i r).2
      = match ir_view r !! i_ID i with
        | Some _ => <[i_ID i := i_touch now i]> (ir_view r) | None => ir_view r end
    ∧ ir_ok (ir_Update now i r).2;
  ir_update_result : ∀ now i r,
    (ir_Update now i r).1.2 = i ∨ (ir_Update now i r).1.2 = i_touch now i;
  ir_deployment_spec : ∀ o d r, ∃ l, ir_ListByDeployment o d r = inr l
    ∧ l ≡ₚ base.filter (λ i, i_DeploymentID i = d) (map_to_list (ir_view r)).*2;
  ir_worker_spec : ∀ o w r, ∃ l, ir_ListByWorker o w r = inr l
    ∧ l ≡ₚ base.filter (λ i, i_WorkerID i = w) (map_to_list (ir_view r)).*2;
  ir_all_spec : ∀ o r, ∃ l, ir_ListAll o r = inr l ∧ l ≡ₚ (map_to_list (ir_view r)).*2;
  ir_get_spec : ∀ id r,
    ir_GetByID id r = match ir_view r !! id with
                      | Some i => inr i | None => inl ErrInstanceNotFound end;
  ir_key_spec : ∀ key i r, ir_ok r → ir_GetByInstanceKey key r = inr i → ir_view r !! i_ID i = Some i
}.

(** The records by ID are the primary map, [byKey] is the index. *)
Definition MemoryInstanceRepository : Type := Store Instance_.

Definition NewMemoryInstanceRepository : MemoryInstanceRepository := st_empty.

Section memory_instances.
Implicit Types r : MemoryInstanceRepository.

Definition mir_Create (now : Time) (i : Instance_) r :
    option error * Instance_ * MemoryInstanceRepository :=
  let i := i_stamp now i in (None, i, st_insert (i_ID i) (i_InstanceKey i) i r).

Definition mir_GetByID (id : string) r : error + Instance_ :=
  match get_pri id r with Some i => inr i | None => inl ErrInstanceNotFound end.

Definition mir_GetByInstanceKey (key : string) r : error + Instance_ :=
  match get_sec key r with Some i => inr i | None => inl ErrInstanceNotFound end.

Definition mir_values (o : Order) r : list Instance_ := map_values o (pri_view r).

Definition mir_ListByDeployment (o : Order) (deploymentID : string) r : error + list Instance_ :=
  inr (base.filter (λ i, i_DeploymentID i = deploymentID) (mir_values o r)).

Definition mir_ListByWorker (o : Order) (workerID : string) r : error + list Instance_ :=
  inr (base.filter (λ i, i_WorkerID i = workerID) (mir_values o r)).

(** [*existing = clone] writes the record in place. *)
Definition mir_Update (now : Time) (i : Instance_) r :
    option error * Instance_ * MemoryInstanceRepository :=
  match st_pri r !! i_ID i with
  | None => (Some ErrInstanceNotFound, i, r)
  | Some l =>
    let i := i_touch now i in
    let r := st_write l i r in
    (None, i, if decide (i_InstanceKey i = "") then r else link_sec (i_InstanceKey i) l r)
  end.

(** The counts do not depend on the order of the iteration. *)
Definition count_instance (deploymentID : string) (i : Instance_) (counts : gmap string Z) :
    gmap string Z :=
  if bool_decide (i_DeploymentID i = deploymentID) && bool_decide (i_WorkerID i ≠ "")
  then <[i_WorkerID i := lookup_int counts (i_WorkerID i) + 1]> counts else counts.

Definition mir_CountByWorkerForDeployment (deploymentID : string) r : error + gmap string Z :=
  inr (foldr (count_instance deploymentID) ∅ (map_to_list (pri_view r)).*2).

Definition mir_ListAll (o : Order) r : error + list Instance_ := inr (mir_values o r).

Definition mir_Wipe r : MemoryInstanceRepository := st_empty.

End memory_instances.

#[export] Instance memory_instance_repository : InstanceRepository MemoryInstanceRepository := {
  ir_Create := mir_Create;
  ir_GetByID := mir_GetByID;
  ir_GetByInstanceKey := mir_GetByInstanceKey;
  ir_ListByDeployment := mir_ListByDeployment;
  ir_ListByWorker := mir_ListByWorker;
  ir_Update := mir_Update;
  ir_CountByWorkerForDeployment := mir_CountByWorkerForDeployment;
  ir_ListAll := mir_ListAll
}.

Lemma i_stamp_keys now i : i_ID (i_stamp now i) = i_ID i ∧ i_InstanceKey (i_stamp now i) = i_InstanceKey i.
Proof. unfold i_stamp. by case_match. Qed.

Lemma mir_values_perm o (r : MemoryInstanceRepository) :
  mir_values o r ≡ₚ (map_to_list (pri_view r)).*2.
Proof. apply permute_perm. Qed.

(** The index leads to records of the primary map only. *)
Record mir_ok (r : MemoryInstanceRepository) : Prop := {
  mo_wf : st_wf r;
  mo_key : ∀ k l, st_sec r !! k = Some l →
    ∃ v, st_heap r !! l = Some v ∧ st_pri r !! i_ID v = Some l
}.

Lemma mir_ok_empty : mir_ok NewMemoryInstanceRepository.
Proof. split; [apply st_wf_empty|]. by intros k l. Qed.

Lemma mir_ok_create now i (r : MemoryInstanceRepository) :
  mir_ok r → pri_view r !! i_ID i = None → mir_ok (mir_Create now i r).2.
Proof.
  intros [H Hk] Hf. unfold mir_Create. cbn [snd]. destruct (i_stamp_keys now i) as [-> ->].
  split; [by apply st_wf_insert|]. rewrite lookup_pri_view, get_pri_None in Hf by done.
  intros k l. cbn. rewrite !lookup_insert. case_decide as Hkey.
  - intros [= <-]. exists (i_stamp now i). rewrite (proj1 (i_stamp_keys _ _)).
    by rewrite decide_True, lookup_insert_eq.
  - intros Hl. destruct (Hk _ _ Hl) as (v & Hv & Hp). exists v.
    rewrite decide_False by (intros <-; by apply (wf_sec_fresh r k)).
    rewrite lookup_insert_ne by congruence. done.
Qed.

Lemma mir_ok_update now i (r : MemoryInstanceRepository) : mir_ok r → mir_ok (mir_Update now i r).2.
Proof.
  intros [H Hk]. unfold mir_Update. destruct (st_pri r !! i_ID i) as [l|] eqn:E; [|done].
  cbn [snd]. destruct (wf_pri _ H _ _ E) as [v Hv].
  assert (mir_ok (st_write l (i_touch now i) r)) as Hw.
  { split; [apply st_wf_write; eauto|]. intros k l' Hl'. cbn. rewrite lookup_insert.
    case_decide as El; [subst l'; by exists (i_touch now i)|]. by apply (Hk k). }
  case_decide; [done|]. destruct Hw as [Hw1 Hw2]. split.
  - apply st_wf_link_sec; [done|]. eexists. apply heap_write.
  - intros k l'. cbn. rewrite lookup_insert. case_decide; [|apply Hw2].
    intros [= <-]. exists (i_touch now i). by rewrite lookup_insert_eq.
Qed.

Lemma mir_key_view key i (r : MemoryInstanceRepository) :
  mir_ok r → mir_GetByInstanceKey key r = inr i → pri_view r !! i_ID i = Some i.
Proof.
  intros [H Hk]. unfold mir_GetByInstanceKey. destruct (get_sec key r) as [v|] eqn:E; [|done].
  intros [= ->]. destruct (get_sec_cell _ _ _ E) as (l & Hl & Hv).
  destruct (Hk _ _ Hl) as (v' & Hv' & Hp). rewrite lookup_pri_view. unfold get_pri.
  assert (v' = i) as -> by congruence. by rewrite Hp.
Qed.

Lemma mir_update_spec now i (r : MemoryInstanceRepository) :
  st_wf r →
  pri_view (mir_Update now i r).2
    = match pri_view r !! i_ID i with
      | Some _ => <[i_ID i := i_touch now i]> (pri_view r) | None => pri_view r end
  ∧ st_wf (mir_Update now i r).2.
Proof.
  intros H. unfold mir_Update. rewrite lookup_pri_view.
  destruct (st_pri r !! i_ID i) as [l|] eqn:E.
  - destruct (wf_pri _ H _ _ E) as [v Hv].
    assert (get_pri (i_ID i) r = Some v) as -> by (unfold get_pri; by rewrite E).
    assert (st_wf (st_write l (i_touch now i) r)) as Hw by (apply st_wf_write; eauto).
    cbn [snd]. split.
    + case_decide; rewrite ?pri_view_link_sec; by apply pri_view_write.
    + case_decide; [done|]. apply st_wf_link_sec; [done|]. eexists. apply heap_write.
  - cbn. assert (get_pri (i_ID i) r = None) as -> by (unfold get_pri; by rewrite E). done.
Qed.

#[export] Instance memory_instance_store : InstanceStore MemoryInstanceRepository.
Proof.
  refine {| ir_view := pri_view (V := Instance_); ir_ok := mir_ok |}; intros.
  - change (ir_Create now i r) with (mir_Create now i r).
    split_and!; [done| |by apply mir_ok_create].
    unfold mir_Create. cbn [fst snd]. destruct (i_stamp_keys now i) as [-> ->].
    by apply pri_view_insert, mo_wf.
  - split; [by apply mir_update_spec, mo_wf|by apply mir_ok_update].
  - change (ir_Update now i r) with (mir_Update now i r). unfold mir_Update. case_match; auto.
  - eexists. split; [done|]. by rewrite mir_values_perm.
  - eexists. split; [done|]. by rewrite mir_values_perm.
  - eexists. split; [done|]. apply mir_values_perm.
  - change (ir_GetByID id r) with (mir_GetByID id r). unfold mir_GetByID. by rewrite lookup_pri_view.
  - by eapply mir_key_view.
Defined.

(** ** repository.go: releases *)

Record Release := mkRelease {
  rl_ID : string;
  rl_ProjectID : string;
  rl_DeploymentID : string;
  rl_Version : string;
  rl_ImageRef : string;
  rl_ImageDigest : string;
  rl_Signature : string;
  rl_CreatedAt : Time
}.

#[export] Instance Release_eta : Settable Release := λ r,
  mkRelease (rl_ID r) (rl_ProjectID r) (rl_DeploymentID r) (rl_Version r) (rl_ImageRef r)
    (rl_ImageDigest r) (rl_Signature r) (rl_CreatedAt r).

Abbreviation MemoryReleaseRepository := (gmap string Release) (only parsing).

(** [uuid] and [now] are drawn only where the record has none. *)
Definition mrr_Create (now : Time) (uuid : string) (rel : Release) (r : MemoryReleaseRepository) :
    option error * MemoryReleaseRepository :=
  let rel := if decide (rl_ID rel = "") then rel <| rl_ID := uuid |> else rel in
  let rel := if IsZero (rl_CreatedAt rel) then rel <| rl_CreatedAt := now |> else rel in
  (None, <[rl_ID rel := rel]> r).

Definition mrr_Get (id : string) (r : MemoryReleaseRepository) : error + Release :=
  match r !! id with Some rel => inr rel | None => inl ErrReleaseNotFound end.

Definition mrr_GetByDigest (o : Order) (digest : string) (r : MemoryReleaseRepository) :
    error + Release :=
  match base.filter (λ rel, rl_ImageDigest rel = digest) (map_values o r) with
  | rel :: _ => inr rel
  | [] => inl ErrReleaseNotFound
  end.

Definition mrr_ListByProject (o : Order) (projectID : string) (r : MemoryReleaseRepository) :
    error + list Release :=
  inr (base.filter (λ rel, rl_ProjectID rel = projectID) (map_values o r)).

Definition mrr_List (o : Order) (projectID : string) (r : MemoryReleaseRepository) :
    error + list Release :=
  inr (base.filter (λ rel, projectID = "" ∨ rl_ProjectID rel = projectID) (map_values o r)).

Definition mrr_Wipe (r : MemoryReleaseRepository) : MemoryReleaseRepository := ∅.

(** ** events.go *)

(** The values that the code puts into the metadata, and those that decoded
    metadata can have: the entries of a map are in the order they were set. *)
Inductive MetaValue :=
| MStr (s : string) | MInt (n : Z) | MTime (t : Time) | MFloat (x : float64)
| MNil | MBool (b : bool) | MList (l : list MetaValue) | MMap (l : list (string * MetaValue)).

Record Event := mkEvent {
  ev_ID : string;
  ev_ProjectID : string;
  ev_DeploymentID : string;
  ev_EventType : string;
  ev_Message : string;
  ev_Metadata : list (string * MetaValue);
  ev_CreatedAt : Time
}.

#[export] Instance Event_eta : Settable Event := λ e,
  mkEvent (ev_ID e) (ev_ProjectID e) (ev_DeploymentID e) (ev_EventType e) (ev_Message e)
    (ev_Metadata e) (ev_CreatedAt e).

Abbreviation MemoryEventRepository := (list Event) (only parsing).

Definition mer_Create (now : Time) (uuid : string) (ev : Event) (r : MemoryEventRepository) :
    option error * MemoryEventRepository :=
  let ev := if decide (ev_ID ev = "") then ev <| ev_ID := uuid |> else ev in
  let ev := if IsZero (ev_CreatedAt ev) then ev <| ev_CreatedAt := now |> else ev in
  (None, r ++ [ev]).

(** The newest events come first. *)
Definition mer_ListByProject (projectID : string) (r : MemoryEventRepository) : list Event :=
  base.filter (λ e, ev_ProjectID e = projectID) (rev r).

Definition mer_ListByDeployment (deploymentID : string) (r : MemoryEventRepository) : list Event :=
  base.filter (λ e, ev_DeploymentID e = deploymentID) (rev r).

Definition mer_ListAll (r : MemoryEventRepository) : list Event := r.

Definition mer_Wipe (r : MemoryEventRepository) : MemoryEventRepository := [].

(** ** The state machine's table *)

(** The statuses from which an edge leaves are the ones in flight and RUNNING. *)
Lemma legal_source from to : legalTransitions from to = true →
  IsInFlight from = true ∨ from = StatusRunning.
Proof. destruct from, to; cbn; auto. Qed.

Inductive lifecycle : DeploymentStatus → DeploymentStatus → Prop :=
| lc_refl s : lifecycle s s
| lc_step s t u : ValidateTransition s t = None → lifecycle t u → lifecycle s u.

Definition progress (s : DeploymentStatus) : nat :=
  match s with
  | StatusQueued => 6 | StatusBuilding => 5 | StatusBuilt => 4 | StatusScheduling => 3
  | StatusStarting => 2 | StatusRunning => 1 | _ => 0
  end.

Lemma legal_progress s t :
  ValidateTransition s t = None → s = t ∨ (progress t < progress s)%nat.
Proof. unfold ValidateTransition. case_decide; [by left|]. destruct s, t; cbn; try done; lia. Qed.

(** Under the transitions that ValidateTransition allows, a deployment's status
    only ever progresses: no status is reached again once left, and FAILED,
    STOPPED and ROLLED_BACK are never left. *)
Theorem lifecycle_progress (s t : DeploymentStatus) :
  lifecycle s t →
  (s = t ∨ (progress t < progress s)%nat)
  ∧ (lifecycle t s → s = t)
  ∧ (s = StatusFailed ∨ s = StatusStopped ∨ s = StatusRolledBack → t = s).
Proof.
  assert (∀ a b, lifecycle a b → a = b ∨ (progress b < progress a)%nat) as Hp.
  { induction 1 as [|a b c H%legal_progress]; [by left|]. destruct H as [->|]; [done|]. right.
    destruct IHlifecycle as [<-|]; lia. }
  intros H. pose proof (Hp _ _ H) as Hst. split; [done|]. split.
  - intros [|]%Hp; [done|]. destruct Hst; [done|lia].
  - intros Hs. destruct Hst as [|Hlt]; [done|]. destruct Hs as [->|[->| ->]]; cbn in Hlt; lia.
Qed.

Lemma lifecycle_progress_witness : StatusQueued = StatusStarting ∨ (progress StatusStarting < progress StatusQueued)%nat.
Proof.
  apply (lifecycle_progress StatusQueued StatusStarting).
  apply (lc_step _ StatusScheduling); [reflexivity|].
  apply (lc_step _ StatusStarting); [reflexivity|apply lc_refl].
Defined.
