(* ===== verification/Fleet.v ===== *)
(** * Worker clients: internal/deployments/service.go, lines 26 to 240

    The messages of the worker's RPC service, the interface of its clients and
    the in-memory fleet [MockWorkerClientFactory]. The real client is gRPC. *)

From stdpp Require Import base option gmap strings list pretty.
From Stdlib Require Import ZArith Lia.
From S2P Require Import Prelude GoLib GoFloat PtrStore Workers.

Record PortMapping := mkPortMapping {
  pm_HostPort : Z;
  pm_ContainerPort : Z;
  pm_Protocol : string
}.

Record RunContainerRequest := mkRunRequest {
  rr_InstanceId : string;
  rr_DeploymentId : string;
  rr_Image : string;
  rr_Env : gmap string string;
  rr_Labels : gmap string string;
  rr_Ports : list PortMapping;
  rr_CpuLimit : float64;
  rr_MemoryLimitMb : Z
}.

Record RunContainerResponse := mkRunResponse {
  rs_InstanceId : string;
  rs_ContainerId : string;
  rs_Status : string;
  rs_Error : string;
  rs_IsDuplicate : bool
}.

Record StopContainerRequest := mkStopRequest {
  sq_InstanceId : string;
  sq_TimeoutSeconds : Z
}.

Record StopContainerResponse := mkStopResponse {
  ss_InstanceId : string;
  ss_Success : bool;
  ss_Error : string
}.

Record ContainerInfo := mkContainerInfo {
  ci_InstanceId : string;
  ci_ContainerId : string;
  ci_Image : string;
  ci_Status : string;
  ci_Labels : gmap string string;
  ci_CreatedAt : Z
}.

#[export] Instance ContainerInfo_eq_dec : EqDecision ContainerInfo.
Proof. solve_decision. Defined.

(** The clients of a fleet: a call goes to the worker it is given, and may
    change the fleet. [wc_GetClient] answers with an error or [nil]. *)
Class WorkerClientFactory (F : Type) := {
  wc_GetClient : Worker → F → option error * F;
  wc_RunContainer : Worker → RunContainerRequest → F → (error + RunContainerResponse) * F;
  wc_StopContainer : Worker → StopContainerRequest → F → (error + StopContainerResponse) * F;
  wc_ListContainers : Worker → F → (error + list ContainerInfo) * F
}.

(** ** MockWorkerClientFactory *)

Record MockWorkerClientFactory := mkMock {
  mk_Dispatched : list RunContainerRequest;
  mk_Stopped : list StopContainerRequest;
  mk_TargetWorker : gmap string string;
  mk_Containers : gmap string (list ContainerInfo);
  mk_FailRun : option error;
  mk_FailStop : option error;
  mk_FailList : option error
}.

#[export] Instance Mock_eta : Settable MockWorkerClientFactory := λ m,
  mkMock (mk_Dispatched m) (mk_Stopped m) (mk_TargetWorker m) (mk_Containers m)
    (mk_FailRun m) (mk_FailStop m) (mk_FailList m).

Definition NewMockWorkerClientFactory : MockWorkerClientFactory :=
  mkMock [] [] ∅ ∅ None None None.

Definition containers_of (k : string) (m : MockWorkerClientFactory) : list ContainerInfo :=
  default [] (mk_Containers m !! k).

(** Removes the container from every list; whether there was one. *)
Definition RemoveContainer (containerID : string) (m : MockWorkerClientFactory) :
    bool * MockWorkerClientFactory :=
  let hit c := bool_decide (ci_ContainerId c = containerID) || bool_decide (ci_InstanceId c = containerID) in
  (existsb (existsb hit) (map_to_list (mk_Containers m)).*2,
   m <| mk_Containers ::= fmap (base.filter (λ c, hit c = false)) |>).

Definition AddContainer (workerKeyOrID : string) (info : ContainerInfo) (m : MockWorkerClientFactory) :
    MockWorkerClientFactory :=
  m <| mk_Containers ::= λ cs, <[workerKeyOrID := containers_of workerKeyOrID m ++ [info]]> cs |>.

Definition mock_RunContainer (w : Worker) (req : RunContainerRequest) (m : MockWorkerClientFactory) :
    (error + RunContainerResponse) * MockWorkerClientFactory :=
  match mk_FailRun m with
  | Some e => (inl e, m)
  | None =>
    let ctrID := "mock-ctr-" +:+ rr_InstanceId req in
    let labels := <["nebula.instance_id" := rr_InstanceId req]> (rr_Labels req) in
    let labels := if decide (rr_DeploymentId req = "") then labels
                  else <["nebula.deployment_id" := rr_DeploymentId req]> labels in
    let updated :=
      base.filter (λ c, ci_InstanceId c ≠ rr_InstanceId req) (containers_of (w_ID w) m)
      ++ [mkContainerInfo (rr_InstanceId req) ctrID (rr_Image req) "running" labels 0] in
    (inr (mkRunResponse (rr_InstanceId req) ctrID "RUNNING" "" false),
     m <| mk_Dispatched ::= λ l, l ++ [req] |>
       <| mk_TargetWorker ::= <[rr_InstanceId req := w_WorkerKey w]> |>
       <| mk_Containers ::= λ cs, <[w_WorkerKey w := updated]> (<[w_ID w := updated]> cs) |>)
  end.

Definition drop_container (id k : string) (m : MockWorkerClientFactory) : MockWorkerClientFactory :=
  m <| mk_Containers ::= <[k := base.filter
         (λ c, ¬ (ci_InstanceId c = id ∨ ci_ContainerId c = id)) (containers_of k m)]> |>.

Definition mock_StopContainer (w : Worker) (req : StopContainerRequest) (m : MockWorkerClientFactory) :
    (error + StopContainerResponse) * MockWorkerClientFactory :=
  match mk_FailStop m with
  | Some e => (inl e, m)
  | None =>
    let m := m <| mk_Stopped ::= λ l, l ++ [req] |> in
    (inr (mkStopResponse (sq_InstanceId req) true ""), drop_container (sq_InstanceId req) (w_WorkerKey w)
                 (drop_container (sq_InstanceId req) (w_ID w) m))
  end.

(** The containers of both lists, the first of each container ID. *)
Fixpoint dedup_containers (seen : list string) (l : list ContainerInfo) : list ContainerInfo :=
  match l with
  | [] => []
  | c :: l' =>
    let id := if decide (ci_ContainerId c = "") then ci_InstanceId c else ci_ContainerId c in
    if decide (id ∈ seen) then dedup_containers seen l'
    else c :: dedup_containers (id :: seen) l'
  end.

Definition mock_ListContainers (w : Worker) (m : MockWorkerClientFactory) :
    (error + list ContainerInfo) * MockWorkerClientFactory :=
  match mk_FailList m with
  | Some e => (inl e, m)
  | None => (inr (dedup_containers [] (containers_of (w_ID w) m ++ containers_of (w_WorkerKey w) m)), m)
  end.

#[export] Instance mock_client_factory : WorkerClientFactory MockWorkerClientFactory := {
  wc_GetClient := λ w m, (None, m);
  wc_RunContainer := mock_RunContainer;
  wc_StopContainer := mock_StopContainer;
  wc_ListContainers := mock_ListContainers
}.
