(* ===== verification/Platform.v ===== *)
(** * The control plane's state

    The deployment service, the crash recovery and the reconciler share the
    repositories, the worker registry, the router and the fleet. [Sys] is that
    state, and this file holds the calls through which they reach it, each
    with its effect on the abstract contents [view]. *)

From stdpp Require Import base option gmap strings list pretty.
From Stdlib Require Import ZArith Lia.
From S2P Require Import Prelude GoLib GoFloat PtrStore Workers Scheduler LoadBalancer HA Deployments Fleet.

(** What is not determined by the state: at the [n]-th draw, the result of
    [uuid.New], of the clock, or the order of a map's iteration. *)
Class Entropy := {
  uuid_at : nat → string;
  now_at : nat → Time;
  order_at : nat → Order
}.

(** [uuid.New] does not repeat and is never empty. *)
Class EntropyLaws `{!Entropy} : Prop := {
  uuid_inj : ∀ m n, uuid_at m = uuid_at n → m = n;
  uuid_nonempty : ∀ n, uuid_at n ≠ ""
}.

Record BuildResult := mkBuildResult {
  br_ImageTag : string;
  br_Digest : string;
  br_ImageData : string;
  br_BuildLog : string;
  br_Ports : list Z
}.

Record SecretStore (X : Type) := mkSecretStore {
  ss_SnapshotForDeployment : string → string → X → option error * X;
  ss_GetSecretsForDeployment : string → X → (error + gmap string string) * X
}.
Arguments ss_SnapshotForDeployment {X} _ _ _ _.
Arguments ss_GetSecretsForDeployment {X} _ _ _.

(** The collaborators behind interfaces, with their own state [X]: the build
    orchestrator, the image registry, the signer, the secret store, the
    redactor, the crash hook of the tests and the free ports of the host.
    [None] is a nil field of the service. *)
Class Externals (X : Type) := {
  x_crashHook : option (DeploymentStatus → X → option error * X);
  x_BuildFromSource : string → string → string → gmap string string → X → (error + BuildResult) * X;
  x_Push : string → string → string → X → (error + string) * X;
  x_GetDigest : string → X → (error + string) * X;
  x_signer : option (string → X → (error + string) * X);
  x_secretStore : option (SecretStore X);
  x_redactor : option (string → X → X);
  x_freePort : X → Z * X
}.

Record Sys (DR IR WR F X : Type) := mkSys {
  s_tick : nat;
  s_deps : DR;
  s_insts : IR;
  s_releases : gmap string Release;
  s_events : list Event;
  s_registry : Registry WR;
  s_router : Router;
  s_elector : option Elector;
  s_fleet : F;
  s_ext : X
}.
Arguments mkSys {DR IR WR F X} _ _ _ _ _ _ _ _ _ _.
Arguments s_tick {DR IR WR F X} _.
Arguments s_deps {DR IR WR F X} _.
Arguments s_insts {DR IR WR F X} _.
Arguments s_releases {DR IR WR F X} _.
Arguments s_events {DR IR WR F X} _.
Arguments s_registry {DR IR WR F X} _.
Arguments s_router {DR IR WR F X} _.
Arguments s_elector {DR IR WR F X} _.
Arguments s_fleet {DR IR WR F X} _.
Arguments s_ext {DR IR WR F X} _.

#[export] Instance Sys_eta DR IR WR F X : Settable (Sys DR IR WR F X) := λ s,
  mkSys (s_tick s) (s_deps s) (s_insts s) (s_releases s) (s_events s) (s_registry s)
    (s_router s) (s_elector s) (s_fleet s) (s_ext s).

Section calls.
Context {DR IR WR F X : Type}.
Context {ent : Entropy} `{!DeploymentRepository DR, !InstanceRepository IR, !WorkerRepository WR}.
Context `{!WorkerClientFactory F, !Externals X} {uni : Unicode} {net : NetURL}.

Abbreviation state := (Sys DR IR WR F X).
Abbreviation M := (ST state).

(** ** Draws *)

Definition draw_uuid : M string := λ s, (uuid_at (s_tick s), s <| s_tick ::= S |>).
Definition draw_now : M Time := λ s, (now_at (s_tick s), s <| s_tick ::= S |>).
Definition draw_order : M Order := λ s, (order_at (s_tick s), s <| s_tick ::= S |>).

(** ** The repositories *)

Definition dep_create (d : Deployment) : M (option error * Deployment) :=
  let! now := draw_now in
  λ s, let '(err, d, r) := dr_Create now d (s_deps s) in ((err, d), s <| s_deps := r |>).

Definition dep_get (id : string) : M (error + Deployment) := gets (λ s, dr_GetByID id (s_deps s)).

Definition dep_status (id : string) (status : DeploymentStatus) (stage : string) : M (option error) :=
  let! now := draw_now in
  λ s, let '(err, r) := dr_UpdateStatus now id status stage (s_deps s) in (err, s <| s_deps := r |>).

Definition dep_image (id image digest : string) : M (option error) :=
  let! now := draw_now in
  λ s, let '(err, r) := dr_UpdateImage now id image digest (s_deps s) in (err, s <| s_deps := r |>).

Definition dep_scale (id : string) (n : Z) : M (option error) :=
  let! now := draw_now in
  λ s, let '(err, r) := dr_UpdateScale now id n (s_deps s) in (err, s <| s_deps := r |>).

Definition dep_list (projectID : string) : M (error + list Deployment) :=
  let! o := draw_order in gets (λ s, dr_List o projectID (s_deps s)).

Definition inst_create (i : Instance_) : M (option error * Instance_) :=
  let! now := draw_now in
  λ s, let '(err, i, r) := ir_Create now i (s_insts s) in ((err, i), s <| s_insts := r |>).

Definition inst_update (i : Instance_) : M (option error * Instance_) :=
  let! now := draw_now in
  λ s, let '(err, i, r) := ir_Update now i (s_insts s) in ((err, i), s <| s_insts := r |>).

Definition inst_get_key (key : string) : M (error + Instance_) :=
  gets (λ s, ir_GetByInstanceKey key (s_insts s)).

Definition inst_list (deploymentID : string) : M (error + list Instance_) :=
  let! o := draw_order in gets (λ s, ir_ListByDeployment o deploymentID (s_insts s)).

Definition inst_get (id : string) : M (error + Instance_) := gets (λ s, ir_GetByID id (s_insts s)).

Definition inst_list_worker (workerID : string) : M (error + list Instance_) :=
  let! o := draw_order in gets (λ s, ir_ListByWorker o workerID (s_insts s)).

Definition inst_list_all : M (error + list Instance_) :=
  let! o := draw_order in gets (λ s, ir_ListAll o (s_insts s)).

Definition release_create (rel : Release) : M (option error) :=
  let! now := draw_now in
  let! uuid := draw_uuid in
  λ s, let '(err, r) := mrr_Create now uuid rel (s_releases s) in (err, s <| s_releases := r |>).

Definition release_list (projectID : string) : M (error + list Release) :=
  let! o := draw_order in gets (λ s, mrr_ListByProject o projectID (s_releases s)).

Definition event_create (ev : Event) : M (option error) :=
  let! now := draw_now in
  let! uuid := draw_uuid in
  λ s, let '(err, r) := mer_Create now uuid ev (s_events s) in (err, s <| s_events := r |>).

(** ** Workers, router and fleet *)

(** The scheduler counts the instances of a deployment with the repository. *)
Definition select_worker (req : WorkloadRequirement) : M (error + Worker) :=
  let! o := draw_order in
  gets (λ s, SelectWorker (NewScheduler (Some (λ id, ir_CountByWorkerForDeployment id (s_insts s))))
               o (s_registry s) req).

Definition worker_get (idOrKey : string) : M (option Worker) := gets (λ s, Get idOrKey (s_registry s)).

Definition worker_load (key : string) (delta : Z) : M unit :=
  modify (λ s, s <| s_registry ::= UpdateWorkload key delta |>).

Definition router_register (projectID instanceID url : string) : M (option error) :=
  λ s, let '(err, r) := RegisterTarget projectID instanceID url (s_router s) in
       (err, s <| s_router := r |>).

Definition router_unregister (projectID instanceID : string) : M unit :=
  modify (λ s, s <| s_router ::= UnregisterTarget projectID instanceID |>).

Definition on_fleet {A} (f : F → A * F) : M A :=
  λ s, let '(a, fl) := f (s_fleet s) in (a, s <| s_fleet := fl |>).

Definition on_ext {A} (f : X → A * X) : M A :=
  λ s, let '(a, x) := f (s_ext s) in (a, s <| s_ext := x |>).

Definition get_client (w : Worker) : M (option error) := on_fleet (wc_GetClient w).
Definition run_container (w : Worker) (req : RunContainerRequest) :
    M (error + RunContainerResponse) := on_fleet (wc_RunContainer w req).
Definition stop_container (w : Worker) (req : StopContainerRequest) : M (error + StopContainerResponse) :=
  on_fleet (wc_StopContainer w req).
Definition list_containers (w : Worker) : M (error + list ContainerInfo) :=
  on_fleet (wc_ListContainers w).

(** [s.crashHook], when it is set. *)
Definition crash (stage : DeploymentStatus) : M (option error) :=
  match x_crashHook with Some hook => on_ext (hook stage) | None => ret None end.

(** The check of the leadership before a mutation. *)
Definition ha_check : M (option error) :=
  let! now := draw_now in
  λ s, match s_elector s with
       | None => (None, s)
       | Some e =>
         let '(r, e) := RecordDecision now e in
         (match r with inl err => Some err | inr _ => None end, s <| s_elector := Some e |>)
       end.

(** secrets/inject.go: the secrets of the deployment over its environment. *)
Definition InjectSecrets (store : SecretStore X) (deploymentID : string)
    (baseEnv : gmap string string) : M (error + gmap string string) :=
  if decide (deploymentID = "") then ret (inr baseEnv)
  else
    let! r := on_ext (ss_GetSecretsForDeployment store deploymentID) in
    match r with
    | inl err => ret (inl ("failed to fetch secrets for deployment " +:+ deploymentID +:+ ": " +:+ err))
    | inr secrets => ret (inr (secrets ∪ baseEnv))
    end.

(** ** Abstract contents *)

Context {entl : EntropyLaws} `{!DeploymentStore DR, !InstanceStore IR, !WorkerRepositoryLaws WR}.

Record View := mkView {
  v_deps : gmap string Deployment;
  v_insts : gmap string Instance_;
  v_registry : Registry WR;
  v_router : Router
}.

Definition view (s : state) : View :=
  mkView (dr_view (s_deps s)) (ir_view (s_insts s)) (s_registry s) (s_router s).

(** Identifiers that are still to be drawn are not in use, and every record is
    under its own identifier. *)
Record sys_ok (s : state) : Prop := {
  ok_insts : ir_ok (s_insts s);
  ok_deps_fresh : ∀ n, (s_tick s ≤ n)%nat → v_deps (view s) !! uuid_at n = None;
  ok_insts_fresh : ∀ n, (s_tick s ≤ n)%nat → v_insts (view s) !! uuid_at n = None;
  ok_dep_keys : ∀ k d, v_deps (view s) !! k = Some d → d_ID d = k;
  ok_inst_keys : ∀ k i, v_insts (view s) !! k = Some i → i_ID i = k;
  ok_registry : reg_inv (rg_store (s_registry s));
  ok_router : router_wf (s_router s)
}.

(** [u] was drawn before. *)
Definition drawn (u : string) (s : state) : Prop := ∃ n, (n < s_tick s)%nat ∧ uuid_at n = u.

(** [after s s' v]: a call took [s] to [s'], whose contents are [v]. *)
Record after (s s' : state) (v : View) : Prop := {
  af_ok : sys_ok s';
  af_view : view s' = v;
  af_tick : (s_tick s ≤ s_tick s')%nat
}.

End calls.
Arguments View WR : clear implicits.
Arguments mkView {WR} _ _ _ _.
Arguments v_deps {WR} _.
Arguments v_insts {WR} _.
Arguments v_registry {WR} _.
Arguments v_router {WR} _.

#[export] Instance View_eta WR : Settable (View WR) := λ v,
  mkView (v_deps v) (v_insts v) (v_registry v) (v_router v).

(** ** The effects of the calls *)

Section effects.
Context {DR IR WR F X : Type}.
Context {ent : Entropy} `{!DeploymentRepository DR, !InstanceRepository IR, !WorkerRepository WR}.
Context `{!WorkerClientFactory F, !Externals X} {uni : Unicode} {net : NetURL}.
Context {entl : EntropyLaws} `{!DeploymentStore DR, !InstanceStore IR, !WorkerRepositoryLaws WR}.
Implicit Types s : Sys DR IR WR F X.

Lemma after_refl s : sys_ok s → after s s (view s).
Proof. by split. Qed.

Lemma after_trans s s1 s2 v v' : after s s1 v → after s1 s2 v' → after s s2 v'.
Proof. intros [] []. split; [done..|lia]. Qed.

Lemma drawn_after u s s' v : drawn u s → after s s' v → drawn u s'.
Proof. intros (n & Hn & <-) [_ _ Ht]. exists n. split; [lia|done]. Qed.

(** A state that differs in the rest only. *)
Lemma after_same s s' :
  sys_ok s → s_deps s' = s_deps s → s_insts s' = s_insts s → s_registry s' = s_registry s →
  s_router s' = s_router s → (s_tick s ≤ s_tick s')%nat → after s s' (view s).
Proof.
  intros [] Hd Hi Hg Hr Ht. split; [|unfold view; congruence|done].
  split; unfold view in *; rewrite ?Hd, ?Hi, ?Hg, ?Hr; try done; cbn in *; intros n Hn.
  - apply ok_deps_fresh0. lia.
  - apply ok_insts_fresh0. lia.
Qed.

Lemma wp_idle {A} (m : ST (Sys DR IR WR F X) A) (Q : A → Sys DR IR WR F X → Prop) s :
  sys_ok s →
  (let s' := (m s).2 in s_deps s' = s_deps s ∧ s_insts s' = s_insts s
    ∧ s_registry s' = s_registry s ∧ s_router s' = s_router s ∧ (s_tick s ≤ s_tick s')%nat) →
  (∀ a s', after s s' (view s) → Q a s') → wp m Q s.
Proof. intros Hok (E1 & E2 & E3 & E4 & E5) HQ. apply HQ. by apply after_same. Qed.

Lemma wp_draw_uuid Q s :
  sys_ok s →
  (∀ u s', after s s' (view s) → drawn u s' → v_deps (view s) !! u = None →
     v_insts (view s) !! u = None → u ≠ "" → Q u s') →
  wp draw_uuid Q s.
Proof.
  intros H HQ. apply HQ.
  - apply after_same; cbn; try done. lia.
  - exists (s_tick s). cbn. split; [lia|done].
  - by apply (ok_deps_fresh _ H).
  - by apply (ok_insts_fresh _ H).
  - apply uuid_nonempty.
Qed.

Lemma after_draw s : sys_ok s → after s (s <| s_tick ::= S |>) (view s).
Proof. intros H. apply after_same; cbn; try done. lia. Qed.

(** A call on the deployment repository. *)
Lemma after_deps s r ds :
  sys_ok s → dr_view r = ds →
  (∀ u, v_deps (view s) !! u = None → ¬ drawn u s → ds !! u = None) →
  (∀ k d, ds !! k = Some d → d_ID d = k) →
  after s (s <| s_deps := r |>) ((view s) <| v_deps := ds |>).
Proof.
  intros [H1 H2 H3 H4 H5 H6 H7] E Hds Hk. split; [|unfold view; cbn; by rewrite E|done].
  split; cbn; rewrite ?E; try done. intros n Hn. apply Hds; [by apply H2|].
  intros (k & Hlt & Hu%uuid_inj). lia.
Qed.

Lemma wp_dep_create d Q s :
  sys_ok s → drawn (d_ID d) s →
  (∀ now s', after s s' ((view s) <| v_deps ::= <[d_ID d := d_stamp now d]> |>) →
     Q (None, d_stamp now d) s') →
  wp (dep_create d) Q s.
Proof.
  intros H Hd HQ. unfold dep_create. apply wp_bind. unfold wp; cbn.
  pose proof (dr_create_spec (now_at (s_tick s)) d (s_deps s)) as [E1 E2].
  destruct (dr_Create _ _ _) as [[err d'] r]. cbn in E1, E2 |- *. simplify_eq.
  apply HQ. eapply after_trans; [by apply after_draw|].
  refine (after_deps (s <| s_tick ::= S |>) r _ _ E2 _ _); [by apply after_draw|..].
  - intros u Hu Hn. rewrite lookup_insert. case_decide; [|done]. subst u. destruct Hn.
    by eapply drawn_after; [|apply after_draw].
  - intros k d'. rewrite lookup_insert. case_decide; [|apply (ok_dep_keys _ H)].
    intros [= <-]. by rewrite (proj1 (d_stamp_frame _ _)).
Qed.

Lemma wp_dep_get id Q s :
  Q (match v_deps (view s) !! id with Some d => inr d | None => inl ErrDeploymentNotFound end) s →
  wp (dep_get id) Q s.
Proof. intros HQ. unfold dep_get, wp. cbn. by rewrite dr_get_spec. Qed.

Lemma alter_fresh {A} (f : A → A) id u (m : gmap string A) : m !! u = None → alter f id m !! u = None.
Proof. intros H. rewrite lookup_alter. case_decide; [subst; by rewrite H|done]. Qed.

Lemma wp_dep_alter (op : Time → DR → option error * DR) (f : Time → Deployment → Deployment) id Q s :
  (∀ now r, dr_view (op now r).2 = alter (f now) id (dr_view r)) →
  (∀ now d, d_ID (f now d) = d_ID d) →
  sys_ok s →
  (∀ err now s', after s s' ((view s) <| v_deps ::= alter (f now) id |>) → Q err s') →
  wp (bind draw_now (λ now s, let '(err, r) := op now (s_deps s) in (err, s <| s_deps := r |>))) Q s.
Proof.
  intros Hop Hid H HQ. apply wp_bind. unfold wp; cbn.
  pose proof (Hop (now_at (s_tick s)) (s_deps s)) as E.
  destruct (op _ _) as [err r]. cbn in *. eapply HQ. eapply after_trans; [by apply after_draw|].
  refine (after_deps (s <| s_tick ::= S |>) r _ _ E _ _); [by apply after_draw|..].
  - intros u Hu _. by apply alter_fresh.
  - intros k d. rewrite lookup_alter. case_decide; [|apply (ok_dep_keys _ H)].
    intros (d' & Hd' & ->)%fmap_Some_1. rewrite Hid. subst k. by apply (ok_dep_keys _ H).
Qed.

Lemma wp_dep_status id st stage Q s :
  sys_ok s →
  (∀ err now s', after s s' ((view s) <| v_deps ::= alter (d_set_status now st stage) id |>) → Q err s') →
  wp (dep_status id st stage) Q s.
Proof.
  apply (wp_dep_alter (λ now, dr_UpdateStatus now id st stage)); intros.
  - apply dr_status_spec.
  - unfold d_set_status. by case_decide.
Qed.

Lemma wp_dep_image id image digest Q s :
  sys_ok s →
  (∀ err now s', after s s' ((view s) <| v_deps ::= alter (d_set_image now image digest) id |>) → Q err s') →
  wp (dep_image id image digest) Q s.
Proof. apply (wp_dep_alter (λ now, dr_UpdateImage now id image digest)); intros; first [done | apply dr_image_spec]. Qed.

Lemma wp_dep_scale id n Q s :
  sys_ok s →
  (∀ err now s', after s s' ((view s) <| v_deps ::= alter (d_set_scale now n) id |>) → Q err s') →
  wp (dep_scale id n) Q s.
Proof. apply (wp_dep_alter (λ now, dr_UpdateScale now id n)); intros; first [done | apply dr_scale_spec]. Qed.

Lemma wp_dep_list p Q s :
  sys_ok s →
  (∀ l s', after s s' (view s) →
     l ≡ₚ base.filter (d_of_project p) (map_to_list (v_deps (view s))).*2 → Q (inr l) s') →
  wp (dep_list p) Q s.
Proof.
  intros H HQ. unfold dep_list. apply wp_bind. unfold wp; cbn.
  destruct (dr_list_spec (order_at (s_tick s)) p (s_deps s)) as (l & -> & Hl).
  apply HQ; [by apply after_draw|done].
Qed.

(** A call on the instance repository. *)
Lemma after_insts s r is_ :
  sys_ok s → ir_view r = is_ → ir_ok r →
  (∀ u, v_insts (view s) !! u = None → ¬ drawn u s → is_ !! u = None) →
  (∀ k i, is_ !! k = Some i → i_ID i = k) →
  after s (s <| s_insts := r |>) ((view s) <| v_insts := is_ |>).
Proof.
  intros [H1 H2 H3 H4 H5 H6 H7] E Hr Hds Hk. split; [|unfold view; cbn; by rewrite E|done].
  split; cbn; rewrite ?E; try done. intros n Hn. apply Hds; [by apply H3|].
  intros (k & Hlt & Hu%uuid_inj). lia.
Qed.

Lemma wp_inst_create i Q s :
  sys_ok s → drawn (i_ID i) s → v_insts (view s) !! i_ID i = None →
  (∀ now s', after s s' ((view s) <| v_insts ::= <[i_ID i := i_stamp now i]> |>) →
     Q (None, i_stamp now i) s') →
  wp (inst_create i) Q s.
Proof.
  intros H Hd Hf HQ. unfold inst_create. apply wp_bind. unfold wp; cbn.
  destruct (ir_create_spec (now_at (s_tick s)) i (s_insts s)) as (E1 & E2 & E3); [apply (ok_insts _ H)|done|].
  destruct (ir_Create _ _ _) as [[err i'] r]. cbn in E1, E2, E3 |- *. simplify_eq.
  apply HQ. eapply after_trans; [by apply after_draw|].
  refine (after_insts (s <| s_tick ::= S |>) r _ _ E2 E3 _ _); [by apply after_draw|..].
  - intros u Hu Hn. rewrite lookup_insert. case_decide; [|done]. subst u. destruct Hn.
    by eapply drawn_after; [|apply after_draw].
  - intros k j. rewrite lookup_insert. case_decide; [|apply (ok_inst_keys _ H)].
    intros [= <-]. by rewrite (proj1 (i_stamp_keys _ _)).
Qed.

Lemma wp_inst_update i j Q s :
  sys_ok s → v_insts (view s) !! i_ID i = Some j →
  (∀ err i' now s', after s s' ((view s) <| v_insts ::= <[i_ID i := i_touch now i]> |>) →
     i' = i ∨ i' = i_touch now i → Q (err, i') s') →
  wp (inst_update i) Q s.
Proof.
  intros H Hi HQ. unfold inst_update. apply wp_bind. unfold wp; cbn.
  destruct (ir_update_spec (now_at (s_tick s)) i (s_insts s)) as (E2 & E3); [apply (ok_insts _ H)|].
  cbn in Hi. rewrite Hi in E2. pose proof (ir_update_result (now_at (s_tick s)) i (s_insts s)) as E4.
  destruct (ir_Update _ _ _) as [[err i'] r]. cbn in E2, E3, E4 |- *.
  eapply HQ; [|done]. eapply after_trans; [by apply after_draw|].
  refine (after_insts (s <| s_tick ::= S |>) r _ _ E2 E3 _ _); [by apply after_draw|..].
  - intros u Hu Hn. rewrite lookup_insert. case_decide; [|done]. subst u. cbn in Hu. congruence.
  - intros k l. rewrite lookup_insert. case_decide; [|apply (ok_inst_keys _ H)]. by intros [= <-].
Qed.

(** An update writes nothing when the repository does not hold the record. *)
Definition put_instance (i : Instance_) (is_ : gmap string Instance_) : gmap string Instance_ :=
  match is_ !! i_ID i with Some _ => <[i_ID i := i]> is_ | None => is_ end.

Lemma wp_inst_update_any i Q s :
  sys_ok s →
  (∀ err i' now s', after s s' ((view s) <| v_insts ::= put_instance (i_touch now i) |>) → Q (err, i') s') →
  wp (inst_update i) Q s.
Proof.
  intros H HQ. destruct (v_insts (view s) !! i_ID i) as [j|] eqn:E.
  - eapply wp_inst_update; [done..|]. intros err i' now s' Ha _. apply (HQ err i' now).
    unfold set_field, put_instance in *. cbn in *. by rewrite E.
  - unfold inst_update. apply wp_bind. unfold wp; cbn.
    destruct (ir_update_spec (now_at (s_tick s)) i (s_insts s)) as (E2 & E3); [apply (ok_insts _ H)|].
    cbn in E. rewrite E in E2.
    destruct (ir_Update _ _ _) as [[err i'] r]. cbn in E2, E3 |- *.
    apply (HQ err i' 0). eapply after_trans; [by apply after_draw|].
    assert ((view s) <| v_insts ::= put_instance (i_touch 0 i) |>
      = (view s) <| v_insts := ir_view (s_insts s) |>) as ->.
    { unfold set_field, put_instance. cbn. by rewrite E. }
    refine (after_insts (s <| s_tick ::= S |>) r _ _ E2 E3 _ _); [by apply after_draw|..].
    + by intros u Hu _.
    + apply (ok_inst_keys _ H).
Qed.

Lemma wp_inst_list d Q s :
  sys_ok s →
  (∀ l s', after s s' (view s) →
     l ≡ₚ base.filter (λ i, i_DeploymentID i = d) (map_to_list (v_insts (view s))).*2 → Q (inr l) s') →
  wp (inst_list d) Q s.
Proof.
  intros H HQ. unfold inst_list. apply wp_bind. unfold wp; cbn.
  destruct (ir_deployment_spec (order_at (s_tick s)) d (s_insts s)) as (l & -> & Hl).
  apply HQ; [by apply after_draw|done].
Qed.

Lemma wp_inst_list_worker w Q s :
  sys_ok s →
  (∀ l s', after s s' (view s) →
     l ≡ₚ base.filter (λ i, i_WorkerID i = w) (map_to_list (v_insts (view s))).*2 → Q (inr l) s') →
  wp (inst_list_worker w) Q s.
Proof.
  intros H HQ. unfold inst_list_worker. apply wp_bind. unfold wp; cbn.
  destruct (ir_worker_spec (order_at (s_tick s)) w (s_insts s)) as (l & -> & Hl).
  apply HQ; [by apply after_draw|done].
Qed.

Lemma wp_inst_get id Q s :
  Q (match v_insts (view s) !! id with Some i => inr i | None => inl ErrInstanceNotFound end) s →
  wp (inst_get id) Q s.
Proof. intros HQ. unfold inst_get, wp. cbn. by rewrite ir_get_spec. Qed.

(** The index leads to the records. *)
Lemma wp_inst_get_key key Q s :
  sys_ok s →
  (∀ r, match r with inr i => v_insts (view s) !! i_ID i = Some i | inl _ => True end → Q r s) →
  wp (inst_get_key key) Q s.
Proof.
  intros H HQ. unfold inst_get_key. apply wp_gets, HQ.
  destruct (ir_GetByInstanceKey key (s_insts s)) eqn:E; [done|]. by eapply ir_key_spec; [apply ok_insts|].
Qed.

Lemma wp_inst_list_all Q s :
  sys_ok s →
  (∀ l s', after s s' (view s) → l ≡ₚ (map_to_list (v_insts (view s))).*2 → Q (inr l) s') →
  wp inst_list_all Q s.
Proof.
  intros H HQ. unfold inst_list_all. apply wp_bind. unfold wp; cbn.
  destruct (ir_all_spec (order_at (s_tick s)) (s_insts s)) as (l & -> & Hl).
  apply HQ; [by apply after_draw|done].
Qed.

(** The registry and the router. *)
Lemma sys_ok_registry s r : sys_ok s → reg_inv (rg_store r) → sys_ok (s <| s_registry := r |>).
Proof. by intros []. Qed.

Lemma wp_worker_load key delta Q s :
  sys_ok s →
  (∀ s', after s s' ((view s) <| v_registry ::= UpdateWorkload key delta |>) → Q tt s') →
  wp (worker_load key delta) Q s.
Proof.
  intros [H1 H2 H3 H4 H5 H6 H7] HQ. apply HQ. split; [|done|done].
  split; try done. by apply reg_inv_UpdateWorkload.
Qed.

Lemma wp_router_unregister p i Q s :
  sys_ok s →
  (∀ s', after s s' ((view s) <| v_router ::= UnregisterTarget p i |>) → Q tt s') →
  wp (router_unregister p i) Q s.
Proof.
  intros [H1 H2 H3 H4 H5 H6 H7] HQ. apply HQ. split; [|done|done].
  split; try done. by apply router_wf_UnregisterTarget.
Qed.

Lemma wp_router_register p i u Q s :
  sys_ok s →
  (∀ err s', after s s' ((view s) <| v_router ::= λ r, (RegisterTarget p i u r).2 |>) → Q err s') →
  wp (router_register p i u) Q s.
Proof.
  intros [H1 H2 H3 H4 H5 H6 H7] HQ. unfold wp, router_register.
  pose proof (router_wf_RegisterTarget (s_router s) p i u H7) as Hw.
  destruct (RegisterTarget p i u (s_router s)) as [err r] eqn:E. cbn in Hw |- *.
  eapply HQ. split; [by split|unfold view; cbn; unfold set_field; cbn; by rewrite E|done].
Qed.

Lemma wp_worker_get x Q s : Q (Get x (v_registry (view s))) s → wp (worker_get x) Q s.
Proof. done. Qed.

Lemma wp_select_worker req Q s :
  sys_ok s →
  (∀ r s', after s s' (view s) →
     match r with
     | inr w => Feasible req w ∧ get_pri (w_WorkerKey w) (rg_store (v_registry (view s))) = Some w
     | inl _ => ∀ k w, get_pri k (rg_store (v_registry (view s))) = Some w → ¬ Feasible req w
     end → Q r s') →
  wp (select_worker req) Q s.
Proof.
  intros H HQ. unfold select_worker. apply wp_bind. unfold wp; cbn. apply HQ; [by apply after_draw|].
  set (sc := NewScheduler _).
  pose proof (SelectWorker_spec sc (order_at (s_tick s)) (s_registry s) req) as Hs.
  destruct (SelectWorker _ _ _ _) as [|w].
  { intros k w Hk. assert (w ∈ List (order_at (s_tick s)) (s_registry s)) as Hw by (apply elem_of_List; by exists k).
    destruct Hs as [[E _]|(_ & Hs & _)]; [|by apply Hs]. rewrite E in Hw. by apply not_elem_of_nil in Hw. }
  destruct Hs as [[k Hk]%elem_of_List Hf].
  split; [done|]. destruct (get_pri_cell _ _ _ Hk) as (l & Hp & Hh).
  by rewrite (ri_key _ (ok_registry _ H) _ _ _ Hp Hh).
Qed.

Lemma wp_on_fleet {A} (f : F → A * F) Q s :
  sys_ok s → (∀ a s', after s s' (view s) → Q a s') → wp (on_fleet f) Q s.
Proof.
  intros H. apply wp_idle; [done|]. unfold on_fleet. by destruct (f (s_fleet s)).
Qed.

Lemma wp_on_ext {A} (f : X → A * X) Q s :
  sys_ok s → (∀ a s', after s s' (view s) → Q a s') → wp (on_ext f) Q s.
Proof. intros H. apply wp_idle; [done|]. unfold on_ext. by destruct (f (s_ext s)). Qed.

Lemma wp_draw_now Q s :
  sys_ok s → (∀ t s', after s s' (view s) → Q t s') → wp draw_now Q s.
Proof. intros H. apply wp_idle; [done|]. cbn. split_and!; [done..|lia]. Qed.

Lemma wp_event_create ev Q s :
  sys_ok s → (∀ err s', after s s' (view s) → Q err s') → wp (event_create ev) Q s.
Proof. intros H. apply wp_idle; [done|]. cbn. split_and!; [done..|lia]. Qed.

Lemma wp_release_create rel Q s :
  sys_ok s → (∀ err s', after s s' (view s) → Q err s') → wp (release_create rel) Q s.
Proof. intros H. apply wp_idle; [done|]. cbn. split_and!; [done..|lia]. Qed.

Lemma wp_ha_check Q s :
  sys_ok s → (∀ err s', after s s' (view s) → Q err s') → wp ha_check Q s.
Proof.
  intros H. apply wp_idle; [done|]. unfold ha_check, bind, draw_now; cbn.
  destruct (s_elector s) as [e|]; [destruct (RecordDecision (now_at (s_tick s)) e)|]; cbn; split_and!; (done || (cbn; lia)).
Qed.

Lemma wp_crash stage Q s :
  sys_ok s → (∀ err s', after s s' (view s) → (x_crashHook (X := X) = None → err = None) → Q err s') →
  wp (crash stage) Q s.
Proof.
  intros H HQ. unfold crash. destruct x_crashHook.
  - apply wp_on_ext; [done|]. intros a s' Ha. by apply HQ.
  - apply wp_ret. apply HQ; [by apply after_refl|done].
Qed.

Lemma wp_InjectSecrets store d env Q s :
  sys_ok s → (∀ r s', after s s' (view s) → Q r s') → wp (InjectSecrets store d env) Q s.
Proof.
  intros H HQ. unfold InjectSecrets. case_decide; [apply wp_ret, HQ; by apply after_refl|].
  apply wp_bind, wp_on_ext; [done|]. intros r s' Ha. destruct r; apply wp_ret; by apply HQ.
Qed.

End effects.

#[global] Arguments view : simpl never.
