(* ===== verification/Service.v ===== *)
(** * The deployment service: internal/deployments/service.go

    The operations that create, stop, roll back and scale deployments, on the
    shared state of Platform.v. A result is the triple of the Go function: the
    deployment or nil, the instances, the error or nil. Logging, tracing and
    metrics do not appear. *)

From stdpp Require Import base option gmap strings list pretty.
From Stdlib Require Import ZArith Lia.
From S2P Require Import Prelude GoLib GoFloat PtrStore Workers Scheduler LoadBalancer HA Deployments Fleet Platform.

Record PortSpec := mkPortSpec {
  ps_HostPort : Z;
  ps_ContainerPort : Z;
  ps_Protocol : string
}.

#[export] Instance PortSpec_eta : Settable PortSpec := λ p,
  mkPortSpec (ps_HostPort p) (ps_ContainerPort p) (ps_Protocol p).

Record CreateDeploymentParams := mkCreateParams {
  cp_ProjectID : string;
  cp_SourcePath : string;
  cp_Image : string;
  cp_InstanceCount : Z;
  cp_Env : gmap string string;
  cp_Labels : gmap string string;
  cp_Ports : list PortSpec
}.

Definition Outcome : Type := option Deployment * list Instance_ * option error.

(** [depID[:8]]. *)
Definition short_id (depID : string) : string := str_take 8 depID.

Definition replicas (n : Z) : Z := if n <=? 0 then 1 else n.

Definition queued_deployment (depID : string) (params : CreateDeploymentParams) : Deployment :=
  mkDeployment depID (cp_ProjectID params) "" (cp_Image params) "" "RUNNING" StatusQueued "QUEUED"
    (replicas (cp_InstanceCount params)) 0 (cp_Env params) (cp_Labels params) 0 0.

Definition pending_instance (instID depID instKey : string) : Instance_ :=
  mkInstance instID depID "" instKey "PENDING" "" 0 0.

(** The record of a deployment after [dep.Status = st; dep.Stage = stage]. *)
Definition at_stage (dep : Deployment) (st : DeploymentStatus) (stage : string) : Deployment :=
  dep <| d_Status := st |> <| d_Stage := stage |>.

Section service.
Context {DR IR WR F X : Type}.
Context {ent : Entropy} `{!DeploymentRepository DR, !InstanceRepository IR, !WorkerRepository WR}.
Context `{!WorkerClientFactory F, !Externals X} {uni : Unicode} {net : NetURL}.

Abbreviation M := (ST (Sys DR IR WR F X)).

Definition unavailable (err : error) : bool := Contains (ToLower err) "unavailable".

(** [depRepo.UpdateStatus] with the error only logged. *)
Definition set_stage (dep : Deployment) (st : DeploymentStatus) (stage : string) : M Deployment :=
  dep_status (d_ID dep) st stage ;; ret (at_stage dep st stage).

(** Lines 458 to 468. *)
Definition snapshot_secrets (projectID depID : string) : M unit :=
  match x_secretStore with
  | Some store =>
    if decide (projectID = "") then ret tt
    else
      on_ext (ss_SnapshotForDeployment store projectID depID) ;;
      let! r := on_ext (ss_GetSecretsForDeployment store depID) in
      match r, x_redactor with
      | inr secs, Some register =>
        let! o := draw_order in
        for_each (map_values o secs) tt (λ val _, on_ext (λ x, (tt, register val x)))
      | _, _ => ret tt
      end
  | None => ret tt
  end.

(** Lines 476 to 541: build, push, and the ports of the build. *)
Definition build_source (params : CreateDeploymentParams) (dep : Deployment) :
    M (Flow (Deployment * list Z) Outcome) :=
  let! dep := set_stage dep StatusBuilding "BUILDING" in
  let! c := crash StatusBuilding in
  match c with
  | Some err => ret (Return (Some dep, [], Some err))
  | None =>
    let imageTag := "nebula/" +:+ cp_ProjectID params +:+ ":" +:+ short_id (d_ID dep) in
    let! r := on_ext (x_BuildFromSource (cp_ProjectID params) (cp_SourcePath params) imageTag (cp_Env params)) in
    match r with
    | inl err =>
      let! dep := set_stage dep StatusFailed "BUILD_FAILED" in
      ret (Return (Some dep, [], Some ("build failed: " +:+ err)))
    | inr res =>
      let! p := on_ext (x_Push (br_ImageTag res) (br_ImageData res) (br_Digest res)) in
      match p with
      | inl err =>
        let failStage := if unavailable err then "REGISTRY_UNAVAILABLE" else "REGISTRY_PUSH_FAILED" in
        let! dep := set_stage dep StatusFailed failStage in
        ret (Return (Some dep, [], Some ("registry push rejected: " +:+ err)))
      | inr verifiedDigest =>
        let dep := dep <| d_Image := br_ImageTag res |> <| d_ImageDigest := verifiedDigest |> in
        dep_image (d_ID dep) (d_Image dep) (d_ImageDigest dep) ;;
        let! dep := set_stage dep StatusBuilt "BUILT" in
        let! c := crash StatusBuilt in
        match c with
        | Some err => ret (Return (Some dep, [], Some err))
        | None => ret (Next (dep, br_Ports res))
        end
      end
    end
  end.

(** Lines 542 to 562: the digest of an image that is not built. *)
Definition resolve_image (params : CreateDeploymentParams) (dep : Deployment) :
    M (Flow (Deployment * list Z) Outcome) :=
  let! r := on_ext (x_GetDigest (cp_Image params)) in
  match r with
  | inl err =>
    if unavailable err then
      let! dep := set_stage dep StatusFailed "REGISTRY_UNAVAILABLE" in
      ret (Return (Some dep, [], Some ("registry unavailable: " +:+ err)))
    else ret (Next (dep, []))
  | inr digest =>
    let dep := dep <| d_ImageDigest := digest |> in
    dep_image (d_ID dep) (d_Image dep) (d_ImageDigest dep) ;;
    ret (Next (dep, []))
  end.

(** Lines 564 to 590: the signature, and the release record. *)
Definition sign_image (dep : Deployment) : M string :=
  match x_signer with
  | Some sign =>
    if decide (d_ImageDigest dep = "") then ret ""
    else
      let! r := on_ext (sign (d_ImageDigest dep)) in
      match r with inr sig => ret sig | inl _ => ret "" end
  | None => ret ""
  end.

Definition record_release (params : CreateDeploymentParams) (dep : Deployment) (signature : string) :
    M unit :=
  if decide (d_Image dep = "") then ret tt
  else
    let! uuid := draw_uuid in
    let! now := draw_now in
    release_create (mkRelease uuid (cp_ProjectID params) (d_ID dep) (short_id (d_ID dep))
      (d_Image dep) (d_ImageDigest dep) signature now) ;;
    ret tt.

(** Lines 643 to 662: the ports to publish. *)
Definition requested_ports (requested : list PortSpec) (buildPorts : list Z) : list PortSpec :=
  let ports := (λ p, if decide (ps_Protocol p = "") then p <| ps_Protocol := "tcp" |> else p) <$> requested in
  match ports with
  | [] => (λ cp, mkPortSpec 0 cp "tcp") <$> buildPorts
  | _ => ports
  end.

Definition assign_ports (ports : list PortSpec) : M (list PortSpec) :=
  for_each ports [] (λ p acc,
    if ps_HostPort p =? 0
    then let! hp := on_ext x_freePort in ret (acc ++ [p <| ps_HostPort := hp |>])
    else ret (acc ++ [p])).

Definition port_mapping (p : PortSpec) : PortMapping :=
  mkPortMapping (int32 (ps_HostPort p)) (int32 (ps_ContainerPort p)) (ps_Protocol p).

(** The environment and the labels of a container. *)
Definition runtime_env (depID : string) (env : gmap string string) : M (gmap string string) :=
  match x_secretStore with
  | Some store =>
    let! r := InjectSecrets store depID env in
    match r with inr injected => ret injected | inl _ => ret env end
  | None => ret env
  end.

Definition run_labels (labels : gmap string string) (digest signature : string) : gmap string string :=
  let l := if decide (digest = "") then labels else <["nebula.image_digest" := digest]> labels in
  if decide (signature = "") then l else <["nebula.signature" := signature]> l.

(** [inst.Status = "FAILED"] with its update, then the deployment's. *)
Definition fail_instance (inst : Instance_) : M unit :=
  inst_update (inst <| i_Status := "FAILED" |>) ;; ret tt.

Definition run_fail_stage (errMsg : error) : string :=
  if Contains (ToLower errMsg) "registry" && Contains (ToLower errMsg) "unavailable"
  then "REGISTRY_UNAVAILABLE" else "FAILED".

(** [err != nil || (runResp != nil && runResp.Error != "")]. *)
Definition run_error (r : error + RunContainerResponse) : option error :=
  match r with
  | inl err => Some err
  | inr resp => if decide (rs_Error resp = "") then None else Some (rs_Error resp)
  end.

Definition app_port (ports : list PortSpec) : Z :=
  match ports with
  | p :: _ => if 0 <? ps_HostPort p then ps_HostPort p else 8080
  | [] => 8080
  end.

Definition host_url (fallback : string) (w : Worker) (port : Z) : string :=
  let host := if decide (w_IPAddress w = "") then fallback else w_IPAddress w in
  "http://" +:+ host +:+ ":" +:+ Itoa port.

(** What a failing turn returns: the deployment as the caller's pointer sees
    it, with the instances created so far. *)
Definition PipelineResult : Type := Deployment * list Instance_ * option error.

Definition fail_pipeline (dep : Deployment) (stage : string) (created : list Instance_) (msg : error) :
    M (Flow (list Instance_) PipelineResult) :=
  let! dep := set_stage dep StatusFailed stage in
  ret (Return (dep, created, Some msg)).

(** Lines 683 to 848: one turn of the dispatch loop. *)
Definition dispatch_instance (dep : Deployment) (containerPorts : list PortSpec) (digest signature : string)
    (i : nat) (created : list Instance_) : M (Flow (list Instance_) PipelineResult) :=
  let depID := d_ID dep in
  let! instID := draw_uuid in
  let instKey := "inst-" +:+ short_id depID +:+ "-" +:+ Itoa (Z.of_nat i) in
  let! ' (cerr, inst) := inst_create (pending_instance instID depID instKey) in
  match cerr with
  | Some err => fail_pipeline dep "FAILED" created ("failed to create instance record: " +:+ err)
  | None =>
  let! sel := select_worker (mkReq depID 1 (d_Labels dep)) in
  match sel with
  | inl err =>
    fail_instance inst ;;
    fail_pipeline dep "SCHEDULING_FAILED" created
      ("scheduler failed for instance " +:+ instKey +:+ ": " +:+ err)
  | inr targetWorker =>
  let! gerr := get_client targetWorker in
  match gerr with
  | Some err =>
    fail_instance inst ;;
    fail_pipeline dep "FAILED" created
      ("failed to connect to worker " +:+ w_WorkerKey targetWorker +:+ ": " +:+ err)
  | None =>
  let! env := runtime_env depID (d_Env dep) in
  let! resp := run_container targetWorker
    (mkRunRequest instKey depID (d_Image dep) env (run_labels (d_Labels dep) digest signature)
      (port_mapping <$> containerPorts) fzero 0) in
  match run_error resp, resp with
  | Some errMsg, _ =>
    fail_instance inst ;;
    fail_pipeline dep (run_fail_stage errMsg) created
      (match resp with
       | inl _ => "worker RunContainer RPC failed: " +:+ errMsg
       | inr _ => "worker RunContainer error: " +:+ errMsg
       end)
  | None, inl _ => ret (Next created)
  | None, inr runResp =>
    let inst := inst <| i_WorkerID := w_ID targetWorker |>
                     <| i_ContainerID := rs_ContainerId runResp |> <| i_Status := "RUNNING" |> in
    let! ' (_, inst) := inst_update inst in
    (if decide (d_ProjectID dep = "") then ret None
     else router_register (d_ProjectID dep) (i_ID inst)
            (host_url "localhost" targetWorker (app_port containerPorts))) ;;
    worker_load (w_WorkerKey targetWorker) 1 ;;
    ret (Next (created ++ [inst]))
  end end end end.

(** Lines 618 to 878. *)
Definition scheduleAndDispatchInstances (dep : Deployment) (requestedPorts : list PortSpec)
    (buildPorts : list Z) (digest signature : string) : M PipelineResult :=
  let! dep := set_stage dep StatusScheduling "SCHEDULING" in
  let! c := crash StatusScheduling in
  match c with
  | Some err => ret (dep, [], Some err)
  | None =>
  let! containerPorts := assign_ports (requested_ports requestedPorts buildPorts) in
  let! dep := set_stage dep StatusStarting "STARTING" in
  let! c := crash StatusStarting in
  match c with
  | Some err => ret (dep, [], Some err)
  | None =>
  let instanceCount := replicas (d_InstanceCount dep) in
  let! f := for_range (seq 0 (Z.to_nat instanceCount)) []
    (dispatch_instance dep containerPorts digest signature) in
  match f with
  | Return r => ret r
  | Next created =>
    let! dep := set_stage dep StatusRunning "RUNNING" in
    event_create (mkEvent "" (d_ProjectID dep) (d_ID dep) "DEPLOYMENT_RUNNING"
      ("Deployment " +:+ short_id (d_ID dep) +:+ " converged to RUNNING with "
       +:+ Itoa (Z.of_nat (length created)) +:+ " instances") [] 0) ;;
    let! c := crash StatusRunning in
    ret (dep, created, c)
  end end end.

(** Lines 403 to 615. *)
Definition CreateAndDeploy (params : CreateDeploymentParams) : M Outcome :=
  if bool_decide (cp_Image params = "") && bool_decide (cp_SourcePath params = "")
  then ret (None, [], Some "either image or source_path must be specified")
  else
  let! h := ha_check in
  match h with
  | Some err => ret (None, [], Some err)
  | None =>
  let! depID := draw_uuid in
  let! ' (cerr, dep) := dep_create (queued_deployment depID params) in
  match cerr with
  | Some err => ret (None, [], Some ("failed to create deployment record: " +:+ err))
  | None =>
  event_create (mkEvent "" (d_ProjectID dep) (d_ID dep) "DEPLOYMENT_QUEUED"
    ("Deployment queued for project " +:+ d_ProjectID dep +:+ " with "
     +:+ Itoa (d_InstanceCount dep) +:+ " desired replicas") [] 0) ;;
  snapshot_secrets (cp_ProjectID params) depID ;;
  let! c := crash StatusQueued in
  match c with
  | Some err => ret (Some dep, [], Some err)
  | None =>
  let! f := (if decide (cp_SourcePath params = "") then resolve_image params dep
             else build_source params dep) in
  match f with
  | Return r => ret r
  | Next (dep, buildPorts) =>
    let! signature := sign_image dep in
    record_release params dep signature ;;
    let! ' (dep, created, err) :=
      scheduleAndDispatchInstances dep (cp_Ports params) buildPorts (d_ImageDigest dep) signature in
    ret (Some dep, created, err)
  end end end end.

(** ** Stopping *)

(** Stops the container of an instance on its worker, when the worker is known
    and reachable; the worker is returned for the caller. *)
Definition stop_on_worker (inst : Instance_) : M (option Worker) :=
  if decide (i_WorkerID inst = "") then ret None
  else
    let! w := worker_get (i_WorkerID inst) in
    match w with
    | None => ret None
    | Some w =>
      let! gerr := get_client w in
      (match gerr with
       | None => stop_container w (mkStopRequest (i_InstanceKey inst) 5) ;; ret tt
       | Some _ => ret tt
       end) ;;
      ret (Some w)
    end.

(** One turn of the loops of [StopDeployment] and [Rollback]. *)
Definition stop_instance (projectID : string) (inst : Instance_) (_ : unit) : M unit :=
  stop_on_worker inst ;;
  inst_update (inst <| i_Status := "STOPPED" |>) ;;
  if decide (projectID = "") then ret tt else router_unregister projectID (i_ID inst).

(** Lines 881 to 922. *)
Definition StopDeployment (depID : string) : M (error + Deployment) :=
  let! r := dep_get depID in
  match r with
  | inl err => ret (inl err)
  | inr dep =>
    let! l := inst_list depID in
    (match l with
     | inr instances => for_each instances tt (stop_instance (d_ProjectID dep))
     | inl _ => ret tt
     end) ;;
    dep_status depID StatusStopped "STOPPED" ;;
    ret (inr ((at_stage dep StatusStopped "STOPPED") <| d_DesiredState := "STOPPED" |>))
  end.

(** ** Rolling back *)

(** Lines 948 to 967: the first release of another deployment that has a
    digest and whose deployment is not known to have failed. *)
Definition release_candidate (dep : Deployment) (rel : Release) (_ : unit) : M (Flow unit Release) :=
  if bool_decide (rl_DeploymentID rel = d_ID dep) || bool_decide (rl_ImageDigest rel = "")
  then ret (Next tt)
  else if decide (rl_DeploymentID rel = "") then ret (Return rel)
  else
    let! cand := dep_get (rl_DeploymentID rel) in
    match cand with
    | inr candDep => if decide (d_Status candDep = StatusFailed) then ret (Next tt) else ret (Return rel)
    | inl _ => ret (Return rel)
    end.

Definition rollback_deployment (newID : string) (dep : Deployment) (rel : Release) : Deployment :=
  mkDeployment newID (d_ProjectID dep) (rl_Version rel) (rl_ImageRef rel) (rl_ImageDigest rel)
    "RUNNING" StatusQueued "QUEUED" (replicas (d_InstanceCount dep)) 0 (d_Env dep) (d_Labels dep) 0 0.

Definition rollback_event (uuid : string) (now : Time) (dep newDep : Deployment) (rel : Release) : Event :=
  mkEvent uuid (d_ProjectID dep) (d_ID dep) "DEPLOYMENT_ROLLED_BACK"
    ("Deployment " +:+ d_ID dep +:+ " rolled back to release " +:+ rl_Version rel
     +:+ " (digest " +:+ rl_ImageDigest rel +:+ ")")
    [("source_deployment_id", MStr (d_ID dep)); ("restored_deployment_id", MStr (d_ID newDep));
     ("target_version", MStr (rl_Version rel)); ("target_image", MStr (rl_ImageRef rel));
     ("target_digest", MStr (rl_ImageDigest rel)); ("previous_release_id", MStr (rl_ID rel))] now.

Definition snapshot_only (projectID depID : string) : M unit :=
  match x_secretStore with
  | Some store =>
    if decide (projectID = "") then ret tt
    else on_ext (ss_SnapshotForDeployment store projectID depID) ;; ret tt
  | None => ret tt
  end.

(** Lines 1009 to 1058: the old instances, the old record and the event. *)
Definition retire_deployment (dep newDep : Deployment) (rel : Release) : M unit :=
  let! l := inst_list (d_ID dep) in
  (match l with
   | inr oldInstances => for_each oldInstances tt (stop_instance (d_ProjectID dep))
   | inl _ => ret tt
   end) ;;
  dep_status (d_ID dep) StatusRolledBack "ROLLED_BACK" ;;
  let! uuid := draw_uuid in
  let! now := draw_now in
  event_create (rollback_event uuid now dep newDep rel) ;;
  ret tt.

(** Lines 928 to 1068. *)
Definition Rollback (depID : string) : M Outcome :=
  let! r := dep_get depID in
  match r with
  | inl err => ret (None, [], Some err)
  | inr dep =>
  if decide (d_Status dep = StatusRolledBack)
  then ret (None, [], Some ("deployment " +:+ depID +:+ " has already been rolled back"))
  else
  let! l := release_list (d_ProjectID dep) in
  match l with
  | inl err => ret (None, [], Some ("failed to list releases for project " +:+ d_ProjectID dep +:+ ": " +:+ err))
  | inr releases =>
  let! found := for_range releases tt (release_candidate dep) in
  match found with
  | Next _ => ret (None, [], Some ("no previous known-good release found for project " +:+ d_ProjectID dep))
  | Return prevRelease =>
  let! rollbackDepID := draw_uuid in
  let! ' (cerr, newDep) := dep_create (rollback_deployment rollbackDepID dep prevRelease) in
  match cerr with
  | Some err => ret (None, [], Some ("failed to persist rollback deployment: " +:+ err))
  | None =>
  snapshot_only (d_ProjectID dep) rollbackDepID ;;
  let! ' (newDep, newInstances, err) :=
    scheduleAndDispatchInstances newDep [] [] (rl_ImageDigest prevRelease) (rl_Signature prevRelease) in
  match err with
  | Some err =>
    ret (Some newDep, [], Some ("failed to schedule and run rollback instances: " +:+ err))
  | None =>
    retire_deployment dep newDep prevRelease ;;
    ret (Some newDep, newInstances, None)
  end end end end end.

(** ** Reading *)

(** Lines 1071 to 1086. *)
Definition GetDeployment (id : string) : M (error + Deployment * list Instance_) :=
  let! r := dep_get id in
  match r with
  | inl err => ret (inl err)
  | inr dep =>
    let! l := inst_list id in
    match l with inl err => ret (inl err) | inr instances => ret (inr (dep, instances)) end
  end.

Definition ListDeployments (projectID : string) : M (error + list Deployment) := dep_list projectID.

(** ** Scaling *)

Definition ErrNoRunningDeployment : error := "no running deployment found for project".

Definition is_active (i : Instance_) : Prop := i_Status i ≠ "STOPPED" ∧ i_Status i ≠ "FAILED".

#[export] Instance is_active_dec i : Decision (is_active i).
Proof. unfold is_active. apply _. Defined.

(** Lines 1144 to 1236: one turn of the scale-up loop. *)
Definition scale_up_one (dep : Deployment) (currentCount : Z) (i : nat) (active : list Instance_) :
    M (Flow (list Instance_) Outcome) :=
  let fail active msg := ret (Return (Some dep, active, Some msg)) in
  let! instID := draw_uuid in
  let! now := draw_now in
  let instKey := "inst-" +:+ short_id (d_ID dep) +:+ "-" +:+ Itoa (currentCount + Z.of_nat i)
    +:+ "-" +:+ Itoa (Z.rem now 10000) in
  let! ' (cerr, inst) := inst_create (pending_instance instID (d_ID dep) instKey) in
  match cerr with
  | Some err => fail active ("failed to create instance record: " +:+ err)
  | None =>
  let! sel := select_worker (mkReq (d_ID dep) 1 (d_Labels dep)) in
  match sel with
  | inl err =>
    fail_instance inst ;; fail active ("scheduler failed to select worker: " +:+ err)
  | inr targetWorker =>
  let! gerr := get_client targetWorker in
  match gerr with
  | Some err =>
    fail_instance inst ;;
    fail active ("failed to connect to worker " +:+ w_WorkerKey targetWorker +:+ ": " +:+ err)
  | None =>
  let! hostPort := on_ext x_freePort in
  let! env := runtime_env (d_ID dep) (d_Env dep) in
  let! resp := run_container targetWorker
    (mkRunRequest instKey (d_ID dep) (d_Image dep) env (run_labels (d_Labels dep) (d_ImageDigest dep) "")
      [mkPortMapping (int32 hostPort) 8080 "tcp"] fzero 0) in
  match run_error resp, resp with
  | Some errMsg, _ =>
    fail_instance inst ;; fail active ("worker RunContainer failed: " +:+ errMsg)
  | None, inl _ => ret (Next active)
  | None, inr runResp =>
    let inst := inst <| i_WorkerID := w_ID targetWorker |>
                     <| i_ContainerID := rs_ContainerId runResp |> <| i_Status := "RUNNING" |> in
    let! ' (_, inst) := inst_update inst in
    (if decide (d_ProjectID dep = "") then ret None
     else router_register (d_ProjectID dep) (i_ID inst) (host_url "127.0.0.1" targetWorker hostPort)) ;;
    worker_load (w_WorkerKey targetWorker) 1 ;;
    ret (Next (active ++ [inst]))
  end end end end.

(** Lines 1245 to 1264: one turn of the scale-down loop. *)
Definition scale_down_one (dep : Deployment) (inst : Instance_) (_ : unit) : M unit :=
  (if decide (d_ProjectID dep = "") then ret tt else router_unregister (d_ProjectID dep) (i_ID inst)) ;;
  let! w := stop_on_worker inst in
  (match w with Some w => worker_load (w_WorkerKey w) (-1) | None => ret tt end) ;;
  inst_update (inst <| i_Status := "STOPPED" |>) ;;
  ret tt.

Definition scale_event (uuid : string) (now1 now2 : Time) (dep : Deployment) (currentCount target : Z) : Event :=
  mkEvent uuid (d_ProjectID dep) (d_ID dep)
    (if currentCount <? target then "SCALE_UP" else "SCALE_DOWN")
    ("Scaled deployment " +:+ d_ID dep +:+ " from " +:+ Itoa currentCount +:+ " to "
     +:+ Itoa target +:+ " replicas")
    [("previous_replicas", MInt currentCount); ("desired_replicas", MInt target); ("timestamp", MTime now1)]
    now2.

Definition with_replicas (dep : Deployment) (n : Z) : Deployment :=
  dep <| d_InstanceCount := n |> <| d_DesiredReplicas := n |>.

(** Lines 1268 to 1305. *)
Definition finish_scale (dep : Deployment) (currentCount target : Z) (active : list Instance_) : M Outcome :=
  dep_scale (d_ID dep) target ;;
  let! uuid := draw_uuid in
  let! now1 := draw_now in
  let! now2 := draw_now in
  event_create (scale_event uuid now1 now2 dep currentCount target) ;;
  ret (Some (with_replicas dep target), active, None).

(** Lines 1113 to 1305: what runs under the project's lock. *)
Definition scale_locked (depID : string) (targetReplicas : Z) : M Outcome :=
  let! r := dep_get depID in
  match r with
  | inl err => ret (None, [], Some err)
  | inr dep =>
  let! l := inst_list depID in
  match l with
  | inl err => ret (None, [], Some ("failed to list instances: " +:+ err))
  | inr allInstances =>
  let active := base.filter is_active allInstances in
  let currentCount := Z.of_nat (length active) in
  if currentCount =? targetReplicas then
    dep_scale (d_ID dep) targetReplicas ;;
    ret (Some (with_replicas dep targetReplicas), active, None)
  else if currentCount <? targetReplicas then
    let! f := for_range (seq 0 (Z.to_nat (targetReplicas - currentCount))) active
      (scale_up_one dep currentCount) in
    match f with
    | Return r => ret r
    | Next active => finish_scale dep currentCount targetReplicas active
    end
  else
    let keep := Z.to_nat targetReplicas in
    for_each (drop keep active) tt (scale_down_one dep) ;;
    finish_scale dep currentCount targetReplicas (take keep active)
  end end.

(** Lines 1096 to 1107: the checks before the lock is taken; [None] goes on. *)
Definition scale_check (depID : string) (targetReplicas : Z) : M (option Outcome) :=
  if targetReplicas <=? 0
  then ret (Some (None, [], Some ("target replica count must be greater than 0, got " +:+ Itoa targetReplicas)))
  else
    let! r := dep_get depID in
    match r with
    | inl err => ret (Some (None, [], Some err))
    | inr dep =>
      if decide (d_Status dep = StatusRunning) then ret None
      else ret (Some (None, [], Some ("cannot scale deployment " +:+ depID +:+ ": status is "
             +:+ status_string (d_Status dep) +:+ " (must be RUNNING)")))
    end.

Definition ScaleDeployment (depID : string) (targetReplicas : Z) : M Outcome :=
  let! c := scale_check depID targetReplicas in
  match c with Some r => ret r | None => scale_locked depID targetReplicas end.

(** Lines 1309 to 1328. *)
Definition ScaleProject (projectID : string) (targetReplicas : Z) : M Outcome :=
  let! l := dep_list projectID in
  match l with
  | inl err => ret (None, [], Some ("failed to list deployments for project " +:+ projectID +:+ ": " +:+ err))
  | inr deps =>
    match base.filter (λ d, d_Status d = StatusRunning) deps with
    | activeDep :: _ => ScaleDeployment (d_ID activeDep) targetReplicas
    | [] => ret (None, [], Some ErrNoRunningDeployment)
    end
  end.

End service.
