(* ===== verification/ServiceFacts.v ===== *)
(** * Correctness of the deployment service

    The frame of every operation on one deployment, and the outcomes of
    [CreateAndDeploy], [StopDeployment], [Rollback] and [ScaleDeployment]. *)

From stdpp Require Import base option gmap strings list pretty.
From Stdlib Require Import ZArith Lia.
From S2P Require Import Prelude GoLib GoFloat PtrStore Workers Scheduler LoadBalancer HA Deployments Fleet Platform Service.

(** ** Frames *)

(** [v'] differs from [v] in the record and the instances of deployment [id],
    and in the targets of project [p], only. *)
Record touches {WR} (id p : string) (v v' : View WR) : Prop := {
  tc_deps : ∀ k, k ≠ id → v_deps v' !! k = v_deps v !! k;
  tc_insts : ∀ k i, i_DeploymentID i ≠ id → v_insts v' !! k = Some i ↔ v_insts v !! k = Some i;
  tc_routes : ∀ q, q ≠ p → routes (v_router v') q = routes (v_router v) q
}.

#[export] Instance touches_preorder {WR} id p : PreOrder (touches (WR := WR) id p).
Proof.
  split; [done|]. intros v1 v2 v3 [A1 A2 A3] [B1 B2 B3]. split.
  - intros k Hk. by rewrite B1, A1.
  - intros k i Hi. by rewrite B2, A2.
  - intros q Hq. by rewrite B3, A3.
Qed.

Definition has_dep {WR} (v : View WR) (id : string) : Prop := is_Some (v_deps v !! id).

(** The stored record has the status and the stage of [dep]. *)
Definition dep_at {WR} (v : View WR) (dep : Deployment) : Prop :=
  ∃ d, v_deps v !! d_ID dep = Some d ∧ d_Status d = d_Status dep ∧ d_Stage d = d_Stage dep.

Lemma dep_at_has {WR} (v : View WR) dep : dep_at v dep → has_dep v (d_ID dep).
Proof. intros (d & E & _). by exists d. Qed.

Lemma d_set_status_at now st stage d :
  stage ≠ "" →
  d_Status (d_set_status now st stage d) = st ∧ d_Stage (d_set_status now st stage d) = stage
  ∧ d_ID (d_set_status now st stage d) = d_ID d.
Proof. intros H. unfold d_set_status. cbn. by rewrite decide_False. Qed.

Lemma touches_deps {WR} id p (v : View WR) f : touches id p v (v <| v_deps ::= alter f id |>).
Proof. split; try done. intros k Hk. cbn. by rewrite lookup_alter_ne. Qed.

Lemma touches_new_inst {WR} id p (v : View WR) k i :
  v_insts v !! k = None → i_DeploymentID i = id →
  touches id p v (v <| v_insts ::= <[k := i]> |>).
Proof.
  intros Hn Hd. split; try done. intros k' j Hj. cbn. rewrite lookup_insert.
  case_decide; [|done]. subst k'. rewrite Hn. split; [naive_solver|done].
Qed.

Lemma touches_update_inst {WR} id p (v : View WR) k i j :
  v_insts v !! k = Some j → i_DeploymentID j = id → i_DeploymentID i = id →
  touches id p v (v <| v_insts ::= <[k := i]> |>).
Proof.
  intros Hj Hd Hi. split; try done. intros k' i' Hi'. cbn. rewrite lookup_insert.
  case_decide; [|done]. subst k'. rewrite Hj. naive_solver.
Qed.

Lemma touches_register `{net : NetURL} {WR} id p (v : View WR) i u :
  touches id p v (v <| v_router ::= λ r, (RegisterTarget p i u r).2 |>).
Proof.
  split; try done. intros q Hq. cbn. destruct (url_Parse (target_url u)) as [e|w] eqn:E.
  - unfold RegisterTarget. by rewrite E.
  - rewrite (routes_RegisterTarget _ _ _ _ w) by done. by rewrite decide_False.
Qed.

Lemma touches_unregister {WR} id p (v : View WR) i :
  touches id p v (v <| v_router ::= UnregisterTarget p i |>).
Proof. split; try done. intros q Hq. cbn. rewrite routes_UnregisterTarget. by rewrite decide_False. Qed.

Lemma touches_load {WR} id p (v : View WR) f : touches id p v (v <| v_registry ::= f |>).
Proof. done. Qed.

(** [within ok v v']: only what belongs to the projects of [ok] differs, which
    is weaker than [touches] and holds of any sequence of operations on them. *)
Record within {WR} (ok : string → Prop) (v v' : View WR) : Prop := {
  wi_deps : ∀ k d, ¬ ok (d_ProjectID d) → v_deps v !! k = Some d → v_deps v' !! k = Some d;
  wi_insts : ∀ k i d, ¬ ok (d_ProjectID d) → v_deps v !! i_DeploymentID i = Some d →
    v_insts v !! k = Some i → v_insts v' !! k = Some i;
  wi_routes : ∀ q, ¬ ok q → routes (v_router v') q = routes (v_router v) q
}.

#[export] Instance within_preorder {WR} ok : PreOrder (within (WR := WR) ok).
Proof.
  split; [done|]. intros v1 v2 v3 [A1 A2 A3] [B1 B2 B3]. split; [by eauto|by eauto|].
  intros q Hq. by rewrite B3, A3.
Qed.

Lemma within_impl {WR} (ok ok' : string → Prop) (v v' : View WR) :
  (∀ p, ok p → ok' p) → within ok v v' → within ok' v v'.
Proof. intros H [A1 A2 A3]. split; naive_solver. Qed.

Lemma touches_within {WR} id p (v v' : View WR) :
  touches id p v v' → (∀ d, v_deps v !! id = Some d → d_ProjectID d = p) → within (eq p) v v'.
Proof.
  intros [A1 A2 A3] Hp. split.
  - intros k d Hd Hk. rewrite A1; [done|]. intros ->. by apply Hd, eq_sym, Hp.
  - intros k i d Hd Hi Hk. apply A2; [|done]. intros E. rewrite E in Hi. by apply Hd, eq_sym, Hp.
  - intros q Hq. apply A3. congruence.
Qed.

Section facts.
Context {DR IR WR F X : Type}.
Context {ent : Entropy} `{!DeploymentRepository DR, !InstanceRepository IR, !WorkerRepository WR}.
Context `{!WorkerClientFactory F, !Externals X} {uni : Unicode} {net : NetURL}.
Context {entl : EntropyLaws} `{!DeploymentStore DR, !InstanceStore IR, !WorkerRepositoryLaws WR}.
Implicit Types s : Sys DR IR WR F X.

(** A part of an operation on deployment [id] of project [p]. *)
Record evolves (id p : string) s s' : Prop := {
  ev_ok : sys_ok s';
  ev_tick : (s_tick s ≤ s_tick s')%nat;
  ev_touches : touches id p (view s) (view s')
}.

Lemma evolves_refl id p s : sys_ok s → evolves id p s s.
Proof. by split. Qed.

Lemma evolves_trans id p s1 s2 s3 : evolves id p s1 s2 → evolves id p s2 s3 → evolves id p s1 s3.
Proof. intros [A1 A2 A3] [B1 B2 B3]. split; [done|lia|by etransitivity]. Qed.

Lemma after_evolves id p s s' v : after s s' v → touches id p (view s) v → evolves id p s s'.
Proof. intros [A1 A2 A3] H. split; [done|done|]. by rewrite A2. Qed.

Lemma after_idle id p s s' : after s s' (view s) → evolves id p s s'.
Proof. intros A. by eapply after_evolves. Qed.

Lemma drawn_evolves id p u s s' : drawn u s → evolves id p s s' → drawn u s'.
Proof. intros (n & Hn & <-) [_ Ht _]. exists n. split; [lia|done]. Qed.

(** [idle m]: the call does not change the contents. *)
Definition idle {A} (m : ST (Sys DR IR WR F X) A) : Prop :=
  ∀ Q s, sys_ok s → (∀ a s', after s s' (view s) → Q a s') → wp m Q s.

Lemma idle_ret {A} (a : A) : idle (ret a).
Proof. intros Q s H HQ. apply wp_ret, HQ. by apply after_refl. Qed.

Lemma idle_bind {A B} (m : ST (Sys DR IR WR F X) A) (k : A → ST (Sys DR IR WR F X) B) :
  idle m → (∀ a, idle (k a)) → idle (bind m k).
Proof.
  intros Hm Hk Q s H HQ. apply wp_bind, Hm; [done|]. intros a s1 A1.
  apply Hk; [apply (af_ok _ _ _ A1)|]. intros b s2 A2. apply HQ.
  rewrite (af_view _ _ _ A1) in A2. by eapply after_trans.
Qed.

Lemma idle_for_each {A B} (l : list A) (b : B) (body : A → B → ST (Sys DR IR WR F X) B) :
  (∀ x b, idle (body x b)) → idle (for_each l b body).
Proof.
  intros H. revert b. induction l as [|x l IH]; intros b; cbn; [apply idle_ret|].
  apply idle_bind; [done|]. intros b'. apply IH.
Qed.

Lemma idle_draw_uuid : idle draw_uuid.
Proof. intros Q s H HQ. apply wp_draw_uuid; eauto. Qed.
Lemma idle_draw_now : idle draw_now.
Proof. intros Q s H HQ. by apply wp_draw_now. Qed.
Lemma idle_draw_order : idle draw_order.
Proof. intros Q s H HQ. apply wp_idle; [done| |done]. cbn. split_and!; [done..|lia]. Qed.
Lemma idle_event ev : idle (event_create ev).
Proof. intros Q s H HQ. by apply wp_event_create. Qed.
Lemma idle_release rel : idle (release_create rel).
Proof. intros Q s H HQ. by apply wp_release_create. Qed.
Lemma idle_release_list p : idle (release_list p).
Proof. intros Q s H HQ. apply wp_idle; [done| |done]. cbn. split_and!; [done..|lia]. Qed.
Lemma idle_on_ext {A} (f : X → A * X) : idle (on_ext f).
Proof. intros Q s H HQ. by apply wp_on_ext. Qed.
Lemma idle_on_fleet {A} (f : F → A * F) : idle (on_fleet f).
Proof. intros Q s H HQ. by apply wp_on_fleet. Qed.
Lemma idle_ha_check : idle ha_check.
Proof. intros Q s H HQ. by apply wp_ha_check. Qed.
Lemma idle_crash st : idle (crash st).
Proof. intros Q s H HQ. apply wp_crash; auto. Qed.
Lemma idle_InjectSecrets store d env : idle (InjectSecrets store d env).
Proof. intros Q s H HQ. by apply wp_InjectSecrets. Qed.
Lemma idle_select_worker req : idle (select_worker req).
Proof. intros Q s H HQ. apply wp_select_worker; auto. Qed.
Lemma idle_worker_get x : idle (worker_get x).
Proof. intros Q s H HQ. apply wp_worker_get, HQ. by apply after_refl. Qed.
Lemma idle_dep_get x : idle (dep_get x).
Proof. intros Q s H HQ. apply wp_dep_get, HQ. by apply after_refl. Qed.

End facts.

#[export] Hint Resolve idle_ret idle_draw_uuid idle_draw_now idle_draw_order idle_event idle_release
  idle_release_list idle_on_ext idle_on_fleet idle_ha_check idle_crash idle_InjectSecrets
  idle_select_worker idle_worker_get idle_dep_get : go.

(** Proves that a computation built from idle calls is idle. *)
Ltac idle_tac :=
  repeat first
    [ solve [eauto with go]
    | lazymatch goal with
      | |- ∀ _, _ => intro
      | |- idle (bind _ _) => apply idle_bind
      | |- idle (for_each _ _ _) => apply idle_for_each
      | |- idle (match ?x with _ => _ end) => destruct x
      end ].

Section parts.
Context {DR IR WR F X : Type}.
Context {ent : Entropy} `{!DeploymentRepository DR, !InstanceRepository IR, !WorkerRepository WR}.
Context `{!WorkerClientFactory F, !Externals X} {uni : Unicode} {net : NetURL}.
Context {entl : EntropyLaws} `{!DeploymentStore DR, !InstanceStore IR, !WorkerRepositoryLaws WR}.
Implicit Types s : Sys DR IR WR F X.

Lemma idle_snapshot_secrets p d : idle (F := F) (snapshot_secrets (DR := DR) (IR := IR) (WR := WR) p d).
Proof. unfold snapshot_secrets. idle_tac. Qed.

Lemma idle_snapshot_only p d : idle (F := F) (snapshot_only (DR := DR) (IR := IR) (WR := WR) p d).
Proof. unfold snapshot_only. idle_tac. Qed.

Lemma idle_sign_image dep : idle (F := F) (sign_image (DR := DR) (IR := IR) (WR := WR) dep).
Proof. unfold sign_image. idle_tac. Qed.

Lemma idle_record_release ps dep sig :
  idle (F := F) (X := X) (record_release (DR := DR) (IR := IR) (WR := WR) ps dep sig).
Proof. unfold record_release. idle_tac. Qed.

Lemma idle_assign_ports ps : idle (F := F) (assign_ports (DR := DR) (IR := IR) (WR := WR) ps).
Proof. unfold assign_ports. idle_tac. Qed.

Lemma idle_runtime_env d env : idle (F := F) (runtime_env (DR := DR) (IR := IR) (WR := WR) d env).
Proof. unfold runtime_env. idle_tac. Qed.

Lemma idle_stop_on_worker i : idle (X := X) (stop_on_worker (DR := DR) (IR := IR) (WR := WR) (F := F) i).
Proof. unfold stop_on_worker, get_client, stop_container. idle_tac. Qed.

End parts.

#[export] Hint Resolve idle_snapshot_secrets idle_snapshot_only idle_sign_image idle_record_release
  idle_assign_ports idle_runtime_env idle_stop_on_worker : go.

(** Runs an idle call: [a] is its result, [s'] the state after it. *)
Tactic Notation "run_idle" "as" ident(a) ident(s') ident(A) :=
  try apply wp_bind;
  lazymatch goal with
  | |- wp ?m _ _ =>
    let H := fresh in
    assert (idle m) as H by idle_tac;
    apply H; clear H; [first [done | eauto using af_ok, ev_ok]|intros a s' A]
  end.

(** ** Starting instances *)

Section pipeline.
Context {DR IR WR F X : Type}.
Context {ent : Entropy} `{!DeploymentRepository DR, !InstanceRepository IR, !WorkerRepository WR}.
Context `{!WorkerClientFactory F, !Externals X} {uni : Unicode} {net : NetURL}.
Context {entl : EntropyLaws} `{!DeploymentStore DR, !InstanceStore IR, !WorkerRepositoryLaws WR}.
Implicit Types s : Sys DR IR WR F X.

(** A status update of an existing deployment, the instances and the router
    untouched. *)
Lemma wp_set_stage p dep st stage Q s :
  sys_ok s → has_dep (view s) (d_ID dep) → stage ≠ "" →
  (∀ s', evolves (d_ID dep) p s s' → dep_at (view s') (at_stage dep st stage) →
     v_insts (view s') = v_insts (view s) → v_router (view s') = v_router (view s) →
     Q (at_stage dep st stage) s') →
  wp (set_stage dep st stage) Q s.
Proof.
  intros H [d Hd] Hst HQ. unfold set_stage. apply wp_bind, wp_dep_status; [done|].
  intros err now s' A. apply wp_ret, HQ.
  - eapply after_evolves; [done|]. apply touches_deps.
  - rewrite (af_view _ _ _ A). destruct (d_set_status_at now st stage d Hst) as (E1 & E2 & _).
    exists (d_set_status now st stage d). cbn. by rewrite lookup_alter_eq, Hd.
  - by rewrite (af_view _ _ _ A).
  - by rewrite (af_view _ _ _ A).
Qed.

(** The stored instance has the status [st], on worker [w]. *)
Definition inst_at (v : View WR) (id depID st : string) : Prop :=
  ∃ i, v_insts v !! id = Some i ∧ i_DeploymentID i = depID ∧ i_Status i = st.

Lemma wp_inst_update_at id p i j Q s :
  sys_ok s → v_insts (view s) !! i_ID i = Some j → i_DeploymentID j = id → i_DeploymentID i = id →
  (∀ err i' now s', evolves id p s s' → i' = i ∨ i' = i_touch now i →
     view s' = (view s) <| v_insts ::= <[i_ID i := i_touch now i]> |> → Q (err, i') s') →
  wp (inst_update i) Q s.
Proof.
  intros H Hj Hd Hi HQ. eapply wp_inst_update; [done..|]. intros err i' now s' A Hi'.
  eapply HQ; [|done|by apply (af_view _ _ _ A)].
  eapply after_evolves; [done|]. by eapply touches_update_inst.
Qed.

Lemma wp_fail_instance p i j Q s :
  sys_ok s → v_insts (view s) !! i_ID i = Some j → i_DeploymentID j = i_DeploymentID i →
  (∀ s', evolves (i_DeploymentID i) p s s' → v_deps (view s') = v_deps (view s) →
     (∀ k, k ≠ i_ID i → v_insts (view s') !! k = v_insts (view s) !! k) →
     v_router (view s') = v_router (view s) →
     inst_at (view s') (i_ID i) (i_DeploymentID i) "FAILED" → Q tt s') →
  wp (fail_instance i) Q s.
Proof.
  intros H Hj Hd HQ. unfold fail_instance. apply wp_bind.
  eapply (wp_inst_update_at (i_DeploymentID i) p); [done..|].
  intros err i' now s' E _ V. apply wp_ret, HQ; rewrite ?V; try done.
  - intros k Hk. cbn. by rewrite lookup_insert_ne.
  - exists (i_touch now (i <| i_Status := "FAILED" |>)). cbn. by rewrite lookup_insert_eq.
Qed.

(** The instances a failing pipeline leaves are not running. *)
Lemma wp_fail_pipeline p dep stage created msg Q s :
  sys_ok s → has_dep (view s) (d_ID dep) → stage ≠ "" →
  (∀ s', evolves (d_ID dep) p s s' → dep_at (view s') (at_stage dep StatusFailed stage) →
     v_insts (view s') = v_insts (view s) →
     Q (Return (at_stage dep StatusFailed stage, created, Some msg)) s') →
  wp (fail_pipeline dep stage created msg) Q s.
Proof.
  intros H Hd Hst HQ. unfold fail_pipeline. apply wp_bind.
  eapply (wp_set_stage p); [done..|]. intros s' E Ha Hi _. apply wp_ret. by apply HQ.
Qed.

(** What one turn of the dispatch loop, or of the scale-up loop, leaves. *)
Definition started (dep : Deployment) s s' (i : Instance_) : Prop :=
  v_insts (view s) !! i_ID i = None ∧ inst_at (view s') (i_ID i) (d_ID dep) "RUNNING"
  ∧ (∀ k, k ≠ i_ID i → v_insts (view s') !! k = v_insts (view s) !! k).

(** The tail of both turns: the instance runs on worker [w]. *)
Lemma wp_start_instance {R} dep w url ctr i j (k : Instance_ → ST (Sys DR IR WR F X) R) Q s :
  sys_ok s → v_insts (view s) !! i_ID i = Some j → i_DeploymentID j = d_ID dep →
  i_DeploymentID i = d_ID dep →
  (∀ i' s', evolves (d_ID dep) (d_ProjectID dep) s s' → v_deps (view s') = v_deps (view s) →
     i_ID i' = i_ID i → i_Status i' = "RUNNING" → i_DeploymentID i' = d_ID dep →
     inst_at (view s') (i_ID i) (d_ID dep) "RUNNING" →
     (∀ k, k ≠ i_ID i → v_insts (view s') !! k = v_insts (view s) !! k) → wp (k i') Q s') →
  wp (let inst := i <| i_WorkerID := w_ID w |> <| i_ContainerID := ctr |> <| i_Status := "RUNNING" |> in
      let! ' (_, inst) := inst_update inst in
      (if decide (d_ProjectID dep = "") then ret None
       else router_register (d_ProjectID dep) (i_ID inst) url) ;;
      worker_load (w_WorkerKey w) 1 ;;
      k inst) Q s.
Proof.
  intros H Hj Hd Hi HQ. cbv zeta. set (i1 := i <| i_WorkerID := _ |> <| i_ContainerID := _ |> <| i_Status := _ |>).
  apply wp_bind. eapply (wp_inst_update_at (d_ID dep) (d_ProjectID dep)); [done..|].
  intros err i' now s1 E1 Hi' V1. apply wp_bind.
  assert (i_ID i' = i_ID i ∧ i_Status i' = "RUNNING" ∧ i_DeploymentID i' = d_ID dep) as (I1 & I2 & I3)
    by (by destruct Hi' as [->| ->]).
  assert (∀ Q', (∀ a s2, evolves (d_ID dep) (d_ProjectID dep) s1 s2 → v_deps (view s2) = v_deps (view s1) →
      v_insts (view s2) = v_insts (view s1) → Q' a s2) →
    wp (if decide (d_ProjectID dep = "") then ret None else router_register (d_ProjectID dep) (i_ID i') url) Q' s1) as Hr.
  { intros Q' HQ'. case_decide.
    - apply wp_ret, HQ'; [|done..]. apply evolves_refl, (ev_ok _ _ _ _ E1).
    - apply wp_router_register; [apply (ev_ok _ _ _ _ E1)|]. intros a s2 A. apply HQ'.
      + eapply after_evolves; [done|]. apply touches_register.
      + by rewrite (af_view _ _ _ A).
      + by rewrite (af_view _ _ _ A). }
  apply Hr. intros _ s2 E2 D2 T2. apply wp_bind, wp_worker_load; [apply (ev_ok _ _ _ _ E2)|].
  intros s3 A3. apply (HQ i'); try done.
  - do 2 (eapply evolves_trans; [done|]). by eapply after_evolves.
  - rewrite (af_view _ _ _ A3). cbn. by rewrite D2, V1.
  - exists (i_touch now i1). rewrite (af_view _ _ _ A3). cbn. rewrite T2, V1. cbn.
    by rewrite lookup_insert_eq.
  - intros k' Hk. rewrite (af_view _ _ _ A3). cbn. rewrite T2, V1. cbn. by rewrite lookup_insert_ne.
Qed.

Lemma run_error_inl (r : error + RunContainerResponse) :
  run_error r = None → ∃ resp, r = inr resp.
Proof. destruct r; [done|]. eauto. Qed.

Lemma run_fail_stage_nonempty e : run_fail_stage e ≠ "".
Proof. unfold run_fail_stage. by case_match. Qed.

Lemma pending_fields u d k now :
  i_ID (i_stamp now (pending_instance u d k)) = u
  ∧ i_DeploymentID (i_stamp now (pending_instance u d k)) = d.
Proof. done. Qed.

Lemma wp_dispatch_instance dep ports digest sig i created Q s :
  sys_ok s → has_dep (view s) (d_ID dep) →
  (∀ inst s', evolves (d_ID dep) (d_ProjectID dep) s s' → v_deps (view s') = v_deps (view s) →
     started dep s s' inst → Q (Next (created ++ [inst])) s') →
  (∀ stage msg s', evolves (d_ID dep) (d_ProjectID dep) s s' →
     dep_at (view s') (at_stage dep StatusFailed stage) →
     (∀ k, v_insts (view s) !! k ≠ None → v_insts (view s') !! k = v_insts (view s) !! k) →
     Q (Return (at_stage dep StatusFailed stage, created, Some msg)) s') →
  wp (dispatch_instance dep ports digest sig i created) Q s.
Proof.
  intros H Hdep HN HR. unfold dispatch_instance. cbv zeta.
  apply wp_bind, wp_draw_uuid; [done|]. intros u s1 A1 Hdr _ Hfr _.
  apply wp_bind, wp_inst_create; [apply (af_ok _ _ _ A1)|done|by rewrite (af_view _ _ _ A1)|]. intros now s2 A2.
  set (inst := i_stamp now _) in *.
  assert (evolves (d_ID dep) (d_ProjectID dep) s s2) as E2.
  { eapply evolves_trans; [by apply after_idle|]. eapply after_evolves; [done|].
    apply touches_new_inst; [|done]. by rewrite (af_view _ _ _ A1). }
  assert (view s2 = (view s) <| v_insts ::= <[u := inst]> |>) as V2
    by by rewrite (af_view _ _ _ A2), (af_view _ _ _ A1).
  assert (∀ s3, after s2 s3 (view s2) → v_insts (view s3) !! i_ID inst = Some inst) as Hin.
  { intros s3 A. rewrite (af_view _ _ _ A), V2. cbn. by rewrite lookup_insert_eq. }
  assert (∀ s3 stage msg, after s2 s3 (view s2) → stage ≠ "" →
    wp (fail_instance inst ;; fail_pipeline dep stage created msg) Q s3) as Hfail.
  { intros s3 stage msg A Hst. apply wp_bind. eapply (wp_fail_instance (d_ProjectID dep)).
    - apply (af_ok _ _ _ A).
    - by apply Hin.
    - done.
    - intros s4 E4 D4 I4 _ _. apply (wp_fail_pipeline (d_ProjectID dep)); [apply (ev_ok _ _ _ _ E4)| |done|].
      + unfold has_dep. rewrite D4, (af_view _ _ _ A), V2. done.
      + intros s5 E5 Ha I5. apply HR; [|done|].
        * eapply evolves_trans; [exact E2|].
          eapply evolves_trans; [by apply after_idle|]. by eapply evolves_trans.
        * intros k Hk. assert (k ≠ u) by congruence.
          rewrite I5, I4, (af_view _ _ _ A), V2 by done. cbn. by rewrite lookup_insert_ne. }
  run_idle as sel s3 A3. destruct sel as [err|w]; [by apply Hfail|].
  unfold get_client. run_idle as gerr s4 A4. rewrite (af_view _ _ _ A3) in A4.
  pose proof (after_trans _ _ _ _ _ A3 A4) as A4'.
  destruct gerr as [err|]; [by apply Hfail|].
  run_idle as env s5 A5. rewrite (af_view _ _ _ A4) in A5. pose proof (after_trans _ _ _ _ _ A4' A5) as A5'.
  unfold run_container. run_idle as resp s6 A6. rewrite (af_view _ _ _ A5) in A6.
  pose proof (after_trans _ _ _ _ _ A5' A6) as A6'.
  destruct (run_error resp) as [e|] eqn:Er; [apply Hfail; [done|apply run_fail_stage_nonempty]|].
  destruct (run_error_inl _ Er) as [r ->].
  eapply wp_start_instance; [apply (af_ok _ _ _ A6)|by apply Hin|done..|].
  intros i' s7 E7 D7 I1 I2 I3 Hrun Hoth. apply wp_ret, HN.
  - eapply evolves_trans; [exact E2|]. eapply evolves_trans; [by apply after_idle|done].
  - by rewrite D7, (af_view _ _ _ A6'), V2.
  - unfold started. rewrite I1. split_and!; [done|done|]. intros k Hk.
    rewrite Hoth, (af_view _ _ _ A6'), V2 by done. cbn. by rewrite lookup_insert_ne.
Qed.

(** The instances [l] run, and are new since [s]. *)
Record launched (depID : string) s s' (l : list Instance_) : Prop := {
  la_running : ∀ i, i ∈ l → inst_at (view s') (i_ID i) depID "RUNNING";
  la_new : ∀ i, i ∈ l → v_insts (view s) !! i_ID i = None;
  la_nodup : NoDup (i_ID <$> l)
}.

Lemma launched_nil d s s' : launched d s s' [].
Proof. split; [set_solver..|constructor]. Qed.

Lemma launched_keep d s s1 s2 l :
  launched d s s1 l →
  (∀ k, v_insts (view s1) !! k ≠ None → v_insts (view s2) !! k = v_insts (view s1) !! k) →
  launched d s s2 l.
Proof.
  intros [H1 H2 H3] Hk. split; [|done..]. intros i Hi. destruct (H1 i Hi) as (j & E & Hj).
  exists j. by rewrite Hk, E by congruence.
Qed.

Lemma launched_snoc dep s s1 s2 l i :
  launched (d_ID dep) s s1 l → started dep s1 s2 i →
  (∀ k, v_insts (view s1) !! k = None → v_insts (view s) !! k = None) →
  launched (d_ID dep) s s2 (l ++ [i]).
Proof.
  intros [H1 H2 H3] (Hn & Hr & Ho) Hm.
  assert (∀ j, j ∈ l → i_ID j ≠ i_ID i) as Hne.
  { intros j Hj E. destruct (H1 j Hj) as (x & Hx & _). congruence. }
  split.
  - intros j [Hj| ->%list_elem_of_singleton]%elem_of_app; [|done].
    destruct (H1 j Hj) as (x & Hx & Hs). exists x. rewrite Ho; [done|]. by apply Hne.
  - intros j [Hj| ->%list_elem_of_singleton]%elem_of_app; auto.
  - rewrite fmap_app, NoDup_app. split_and!; [done| |apply NoDup_singleton].
    intros x (j & -> & Hj)%list_elem_of_fmap. cbn. rewrite list_elem_of_singleton. by apply Hne.
Qed.

(** Evolving never removes an instance of a loop that only starts some. *)
Definition grows s s' : Prop := ∀ k, v_insts (view s') !! k = None → v_insts (view s) !! k = None.

Lemma started_grows dep s s' i : started dep s s' i → grows s s'.
Proof.
  intros (_ & (j & Hj & _) & Ho) k Hk. destruct (decide (k = i_ID i)) as [->|]; [congruence|].
  by rewrite <- Ho.
Qed.

(** The pipeline: what the result and the stored record agree on. *)
Lemma wp_schedule dep requested buildPorts digest sig Q s :
  sys_ok s → has_dep (view s) (d_ID dep) →
  (∀ st stage created err s', evolves (d_ID dep) (d_ProjectID dep) s s' →
     let dep' := at_stage dep st stage in
     dep_at (view s') dep' → launched (d_ID dep) s s' created →
     (err = None → st = StatusRunning) →
     (x_crashHook (X := X) = None → err ≠ None → st = StatusFailed) →
     (st = StatusRunning → length created = Z.to_nat (replicas (d_InstanceCount dep))) →
     Q (dep', created, err) s') →
  wp (scheduleAndDispatchInstances dep requested buildPorts digest sig) Q s.
Proof.
  intros H Hdep HQ. unfold scheduleAndDispatchInstances.
  set (id := d_ID dep) in *. set (p := d_ProjectID dep) in *.
  apply wp_bind, (wp_set_stage p); [done..|]. intros s1 E1 D1 I1 _.
  apply wp_bind, wp_crash; [apply (ev_ok _ _ _ _ E1)|]. intros c1 s2 A2 Hc1.
  assert (evolves id p s s2) as E2 by (eapply evolves_trans; [exact E1|by apply after_idle]).
  destruct c1 as [err|].
  { apply wp_ret, HQ; [done|by rewrite (af_view _ _ _ A2)|apply launched_nil|done| |done].
    intros Hx. by specialize (Hc1 Hx). }
  run_idle as ports s3 A3.
  assert (evolves id p s s3) as E3 by (eapply evolves_trans; [exact E2|by apply after_idle]).
  apply wp_bind, (wp_set_stage p); [apply (ev_ok _ _ _ _ E3)| |done|].
  { rewrite (af_view _ _ _ A3), (af_view _ _ _ A2). apply (dep_at_has _ _ D1). }
  intros s4 E4 D4 I4 _.
  assert (v_insts (view s4) = v_insts (view s)) as I04
    by by rewrite I4, (af_view _ _ _ A3), (af_view _ _ _ A2), I1.
  apply wp_bind, wp_crash; [apply (ev_ok _ _ _ _ E4)|]. intros c2 s5 A5 Hc2.
  assert (evolves id p s s5) as E5.
  { eapply evolves_trans; [exact E3|]. eapply evolves_trans; [exact E4|by apply after_idle]. }
  change (at_stage (at_stage dep StatusScheduling "SCHEDULING") StatusStarting "STARTING")
    with (at_stage dep StatusStarting "STARTING") in *.
  destruct c2 as [err|].
  { apply wp_ret, HQ; [done|by rewrite (af_view _ _ _ A5)|apply launched_nil|done| |done].
    intros Hx. by specialize (Hc2 Hx). }
  set (dep4 := at_stage dep StatusStarting "STARTING") in *.
  apply wp_bind. eapply (wp_for_range (λ l created s', evolves id p s s' ∧ has_dep (view s') id
    ∧ launched id s s' created ∧ grows s s'
    ∧ (length created + length l = Z.to_nat (replicas (d_InstanceCount dep)))%nat)).
  - split_and!; [done| |apply launched_nil| |by rewrite length_seq].
    + rewrite (af_view _ _ _ A5). apply (dep_at_has _ _ D4).
    + intros k. by rewrite (af_view _ _ _ A5), I04.
  - intros i l created s6 _ (E6 & D6 & L6 & G6 & Hlen).
    apply wp_dispatch_instance; [apply (ev_ok _ _ _ _ E6)|done|..].
    + intros inst s7 E7 D7 St. split_and!.
      * by eapply evolves_trans.
      * unfold has_dep. by rewrite D7.
      * by eapply (launched_snoc dep4).
      * intros k Hk. apply G6. by apply (started_grows _ _ _ _ St).
      * rewrite length_app. cbn in *. lia.
    + intros stage msg s7 E7 D7 K7.
      change (at_stage dep4 StatusFailed stage) with (at_stage dep StatusFailed stage) in *.
      apply wp_ret, HQ; [by eapply evolves_trans|done| |done..].
      by eapply launched_keep.
  - intros created s6 (E6 & D6 & L6 & G6 & Hlen).
    apply wp_bind, (wp_set_stage p); [apply (ev_ok _ _ _ _ E6)|done..|]. intros s7 E7 D7 I7 _.
    run_idle as ev s8 A8. apply wp_bind, wp_crash; [apply (af_ok _ _ _ A8)|]. intros c3 s9 A9 Hc3.
    change (at_stage dep4 StatusRunning "RUNNING") with (at_stage dep StatusRunning "RUNNING") in *.
    apply wp_ret, HQ.
    + eapply evolves_trans; [exact E6|]. eapply evolves_trans; [exact E7|].
      eapply evolves_trans; by apply after_idle.
    + by rewrite (af_view _ _ _ A9), (af_view _ _ _ A8).
    + eapply launched_keep; [done|]. intros k _. by rewrite (af_view _ _ _ A9), (af_view _ _ _ A8), I7.
    + done.
    + intros Hx. by rewrite (Hc3 Hx).
    + intros _. cbn in Hlen. lia.
Qed.

(** ** Creating a deployment *)

Definition same_dep (dep dep' : Deployment) : Prop :=
  d_ID dep' = d_ID dep ∧ d_ProjectID dep' = d_ProjectID dep ∧ d_InstanceCount dep' = d_InstanceCount dep.

(** The result of a stage before the pipeline: it goes on with the record, or
    returns a record that failed or that the crash hook stopped. *)
Definition stage_result (dep : Deployment) (f : Flow (Deployment * list Z) Outcome) s s' : Prop :=
  evolves (d_ID dep) (d_ProjectID dep) s s' ∧ v_insts (view s') = v_insts (view s)
  ∧ match f with
    | Next (dep', _) => same_dep dep dep' ∧ has_dep (view s') (d_ID dep)
    | Return (od, created, err) => ∃ dep', od = Some dep' ∧ same_dep dep dep' ∧ created = []
        ∧ err ≠ None ∧ dep_at (view s') dep' ∧ d_Status dep' ≠ StatusRunning
        ∧ (x_crashHook (X := X) = None → d_Status dep' = StatusFailed)
    end.

Lemma wp_dep_image_evolves p id image digest Q s :
  sys_ok s → has_dep (view s) id →
  (∀ err s', evolves id p s s' → has_dep (view s') id → v_insts (view s') = v_insts (view s) → Q err s') →
  wp (dep_image id image digest) Q s.
Proof.
  intros H [d Hd] HQ. apply wp_dep_image; [done|]. intros err now s' A. apply HQ.
  - eapply after_evolves; [done|]. apply touches_deps.
  - rewrite (af_view _ _ _ A). unfold has_dep. cbn. rewrite lookup_alter_eq, Hd. eauto.
  - by rewrite (af_view _ _ _ A).
Qed.

(** A stage fails with a status update, then returns. *)
Lemma wp_stage_fail dep dep1 stage msg s0 s :
  evolves (d_ID dep) (d_ProjectID dep) s0 s → v_insts (view s) = v_insts (view s0) →
  has_dep (view s) (d_ID dep) → same_dep dep dep1 → stage ≠ "" →
  wp (let! d := set_stage dep1 StatusFailed stage in ret (Return (Some d, [], Some msg)))
    (λ f s', stage_result dep f s0 s') s.
Proof.
  intros E I Hd (S1 & S2 & S3) Hst. apply wp_bind, (wp_set_stage (d_ProjectID dep));
    [apply (ev_ok _ _ _ _ E)|by rewrite S1|done|].
  intros s' E' D' I' _. rewrite S1 in E'. apply wp_ret. split; [by eapply evolves_trans|].
  split; [by rewrite I'|]. eexists. by split_and!.
Qed.

Lemma wp_resolve_image params dep s :
  sys_ok s → has_dep (view s) (d_ID dep) →
  wp (resolve_image params dep) (λ f s', stage_result dep f s s') s.
Proof.
  intros H Hd. unfold resolve_image. run_idle as r s1 A1.
  assert (evolves (d_ID dep) (d_ProjectID dep) s s1) as E1 by by apply after_idle.
  destruct r as [err|digest].
  - case_match.
    + apply wp_stage_fail; try done; by rewrite (af_view _ _ _ A1).
    + apply wp_ret. split_and!; try done; by rewrite (af_view _ _ _ A1).
  - apply wp_bind, (wp_dep_image_evolves (d_ProjectID dep)); [apply (af_ok _ _ _ A1)|by rewrite (af_view _ _ _ A1)|].
    intros err s2 E2 D2 I2. apply wp_ret. split_and!; try done; [by eapply evolves_trans|].
    by rewrite I2, (af_view _ _ _ A1).
Qed.

Lemma wp_build_source params dep s :
  sys_ok s → has_dep (view s) (d_ID dep) →
  wp (build_source params dep) (λ f s', stage_result dep f s s') s.
Proof.
  intros H Hd. unfold build_source. set (id := d_ID dep) in *. set (p := d_ProjectID dep) in *.
  apply wp_bind, (wp_set_stage p); [done..|]. intros s1 E1 D1 I1 _.
  apply wp_bind, wp_crash; [apply (ev_ok _ _ _ _ E1)|]. intros c s2 A2 Hc.
  assert (evolves id p s s2) as E2 by (eapply evolves_trans; [exact E1|by apply after_idle]).
  assert (v_insts (view s2) = v_insts (view s)) as I2 by by rewrite (af_view _ _ _ A2).
  destruct c as [err|].
  { apply wp_ret. split_and!; try done. eexists. split_and!; try done; [by rewrite (af_view _ _ _ A2)|].
    intros Hx. by specialize (Hc Hx). }
  run_idle as r s3 A3.
  assert (evolves id p s s3) as E3 by (eapply evolves_trans; [exact E2|by apply after_idle]).
  assert (v_insts (view s3) = v_insts (view s)) as I3 by by rewrite (af_view _ _ _ A3).
  assert (has_dep (view s3) id) as D3.
  { rewrite (af_view _ _ _ A3), (af_view _ _ _ A2). apply (dep_at_has _ _ D1). }
  destruct r as [err|res]; [by apply wp_stage_fail|].
  run_idle as q s4 A4.
  assert (evolves id p s s4) as E4 by (eapply evolves_trans; [exact E3|by apply after_idle]).
  assert (v_insts (view s4) = v_insts (view s)) as I4 by by rewrite (af_view _ _ _ A4).
  assert (has_dep (view s4) id) as D4 by by rewrite (af_view _ _ _ A4).
  destruct q as [err|digest]; [apply wp_stage_fail; try done; by case_match|].
  apply wp_bind, (wp_dep_image_evolves p); [apply (af_ok _ _ _ A4)|done|]. intros err s5 E5 D5 I5.
  apply wp_bind, (wp_set_stage p); [apply (ev_ok _ _ _ _ E5)|done..|]. intros s6 E6 D6 I6 _.
  apply wp_bind, wp_crash; [apply (ev_ok _ _ _ _ E6)|]. intros c2 s7 A7 Hc2.
  assert (evolves id p s s7) as E7.
  { eapply evolves_trans; [exact E4|]. eapply evolves_trans; [exact E5|].
    eapply evolves_trans; [exact E6|by apply after_idle]. }
  assert (v_insts (view s7) = v_insts (view s)) as I7 by by rewrite (af_view _ _ _ A7), I6, I5.
  destruct c2 as [e|]; apply wp_ret; split_and!; try done.
  - eexists. split_and!; try done; [by rewrite (af_view _ _ _ A7)|]. intros Hx. by specialize (Hc2 Hx).
  - rewrite (af_view _ _ _ A7). apply (dep_at_has _ _ D6).
Qed.

Lemma replicas_idem n : replicas (replicas n) = replicas n.
Proof.
  unfold replicas. destruct (Z.leb_spec n 0); [done|]. by destruct (Z.leb_spec n 0); [lia|].
Qed.

(** What [CreateAndDeploy] promises. *)
Definition create_post (params : CreateDeploymentParams) s (r : Outcome) s' : Prop :=
  let '(od, created, err) := r in
  sys_ok s' ∧
  match od with
  | None => created = [] ∧ err ≠ None ∧ view s' = view s
  | Some dep =>
    v_deps (view s) !! d_ID dep = None
    ∧ touches (d_ID dep) (cp_ProjectID params) (view s) (view s')
    ∧ dep_at (view s') dep ∧ launched (d_ID dep) s s' created
    ∧ (err = None → d_Status dep = StatusRunning)
    ∧ (x_crashHook (X := X) = None → err ≠ None → d_Status dep = StatusFailed)
    ∧ (d_Status dep = StatusRunning → length created = Z.to_nat (replicas (cp_InstanceCount params)))
  end.

Lemma wp_CreateAndDeploy params s :
  sys_ok s → wp (CreateAndDeploy params) (create_post params s) s.
Proof.
  intros H. unfold CreateAndDeploy. destruct (_ && _); [by apply wp_ret|].
  run_idle as h s1 A1. destruct h as [err|].
  { apply wp_ret. split_and!; [apply (af_ok _ _ _ A1)|done|done|apply (af_view _ _ _ A1)]. }
  apply wp_bind, wp_draw_uuid; [apply (af_ok _ _ _ A1)|]. intros u s2 A2 Hdr Hfr _ _.
  rewrite (af_view _ _ _ A1) in A2, Hfr.
  apply wp_bind, wp_dep_create; [apply (af_ok _ _ _ A2)|done|]. intros now s3 A3.
  rewrite (af_view _ _ _ A2) in A3. cbv beta iota.
  set (dep := d_stamp now (queued_deployment u params)) in *.
  assert (d_ID dep = u ∧ d_ProjectID dep = cp_ProjectID params
    ∧ d_InstanceCount dep = replicas (cp_InstanceCount params) ∧ d_Status dep = StatusQueued
    ∧ d_Stage dep = "QUEUED") as (Did & Dp & Dn & Dst & Dsg) by done.
  assert (evolves u (cp_ProjectID params) s s3) as E3.
  { eapply after_evolves; [eapply after_trans; [exact A1|eapply after_trans; [exact A2|exact A3]]|].
    split; try done. intros k Hk. cbn. by rewrite lookup_insert_ne. }
  assert (dep_at (view s3) dep) as D3.
  { exists dep. rewrite (af_view _ _ _ A3). cbn. by rewrite lookup_insert_eq. }
  assert (v_insts (view s3) = v_insts (view s)) as I3 by by rewrite (af_view _ _ _ A3).
  clearbody dep. run_idle as e s4 A4. run_idle as e' s5 A5. rewrite (af_view _ _ _ A4) in A5.
  apply wp_bind, wp_crash; [apply (af_ok _ _ _ A5)|]. intros c s6 A6 Hc.
  rewrite (af_view _ _ _ A5) in A6.
  assert (after s3 s6 (view s3)) as A36 by (eapply after_trans; [|exact A6]; by eapply after_trans).
  assert (evolves u (cp_ProjectID params) s s6) as E6 by (eapply evolves_trans; [exact E3|by apply after_idle]).
  destruct c as [err|].
  { apply wp_ret. split; [apply (af_ok _ _ _ A6)|]. rewrite Did. split_and!; try done.
    - apply (ev_touches _ _ _ _ E6).
    - by rewrite (af_view _ _ _ A6).
    - apply launched_nil.
    - intros Hx. by specialize (Hc Hx).
    - by rewrite Dst. }
  apply wp_bind. eapply (wp_wand _ (λ f s', stage_result dep f s6 s')).
  { destruct (decide (cp_SourcePath params = "")); [apply wp_resolve_image|apply wp_build_source]; try apply (af_ok _ _ _ A6);
      rewrite (af_view _ _ _ A6); apply (dep_at_has _ _ D3). }
  intros f s7 (E7 & I7 & Hf). rewrite Did, Dp in E7. rewrite (af_view _ _ _ A6), I3 in I7.
  assert (evolves u (cp_ProjectID params) s s7) as E07 by by eapply evolves_trans.
  destruct f as [[dep7 ports]|[[od created] err]].
  - destruct Hf as ((S1 & S2 & S3) & D7). rewrite Did in S1, D7. rewrite Dp in S2. rewrite Dn in S3.
    run_idle as sig s8 A8. run_idle as e'' s9 A9. rewrite (af_view _ _ _ A8) in A9.
    apply wp_bind, wp_schedule; [apply (af_ok _ _ _ A9)|by rewrite S1, (af_view _ _ _ A9)|].
    intros st stage created err s10 E10 dep' D10 L10 Herr Hfail Hlen. apply wp_ret.
    assert (evolves u (cp_ProjectID params) s s10) as E010.
    { eapply evolves_trans; [exact E07|]. rewrite S1, S2 in E10.
      eapply evolves_trans; [by apply after_idle|]. eapply evolves_trans; [|exact E10].
      rewrite <- (af_view _ _ _ A8) in A9. by apply after_idle. }
    unfold create_post. change (d_ID dep') with (d_ID dep7). rewrite S1. split_and!; try done.
    + apply (ev_ok _ _ _ _ E010).
    + apply (ev_touches _ _ _ _ E010).
    + rewrite S1 in L10. destruct L10 as [L1 L2 L3]. split; [done| |done].
      intros i Hi. specialize (L2 i Hi). by rewrite (af_view _ _ _ A9), I7 in L2.
    + rewrite <- replicas_idem, <- S3. done.
  - destruct Hf as (dep7 & -> & (S1 & S2 & S3) & -> & Herr & D7 & Hnr & Hfail). rewrite Did in S1.
    apply wp_ret. unfold create_post. rewrite S1. split_and!; try done.
    + apply (ev_ok _ _ _ _ E07).
    + apply (ev_touches _ _ _ _ E07).
    + apply launched_nil.
    + auto.
Qed.

End pipeline.
