(* ===== verification/Lifecycle.v ===== *)
(** * Stopping, rolling back and scaling

    What [StopDeployment], [Rollback] and [ScaleDeployment] promise, on the
    specifications of ServiceFacts.v. *)

From stdpp Require Import base option gmap strings list pretty.
From Stdlib Require Import ZArith Lia.
From S2P Require Import Prelude GoLib GoFloat PtrStore Workers Scheduler LoadBalancer HA Deployments Fleet Platform Service ServiceFacts.

Section lifecycle.
Context {DR IR WR F X : Type}.
Context {ent : Entropy} `{!DeploymentRepository DR, !InstanceRepository IR, !WorkerRepository WR}.
Context `{!WorkerClientFactory F, !Externals X} {uni : Unicode} {net : NetURL}.
Context {entl : EntropyLaws} `{!DeploymentStore DR, !InstanceStore IR, !WorkerRepositoryLaws WR}.
Implicit Types s : Sys DR IR WR F X.

(** ** Stopping instances *)

(** The stored instance [k] is stopped and has no target in project [p]. *)
Definition stopped_at (v : View WR) (depID p k : string) : Prop :=
  inst_at v k depID "STOPPED" ∧ (p ≠ "" → no_target p k (v_router v)).

(** [l] is a list of instances of [depID] as they are stored. *)
Record stored (depID : string) (l : list Instance_) (v : View WR) : Prop := {
  st_lookup : ∀ i, i ∈ l → v_insts v !! i_ID i = Some i ∧ i_DeploymentID i = depID;
  st_nodup : NoDup (i_ID <$> l)
}.

Lemma stored_cons d i l v :
  stored d (i :: l) v →
  v_insts v !! i_ID i = Some i ∧ i_DeploymentID i = d ∧ stored d l v ∧ i_ID i ∉ i_ID <$> l.
Proof.
  intros [H1 H2]. rewrite fmap_cons, NoDup_cons in H2. destruct H2 as [H2 H3].
  destruct (H1 i) as [? ?]; [left|]. split_and!; try done. split; [|done]. intros j Hj. apply H1. by right.
Qed.

Lemma stored_sublist d l l' v : stored d l v → l' `sublist_of` l → stored d l' v.
Proof.
  intros [H1 H2] Hs. split.
  - intros i Hi. apply H1. by eapply elem_of_sublist.
  - eapply sublist_NoDup; [exact H2|]. by apply fmap_sublist.
Qed.

Lemma stored_frame d l v v' :
  stored d l v → (∀ k, k ∈ i_ID <$> l → v_insts v' !! k = v_insts v !! k) → stored d l v'.
Proof.
  intros [H1 H2] Hk. split; [|done]. intros i Hi. rewrite Hk; [by apply H1|].
  by apply (list_elem_of_fmap_2 i_ID).
Qed.

(** What stopping the instances [ks] leaves. *)
Record stopping (d p : string) (ks : list string) s s' : Prop := {
  sp_evolves : evolves d p s s';
  sp_deps : v_deps (view s') = v_deps (view s);
  sp_stopped : ∀ k, k ∈ ks → stopped_at (view s') d p k;
  sp_others : ∀ k, k ∉ ks → v_insts (view s') !! k = v_insts (view s) !! k;
  sp_unrouted : ∀ k, no_target p k (v_router (view s)) → no_target p k (v_router (view s'))
}.

Lemma stopping_nil d p s : sys_ok s → stopping d p [] s s.
Proof. intros H. split; [by apply evolves_refl|done|set_solver|done|done]. Qed.

Lemma stopping_cons d p k ks s s1 s2 :
  stopping d p [k] s s1 → stopping d p ks s1 s2 → k ∉ ks → stopping d p (k :: ks) s s2.
Proof.
  intros [A1 A2 A3 A4 A5] [B1 B2 B3 B4 B5] Hk. split.
  - by eapply evolves_trans.
  - by rewrite B2.
  - intros j [->|Hj]%elem_of_cons; [|by apply B3].
    destruct (A3 k) as [(i & Hi & Hs) Hn]; [set_solver|]. split; [exists i; by rewrite B4|auto].
  - intros j [Hj1 Hj2]%not_elem_of_cons. rewrite B4, A4; [done|set_solver|done].
  - auto.
Qed.

Lemma wp_stop_instance d p i u Q s :
  sys_ok s → v_insts (view s) !! i_ID i = Some i → i_DeploymentID i = d →
  (∀ s', stopping d p [i_ID i] s s' → Q tt s') →
  wp (stop_instance p i u) Q s.
Proof.
  intros H Hi Hd HQ. unfold stop_instance. run_idle as w s1 A1. apply wp_bind.
  eapply (wp_inst_update_at d p); [apply (af_ok _ _ _ A1)|by rewrite (af_view _ _ _ A1)|done..|].
  intros err i' now s2 E2 _ V2. rewrite (af_view _ _ _ A1) in V2.
  assert (inst_at (view s2) (i_ID i) d "STOPPED") as Hst.
  { exists (i_touch now (i <| i_Status := "STOPPED" |>)). rewrite V2. cbn. by rewrite lookup_insert_eq. }
  assert (∀ k, k ∉ [i_ID i] → v_insts (view s2) !! k = v_insts (view s) !! k) as Hoth.
  { intros k Hk. rewrite V2. cbn. rewrite lookup_insert_ne; [done|set_solver]. }
  assert (evolves d p s s2) as E02 by (eapply evolves_trans; [by apply after_idle|done]).
  destruct (decide (p = "")) as [Hp|Hp].
  - apply wp_ret, HQ. split; [done|by rewrite V2| |done|by rewrite V2].
    intros k ->%list_elem_of_singleton. split; [done|]. intros; done.
  - apply wp_router_unregister; [apply (ev_ok _ _ _ _ E2)|]. intros s3 A3. apply HQ.
    pose proof (af_view _ _ _ A3) as V3. split.
    + eapply evolves_trans; [done|]. eapply after_evolves; [done|]. apply touches_unregister.
    + by rewrite V3, V2.
    + intros k ->%list_elem_of_singleton. rewrite V3. split; [done|]. intros _. cbn. unfold no_target.
      rewrite routes_UnregisterTarget, decide_True by done. apply lookup_delete_eq.
    + intros k Hk. rewrite V3. by apply Hoth.
    + intros k Hk. rewrite V3, V2. by apply no_target_UnregisterTarget.
Qed.

Lemma wp_stop_all d p l Q s :
  sys_ok s → stored d l (view s) → (∀ s', stopping d p (i_ID <$> l) s s' → Q tt s') →
  wp (for_each l tt (stop_instance p)) Q s.
Proof.
  revert s. induction l as [|i l IH]; intros s H Hst HQ; cbn [for_each].
  { apply wp_ret, HQ. by apply stopping_nil. }
  apply stored_cons in Hst as (Hi & Hd & Hst & Hn).
  apply wp_bind, (wp_stop_instance d); [done..|]. intros s1 S1.
  apply IH; [apply (ev_ok _ _ _ _ (sp_evolves _ _ _ _ _ S1))| |].
  - eapply stored_frame; [done|]. intros k Hk. apply (sp_others _ _ _ _ _ S1). set_solver.
  - intros s2 S2. apply HQ. by eapply stopping_cons.
Qed.

(** The instances a repository lists are stored. *)
Lemma listed_stored s d l :
  sys_ok s → l ≡ₚ base.filter (λ i, i_DeploymentID i = d) (map_to_list (v_insts (view s))).*2 →
  stored d l (view s) ∧ ∀ k i, v_insts (view s) !! k = Some i → i_DeploymentID i = d → k ∈ i_ID <$> l.
Proof.
  intros H Hl. assert (∀ i, i ∈ l ↔ i_DeploymentID i = d ∧ ∃ k, v_insts (view s) !! k = Some i) as Hel.
  { intros i. rewrite Hl, list_elem_of_filter, list_elem_of_fmap. split.
    - intros (? & [k j] & -> & Hm%elem_of_map_to_list). eauto.
    - intros (? & k & Hk). split; [done|]. exists (k, i). by rewrite elem_of_map_to_list. }
  split; [split|].
  - intros i (Hd & k & Hk)%Hel. split; [|done]. by rewrite (ok_inst_keys _ H _ _ Hk).
  - rewrite Hl. apply NoDup_fmap_2_strong; [|apply NoDup_filter, NoDup_fmap_2_strong; [|apply NoDup_map_to_list]].
    + intros i j Hi Hj E. rewrite <- Hl in Hi, Hj. apply Hel in Hi as (_ & k1 & H1), Hj as (_ & k2 & H2).
      pose proof (ok_inst_keys _ H _ _ H1). pose proof (ok_inst_keys _ H _ _ H2). congruence.
    + intros [k1 i1] [k2 i2] H1%elem_of_map_to_list H2%elem_of_map_to_list E. cbn in E.
      pose proof (ok_inst_keys _ H _ _ H1). pose proof (ok_inst_keys _ H _ _ H2). congruence.
  - intros k i Hk Hd. rewrite <- (ok_inst_keys _ H _ _ Hk). apply (list_elem_of_fmap_2 i_ID), Hel. eauto.
Qed.

(** Every instance of the deployment is stopped and out of the router. *)
Definition all_stopped (v : View WR) (d p : string) : Prop :=
  ∀ k i, v_insts v !! k = Some i → i_DeploymentID i = d →
    i_Status i = "STOPPED" ∧ (p ≠ "" → no_target p k (v_router v)).

Lemma stopping_all d p l s s' :
  stopping d p (i_ID <$> l) s s' →
  (∀ k i, v_insts (view s) !! k = Some i → i_DeploymentID i = d → k ∈ i_ID <$> l) →
  all_stopped (view s') d p.
Proof.
  intros S Hall k i Hk Hd. destruct (decide (k ∈ i_ID <$> l)) as [Hin|Hin].
  - destruct (sp_stopped _ _ _ _ _ S k Hin) as [(j & Hj & _ & Hs) Hn]. split; [congruence|done].
  - rewrite (sp_others _ _ _ _ _ S) in Hk by done. by destruct (Hin (Hall k i Hk Hd)).
Qed.

Lemma wp_StopDeployment depID s :
  sys_ok s →
  wp (StopDeployment depID) (λ r s',
    match r with
    | inl err => sys_ok s' ∧ view s' = view s ∧ v_deps (view s) !! depID = None
    | inr dep' => ∃ dep, v_deps (view s) !! depID = Some dep
        ∧ evolves depID (d_ProjectID dep) s s'
        ∧ d_Status dep' = StatusStopped ∧ d_ID dep' = depID ∧ dep_at (view s') dep'
        ∧ all_stopped (view s') depID (d_ProjectID dep)
    end) s.
Proof.
  intros H. unfold StopDeployment. apply wp_bind, wp_dep_get.
  destruct (v_deps (view s) !! depID) as [dep|] eqn:Ed; [|by apply wp_ret].
  pose proof (ok_dep_keys _ H _ _ Ed) as Hid.
  apply wp_bind, wp_inst_list; [done|]. intros l s1 A1 Hl.
  destruct (listed_stored s depID l H Hl) as [Hst Hall].
  apply wp_bind. apply (wp_stop_all depID); [apply (af_ok _ _ _ A1)|by rewrite (af_view _ _ _ A1)|].
  intros s2 S2. pose proof (sp_evolves _ _ _ _ _ S2) as E2.
  apply wp_bind, wp_dep_status; [apply (ev_ok _ _ _ _ E2)|]. intros err now s3 A3. apply wp_ret.
  exists dep. split; [done|]. split; [|split; [done|split; [done|split]]].
  - eapply evolves_trans; [by apply after_idle|]. eapply evolves_trans; [done|].
    eapply after_evolves; [done|]. apply touches_deps.
  - destruct (d_set_status_at now StatusStopped "STOPPED" dep) as (E1 & E2' & _); [done|].
    exists (d_set_status now StatusStopped "STOPPED" dep). rewrite (af_view _ _ _ A3). cbn. rewrite Hid.
    by rewrite lookup_alter_eq, (sp_deps _ _ _ _ _ S2), (af_view _ _ _ A1), Ed.
  - pose proof (stopping_all _ _ _ _ _ S2) as Hs. rewrite (af_view _ _ _ A1) in Hs.
    specialize (Hs Hall). intros k i. rewrite (af_view _ _ _ A3). apply Hs.
Qed.

(** ** Rolling back *)

(** A release that a rollback of [dep] may restore. *)
Definition good_release s (dep : Deployment) (rel : Release) : Prop :=
  (∃ k, s_releases s !! k = Some rel) ∧ rl_ProjectID rel = d_ProjectID dep
  ∧ rl_DeploymentID rel ≠ d_ID dep ∧ rl_ImageDigest rel ≠ ""
  ∧ (rl_DeploymentID rel ≠ "" → ∀ c, v_deps (view s) !! rl_DeploymentID rel = Some c →
       d_Status c ≠ StatusFailed).

Lemma wp_release_candidate dep rel u s (Q : Flow unit Release → Sys DR IR WR F X → Prop) :
  Q (Next tt) s →
  (rl_DeploymentID rel ≠ d_ID dep → rl_ImageDigest rel ≠ "" →
   (rl_DeploymentID rel ≠ "" → ∀ c, v_deps (view s) !! rl_DeploymentID rel = Some c →
      d_Status c ≠ StatusFailed) → Q (Return rel) s) →
  wp (release_candidate dep rel u) Q s.
Proof.
  intros HN HR. unfold release_candidate. destruct (bool_decide (rl_DeploymentID rel = d_ID dep)) eqn:E1;
    [by apply wp_ret|].
  destruct (bool_decide (rl_ImageDigest rel = "")) eqn:E2; [by apply wp_ret|]. cbn [orb].
  apply bool_decide_eq_false in E1, E2.
  destruct (decide (rl_DeploymentID rel = "")); [apply wp_ret, HR; done|].
  apply wp_bind, wp_dep_get. destruct (v_deps (view s) !! rl_DeploymentID rel) as [c|] eqn:Ec.
  - destruct (decide (d_Status c = StatusFailed)); [by apply wp_ret|].
    apply wp_ret, HR; [done..|]. intros _ c' Hc'. congruence.
  - apply wp_ret, HR; [done..|]. by intros _ c' Hc'.
Qed.

Lemma launched_touches d id p s s1 s2 l :
  launched d s s1 l → d ≠ id → touches id p (view s1) (view s2) → launched d s s2 l.
Proof.
  intros [H1 H2 H3] Hne Ht. split; [|done..]. intros i Hi. destruct (H1 i Hi) as (j & Hj & Hd & Hs).
  exists j. split; [|done]. apply (tc_insts _ _ _ _ Ht); [congruence|done].
Qed.

Lemma dep_at_touches id p dep s1 s2 :
  dep_at (view s1) dep → d_ID dep ≠ id → touches id p (view s1) (view s2) → dep_at (view s2) dep.
Proof. intros (d & Hd & H) Hne Ht. exists d. by rewrite (tc_deps _ _ _ _ Ht). Qed.

(** The old deployment after a successful rollback. *)
Lemma wp_retire dep newDep rel (Q : unit → Sys DR IR WR F X → Prop) s :
  sys_ok s → v_deps (view s) !! d_ID dep ≠ None →
  (∀ s', evolves (d_ID dep) (d_ProjectID dep) s s' →
     (∃ d, v_deps (view s') !! d_ID dep = Some d ∧ d_Status d = StatusRolledBack) →
     all_stopped (view s') (d_ID dep) (d_ProjectID dep) → Q tt s') →
  wp (retire_deployment dep newDep rel) Q s.
Proof.
  intros H Hd HQ. unfold retire_deployment.
  apply wp_bind, wp_inst_list; [done|]. intros l s1 A1 Hl.
  destruct (listed_stored s (d_ID dep) l H Hl) as [Hst Hall].
  apply wp_bind, (wp_stop_all (d_ID dep)); [apply (af_ok _ _ _ A1)|by rewrite (af_view _ _ _ A1)|].
  intros s2 S2. pose proof (sp_evolves _ _ _ _ _ S2) as E2.
  apply wp_bind, wp_dep_status; [apply (ev_ok _ _ _ _ E2)|]. intros err now s3 A3.
  run_idle as uuid s4 A4. run_idle as now' s5 A5. run_idle as err' s6 A6. apply wp_ret.
  rewrite (af_view _ _ _ A4) in A5. rewrite (af_view _ _ _ A5) in A6.
  assert (after s3 s6 (view s3)) as A36 by (eapply after_trans; [|exact A6]; by eapply after_trans).
  destruct (v_deps (view s) !! d_ID dep) as [d|] eqn:Ed; [|done].
  apply HQ.
  - eapply evolves_trans; [by apply after_idle|]. eapply evolves_trans; [done|].
    eapply evolves_trans; [|by apply after_idle]. eapply after_evolves; [done|]. apply touches_deps.
  - exists (d_set_status now StatusRolledBack "ROLLED_BACK" d). split; [|done].
    rewrite (af_view _ _ _ A36), (af_view _ _ _ A3). cbn.
    by rewrite lookup_alter_eq, (sp_deps _ _ _ _ _ S2), (af_view _ _ _ A1), Ed.
  - pose proof (stopping_all _ _ _ _ _ S2) as Hs. rewrite (af_view _ _ _ A1) in Hs.
    specialize (Hs Hall). intros k i. rewrite (af_view _ _ _ A36), (af_view _ _ _ A3). apply Hs.
Qed.

Definition rollback_post (depID : string) s (r : Outcome) s' : Prop :=
  let '(od, created, err) := r in
  sys_ok s' ∧
  match od with
  | None => created = [] ∧ err ≠ None ∧ view s' = view s
  | Some newDep => ∃ dep rel,
      v_deps (view s) !! depID = Some dep ∧ d_Status dep ≠ StatusRolledBack
      ∧ within (eq (d_ProjectID dep)) (view s) (view s')
      ∧ good_release s dep rel ∧ d_ImageDigest newDep = rl_ImageDigest rel
      ∧ v_deps (view s) !! d_ID newDep = None ∧ dep_at (view s') newDep
      ∧ match err with
        | Some _ => created = [] ∧ touches (d_ID newDep) (d_ProjectID dep) (view s) (view s')
        | None =>
          d_Status newDep = StatusRunning ∧ launched (d_ID newDep) s s' created
          ∧ length created = Z.to_nat (replicas (d_InstanceCount dep))
          ∧ (∃ d, v_deps (view s') !! depID = Some d ∧ d_Status d = StatusRolledBack)
          ∧ all_stopped (view s') depID (d_ProjectID dep)
          ∧ (∀ k, k ≠ depID → k ≠ d_ID newDep → v_deps (view s') !! k = v_deps (view s) !! k)
        end
  end.

Lemma wp_Rollback depID s : sys_ok s → wp (Rollback depID) (rollback_post depID s) s.
Proof.
  intros H. unfold Rollback. apply wp_bind, wp_dep_get.
  destruct (v_deps (view s) !! depID) as [dep|] eqn:Ed; [|by apply wp_ret; split].
  pose proof (ok_dep_keys _ H _ _ Ed) as Hid.
  destruct (decide (d_Status dep = StatusRolledBack)); [by apply wp_ret; split|].
  apply wp_bind. unfold release_list. apply wp_bind. unfold wp at 1; cbn [draw_order fst snd].
  set (s1 := s <| s_tick ::= S |>). assert (after s s1 (view s)) as A1 by by apply after_draw.
  apply wp_gets. unfold mrr_ListByProject. set (l := base.filter _ _).
  apply wp_bind. eapply (wp_for_range (λ _ (_ : unit) s', s' = s1)); [done|..].
  2: { intros b s' ->. apply wp_ret. split_and!; [apply (af_ok _ _ _ A1)|done|done|apply (af_view _ _ _ A1)]. }
  intros rel l' b s' Hrel ->. apply wp_release_candidate; [done|]. intros Hne Hdig Hfail.
  rewrite (af_view _ _ _ A1) in Hfail.
  assert (good_release s dep rel) as Hgood.
  { apply list_elem_of_filter in Hrel as [Hp [k Hk]%elem_of_map_values].
    split_and!; try done. exists k. done. }
  apply wp_bind, wp_draw_uuid; [apply (af_ok _ _ _ A1)|]. intros u s2 A2 Hdr Hfr _ _.
  rewrite (af_view _ _ _ A1) in A2, Hfr.
  apply wp_bind, wp_dep_create; [apply (af_ok _ _ _ A2)|done|]. intros now s3 A3.
  rewrite (af_view _ _ _ A2) in A3. cbv beta iota.
  set (newDep := d_stamp now (rollback_deployment u dep rel)) in *.
  assert (d_ID newDep = u ∧ d_ProjectID newDep = d_ProjectID dep ∧ d_ImageDigest newDep = rl_ImageDigest rel
    ∧ d_InstanceCount newDep = replicas (d_InstanceCount dep)) as (Nid & Np & Nd & Nn) by done.
  assert (evolves u (d_ProjectID dep) s s3) as E3.
  { eapply after_evolves; [eapply after_trans; [exact A1|eapply after_trans; [exact A2|exact A3]]|].
    split; try done. intros k Hk. cbn. by rewrite lookup_insert_ne. }
  assert (has_dep (view s3) u) as D3.
  { exists newDep. rewrite (af_view _ _ _ A3). cbn. by rewrite lookup_insert_eq. }
  assert (v_insts (view s3) = v_insts (view s)) as I3 by by rewrite (af_view _ _ _ A3).
  clearbody newDep. run_idle as e s4 A4.
  apply wp_bind, wp_schedule; [apply (af_ok _ _ _ A4)|by rewrite (af_view _ _ _ A4), Nid|].
  rewrite Nid, Np. intros st stage created err s5 E5 dep' D5 L5 Herr _ Hlen.
  assert (evolves u (d_ProjectID dep) s s5) as E05.
  { eapply evolves_trans; [exact E3|]. eapply evolves_trans; [by apply after_idle|done]. }
  assert (launched u s s5 created) as L05.
  { destruct L5 as [L1 L2 L3]. split; [done| |done]. intros i Hi. specialize (L2 i Hi).
    by rewrite (af_view _ _ _ A4), I3 in L2. }
  assert (within (eq (d_ProjectID dep)) (view s) (view s5)) as W05.
  { eapply touches_within; [apply (ev_touches _ _ _ _ E05)|]. by rewrite Hfr. }
  destruct err as [err|].
  { apply wp_ret.
    split; [apply (ev_ok _ _ _ _ E05)|]. exists dep, rel. change (d_ID dep') with (d_ID newDep). rewrite Nid.
    split_and!; try done. all: by first [apply (ev_touches _ _ _ _ E05)|apply W05]. }
  assert (u ≠ depID) as Hu by congruence.
  apply wp_bind, wp_retire; [apply (ev_ok _ _ _ _ E05)|..].
  { rewrite Hid, (tc_deps _ _ _ _ (ev_touches _ _ _ _ E05)), Ed by done. done. }
  rewrite Hid. intros s6 E6 D6 S6. pose proof (ev_touches _ _ _ _ E6) as T6. apply wp_ret.
  split; [apply (ev_ok _ _ _ _ E6)|].
  exists dep, rel. change (d_ID dep') with (d_ID newDep). rewrite Nid. split_and!; try done.
  - etransitivity; [done|]. eapply touches_within; [done|].
    rewrite (tc_deps _ _ _ _ (ev_touches _ _ _ _ E05)), Ed by done. by intros d [= <-].
  - eapply dep_at_touches; [done| |done]. change (d_ID dep') with (d_ID newDep). by rewrite Nid.
  - by apply Herr.
  - by eapply launched_touches.
  - rewrite Hlen, Nn, replicas_idem by auto. done.
  - intros k Hk1 Hk2. rewrite (tc_deps _ _ _ _ T6) by done.
    by apply (tc_deps _ _ _ _ (ev_touches _ _ _ _ E05)).
Qed.

End lifecycle.
