(* ===== verification/Scaling.v ===== *)
(** * Scaling a deployment

    [ScaleDeployment] reaches the requested number of active instances or,
    when it fails on the way up, keeps what it started and never overshoots. *)

From stdpp Require Import base option gmap strings list pretty.
From Stdlib Require Import ZArith Lia.
From S2P Require Import Prelude GoLib GoFloat PtrStore Workers Scheduler LoadBalancer HA Deployments Fleet Platform Service ServiceFacts Lifecycle.

(** ** Counting active instances *)

Definition counted (d : string) (kv : string * Instance_) : Prop :=
  i_DeploymentID kv.2 = d ∧ is_active kv.2.

#[export] Instance counted_dec d kv : Decision (counted d kv).
Proof. unfold counted. apply _. Defined.

Definition active_count {WR} (v : View WR) (d : string) : nat := size (base.filter (counted d) (v_insts v)).

Lemma active_count_list {WR} (v : View WR) d l :
  l ≡ₚ base.filter (λ i, i_DeploymentID i = d) (map_to_list (v_insts v)).*2 →
  length (base.filter is_active l) = active_count v d.
Proof.
  intros Hl. unfold active_count. rewrite <- length_map_to_list, map_filter_alt.
  rewrite map_to_list_to_map.
  2: { apply NoDup_fmap_fst.
       - intros k x y [_ Hx%elem_of_map_to_list]%list_elem_of_filter [_ Hy%elem_of_map_to_list]%list_elem_of_filter.
         congruence.
       - apply NoDup_filter, NoDup_map_to_list. }
  assert (length (base.filter is_active l)
    = length (base.filter is_active (base.filter (λ i, i_DeploymentID i = d) (map_to_list (v_insts v)).*2))) as ->
    by by rewrite Hl.
  generalize (map_to_list (v_insts v)) as m. intros m. clear.
  induction m as [|[k i] m IH]; [done|]. cbn [fmap list_fmap]. rewrite !filter_cons. cbn [snd].
  destruct (decide (i_DeploymentID i = d)) as [Hd|Hd].
  - rewrite filter_cons. destruct (decide (is_active i)) as [Ha|Ha].
    + rewrite decide_True by by split. cbn. by rewrite <- IH.
    + rewrite decide_False by (intros [_ ?]; done). done.
  - rewrite decide_False by (intros [? _]; done). done.
Qed.

Lemma active_count_eq {WR} (v v' : View WR) d :
  v_insts v' = v_insts v → active_count v' d = active_count v d.
Proof. unfold active_count. by intros ->. Qed.

(** A new instance counts when it is active. *)
Lemma active_count_new {WR} (v v' : View WR) d k i :
  v_insts v !! k = None → v_insts v' !! k = Some i → i_DeploymentID i = d →
  (∀ j, j ≠ k → v_insts v' !! j = v_insts v !! j) →
  active_count v' d = if decide (is_active i) then S (active_count v d) else active_count v d.
Proof.
  intros Hn Hk Hd Ho. unfold active_count.
  assert (v_insts v' = <[k := i]> (v_insts v)) as ->.
  { apply map_eq. intros j. rewrite lookup_insert. case_decide; [by subst|by apply Ho]. }
  rewrite map_filter_insert. unfold counted at 1; cbn.
  destruct (decide (is_active i)) as [Ha|Ha].
  - rewrite decide_True by done. rewrite map_size_insert_None; [done|].
    rewrite map_lookup_filter_None. by left.
  - rewrite decide_False by (by intros [_ ?]). by rewrite delete_id.
Qed.

(** An active instance that is not active any more. *)
Lemma active_count_stop {WR} (v v' : View WR) d k i j :
  v_insts v !! k = Some i → i_DeploymentID i = d → is_active i →
  v_insts v' !! k = Some j → ¬ is_active j →
  (∀ q, q ≠ k → v_insts v' !! q = v_insts v !! q) →
  active_count v d = S (active_count v' d).
Proof.
  intros Hi Hd Ha Hj Hna Ho. unfold active_count.
  assert (v_insts v' = <[k := j]> (v_insts v)) as ->.
  { apply map_eq. intros q. rewrite lookup_insert. case_decide; [by subst|by apply Ho]. }
  rewrite map_filter_insert_False by (by intros [_ ?]). rewrite map_filter_delete, map_size_delete.
  assert (base.filter (counted d) (v_insts v) !! k = Some i) as Hl by (by apply map_lookup_filter_Some).
  rewrite Hl. destruct (size (base.filter (counted d) (v_insts v))) eqn:E; [|done].
  apply map_size_empty_inv in E. by rewrite E in Hl.
Qed.

Section scaling.
Context {DR IR WR F X : Type}.
Context {ent : Entropy} `{!DeploymentRepository DR, !InstanceRepository IR, !WorkerRepository WR}.
Context `{!WorkerClientFactory F, !Externals X} {uni : Unicode} {net : NetURL}.
Context {entl : EntropyLaws} `{!DeploymentStore DR, !InstanceStore IR, !WorkerRepositoryLaws WR}.
Implicit Types s : Sys DR IR WR F X.

Lemma started_count dep s s' i :
  started dep s s' i → active_count (view s') (d_ID dep) = S (active_count (view s) (d_ID dep)).
Proof.
  intros (Hn & (j & Hj & Hd & Hs) & Ho). rewrite (active_count_new _ _ _ _ _ Hn Hj Hd Ho).
  rewrite decide_True; [done|]. unfold is_active. rewrite Hs. done.
Qed.

Lemma wp_scale_up_one dep cc i active Q s :
  sys_ok s →
  (∀ inst s', evolves (d_ID dep) (d_ProjectID dep) s s' → v_deps (view s') = v_deps (view s) →
     started dep s s' inst → Q (Next (active ++ [inst])) s') →
  (∀ msg s', evolves (d_ID dep) (d_ProjectID dep) s s' → v_deps (view s') = v_deps (view s) →
     active_count (view s') (d_ID dep) = active_count (view s) (d_ID dep) →
     Q (Return (Some dep, active, Some msg)) s') →
  wp (scale_up_one dep cc i active) Q s.
Proof.
  intros H HN HR. unfold scale_up_one. cbv zeta.
  apply wp_bind, wp_draw_uuid; [done|]. intros u s0 A0 Hdr _ Hfr _.
  run_idle as now0 s1 A1. rewrite (af_view _ _ _ A0) in A1.
  pose proof (after_trans _ _ _ _ _ A0 A1) as A01.
  apply wp_bind, wp_inst_create; [apply (af_ok _ _ _ A1)|by eapply drawn_after|by rewrite (af_view _ _ _ A01)|]. intros now s2 A2.
  set (inst := i_stamp now _) in *.
  assert (view s2 = (view s) <| v_insts ::= <[u := inst]> |>) as V2
    by by rewrite (af_view _ _ _ A2), (af_view _ _ _ A01).
  assert (evolves (d_ID dep) (d_ProjectID dep) s s2) as E2.
  { eapply evolves_trans; [by apply after_idle|]. eapply after_evolves; [done|].
    apply touches_new_inst; [|done]. by rewrite (af_view _ _ _ A01). }
  assert (∀ s3, after s2 s3 (view s2) → v_insts (view s3) !! i_ID inst = Some inst) as Hin.
  { intros s3 A. rewrite (af_view _ _ _ A), V2. cbn. by rewrite lookup_insert_eq. }
  assert (∀ s3 msg, after s2 s3 (view s2) →
    wp (fail_instance inst ;; ret (Return (Some dep, active, Some msg))) Q s3) as Hfail.
  { intros s3 msg A. apply wp_bind. eapply (wp_fail_instance (d_ProjectID dep)).
    - apply (af_ok _ _ _ A).
    - by apply Hin.
    - done.
    - intros s4 E4 D4 I4 _ (j & Hj & Hd & Hs). apply wp_ret, HR.
      + eapply evolves_trans; [exact E2|]. eapply evolves_trans; [by apply after_idle|done].
      + by rewrite D4, (af_view _ _ _ A), V2.
      + rewrite (active_count_new (view s) (view s4) (d_ID dep) u j Hfr Hj Hd).
        { rewrite decide_False; [done|]. unfold is_active. rewrite Hs. by intros [_ ?]. }
        intros k Hk. rewrite I4, (af_view _ _ _ A), V2 by done. cbn. by rewrite lookup_insert_ne. }
  run_idle as sel s3 A3. destruct sel as [err|w]; [by apply Hfail|].
  unfold get_client. run_idle as gerr s4 A4. rewrite (af_view _ _ _ A3) in A4.
  pose proof (after_trans _ _ _ _ _ A3 A4) as A4'.
  destruct gerr as [err|]; [by apply Hfail|].
  run_idle as hp s5 A5. rewrite (af_view _ _ _ A4) in A5. pose proof (after_trans _ _ _ _ _ A4' A5) as A5'.
  run_idle as env s6 A6. rewrite (af_view _ _ _ A5) in A6. pose proof (after_trans _ _ _ _ _ A5' A6) as A6'.
  unfold run_container. run_idle as resp s7 A7. rewrite (af_view _ _ _ A6) in A7.
  pose proof (after_trans _ _ _ _ _ A6' A7) as A7'.
  destruct (run_error resp) as [e|] eqn:Er; [by apply Hfail|].
  destruct (run_error_inl _ Er) as [r ->].
  eapply wp_start_instance; [apply (af_ok _ _ _ A7)|by apply Hin|done..|].
  intros i' s8 E8 D8 I1 I2 I3 Hrun Hoth. apply wp_ret, HN.
  - eapply evolves_trans; [exact E2|]. eapply evolves_trans; [by apply after_idle|done].
  - by rewrite D8, (af_view _ _ _ A7'), V2.
  - unfold started. rewrite I1. split_and!; [done|done|]. intros k Hk.
    rewrite Hoth, (af_view _ _ _ A7'), V2 by done. cbn. by rewrite lookup_insert_ne.
Qed.

(** One turn of the scale-down loop. *)
Lemma wp_scale_down_one dep i u Q s :
  sys_ok s → v_insts (view s) !! i_ID i = Some i → i_DeploymentID i = d_ID dep → is_active i →
  (∀ s', evolves (d_ID dep) (d_ProjectID dep) s s' → v_deps (view s') = v_deps (view s) →
     (∀ k, k ≠ i_ID i → v_insts (view s') !! k = v_insts (view s) !! k) →
     active_count (view s) (d_ID dep) = S (active_count (view s') (d_ID dep)) → Q tt s') →
  wp (scale_down_one dep i u) Q s.
Proof.
  intros H Hi Hd Ha HQ. unfold scale_down_one. apply wp_bind.
  assert (∀ Q', (∀ s1, evolves (d_ID dep) (d_ProjectID dep) s s1 → v_deps (view s1) = v_deps (view s) →
      v_insts (view s1) = v_insts (view s) → Q' tt s1) →
    wp (if decide (d_ProjectID dep = "") then ret tt else router_unregister (d_ProjectID dep) (i_ID i)) Q' s) as Hr.
  { intros Q' HQ'. case_decide; [apply wp_ret, HQ'; [by apply evolves_refl|done..]|].
    apply wp_router_unregister; [done|]. intros s1 A1. apply HQ'; rewrite ?(af_view _ _ _ A1); try done.
    eapply after_evolves; [done|]. apply touches_unregister. }
  apply Hr. intros s1 E1 D1 I1. run_idle as w s2 A2. apply wp_bind.
  assert (∀ Q', (∀ s3, evolves (d_ID dep) (d_ProjectID dep) s2 s3 → v_deps (view s3) = v_deps (view s2) →
      v_insts (view s3) = v_insts (view s2) → Q' tt s3) →
    wp (match w with Some w => worker_load (w_WorkerKey w) (-1) | None => ret tt end) Q' s2) as Hl.
  { intros Q' HQ'. destruct w; [|apply wp_ret, HQ'; [by apply evolves_refl, (af_ok _ _ _ A2)|done..]].
    apply wp_worker_load; [apply (af_ok _ _ _ A2)|]. intros s3 A3. apply HQ'; rewrite ?(af_view _ _ _ A3); try done.
    by eapply after_evolves. }
  apply Hl. intros s3 E3 D3 I3.
  assert (v_insts (view s3) = v_insts (view s)) as I03 by by rewrite I3, (af_view _ _ _ A2).
  apply wp_bind. eapply (wp_inst_update_at (d_ID dep) (d_ProjectID dep));
    [apply (ev_ok _ _ _ _ E3)|by rewrite I03|done..|].
  intros err i' now s4 E4 _ V4. apply wp_ret, HQ.
  - eapply evolves_trans; [exact E1|]. eapply evolves_trans; [by apply after_idle|]. by eapply evolves_trans.
  - by rewrite V4, <- D1, <- (af_view _ _ _ A2), <- D3.
  - intros k Hk. rewrite V4. cbn. by rewrite lookup_insert_ne, I03.
  - eapply active_count_stop; [done..| | |].
    + rewrite V4. cbn. by rewrite lookup_insert_eq.
    + unfold is_active. cbn. by intros [? _].
    + intros k Hk. rewrite V4. cbn. by rewrite lookup_insert_ne, I03.
Qed.

Lemma wp_scale_down dep l Q s :
  sys_ok s → stored (d_ID dep) l (view s) → Forall is_active l →
  (∀ s', evolves (d_ID dep) (d_ProjectID dep) s s' → v_deps (view s') = v_deps (view s) →
     active_count (view s) (d_ID dep) = (length l + active_count (view s') (d_ID dep))%nat → Q tt s') →
  wp (for_each l tt (scale_down_one dep)) Q s.
Proof.
  revert s. induction l as [|i l IH]; intros s H Hst Hf HQ; cbn [for_each].
  { apply wp_ret, HQ; [by apply evolves_refl|done..]. }
  apply stored_cons in Hst as (Hi & Hd & Hst & Hn). apply Forall_cons in Hf as [Ha Hf].
  apply wp_bind, wp_scale_down_one; [done..|]. intros s1 E1 D1 I1 C1.
  apply IH; [apply (ev_ok _ _ _ _ E1)| |done|].
  - eapply stored_frame; [done|]. intros k Hk. apply I1. by intros ->.
  - intros s2 E2 D2 C2. apply HQ; [by eapply evolves_trans|by rewrite D2|].
    rewrite C1, C2. done.
Qed.

(** What [ScaleDeployment] promises. *)
Definition scaled (v v' : View WR) (depID : string) (n : Z) : Prop :=
  Z.of_nat (active_count v' depID) = n
  ∧ ∃ d d', v_deps v !! depID = Some d ∧ v_deps v' !! depID = Some d'
      ∧ d_InstanceCount d' = n ∧ d_DesiredReplicas d' = n ∧ d_Status d' = d_Status d.

Definition scale_post (depID : string) (n : Z) s (r : Outcome) s' : Prop :=
  let '(od, active, err) := r in
  match od with
  | None => active = [] ∧ err ≠ None ∧ after s s' (view s)
  | Some dep =>
    (∃ d, v_deps (view s) !! depID = Some d ∧ d_ProjectID d = d_ProjectID dep)
    ∧ evolves depID (d_ProjectID dep) s s'
    ∧ length active = active_count (view s') depID
    ∧ match err with
      | None => scaled (view s) (view s') depID n
      | Some _ => (active_count (view s) depID ≤ length active)%nat ∧ Z.of_nat (length active) < n
          ∧ v_deps (view s') = v_deps (view s)
      end
  end.

(** The end of a scaling. *)
Lemma wp_finish_scale dep cc n active s0 s :
  evolves (d_ID dep) (d_ProjectID dep) s0 s → v_deps (view s) = v_deps (view s0) →
  v_deps (view s0) !! d_ID dep = Some dep →
  Z.of_nat (active_count (view s) (d_ID dep)) = n → length active = active_count (view s) (d_ID dep) →
  wp (finish_scale dep cc n active) (scale_post (d_ID dep) n s0) s.
Proof.
  intros E D Hd Hn Hl. unfold finish_scale.
  apply wp_bind, wp_dep_scale; [apply (ev_ok _ _ _ _ E)|]. intros err now s1 A1.
  run_idle as u s2 A2. run_idle as n1 s3 A3. run_idle as n2 s4 A4. run_idle as e s5 A5. apply wp_ret.
  assert (view s5 = view s1) as V
    by by rewrite (af_view _ _ _ A5), (af_view _ _ _ A4), (af_view _ _ _ A3), (af_view _ _ _ A2).
  assert (after s s5 (view s1)) as A.
  { repeat (eapply after_trans; [eassumption|]). rewrite <- V. by apply after_refl, (af_ok _ _ _ A5). }
  unfold scale_post. cbn [with_replicas d_ProjectID]. rewrite V, (af_view _ _ _ A1). split_and!.
  - eauto.
  - eapply evolves_trans; [done|]. eapply after_evolves; [done|]. rewrite (af_view _ _ _ A1). apply touches_deps.
  - done.
  - split; [done|]. exists dep, (d_set_scale now n dep). cbn. rewrite D, lookup_alter_eq, Hd. done.
Qed.

Lemma wp_scale_locked depID n s :
  sys_ok s → 0 < n → wp (scale_locked depID n) (scale_post depID n s) s.
Proof.
  intros H Hn. unfold scale_locked. apply wp_bind, wp_dep_get.
  destruct (v_deps (view s) !! depID) as [dep|] eqn:Ed; [|by apply wp_ret].
  pose proof (ok_dep_keys _ H _ _ Ed) as Hid.
  apply wp_bind, wp_inst_list; [done|]. intros l s1 A1 Hl.
  destruct (listed_stored s depID l H Hl) as [Hst _].
  pose proof (active_count_list (view s) depID l Hl) as Hcount.
  set (active := base.filter is_active l) in *.
  assert (evolves depID (d_ProjectID dep) s s1) as E1 by by apply after_idle.
  assert (active_count (view s1) depID = length active) as C1 by by rewrite (af_view _ _ _ A1).
  assert (v_deps (view s1) = v_deps (view s)) as D1 by by rewrite (af_view _ _ _ A1).
  subst depID. destruct (Z.eqb_spec (Z.of_nat (length active)) n) as [Hc|Hc].
  { apply wp_bind, wp_dep_scale; [apply (ev_ok _ _ _ _ E1)|]. intros err now s2 A2. apply wp_ret.
    unfold scale_post. cbn [with_replicas d_ProjectID]. rewrite (af_view _ _ _ A2). split_and!.
    - eauto.
    - eapply evolves_trans; [done|]. eapply after_evolves; [done|apply touches_deps].
    - by rewrite <- C1.
    - split; [by rewrite <- Hc, <- C1|]. exists dep, (d_set_scale now n dep). cbn.
      by rewrite D1, lookup_alter_eq, Ed. }
  destruct (Z.ltb_spec (Z.of_nat (length active)) n) as [Hlt|Hge].
  - apply wp_bind. eapply (wp_for_range (λ l act s', evolves (d_ID dep) (d_ProjectID dep) s s'
      ∧ v_deps (view s') = v_deps (view s) ∧ length act = active_count (view s') (d_ID dep)
      ∧ (length active ≤ length act)%nat ∧ Z.of_nat (length act + length l) = n)).
    + split_and!; [done..|lia|]. rewrite length_seq. lia.
    + intros i l' act s2 _ (E2 & D2 & C2 & G2 & N2). apply wp_scale_up_one; [apply (ev_ok _ _ _ _ E2)|..].
      * intros inst s3 E3 D3 St. rewrite length_app. cbn [length] in *.
        rewrite (started_count _ _ _ _ St), <- C2. split_and!; [by eapply evolves_trans|by rewrite D3|lia..].
      * intros msg s3 E3 D3 C3. apply wp_ret. unfold scale_post. cbn [length] in *. split_and!.
        -- eauto.
        -- exact (evolves_trans _ _ _ _ _ E2 E3).
        -- by rewrite C3.
        -- by rewrite <- Hcount.
        -- lia.
        -- by rewrite D3.
    + intros act s2 (E2 & D2 & C2 & G2 & N2). cbn [length] in N2.
      apply wp_finish_scale; [done..|rewrite <- C2; lia|done].
  - assert (Forall is_active active) as Hact.
    { apply Forall_forall. intros i Hi. by apply list_elem_of_filter in Hi as [? _]. }
    apply wp_bind, wp_scale_down; [apply (ev_ok _ _ _ _ E1)| |by apply Forall_drop|].
    + rewrite (af_view _ _ _ A1). eapply stored_sublist; [done|].
      etransitivity; [apply sublist_drop|apply sublist_filter].
    + intros s2 E2 D2 C2. rewrite length_drop in C2. apply wp_finish_scale.
      * by eapply evolves_trans.
      * by rewrite D2.
      * done.
      * lia.
      * rewrite length_take. lia.
Qed.

Lemma wp_ScaleDeployment depID n s :
  sys_ok s →
  wp (ScaleDeployment depID n) (λ r s',
    scale_post depID n s r s'
    ∧ (r.1.1 ≠ None → 0 < n ∧ ∃ d, v_deps (view s) !! depID = Some d ∧ d_Status d = StatusRunning)) s.
Proof.
  intros H. unfold ScaleDeployment. apply wp_bind. unfold scale_check.
  destruct (Z.leb_spec n 0); [by apply wp_ret|]. apply wp_bind, wp_dep_get.
  destruct (v_deps (view s) !! depID) as [d|] eqn:Ed; [|by apply wp_ret].
  destruct (decide (d_Status d = StatusRunning)); apply wp_ret; [|by apply wp_ret].
  apply wp_and; [by apply wp_scale_locked|]. unfold wp. eauto.
Qed.

End scaling.
