(* ===== verification/Demo.v ===== *)
(** * A concrete platform

    Instances of every parameter of the development, for the evaluation of the
    models on concrete inputs: identifiers and times from a counter, no build,
    no secrets, the in-memory repositories and the in-memory fleet, the
    registered worker of Workers.v and the URLs of LoadBalancer.v. *)

From stdpp Require Import base option gmap strings list pretty.
From Stdlib Require Import ZArith Lia.
From S2P Require Import Prelude GoLib GoFloat PtrStore Workers Scheduler LoadBalancer HA Deployments Fleet Platform.

Definition demo_entropy : Entropy := {|
  uuid_at := λ n, "uuid-0000000-" +:+ pretty n;
  now_at := λ n, 1000 + Z.of_nat n;
  order_at := λ _, order_id
|}.

Lemma demo_entropy_laws : @EntropyLaws demo_entropy.
Proof.
  split; cbn.
  - intros m n E. by simplify_eq.
  - done.
Qed.

Definition demo_externals : Externals unit := {|
  x_crashHook := None;
  x_BuildFromSource := λ _ _ _ _ x, (inl "no build", x);
  x_Push := λ _ _ d x, (inr d, x);
  x_GetDigest := λ _ x, (inr "sha256:0", x);
  x_signer := None;
  x_secretStore := None;
  x_redactor := None;
  x_freePort := λ x, (30000, x)
|}.

Abbreviation DemoSys :=
  (Sys MemoryDeploymentRepository MemoryInstanceRepository MemoryWorkerRepository
     MockWorkerClientFactory unit).

Definition demo_sys : DemoSys :=
  mkSys 0 NewMemoryDeploymentRepository NewMemoryInstanceRepository ∅ [] demo_registry
    NewRouter None NewMockWorkerClientFactory tt.

Section empty.
Context {DR IR WR F X : Type}.
Context {ent : Entropy} `{!DeploymentRepository DR, !InstanceRepository IR, !WorkerRepository WR}.
Context `{!DeploymentStore DR, !InstanceStore IR}.

(** A state without deployments and instances is in order. *)
Lemma sys_ok_empty (s : Sys DR IR WR F X) :
  dr_view (s_deps s) = ∅ → ir_view (s_insts s) = ∅ → ir_ok (s_insts s) →
  reg_inv (rg_store (s_registry s)) → router_wf (s_router s) → sys_ok s.
Proof.
  intros Hd Hi Ho Hr Hw. split; try done; unfold view; cbn; rewrite ?Hd, ?Hi;
    intros; rewrite ?lookup_empty in *; done.
Qed.

End empty.

Lemma demo_sys_ok : sys_ok (ent := demo_entropy) demo_sys.
Proof.
  apply sys_ok_empty; [done|done|apply mir_ok_empty| |].
  - apply reg_reachable_inv, demo_registry_reachable.
  - intros p. unfold project_targets. cbn. constructor.
Qed.
