(* ===== verification/ServiceTheorems.v ===== *)
(** * The deployment service's contract

    The properties of the operations of service.go, each with an application
    to the concrete platform of Demo.v. *)

From stdpp Require Import base option gmap strings list pretty.
From Stdlib Require Import ZArith Lia.
From S2P Require Import Prelude GoLib GoFloat PtrStore Workers Scheduler LoadBalancer HA Deployments Fleet Platform Service ServiceFacts Lifecycle Scaling Demo.

Section theorems.
Context {DR IR WR F X : Type}.
Context {ent : Entropy} `{!DeploymentRepository DR, !InstanceRepository IR, !WorkerRepository WR}.
Context `{!WorkerClientFactory F, !Externals X} {uni : Unicode} {net : NetURL}.
Context {entl : EntropyLaws} `{!DeploymentStore DR, !InstanceStore IR, !WorkerRepositoryLaws WR}.
Implicit Types s : Sys DR IR WR F X.

Lemma create_keeps_ok params s : sys_ok s → sys_ok (CreateAndDeploy params s).2.
Proof.
  intros H. pose proof (wp_CreateAndDeploy params s H) as W. unfold wp in W.
  revert W. generalize (CreateAndDeploy params s). intros [[[od l] err] s'] W. apply W.
Qed.



(** C7: Rollback either refuses and changes nothing, or starts a new deployment
    from a release of another deployment of the project that has a digest and
    whose deployment did not fail; when that deployment runs, with the replicas
    of the old one, the old one is ROLLED_BACK and all of its instances are
    stopped and unrouted; when it does not, the old deployment is untouched. *)
Theorem rollback_outcome (depID : string) s :
  sys_ok s → wp (Rollback depID) (rollback_post depID s) s.
Proof. apply wp_Rollback. Qed.


(** When StopDeployment takes the project's lock between the checks and the
    locked part of ScaleDeployment, a scaling that succeeds leaves a STOPPED
    deployment with the target number of active instances. *)
Theorem scale_after_stop (depID : string) (n : Z) s :
  sys_ok s → 0 < n → (scale_check depID n s).1 = None →
  wp (StopDeployment depID ;; scale_locked depID n) (λ r s', r.2 = None → r.1.1 ≠ None →
    Z.of_nat (active_count (view s') depID) = n
    ∧ ∃ d, v_deps (view s') !! depID = Some d ∧ d_Status d = StatusStopped) s.
Proof.
  intros H Hn _. apply wp_bind. eapply wp_wand; [by apply wp_StopDeployment|].
  intros r s1 Hr. destruct r as [e|dep'].
  - destruct Hr as (_ & V & E).
    unfold scale_locked. apply wp_bind, wp_dep_get. rewrite V, E. by apply wp_ret.
  - destruct Hr as (dep & Ed & E1 & Hst & Hid & (d & Hd & Hs & _) & _).
    eapply wp_wand; [apply wp_scale_locked; [apply (ev_ok _ _ _ _ E1)|done]|].
    intros [[od l] err] s2 Hp. cbn [fst snd]. intros -> Hod. unfold scale_post in Hp. destruct od as [dd|]; [|done].
    destruct Hp as (_ & _ & _ & Hc & d1 & d2 & Hd1 & Hd2 & _ & _ & Hs2). split; [done|].
    exists d2. split; [done|]. rewrite Hid in Hd. congruence.
Qed.

End theorems.

(** ** The concrete platform *)

#[local] Existing Instance demo_entropy.
#[local] Existing Instance demo_entropy_laws.
#[local] Existing Instance demo_url.
#[local] Existing Instance demo_externals.
#[local] Existing Instance unicode_none.

Definition demo_create : CreateDeploymentParams :=
  mkCreateParams "proj" "" "img:1" 2 ∅ ∅ [].

Definition demo_created : DemoSys := (CreateAndDeploy demo_create demo_sys).2.

Example demo_create_runs :
  (λ r : Outcome, (d_Status <$> r.1.1, length r.1.2, r.2)) (CreateAndDeploy demo_create demo_sys).1
  = (Some StatusRunning, 2%nat, None).
Proof. vm_compute. reflexivity. Qed.


Lemma demo_created_ok : sys_ok demo_created.
Proof. exact (create_keeps_ok demo_create demo_sys demo_sys_ok). Qed.

(** The identifier that the first deployment gets. *)
Definition demo_id : string := "uuid-0000000-1".

Example demo_id_created : d_Status <$> (dr_view (s_deps demo_created) !! demo_id) = Some StatusRunning.
Proof. vm_compute. reflexivity. Qed.


Lemma rollback_outcome_witness :
  wp (Rollback demo_id) (rollback_post demo_id demo_created) demo_created.
Proof. exact (rollback_outcome demo_id demo_created demo_created_ok). Defined.


Example demo_race_runs :
  (λ r : Outcome, (length r.1.2, r.2)) ((StopDeployment demo_id ;; scale_locked demo_id 3) demo_created).1
  = (3%nat, None).
Proof. vm_compute. reflexivity. Qed.

Lemma scale_after_stop_witness :
  wp (StopDeployment demo_id ;; scale_locked demo_id 3) (λ r s', r.2 = None → r.1.1 ≠ None →
    Z.of_nat (active_count (view s') demo_id) = 3
    ∧ ∃ d, v_deps (view s') !! demo_id = Some d ∧ d_Status d = StatusStopped) demo_created.
Proof.
  apply (scale_after_stop demo_id 3 demo_created demo_created_ok); [done|].
  vm_compute. reflexivity.
Defined.
