(* ===== verification/Recovery.v ===== *)
(** * Crash recovery: internal/deployments/recovery.go

    On a restart of the control plane, every deployment frozen between two
    stages is failed, with its instances, and its containers are stopped. *)

From stdpp Require Import base option gmap strings list pretty.
From Stdlib Require Import ZArith Lia.
From S2P Require Import Prelude GoLib GoFloat PtrStore Workers Scheduler LoadBalancer HA Deployments Fleet Platform Service ServiceFacts Lifecycle Scaling Demo ServiceTheorems.

Inductive RecoveryPolicy := RecoveryPolicyFailSafe | RecoveryPolicyResume.

Record RecoveryReport := mkReport {
  rp_TotalStuckDetected : Z;
  rp_QueuedRecovered : Z;
  rp_BuildingRecovered : Z;
  rp_SchedulingRecovered : Z;
  rp_StartingRecovered : Z;
  rp_OrphanContainersStopped : Z;
  rp_Errors : list error
}.

#[export] Instance RecoveryReport_eta : Settable RecoveryReport := λ r,
  mkReport (rp_TotalStuckDetected r) (rp_QueuedRecovered r) (rp_BuildingRecovered r)
    (rp_SchedulingRecovered r) (rp_StartingRecovered r) (rp_OrphanContainersStopped r) (rp_Errors r).

Section recovery.
Context {DR IR WR F X : Type}.
Context {ent : Entropy} `{!DeploymentRepository DR, !InstanceRepository IR, !WorkerRepository WR}.
Context `{!WorkerClientFactory F, !Externals X}.

Abbreviation M := (ST (Sys DR IR WR F X)).

Definition DetectStuckDeployments : M (error + list Deployment) :=
  let! l := dep_list "" in
  match l with
  | inl err => ret (inl ("failed to list deployments from storage: " +:+ err))
  | inr all => ret (inr (base.filter (λ d, IsInFlight (d_Status d) = true) all))
  end.

(** The loop over the containers of a worker. *)
Definition stop_partial (w : Worker) (deploymentID : string) (c : ContainerInfo) (n : Z) : M Z :=
  if decide (lookup_str (ci_Labels c) "nebula.deployment_id" = deploymentID) then
    let! r := stop_container w (mkStopRequest (ci_InstanceId c) 5) in
    match r with inr _ => ret (n + 1) | inl _ => ret n end
  else ret n.

Definition cleanup_worker (deploymentID : string) (w : Worker) (n : Z) : M Z :=
  if negb (IsHealthy w) then ret n
  else
    let! gerr := get_client w in
    match gerr with
    | Some _ => ret n
    | None =>
      let! l := list_containers w in
      match l with
      | inl _ => ret n
      | inr containers => for_each containers n (stop_partial w deploymentID)
      end
    end.

Definition cleanupPartialContainers (deploymentID : string) : M Z :=
  let! o := draw_order in
  let! ws := gets (λ s, List o (s_registry s)) in
  for_each ws 0 (cleanup_worker deploymentID).

(** The loops that fail the instances of a deployment: the pending ones, or
    all of them. *)
Definition fail_instances (pending_only : bool) (instances : list Instance_) : M unit :=
  for_each instances tt (λ inst _,
    if pending_only && bool_decide (i_Status inst ≠ "PENDING") then ret tt else fail_instance inst).

Definition fail_listed (pending_only : bool) (deploymentID : string) : M unit :=
  let! l := inst_list deploymentID in
  match l with inr instances => fail_instances pending_only instances | inl _ => ret tt end.

(** The status update that ends a case; its error goes into the report. *)
Definition recovered (dep : Deployment) (stage what : string)
    (count : RecoveryReport → RecoveryReport) (report : RecoveryReport) : M RecoveryReport :=
  let! err := dep_status (d_ID dep) StatusFailed stage in
  match err with
  | Some e => ret (report <| rp_Errors ::= λ l,
      l ++ ["dep " +:+ d_ID dep +:+ " (" +:+ what +:+ "): " +:+ e] |>)
  | None => ret (count report)
  end.

(** One turn of the loop of [RecoverDeployments]. *)
Definition recover_one (dep : Deployment) (report : RecoveryReport) : M RecoveryReport :=
  match d_Status dep with
  | StatusQueued =>
    recovered dep "QUEUED_INTERRUPTED_CP_CRASH" "QUEUED"
      (λ r, r <| rp_QueuedRecovered ::= Z.succ |>) report
  | StatusBuilding =>
    dep_image (d_ID dep) "" "" ;;
    recovered dep "BUILD_INTERRUPTED_CP_CRASH" "BUILDING"
      (λ r, r <| rp_BuildingRecovered ::= Z.succ |>) report
  | StatusBuilt | StatusScheduling =>
    fail_listed true (d_ID dep) ;;
    recovered dep "SCHEDULING_INTERRUPTED_CP_CRASH" "SCHEDULING"
      (λ r, r <| rp_SchedulingRecovered ::= Z.succ |>) report
  | StatusStarting =>
    let! stoppedCount := cleanupPartialContainers (d_ID dep) in
    let report := report <| rp_OrphanContainersStopped ::= λ n, n + stoppedCount |> in
    fail_listed false (d_ID dep) ;;
    recovered dep "STARTUP_INTERRUPTED_CP_CRASH" "STARTING"
      (λ r, r <| rp_StartingRecovered ::= Z.succ |>) report
  | _ =>
    dep_status (d_ID dep) StatusFailed "INTERRUPTED_CP_CRASH" ;; ret report
  end.

(** The policy is only logged. *)
Definition RecoverDeployments (policy : RecoveryPolicy) : M (error + RecoveryReport) :=
  let! l := DetectStuckDeployments in
  match l with
  | inl err => ret (inl err)
  | inr stuck =>
    let report := mkReport (Z.of_nat (length stuck)) 0 0 0 0 0 [] in
    let! report := for_each stuck report recover_one in
    ret (inr report)
  end.

End recovery.

Section facts.
Context {DR IR WR F X : Type}.
Context {ent : Entropy} `{!DeploymentRepository DR, !InstanceRepository IR, !WorkerRepository WR}.
Context `{!WorkerClientFactory F, !Externals X} {uni : Unicode} {net : NetURL}.
Context {entl : EntropyLaws} `{!DeploymentStore DR, !InstanceStore IR, !WorkerRepositoryLaws WR}.
Implicit Types s : Sys DR IR WR F X.

Lemma idle_list_workers o : idle (gets (λ s : Sys DR IR WR F X, List o (s_registry s))).
Proof. intros Q s H HQ. apply wp_gets, HQ. by apply after_refl. Qed.

Lemma idle_cleanup d : idle (X := X) (cleanupPartialContainers (DR := DR) (IR := IR) (WR := WR) (F := F) d).
Proof.
  unfold cleanupPartialContainers, cleanup_worker, stop_partial, get_client, list_containers, stop_container.
  pose proof idle_list_workers. idle_tac.
Qed.

(** What failing the instances of deployment [d] leaves of them. *)
Definition instances_failed (pending_only : bool) (d : string) s s' : Prop :=
  ∀ k j, v_insts (view s') !! k = Some j → i_DeploymentID j = d →
    i_Status j = "FAILED"
    ∨ (pending_only = true ∧ i_Status j ≠ "PENDING" ∧ v_insts (view s) !! k = Some j).

Lemma wp_fail_instances po d p l (Q : unit → Sys DR IR WR F X → Prop) s :
  sys_ok s → stored d l (view s) →
  (∀ s', evolves d p s s' → v_deps (view s') = v_deps (view s) →
     (∀ k, k ∉ i_ID <$> l → v_insts (view s') !! k = v_insts (view s) !! k) →
     (∀ i, i ∈ l → inst_at (view s') (i_ID i) d "FAILED"
       ∨ (po = true ∧ i_Status i ≠ "PENDING" ∧ v_insts (view s') !! i_ID i = Some i)) → Q tt s') →
  wp (fail_instances po l) Q s.
Proof.
  unfold fail_instances. revert s. induction l as [|i l IH]; intros s H Hst HQ; cbn [for_each].
  { apply wp_ret, HQ; [by apply evolves_refl|done..|set_solver]. }
  apply stored_cons in Hst as (Hi & Hd & Hst & Hn). apply wp_bind.
  assert (∀ s1, evolves d p s s1 → v_deps (view s1) = v_deps (view s) →
    (∀ k, k ≠ i_ID i → v_insts (view s1) !! k = v_insts (view s) !! k) →
    inst_at (view s1) (i_ID i) d "FAILED"
      ∨ (po = true ∧ i_Status i ≠ "PENDING" ∧ v_insts (view s1) !! i_ID i = Some i) →
    wp (for_each l tt (λ inst _, if po && bool_decide (i_Status inst ≠ "PENDING") then ret tt
                                 else fail_instance inst)) Q s1) as Hrest.
  { intros s1 E1 D1 O1 P1. apply IH; [apply (ev_ok _ _ _ _ E1)| |].
    - eapply stored_frame; [done|]. intros k Hk. apply O1. by intros ->.
    - intros s2 E2 D2 O2 P2. apply HQ; [by eapply evolves_trans|by rewrite D2| |].
      + intros k [Hk1 Hk2]%not_elem_of_cons. by rewrite O2, O1.
      + intros j [->|Hj]%elem_of_cons; [|by apply P2].
        unfold inst_at in P1 |- *. by rewrite O2. }
  destruct po, (bool_decide (i_Status i ≠ "PENDING")) eqn:Eb; cbn [andb].
  1: { apply bool_decide_eq_true in Eb. apply wp_ret, Hrest; [by apply evolves_refl|done..|]. by right. }
  all: eapply (wp_fail_instance p); [done..|]; rewrite Hd; intros s1 E1 D1 O1 _ Hf; apply Hrest; auto.
Qed.

Lemma wp_fail_listed po d p (Q : unit → Sys DR IR WR F X → Prop) s :
  sys_ok s →
  (∀ s', evolves d p s s' → v_deps (view s') = v_deps (view s) → instances_failed po d s s' → Q tt s') →
  wp (fail_listed po d) Q s.
Proof.
  intros H HQ. unfold fail_listed. apply wp_bind, wp_inst_list; [done|]. intros l s1 A1 Hl.
  destruct (listed_stored s d l H Hl) as [Hst Hall].
  eapply (wp_fail_instances po d p); [apply (af_ok _ _ _ A1)|by rewrite (af_view _ _ _ A1)|].
  intros s2 E2 D2 O2 P2. rewrite (af_view _ _ _ A1) in D2, O2. apply HQ; [|done|].
  - eapply evolves_trans; [by apply after_idle|done].
  - intros k j Hk Hd. destruct (decide (k ∈ i_ID <$> l)) as [Hin|Hin].
    + apply list_elem_of_fmap in Hin as (i & -> & Hi).
      destruct (P2 i Hi) as [(j' & Hj' & _ & Hs)|(Hp & Hs & Hj')]; simplify_eq; [by left|right].
      split_and!; [done|done|]. by apply (st_lookup _ _ _ Hst).
    + rewrite O2 in Hk by done. by destruct (Hin (Hall _ _ Hk Hd)).
Qed.

Lemma wp_recovered dep p stage what count report (Q : RecoveryReport → Sys DR IR WR F X → Prop) s d :
  sys_ok s → v_deps (view s) !! d_ID dep = Some d → stage ≠ "" →
  (∀ r s', evolves (d_ID dep) p s s' → v_insts (view s') = v_insts (view s) →
     (∃ now, v_deps (view s') !! d_ID dep = Some (d_set_status now StatusFailed stage d)) → Q r s') →
  wp (recovered dep stage what count report) Q s.
Proof.
  intros H Hd Hst HQ. unfold recovered. apply wp_bind, wp_dep_status; [done|]. intros err now s1 A1.
  destruct err; apply wp_ret, HQ.
  1,4: eapply after_evolves; [done|apply touches_deps].
  1,3: by rewrite (af_view _ _ _ A1).
  all: exists now; rewrite (af_view _ _ _ A1); cbn; by rewrite lookup_alter_eq, Hd.
Qed.

(** What the recovery of one deployment promises. *)
Record recovers (dep : Deployment) s s' : Prop := {
  rc_evolves : evolves (d_ID dep) (d_ProjectID dep) s s';
  rc_failed : ∃ d, v_deps (view s') !! d_ID dep = Some d ∧ d_Status d = StatusFailed
    ∧ (d_Status dep = StatusBuilding → d_Image d = "" ∧ d_ImageDigest d = "");
  rc_starting : d_Status dep = StatusStarting → instances_failed false (d_ID dep) s s';
  rc_scheduling : d_Status dep = StatusBuilt ∨ d_Status dep = StatusScheduling →
    instances_failed true (d_ID dep) s s'
}.

Lemma instances_failed_frame po d s s1 s2 s' :
  instances_failed po d s1 s2 → v_insts (view s1) = v_insts (view s) →
  v_insts (view s') = v_insts (view s2) → instances_failed po d s s'.
Proof. intros H E1 E2 k j. rewrite E2, <- E1. apply H. Qed.

Lemma set_status_failed now stage d :
  d_Status (d_set_status now StatusFailed stage d) = StatusFailed
  ∧ d_Image (d_set_status now StatusFailed stage d) = d_Image d
  ∧ d_ImageDigest (d_set_status now StatusFailed stage d) = d_ImageDigest d.
Proof. unfold d_set_status. by case_decide. Qed.

Lemma wp_recover_one dep report (Q : RecoveryReport → Sys DR IR WR F X → Prop) s :
  sys_ok s → v_deps (view s) !! d_ID dep = Some dep → IsInFlight (d_Status dep) = true →
  (∀ r s', recovers dep s s' → Q r s') →
  wp (recover_one dep report) Q s.
Proof.
  intros H Hd Hf HQ. unfold recover_one. set (p := d_ProjectID dep).
  destruct (d_Status dep) eqn:Est; try done.
  - eapply (wp_recovered dep p); [done..|]. intros r s1 E1 I1 (now & D1). apply HQ.
    split; [done| |by rewrite Est|rewrite Est; naive_solver].
    eexists. split; [done|]. split; [apply set_status_failed|by rewrite Est].
  - apply wp_bind, wp_dep_image; [done|]. intros err t s0 A0.
    eapply (wp_recovered dep p); [apply (af_ok _ _ _ A0)| |done|].
    { rewrite (af_view _ _ _ A0). cbn. by rewrite lookup_alter_eq, Hd. }
    intros r s1 E1 I1 (now & D1). apply HQ. split; [| |by rewrite Est|rewrite Est; naive_solver].
    + eapply evolves_trans; [eapply after_evolves; [done|apply touches_deps]|done].
    + eexists. split; [done|]. split; [apply set_status_failed|]. intros _.
      destruct (set_status_failed now "BUILD_INTERRUPTED_CP_CRASH" (d_set_image t "" "" dep)) as (_ & -> & ->).
      done.
  - apply wp_bind, (wp_fail_listed _ _ p); [done|]. intros s1 E1 D1 F1.
    eapply (wp_recovered dep p); [apply (ev_ok _ _ _ _ E1)|by rewrite D1|done|].
    intros r s2 E2 I2 (now & D2). apply HQ. split; [by eapply evolves_trans| |by rewrite Est|].
    + eexists. split; [done|]. split; [apply set_status_failed|by rewrite Est].
    + intros _. by eapply instances_failed_frame.
  - apply wp_bind, (wp_fail_listed _ _ p); [done|]. intros s1 E1 D1 F1.
    eapply (wp_recovered dep p); [apply (ev_ok _ _ _ _ E1)|by rewrite D1|done|].
    intros r s2 E2 I2 (now & D2). apply HQ. split; [by eapply evolves_trans| |by rewrite Est|].
    + eexists. split; [done|]. split; [apply set_status_failed|by rewrite Est].
    + intros _. by eapply instances_failed_frame.
  - pose proof idle_cleanup. run_idle as n s0 A0.
    apply wp_bind, (wp_fail_listed _ _ p); [apply (af_ok _ _ _ A0)|]. intros s1 E1 D1 F1.
    eapply (wp_recovered dep p); [apply (ev_ok _ _ _ _ E1)|by rewrite D1, (af_view _ _ _ A0)|done|].
    intros r s2 E2 I2 (now & D2). apply HQ. split; [| | |rewrite Est; naive_solver].
    + eapply evolves_trans; [by apply after_idle|]. by eapply evolves_trans.
    + eexists. split; [done|]. split; [apply set_status_failed|by rewrite Est].
    + intros _. eapply instances_failed_frame; [done|by rewrite (af_view _ _ _ A0)|done].
Qed.

(** ** All stuck deployments *)

(** What the recovery does to the record of a deployment [d]. *)
Definition dep_failed (d : Deployment) (v : View WR) : Prop :=
  ∃ d', v_deps v !! d_ID d = Some d' ∧ d_Status d' = StatusFailed
    ∧ (d_Status d = StatusBuilding → d_Image d' = "" ∧ d_ImageDigest d' = "").

(** What it does to the instances of [d]: none runs or waits any more. *)
Definition insts_settled (d : Deployment) (v : View WR) : Prop :=
  ∀ k j, v_insts v !! k = Some j → i_DeploymentID j = d_ID d →
    (d_Status d = StatusStarting → i_Status j = "FAILED")
    ∧ (d_Status d = StatusBuilt ∨ d_Status d = StatusScheduling → i_Status j ≠ "PENDING").

Record recovered_all (l : list Deployment) s s' : Prop := {
  ra_ok : sys_ok s';
  ra_others : ∀ k, k ∉ d_ID <$> l → v_deps (view s') !! k = v_deps (view s) !! k;
  ra_insts : ∀ k i, i_DeploymentID i ∉ d_ID <$> l →
    v_insts (view s') !! k = Some i ↔ v_insts (view s) !! k = Some i;
  ra_failed : ∀ d, d ∈ l → dep_failed d (view s');
  ra_settled : ∀ d, d ∈ l → insts_settled d (view s')
}.

Lemma recovers_settled dep s s' : recovers dep s s' → insts_settled dep (view s').
Proof.
  intros R k j Hk Hd. split.
  - intros E. destruct (rc_starting _ _ _ R E k j Hk Hd) as [|[]]; done.
  - intros E. destruct (rc_scheduling _ _ _ R E k j Hk Hd) as [->|(_ & ? & _)]; done.
Qed.

Lemma recovered_cons d l s s1 s' :
  recovers d s s1 → recovered_all l s1 s' → d_ID d ∉ d_ID <$> l → recovered_all (d :: l) s s'.
Proof.
  intros R [A1 A2 A3 A4 A5] Hn. pose proof (ev_touches _ _ _ _ (rc_evolves _ _ _ R)) as T. split; [done|..].
  - intros k [Hk1 Hk2]%not_elem_of_cons. rewrite A2 by done. by apply (tc_deps _ _ _ _ T).
  - intros k i [Hk1 Hk2]%not_elem_of_cons. rewrite A3 by done. by apply (tc_insts _ _ _ _ T).
  - intros x [->|Hx]%elem_of_cons; [|by apply A4].
    destruct (rc_failed _ _ _ R) as (d' & Hd' & H). exists d'. by rewrite A2.
  - intros x [->|Hx]%elem_of_cons; [|by apply A5]. intros k j Hk Hd.
    apply (recovers_settled _ _ _ R k j); [|done]. apply A3; [by rewrite Hd|done].
Qed.

Lemma wp_recover_loop l report (Q : RecoveryReport → Sys DR IR WR F X → Prop) s :
  sys_ok s → NoDup (d_ID <$> l) →
  (∀ d, d ∈ l → v_deps (view s) !! d_ID d = Some d ∧ IsInFlight (d_Status d) = true) →
  (∀ r s', recovered_all l s s' → Q r s') →
  wp (for_each l report recover_one) Q s.
Proof.
  revert report s. induction l as [|d l IH]; intros report s H Hnd Hl HQ; cbn [for_each].
  { apply wp_ret, HQ. split; [done|done|done|set_solver..]. }
  rewrite fmap_cons, NoDup_cons in Hnd. destruct Hnd as [Hn Hnd].
  destruct (Hl d) as [Hd Hf]; [left|].
  apply wp_bind, wp_recover_one; [done..|]. intros r s1 R.
  pose proof (rc_evolves _ _ _ R) as E. apply IH; [apply (ev_ok _ _ _ _ E)|done| |].
  - intros x Hx. rewrite (tc_deps _ _ _ _ (ev_touches _ _ _ _ E)); [apply Hl; by right|].
    intros Ex. apply Hn. rewrite <- Ex. by apply (list_elem_of_fmap_2 d_ID).
  - intros r' s2 R2. apply HQ. by eapply recovered_cons.
Qed.

Definition in_flight_in (v : View WR) (k : string) (d : Deployment) : Prop :=
  v_deps v !! k = Some d ∧ IsInFlight (d_Status d) = true.

Lemma wp_RecoverDeployments policy s :
  sys_ok s →
  wp (RecoverDeployments policy) (λ r s', ∃ report l, r = inr report
    ∧ (∀ k d, in_flight_in (view s) k d ↔ d ∈ l ∧ d_ID d = k) ∧ recovered_all l s s') s.
Proof.
  intros H. unfold RecoverDeployments, DetectStuckDeployments.
  apply wp_bind, wp_bind, wp_dep_list; [done|]. intros all s1 A1 Hall. apply wp_ret.
  set (l := base.filter _ all).
  assert (∀ k d, in_flight_in (view s) k d ↔ d ∈ l ∧ d_ID d = k) as Hl.
  { intros k d. unfold l, in_flight_in. rewrite list_elem_of_filter, Hall, list_elem_of_filter, list_elem_of_fmap.
    split.
    - intros [Hk Hf]. split_and!; [done|by left| |by apply (ok_dep_keys _ H)].
      exists (k, d). by rewrite elem_of_map_to_list.
    - intros ((Hf & _ & [k' d'] & -> & Hm%elem_of_map_to_list) & <-). cbn.
      by rewrite (ok_dep_keys _ H _ _ Hm). }
  apply wp_bind, wp_recover_loop; [apply (af_ok _ _ _ A1)|..].
  - unfold l. apply NoDup_fmap_2_strong.
    + intros x y Hx Hy E.
      destruct (proj2 (Hl (d_ID x) x) (conj Hx eq_refl)) as [Ex _].
      destruct (proj2 (Hl (d_ID y) y) (conj Hy eq_refl)) as [Ey _]. congruence.
    + apply NoDup_filter. rewrite Hall. apply NoDup_filter, NoDup_fmap_2_strong; [|apply NoDup_map_to_list].
      intros [k1 d1] [k2 d2] H1%elem_of_map_to_list H2%elem_of_map_to_list E. cbn in E.
      pose proof (ok_dep_keys _ H _ _ H1). pose proof (ok_dep_keys _ H _ _ H2). congruence.
  - intros d Hd. rewrite (af_view _ _ _ A1). exact (proj2 (Hl (d_ID d) d) (conj Hd eq_refl)).
  - intros r s2 R2. apply wp_ret. exists r, l. split; [done|]. split; [done|].
    destruct R2 as [B1 B2 B3 B4 B5]. rewrite (af_view _ _ _ A1) in B2, B3. by split.
Qed.

(** What the recovery leaves. *)
Definition recovery_post s (r : error + RecoveryReport) s' : Prop :=
  (∃ report, r = inr report)
  ∧ (∀ k d, v_deps (view s) !! k = Some d →
       if IsInFlight (d_Status d) then dep_failed d (view s') ∧ insts_settled d (view s')
       else v_deps (view s') !! k = Some d)
  ∧ (∀ k d, ¬ in_flight_in (view s') k d)
  ∧ (∀ k i, (∀ d, ¬ in_flight_in (view s) (i_DeploymentID i) d) →
       v_insts (view s') !! k = Some i ↔ v_insts (view s) !! k = Some i).

Lemma wp_recovery policy s : sys_ok s →
  wp (RecoverDeployments policy) (λ r s', sys_ok s' ∧ recovery_post s r s') s.
Proof.
  intros H. eapply wp_wand; [by apply wp_RecoverDeployments|].
  intros r s' (report & l & -> & Hl & [B1 B2 B3 B4 B5]). split; [done|]. split; [by eexists|].
  assert (∀ k, k ∈ d_ID <$> l ↔ ∃ d, in_flight_in (view s) k d) as Hk.
  { intros k. rewrite list_elem_of_fmap. setoid_rewrite Hl. naive_solver. }
  split; [|split].
  - intros k d Hd. destruct (IsInFlight (d_Status d)) eqn:Ef.
    + assert (d ∈ l) by (apply (Hl k d); by split). auto.
    + rewrite B2; [done|]. rewrite Hk. intros (d' & Hd' & Hf). congruence.
  - intros k d [Hd Hf]. destruct (decide (k ∈ d_ID <$> l)) as [Hin|Hin].
    + apply list_elem_of_fmap in Hin as (x & -> & Hx). destruct (B4 x Hx) as (d' & Hd' & Hs & _).
      rewrite Hd in Hd'. injection Hd' as <-. by rewrite Hs in Hf.
    + rewrite B2 in Hd by done. apply Hin, Hk. exists d. by split.
  - intros k i Hn. apply B3. rewrite Hk. intros [d Hd]. by apply (Hn d).
Qed.


End facts.

(** ** The concrete platform *)

#[local] Existing Instance demo_entropy.
#[local] Existing Instance demo_entropy_laws.
#[local] Existing Instance demo_url.
#[local] Existing Instance demo_externals.
#[local] Existing Instance unicode_none.

(** The demo deployment, frozen while its containers start. *)
Definition demo_stuck : DemoSys := (dep_status demo_id StatusStarting "STARTING" demo_created).2.

Lemma demo_stuck_ok : sys_ok demo_stuck.
Proof.
  apply (wp_dep_status demo_id StatusStarting "STARTING" (λ _ s', sys_ok s') demo_created demo_created_ok).
  intros err now s' A. apply (af_ok _ _ _ A).
Qed.

Example demo_stuck_in_flight :
  d_Status <$> (dr_view (s_deps demo_stuck) !! demo_id) = Some StatusStarting
  ∧ (i_Status <$> (map_to_list (ir_view (s_insts demo_stuck))).*2) = ["RUNNING"; "RUNNING"].
Proof. vm_compute. split; reflexivity. Qed.

