(* ===== verification/Diff.v ===== *)
(** * Desired and observed state: internal/reconcile/diff.go

    The comparison of the instances the repositories want with the containers
    the workers report, through an index of the desired instances' names. *)

From stdpp Require Import base option gmap strings list.
From Stdlib Require Import ZArith Lia Ascii.
From S2P Require Import Prelude GoLib.

Record DesiredInstance := mkDesired {
  di_InstanceID : string;
  di_InstanceKey : string;
  di_DeploymentID : string;
  di_WorkerID : string;
  di_Image : string;
  di_Env : gmap string string;
  di_Labels : gmap string string;
  di_DesiredStatus : string
}.

Record ObservedContainer := mkObserved {
  oc_WorkerID : string;
  oc_WorkerKey : string;
  oc_ContainerID : string;
  oc_InstanceKey : string;
  oc_DeploymentID : string;
  oc_Image : string;
  oc_State : string;
  oc_Labels : gmap string string;
  oc_CreatedAt : Time
}.

Record MatchingPair := mkPair {
  mp_Desired : DesiredInstance;
  mp_Observed : ObservedContainer
}.

Record DiffResult := mkDiff {
  df_Matching : list MatchingPair;
  df_Missing : list DesiredInstance;
  df_Extra : list ObservedContainer
}.

#[export] Instance DesiredInstance_eq_dec : EqDecision DesiredInstance.
Proof. solve_decision. Defined.
#[export] Instance ObservedContainer_eq_dec : EqDecision ObservedContainer.
Proof. solve_decision. Defined.

Section diff.
Context {uni : Unicode}.

(** [state[0] == 'u' || ...]: the status of the container engine's listing,
    such as "Up 3 minutes". *)
Definition starts_up (state : string) : bool :=
  match state with
  | String a (String b _) =>
    (Ascii.eqb a "u" || Ascii.eqb a "U")%char && (Ascii.eqb b "p" || Ascii.eqb b "P")%char
  | _ => false
  end.

Definition IsRunningState (state : string) : bool :=
  if String.eqb state "running" || String.eqb state "RUNNING" || String.eqb state "Running" then true
  else if starts_up state then true
  else EqualFold state "running".

(** [desiredIndexByKey]: the key and the identifier of every desired instance,
    where a later instance takes a name over. *)
Definition index_name (name : string) (i : nat) (m : gmap string nat) : gmap string nat :=
  if decide (name = "") then m else <[name := i]> m.

Fixpoint index_desired (i : nat) (desired : list DesiredInstance) (m : gmap string nat) :
    gmap string nat :=
  match desired with
  | [] => m
  | d :: desired' =>
    index_desired (S i) desired' (index_name (di_InstanceID d) i (index_name (di_InstanceKey d) i m))
  end.

(** The name under which a container is looked up. *)
Definition observed_key (o : ObservedContainer) : string :=
  if decide (oc_InstanceKey o = "") then lookup_str (oc_Labels o) "nebula.instance_id"
  else oc_InstanceKey o.

Definition lookup_desired (index : gmap string nat) (o : ObservedContainer) : option nat :=
  if decide (observed_key o = "") then None else index !! observed_key o.

(** The variables of the loop over the observed containers. *)
Record DiffState := mkDiffState {
  ds_matched : list bool;
  ds_Matching : list MatchingPair;
  ds_Extra : list ObservedContainer
}.

Definition diff_step (index : gmap string nat) (desired : list DesiredInstance)
    (st : DiffState) (o : ObservedContainer) : DiffState :=
  let extra := mkDiffState (ds_matched st) (ds_Matching st) (ds_Extra st ++ [o]) in
  match lookup_desired index o with
  | None => extra
  | Some idx =>
    match ds_matched st !! idx, desired !! idx with
    | Some m, Some d =>
      if IsRunningState (oc_State o) && negb m
      then mkDiffState (<[idx := true]> (ds_matched st)) (ds_Matching st ++ [mkPair d o]) (ds_Extra st)
      else extra
    | _, _ => extra (* out of range: [index_desired_range] *)
    end
  end.

(** The instances whose flag is [b]. *)
Fixpoint select (b : bool) (flags : list bool) (l : list DesiredInstance) : list DesiredInstance :=
  match flags, l with
  | f :: flags', d :: l' => if Bool.eqb f b then d :: select b flags' l' else select b flags' l'
  | _, _ => []
  end.

Definition ComputeDiff (desired : list DesiredInstance) (observed : list ObservedContainer) :
    DiffResult :=
  let index := index_desired 0 desired ∅ in
  let st := fold_left (diff_step index desired) observed
              (mkDiffState (replicate (length desired) false) [] []) in
  mkDiff (ds_Matching st) (select false (ds_matched st) desired) (ds_Extra st).

(** ** The index *)

Definition names (d : DesiredInstance) (k : string) : Prop :=
  k ≠ "" ∧ (k = di_InstanceKey d ∨ k = di_InstanceID d).

Lemma index_name_lookup name i m k :
  index_name name i m !! k = if decide (k = name ∧ k ≠ "") then Some i else m !! k.
Proof.
  unfold index_name. destruct (decide (name = "")) as [->|].
  - rewrite decide_False; [done|]. intros []. done.
  - rewrite lookup_insert. destruct (decide (name = k)) as [->|]; [by rewrite decide_True|].
    rewrite decide_False; [done|]. intros []. congruence.
Qed.

(** What an entry says: the instance of that index has the name. *)
Lemma index_desired_sound desired : ∀ i m k j,
  index_desired i desired m !! k = Some j →
  m !! k = Some j ∨ ∃ n d, j = (i + n)%nat ∧ desired !! n = Some d ∧ names d k.
Proof.
  induction desired as [|d desired IH]; intros i m k j; cbn; [auto|].
  intros [Hj|(n & d' & -> & Hd & Hk)]%IH.
  - rewrite !index_name_lookup in Hj.
    destruct (decide (k = di_InstanceID d ∧ k ≠ "")) as [[]|].
    { right. exists O, d. simplify_eq. unfold names. split_and!; [lia|done..|auto]. }
    destruct (decide (k = di_InstanceKey d ∧ k ≠ "")) as [[]|]; [|auto].
    right. exists O, d. simplify_eq. unfold names. split_and!; [lia|done..|auto].
  - right. exists (S n), d'. split_and!; [lia|done..].
Qed.

Lemma index_desired_mono desired : ∀ i m k, is_Some (m !! k) → is_Some (index_desired i desired m !! k).
Proof.
  induction desired as [|d desired IH]; intros i m k Hk; cbn; [done|].
  apply IH. rewrite !index_name_lookup. by repeat case_decide.
Qed.

(** Every name is in the index. *)
Lemma index_desired_complete desired : ∀ i m k n d,
  desired !! n = Some d → names d k → is_Some (index_desired i desired m !! k).
Proof.
  induction desired as [|d' desired IH]; intros i m k n d; [done|].
  destruct n as [|n]; cbn; [|apply IH].
  intros [= ->] [Hne Hk]. apply index_desired_mono. rewrite !index_name_lookup.
  repeat case_decide; try done. tauto.
Qed.

Lemma index_desired_range desired k j :
  index_desired 0 desired ∅ !! k = Some j →
  ∃ d, desired !! j = Some d ∧ names d k.
Proof.
  intros [H|(n & d & -> & Hd & Hk)]%index_desired_sound; [by rewrite lookup_empty in H|].
  by exists d.
Qed.

(** ** The flags *)

Lemma select_replicate l :
  select true (replicate (length l) false) l = [] ∧ select false (replicate (length l) false) l = l.
Proof. induction l as [|x l [IH1 IH2]]; [done|]. cbn. split; [done|by rewrite IH2]. Qed.

Lemma select_split flags : ∀ l, length flags = length l →
  select true flags l ++ select false flags l ≡ₚ l.
Proof.
  induction flags as [|[] flags IH]; intros [|x l]; cbn; try done; intros [= E].
  - f_equiv. by apply IH.
  - rewrite <- Permutation_middle. f_equiv. by apply IH.
Qed.

Lemma select_mark flags : ∀ l i d, flags !! i = Some false → l !! i = Some d →
  select true (<[i := true]> flags) l ≡ₚ d :: select true flags l.
Proof.
  induction flags as [|f flags IH]; intros [|x l] [|i] d; cbn; try done.
  - by intros [= ->] [= ->].
  - intros Hf Hl. specialize (IH l i d Hf Hl). destruct f; cbn; [|done].
    rewrite IH. apply Permutation_swap.
Qed.

Lemma select_elem b flags : ∀ l d,
  d ∈ select b flags l → ∃ i, flags !! i = Some b ∧ l !! i = Some d.
Proof.
  induction flags as [|f flags IH]; intros [|x l] d; cbn; try by intros ?%not_elem_of_nil.
  destruct (Bool.eqb_spec f b) as [->|].
  - intros [->|(i & Hi)%IH]%elem_of_cons; [by exists O|by exists (S i)].
  - intros (i & Hi)%IH. by exists (S i).
Qed.

(** ** The loop *)

Definition good_pair (desired : list DesiredInstance) (p : MatchingPair) : Prop :=
  mp_Desired p ∈ desired ∧ names (mp_Desired p) (observed_key (mp_Observed p))
  ∧ IsRunningState (oc_State (mp_Observed p)) = true.

(** The invariant after the containers [seen]. *)
Record diff_inv (desired : list DesiredInstance) (seen : list ObservedContainer) (st : DiffState) :
    Prop := {
  di_length : length (ds_matched st) = length desired;
  di_observed : (mp_Observed <$> ds_Matching st) ++ ds_Extra st ≡ₚ seen;
  di_desired : mp_Desired <$> ds_Matching st ≡ₚ select true (ds_matched st) desired;
  di_pairs : Forall (good_pair desired) (ds_Matching st);
  di_unmatched : ∀ i o, ds_matched st !! i = Some false → o ∈ seen →
    lookup_desired (index_desired 0 desired ∅) o = Some i → IsRunningState (oc_State o) = false
}.

Lemma lookup_desired_range desired o i :
  lookup_desired (index_desired 0 desired ∅) o = Some i →
  ∃ d, desired !! i = Some d ∧ names d (observed_key o).
Proof. unfold lookup_desired. case_decide; [done|]. apply index_desired_range. Qed.

(** A container that is not matched is extra. *)
Lemma diff_inv_extra desired seen st o :
  diff_inv desired seen st →
  (∀ i, ds_matched st !! i = Some false →
     lookup_desired (index_desired 0 desired ∅) o = Some i → IsRunningState (oc_State o) = false) →
  diff_inv desired (seen ++ [o])
    (mkDiffState (ds_matched st) (ds_Matching st) (ds_Extra st ++ [o])).
Proof.
  intros [H1 H2 H3 H4 H5] Ho. split; cbn; try done.
  - by rewrite app_assoc, H2.
  - intros i o' Hi [Hs|Hs%list_elem_of_singleton]%elem_of_app; [by apply H5|subst; by apply Ho].
Qed.

Lemma diff_inv_step desired seen st o :
  diff_inv desired seen st →
  diff_inv desired (seen ++ [o]) (diff_step (index_desired 0 desired ∅) desired st o).
Proof.
  intros H. unfold diff_step. destruct (lookup_desired _ o) as [idx|] eqn:El.
  2: { apply diff_inv_extra; [done|congruence]. }
  destruct (lookup_desired_range _ _ _ El) as (d & Hd & Hn). rewrite Hd.
  destruct (lookup_lt_is_Some_2 (ds_matched st) idx) as [m Hm].
  { rewrite (di_length _ _ _ H). by eapply lookup_lt_Some. }
  rewrite Hm. destruct (IsRunningState (oc_State o) && negb m) eqn:E.
  - apply andb_true_iff in E as [Er ->%negb_true_iff]. destruct H as [H1 H2 H3 H4 H5].
    split; cbn.
    + by rewrite length_insert.
    + rewrite fmap_app, <- app_assoc. cbn. rewrite <- Permutation_middle, H2. apply Permutation_cons_append.
    + rewrite fmap_app, H3, select_mark by done. cbn. by rewrite <- Permutation_cons_append.
    + apply Forall_app. split; [done|]. apply Forall_singleton. split; [by eapply list_elem_of_lookup_2|done].
    + intros i o' Hi Hs Hl. destruct (decide (i = idx)) as [->|Hne].
      * rewrite list_lookup_insert_eq in Hi by (by eapply lookup_lt_Some). done.
      * rewrite list_lookup_insert_ne in Hi by done.
        apply elem_of_app in Hs as [Hs|Hs%list_elem_of_singleton]; [by eapply H5|congruence].
  - apply diff_inv_extra; [done|]. intros i Hi [= ->]%(eq_trans (eq_sym El)).
    assert (m = false) as -> by congruence. by rewrite andb_true_r in E.
Qed.

Lemma diff_inv_fold desired observed : ∀ seen st,
  diff_inv desired seen st →
  diff_inv desired (seen ++ observed)
    (fold_left (diff_step (index_desired 0 desired ∅) desired) observed st).
Proof.
  induction observed as [|o observed IH]; intros seen st H; cbn; [by rewrite app_nil_r|].
  rewrite cons_middle, app_assoc. apply IH. by apply diff_inv_step.
Qed.

Lemma diff_inv_start desired :
  diff_inv desired [] (mkDiffState (replicate (length desired) false) [] []).
Proof.
  destruct (select_replicate desired) as [E _].
  split; cbn; try done; [apply length_replicate|by rewrite E|by intros ? ? ? ?%not_elem_of_nil].
Qed.

Lemma diff_inv_end desired observed :
  ∃ flags, diff_inv desired observed
      (mkDiffState flags (df_Matching (ComputeDiff desired observed)) (df_Extra (ComputeDiff desired observed)))
    ∧ df_Missing (ComputeDiff desired observed) = select false flags desired.
Proof.
  pose proof (diff_inv_fold desired observed [] _ (diff_inv_start desired)) as H.
  unfold ComputeDiff. cbv zeta. revert H. generalize (fold_left (diff_step (index_desired 0 desired ∅) desired) observed
    (mkDiffState (replicate (length desired) false) [] [])).
  intros [flags m e] H. by exists flags.
Qed.

(** No two of the desired instances share a name. *)
Definition distinct_names (desired : list DesiredInstance) : Prop :=
  ∀ i j d e k, desired !! i = Some d → desired !! j = Some e → names d k → names e k → i = j.

Lemma missing_unobserved (desired : list DesiredInstance) (observed : list ObservedContainer) :
  distinct_names desired →
  let r := ComputeDiff desired observed in
  ∀ d, d ∈ df_Missing r →
  ∀ o, o ∈ observed → names d (observed_key o) → IsRunningState (oc_State o) = false.
Proof.
  intros Hd r d Hm o Ho Hn.
  destruct (diff_inv_end desired observed) as (flags & H & E). unfold r in Hm. rewrite E in Hm.
  apply select_elem in Hm as (i & Hi & Hl). refine (di_unmatched _ _ _ H i o Hi Ho _).
  unfold lookup_desired. rewrite decide_False by apply Hn.
  destruct (index_desired_complete desired 0 ∅ (observed_key o) i d Hl Hn) as [j Hj].
  rewrite Hj. destruct (index_desired_range _ _ _ Hj) as (e & He & Hne). f_equal.
  symmetry. by eapply Hd.
Qed.

(** ** The properties *)

(** ComputeDiff accounts for everything once: the matched and the extra
    containers are a permutation of the observed ones, the matched and the
    missing instances of the desired ones, and a matched container is running
    and bears a name of its instance. *)
Theorem diff_partitions (desired : list DesiredInstance) (observed : list ObservedContainer) :
  let r := ComputeDiff desired observed in
  (mp_Observed <$> df_Matching r) ++ df_Extra r ≡ₚ observed
  ∧ (mp_Desired <$> df_Matching r) ++ df_Missing r ≡ₚ desired
  ∧ Forall (good_pair desired) (df_Matching r).
Proof.
  cbv zeta. destruct (diff_inv_end desired observed) as (flags & [H1 H2 H3 H4 H5] & ->); cbn in *.
  split_and!; [done| |done]. rewrite H3. by apply select_split.
Qed.

(** When no two desired instances share a name, no running container bears a
    name of an instance that ComputeDiff reports as missing. *)
Theorem diff_missing_unobserved (desired : list DesiredInstance) (observed : list ObservedContainer) :
  distinct_names desired →
  let r := ComputeDiff desired observed in
  ∀ d, d ∈ df_Missing r →
  ∀ o, o ∈ observed → names d (observed_key o) → IsRunningState (oc_State o) = false.
Proof. apply missing_unobserved. Qed.

End diff.

(** ** A concrete comparison

    The container of the one instance has exited, so that instance is missing. *)

Definition demo_desired : DesiredInstance :=
  mkDesired "id-1" "key-1" "d1" "w1" "img:1" ∅ ∅ "RUNNING".

Definition demo_observed : ObservedContainer :=
  mkObserved "w1" "worker-1" "c1" "key-1" "d1" "img:1" "Exited (1) 2 minutes ago" ∅ 0.

Lemma diff_missing_unobserved_witness :
  df_Missing (ComputeDiff (uni := unicode_none) [demo_desired] [demo_observed]) = [demo_desired]
  ∧ IsRunningState (uni := unicode_none) (oc_State demo_observed) = false.
Proof.
  split; [vm_compute; reflexivity|].
  apply (diff_missing_unobserved (uni := unicode_none) [demo_desired] [demo_observed]) with demo_desired.
  - intros [|i] [|j] d e k; cbn; done.
  - vm_compute. left.
  - left.
  - split; [discriminate|by left].
Defined.
