(* ===== verification/Repair.v ===== *)
(** * Orphans and repairs: internal/reconcile/orphan_policy.go and repair.go

    What the reconciler does with a container nothing asks for, and with an
    instance no worker runs. *)

From stdpp Require Import base option gmap strings list pretty.
From Stdlib Require Import ZArith Lia.
From S2P Require Import Prelude GoLib GoFloat PtrStore Workers Scheduler LoadBalancer HA Deployments Fleet Platform Service ServiceFacts Demo Diff.

(** ** orphan_policy.go *)

Inductive OrphanType := OrphanTypeManaged | OrphanTypeUnknown.

#[export] Instance OrphanType_eq_dec : EqDecision OrphanType.
Proof. solve_decision. Defined.

Definition ClassifyOrphan (c : ObservedContainer) : OrphanType :=
  if decide (oc_InstanceKey c ≠ "") then OrphanTypeManaged
  else if decide (oc_DeploymentID c ≠ "") then OrphanTypeManaged
  else match oc_Labels c !! "nebula.instance_id" with
  | Some _ => OrphanTypeManaged
  | None =>
    match oc_Labels c !! "nebula.deployment_id" with
    | Some _ => OrphanTypeManaged
    | None => OrphanTypeUnknown
    end
  end.

Record OrphanDecision := mkDecision {
  od_Container : ObservedContainer;
  od_Type : OrphanType;
  od_ActionTaken : string;
  od_Error : string
}.

Record RepairResult := mkRepair {
  rr_InstanceKey : string;
  rr_WorkerID : string;
  rr_ContainerID : string;
  rr_Success : bool;
  rr_Err : string
}.

Section reconcile.
Context {DR IR WR F X : Type}.
Context {ent : Entropy} `{!DeploymentRepository DR, !InstanceRepository IR, !WorkerRepository WR}.
Context `{!WorkerClientFactory F} {uni : Unicode}.

Abbreviation M := (ST (Sys DR IR WR F X)).

(** The name under which the worker is asked to stop a container. *)
Definition orphan_target (c : ObservedContainer) : string :=
  if decide (oc_InstanceKey c = "") then oc_ContainerID c else oc_InstanceKey c.

(** [err != nil || !resp.Success], and the message of the decision. *)
Definition stop_failure (r : error + StopContainerResponse) : option string :=
  match r with
  | inl err => Some err
  | inr resp =>
    if ss_Success resp then None
    else Some (if decide (ss_Error resp = "") then "failed to stop container" else ss_Error resp)
  end.

(** The client is the worker it is connected to, [None] for a nil client. *)
Definition EnforceOrphanPolicy (c : ObservedContainer) (client : option Worker) : M OrphanDecision :=
  match ClassifyOrphan c with
  | OrphanTypeManaged =>
    match client with
    | None => ret (mkDecision c OrphanTypeManaged "STOPPED" "")
    | Some w =>
      let! r := stop_container w (mkStopRequest (orphan_target c) 10) in
      match stop_failure r with
      | Some msg => ret (mkDecision c OrphanTypeManaged "ERROR" msg)
      | None => ret (mkDecision c OrphanTypeManaged "STOPPED" "")
      end
    end
  | OrphanTypeUnknown => ret (mkDecision c OrphanTypeUnknown "FLAGGED_ONLY" "")
  end.

(** ** repair.go *)

(** The assigned worker, when it can take the instance back. *)
Definition assigned_worker (missing : DesiredInstance) : M (option Worker) :=
  if decide (di_WorkerID missing = "") then ret None
  else
    let! w := worker_get (di_WorkerID missing) in
    ret (match w with
         | Some w => if bool_decide (w_Health w = HealthHealthy) && bool_decide (w_State w ≠ StateDraining)
                     then Some w else None
         | None => None
         end).

Definition repair_requirement (missing : DesiredInstance) : WorkloadRequirement :=
  mkReq (di_DeploymentID missing) 1 (di_Labels missing).

Definition repair_labels (missing : DesiredInstance) : gmap string string :=
  let labels := <["nebula.instance_id" := di_InstanceKey missing]> (di_Labels missing) in
  if decide (di_DeploymentID missing = "") then labels
  else <["nebula.deployment_id" := di_DeploymentID missing]> labels.

Definition repair_request (missing : DesiredInstance) : RunContainerRequest :=
  mkRunRequest (di_InstanceKey missing) (di_DeploymentID missing) (di_Image missing)
    (di_Env missing) (repair_labels missing) [] fzero 0.

(** [err != nil || runResp.Error != ""]. *)
Definition run_failure (r : error + RunContainerResponse) : option string :=
  match r with
  | inl err => Some err
  | inr resp => if decide (rs_Error resp = "") then None else Some (rs_Error resp)
  end.

(** Rewrites the instance's record, when the repository has one. *)
Definition rewrite_instance (key : string) (f : Instance_ → Instance_) : M unit :=
  let! r := inst_get_key key in
  match r with
  | inr inst => inst_update (f inst) ;; ret tt
  | inl _ => ret tt
  end.

Definition not_repaired (missing : DesiredInstance) (workerID msg : string) : RepairResult :=
  mkRepair (di_InstanceKey missing) workerID "" false msg.

(** Lines 120 to 204, on the worker that was chosen. *)
Definition repair_on (missing : DesiredInstance) (w : Worker) : M (RepairResult * option error) :=
  let! gerr := get_client w in
  match gerr with
  | Some err => ret (not_repaired missing (w_ID w) ("dial worker failed: " +:+ err), Some err)
  | None =>
    let! r := run_container w (repair_request missing) in
    match run_failure r, r with
    | None, inr resp =>
      rewrite_instance (di_InstanceKey missing)
        (λ inst, inst <| i_WorkerID := w_ID w |> <| i_Status := "RUNNING" |>) ;;
      ret (mkRepair (di_InstanceKey missing) (w_ID w) (rs_ContainerId resp) true "", None)
    | failure, _ =>
      let msg := default "failed to run container" failure in
      rewrite_instance (di_InstanceKey missing) (λ inst, inst <| i_Status := "REPAIR_FAILED" |>) ;;
      ret (not_repaired missing (w_ID w) msg, Some ("recreate container failed: " +:+ msg))
    end
  end.

Definition RepairMissing (missing : DesiredInstance) (currentlyRunningCount desiredCount : Z) :
    M (RepairResult * option error) :=
  if desiredCount <=? currentlyRunningCount
  then ret (not_repaired missing "" "replica count invariant: running count >= desired count", None)
  else
  let! assigned := assigned_worker missing in
  match assigned with
  | Some w => repair_on missing w
  | None =>
    let! r := select_worker (repair_requirement missing) in
    match r with
    | inl err =>
      ret (not_repaired missing "" ("no feasible worker available: " +:+ err), Some err)
    | inr w => repair_on missing w
    end
  end.

End reconcile.

Section facts.
Context {DR IR WR F X : Type}.
Context {ent : Entropy} `{!DeploymentRepository DR, !InstanceRepository IR, !WorkerRepository WR}.
Context `{!WorkerClientFactory F} {uni : Unicode} {net : NetURL}.
Context {entl : EntropyLaws} `{!DeploymentStore DR, !InstanceStore IR, !WorkerRepositoryLaws WR}.
Implicit Types s : Sys DR IR WR F X.

(** The container carries the platform's metadata. *)
Definition has_metadata (c : ObservedContainer) : Prop :=
  oc_InstanceKey c ≠ "" ∨ oc_DeploymentID c ≠ ""
  ∨ is_Some (oc_Labels c !! "nebula.instance_id") ∨ is_Some (oc_Labels c !! "nebula.deployment_id").

Lemma ClassifyOrphan_spec c : ClassifyOrphan c = OrphanTypeManaged ↔ has_metadata c.
Proof.
  unfold ClassifyOrphan, has_metadata.
  destruct (decide (oc_InstanceKey c ≠ "")); [tauto|].
  destruct (decide (oc_DeploymentID c ≠ "")); [tauto|].
  destruct (oc_Labels c !! "nebula.instance_id"); [naive_solver|].
  destruct (oc_Labels c !! "nebula.deployment_id"); [naive_solver|].
  split; [done|]. intros [?|[?|[[]|[]]]]; done.
Qed.

(** A container without the platform's metadata is only flagged and nothing is
    called; one with metadata costs exactly one StopContainer call on its worker
    and is reported STOPPED or ERROR as the worker answered, or reported STOPPED
    without any call when there is no client. *)
Theorem orphan_policy_spec (c : ObservedContainer) (client : option Worker) s :
  let '(d, s') := EnforceOrphanPolicy c client s in
  (¬ has_metadata c → od_ActionTaken d = "FLAGGED_ONLY" ∧ s' = s)
  ∧ (has_metadata c → client = None → od_ActionTaken d = "STOPPED" ∧ s' = s)
  ∧ (∀ w, has_metadata c → client = Some w →
       let '(answer, fleet) := wc_StopContainer w (mkStopRequest (orphan_target c) 10) (s_fleet s) in
       s' = s <| s_fleet := fleet |>
       ∧ match stop_failure answer with
         | None => od_ActionTaken d = "STOPPED"
         | Some msg => od_ActionTaken d = "ERROR" ∧ od_Error d = msg
         end).
Proof.
  unfold EnforceOrphanPolicy. pose proof (ClassifyOrphan_spec c) as Hc.
  destruct (ClassifyOrphan c).
  - assert (has_metadata c) as Hm by tauto. destruct client as [w|].
    + unfold bind, stop_container, on_fleet.
      destruct (wc_StopContainer _ _ _) as [r f] eqn:E. cbn.
      destruct (stop_failure r) eqn:Es; cbn; (split; [done|split; [done|]]);
        intros w' _ [= <-]; rewrite E, Es; done.
    + cbn. split; [done|]. split; done.
  - assert (¬ has_metadata c) as Hm by (intros H%Hc; done). cbn. split; [done|]. split; done.
Qed.

(** The contents after the record found under [key] was rewritten. *)
Definition rewritten (key : string) (f : Instance_ → Instance_) s (v : View WR) : Prop :=
  match ir_GetByInstanceKey key (s_insts s) with
  | inl _ => v = view s
  | inr inst => ∃ now, v = (view s) <| v_insts ::= put_instance (i_touch now (f inst)) |>
  end.

Lemma inst_update_fleet i : steps (λ s s', s_fleet s' = s_fleet s) (inst_update i).
Proof. intros s. unfold inst_update, bind, draw_now. cbn. by destruct (ir_Update _ _ _) as [[]]. Qed.

Lemma wp_rewrite_instance key f (Q : unit → Sys DR IR WR F X → Prop) s :
  sys_ok s →
  (∀ s' v, after s s' v → rewritten key f s v → s_fleet s' = s_fleet s → Q tt s') →
  wp (rewrite_instance key f) Q s.
Proof.
  intros H HQ. unfold rewrite_instance. apply wp_bind. unfold inst_get_key. apply wp_gets.
  destruct (ir_GetByInstanceKey key (s_insts s)) as [e|inst] eqn:E.
  - apply wp_ret. eapply HQ; [by apply after_refl|unfold rewritten; by rewrite E|done].
  - apply wp_bind. eapply wp_wand.
    + apply wp_and; [|apply steps_wp, inst_update_fleet].
      apply (wp_inst_update_any _ (λ _ s', ∃ v, after s s' v ∧ rewritten key f s v)); [done|].
      intros err i' now s' A. eexists. split; [done|]. unfold rewritten. rewrite E. by exists now.
    + intros r s' [(v & A & R) Hf]. apply wp_ret. by eapply HQ.
Qed.

(** [s'] has the data of [s]. *)
Record same_data s s' : Prop := {
  sd_deps : s_deps s' = s_deps s;
  sd_insts : s_insts s' = s_insts s;
  sd_registry : s_registry s' = s_registry s;
  sd_router : s_router s' = s_router s;
  sd_tick : (s_tick s ≤ s_tick s')%nat
}.

Lemma same_data_after s s' : sys_ok s → same_data s s' → after s s' (view s).
Proof. intros H []. by apply after_same. Qed.

Lemma same_data_fleet s s' fl : same_data s s' → same_data s (s' <| s_fleet := fl |>).
Proof. by intros []. Qed.

Lemma after_rewritten key f s s1 s' v :
  sys_ok s → same_data s s1 → after s1 s' v → rewritten key f s1 v →
  after s s' v ∧ rewritten key f s v.
Proof.
  intros H D A R. pose proof (same_data_after _ _ H D) as A1. split; [by eapply after_trans|].
  unfold rewritten in *. by rewrite (sd_insts _ _ D), (af_view _ _ _ A1) in R.
Qed.

(** The workers a repair may use: the assigned one while it is healthy, or
    one the scheduler finds feasible. *)
Definition repair_worker (missing : DesiredInstance) s (w : Worker) : Prop :=
  (Get (di_WorkerID missing) (s_registry s) = Some w ∧ w_Health w = HealthHealthy ∧ w_State w ≠ StateDraining)
  ∨ (Feasible (repair_requirement missing) w
     ∧ get_pri (w_WorkerKey w) (rg_store (s_registry s)) = Some w).

(** The fleet ran the request of the repair on [w] and gave [containerID]. *)
Definition ran_repair (missing : DesiredInstance) (w : Worker) (containerID : string)
    (s' : Sys DR IR WR F X) : Prop :=
  ∃ fl resp, wc_RunContainer w (repair_request missing) fl = (inr resp, s_fleet s')
    ∧ rs_Error resp = "" ∧ rs_ContainerId resp = containerID.

(** What a repair promises: with success the container runs on such a worker
    and one record, that of the instance, says so; without, at most that
    record's status tells of the failure. *)
Definition repair_post (missing : DesiredInstance) s (r : RepairResult * option error)
    (s' : Sys DR IR WR F X) : Prop :=
  ∃ v, after s s' v
  ∧ if rr_Success r.1
    then r.2 = None
      ∧ (∃ w, repair_worker missing s w ∧ rr_WorkerID r.1 = w_ID w
           ∧ ran_repair missing w (rr_ContainerID r.1) s')
      ∧ rewritten (di_InstanceKey missing)
          (λ i, i <| i_WorkerID := rr_WorkerID r.1 |> <| i_Status := "RUNNING" |>) s v
    else is_Some r.2
      ∧ (v = view s ∨ rewritten (di_InstanceKey missing) (λ i, i <| i_Status := "REPAIR_FAILED" |>) s v).

Lemma wp_fleet {A} (f : F → A * F) (Q : A → Sys DR IR WR F X → Prop) s :
  (∀ a fl, f (s_fleet s) = (a, fl) → Q a (s <| s_fleet := fl |>)) → wp (on_fleet f) Q s.
Proof. intros HQ. unfold wp, on_fleet. destruct (f (s_fleet s)) as [a fl]. by apply HQ. Qed.

Lemma wp_repair_on missing w s s1 :
  sys_ok s → same_data s s1 → repair_worker missing s w →
  wp (repair_on missing w) (repair_post missing s) s1.
Proof.
  intros H D Hw. unfold repair_on, get_client, run_container.
  apply wp_bind, wp_fleet. intros gerr fl1 _. pose proof (same_data_fleet _ _ fl1 D) as D1.
  destruct gerr as [err|].
  { apply wp_ret. exists (view s). split; [by apply same_data_after|]. split; [by eexists|by left]. }
  apply wp_bind, wp_fleet. intros r fl2 Er. pose proof (same_data_fleet _ _ fl2 D1) as D2.
  pose proof (same_data_after _ _ H D2) as A2. cbn [s_fleet set_field] in Er.
  destruct (run_failure r) as [msg|] eqn:Ef.
  - destruct r; apply wp_bind, wp_rewrite_instance; try apply (af_ok _ _ _ A2); intros s2 v A R Hf;
      destruct (after_rewritten _ _ _ _ _ _ H D2 A R); apply wp_ret;
      exists v; (split; [done|]); (split; [by eexists|by right]).
  - destruct r as [e|resp]; [done|]. apply wp_bind, wp_rewrite_instance; [apply (af_ok _ _ _ A2)|].
    intros s2 v A R Hf. destruct (after_rewritten _ _ _ _ _ _ H D2 A R). apply wp_ret.
    exists v. split; [done|]. cbn. split_and!; [done| |done].
    exists w. split_and!; [done..|]. exists fl1, resp. rewrite Hf. unfold run_failure in Ef.
    destruct (decide (rs_Error resp = "")); [|done]. by split_and!.
Qed.

Lemma wp_RepairMissing (missing : DesiredInstance) (running desired : Z) s :
  sys_ok s →
  if desired <=? running
  then RepairMissing missing running desired s
    = (not_repaired missing "" "replica count invariant: running count >= desired count", None, s)
  else wp (RepairMissing missing running desired) (repair_post missing s) s.
Proof.
  intros H. unfold RepairMissing. destruct (desired <=? running); [done|].
  assert (same_data s s) as D by done.
  assert (∀ Q : _ → Sys DR IR WR F X → Prop,
    (∀ ow, match ow with Some w => repair_worker missing s w | None => True end → Q ow s) →
    wp (assigned_worker missing) Q s) as Hassigned.
  { intros Q HQ. unfold assigned_worker. case_decide; [by apply wp_ret, HQ|].
    apply wp_bind, wp_worker_get, wp_ret, HQ. unfold view. cbn.
    destruct (Get (di_WorkerID missing) (s_registry s)) as [w|] eqn:E; [|done].
    destruct (_ && _) eqn:Eb; [|done]. apply andb_true_iff in Eb as [H1 H2].
    apply bool_decide_eq_true in H1, H2. by left. }
  apply wp_bind, Hassigned. intros [w|] Hw; [by apply wp_repair_on|].
  apply wp_bind. unfold wp, select_worker, bind, draw_order, gets. cbn [fst snd].
  match goal with |- context [SelectWorker ?sc ?o ?g ?q] =>
    pose proof (SelectWorker_spec sc o g q) as Hs; destruct (SelectWorker sc o g q) as [err|w] end.
  - exists (view s). split; [by apply after_draw|]. split; [by eexists|by left].
  - apply wp_repair_on; [done|split; cbn; [done..|lia]|]. right. destruct Hs as [[k Hk]%elem_of_List Hf].
    split; [done|]. destruct (get_pri_cell _ _ _ Hk) as (l & Hp & Hh). cbn in *.
    by rewrite (ri_key _ (ok_registry _ H) _ _ _ Hp Hh).
Qed.

(** RepairMissing does nothing when enough replicas run; otherwise success means
    that the container was run on the assigned worker while healthy, or on one
    the scheduler found feasible, and that only the record of the instance was
    changed, to RUNNING there; without success at most the status of that record
    becomes REPAIR_FAILED. *)
Theorem repair_missing_outcome (missing : DesiredInstance) (running desired : Z) s :
  sys_ok s →
  if desired <=? running
  then RepairMissing missing running desired s
    = (not_repaired missing "" "replica count invariant: running count >= desired count", None, s)
  else wp (RepairMissing missing running desired) (repair_post missing s) s.
Proof. apply wp_RepairMissing. Qed.

End facts.

(** ** The concrete platform *)

#[local] Existing Instance demo_entropy.
#[local] Existing Instance demo_entropy_laws.
#[local] Existing Instance demo_url.
#[local] Existing Instance unicode_none.

Definition demo_missing : DesiredInstance :=
  mkDesired "i1" "inst-1" "d1" "w-uuid" "img:1" ∅ ∅ "RUNNING".

Example demo_repair_runs :
  let '(res, err) := (RepairMissing demo_missing 0 1 demo_sys).1 in
  (rr_Success res, rr_WorkerID res, rr_ContainerID res, err) = (true, "w-uuid", "mock-ctr-inst-1", None).
Proof. vm_compute. reflexivity. Qed.

Lemma repair_missing_outcome_witness :
  wp (RepairMissing demo_missing 0 1) (repair_post demo_missing demo_sys) demo_sys.
Proof. exact (repair_missing_outcome demo_missing 0 1 demo_sys demo_sys_ok). Defined.
