(* ===== verification/Draining.v ===== *)
(** * Migration from draining workers: internal/reconcile/loop.go, ReconcileDraining

    The running instances of a worker that is being drained are started on
    another worker, rewritten, and stopped on the old one. *)

From stdpp Require Import base option gmap strings list pretty.
From Stdlib Require Import ZArith Lia.
From S2P Require Import Prelude GoLib GoFloat PtrStore Workers Scheduler LoadBalancer HA Deployments Fleet Platform Service ServiceFacts Lifecycle Scaling Demo ServiceTheorems Diff Repair.

Section draining.
Context {DR IR WR F X : Type}.
Context {ent : Entropy} `{!DeploymentRepository DR, !InstanceRepository IR, !WorkerRepository WR}.
Context `{!WorkerClientFactory F}.

Abbreviation M := (ST (Sys DR IR WR F X)).

Definition migration_requirement (dep : Deployment) : WorkloadRequirement :=
  mkReq (d_ID dep) 1 (d_Labels dep).

Definition migration_request (dep : Deployment) (inst : Instance_) : RunContainerRequest :=
  mkRunRequest (i_InstanceKey inst) (d_ID dep) (d_Image dep) (d_Env dep) (d_Labels dep) [] fzero 0.

(** The container runs on [target]: the record and the workloads follow, and
    the old container is stopped; failures of this part are only logged. *)
Definition finish_migration (w target : Worker) (containerID : string) (inst : Instance_) : M unit :=
  inst_update (inst <| i_WorkerID := w_ID target |> <| i_ContainerID := containerID |>) ;;
  worker_load (w_WorkerKey target) 1 ;;
  worker_load (w_WorkerKey w) (-1) ;;
  let! gerr := get_client w in
  match gerr with
  | None => stop_container w (mkStopRequest (i_InstanceKey inst) 10) ;; ret tt
  | Some _ => ret tt
  end.

(** One turn of the loop over the instances of the draining worker [w]. *)
Definition migrate_instance (w : Worker) (inst : Instance_) (migratedTotal : Z) : M Z :=
  if decide (i_Status inst ≠ "RUNNING") then ret migratedTotal
  else
  let! d := dep_get (i_DeploymentID inst) in
  match d with
  | inl _ => ret migratedTotal
  | inr dep =>
    let! t := select_worker (migration_requirement dep) in
    match t with
    | inl _ => ret migratedTotal
    | inr target =>
      let! gerr := get_client target in
      match gerr with
      | Some _ => ret migratedTotal
      | None =>
        let! r := run_container target (migration_request dep inst) in
        match run_failure r, r with
        | None, inr resp =>
          finish_migration w target (rs_ContainerId resp) inst ;; ret (migratedTotal + 1)
        | _, _ => ret migratedTotal
        end
      end
    end
  end.

Definition drain_worker (w : Worker) (migratedTotal : Z) : M Z :=
  if decide (w_State w ≠ StateDraining) then ret migratedTotal
  else
    let! l := inst_list_worker (w_ID w) in
    match l with
    | inl _ => ret migratedTotal
    | inr instances => for_each instances migratedTotal (migrate_instance w)
    end.

Definition ReconcileDraining : M (Z * option error) :=
  let! o := draw_order in
  let! allWorkers := gets (λ s, List o (s_registry s)) in
  let! migratedTotal := for_each allWorkers 0 drain_worker in
  ret (migratedTotal, None).

End draining.

(** ** What changing a workload count leaves of the registry *)

(** A worker without its workload count. *)
Definition static (w : Worker) : Worker := w <| w_ActiveWorkloads := 0 |>.

(** The registries have the same workers, but for the counts. *)
Definition same_workers {WR} (r r' : Registry WR) : Prop :=
  ∀ k, static <$> get_pri k (rg_store r') = static <$> get_pri k (rg_store r).

#[export] Instance same_workers_equiv {WR} : Equivalence (@same_workers WR).
Proof. split; [done|by intros r r' H k|]. intros r1 r2 r3 H1 H2 k. by rewrite H2. Qed.

Lemma static_add_workload d w : static (add_workload d w) = static w.
Proof. unfold static, add_workload. cbv zeta. by case_match. Qed.

Lemma same_workers_UpdateWorkload {WR} (r : Registry WR) x d :
  reg_inv (rg_store r) → same_workers r (UpdateWorkload x d r).
Proof.
  intros H k. unfold UpdateWorkload. destruct (findWorkerLocked x r) as [[l w]|] eqn:Hf; [|done].
  destruct (findWorkerLocked_cell r x l w) as [Hp Hh]; [done..|]. cbn.
  rewrite (get_pri_write _ (w_WorkerKey w)) by (apply H || done).
  case_decide; [subst k|done]. cbn. rewrite static_add_workload. unfold get_pri. by rewrite Hp; cbn; rewrite Hh.
Qed.

Lemma same_workers_get {WR} (r r' : Registry WR) k w' :
  same_workers r r' → get_pri k (rg_store r') = Some w' →
  ∃ w, get_pri k (rg_store r) = Some w ∧ static w' = static w.
Proof.
  intros H E. specialize (H k). rewrite E in H. cbn in H. symmetry in H.
  apply fmap_Some_1 in H as (w & Hw & Es). by exists w.
Qed.

(** ** The migrations *)

Section facts.
Context {DR IR WR F X : Type}.
Context {ent : Entropy} `{!DeploymentRepository DR, !InstanceRepository IR, !WorkerRepository WR}.
Context `{!WorkerClientFactory F, !Externals X} {uni : Unicode} {net : NetURL}.
Context {entl : EntropyLaws} `{!DeploymentStore DR, !InstanceStore IR, !WorkerRepositoryLaws WR}.
Implicit Types s : Sys DR IR WR F X.

Definition draining_worker s (w : Worker) : Prop :=
  ∃ k, get_pri k (rg_store (s_registry s)) = Some w ∧ w_State w = StateDraining.

(** [i'] is the instance [i] after its migration: it ran on a draining worker,
    and now on one that is feasible for its deployment, as the fleet answered. *)
Definition migrated s (i i' : Instance_) : Prop :=
  i_Status i = "RUNNING"
  ∧ (∃ w, draining_worker s w ∧ i_WorkerID i = w_ID w)
  ∧ ∃ dep target target0 resp fl now,
      v_deps (view s) !! i_DeploymentID i = Some dep
      ∧ get_pri (w_WorkerKey target) (rg_store (s_registry s)) = Some target0
      ∧ static target = static target0
      ∧ Feasible (migration_requirement dep) target
      ∧ (wc_RunContainer target (migration_request dep i) fl).1 = inr resp ∧ rs_Error resp = ""
      ∧ i' = i_touch now (i <| i_WorkerID := w_ID target |> <| i_ContainerID := rs_ContainerId resp |>).

(** From [s] to [s'] the instances [moved] migrated, and the rest is as it was
    but for the workload counts and the fleet. *)
Record drained s s' (moved : gset string) : Prop := {
  dr_ok : sys_ok s';
  dr_deps : v_deps (view s') = v_deps (view s);
  dr_router : v_router (view s') = v_router (view s);
  dr_workers : same_workers (s_registry s) (s_registry s');
  dr_kept : ∀ k, k ∉ moved → v_insts (view s') !! k = v_insts (view s) !! k;
  dr_moved : ∀ k, k ∈ moved →
    ∃ i i', v_insts (view s) !! k = Some i ∧ v_insts (view s') !! k = Some i' ∧ migrated s i i'
}.

Lemma drained_refl s : sys_ok s → drained s s ∅.
Proof. intros H. by split. Qed.

(** A step that changes workload counts at most. *)
Lemma drained_static s0 s s' v moved :
  drained s0 s moved → after s s' v → v_deps v = v_deps (view s) → v_insts v = v_insts (view s) →
  v_router v = v_router (view s) → same_workers (s_registry s) (v_registry v) →
  drained s0 s' moved.
Proof.
  intros [H1 H2 H3 H4 H5 H6] [A1 A2 _] E1 E2 E3 E4. split.
  - done.
  - by rewrite A2, E1.
  - by rewrite A2, E3.
  - transitivity (s_registry s); [done|]. by rewrite <- A2 in E4.
  - intros k Hk. rewrite A2, E2. by apply H5.
  - intros k Hk. rewrite A2, E2. by apply H6.
Qed.

Lemma drained_idle s0 s s' moved : drained s0 s moved → after s s' (view s) → drained s0 s' moved.
Proof. intros H A. by eapply drained_static. Qed.

Lemma drained_load s0 s s' moved x d :
  drained s0 s moved → after s s' ((view s) <| v_registry ::= UpdateWorkload x d |>) →
  drained s0 s' moved.
Proof.
  intros H A. eapply drained_static; [done..|]. cbn.
  apply same_workers_UpdateWorkload, (ok_registry _ (dr_ok _ _ _ H)).
Qed.

(** The record of an instance not moved yet is rewritten. *)
Lemma drained_move s0 s s' moved i i' :
  drained s0 s moved → i_ID i ∉ moved → v_insts (view s) !! i_ID i = Some i →
  after s s' ((view s) <| v_insts ::= <[i_ID i := i']> |>) → migrated s0 i i' →
  drained s0 s' ({[i_ID i]} ∪ moved).
Proof.
  intros [H1 H2 H3 H4 H5 H6] Hn Hi [A1 A2 _] Hm.
  split; rewrite ?A2; try done; [by rewrite (f_equal v_registry A2 : s_registry s' = s_registry s)| |].
  - intros k Hk. cbn. rewrite lookup_insert_ne by set_solver. apply H5. set_solver.
  - intros k Hk. cbn. destruct (decide (k = i_ID i)) as [->|Hne].
    + exists i, i'. rewrite lookup_insert_eq, <- (H5 _ Hn). done.
    + rewrite lookup_insert_ne by done. apply H6. set_solver.
Qed.

(** Why an instance stays where it is: it does not run, its deployment is gone,
    no worker was feasible at its turn, or the fleet refused. *)
Definition deferred s (i : Instance_) : Prop :=
  i_Status i ≠ "RUNNING"
  ∨ v_deps (view s) !! i_DeploymentID i = None
  ∨ ∃ dep, v_deps (view s) !! i_DeploymentID i = Some dep
    ∧ ((∃ g, same_workers (s_registry s) g
          ∧ ∀ k w, get_pri k (rg_store g) = Some w → ¬ Feasible (migration_requirement dep) w)
       ∨ ∃ target fl, Feasible (migration_requirement dep) target
          ∧ ((wc_GetClient target fl).1 ≠ None
             ∨ run_failure (wc_RunContainer target (migration_request dep i) fl).1 ≠ None)).

Lemma wp_migrate_instance s0 w inst moved n (Q : Z → Sys DR IR WR F X → Prop) s :
  drained s0 s moved → draining_worker s0 w →
  v_insts (view s) !! i_ID inst = Some inst → i_ID inst ∉ moved → i_WorkerID inst = w_ID w →
  (∀ s', drained s0 s' moved → v_insts (view s') = v_insts (view s) → deferred s0 inst → Q n s') →
  (∀ s', drained s0 s' ({[i_ID inst]} ∪ moved) →
     (∀ k, k ≠ i_ID inst → v_insts (view s') !! k = v_insts (view s) !! k) → Q (n + 1) s') →
  wp (migrate_instance w inst n) Q s.
Proof.
  intros D Hw Hi Hn Hwi HQ HM. unfold migrate_instance.
  assert (∀ s', after s s' (view s) → deferred s0 inst → Q n s') as Hskip.
  { intros s' A. apply HQ; [by eapply drained_idle|by rewrite (af_view _ _ _ A)]. }
  pose proof (dr_ok _ _ _ D) as Hok. pose proof (dr_deps _ _ _ D) as Hds.
  destruct (decide _) as [Hs|Hs%dec_stable]; [apply wp_ret, Hskip; [by apply after_refl|by left]|].
  apply wp_bind, wp_dep_get. rewrite Hds. destruct (v_deps (view s0) !! i_DeploymentID inst) as [dep|] eqn:Ed;
    [|apply wp_ret, Hskip; [by apply after_refl|by right; left]].
  apply wp_bind, wp_select_worker; [done|]. intros [err|t] s1 A1 Ht.
  { apply wp_ret, Hskip; [done|]. right; right. exists dep. split; [done|]. left.
    exists (s_registry s). split; [apply (dr_workers _ _ _ D)|exact Ht]. }
  destruct Ht as [Hf Ht].
  assert (∀ s' fl, after s s' (view s) → (wc_GetClient t fl).1 ≠ None
    ∨ run_failure (wc_RunContainer t (migration_request dep inst) fl).1 ≠ None → Q n s') as Hrefused.
  { intros s' fl A Hr. apply Hskip; [done|]. right; right. exists dep. split; [done|]. right. by exists t, fl. }
  unfold get_client at 1. apply wp_bind, wp_fleet. intros gerr fl0 Eg.
  set (s2 := s1 <| s_fleet := fl0 |>).
  assert (after s s2 (view s)) as A12.
  { eapply after_trans; [exact A1|]. rewrite <- (af_view _ _ _ A1). apply after_same; try done. apply (af_ok _ _ _ A1). }
  destruct gerr as [err|].
  { apply wp_ret, (Hrefused _ (s_fleet s1)); [done|]. left. by rewrite Eg. }
  unfold run_container. apply wp_bind, wp_fleet. intros r fl Er.
  assert (after s (s2 <| s_fleet := fl |>) (view s)) as A3.
  { eapply after_trans; [exact A12|]. rewrite <- (af_view _ _ _ A12).
    apply after_same; try done. apply (af_ok _ _ _ A12). }
  destruct (run_failure r) as [msg|] eqn:Ef.
  { assert (Q n (s2 <| s_fleet := fl |>)) by (apply (Hrefused _ (s_fleet s2)); [done|right; by rewrite Er; cbn; rewrite Ef]).
    destruct r; by apply wp_ret. }
  destruct r as [e|resp]; [done|]. unfold run_failure in Ef.
  destruct (decide (rs_Error resp = "")) as [Ere|]; [|done].
  apply wp_bind. unfold finish_migration.
  apply wp_bind. eapply wp_inst_update; [apply (af_ok _ _ _ A3)|by rewrite (af_view _ _ _ A3)|].
  intros err i' now s4 A4 _. rewrite (af_view _ _ _ A3) in A4.
  pose proof (after_trans _ _ _ _ _ A3 A4) as A5.
  destruct (same_workers_get _ _ _ _ (dr_workers _ _ _ D) Ht) as (t0 & Ht0 & Est).
  assert (migrated s0 inst (i_touch now
    (inst <| i_WorkerID := w_ID t |> <| i_ContainerID := rs_ContainerId resp |>))) as Hm.
  { split; [done|]. split; [by exists w|]. exists dep, t, t0, resp, (s_fleet s2), now.
    split_and!; try done. by rewrite Er. }
  pose proof (drained_move _ _ _ _ _ _ D Hn Hi A5 Hm) as D4.
  apply wp_bind, wp_worker_load; [apply (af_ok _ _ _ A4)|]. intros s5 A6.
  pose proof (drained_load _ _ _ _ _ _ D4 A6) as D5.
  apply wp_bind, wp_worker_load; [apply (af_ok _ _ _ A6)|]. intros s6 A7.
  pose proof (drained_load _ _ _ _ _ _ D5 A7) as D6.
  unfold get_client, stop_container.
  assert (∀ s7, after s6 s7 (view s6) → Q (n + 1) s7) as Hend.
  { intros s7 A. apply HM; [by eapply drained_idle|]. intros k Hk.
    rewrite (af_view _ _ _ A), (af_view _ _ _ A7); cbn.
    rewrite (af_view _ _ _ A6); cbn. rewrite (af_view _ _ _ A4); cbn. by rewrite lookup_insert_ne. }
  run_idle as gerr s7 A8. destruct gerr as [err2|]; [by apply wp_ret, wp_ret, Hend|].
  run_idle as r9 s8 A9. apply wp_ret, wp_ret, Hend. rewrite (af_view _ _ _ A8) in A9. by eapply after_trans.
Qed.

(** The instances of one worker. *)
Lemma wp_drain_instances s0 w l : ∀ moved n (Q : Z → Sys DR IR WR F X → Prop) s,
  drained s0 s moved → draining_worker s0 w →
  NoDup (i_ID <$> l) →
  Forall (λ i, v_insts (view s) !! i_ID i = Some i ∧ (i_ID i ∉ moved) ∧ i_WorkerID i = w_ID w) l →
  (∀ moved' s', drained s0 s' moved' → moved ⊆ moved' →
     (∀ i, i ∈ l → i_ID i ∈ moved' ∨ deferred s0 i) →
     Q (n + Z.of_nat (size moved') - Z.of_nat (size moved)) s') →
  wp (for_each l n (migrate_instance w)) Q s.
Proof.
  induction l as [|i l IH]; intros moved n Q s D Hw Hnd Hl HQ; cbn.
  { apply wp_ret. specialize (HQ moved s D ltac:(done)). rewrite Z.add_simpl_r in HQ. apply HQ.
    by intros i ?%not_elem_of_nil. }
  apply NoDup_cons in Hnd as [Hni Hnd]. apply Forall_cons in Hl as [(Hi & Hm & Hwi) Hl].
  assert (∀ j, j ∈ l → i_ID j ≠ i_ID i) as Hne.
  { intros j Hj E. apply Hni. rewrite <- E. by apply list_elem_of_fmap_2. }
  apply wp_bind. eapply wp_migrate_instance; [done..| |].
  - intros s' D' E Hdef. apply (IH moved); [done..| |].
    + eapply Forall_impl; [exact Hl|]. cbn. by rewrite E.
    + intros moved' s2 D2 Hsub Hall. apply HQ; [done..|]. intros j [->|Hj]%elem_of_cons; [by right|by apply Hall].
  - intros s' D' E. apply (IH ({[i_ID i]} ∪ moved)); [done..| |].
    + apply Forall_forall. intros j Hj. rewrite Forall_forall in Hl.
      destruct (Hl j Hj) as (H1 & H2 & H3). specialize (Hne j Hj). split_and!; [by rewrite E|set_solver|done].
    + intros moved' s2 D2 Hsub Hall. rewrite size_union, size_singleton by set_solver.
      replace (n + 1 + Z.of_nat (size moved') - Z.of_nat (1 + size moved))
        with (n + Z.of_nat (size moved') - Z.of_nat (size moved)) by lia.
      apply HQ; [done|set_solver|]. intros j [->|Hj]%elem_of_cons; [left; set_solver|by apply Hall].
Qed.

(** No instance moves twice: where it went is not a draining worker. *)
Lemma migrated_not_draining s i i' w :
  reg_inv (rg_store (s_registry s)) →
  (∀ k w, get_pri k (rg_store (s_registry s)) = Some w → w_ID w ≠ "") →
  migrated s i i' → draining_worker s w → i_WorkerID i' ≠ w_ID w.
Proof.
  intros H Hid (_ & _ & dep & t & t0 & resp & fl & now & _ & Ht & Est & Hf & _ & _ & ->) (k & Hk & Hs) E.
  cbn in E. destruct (get_pri_cell _ _ _ Ht) as (l1 & Hp1 & Hh1).
  destruct (get_pri_cell _ _ _ Hk) as (l2 & Hp2 & Hh2).
  assert (w_ID t = w_ID t0 ∧ w_State t = w_State t0) as [E1 E2].
  { split; [apply (f_equal w_ID) in Est|apply (f_equal w_State) in Est]; exact Est. }
  pose proof (ri_id _ H _ _ _ Hp1 Hh1 (Hid _ _ Ht)) as S1.
  pose proof (ri_id _ H _ _ _ Hp2 Hh2 (Hid _ _ Hk)) as S2.
  assert (l1 = l2) as <- by congruence. assert (t0 = w) as -> by congruence.
  destruct Hf. congruence.
Qed.

(** The instances listed for a draining worker are still to move. *)
Lemma listed_to_drain s0 s moved w l :
  reg_inv (rg_store (s_registry s0)) →
  (∀ k w, get_pri k (rg_store (s_registry s0)) = Some w → w_ID w ≠ "") →
  drained s0 s moved → draining_worker s0 w →
  l ≡ₚ base.filter (λ i, i_WorkerID i = w_ID w) (map_to_list (v_insts (view s))).*2 →
  NoDup (i_ID <$> l)
  ∧ Forall (λ i, v_insts (view s) !! i_ID i = Some i ∧ (i_ID i ∉ moved) ∧ i_WorkerID i = w_ID w) l
  ∧ (∀ k i, v_insts (view s0) !! k = Some i → i_WorkerID i = w_ID w → k ∉ moved → i ∈ l).
Proof.
  intros Hg Hid D Hw Hl. pose proof (dr_ok _ _ _ D) as Hok.
  assert (∀ i, i ∈ l → i_WorkerID i = w_ID w ∧ v_insts (view s) !! i_ID i = Some i) as Hin.
  { intros i. rewrite Hl, list_elem_of_filter, list_elem_of_fmap.
    intros (Hwi & [k i'] & -> & Hk%elem_of_map_to_list). cbn in *. split; [done|].
    by rewrite (ok_inst_keys _ Hok _ _ Hk). }
  split_and!.
  - apply NoDup_fmap_2_strong.
    { intros i j Hi Hj E. destruct (Hin i Hi) as [_ H1]. destruct (Hin j Hj) as [_ H2]. congruence. }
    rewrite Hl. apply NoDup_filter, NoDup_fmap_2_strong; [|apply NoDup_map_to_list].
    intros [k1 i1] [k2 i2] H1%elem_of_map_to_list H2%elem_of_map_to_list E. cbn in E.
    pose proof (ok_inst_keys _ Hok _ _ H1). pose proof (ok_inst_keys _ Hok _ _ H2). congruence.
  - apply Forall_forall. intros i Hi. destruct (Hin i Hi) as [Hwi Hk]. split_and!; [done| |done].
    intros Hm. destruct (dr_moved _ _ _ D _ Hm) as (j & i' & _ & E & M).
    assert (i' = i) as -> by congruence. by apply (migrated_not_draining s0 j i w Hg Hid M Hw).
  - intros k i Hk Hwi Hm. rewrite Hl, list_elem_of_filter, list_elem_of_fmap. split; [done|].
    exists (k, i). by rewrite elem_of_map_to_list, (dr_kept _ _ _ D).
Qed.

(** The instances of [w] have moved or were deferred. *)
Definition worker_drained s (moved : gset string) (w : Worker) : Prop :=
  w_State w = StateDraining →
  ∀ k i, v_insts (view s) !! k = Some i → i_WorkerID i = w_ID w → k ∈ moved ∨ deferred s i.

Lemma wp_drain_workers s0 ws : ∀ moved n (Q : Z → Sys DR IR WR F X → Prop) s,
  reg_inv (rg_store (s_registry s0)) →
  (∀ k w, get_pri k (rg_store (s_registry s0)) = Some w → w_ID w ≠ "") →
  (∀ w, w ∈ ws → ∃ k, get_pri k (rg_store (s_registry s0)) = Some w) →
  (∀ k i, v_insts (view s0) !! k = Some i → i_ID i = k) →
  drained s0 s moved →
  (∀ moved' s', drained s0 s' moved' → moved ⊆ moved' → (∀ w, w ∈ ws → worker_drained s0 moved' w) →
     Q (n + Z.of_nat (size moved') - Z.of_nat (size moved)) s') →
  wp (for_each ws n drain_worker) Q s.
Proof.
  induction ws as [|w ws IH]; intros moved n Q s Hg Hid Hws Hkeys D HQ; cbn.
  { apply wp_ret. specialize (HQ moved s D ltac:(done)). rewrite Z.add_simpl_r in HQ. apply HQ.
    by intros w ?%not_elem_of_nil. }
  assert (∀ w', w' ∈ ws → ∃ k, get_pri k (rg_store (s_registry s0)) = Some w') as Hws'
    by (intros w' Hw'; apply Hws; by right).
  destruct (Hws w) as [k Hk]; [by left|]. apply wp_bind. unfold drain_worker.
  destruct (decide _) as [Hd|Hd%dec_stable].
  { apply wp_ret, (IH moved); [done..|]. intros m s' D' Hsub Hall. apply HQ; [done..|].
    intros w' [->|Hw']%elem_of_cons; [by intros ?|by apply Hall]. }
  assert (draining_worker s0 w) as Hw by (by exists k).
  apply wp_bind, wp_inst_list_worker; [apply (dr_ok _ _ _ D)|]. intros l s1 A1 Hl.
  pose proof (drained_idle _ _ _ _ D A1) as D1. rewrite <- (af_view _ _ _ A1) in Hl.
  destruct (listed_to_drain _ _ _ _ _ Hg Hid D1 Hw Hl) as (Hnd & Hall & Hcov).
  apply (wp_drain_instances s0 w l moved); [done..|]. intros m2 s2 D2 Hsub Hdone.
  apply (IH m2); [done..|]. intros m3 s3 D3 Hsub3 Hrest.
  replace (n + Z.of_nat (size m2) - Z.of_nat (size moved) + Z.of_nat (size m3) - Z.of_nat (size m2))
    with (n + Z.of_nat (size m3) - Z.of_nat (size moved)) by lia.
  apply HQ; [done|set_solver|]. intros w' [->|Hw']%elem_of_cons; [|by apply Hrest].
  intros _ k' i Hi Hwi. destruct (decide (k' ∈ moved)); [left; set_solver|].
  destruct (Hdone i (Hcov _ _ Hi Hwi ltac:(done))) as [Hm|]; [left|by right].
  rewrite (Hkeys _ _ Hi) in Hm. set_solver.
Qed.

(** What a pass over the draining workers promises. *)
Definition draining_post s (r : Z * option error) (s' : Sys DR IR WR F X) : Prop :=
  r.2 = None ∧ ∃ moved, r.1 = Z.of_nat (size moved) ∧ drained s s' moved
    ∧ ∀ k w, get_pri k (rg_store (s_registry s)) = Some w → worker_drained s moved w.

Lemma wp_ReconcileDraining s :
  sys_ok s → (∀ k w, get_pri k (rg_store (s_registry s)) = Some w → w_ID w ≠ "") →
  wp ReconcileDraining (draining_post s) s.
Proof.
  intros H Hid. unfold ReconcileDraining. run_idle as o s1 A1. apply wp_bind, wp_gets.
  assert (s_registry s1 = s_registry s) as Er by exact (f_equal v_registry (af_view _ _ _ A1)).
  apply wp_bind. apply (wp_drain_workers s _ ∅); [apply (ok_registry _ H)|done| |apply (ok_inst_keys _ H)| |].
  - intros w [k Hk]%elem_of_List. exists k. by rewrite <- Er.
  - eapply drained_idle; [by apply drained_refl|done].
  - intros moved s' D _ Hall. apply wp_ret. split; [done|]. exists moved. split_and!; [|done|].
    + rewrite size_empty. cbn. lia.
    + intros k w Hk. apply Hall, elem_of_List. exists k. by rewrite Er.
Qed.

(** ReconcileDraining counts the instances it migrates: each was running on a
    draining worker and is now, as the fleet answered, on one that is feasible
    for its deployment; a running instance of a draining worker that stays was
    deferred because its deployment is gone, no worker was feasible or the fleet
    refused; deployments, routes, the other instances and, workload counts
    apart, the workers are as they were. *)
Theorem draining_outcome s :
  sys_ok s → (∀ k w, get_pri k (rg_store (s_registry s)) = Some w → w_ID w ≠ "") →
  wp ReconcileDraining (draining_post s) s.
Proof. apply wp_ReconcileDraining. Qed.

End facts.

(** ** The concrete platform

    The worker of the demo deployment is drained after a second one came. *)

#[local] Existing Instance demo_entropy.
#[local] Existing Instance demo_entropy_laws.
#[local] Existing Instance demo_url.
#[local] Existing Instance demo_externals.
#[local] Existing Instance unicode_none.

Definition demo_two_workers : Registry MemoryWorkerRepository :=
  (Register 20 20 "w-uuid-2" (demo_params "worker-2") (s_registry demo_created)).2.

Definition demo_drained_registry : Registry MemoryWorkerRepository :=
  (Drain 30 30 "worker-1" demo_two_workers).2.

Definition demo_draining : DemoSys := demo_created <| s_registry := demo_drained_registry |>.

Lemma demo_draining_ok : sys_ok demo_draining.
Proof.
  apply sys_ok_registry; [apply demo_created_ok|].
  apply (reg_step_inv demo_two_workers); [|apply step_Drain].
  apply (reg_step_inv (s_registry demo_created)); [apply (ok_registry _ demo_created_ok)|].
  apply step_Register. vm_compute. reflexivity.
Qed.

Lemma demo_draining_ids k w : get_pri k (rg_store (s_registry demo_draining)) = Some w → w_ID w ≠ "".
Proof.
  rewrite <- lookup_pri_view. revert k w.
  apply (bool_decide_unpack (map_Forall (λ _ w, w_ID w ≠ "") (pri_view (rg_store (s_registry demo_draining))))).
  vm_compute. exact I.
Qed.

Example demo_draining_runs :
  let '(r, s') := ReconcileDraining demo_draining in
  r = (2, None) ∧ ((λ i, (i_Status i, i_WorkerID i)) <$> (map_to_list (ir_view (s_insts s'))).*2)
    = [("RUNNING", "w-uuid-2"); ("RUNNING", "w-uuid-2")].
Proof. vm_compute. split; reflexivity. Qed.

Lemma draining_outcome_witness :
  wp ReconcileDraining (draining_post demo_draining) demo_draining.
Proof. exact (draining_outcome demo_draining demo_draining_ok demo_draining_ids). Defined.
