(* ===== verification/Reconcile.v ===== *)
(** * The reconciliation pass: internal/reconcile/loop.go

    One pass of the reconciler reads what the repositories want and what the
    workers run, and converges: extra containers are stopped or flagged, missing
    instances repaired, excess replicas pruned, draining workers emptied. *)

From stdpp Require Import base option gmap strings list pretty.
From Stdlib Require Import ZArith Lia.
From S2P Require Import Prelude GoLib GoFloat PtrStore Workers Scheduler LoadBalancer Discovery HA Deployments Fleet Platform Service ServiceFacts Lifecycle Scaling Demo ServiceTheorems Diff Repair Draining.

Record ReconcileActions := mkActions {
  ra_RecreatedCount : Z;
  ra_StoppedCount : Z;
  ra_FlaggedCount : Z;
  ra_MigratedCount : Z;
  ra_Errors : list string
}.

#[export] Instance ReconcileActions_eta : Settable ReconcileActions := λ a,
  mkActions (ra_RecreatedCount a) (ra_StoppedCount a) (ra_FlaggedCount a) (ra_MigratedCount a)
    (ra_Errors a).

Definition no_actions : ReconcileActions := mkActions 0 0 0 0 [].

Definition actions_IsZero (a : ReconcileActions) : bool :=
  (ra_RecreatedCount a =? 0) && (ra_StoppedCount a =? 0) && (ra_FlaggedCount a =? 0)
  && (ra_MigratedCount a =? 0).

Definition TotalActions (a : ReconcileActions) : Z :=
  ra_RecreatedCount a + ra_StoppedCount a + ra_MigratedCount a.

(** The reconciler's collaborators are the platform's, and two optional fields:
    the service registry, and the router. The router of both is that of the
    platform, so it is kept there only. *)
Record RecSys (DR IR WR F X : Type) := mkRec {
  rc_sys : Sys DR IR WR F X;
  rc_services : option ServiceRegistry;
  rc_hasRouter : bool
}.
Arguments mkRec {DR IR WR F X} _ _ _.
Arguments rc_sys {DR IR WR F X} _.
Arguments rc_services {DR IR WR F X} _.
Arguments rc_hasRouter {DR IR WR F X} _.

#[export] Instance RecSys_eta DR IR WR F X : Settable (RecSys DR IR WR F X) := λ s,
  mkRec (rc_sys s) (rc_services s) (rc_hasRouter s).

Definition Reconciler_SetServiceRegistry {DR IR WR F X} (sr : option ServiceRegistry) (s : RecSys DR IR WR F X) :
  RecSys DR IR WR F X := s <| rc_services := sr |>.

(** For the platform's router, or nil. *)
Definition Reconciler_SetRouter {DR IR WR F X} (router : bool) (s : RecSys DR IR WR F X) : RecSys DR IR WR F X :=
  s <| rc_hasRouter := router |>.

(** ** Desired state *)

Definition active_deployment (d : Deployment) : bool :=
  bool_decide (d_Status d = StatusRunning) && negb (IsInFlight (d_Status d)).

Definition active_deployments (l : list Deployment) : gmap string Deployment :=
  fold_left (λ m d, if active_deployment d then <[d_ID d := d]> m else m) l ∅.

(** The statuses that the loop over the instances skips. *)
Definition not_desired (status : string) : bool :=
  String.eqb status "STOPPED" || String.eqb status "FAILED"
  || String.eqb status "PENDING" || String.eqb status "STARTING".

Definition desired_instance (active : gmap string Deployment) (inst : Instance_) :
    option DesiredInstance :=
  match active !! i_DeploymentID inst with
  | None => None
  | Some dep =>
    if not_desired (i_Status inst) then None
    else Some (mkDesired (i_ID inst) (i_InstanceKey inst) (d_ID dep) (i_WorkerID inst)
                 (d_Image dep) (d_Env dep) (d_Labels dep) (i_Status inst))
  end.

(** ** Observed state *)

(** [time.Unix(sec, 0)], from the zero time. *)
Definition Unix (sec : Z) : Time := (sec + 62135596800) * Second.

Definition observe (w : Worker) (c : ContainerInfo) : ObservedContainer :=
  mkObserved (w_ID w) (w_WorkerKey w) (ci_ContainerId c) (ci_InstanceId c)
    (lookup_str (ci_Labels c) "nebula.deployment_id") (ci_Image c) (ci_Status c) (ci_Labels c)
    (Unix (ci_CreatedAt c)).

Definition unreachable (w : Worker) : bool :=
  bool_decide (w_Health w = HealthUnhealthy) || bool_decide (w_Health w = HealthUnreachable)
  || w_IsPartitioned w.

(** [workerClients[id]], or else [workerClients[key]]. *)
Definition client_for (clients : gmap string Worker) (c : ObservedContainer) : option Worker :=
  match clients !! oc_WorkerID c with
  | Some w => Some w
  | None => clients !! oc_WorkerKey c
  end.

(** The replicas a deployment is to have. *)
Definition desired_count (active : gmap string Deployment) (depID : string) : Z :=
  match active !! depID with
  | Some dep => if 0 <? d_InstanceCount dep then d_InstanceCount dep else 1
  | None => 1
  end.

Definition count_matching (matching : list MatchingPair) : gmap string Z :=
  fold_left (λ m p, <[di_DeploymentID (mp_Desired p)
                        := lookup_int m (di_DeploymentID (mp_Desired p)) + 1]> m) matching ∅.

Section reconcile.
Context {DR IR WR F X : Type}.
Context {ent : Entropy} `{!DeploymentRepository DR, !InstanceRepository IR, !WorkerRepository WR}.
Context `{!WorkerClientFactory F} {uni : Unicode} {net : NetURL}.

Abbreviation M := (ST (RecSys DR IR WR F X)).

(** A call of the platform. *)
Definition lift {A} (m : ST (Sys DR IR WR F X) A) : M A :=
  λ s, let '(a, y) := m (rc_sys s) in (a, s <| rc_sys := y |>).

(** A call on the service registry, when there is one; its router is the
    platform's. *)
Definition on_services (f : ServiceRegistry → ServiceRegistry) : M unit :=
  modify (λ s,
    match rc_services s with
    | None => s
    | Some sr =>
      let sr := f (sr <| sr_router ::= fmap (λ _, s_router (rc_sys s)) |>) in
      let s := s <| rc_services := Some sr |> in
      match sr_router sr with
      | Some router => s <| rc_sys ::= λ y, y <| s_router := router |> |>
      | None => s
      end
    end).

(** Part 1 of the pass, lines 132 to 176. *)
Definition fetch_desired : M (error + gmap string Deployment * list DesiredInstance) :=
  let! l := lift (dep_list "") in
  match l with
  | inl err => ret (inl ("failed to list deployments: " +:+ err))
  | inr deploymentsList =>
    let activeDeployments := active_deployments deploymentsList in
    let! l := lift inst_list_all in
    match l with
    | inl err => ret (inl ("failed to list instances: " +:+ err))
    | inr allInstances =>
      ret (inr (activeDeployments, omap (desired_instance activeDeployments) allInstances))
    end
  end.

Definition Observation : Type := list ObservedContainer * gmap string Worker.

(** One turn of the loop over the workers. *)
Definition collect_worker (w : Worker) (obs : Observation) : M Observation :=
  let '(observed, clients) := obs in
  if unreachable w then ret obs
  else
    let! gerr := lift (get_client w) in
    match gerr with
    | Some _ => ret obs
    | None =>
      let clients := <[w_WorkerKey w := w]> (<[w_ID w := w]> clients) in
      let! l := lift (list_containers w) in
      match l with
      | inl _ => ret (observed, clients)
      | inr containers => ret (observed ++ (observe w <$> containers), clients)
      end
    end.

Definition collect_observed : M Observation :=
  let! o := lift draw_order in
  let! allWorkers := gets (λ s, List o (s_registry (rc_sys s))) in
  for_each allWorkers ([], ∅) collect_worker.

(** ** Enforcing the orphan policy *)

Definition count_decision (d : OrphanDecision) (actions : ReconcileActions) : ReconcileActions :=
  if String.eqb (od_ActionTaken d) "STOPPED" then actions <| ra_StoppedCount ::= Z.succ |>
  else if String.eqb (od_ActionTaken d) "FLAGGED_ONLY" then actions <| ra_FlaggedCount ::= Z.succ |>
  else if String.eqb (od_ActionTaken d) "ERROR"
  then actions <| ra_Errors ::= λ l, l ++ [od_Error d] |>
  else actions.

Definition enforce_orphans (clients : gmap string Worker) (extra : list ObservedContainer)
    (actions : ReconcileActions) : M ReconcileActions :=
  for_each extra actions (λ c actions,
    let! d := lift (EnforceOrphanPolicy c (client_for clients c)) in
    ret (count_decision d actions)).

(** ** Repairing what is missing *)

Definition repaired_endpoint (active : gmap string Deployment) (missing : DesiredInstance)
    (workerID : string) (targetWorker : option Worker) : Endpoint :=
  mkEndpoint (di_InstanceID missing) (di_DeploymentID missing)
    (* [dep] is not nil, since missing instances are of active deployments *)
    (match active !! di_DeploymentID missing with Some dep => d_ProjectID dep | None => "" end)
    workerID
    (match targetWorker with Some w => "http://" +:+ Address w | None => "" end)
    EndpointHealthy 0.

(** The endpoint of the replacement; an error is only logged. *)
Definition register_repaired (active : gmap string Deployment) (missing : DesiredInstance)
    (workerID : string) : M unit :=
  let! services := gets rc_services in
  match services with
  | None => ret tt
  | Some _ =>
    let! targetWorker := lift (worker_get workerID) in
    let! now := lift draw_now in
    on_services (λ r,
      (RegisterEndpoint now (repaired_endpoint active missing workerID targetWorker) r).2)
  end.

Definition Counts : Type := gmap string Z * ReconcileActions.

Definition repair_one (active : gmap string Deployment) (missing : DesiredInstance) (st : Counts) :
    M Counts :=
  let '(running, actions) := st in
  let depID := di_DeploymentID missing in
  let! ' (res, err) := lift (RepairMissing missing (lookup_int running depID)
                               (desired_count active depID)) in
  match err with
  | Some e => ret (running, actions <| ra_Errors ::= λ l, l ++ [e] |>)
  | None =>
    if rr_Success res then
      register_repaired active missing (rr_WorkerID res) ;;
      ret (<[depID := lookup_int running depID + 1]> running,
           actions <| ra_RecreatedCount ::= Z.succ |>)
    else ret st
  end.

(** ** Pruning what is in excess *)

Definition set_stopped (inst : Instance_) : Instance_ := inst <| i_Status := "STOPPED" |>.

(** The record by the container's key, or else by the instance's ID. *)
Definition stop_record (m : MatchingPair) : ST (Sys DR IR WR F X) unit :=
  let! r := inst_get_key (oc_InstanceKey (mp_Observed m)) in
  match r with
  | inr inst => inst_update (set_stopped inst) ;; ret tt
  | inl _ =>
    let! r := inst_get (di_InstanceID (mp_Desired m)) in
    match r with
    | inr inst => inst_update (set_stopped inst) ;; ret tt
    | inl _ => ret tt
    end
  end.

Definition prune_one (clients : gmap string Worker) (dep : Deployment) (m : MatchingPair) : M unit :=
  match client_for clients (mp_Observed m) with
  | Some w => lift (stop_container w (mkStopRequest (oc_InstanceKey (mp_Observed m)) 5)) ;; ret tt
  | None => ret tt
  end ;;
  lift (stop_record m) ;;
  on_services (UnregisterEndpoint (di_InstanceID (mp_Desired m))) ;;
  let! hasRouter := gets rc_hasRouter in
  if hasRouter && bool_decide (d_ProjectID dep ≠ "")
  then lift (router_unregister (d_ProjectID dep) (di_InstanceID (mp_Desired m)))
  else ret tt.

(** The loop from the last matching pair down, until [excess] are stopped. *)
Fixpoint prune_matching (clients : gmap string Worker) (depID : string) (dep : Deployment)
    (excess stoppedForDep : Z) (l : list MatchingPair) (st : Counts) : M Counts :=
  match l with
  | [] => ret st
  | m :: l' =>
    if stoppedForDep <? excess then
      if decide (di_DeploymentID (mp_Desired m) = depID) then
        prune_one clients dep m ;;
        prune_matching clients depID dep excess (stoppedForDep + 1) l'
          (<[depID := lookup_int st.1 depID - 1]> st.1, st.2 <| ra_StoppedCount ::= Z.succ |>)
      else prune_matching clients depID dep excess stoppedForDep l' st
    else ret st
  end.

Definition prune_deployment (clients : gmap string Worker) (active : gmap string Deployment)
    (matching : list MatchingPair) (depID : string) (st : Counts) : M Counts :=
  match active !! depID with
  | None => ret st
  | Some dep =>
    let runningCount := lookup_int st.1 depID in
    let desiredCount := desired_count active depID in
    if desiredCount <? runningCount
    then prune_matching clients depID dep (runningCount - desiredCount) 0 (rev matching) st
    else ret st
  end.

(** Parts 5 and 5b of the pass: the counts per deployment are brought to the
    desired ones. *)
Definition reconcile_replicas (clients : gmap string Worker) (active : gmap string Deployment)
    (diff : DiffResult) (actions : ReconcileActions) : M Counts :=
  let! st := for_each (df_Missing diff) (count_matching (df_Matching diff), actions)
               (repair_one active) in
  let! o := lift draw_order in
  for_each (map_pairs o st.1).*1 st (prune_deployment clients active (df_Matching diff)).

(** ** The pass *)

Definition ReconcileOnce : M (error + ReconcileActions) :=
  let! d := fetch_desired in
  match d with
  | inl err => ret (inl err)
  | inr (active, desired) =>
    let! ' (observed, clients) := collect_observed in
    let diff := ComputeDiff desired observed in
    let! actions := enforce_orphans clients (df_Extra diff) no_actions in
    let! ' (_, actions) := reconcile_replicas clients active diff actions in
    let! ' (migrated, err) := lift ReconcileDraining in
    match err with
    | None => ret (inr (actions <| ra_MigratedCount ::= λ n, n + migrated |>))
    | Some e => ret (inr (actions <| ra_Errors ::= λ l, l ++ [e] |>))
    end
  end.

(** The goroutine of [Start]: a first pass, then one at every tick of the
    interval; the answers are only logged. *)
Definition reconcile_tick (_ : unit) (s : RecSys DR IR WR F X) : bool * RecSys DR IR WR F X :=
  (true, (ReconcileOnce s).2).

Definition Reconciler_Start (s : RecSys DR IR WR F X) : Loop (RecSys DR IR WR F X) := go_loop (ReconcileOnce s).2.

Definition Reconciler_Stop (l : Loop (RecSys DR IR WR F X)) : Loop (RecSys DR IR WR F X) := loop_stop l.

End reconcile.

(** ** What a pass leaves as it is *)

Section frame.
Context {DR IR WR F X : Type}.
Context {ent : Entropy} `{!DeploymentRepository DR, !InstanceRepository IR, !WorkerRepository WR}.
Context `{!WorkerClientFactory F, !Externals X} {uni : Unicode} {net : NetURL}.
Context {entl : EntropyLaws} `{!DeploymentStore DR, !InstanceStore IR, !WorkerRepositoryLaws WR}.
Implicit Types s : Sys DR IR WR F X.
Implicit Types t : RecSys DR IR WR F X.

(** The fields of an instance that the reconciler never writes. *)
Definition i_frame (i : Instance_) : string * string * string * Time :=
  (i_ID i, i_DeploymentID i, i_InstanceKey i, i_CreatedAt i).

Record ready s : Prop := {
  rd_ok : sys_ok s;
  rd_ids : ∀ k w, get_pri k (rg_store (s_registry s)) = Some w → w_ID w ≠ ""
}.

Record reconciled s s' : Prop := {
  rl_ok : sys_ok s';
  rl_deps : v_deps (view s') = v_deps (view s);
  rl_insts : i_frame <$> v_insts (view s') = i_frame <$> v_insts (view s);
  rl_workers : same_workers (s_registry s) (s_registry s')
}.

Lemma reconciled_ready s s' : ready s → reconciled s s' → ready s'.
Proof.
  intros [H Hid] []. split; [done|]. intros k w' Hw'.
  destruct (same_workers_get _ _ _ _ rl_workers0 Hw') as (w & Hw & E).
  apply (f_equal w_ID) in E. cbn in E. rewrite E. by eapply Hid.
Qed.

Lemma reconciled_trans s1 s2 s3 : reconciled s1 s2 → reconciled s2 s3 → reconciled s1 s3.
Proof. intros [] []. split; [done|congruence|congruence|by etransitivity]. Qed.

Definition reconciles s s' : Prop := ready s → reconciled s s'.

#[export] Instance reconciles_preorder : PreOrder reconciles.
Proof.
  split; [by intros s []|]. intros s1 s2 s3 H12 H23 H.
  eapply reconciled_trans; [by apply H12|]. eapply H23, reconciled_ready; [done|by apply H12].
Qed.

Lemma reconciled_after s s' v :
  after s s' v → v_deps v = v_deps (view s) → i_frame <$> v_insts v = i_frame <$> v_insts (view s) →
  same_workers (s_registry s) (v_registry v) → reconciled s s'.
Proof. intros [A1 <- _] E1 E2 E3. by split. Qed.

Lemma reconciles_idle {A} (m : ST (Sys DR IR WR F X) A) : idle m → steps reconciles m.
Proof.
  intros Hm s [H _]. apply (Hm (λ _ s', reconciled s s') s H). intros a s' A1. by eapply reconciled_after.
Qed.

(** Rewriting a record that is there, but for its frame. *)
Lemma frame_update (is_ : gmap string Instance_) i i' :
  is_ !! i_ID i = Some i → i_frame i' = i_frame i → i_frame <$> put_instance i' is_ = i_frame <$> is_.
Proof.
  intros Hi Hf. unfold put_instance. pose proof Hf as E1. injection E1 as E1 _ _ _. rewrite E1, Hi, fmap_insert.
  apply map_eq. intros k. rewrite lookup_insert, lookup_fmap. case_decide; [subst k|done].
  rewrite Hi. cbn. by rewrite Hf.
Qed.

Lemma reconciles_update s i i' :
  v_insts (view s) !! i_ID i = Some i → i_frame i' = i_frame i →
  wp (inst_update i') (λ _ s', reconciles s s') s.
Proof.
  intros Hi Hf. unfold wp, reconciles. intros [H _].
  apply (wp_inst_update_any i' (λ _ s', reconciled s s')); [done|]. intros err j now s' A.
  eapply reconciled_after; [done..| |done]. cbn. apply frame_update with i; [done|].
  by rewrite <- Hf.
Qed.

Lemma reconciles_rewrite key f :
  (∀ i, i_frame (f i) = i_frame i) →
  steps reconciles (rewrite_instance (DR := DR) (WR := WR) (F := F) (X := X) key f).
Proof.
  intros Hf s [H Hid]. unfold rewrite_instance.
  apply (wp_bind (inst_get_key key) _ (λ _ s', reconciled s s')).
  apply wp_inst_get_key; [done|]. intros [e|i] Hi; [by apply wp_ret|].
  apply wp_bind. eapply wp_wand; [by apply (reconciles_update s i)|].
  intros r s' R. by apply wp_ret, R.
Qed.

Lemma reconciles_load x d : steps reconciles (worker_load (DR := DR) (IR := IR) (F := F) (X := X) x d).
Proof.
  intros s [H Hid]. apply (wp_worker_load x d (λ _ s', reconciled s s')); [done|]. intros s' A.
  eapply reconciled_after; [done..|]. cbn. apply same_workers_UpdateWorkload, (ok_registry _ H).
Qed.

Lemma reconciles_unregister p i : steps reconciles (router_unregister (DR := DR) (IR := IR) (WR := WR) (F := F) (X := X) p i).
Proof.
  intros s [H Hid]. apply (wp_router_unregister p i (λ _ s', reconciled s s')); [done|]. intros s' A.
  by eapply reconciled_after.
Qed.

Lemma reconciles_drain : steps reconciles (ReconcileDraining (DR := DR) (IR := IR) (WR := WR) (F := F) (X := X)).
Proof.
  intros s [H Hid]. pose proof (wp_ReconcileDraining s H Hid) as (_ & moved & _ & [] & _).
  split; [done..| |done]. apply map_eq. intros k. rewrite !lookup_fmap.
  destruct (decide (k ∈ moved)) as [Hk|Hk]; [|by rewrite dr_kept].
  destruct (dr_moved k Hk) as (i & i' & -> & -> & _ & _ & M).
  by destruct M as (? & ? & ? & ? & ? & ? & _ & _ & _ & _ & _ & _ & ->).
Qed.

Lemma reconciles_enforce c client :
  steps reconciles (EnforceOrphanPolicy (DR := DR) (IR := IR) (WR := WR) (F := F) (X := X) c client).
Proof. apply reconciles_idle. unfold EnforceOrphanPolicy, stop_container. idle_tac. Qed.

Lemma reconciles_on_fleet {A} (f : F → A * F) :
  steps reconciles (on_fleet (DR := DR) (IR := IR) (WR := WR) (X := X) f).
Proof. apply reconciles_idle, idle_on_fleet. Qed.

Lemma reconciles_repair missing running desired :
  steps reconciles (RepairMissing (DR := DR) (IR := IR) (WR := WR) (F := F) (X := X) missing running desired).
Proof.
  assert (∀ i w st, i_frame (i <| i_WorkerID := w |> <| i_Status := st |>) = i_frame i) by done.
  assert (∀ i st, i_frame (i <| i_Status := st |>) = i_frame i) by done.
  assert (steps reconciles (assigned_worker (DR := DR) (IR := IR) (WR := WR) (F := F) (X := X) missing)).
  { apply reconciles_idle. unfold assigned_worker. idle_tac. }
  assert (∀ req, steps reconciles (select_worker (DR := DR) (IR := IR) (WR := WR) (F := F) (X := X) req))
    by (intros req; apply reconciles_idle, idle_select_worker).
  pose proof @reconciles_on_fleet. pose proof @reconciles_rewrite.
  unfold RepairMissing, repair_on, get_client, run_container. steps_tac.
Qed.

Lemma reconciles_stop_record m :
  steps reconciles (stop_record (DR := DR) (WR := WR) (F := F) (X := X) m).
Proof.
  intros s [H Hid]. unfold stop_record.
  assert (∀ i, v_insts (view s) !! i_ID i = Some i →
    wp (inst_update (set_stopped i) ;; ret tt) (λ _ s', reconciled s s') s) as Hup.
  { intros i Hi. apply wp_bind. eapply wp_wand; [by apply (reconciles_update s i)|].
    intros r s' R. by apply wp_ret, R. }
  apply (wp_bind (inst_get_key _) _ (λ _ s', reconciled s s')).
  apply wp_inst_get_key; [done|]. intros [e|i] Hi; [|by apply Hup].
  apply wp_bind, wp_inst_get.
  destruct (v_insts (view s) !! di_InstanceID (mp_Desired m)) as [i|] eqn:E; [|by apply wp_ret].
  apply Hup. by rewrite (ok_inst_keys _ H _ _ E).
Qed.

(** ** The same of the reconciler's state *)

Record rec_reconciles t t' : Prop := {
  rr_sys : reconciles (rc_sys t) (rc_sys t');
  rr_router : rc_hasRouter t' = rc_hasRouter t;
  rr_services : is_Some (rc_services t') ↔ is_Some (rc_services t)
}.

#[export] Instance rec_reconciles_preorder : PreOrder rec_reconciles.
Proof.
  split; [by intros t|]. intros t1 t2 t3 [] []. split; [by etransitivity|congruence|tauto].
Qed.

Lemma steps_lift {A} (m : ST (Sys DR IR WR F X) A) : steps reconciles m → steps rec_reconciles (lift m).
Proof.
  intros Hm t. unfold lift. specialize (Hm (rc_sys t)). destruct (m (rc_sys t)) as [a y]. by split.
Qed.

(** A registry call that drives the router by its operations. *)
Definition drives (f : ServiceRegistry → ServiceRegistry) : Prop :=
  ∀ r, (∀ rt, sr_router r = Some rt → router_wf rt) → (∀ rt, sr_router (f r) = Some rt → router_wf rt).

Lemma steps_on_services f : drives f →
  steps rec_reconciles (on_services (DR := DR) (IR := IR) (WR := WR) (F := F) (X := X) f).
Proof.
  intros Hf t. unfold on_services, modify. cbn. destruct (rc_services t) as [sr|] eqn:E; [|reflexivity].
  set (sr0 := sr <| sr_router ::= _ |>).
  destruct (sr_router (f sr0)) as [rt|] eqn:Er.
  - split; [|done|cbn; by rewrite E]. intros [H Hid]. cbn.
    assert (router_wf rt) as Hw.
    { apply (Hf sr0); [|done]. intros rt'. unfold sr0; cbn. destruct (sr_router sr); [|done].
      intros [= <-]. apply (ok_router _ H). }
    split; [|done..]. by destruct H.
  - split; [done|done|cbn; by rewrite E].
Qed.

Lemma drives_RegisterEndpoint now ep : drives (λ r, (RegisterEndpoint now ep r).2).
Proof.
  intros r Hr rt. unfold RegisterEndpoint. cbv zeta.
  set (ep' := if IsZero _ then _ else _). cbn.
  destruct (sr_router r) as [rt0|] eqn:E; cbn; [|by rewrite E]. specialize (Hr rt0 eq_refl). case_match.
  - pose proof (router_wf_RegisterTarget rt0 (ep_ProjectID ep') (ep_InstanceID ep') (ep_Address ep') Hr) as Hw.
    destruct (RegisterTarget _ _ _ _). cbn in *. by intros [= <-].
  - cbn. rewrite E. by intros [= <-].
Qed.

Lemma drives_UnregisterEndpoint i : drives (UnregisterEndpoint i).
Proof.
  intros r Hr rt. unfold UnregisterEndpoint. destruct (find_endpoint i r) as [[l ep]|]; [|apply Hr].
  cbn. destruct (sr_router r) as [rt0|]; [|done]. cbn. intros [= <-].
  by apply router_wf_UnregisterTarget, Hr.
Qed.

Lemma steps_register active missing w :
  steps rec_reconciles (register_repaired (DR := DR) (IR := IR) (WR := WR) (F := F) (X := X) active missing w).
Proof.
  pose proof (λ x, steps_lift _ (reconciles_idle _ (idle_worker_get x))).
  pose proof (steps_lift _ (reconciles_idle _ idle_draw_now)).
  unfold register_repaired. steps_tac. apply steps_on_services, drives_RegisterEndpoint.
Qed.

Lemma steps_prune_one clients dep m :
  steps rec_reconciles (prune_one (DR := DR) (IR := IR) (WR := WR) (F := F) (X := X) clients dep m).
Proof.
  pose proof (λ p i, steps_lift _ (reconciles_unregister p i)).
  pose proof (steps_lift _ (reconciles_stop_record m)).
  pose proof (λ w q, steps_lift _ (reconciles_on_fleet (wc_StopContainer w q))).
  pose proof (λ i, steps_on_services _ (drives_UnregisterEndpoint i)).
  unfold prune_one. unfold stop_container. steps_tac.
Qed.

Lemma steps_prune_matching clients depID dep excess l : ∀ n st,
  steps rec_reconciles (prune_matching (DR := DR) (IR := IR) (WR := WR) (F := F) (X := X) clients depID dep excess n l st).
Proof.
  pose proof (steps_prune_one clients dep).
  induction l as [|m l IH]; intros n st; cbn [prune_matching]; steps_tac.
Qed.

Lemma steps_replicas clients active diff actions :
  steps rec_reconciles (reconcile_replicas (DR := DR) (IR := IR) (WR := WR) (F := F) (X := X) clients active diff actions).
Proof.
  pose proof (steps_register active). pose proof (steps_prune_matching clients).
  pose proof (λ m r d, steps_lift _ (reconciles_repair m r d)).
  pose proof (steps_lift _ (reconciles_idle _ idle_draw_order)).
  unfold reconcile_replicas, repair_one, prune_deployment. steps_tac.
Qed.

Lemma idle_dep_list p : idle (dep_list (DR := DR) (IR := IR) (WR := WR) (F := F) (X := X) p).
Proof. intros Q s H HQ. apply wp_dep_list; auto. Qed.

Lemma idle_inst_list_all : idle (inst_list_all (DR := DR) (IR := IR) (WR := WR) (F := F) (X := X)).
Proof. intros Q s H HQ. apply wp_inst_list_all; auto. Qed.

Lemma steps_collect :
  steps rec_reconciles (collect_observed (DR := DR) (IR := IR) (WR := WR) (F := F) (X := X)).
Proof.
  pose proof (steps_lift _ (reconciles_idle _ idle_draw_order)).
  pose proof (λ w, steps_lift _ (reconciles_on_fleet (wc_GetClient w))).
  pose proof (λ w, steps_lift _ (reconciles_on_fleet (wc_ListContainers w))).
  unfold collect_observed, collect_worker, get_client, list_containers. steps_tac.
Qed.

Lemma steps_enforce clients extra actions :
  steps rec_reconciles (enforce_orphans (DR := DR) (IR := IR) (WR := WR) (F := F) (X := X) clients extra actions).
Proof. pose proof (λ c w, steps_lift _ (reconciles_enforce c w)). unfold enforce_orphans. steps_tac. Qed.

Lemma steps_ReconcileOnce :
  steps rec_reconciles (ReconcileOnce (DR := DR) (IR := IR) (WR := WR) (F := F) (X := X)).
Proof.
  pose proof (λ p, steps_lift _ (reconciles_idle _ (idle_dep_list p))).
  pose proof (steps_lift _ (reconciles_idle _ idle_inst_list_all)).
  pose proof steps_collect. pose proof steps_enforce. pose proof steps_replicas.
  pose proof (steps_lift _ reconciles_drain).
  unfold ReconcileOnce, fetch_desired. steps_tac.
Qed.

End frame.
