(* ===== verification/Replicas.v ===== *)
(** * The replica counts: parts 5 and 5b of ReconcileOnce

    The repairs and the prunings of one pass, deployment by deployment. *)

From stdpp Require Import base option gmap strings list pretty.
From Stdlib Require Import ZArith Lia.
From S2P Require Import Prelude GoLib GoFloat PtrStore Workers Scheduler LoadBalancer Discovery HA Deployments Fleet Platform Service ServiceFacts Lifecycle Scaling Demo ServiceTheorems Diff Repair Draining Reconcile.

(** How many of the instances are of deployment [d]. *)
Definition num (d : string) (l : list DesiredInstance) : Z :=
  Z.of_nat (length (base.filter (λ x, di_DeploymentID x = d) l)).

Lemma num_nil d : num d [] = 0.
Proof. done. Qed.

Lemma num_cons d x l : num d (x :: l) = (if decide (di_DeploymentID x = d) then 1 else 0) + num d l.
Proof. unfold num. rewrite filter_cons. case_decide; cbn [length]; lia. Qed.

Lemma num_app d l l' : num d (l ++ l') = num d l + num d l'.
Proof. unfold num. rewrite filter_app, length_app. lia. Qed.

Lemma num_perm d l l' : l ≡ₚ l' → num d l = num d l'.
Proof. unfold num. by intros ->. Qed.

Lemma num_nonneg d l : 0 ≤ num d l.
Proof. unfold num. lia. Qed.

Lemma lookup_int_insert (m : gmap string Z) k v k' :
  lookup_int (<[k := v]> m) k' = if decide (k = k') then v else lookup_int m k'.
Proof. unfold lookup_int. rewrite lookup_insert. by case_decide. Qed.

Lemma count_matching_from l : ∀ m d,
  lookup_int (fold_left (λ m p, <[di_DeploymentID (mp_Desired p)
    := lookup_int m (di_DeploymentID (mp_Desired p)) + 1]> m) l m) d
  = lookup_int m d + num d (mp_Desired <$> l).
Proof.
  induction l as [|p l IH]; intros m d; cbn; [rewrite num_nil; lia|].
  rewrite IH, lookup_int_insert, num_cons. case_decide; [subst d|]; lia.
Qed.

Lemma count_matching_spec l d : lookup_int (count_matching l) d = num d (mp_Desired <$> l).
Proof. unfold count_matching. rewrite count_matching_from. unfold lookup_int. by rewrite lookup_empty. Qed.

Section replicas.
Context {DR IR WR F X : Type}.
Context {ent : Entropy} `{!DeploymentRepository DR, !InstanceRepository IR, !WorkerRepository WR}.
Context `{!WorkerClientFactory F, !Externals X} {uni : Unicode} {net : NetURL}.
Context {entl : EntropyLaws} `{!DeploymentStore DR, !InstanceStore IR, !WorkerRepositoryLaws WR}.
Implicit Types s : Sys DR IR WR F X.
Implicit Types t : RecSys DR IR WR F X.

Lemma wp_lift {A} (m : ST (Sys DR IR WR F X) A) (Q : A → RecSys DR IR WR F X → Prop) t :
  wp m (λ a y, Q a (t <| rc_sys := y |>)) (rc_sys t) → wp (lift m) Q t.
Proof. unfold wp, lift. by destruct (m (rc_sys t)). Qed.

(** ** Repairs *)

(** The container of the instance was run on a worker fit for it. *)
Definition recreated (m : DesiredInstance) : Prop :=
  ∃ w fl resp,
    ((w_Health w = HealthHealthy ∧ w_State w ≠ StateDraining) ∨ Feasible (repair_requirement m) w)
    ∧ (wc_RunContainer w (repair_request m) fl).1 = inr resp ∧ rs_Error resp = "".

(** The missing instances [l] were repaired, failed with an error, or skipped
    because enough replicas run; the counts and actions went from [st] to [st']. *)
Record repairs (active : gmap string Deployment) (l : list DesiredInstance) (st st' : Counts)
    (repaired failed skipped : list DesiredInstance) : Prop := {
  rp_split : repaired ++ failed ++ skipped ≡ₚ l;
  rp_actions : ∃ errs, length errs = length failed
    ∧ st'.2 = st.2 <| ra_RecreatedCount := ra_RecreatedCount st.2 + Z.of_nat (length repaired) |>
                <| ra_Errors := ra_Errors st.2 ++ errs |>;
  rp_counts : ∀ d, lookup_int st'.1 d = lookup_int st.1 d + num d repaired;
  rp_bound : ∀ d, num d repaired = 0 ∨ lookup_int st'.1 d ≤ desired_count active d;
  rp_skipped : ∀ x, x ∈ skipped →
    desired_count active (di_DeploymentID x) ≤ lookup_int st'.1 (di_DeploymentID x);
  rp_ran : Forall recreated repaired
}.

Lemma repairs_nil active st : repairs active [] st st [] [] [].
Proof.
  split; try done.
  - exists []. split; [done|]. rewrite app_nil_r, Z.add_0_r. by destruct st as [c []].
  - intros d. rewrite num_nil. lia.
  - by left.
  - by intros x ?%not_elem_of_nil.
Qed.

Lemma repairs_done active x l st st' r f k :
  repairs active l (<[di_DeploymentID x := lookup_int st.1 (di_DeploymentID x) + 1]> st.1,
                    st.2 <| ra_RecreatedCount ::= Z.succ |>) st' r f k →
  lookup_int st.1 (di_DeploymentID x) < desired_count active (di_DeploymentID x) → recreated x →
  repairs active (x :: l) st st' (x :: r) f k.
Proof.
  intros [H1 (errs & H2 & H2') H3 H4 H5 H6] Hlt Hx. cbn in *. split.
  - cbn. by rewrite H1.
  - exists errs. split; [done|]. rewrite H2'. unfold set_field. cbn. f_equal. lia.
  - intros d. rewrite H3, lookup_int_insert, num_cons. case_decide; [subst d|]; lia.
  - intros d. specialize (H3 d). specialize (H4 d). rewrite lookup_int_insert in H3. rewrite num_cons.
    case_decide as E; [subst d|]; [|destruct H4; [left; lia|by right]].
    right. destruct H4 as [H4|H4]; lia.
  - done.
  - by constructor.
Qed.

Lemma repairs_failed active x l e st st' r f k :
  repairs active l (st.1, st.2 <| ra_Errors ::= λ es, es ++ [e] |>) st' r f k →
  repairs active (x :: l) st st' r (x :: f) k.
Proof.
  intros [H1 (errs & H2 & H2') H3 H4 H5 H6]. cbn in *. split; try done.
  - cbn. by rewrite <- Permutation_middle, H1.
  - exists (e :: errs). split; [cbn; lia|]. rewrite H2'. unfold set_field. cbn. by rewrite <- app_assoc.
Qed.

Lemma repairs_skipped active x l st st' r f k :
  repairs active l st st' r f k →
  desired_count active (di_DeploymentID x) ≤ lookup_int st.1 (di_DeploymentID x) →
  repairs active (x :: l) st st' r f (x :: k).
Proof.
  intros [H1 H2 H3 H4 H5 H6] Hle. split; try done.
  - by rewrite app_assoc, <- Permutation_middle, <- app_assoc, H1.
  - intros y [->|Hy]%elem_of_cons; [|by apply H5]. rewrite H3. pose proof (num_nonneg (di_DeploymentID x) r). lia.
Qed.

Lemma rec_ready t t' : rec_reconciles t t' → ready (rc_sys t) → ready (rc_sys t').
Proof. intros [H _ _] Hr. eapply reconciled_ready; [done|by apply H]. Qed.

Lemma wp_repair_all active l : ∀ st (Q : Counts → RecSys DR IR WR F X → Prop) t,
  ready (rc_sys t) →
  (∀ r f k st' t', rec_reconciles t t' → repairs active l st st' r f k → Q st' t') →
  wp (for_each l st (repair_one active)) Q t.
Proof.
  induction l as [|x l IH]; intros st Q t Hr HQ; cbn; [by apply wp_ret, (HQ [] [] []), repairs_nil|].
  apply wp_bind. unfold repair_one at 1. destruct st as [running actions]. set (d := di_DeploymentID x).
  pose proof (steps_lift _ (reconciles_repair (X := X) x (lookup_int running d) (desired_count active d)) t) as Hstep.
  pose proof (wp_RepairMissing x (lookup_int running d) (desired_count active d) (rc_sys t) (rd_ok _ Hr)) as Hpost.
  apply wp_bind. unfold wp at 1. unfold lift in Hstep |- *.
  destruct (Z.leb_spec (desired_count active d) (lookup_int running d)) as [Hle|Hlt].
  { rewrite Hpost in Hstep |- *. cbn in Hstep |- *. apply wp_ret, (IH _ _ _ (rec_ready _ _ Hstep Hr)).
    intros r f k st' t' Ht Hrep. eapply HQ; [by etransitivity|]. by apply repairs_skipped. }
  unfold wp in Hpost. destruct (RepairMissing x _ _ (rc_sys t)) as [[res err] y]. cbn in Hstep, Hpost |- *.
  pose proof (rec_ready _ _ Hstep Hr) as Hr1. destruct Hpost as (v & _ & Hpost). cbn in Hpost.
  destruct (rr_Success res).
  - destruct Hpost as (-> & (w & Hw & _ & fl & resp & Hrun & He & _) & _).
    pose proof (steps_register (X := X) active x (rr_WorkerID res) (t <| rc_sys := y |>)) as Hreg.
    apply wp_bind. unfold wp at 1. destruct (register_repaired _ _ _ _) as [u t1]. cbn in Hreg |- *.
    apply wp_ret, (IH _ _ _ (rec_ready _ _ Hreg Hr1)). intros r f k st' t' Ht Hrep.
    eapply HQ; [etransitivity; [exact Hstep|by etransitivity]|].
    apply repairs_done; [done|done|]. exists w, fl, resp. rewrite Hrun. split_and!; [|done..].
    destruct Hw as [(_ & ? & ?)|[? _]]; [by left|by right].
  - destruct Hpost as [[e ->] _]. apply wp_ret, (IH _ _ _ Hr1). intros r f k st' t' Ht Hrep.
    eapply HQ; [by etransitivity|]. by eapply repairs_failed.
Qed.

(** ** Prunings *)

(** The StopContainer calls for the matched containers [l], in order. *)
Definition stops (clients : gmap string Worker) (l : list MatchingPair) (fl : F) : F :=
  fold_left (λ fl m,
    match client_for clients (mp_Observed m) with
    | Some w => (wc_StopContainer w (mkStopRequest (oc_InstanceKey (mp_Observed m)) 5) fl).2
    | None => fl
    end) l fl.

(** The record under which the repository finds the instance of a pair. *)
Definition record_of (m : MatchingPair) s : option string :=
  match ir_GetByInstanceKey (oc_InstanceKey (mp_Observed m)) (s_insts s) with
  | inr i => Some (i_ID i)
  | inl _ => i_ID <$> v_insts (view s) !! di_InstanceID (mp_Desired m)
  end.

Definition stopped_at (k : string) s : Prop :=
  ∃ i, v_insts (view s) !! k = Some i ∧ i_Status i = "STOPPED".

(** From [t] to [t'] routes only disappear and stopped records stay stopped. *)
Record calm t t' : Prop := {
  cl_rec : reconciled (rc_sys t) (rc_sys t');
  cl_router : rc_hasRouter t' = rc_hasRouter t;
  cl_routes : ∀ p i, no_target p i (s_router (rc_sys t)) → no_target p i (s_router (rc_sys t'));
  cl_stopped : ∀ k, stopped_at k (rc_sys t) → stopped_at k (rc_sys t')
}.

(** From [t] to [t'] the instance of the pair was stopped: its record, and its
    route in the project of its deployment. *)
Definition pruned_pair (dep : Deployment) (m : MatchingPair) t t' : Prop :=
  (rc_hasRouter t = true → d_ProjectID dep ≠ "" →
     no_target (d_ProjectID dep) (di_InstanceID (mp_Desired m)) (s_router (rc_sys t')))
  ∧ ∃ s, reconciled (rc_sys t) s ∧ ∀ k, record_of m s = Some k → stopped_at k (rc_sys t').

Lemma calm_refl t : ready (rc_sys t) → calm t t.
Proof. intros [H _]. by split. Qed.

Lemma calm_trans t1 t2 t3 : calm t1 t2 → calm t2 t3 → calm t1 t3.
Proof.
  intros [A1 A2 A3 A4] [B1 B2 B3 B4].
  split; [by eapply reconciled_trans|congruence|auto|auto].
Qed.

Lemma pruned_pair_calm dep m t t1 t2 : pruned_pair dep m t t1 → calm t1 t2 → pruned_pair dep m t t2.
Proof. intros [H1 (s & H2 & H3)] []. split; [auto|]. exists s. split; [done|]. auto. Qed.

Lemma pruned_pair_from dep m t0 t t' :
  calm t0 t → pruned_pair dep m t t' → pruned_pair dep m t0 t'.
Proof.
  intros [A1 A2 A3 A4] [H1 (s & H2 & H3)]. rewrite A2 in H1. split; [done|]. exists s.
  split; [by eapply reconciled_trans|done].
Qed.

Lemma wp_stop_record m (Q : unit → Sys DR IR WR F X → Prop) s :
  ready s →
  (∀ s', reconciled s s' → s_fleet s' = s_fleet s → s_router s' = s_router s →
     (∀ k, stopped_at k s → stopped_at k s') →
     (∀ k, record_of m s = Some k → stopped_at k s') → Q tt s') →
  wp (stop_record m) Q s.
Proof.
  intros Hr HQ. pose proof (rd_ok _ Hr) as H.
  assert (∀ i, v_insts (view s) !! i_ID i = Some i → record_of m s = Some (i_ID i) →
    wp (inst_update (set_stopped i) ;; ret tt) Q s) as Hup.
  { intros i Hi Hrec. apply wp_bind. eapply wp_wand.
    - apply wp_and; [|apply steps_wp, inst_update_fleet].
      apply wp_and; [by apply (reconciles_update s i (set_stopped i))|].
      apply (wp_inst_update _ i (λ _ s', ∃ now,
        view s' = (view s) <| v_insts ::= <[i_ID i := i_touch now (set_stopped i)]> |>)); [done..|].
      intros err i' now s' A _. exists now. apply (af_view _ _ _ A).
    - intros r s' ((R & now & V) & Hf). apply wp_ret, HQ; [by apply R|done|exact (f_equal v_router V)|..].
      + intros k (j & Hj & Hs). unfold stopped_at. rewrite V. cbn. rewrite lookup_insert.
        case_decide; [by eexists|by exists j].
      + intros k. rewrite Hrec. intros [= <-]. unfold stopped_at. rewrite V. cbn.
        rewrite lookup_insert_eq. by eexists. }
  unfold stop_record. apply wp_bind. unfold inst_get_key. apply wp_gets.
  destruct (ir_GetByInstanceKey _ (s_insts s)) as [e|i] eqn:E.
  2: { apply Hup; [by eapply ir_key_spec; [apply (ok_insts _ H)|]|]. unfold record_of. by rewrite E. }
  apply wp_bind, wp_inst_get.
  destruct (v_insts (view s) !! di_InstanceID (mp_Desired m)) as [i|] eqn:Ei.
  - pose proof (ok_inst_keys _ H _ _ Ei) as Ek. apply Hup; [by rewrite Ek|].
    unfold record_of. by rewrite E, Ei.
  - apply wp_ret, HQ; [by split|done..|]. intros k. unfold record_of. by rewrite E, Ei.
Qed.

Lemma on_services_unregister i t :
  let t' := (on_services (UnregisterEndpoint i) t).2 in
  s_router (rc_sys t') = s_router (rc_sys t)
  ∨ ∃ p, s_router (rc_sys t') = UnregisterTarget p i (s_router (rc_sys t)).
Proof.
  unfold on_services, modify, UnregisterEndpoint. cbn.
  destruct (rc_services t) as [sr|]; [|by left].
  destruct (find_endpoint _ _) as [[l ep]|]; cbn; destruct (sr_router sr); cbn; eauto.
Qed.

Lemma on_services_view f t :
  let t' := (on_services f t).2 in
  s_insts (rc_sys t') = s_insts (rc_sys t) ∧ s_fleet (rc_sys t') = s_fleet (rc_sys t).
Proof.
  unfold on_services, modify. cbn. destruct (rc_services t) as [sr|]; [|done].
  cbn. destruct (sr_router (f _)); done.
Qed.

Lemma calm_unregister p i t : ready (rc_sys t) →
  calm t (t <| rc_sys ::= λ y, y <| s_router ::= UnregisterTarget p i |> |>).
Proof.
  intros Hr. split; [exact (reconciles_unregister (X := X) p i (rc_sys t) Hr)|done| |done].
  intros p' i' Hn. by apply no_target_UnregisterTarget.
Qed.

Lemma calm_services i t : ready (rc_sys t) →
  calm t (on_services (UnregisterEndpoint i) t).2
  ∧ s_fleet (rc_sys (on_services (UnregisterEndpoint i) t).2) = s_fleet (rc_sys t).
Proof.
  intros Hr. pose proof (on_services_view (UnregisterEndpoint i) t) as [Hi Hf]. split; [|done].
  pose proof (steps_on_services (X := X) _ (drives_UnregisterEndpoint i) t) as [Hs Hh _].
  pose proof (on_services_unregister i t) as Hu. cbv zeta in Hu. split; [by apply Hs|done| |].
  - intros p j Hn. destruct Hu as [->|[p' ->]]; [done|]. by apply no_target_UnregisterTarget.
  - intros k. unfold stopped_at, view. cbn [v_insts]. by rewrite Hi.
Qed.

(** The routes of a pruned instance. *)
Lemma wp_unroute dep i (Q : unit → RecSys DR IR WR F X → Prop) t :
  ready (rc_sys t) →
  (∀ t', calm t t' → s_fleet (rc_sys t') = s_fleet (rc_sys t) →
     (rc_hasRouter t = true → d_ProjectID dep ≠ "" → no_target (d_ProjectID dep) i (s_router (rc_sys t'))) →
     Q tt t') →
  wp (on_services (UnregisterEndpoint i) ;;
      let! hasRouter := gets rc_hasRouter in
      if hasRouter && bool_decide (d_ProjectID dep ≠ "")
      then lift (router_unregister (d_ProjectID dep) i) else ret tt) Q t.
Proof.
  intros Hr HQ. pose proof (calm_services i t Hr) as [C1 F1].
  apply wp_bind. unfold wp at 1. destruct (on_services _ t) as [u t1]. cbn [fst snd] in *.
  pose proof (reconciled_ready _ _ Hr (cl_rec _ _ C1)) as Hr1.
  apply wp_bind, wp_gets. destruct (rc_hasRouter t1 && _) eqn:Eb.
  - apply wp_lift. pose proof (calm_unregister (d_ProjectID dep) i t1 Hr1) as C2.
    refine (HQ _ (calm_trans _ _ _ C1 C2) F1 _). intros _ _. cbn.
    unfold no_target. rewrite routes_UnregisterTarget, decide_True by done. apply lookup_delete_eq.
  - apply wp_ret, HQ; [done|done|]. intros Hh Hp. rewrite <- (cl_router _ _ C1) in Hh.
    rewrite Hh in Eb. cbn in Eb. by rewrite bool_decide_eq_true_2 in Eb.
Qed.

Lemma wp_prune_one clients dep m (Q : unit → RecSys DR IR WR F X → Prop) t :
  ready (rc_sys t) →
  (∀ t', calm t t' → s_fleet (rc_sys t') = stops clients [m] (s_fleet (rc_sys t)) →
     pruned_pair dep m t t' → Q tt t') →
  wp (prune_one clients dep m) Q t.
Proof.
  intros Hr HQ. unfold prune_one. apply wp_bind.
  eapply (wp_wand _ (λ _ t1, calm t t1 ∧ s_fleet (rc_sys t1) = stops clients [m] (s_fleet (rc_sys t)))).
  - destruct (client_for clients (mp_Observed m)) as [w|] eqn:Ec.
    + apply wp_bind, wp_lift. unfold stop_container. apply wp_fleet. intros a fl E. apply wp_ret.
      pose proof (reconciles_on_fleet (X := X) (IR := IR) (wc_StopContainer w
        (mkStopRequest (oc_InstanceKey (mp_Observed m)) 5)) (rc_sys t) Hr) as R.
      unfold on_fleet in R. rewrite E in R. split; [by split|]. cbn. rewrite Ec. by rewrite E.
    + apply wp_ret. split; [by apply calm_refl|]. cbn. by rewrite Ec.
  - intros u t1 [C1 F1]. pose proof (reconciled_ready _ _ Hr (cl_rec _ _ C1)) as Hr1.
    apply wp_bind, wp_lift, wp_stop_record; [done|]. intros y R Ef Er Hst Hrec.
    set (t2 := t1 <| rc_sys := y |>).
    assert (calm t1 t2) as C2 by (split; [done|done|by cbn; rewrite Er|done]).
    apply wp_unroute; [by eapply reconciled_ready|]. intros t3 C3 F3 Hn.
    pose proof (calm_trans _ _ _ C1 C2) as C12.
    apply HQ; [by eapply calm_trans|by rewrite F3; cbn; rewrite Ef|]. split.
    + intros Hh Hp. apply Hn; [|done]. by rewrite (cl_router _ _ C12).
    + exists (rc_sys t1). split; [apply (cl_rec _ _ C1)|]. intros k Hk. by apply (cl_stopped _ _ C3), Hrec.
Qed.

(** The pairs of deployment [d]. *)
Definition pairs_of (d : string) (l : list MatchingPair) : list MatchingPair :=
  base.filter (λ m, di_DeploymentID (mp_Desired m) = d) l.

Lemma pairs_num d l : Z.of_nat (length (pairs_of d l)) = num d (mp_Desired <$> l).
Proof.
  induction l as [|m l IH]; [done|]. unfold pairs_of in *. rewrite filter_cons. cbn. rewrite num_cons.
  case_decide; cbn [length]; lia.
Qed.

Lemma num_pairs d d' l :
  (∀ m, m ∈ l → di_DeploymentID (mp_Desired m) = d) →
  num d' (mp_Desired <$> l) = if decide (d = d') then Z.of_nat (length l) else 0.
Proof.
  induction l as [|m l IH]; intros H; cbn; [rewrite num_nil; by case_decide|].
  rewrite num_cons, IH by (intros m' Hm; apply H; by right).
  rewrite (H m) by left. case_decide; lia.
Qed.

(** The pairs [l] were pruned, and the counts and actions went from [st] to
    [st']. *)
Record prunes (clients : gmap string Worker) (active : gmap string Deployment)
    (l : list MatchingPair) (st st' : Counts) t t' : Prop := {
  pr_calm : calm t t';
  pr_fleet : s_fleet (rc_sys t') = stops clients l (s_fleet (rc_sys t));
  pr_counts : ∀ d, lookup_int st'.1 d = lookup_int st.1 d - num d (mp_Desired <$> l);
  pr_actions : st'.2 = st.2 <| ra_StoppedCount := ra_StoppedCount st.2 + Z.of_nat (length l) |>;
  pr_pairs : ∀ m, m ∈ l → ∃ dep, active !! di_DeploymentID (mp_Desired m) = Some dep
    ∧ pruned_pair dep m t t'
}.

Lemma prunes_nil clients active st t : ready (rc_sys t) → prunes clients active [] st st t t.
Proof.
  intros Hr. split; [by apply calm_refl|done| | |by intros m ?%not_elem_of_nil].
  - intros d. cbn. rewrite num_nil. lia.
  - rewrite Z.add_0_r. by destruct st as [c []].
Qed.

Lemma prunes_app clients active l1 l2 st1 st2 st3 t1 t2 t3 :
  prunes clients active l1 st1 st2 t1 t2 → prunes clients active l2 st2 st3 t2 t3 →
  prunes clients active (l1 ++ l2) st1 st3 t1 t3.
Proof.
  intros [A1 A2 A3 A4 A5] [B1 B2 B3 B4 B5]. split.
  - by eapply calm_trans.
  - unfold stops in *. by rewrite fold_left_app, <- A2.
  - intros d. rewrite B3, A3, fmap_app, num_app. lia.
  - rewrite B4, A4. unfold set_field. cbn. f_equal. rewrite length_app. lia.
  - intros m [Hm|Hm]%elem_of_app.
    + destruct (A5 m Hm) as (dep & Hd & Hp). exists dep. split; [done|]. by eapply pruned_pair_calm.
    + destruct (B5 m Hm) as (dep & Hd & Hp). exists dep. split; [done|]. by eapply pruned_pair_from.
Qed.

Lemma wp_prune_matching clients active d dep excess l : ∀ n st (Q : Counts → RecSys DR IR WR F X → Prop) t,
  ready (rc_sys t) → active !! d = Some dep →
  (∀ st' t', prunes clients active (take (Z.to_nat (excess - n)) (pairs_of d l)) st st' t t' → Q st' t') →
  wp (prune_matching clients d dep excess n l st) Q t.
Proof.
  induction l as [|m l IH]; intros n st Q t Hr Hd HQ; cbn.
  { apply wp_ret, HQ. cbn. rewrite take_nil. by apply prunes_nil. }
  destruct (Z.ltb_spec n excess) as [Hlt|Hge].
  2: { apply wp_ret, HQ. replace (Z.to_nat (excess - n)) with 0%nat by lia. by apply prunes_nil. }
  unfold pairs_of in HQ. rewrite filter_cons in HQ. case_decide as Ed; [|by apply IH].
  apply wp_bind, wp_prune_one; [done|]. intros t1 C1 F1 P1.
  apply (IH (n + 1)); [by eapply reconciled_ready; [|apply (cl_rec _ _ C1)]|done|].
  intros st' t' Hpr. apply HQ.
  replace (Z.to_nat (excess - n)) with (S (Z.to_nat (excess - (n + 1)))) by lia. cbn [take].
  change (m :: ?l') with ([m] ++ l'). eapply prunes_app; [|exact Hpr]. split; [done|done| |done|].
  - intros d'. cbn. rewrite lookup_int_insert, num_cons, num_nil, Ed. case_decide; [subst d'|]; lia.
  - intros m' ->%list_elem_of_singleton. exists dep. by rewrite Ed.
Qed.

(** The pairs that a pass prunes of deployment [d], which counts [n]. *)
Definition excess_pairs (active : gmap string Deployment) (matching : list MatchingPair)
    (counts : gmap string Z) (d : string) : list MatchingPair :=
  match active !! d with
  | Some _ => take (Z.to_nat (lookup_int counts d - desired_count active d)) (pairs_of d (rev matching))
  | None => []
  end.

Lemma excess_pairs_of active matching counts d m :
  m ∈ excess_pairs active matching counts d → di_DeploymentID (mp_Desired m) = d ∧ m ∈ matching.
Proof.
  unfold excess_pairs. destruct (active !! d); [|by intros ?%not_elem_of_nil].
  intros (i & Hi%list_elem_of_lookup_2 & _)%elem_of_take.
  apply list_elem_of_filter in Hi as [Hd Hm]. by rewrite list_elem_of_In, <- in_rev, <- list_elem_of_In in Hm.
Qed.

Lemma excess_pairs_num active matching counts d d' :
  num d' (mp_Desired <$> excess_pairs active matching counts d)
  = if decide (d = d') then Z.of_nat (length (excess_pairs active matching counts d)) else 0.
Proof. apply num_pairs. intros m Hm. by eapply excess_pairs_of. Qed.

Lemma wp_prune_deployment clients active matching d st (Q : Counts → RecSys DR IR WR F X → Prop) t :
  ready (rc_sys t) →
  (∀ st' t', prunes clients active (excess_pairs active matching st.1 d) st st' t t' → Q st' t') →
  wp (prune_deployment clients active matching d st) Q t.
Proof.
  intros Hr HQ. unfold prune_deployment, excess_pairs in *. cbv zeta.
  destruct (active !! d) as [dep|] eqn:Ed; [|apply wp_ret, HQ; by apply prunes_nil].
  destruct (Z.ltb_spec (desired_count active d) (lookup_int st.1 d)).
  - eapply wp_prune_matching; [done..|]. intros st' t'. by rewrite Z.sub_0_r; apply HQ.
  - apply wp_ret, HQ. replace (Z.to_nat _) with 0%nat by lia. by apply prunes_nil.
Qed.

Lemma wp_prune_all clients active matching counts ks :
  NoDup ks → ∀ st (Q : Counts → RecSys DR IR WR F X → Prop) t,
  ready (rc_sys t) → (∀ d, d ∈ ks → lookup_int st.1 d = lookup_int counts d) →
  (∀ st' t', prunes clients active (ks ≫= excess_pairs active matching counts) st st' t t' → Q st' t') →
  wp (for_each ks st (prune_deployment clients active matching)) Q t.
Proof.
  induction ks as [|d ks IH]; intros Hnd st Q t Hr Hc HQ; cbn; [by apply wp_ret, HQ, prunes_nil|].
  apply NoDup_cons in Hnd as [Hd Hnd].
  apply wp_bind, wp_prune_deployment; [done|]. intros st1 t1 P1.
  assert (excess_pairs active matching st.1 d = excess_pairs active matching counts d) as E.
  { unfold excess_pairs. by rewrite (Hc d) by left. }
  apply IH; [done|by eapply reconciled_ready, (cl_rec _ _ (pr_calm _ _ _ _ _ _ _ P1))| |].
  - intros d' Hd'. rewrite (pr_counts _ _ _ _ _ _ _ P1), excess_pairs_num.
    rewrite decide_False by (intros <-; done). rewrite Hc by (by right). lia.
  - intros st' t' P2. apply HQ. rewrite E in P1. cbn. by eapply prunes_app.
Qed.

Lemma num_bind d ks (f : string → list MatchingPair) :
  NoDup ks → (∀ k m, m ∈ f k → di_DeploymentID (mp_Desired m) = k) →
  num d (mp_Desired <$> (ks ≫= f)) = if decide (d ∈ ks) then Z.of_nat (length (f d)) else 0.
Proof.
  intros Hnd Hf. induction ks as [|k ks IH]; cbn; [done|].
  apply NoDup_cons in Hnd as [Hk Hnd]. rewrite fmap_app, num_app, IH, (num_pairs k) by eauto.
  destruct (decide (k = d)) as [->|Hne].
  - rewrite decide_False, decide_True by (done || by left). lia.
  - destruct (decide (d ∈ ks)); [rewrite decide_True by (by right); lia|].
    rewrite decide_False; [lia|]. by intros [?|?]%elem_of_cons.
Qed.

End replicas.

(** ** The replica counts of a pass *)

Section invariant.
Context {DR IR WR F X : Type}.
Context {ent : Entropy} `{!DeploymentRepository DR, !InstanceRepository IR, !WorkerRepository WR}.
Context `{!WorkerClientFactory F, !Externals X} {uni : Unicode} {net : NetURL}.
Context {entl : EntropyLaws} `{!DeploymentStore DR, !InstanceStore IR, !WorkerRepositoryLaws WR}.
Implicit Types t : RecSys DR IR WR F X.

(** The replicas of deployment [d] that matched, were repaired and pruned. *)
Definition replicas_met (active : gmap string Deployment) (diff : DiffResult)
    (repaired : list DesiredInstance) (pruned : list MatchingPair) (d : string) : Prop :=
  let running := num d (mp_Desired <$> df_Matching diff) + num d repaired in
  (num d repaired = 0 ∨ running ≤ desired_count active d)
  ∧ num d (mp_Desired <$> pruned)
    = match active !! d with Some _ => Z.max 0 (running - desired_count active d) | None => 0 end.

Definition replicas_post (clients : gmap string Worker) (active : gmap string Deployment)
    (diff : DiffResult) (actions : ReconcileActions) t (st : Counts) t' : Prop :=
  ∃ repaired failed skipped pruned errs t1,
    rec_reconciles t t1
    ∧ repaired ++ failed ++ skipped ≡ₚ df_Missing diff ∧ length errs = length failed
    ∧ st.2 = actions <| ra_RecreatedCount := ra_RecreatedCount actions + Z.of_nat (length repaired) |>
                     <| ra_StoppedCount := ra_StoppedCount actions + Z.of_nat (length pruned) |>
                     <| ra_Errors := ra_Errors actions ++ errs |>
    ∧ (∀ d, replicas_met active diff repaired pruned d)
    ∧ Forall recreated repaired
    ∧ (∀ x, x ∈ skipped → let d := di_DeploymentID x in
         desired_count active d ≤ num d (mp_Desired <$> df_Matching diff) + num d repaired)
    ∧ s_fleet (rc_sys t') = stops clients pruned (s_fleet (rc_sys t1))
    ∧ ∀ m, m ∈ pruned → m ∈ df_Matching diff
        ∧ ∃ dep, active !! di_DeploymentID (mp_Desired m) = Some dep ∧ pruned_pair dep m t1 t'.

Lemma desired_count_pos active d : 1 ≤ desired_count active d.
Proof. unfold desired_count. destruct (active !! d); [|lia]. case_match; lia. Qed.

Lemma wp_reconcile_replicas clients active diff actions t :
  ready (rc_sys t) →
  wp (reconcile_replicas clients active diff actions) (replicas_post clients active diff actions t) t.
Proof.
  intros Hr. unfold reconcile_replicas. apply wp_bind, wp_repair_all; [done|].
  intros r f k st1 t1 S1 [R1 (errs & R2 & R2') R3 R4 R5 R6]. pose proof (rec_ready _ _ S1 Hr) as Hr1.
  cbn in R2', R3. setoid_rewrite count_matching_spec in R3.
  apply wp_bind, wp_lift. apply idle_draw_order; [apply Hr1|]. intros o y A.
  set (t2 := t1 <| rc_sys := y |>).
  assert (ready (rc_sys t2)) as Hr2.
  { eapply reconciled_ready; [exact Hr1|]. by eapply reconciled_after. }
  set (ks := (map_pairs o st1.1).*1).
  assert (NoDup ks) as Hnd.
  { unfold ks, map_pairs. rewrite permute_perm. apply NoDup_fst_map_to_list. }
  assert (∀ d, d ∉ ks → lookup_int st1.1 d = 0) as Hks.
  { intros d Hd. unfold lookup_int. destruct (st1.1 !! d) as [n|] eqn:E; [|done]. destruct Hd.
    unfold ks. apply list_elem_of_fmap. exists (d, n). by rewrite elem_of_map_pairs. }
  apply (wp_prune_all clients active _ st1.1 ks Hnd); [done..|]. intros st' t' [P1 P2 P3 P4 P5].
  set (pruned := ks ≫= excess_pairs active (df_Matching diff) st1.1) in *.
  exists r, f, k, pruned, errs, t2. split_and!; try done.
  - etransitivity; [exact S1|]. split; [|done..]. intros _. by eapply reconciled_after.
  - rewrite P4, R2'. by destruct actions.
  - intros d. split; [by rewrite <- R3|]. rewrite <- R3. unfold pruned.
    rewrite (num_bind d ks) by (done || intros ? ? ?%excess_pairs_of; tauto).
    pose proof (desired_count_pos active d).
    destruct (decide (d ∈ ks)) as [Hd|Hd]; [|rewrite (Hks d Hd); destruct (active !! d); lia].
    unfold excess_pairs. destruct (active !! d); [|done]. rewrite length_take.
    pose proof (pairs_num d (rev (df_Matching diff))) as Hp.
    rewrite (num_perm _ _ (mp_Desired <$> df_Matching diff)) in Hp
      by (apply fmap_Permutation; symmetry; apply Permutation_rev).
    specialize (R4 d). rewrite R3 in R4 |- *. destruct R4; lia.
  - intros x Hx. cbn. rewrite <- R3. by apply R5.
  - intros m Hm. split; [|by apply P5].
    unfold pruned in Hm. apply list_elem_of_bind in Hm as (d & Hm & _). by eapply excess_pairs_of.
Qed.

(** C22: The repairs and prunings of a pass: every missing instance is run again
    on a fit worker, fails with a recorded error, or is skipped because its
    deployment has enough replicas; repairs never take a deployment above its
    desired count, and exactly the replicas in excess are pruned, each one
    stopped at its worker, its record STOPPED and its route in its project
    removed. *)
Theorem reconcile_replica_counts clients active diff actions t :
  ready (rc_sys t) →
  wp (reconcile_replicas clients active diff actions) (replicas_post clients active diff actions t) t.
Proof. apply wp_reconcile_replicas. Qed.

End invariant.
