(* ===== verification/Convergence.v ===== *)
(** * Convergence: what a pass of the reconciler does

    What no pass changes, and that a pass over a converged platform acts on
    nothing. *)

From stdpp Require Import base option gmap strings list pretty.
From Stdlib Require Import ZArith Lia.
From S2P Require Import Prelude GoLib GoFloat PtrStore Workers Scheduler LoadBalancer Discovery HA Deployments Fleet Platform Service ServiceFacts Lifecycle Scaling Demo ServiceTheorems Diff Repair Draining Reconcile Replicas.

(** ** A comparison that finds no difference *)

Section agreement.
Context {uni : Unicode}.

(** No two of the containers bear names of one instance. *)
Definition one_container_each (desired : list DesiredInstance) (observed : list ObservedContainer) : Prop :=
  ∀ i j o o' d, observed !! i = Some o → observed !! j = Some o' → d ∈ desired →
    names d (observed_key o) → names d (observed_key o') → i = j.

(** The containers are those of the instances. *)
Record agree (desired : list DesiredInstance) (observed : list ObservedContainer) : Prop := {
  ag_names : distinct_names desired;
  ag_one : one_container_each desired observed;
  ag_wanted : ∀ o, o ∈ observed →
    IsRunningState (oc_State o) = true ∧ ∃ d, d ∈ desired ∧ names d (observed_key o);
  ag_runs : ∀ d, d ∈ desired → ∃ o, o ∈ observed ∧ names d (observed_key o)
}.

Lemma distinct_names_perm l l' : l ≡ₚ l' → distinct_names l → distinct_names l'.
Proof.
  intros (_ & f & Hf & E)%symmetry%Permutation_inj H i j d e k Hi Hj Hd He. apply (inj f).
  rewrite E in Hi, Hj. by eapply H.
Qed.

Lemma one_container_perm desired desired' observed observed' :
  desired ≡ₚ desired' → observed ≡ₚ observed' →
  one_container_each desired observed → one_container_each desired' observed'.
Proof.
  intros Hd (_ & f & Hf & E)%symmetry%Permutation_inj H i j o o' d Hi Hj Hin Ho Ho'. apply (inj f).
  rewrite E in Hi, Hj. rewrite <- Hd in Hin. by eapply H.
Qed.

Lemma agree_perm desired desired' observed observed' :
  desired ≡ₚ desired' → observed ≡ₚ observed' → agree desired observed → agree desired' observed'.
Proof.
  intros Hd Ho [H1 H2 H3 H4]. split.
  - by eapply distinct_names_perm.
  - by eapply one_container_perm.
  - intros o. rewrite <- Ho. setoid_rewrite <- Hd. apply H3.
  - intros d. rewrite <- Hd. setoid_rewrite <- Ho. apply H4.
Qed.

(** An instance that is matched has a container among those seen. *)
Lemma matched_seen desired seen st i d :
  diff_inv desired seen st → ds_matched st !! i = Some true → desired !! i = Some d →
  ∃ o, o ∈ seen ∧ names d (observed_key o).
Proof.
  intros [H1 H2 H3 H4 H5] Hi Hd.
  assert (d ∈ select true (ds_matched st) desired) as Hs.
  { clear -Hi Hd. revert desired i Hi Hd. generalize (ds_matched st).
    intros flags. induction flags as [|f flags IH]; intros [|x l] [|i]; cbn; try done.
    - intros [= ->] [= ->]. left.
    - intros Hi Hd. specialize (IH l i Hi Hd). case_match; [by right|done]. }
  rewrite <- H3 in Hs. apply list_elem_of_fmap in Hs as (p & -> & Hp).
  rewrite Forall_forall in H4. destruct (H4 p Hp) as (_ & Hn & _).
  exists (mp_Observed p). split; [|done]. rewrite <- H2, elem_of_app. left. by apply list_elem_of_fmap_2.
Qed.

Lemma diff_no_extra desired observed : ∀ seen st,
  diff_inv desired seen st → ds_Extra st = [] →
  one_container_each desired (seen ++ observed) →
  (∀ o, o ∈ observed →
     IsRunningState (oc_State o) = true ∧ ∃ d, d ∈ desired ∧ names d (observed_key o)) →
  ds_Extra (fold_left (diff_step (index_desired 0 desired ∅) desired) observed st) = [].
Proof.
  induction observed as [|o observed IH]; intros seen st Hinv He Hone Hw; [done|]. cbn.
  destruct (Hw o) as (Hrun & d & Hd & Hn); [by left|].
  apply list_elem_of_lookup in Hd as [n Hd].
  destruct (index_desired_complete desired 0 ∅ (observed_key o) n d Hd Hn) as [idx Hidx].
  assert (lookup_desired (index_desired 0 desired ∅) o = Some idx) as El.
  { unfold lookup_desired. rewrite decide_False by apply Hn. done. }
  destruct (lookup_desired_range _ _ _ El) as (e & Hde & Hne).
  destruct (lookup_lt_is_Some_2 (ds_matched st) idx) as [m Hm].
  { rewrite (di_length _ _ _ Hinv). by eapply lookup_lt_Some. }
  pose proof (diff_inv_step desired seen st o Hinv) as Hinv'.
  assert (m = false) as ->.
  { destruct m; [|done]. destruct (matched_seen _ _ _ _ _ Hinv Hm Hde) as (o' & Ho' & Hn').
    apply list_elem_of_lookup in Ho' as [i Hi]. pose proof (lookup_lt_Some _ _ _ Hi).
    assert (i = length seen) as ->; [|lia].
    eapply (Hone i (length seen) o' o e); [by apply lookup_app_l_Some| |by eapply list_elem_of_lookup_2|done..].
    rewrite lookup_app_r, Nat.sub_diag by lia. done. }
  apply (IH (seen ++ [o])); [done| |by rewrite <- app_assoc|intros o' Ho'; apply Hw; by right].
  unfold diff_step. by rewrite El, Hm, Hde, Hrun.
Qed.

Lemma diff_agree desired observed :
  agree desired observed →
  df_Missing (ComputeDiff desired observed) = [] ∧ df_Extra (ComputeDiff desired observed) = [].
Proof.
  intros [H1 H2 H3 H4]. split.
  - destruct (df_Missing (ComputeDiff desired observed)) as [|d l] eqn:E; [done|exfalso].
    assert (d ∈ df_Missing (ComputeDiff desired observed)) as Hm by (rewrite E; left).
    assert (d ∈ desired) as Hd.
    { destruct (diff_inv_end desired observed) as (flags & _ & Em). rewrite Em in Hm.
      apply select_elem in Hm as (i & _ & Hi). by eapply list_elem_of_lookup_2. }
    destruct (H4 d Hd) as (o & Ho & Hn). pose proof (missing_unobserved desired observed H1 d Hm o Ho Hn) as Hr.
    destruct (H3 o Ho) as [Hr' _]. congruence.
  - unfold ComputeDiff. cbv zeta. cbn [df_Extra]. by apply (diff_no_extra desired observed []);
      [apply diff_inv_start|..].
Qed.

(** All of the instances are matched. *)
Lemma agree_counts desired observed d :
  agree desired observed → num d (mp_Desired <$> df_Matching (ComputeDiff desired observed)) = num d desired.
Proof.
  intros H. destruct (diff_agree _ _ H) as [Em _].
  destruct (diff_inv_end desired observed) as (flags & [H1 _ H3 _ _] & E). cbn in *.
  pose proof (select_split flags desired H1) as Hs. rewrite <- E, Em, app_nil_r in Hs.
  apply num_perm. by rewrite H3.
Qed.

(** ** Checking agreement *)

#[export] Instance names_dec d k : Decision (names d k).
Proof. unfold names. apply _. Defined.

Fixpoint no_two {A} (R : A → A → bool) (l : list A) : bool :=
  match l with
  | [] => true
  | x :: l' => forallb (λ y, negb (R x y)) l' && no_two R l'
  end.

Lemma no_two_sound {A} (R : A → A → bool) l :
  (∀ x y, R x y = R y x) → no_two R l = true →
  ∀ i j x y, l !! i = Some x → l !! j = Some y → R x y = true → i = j.
Proof.
  intros Hsym. induction l as [|z l IH]; [done|]. cbn. intros [Hz Hl]%andb_true_iff.
  rewrite forallb_forall in Hz.
  assert (∀ i x, l !! i = Some x → R z x = false) as Hzx.
  { intros i x Hi%list_elem_of_lookup_2%list_elem_of_In. by apply negb_true_iff, Hz. }
  intros [|i] [|j] x y; cbn; [done|..].
  - intros [= ->] Hj Hr. by rewrite (Hzx _ _ Hj) in Hr.
  - intros Hi [= ->] Hr. by rewrite Hsym, (Hzx _ _ Hi) in Hr.
  - intros Hi Hj Hr. f_equal. by eapply IH.
Qed.

Definition share_name (d e : DesiredInstance) : bool :=
  existsb (λ k, bool_decide (names d k) && bool_decide (names e k))
    [di_InstanceKey d; di_InstanceID d; di_InstanceKey e; di_InstanceID e].

Definition same_instance (desired : list DesiredInstance) (o o' : ObservedContainer) : bool :=
  existsb (λ d, bool_decide (names d (observed_key o)) && bool_decide (names d (observed_key o'))) desired.

Definition check_agree (desired : list DesiredInstance) (observed : list ObservedContainer) : bool :=
  no_two share_name desired && no_two (same_instance desired) observed
  && forallb (λ o, IsRunningState (oc_State o)
                   && existsb (λ d, bool_decide (names d (observed_key o))) desired) observed
  && forallb (λ d, existsb (λ o, bool_decide (names d (observed_key o))) observed) desired.

Lemma share_name_spec d e k : names d k → names e k → share_name d e = true.
Proof.
  intros Hd He. unfold share_name. apply existsb_exists. exists k.
  rewrite !bool_decide_eq_true_2 by done. split; [|done]. destruct Hd as [_ [->| ->]]; cbn; tauto.
Qed.

Lemma share_name_sym d e : share_name d e = share_name e d.
Proof.
  apply eq_bool_prop_intro. unfold share_name. rewrite !Is_true_true, !existsb_exists.
  split; intros (k & Hk & [H1 H2]%andb_true_iff); exists k; rewrite H1, H2; cbn in *; tauto.
Qed.

Lemma same_instance_sym desired o o' : same_instance desired o o' = same_instance desired o' o.
Proof. unfold same_instance. induction desired as [|d l IH]; cbn; [done|]. by rewrite andb_comm, IH. Qed.

Lemma check_agree_sound desired observed : check_agree desired observed = true → agree desired observed.
Proof.
  unfold check_agree. intros [[[H1 H2]%andb_true_iff H3]%andb_true_iff H4]%andb_true_iff.
  rewrite forallb_forall in H3, H4. split.
  - intros i j d e k Hi Hj Hd He. eapply (no_two_sound _ _ share_name_sym H1); [done..|].
    by eapply share_name_spec.
  - intros i j o o' d Hi Hj Hd Ho Ho'.
    eapply (no_two_sound _ _ (same_instance_sym desired) H2); [done..|].
    apply existsb_exists. exists d. rewrite !bool_decide_eq_true_2 by done. by rewrite <- list_elem_of_In.
  - intros o Ho%list_elem_of_In. destruct (andb_prop _ _ (H3 o Ho)) as [Hr He]. split; [done|].
    apply existsb_exists in He as (d & Hd%list_elem_of_In & Hn%bool_decide_eq_true). by exists d.
  - intros d Hd%list_elem_of_In. pose proof (H4 d Hd) as He.
    apply existsb_exists in He as (o & Ho%list_elem_of_In & Hn%bool_decide_eq_true). by exists o.
Qed.

End agreement.

(** ** Desired and observed state of a platform *)

Definition active_in (deps : gmap string Deployment) : gmap string Deployment :=
  base.filter (λ kv, active_deployment kv.2 = true) deps.

Lemma filter_all {A} (P : A → Prop) `{!∀ x, Decision (P x)} (l : list A) :
  (∀ x, x ∈ l → P x) → base.filter P l = l.
Proof.
  induction l as [|x l IH]; intros Hl; [done|]. rewrite filter_cons_True by (apply Hl; left).
  f_equal. apply IH. intros y Hy. apply Hl. by right.
Qed.

Lemma active_deployments_from l : ∀ (m : gmap string Deployment) k,
  NoDup (d_ID <$> l) →
  fold_left (λ m d, if active_deployment d then <[d_ID d := d]> m else m) l m !! k
  = match list_find (λ d, d_ID d = k ∧ active_deployment d = true) l with
    | Some (_, d) => Some d | None => m !! k end.
Proof.
  induction l as [|d l IH]; intros m k Hnd; [done|]. cbn -[active_deployment].
  apply NoDup_cons in Hnd as [Hd Hnd]. rewrite IH by done.
  destruct (list_find _ l) as [[n e]|] eqn:Ef.
  - apply list_find_Some in Ef as (He & [Hk Ha] & _). rewrite decide_False; [done|].
    intros [Hk' _]. apply Hd. rewrite Hk', <- Hk. apply list_elem_of_fmap_2. by eapply list_elem_of_lookup_2.
  - cbn. case_decide as Hc; [destruct Hc as [<- ->]; by rewrite lookup_insert_eq|].
    destruct (active_deployment d); [|done]. rewrite lookup_insert_ne; [done|]. intros E. by destruct Hc.
Qed.

(** The repository's list gives the active deployments. *)
Lemma active_deployments_spec l (deps : gmap string Deployment) :
  (∀ k d, deps !! k = Some d → d_ID d = k) →
  l ≡ₚ (map_to_list deps).*2 → active_deployments l = active_in deps.
Proof.
  intros Hk Hl. assert (∀ d, d ∈ l ↔ deps !! d_ID d = Some d) as Hin.
  { intros d. rewrite Hl, list_elem_of_fmap. split.
    - intros ([k d'] & -> & H%elem_of_map_to_list). cbn. by rewrite (Hk _ _ H).
    - intros H. exists (d_ID d, d). by rewrite elem_of_map_to_list. }
  assert (NoDup (d_ID <$> l)) as Hnd.
  { apply NoDup_fmap_2_strong.
    { intros d e Hd%Hin He%Hin E. congruence. }
    rewrite Hl. apply NoDup_fmap_2_strong; [|apply NoDup_map_to_list].
    intros [k1 d1] [k2 d2] H1%elem_of_map_to_list H2%elem_of_map_to_list E. cbn in E.
    pose proof (Hk _ _ H1). pose proof (Hk _ _ H2). congruence. }
  apply map_eq. intros k. unfold active_deployments. rewrite active_deployments_from by done.
  rewrite lookup_empty. unfold active_in. destruct (list_find _ l) as [[n d]|] eqn:Ef; symmetry.
  - apply list_find_Some in Ef as (He%list_elem_of_lookup_2%Hin & [<- Ha] & _).
    by apply map_lookup_filter_Some.
  - apply map_lookup_filter_None. right. intros d Hd Ha. apply list_find_None in Ef.
    rewrite Forall_forall in Ef. pose proof (Hk _ _ Hd) as <-. by apply (Ef d); [apply Hin|].
Qed.

Section convergence.
Context {DR IR WR F X : Type}.
Context {ent : Entropy} `{!DeploymentRepository DR, !InstanceRepository IR, !WorkerRepository WR}.
Context `{!WorkerClientFactory F, !Externals X} {uni : Unicode} {net : NetURL}.
Context {entl : EntropyLaws} `{!DeploymentStore DR, !InstanceStore IR, !WorkerRepositoryLaws WR}.
Implicit Types s : Sys DR IR WR F X.
Implicit Types t : RecSys DR IR WR F X.

(** The instances that the repositories want to run. *)
Definition wanted_in (v : View WR) : list DesiredInstance :=
  omap (desired_instance (active_in (v_deps v))) (map_to_list (v_insts v)).*2.

(** The containers that a worker reports, when it is asked. *)
Definition listed (fl : F) (w : Worker) : list ObservedContainer :=
  if unreachable w then []
  else match (wc_ListContainers w fl).1 with inr l => observe w <$> l | inl _ => [] end.

Definition observed_in (r : Registry WR) (fl : F) : list ObservedContainer :=
  (map_to_list (pri_view (rg_store r))).*2 ≫= listed fl.

(** Every worker that is not set aside answers, and answering changes nothing. *)
Definition answers (r : Registry WR) (fl : F) : Prop :=
  ∀ k w, get_pri k (rg_store r) = Some w → unreachable w = false →
    wc_GetClient w fl = (None, fl) ∧ ∃ l, wc_ListContainers w fl = (inr l, fl).

(** The workers run what the repositories want, in the desired numbers, and no
    draining worker has work left. *)
Record converged s : Prop := {
  cv_answers : answers (s_registry s) (s_fleet s);
  cv_agree : agree (wanted_in (view s)) (observed_in (s_registry s) (s_fleet s));
  cv_counts : ∀ d, num d (wanted_in (view s)) ≤ desired_count (active_in (v_deps (view s))) d;
  cv_drained : ∀ k w k' i, get_pri k (rg_store (s_registry s)) = Some w → w_State w = StateDraining →
    v_insts (view s) !! k' = Some i → i_WorkerID i = w_ID w → i_Status i ≠ "RUNNING"
}.

(** Only identifiers, times and orders were drawn. *)
Definition still t t' : Prop :=
  ∃ y, t' = t <| rc_sys := y |> ∧ after (rc_sys t) y (view (rc_sys t)) ∧ s_fleet y = s_fleet (rc_sys t).

Lemma still_refl t : sys_ok (rc_sys t) → still t t.
Proof. intros H. exists (rc_sys t). split_and!; [by destruct t|by apply after_refl|done]. Qed.

Lemma still_trans t1 t2 t3 : still t1 t2 → still t2 t3 → still t1 t3.
Proof.
  intros (y & -> & A & F1) (z & -> & B & F2). cbn in *. exists z. split_and!; [done| |congruence].
  rewrite (af_view _ _ _ A) in B. by eapply after_trans.
Qed.

Lemma still_keeps_ok t t' : still t t' → sys_ok (rc_sys t').
Proof. intros (y & -> & A & _). apply (af_ok _ _ _ A). Qed.

Lemma still_view t t' : still t t' → view (rc_sys t') = view (rc_sys t).
Proof. intros (y & -> & A & _). apply (af_view _ _ _ A). Qed.

Lemma still_fleet t t' : still t t' → s_fleet (rc_sys t') = s_fleet (rc_sys t).
Proof. by intros (y & -> & _ & E). Qed.

Lemma still_converged t t' : still t t' → converged (rc_sys t) → converged (rc_sys t').
Proof.
  intros S [C1 C2 C3 C4].
  assert (s_registry (rc_sys t') = s_registry (rc_sys t)) as Eg by exact (f_equal v_registry (still_view _ _ S)).
  split; rewrite ?(still_view _ _ S), ?Eg, ?(still_fleet _ _ S); done.
Qed.

(** Runs a call that leaves the fleet alone. *)
Lemma wp_lift_still {A} (m : ST (Sys DR IR WR F X) A) (P : A → Prop) (Q : A → RecSys DR IR WR F X → Prop) t :
  (∀ Q', (∀ a s', after (rc_sys t) s' (view (rc_sys t)) → P a → Q' a s') → wp m Q' (rc_sys t)) →
  s_fleet (m (rc_sys t)).2 = s_fleet (rc_sys t) →
  (∀ a t', still t t' → P a → Q a t') → wp (lift m) Q t.
Proof.
  intros Hm Hf HQ. apply wp_lift. unfold wp. apply (Hm (λ a s', s' = (m (rc_sys t)).2 → Q a (t <| rc_sys := s' |>))); [|done].
  intros a s' A1 Ha Es. apply HQ; [|done]. exists s'. split_and!; [done|done|by rewrite Es].
Qed.

Lemma wp_lift_order (Q : Order → RecSys DR IR WR F X → Prop) t :
  sys_ok (rc_sys t) → (∀ o t', still t t' → Q o t') → wp (lift draw_order) Q t.
Proof.
  intros H HQ. apply (wp_lift_still _ (λ _, True)); [|done|by auto].
  intros Q' HQ'. apply idle_draw_order; auto.
Qed.

Lemma wp_fetch_desired (Q : _ → RecSys DR IR WR F X → Prop) t :
  sys_ok (rc_sys t) →
  (∀ l t', still t t' → l ≡ₚ wanted_in (view (rc_sys t)) →
     Q (inr (active_in (v_deps (view (rc_sys t))), l)) t') →
  wp fetch_desired Q t.
Proof.
  intros H HQ. unfold fetch_desired. apply wp_bind.
  apply (wp_lift_still _ (λ r, ∃ l, r = inr l ∧ l ≡ₚ (map_to_list (v_deps (view (rc_sys t)))).*2)).
  { intros Q' HQ'. apply wp_dep_list; [done|]. intros l s' A Hl. apply HQ'; [done|]. exists l.
    split; [done|]. rewrite Hl, filter_all; [done|]. intros d _. by left. }
  { unfold dep_list, bind, draw_order, gets. done. }
  intros r t1 S1 (l & -> & Hl). apply wp_bind.
  rewrite (active_deployments_spec l (v_deps (view (rc_sys t)))) by (apply (ok_dep_keys _ H) || done).
  apply (wp_lift_still _ (λ r, ∃ l, r = inr l ∧ l ≡ₚ (map_to_list (v_insts (view (rc_sys t1)))).*2)).
  { intros Q' HQ'. apply wp_inst_list_all; [by eapply still_keeps_ok|]. intros l' s' A Hl'. apply HQ'; [done|]. eauto. }
  { done. }
  intros r t2 S2 (l' & -> & Hl'). apply wp_ret, HQ; [by eapply still_trans|].
  rewrite (still_view _ _ S1) in Hl'. unfold wanted_in. by rewrite Hl'.
Qed.

Lemma wp_read {A} (f : F → A * F) (a : A) (Q : A → RecSys DR IR WR F X → Prop) t :
  f (s_fleet (rc_sys t)) = (a, s_fleet (rc_sys t)) → Q a t → wp (lift (on_fleet f)) Q t.
Proof.
  intros E HQ. unfold wp, lift, on_fleet. rewrite E. cbn.
  replace (t <| rc_sys := (rc_sys t) <| s_fleet := s_fleet (rc_sys t) |> |>) with t; [done|].
  by destruct t as [[] ? ?].
Qed.

Lemma wp_collect_workers ws : ∀ observed clients (Q : Observation → RecSys DR IR WR F X → Prop) t,
  (∀ w, w ∈ ws → unreachable w = false → wc_GetClient w (s_fleet (rc_sys t)) = (None, s_fleet (rc_sys t))
     ∧ ∃ l, wc_ListContainers w (s_fleet (rc_sys t)) = (inr l, s_fleet (rc_sys t))) →
  (∀ clients', Q (observed ++ (ws ≫= listed (s_fleet (rc_sys t))), clients') t) →
  wp (for_each ws (observed, clients) collect_worker) Q t.
Proof.
  induction ws as [|w ws IH]; intros observed clients Q t Hws HQ; cbn.
  { apply wp_ret. specialize (HQ clients). by rewrite app_nil_r in HQ. }
  assert (∀ obs cl, obs = observed ++ listed (s_fleet (rc_sys t)) w →
    wp (for_each ws (obs, cl) collect_worker) Q t) as Hrest.
  { intros obs cl ->. apply IH; [intros w' Hw'; apply Hws; by right|].
    intros cl'. rewrite <- app_assoc. apply HQ. }
  apply wp_bind. unfold collect_worker at 1. unfold listed in Hrest.
  destruct (unreachable w) eqn:Eu; [apply wp_ret, Hrest; by rewrite app_nil_r|].
  destruct (Hws w) as [Hg [l Hl]]; [by left|done|].
  apply wp_bind. unfold get_client. eapply wp_read; [exact Hg|].
  apply wp_bind. unfold list_containers. eapply wp_read; [exact Hl|].
  apply wp_ret, Hrest. by rewrite Hl.
Qed.

Lemma wp_collect_observed (Q : Observation → RecSys DR IR WR F X → Prop) t :
  sys_ok (rc_sys t) → answers (s_registry (rc_sys t)) (s_fleet (rc_sys t)) →
  (∀ l clients t', still t t' → l ≡ₚ observed_in (s_registry (rc_sys t)) (s_fleet (rc_sys t)) →
     Q (l, clients) t') →
  wp collect_observed Q t.
Proof.
  intros H Ha HQ. unfold collect_observed. apply wp_bind, wp_lift_order; [done|]. intros o t1 S1.
  apply wp_bind, wp_gets.
  assert (s_registry (rc_sys t1) = s_registry (rc_sys t)) as ->
    by exact (f_equal v_registry (still_view _ _ S1)).
  apply wp_collect_workers; rewrite (still_fleet _ _ S1).
  - intros w [k Hk]%elem_of_List. by apply (Ha k).
  - intros clients. apply HQ; [done|]. cbn. unfold observed_in, List, map_values.
    by rewrite permute_perm.
Qed.

(** ** A pass over a converged platform *)

Lemma wp_prune_none clients active matching ks st (Q : Counts → RecSys DR IR WR F X → Prop) t :
  (∀ d, lookup_int st.1 d ≤ desired_count active d) → Q st t →
  wp (for_each ks st (prune_deployment clients active matching)) Q t.
Proof.
  intros Hst HQ. induction ks as [|d ks IH]; cbn; [done|].
  apply wp_bind. unfold prune_deployment at 1. destruct (active !! d); [|by apply wp_ret].
  cbv zeta. destruct (Z.ltb_spec (desired_count active d) (lookup_int st.1 d)); [|by apply wp_ret].
  specialize (Hst d). lia.
Qed.

Lemma wp_migrate_none w l : ∀ n (Q : Z → Sys DR IR WR F X → Prop) s,
  (∀ i, i ∈ l → i_Status i ≠ "RUNNING") → Q n s → wp (for_each l n (migrate_instance w)) Q s.
Proof.
  induction l as [|i l IH]; intros n Q s Hl HQ; cbn; [done|]. apply wp_bind. unfold migrate_instance at 1.
  rewrite decide_True by (apply Hl; left). apply wp_ret, IH; [|done]. intros j Hj. apply Hl. by right.
Qed.

Lemma wp_drain_none ws : ∀ n (Q : Z → Sys DR IR WR F X → Prop) s,
  sys_ok s →
  (∀ w k i, w ∈ ws → w_State w = StateDraining → v_insts (view s) !! k = Some i →
     i_WorkerID i = w_ID w → i_Status i ≠ "RUNNING") →
  (∀ s', after s s' (view s) → s_fleet s' = s_fleet s → Q n s') →
  wp (for_each ws n drain_worker) Q s.
Proof.
  induction ws as [|w ws IH]; intros n Q s H Hws HQ; cbn; [by apply wp_ret, HQ; [apply after_refl|]|].
  apply wp_bind. unfold drain_worker at 1. destruct (decide _) as [Hd|Hd%dec_stable].
  { apply wp_ret, IH; [done| |done]. intros w' k i Hw'. apply Hws. by right. }
  apply wp_bind. eapply wp_wand.
  { apply wp_and; [apply (wp_inst_list_worker _ (λ r s', after s s' (view s) ∧ ∃ l, r = inr l
        ∧ l ≡ₚ base.filter (λ i, i_WorkerID i = w_ID w) (map_to_list (v_insts (view s))).*2)); [done|by eauto]|].
    apply (steps_wp (λ s s', s_fleet s' = s_fleet s)). done. }
  intros r s1 ((A & l & -> & Hl) & F1). apply wp_migrate_none.
  { intros i. rewrite Hl, list_elem_of_filter, list_elem_of_fmap.
    intros (Hwi & [k i'] & -> & Hk%elem_of_map_to_list). by eapply (Hws w k); [left|..]. }
  apply IH; [apply (af_ok _ _ _ A)| |].
  - intros w' k i Hw'. rewrite (af_view _ _ _ A). apply Hws. by right.
  - intros s' A' F2. rewrite (af_view _ _ _ A) in A'. apply HQ; [by eapply after_trans|congruence].
Qed.

Lemma wp_draining_none (Q : _ → RecSys DR IR WR F X → Prop) t :
  sys_ok (rc_sys t) → converged (rc_sys t) → (∀ t', still t t' → Q (0, None) t') →
  wp (lift ReconcileDraining) Q t.
Proof.
  intros H C HQ. apply wp_lift. unfold ReconcileDraining. apply wp_bind. unfold wp at 1, draw_order. cbn [fst snd].
  set (s1 := (rc_sys t) <| s_tick ::= S |>). assert (after (rc_sys t) s1 (view (rc_sys t))) as A1 by by apply after_draw.
  apply wp_bind, wp_gets, wp_bind, wp_drain_none; [apply (af_ok _ _ _ A1)| |].
  - intros w k i [k' Hk']%elem_of_List. rewrite (af_view _ _ _ A1). by eapply cv_drained.
  - intros s' A F1. apply wp_ret, HQ. exists s'. split_and!; [done| |done].
    rewrite (af_view _ _ _ A1) in A. by eapply after_trans.
Qed.

Lemma wp_converged_pass t :
  sys_ok (rc_sys t) → converged (rc_sys t) →
  wp ReconcileOnce (λ r t', r = inr no_actions ∧ still t t') t.
Proof.
  intros H C. unfold ReconcileOnce. apply wp_bind, wp_fetch_desired; [done|]. intros desired t1 S1 Hdes.
  pose proof (f_equal v_registry (still_view _ _ S1) : s_registry (rc_sys t1) = s_registry (rc_sys t)) as Eg.
  apply wp_bind, wp_collect_observed; [by eapply still_keeps_ok|rewrite Eg, (still_fleet _ _ S1); apply C|].
  intros observed clients t2 S2 Hobs. rewrite Eg, (still_fleet _ _ S1) in Hobs.
  pose proof (still_trans _ _ _ S1 S2) as S02.
  pose proof (agree_perm _ _ _ _ (symmetry Hdes) (symmetry Hobs) (cv_agree _ C)) as Hag.
  destruct (diff_agree _ _ Hag) as [Em Ee]. cbv zeta. unfold reconcile_replicas. rewrite Ee, Em. cbn [enforce_orphans for_each].
  apply wp_bind, wp_ret, wp_bind, wp_bind, wp_ret.
  apply wp_bind, wp_lift_order; [by eapply still_keeps_ok|]. intros o t3 S3. pose proof (still_trans _ _ _ S02 S3) as S03.
  apply wp_prune_none.
  { intros d. cbn [fst]. rewrite count_matching_spec, agree_counts, (num_perm d _ _ Hdes) by done. apply C. }
  pose proof (still_converged _ _ S03 C) as C3.
  apply wp_bind, wp_draining_none; [by eapply still_keeps_ok|done|]. intros t4 S4. apply wp_ret.
  split; [done|]. by eapply still_trans.
Qed.

(** ** What a pass does *)

(** The orphan containers [l] were each stopped, flagged or failed, and those
    without metadata flagged. *)
Definition orphans_enforced (l : list ObservedContainer) (a a' : ReconcileActions) : Prop :=
  ∃ errs, a' = a <| ra_StoppedCount := ra_StoppedCount a' |> <| ra_FlaggedCount := ra_FlaggedCount a' |>
                 <| ra_Errors := ra_Errors a ++ errs |>
  ∧ ra_FlaggedCount a' = ra_FlaggedCount a
      + Z.of_nat (length (base.filter (λ c, ClassifyOrphan c = OrphanTypeUnknown) l))
  ∧ ra_StoppedCount a' + ra_FlaggedCount a' + Z.of_nat (length errs)
    = ra_StoppedCount a + ra_FlaggedCount a + Z.of_nat (length l).

Lemma enforce_cases c client (Q : OrphanDecision → Sys DR IR WR F X → Prop) s :
  (∀ d s', match ClassifyOrphan c with
     | OrphanTypeUnknown => od_ActionTaken d = "FLAGGED_ONLY"
     | OrphanTypeManaged => od_ActionTaken d = "STOPPED" ∨ od_ActionTaken d = "ERROR"
     end → Q d s') →
  wp (EnforceOrphanPolicy c client) Q s.
Proof.
  intros HQ. unfold EnforceOrphanPolicy. destruct (ClassifyOrphan c); [|by apply wp_ret, HQ].
  destruct client as [w|]; [|apply wp_ret, HQ; by left].
  apply wp_bind. unfold stop_container. apply wp_fleet. intros r fl _.
  destruct (stop_failure r); apply wp_ret, HQ; [by right|by left].
Qed.

Lemma wp_enforce_orphans clients l : ∀ a (Q : ReconcileActions → RecSys DR IR WR F X → Prop) t,
  (∀ a' t', orphans_enforced l a a' → Q a' t') → wp (enforce_orphans clients l a) Q t.
Proof.
  induction l as [|c l IH]; intros a Q t HQ; cbn.
  { apply wp_ret, HQ. exists []. rewrite app_nil_r. cbn. split_and!; [by destruct a|lia|lia]. }
  apply wp_bind, wp_bind, wp_lift, enforce_cases. intros d s' Hd. apply wp_ret, IH.
  intros a' t' (errs & E1 & E2 & E3). apply HQ. unfold orphans_enforced. rewrite filter_cons. cbn [length].
  destruct (ClassifyOrphan c).
  - rewrite decide_False by done. destruct Hd as [Hd|Hd]; unfold count_decision in *; rewrite Hd in *; cbn in *.
    + exists errs. split_and!; [done|lia|lia].
    + exists (od_Error d :: errs). cbn [length]. rewrite cons_middle, app_assoc. split_and!; [done|lia|lia].
  - rewrite decide_True by done. unfold count_decision in *; rewrite Hd in *; cbn in *.
    exists errs. cbn [length]. split_and!; [done|lia|lia].
Qed.

(** The containers were reported by registered workers that are not set aside. *)
Definition reported (r : Registry WR) (o : ObservedContainer) : Prop :=
  ∃ k w c, get_pri k (rg_store r) = Some w ∧ unreachable w = false ∧ o = observe w c.

Lemma wp_collect_reported ws : ∀ (obs : Observation) (P : ObservedContainer → Prop)
    (Q : Observation → RecSys DR IR WR F X → Prop) t,
  (∀ w c, w ∈ ws → unreachable w = false → P (observe w c)) → Forall P obs.1 →
  (∀ obs' t', Forall P obs'.1 → Q obs' t') →
  wp (for_each ws obs collect_worker) Q t.
Proof.
  induction ws as [|w ws IH]; intros [observed clients] P Q t Hws Hobs HQ; cbn; [by apply wp_ret, HQ|].
  assert (∀ w' c, w' ∈ ws → unreachable w' = false → P (observe w' c)) as Hws' by (intros; apply Hws; [by right|done]).
  apply wp_bind. unfold collect_worker at 1.
  destruct (unreachable w) eqn:Eu; [by apply wp_ret, (IH _ P)|].
  apply wp_bind, wp_lift. unfold get_client. apply wp_fleet. intros gerr fl _.
  destruct gerr; [by apply wp_ret, (IH _ P)|].
  apply wp_bind, wp_lift. unfold list_containers. apply wp_fleet. intros r fl' _.
  destruct r as [e|l]; apply wp_ret, (IH _ P); try done. cbn in *. apply Forall_app. split; [done|].
  apply Forall_fmap, Forall_forall. intros c _. apply Hws; [by left|done].
Qed.

Lemma wp_collect_any (Q : Observation → RecSys DR IR WR F X → Prop) t :
  (∀ obs t', Forall (reported (s_registry (rc_sys t))) obs.1 → Q obs t') → wp collect_observed Q t.
Proof.
  intros HQ. unfold collect_observed. apply wp_bind, wp_lift. unfold wp at 1, draw_order. cbn [fst snd].
  apply wp_bind, wp_gets, (wp_collect_reported _ _ (reported (s_registry (rc_sys t)))); [|done|done].
  intros w c [k Hk]%elem_of_List Hu. by exists k, w, c.
Qed.

(** What a pass does: the instances the repositories want are compared with
    the reported containers, the extra ones are dealt with, the replica counts
    corrected and the draining workers emptied. *)
Definition pass_post t (r : error + ReconcileActions) t' : Prop :=
  let active := active_in (v_deps (view (rc_sys t))) in
  rec_reconciles t t' ∧
  ∃ desired observed clients actions st t1 t2 moved,
    desired ≡ₚ wanted_in (view (rc_sys t))
    ∧ Forall (reported (s_registry (rc_sys t))) observed
    ∧ orphans_enforced (df_Extra (ComputeDiff desired observed)) no_actions actions
    ∧ rec_reconciles t t1
    ∧ replicas_post clients active (ComputeDiff desired observed) actions t1 st t2
    ∧ drained (rc_sys t2) (rc_sys t') moved
    ∧ (∀ k w, get_pri k (rg_store (s_registry (rc_sys t2))) = Some w → worker_drained (rc_sys t2) moved w)
    ∧ r = inr (st.2 <| ra_MigratedCount := ra_MigratedCount st.2 + Z.of_nat (size moved) |>).

Lemma wp_steps {A} (m : ST (RecSys DR IR WR F X) A) (Q : A → RecSys DR IR WR F X → Prop) t :
  steps rec_reconciles m → wp m (λ a t', rec_reconciles t t' → Q a t') t → wp m Q t.
Proof. intros Hs H. apply H. apply Hs. Qed.

Lemma wp_ReconcileOnce t : ready (rc_sys t) → wp ReconcileOnce (pass_post t) t.
Proof.
  intros Hr. apply wp_steps; [apply steps_ReconcileOnce|].
  unfold ReconcileOnce. apply wp_bind, wp_fetch_desired; [apply Hr|]. intros desired t1 S1 Hdes.
  assert (rec_reconciles t t1) as R1.
  { destruct S1 as (y & -> & A & _). split; [|done..]. intros _. by eapply reconciled_after. }
  pose proof (f_equal v_registry (still_view _ _ S1) : s_registry (rc_sys t1) = s_registry (rc_sys t)) as Eg.
  apply wp_bind, wp_steps; [apply steps_collect|]. apply wp_collect_any. intros [observed clients] t2 Hobs R2.
  rewrite Eg in Hobs. cbv zeta. set (diff := ComputeDiff desired observed).
  apply wp_bind, wp_steps; [apply steps_enforce|]. apply wp_enforce_orphans. intros actions t3 Hact R3.
  assert (rec_reconciles t t3) as R03 by (etransitivity; [exact R1|by etransitivity]).
  pose proof (rec_ready _ _ R03 Hr) as Hr3.
  apply wp_bind, wp_steps; [apply steps_replicas|].
  eapply wp_wand; [by apply wp_reconcile_replicas|]. intros [counts actions'] t4 Hrep R4.
  pose proof (rec_ready _ _ R4 Hr3) as [H4 Hid4].
  apply wp_bind, wp_lift. eapply wp_wand; [by apply wp_ReconcileDraining|].
  intros [n err] y (Ee & moved & En & D & Hdr). cbn in Ee, En. subst n err. apply wp_ret. intros Rall.
  split; [done|]. exists desired, observed, clients, actions, (counts, actions'), t3, t4, moved. done.
Qed.

(** The fleet is not part of it. *)
Lemma ready_fleet s fl : ready s → ready (s <| s_fleet := fl |>).
Proof.
  intros [H Hid]. split; [|done]. apply (af_ok s _ (view s)). by apply after_same.
Qed.


(** C30: When the workers that are asked answer, run exactly the containers of
    the instances that the repositories want, in numbers that are not above the
    desired ones, and no draining worker has work left, ReconcileOnce reports no
    actions and leaves the repositories, the registry, the router, the endpoints
    and the fleet as they are. *)
Theorem converged_is_fixed t :
  sys_ok (rc_sys t) → converged (rc_sys t) →
  wp ReconcileOnce (λ r t', r = inr no_actions ∧ actions_IsZero no_actions = true
    ∧ view (rc_sys t') = view (rc_sys t) ∧ s_fleet (rc_sys t') = s_fleet (rc_sys t)
    ∧ rc_services t' = rc_services t) t.
Proof.
  intros H C. eapply wp_wand; [by apply wp_converged_pass|]. intros r t' (-> & S).
  split_and!; [done|done|by apply still_view|by apply still_fleet|]. by destruct S as (y & -> & _).
Qed.

(** ** The loop *)

(** A platform that has converged is left as it is by the loop, started on it,
    after whatever number of ticks. *)
Theorem reconcile_loop_rests t cs :
  sys_ok (rc_sys t) → converged (rc_sys t) →
  let l := loop_run reconcile_tick cs (Reconciler_Start t) in
  view (rc_sys (lp_state l)) = view (rc_sys t) ∧ s_fleet (rc_sys (lp_state l)) = s_fleet (rc_sys t)
  ∧ rc_services (lp_state l) = rc_services t.
Proof.
  intros H C l.
  assert (∀ t1, still t t1 → still t (ReconcileOnce t1).2) as Hpass.
  { intros t1 S. destruct (wp_converged_pass t1 (still_keeps_ok _ _ S) (still_converged _ _ S C)) as [_ S1].
    by eapply still_trans. }
  assert (still t (lp_state l)) as S; [|split_and!; [by apply still_view|by apply still_fleet|by destruct S as (y & -> & _)]].
  apply (loop_run_keeps reconcile_tick (still t)); [intros [] t1; apply Hpass|]. apply Hpass. by apply still_refl.
Qed.

(** Whatever else keeps the platform well-formed goes on between the ticks, each
    pass of the loop is one of a well-formed platform, with the outcome of
    ReconcileOnce. *)
Theorem reconcile_loop_passes (others : RecSys DR IR WR F X → RecSys DR IR WR F X → Prop) t l :
  ready (rc_sys t) → (∀ t1 t2, ready (rc_sys t1) → others t1 t2 → ready (rc_sys t2)) →
  rtc (loop_step reconcile_tick others) (Reconciler_Start t) l →
  ready (rc_sys (lp_state l)) ∧ wp ReconcileOnce (pass_post (lp_state l)) (lp_state l).
Proof.
  intros H Ho Hrun.
  assert (∀ t1, ready (rc_sys t1) → ready (rc_sys (ReconcileOnce t1).2)) as Hpass.
  { intros t1 H1. by apply (rec_ready t1 _ (steps_ReconcileOnce t1)). }
  assert (ready (rc_sys (lp_state l))) as Hl; [|split; [done|by apply wp_ReconcileOnce]].
  apply (loop_keeps reconcile_tick others (λ t, ready (rc_sys t)) _ _ (λ _, Hpass) Ho Hrun). by apply Hpass.
Qed.

End convergence.

(** ** The concrete platform *)

#[local] Existing Instance demo_entropy.
#[local] Existing Instance demo_entropy_laws.
#[local] Existing Instance demo_url.
#[local] Existing Instance demo_externals.
#[local] Existing Instance unicode_none.

(** A reconciler with a service registry and a router on the platform [s]. *)
Definition demo_reconciler (s : DemoSys) : RecSys _ _ _ _ _ :=
  mkRec s (Some (NewServiceRegistry (Some NewRouter))) true.

(** The demo deployment, after the fleet lost its containers. *)
Definition demo_lost : DemoSys := demo_created <| s_fleet := NewMockWorkerClientFactory |>.

Lemma demo_created_ids k w : get_pri k (rg_store (s_registry demo_created)) = Some w → w_ID w ≠ "".
Proof.
  rewrite <- lookup_pri_view. revert k w.
  apply (bool_decide_unpack (map_Forall (λ _ w, w_ID w ≠ "") (pri_view (rg_store (s_registry demo_created))))).
  vm_compute. exact I.
Qed.

Lemma demo_created_ready : ready demo_created.
Proof. exact (Build_ready demo_created demo_created_ok demo_created_ids). Qed.

Lemma demo_lost_ready : ready demo_lost.
Proof. exact (ready_fleet demo_created NewMockWorkerClientFactory demo_created_ready). Qed.

(** The pass runs both replicas again, and then rests. *)
Example demo_pass_runs :
  let '(r1, t1) := ReconcileOnce (demo_reconciler demo_lost) in
  let '(r2, t2) := ReconcileOnce t1 in
  r1 = inr (mkActions 2 0 0 0 []) ∧ r2 = inr no_actions.
Proof. vm_compute. split; reflexivity. Qed.


Definition demo_wanted : list DesiredInstance := Eval vm_compute in wanted_in (view demo_created).
Definition demo_seen : list ObservedContainer :=
  Eval vm_compute in observed_in (s_registry demo_created) (s_fleet demo_created).

Lemma reconcile_replica_counts_witness :
  wp (reconcile_replicas ∅ (active_in (v_deps (view demo_lost))) (mkDiff [] demo_wanted []) no_actions)
    (replicas_post ∅ (active_in (v_deps (view demo_lost))) (mkDiff [] demo_wanted []) no_actions
       (demo_reconciler demo_lost))
    (demo_reconciler demo_lost).
Proof.
  exact (reconcile_replica_counts ∅ _ (mkDiff [] demo_wanted []) no_actions (demo_reconciler demo_lost)
    demo_lost_ready).
Defined.

Lemma demo_agree : agree demo_wanted demo_seen.
Proof. apply check_agree_sound. vm_compute. reflexivity. Qed.

Lemma demo_converged : converged demo_created.
Proof.
  split.
  - intros k w _ _. split; [done|]. unfold wc_ListContainers. cbn. unfold mock_ListContainers.
    assert (mk_FailList (s_fleet demo_created) = None) as -> by (vm_compute; reflexivity). by eexists.
  - assert (wanted_in (view demo_created) = demo_wanted) as -> by (vm_compute; reflexivity).
    assert (observed_in (s_registry demo_created) (s_fleet demo_created) = demo_seen) as -> by (vm_compute; reflexivity).
    apply demo_agree.
  - intros d. assert (wanted_in (view demo_created) = demo_wanted) as -> by (vm_compute; reflexivity).
    destruct (decide (d = demo_id)) as [->|Hd]; [vm_compute; done|].
    pose proof (desired_count_pos (active_in (v_deps (view demo_created))) d).
    assert (num d demo_wanted = 0) as ->; [|lia]. unfold demo_wanted. rewrite !num_cons, num_nil.
    by rewrite !decide_False by (intros <-; done).
  - intros k w k' i Hk Hd. exfalso. revert Hd. rewrite <- lookup_pri_view in Hk. revert k w Hk.
    apply (bool_decide_unpack (map_Forall (λ _ w, w_State w ≠ StateDraining) (pri_view (rg_store (s_registry demo_created))))).
    vm_compute. exact I.
Qed.

Lemma converged_is_fixed_witness :
  wp ReconcileOnce (λ r t', r = inr no_actions ∧ actions_IsZero no_actions = true
    ∧ view (rc_sys t') = view (rc_sys (demo_reconciler demo_created))
    ∧ s_fleet (rc_sys t') = s_fleet (rc_sys (demo_reconciler demo_created))
    ∧ rc_services t' = rc_services (demo_reconciler demo_created)) (demo_reconciler demo_created).
Proof. exact (converged_is_fixed (demo_reconciler demo_created) demo_created_ok demo_converged). Defined.

(** The loop runs the lost containers again with its first pass, and nothing
    more happens until it is stopped. *)
Example demo_loop :
  let l := Reconciler_Start (demo_reconciler demo_lost) in
  let l1 := loop_run reconcile_tick [LoopTick (); LoopDone; LoopTick ()] l in
  let l2 := loop_run reconcile_tick [LoopStopped; LoopTick ()] (Reconciler_Stop l1) in
  let dispatched l := length (mk_Dispatched (s_fleet (rc_sys (lp_state l)))) in
  dispatched l = 2%nat ∧ dispatched l1 = 2%nat ∧ lp_running l1 = true ∧ lp_running l2 = false.
Proof. vm_compute. by split_and!. Qed.

(** ** Copies of an instance on two workers

    A worker that was cut off comes back with its containers, after they were
    repaired elsewhere. *)

Definition demo_second : Worker := apply_params (demo_params "worker-2") 20 (new_worker "w-uuid-2" "worker-2" 20).

Definition demo_split : DemoSys :=
  demo_created <| s_registry := demo_two_workers |>
    <| s_fleet ::= λ fl, fold_left (λ fl req, (mock_RunContainer demo_second req fl).2) (mk_Dispatched fl) fl |>.

(** The records of the instances and the containers of each worker. *)
Definition placement (s : DemoSys) : list string * list (string * nat) :=
  (i_WorkerID <$> (map_to_list (ir_view (s_insts s))).*2,
   (λ w, (w_WorkerKey w, length (listed (s_fleet s) w))) <$> List order_id (s_registry s)).

(** Which copies a pass stops depends on the order in which it asks the
    workers: it may stop those that the records, and the routes, lead to, and
    the next pass finds nothing to do. *)
Example recorded_copies_stopped :
  let entropy := {| uuid_at := @uuid_at demo_entropy; now_at := @now_at demo_entropy;
                    order_at := λ _, order_rev |} in
  let '(r1, t1) := ReconcileOnce (ent := entropy) (demo_reconciler demo_split) in
  let '(r2, t2) := ReconcileOnce (ent := entropy) t1 in
  placement demo_split = (["w-uuid"; "w-uuid"], [("worker-1", 2%nat); ("worker-2", 2%nat)])
  ∧ r1 = inr (mkActions 0 2 0 0 [])
  ∧ placement (rc_sys t1) = (["w-uuid"; "w-uuid"], [("worker-1", 0%nat); ("worker-2", 2%nat)])
  ∧ r2 = inr no_actions.
Proof. vm_compute. split_and!; reflexivity. Qed.
