(* ===== verification/Runtime.v ===== *)
(** * The worker's runtime: internal/runtime

    The worker keeps a record of every instance (idempotency.go) and drives the
    container engine (container_ops.go). The engine is behind the interface
    DockerClient, of which docker_client.go has an in-memory implementation. *)

From stdpp Require Import base option gmap strings list pretty.
From Stdlib Require Import ZArith Lia Ascii.
From S2P Require Import Prelude GoLib GoFloat PtrStore Workers Scheduler LoadBalancer HA Deployments Fleet Platform.

(** ** idempotency.go: the records *)

Inductive InstanceState :=
| StatePending | StateStarting | StateRunning | StateStopping | StateStopped | StateFailed.

#[export] Instance InstanceState_eq_dec : EqDecision InstanceState.
Proof. solve_decision. Defined.

Definition state_string (s : InstanceState) : string :=
  match s with
  | StatePending => "PENDING" | StateStarting => "STARTING" | StateRunning => "RUNNING"
  | StateStopping => "STOPPING" | StateStopped => "STOPPED" | StateFailed => "FAILED"
  end.

Record InstanceRecord := mkRecord {
  nr_InstanceID : string;
  nr_DeploymentID : string;
  nr_ContainerID : string;
  nr_Image : string;
  nr_State : InstanceState;
  nr_ExitCode : Z;
  nr_LastError : string;
  nr_Labels : gmap string string;
  nr_CreatedAt : Time;
  nr_UpdatedAt : Time
}.

#[export] Instance InstanceRecord_eta : Settable InstanceRecord := λ r,
  mkRecord (nr_InstanceID r) (nr_DeploymentID r) (nr_ContainerID r) (nr_Image r) (nr_State r)
    (nr_ExitCode r) (nr_LastError r) (nr_Labels r) (nr_CreatedAt r) (nr_UpdatedAt r).

(** The tracker copies records in and out, so its map holds values. *)
Abbreviation InstanceTracker := (gmap string InstanceRecord) (only parsing).

Definition NewInstanceTracker : InstanceTracker := ∅.

Definition tracker_Get (instanceID : string) (t : InstanceTracker) : option InstanceRecord :=
  t !! instanceID.

(** [Set] stamps the record of the caller as well. *)
Definition tracker_Set (now : Time) (rec : InstanceRecord) (t : InstanceTracker) :
    InstanceRecord * InstanceTracker :=
  let rec := if IsZero (nr_CreatedAt rec) then rec <| nr_CreatedAt := now |> else rec in
  let rec := rec <| nr_UpdatedAt := now |> in
  (rec, <[nr_InstanceID rec := rec]> t).

Definition tracker_Delete (instanceID : string) (t : InstanceTracker) : InstanceTracker :=
  delete instanceID t.

Definition tracker_List (o : Order) (t : InstanceTracker) : list InstanceRecord := map_values o t.

(** ** docker_client.go: the engine's interface *)

Record CreateContainerOptions := mkCreateOptions {
  co_InstanceID : string;
  co_DeploymentID : string;
  co_Image : string;
  co_Cmd : list string;
  co_Env : list string;
  co_Ports : list PortMapping;
  co_Labels : gmap string string;
  co_CPULimit : float64;
  co_MemoryLimitMB : Z
}.

Record ContainerDetails := mkDetails {
  cd_ID : string;
  cd_Image : string;
  cd_State : string;
  cd_Status : string;
  cd_ExitCode : Z;
  cd_Error : string;
  cd_Labels : gmap string string;
  cd_CreatedAt : Time;
  cd_NanoCPUs : Z;
  cd_Memory : Z
}.

Record ContainerSummary := mkSummary {
  cs_ID : string;
  cs_InstanceID : string;
  cs_Image : string;
  cs_State : string;
  cs_Status : string;
  cs_Labels : gmap string string;
  cs_CreatedAt : Time
}.

Class DockerClient (D : Type) := {
  dc_CreateContainer : Time → CreateContainerOptions → D → (error + string) * D;
  dc_StartContainer : string → D → option error * D;
  dc_StopContainer : string → option Duration → D → option error * D;
  dc_InspectContainer : string → D → (error + ContainerDetails) * D;
  dc_ListContainers : Order → D → (error + list ContainerSummary) * D;
  dc_RemoveContainer : string → bool → D → option error * D
}.

(** ** docker_client.go: the in-memory engine *)

Record MockContainer := mkMockContainer {
  mc_ID : string;
  mc_InstanceID : string;
  mc_DeploymentID : string;
  mc_Image : string;
  mc_Env : list string;
  mc_Labels : gmap string string;
  mc_Ports : list PortMapping;
  mc_State : string;
  mc_Status : string;
  mc_ExitCode : Z;
  mc_Error : string;
  mc_CreatedAt : Time;
  mc_CPULimit : float64;
  mc_MemoryLimitMB : Z;
  mc_NanoCPUs : Z;
  mc_Memory : Z
}.

#[export] Instance MockContainer_eta : Settable MockContainer := λ c,
  mkMockContainer (mc_ID c) (mc_InstanceID c) (mc_DeploymentID c) (mc_Image c) (mc_Env c)
    (mc_Labels c) (mc_Ports c) (mc_State c) (mc_Status c) (mc_ExitCode c) (mc_Error c) (mc_CreatedAt c)
    (mc_CPULimit c) (mc_MemoryLimitMB c) (mc_NanoCPUs c) (mc_Memory c).

(** The registry of the cache misses is the function of its GetDigest. *)
Record MockDockerClient := mkMockDocker {
  md_containers : gmap string MockContainer;
  md_counter : Z;
  md_FailCreate : option error;
  md_FailStart : option error;
  md_FailStop : option error;
  md_FailInspect : option error;
  md_ImageCache : option (gmap string bool);
  md_Registry : option (string → error + string);
  md_FailPull : option error;
  md_PullCalls : Z;
  md_CreateCalls : Z;
  md_StartCalls : Z;
  md_StopCalls : Z;
  md_InspectCalls : Z
}.

#[export] Instance MockDocker_eta : Settable MockDockerClient := λ m,
  mkMockDocker (md_containers m) (md_counter m) (md_FailCreate m) (md_FailStart m) (md_FailStop m)
    (md_FailInspect m) (md_ImageCache m) (md_Registry m) (md_FailPull m) (md_PullCalls m)
    (md_CreateCalls m) (md_StartCalls m) (md_StopCalls m) (md_InspectCalls m).

Definition NewMockDockerClient : MockDockerClient :=
  mkMockDocker ∅ 0 None None None None None None None 0 0 0 0 0.

Definition cached (cache : gmap string bool) (k : string) : bool := default false (cache !! k).

(** The pull on a cache miss: an error, or the client to go on with. *)
Definition ensure_image (opts : CreateContainerOptions) (m : MockDockerClient) :
    (error + unit) * MockDockerClient :=
  match md_ImageCache m with
  | None => (inr tt, m)
  | Some cache =>
    let expected := lookup_str (co_Labels opts) "nebula.image_digest" in
    if cached cache (co_Image opts) || (bool_decide (expected ≠ "") && cached cache expected)
    then (inr tt, m)
    else
      let m := m <| md_PullCalls ::= Z.succ |> in
      match md_FailPull m, md_Registry m with
      | Some e, _ => (inl ("failed to pull image " +:+ co_Image opts +:+ ": " +:+ e), m)
      | None, None =>
        (inl ("image " +:+ co_Image opts +:+ " not found in local cache and no registry configured to pull"), m)
      | None, Some GetDigest =>
        match GetDigest (co_Image opts) with
        | inl e => (inl ("failed to pull image " +:+ co_Image opts +:+ " from registry: " +:+ e), m)
        | inr digest =>
          if bool_decide (expected ≠ "") && bool_decide (digest ≠ expected)
          then (inl ("pull digest mismatch: expected " +:+ expected +:+ ", got " +:+ digest), m)
          else (inr tt, m <| md_ImageCache := Some (<[co_Image opts := true]> cache) |>)
        end
      end
  end.

Definition mock_labels (opts : CreateContainerOptions) : gmap string string :=
  let labels := <["nebula.instance_id" := co_InstanceID opts]> (co_Labels opts) in
  if decide (co_DeploymentID opts = "") then labels
  else <["nebula.deployment_id" := co_DeploymentID opts]> labels.

Definition mock_id (n : Z) (instanceID : string) : string :=
  "mock-ctr-" +:+ Itoa n +:+ "-" +:+ instanceID.

Arguments mock_id : simpl never.

(** [int64(opts.CPULimit * 1e9)] and [opts.MemoryLimitMB * 1024 * 1024], where
    the limits are positive. *)
Definition nano_cpus `{!FloatConv} (cpuLimit : float64) : Z :=
  if fgt cpuLimit fzero then int_of_float (fmul cpuLimit (float_of_int 1000000000)) else 0.

Definition memory_bytes (memoryLimitMB : Z) : Z :=
  if 0 <? memoryLimitMB then int64 (memoryLimitMB * 1024 * 1024) else 0.

Definition mock_CreateContainer `{!FloatConv} (now : Time) (opts : CreateContainerOptions) (m : MockDockerClient) :
    (error + string) * MockDockerClient :=
  let '(r, m) := ensure_image opts m in
  match r with
  | inl e => (inl e, m)
  | inr _ =>
    let m := m <| md_CreateCalls ::= Z.succ |> in
    match md_FailCreate m with
    | Some e => (inl e, m)
    | None =>
      let m := m <| md_counter ::= Z.succ |> in
      let id := mock_id (md_counter m) (co_InstanceID opts) in
      (inr id, m <| md_containers ::= <[id :=
        mkMockContainer id (co_InstanceID opts) (co_DeploymentID opts) (co_Image opts) (co_Env opts)
          (mock_labels opts) (co_Ports opts) "created" "Created" 0 "" now
          (co_CPULimit opts) (co_MemoryLimitMB opts) (nano_cpus (co_CPULimit opts))
          (memory_bytes (co_MemoryLimitMB opts))]> |>)
    end
  end.

(** [c.State = ...] on a container that is there. *)
Definition mock_update (containerID : string) (f : MockContainer → MockContainer) (m : MockDockerClient) :
    option error * MockDockerClient :=
  match md_containers m !! containerID with
  | None => (Some ("container not found: " +:+ containerID), m)
  | Some c => (None, m <| md_containers ::= <[containerID := f c]> |>)
  end.

Definition mark_running (c : MockContainer) : MockContainer :=
  c <| mc_State := "running" |> <| mc_Status := "Up Less than a second" |>.

Definition mark_stopped (c : MockContainer) : MockContainer :=
  c <| mc_State := "stopped" |> <| mc_Status := "Exited (0) Less than a second ago" |>
    <| mc_ExitCode := 0 |>.

Definition mock_StartContainer (containerID : string) (m : MockDockerClient) :
    option error * MockDockerClient :=
  let m := m <| md_StartCalls ::= Z.succ |> in
  match md_FailStart m with
  | Some e => (Some e, m)
  | None => mock_update containerID mark_running m
  end.

Definition mock_StopDocker (containerID : string) (timeout : option Duration) (m : MockDockerClient) :
    option error * MockDockerClient :=
  let m := m <| md_StopCalls ::= Z.succ |> in
  match md_FailStop m with
  | Some e => (Some e, m)
  | None => mock_update containerID mark_stopped m
  end.

Definition mock_InspectContainer (containerID : string) (m : MockDockerClient) :
    (error + ContainerDetails) * MockDockerClient :=
  let m := m <| md_InspectCalls ::= Z.succ |> in
  match md_FailInspect m with
  | Some e => (inl e, m)
  | None =>
    match md_containers m !! containerID with
    | None => (inl ("container not found: " +:+ containerID), m)
    | Some c => (inr (mkDetails (mc_ID c) (mc_Image c) (mc_State c) (mc_Status c) (mc_ExitCode c)
                        (mc_Error c) (mc_Labels c) (mc_CreatedAt c) (mc_NanoCPUs c) (mc_Memory c)), m)
    end
  end.

Definition summarize (c : MockContainer) : ContainerSummary :=
  mkSummary (mc_ID c) (mc_InstanceID c) (mc_Image c) (mc_State c) (mc_Status c) (mc_Labels c) (mc_CreatedAt c).

Definition mock_ListDocker (o : Order) (m : MockDockerClient) :
    (error + list ContainerSummary) * MockDockerClient :=
  (inr (summarize <$> map_values o (md_containers m)), m).

Definition mock_RemoveContainer (containerID : string) (force : bool) (m : MockDockerClient) :
    option error * MockDockerClient :=
  (None, m <| md_containers ::= delete containerID |>).

(** The container is copied. *)
Definition GetMockContainer (containerID : string) (m : MockDockerClient) : option MockContainer :=
  md_containers m !! containerID.

#[export] Instance mock_docker_client `{!FloatConv} : DockerClient MockDockerClient := {
  dc_CreateContainer := mock_CreateContainer;
  dc_StartContainer := mock_StartContainer;
  dc_StopContainer := mock_StopDocker;
  dc_InspectContainer := mock_InspectContainer;
  dc_ListContainers := mock_ListDocker;
  dc_RemoveContainer := mock_RemoveContainer
}.

(** ** container_ops.go *)

Record RunOptions := mkRunOptions {
  ro_InstanceID : string;
  ro_DeploymentID : string;
  ro_Image : string;
  ro_Cmd : list string;
  ro_Env : list string;
  ro_Ports : list PortMapping;
  ro_Labels : gmap string string;
  ro_CPULimit : float64;
  ro_MemoryLimitMB : Z
}.

Record RunResult := mkRunResult {
  rn_InstanceID : string;
  rn_ContainerID : string;
  rn_Status : string;
  rn_Error : string;
  rn_IsDuplicate : bool
}.

Record StopResult := mkStopResult {
  st_InstanceID : string;
  st_Success : bool;
  st_Error : string
}.

Record StatusResult := mkStatusResult {
  sr_InstanceID : string;
  sr_ContainerID : string;
  sr_Status : string;
  sr_ExitCode : Z;
  sr_Error : string
}.

(** ImageVerifier, [None] when none is set: image, digest and signature. *)
Abbreviation ImageVerifier := (option (string → string → string → option error)) (only parsing).

Record ContainerOps (D : Type) := mkOps {
  op_client : D;
  op_tracker : InstanceTracker;
  op_verifier : ImageVerifier;
  op_tick : nat
}.
Arguments mkOps {D} _ _ _ _.
Arguments op_client {D} _.
Arguments op_tracker {D} _.
Arguments op_verifier {D} _.
Arguments op_tick {D} _.

#[export] Instance ContainerOps_eta D : Settable (ContainerOps D) := λ o,
  mkOps (op_client o) (op_tracker o) (op_verifier o) (op_tick o).

Definition NewContainerOps {D} (client : D) (tracker : InstanceTracker) : ContainerOps D :=
  mkOps client tracker None 0.

Definition SetVerifier {D} (v : ImageVerifier) (o : ContainerOps D) : ContainerOps D :=
  o <| op_verifier := v |>.

Section container_ops.
Context {D : Type} `{!DockerClient D} {ent : Entropy} {uni : Unicode}.

Abbreviation M := (ST (ContainerOps D)).

Definition op_now : M Time := λ o, (now_at (op_tick o), o <| op_tick ::= S |>).
Definition op_order : M Order := λ o, (order_at (op_tick o), o <| op_tick ::= S |>).

Definition on_docker {A} (f : D → A * D) : M A :=
  λ o, let '(a, d) := f (op_client o) in (a, o <| op_client := d |>).

Definition get_record (instanceID : string) : M (option InstanceRecord) :=
  gets (λ o, tracker_Get instanceID (op_tracker o)).

(** [c.tracker.Set(rec)], which returns the record as it leaves it. *)
Definition set_record (rec : InstanceRecord) : M InstanceRecord :=
  let! now := op_now in
  λ o, let '(rec, t) := tracker_Set now rec (op_tracker o) in (rec, o <| op_tracker := t |>).

Definition new_record (opts : RunOptions) (state : InstanceState) (lastError : string) : InstanceRecord :=
  mkRecord (ro_InstanceID opts) (ro_DeploymentID opts) "" (ro_Image opts) state 0 lastError
    (ro_Labels opts) 0 0.

Definition failed_result (opts : RunOptions) (containerID lastError : string) : option RunResult :=
  Some (mkRunResult (ro_InstanceID opts) containerID "FAILED" lastError false).

(** The verifier's answer for the image, its digest and its signature. *)
Definition verify_image (opts : RunOptions) (o : ContainerOps D) : option error :=
  match op_verifier o with
  | Some verify => verify (ro_Image opts) (lookup_str (ro_Labels opts) "nebula.image_digest")
                     (lookup_str (ro_Labels opts) "nebula.signature")
  | None => None
  end.

(** The message for an error of CreateContainer. *)
Definition create_error (err : error) : string :=
  let errLower := ToLower err in
  if Contains errLower "unauthorized" || Contains errLower "401"
     || Contains errLower "authentication required" || Contains errLower "invalid credentials"
     || Contains errLower "token expired"
  then "REGISTRY_AUTH_FAILED: worker registry credentials rejected or expired: " +:+ err
  else "docker create failed: " +:+ err.

Definition create_options (opts : RunOptions) : CreateContainerOptions :=
  mkCreateOptions (ro_InstanceID opts) (ro_DeploymentID opts) (ro_Image opts) (ro_Cmd opts)
    (ro_Env opts) (ro_Ports opts) (ro_Labels opts) (ro_CPULimit opts) (ro_MemoryLimitMB opts).

Definition create_container (opts : RunOptions) : M (error + string) :=
  let! now := op_now in on_docker (dc_CreateContainer now (create_options opts)).

(** From the record that is marked as starting on. *)
Definition start_instance (opts : RunOptions) : M (option RunResult * option error) :=
  let! record := set_record (new_record opts StateStarting "") in
  let! r := create_container opts in
  match r with
  | inl err =>
    let msg := create_error err in
    set_record (record <| nr_State := StateFailed |> <| nr_LastError := msg |>) ;;
    ret (failed_result opts "" msg, Some msg)
  | inr containerID =>
    let record := record <| nr_ContainerID := containerID |> in
    let! err := on_docker (dc_StartContainer containerID) in
    match err with
    | Some err =>
      let msg := "docker start failed: " +:+ err in
      set_record (record <| nr_State := StateFailed |> <| nr_LastError := msg |>) ;;
      ret (failed_result opts containerID msg, Some err)
    | None =>
      set_record (record <| nr_State := StateRunning |> <| nr_LastError := "" |>) ;;
      ret (Some (mkRunResult (ro_InstanceID opts) containerID "RUNNING" "" false), None)
    end
  end.

(** [rec.State == StateRunning || rec.State == StateStarting]. *)
Definition is_up (rec : InstanceRecord) : bool :=
  bool_decide (nr_State rec = StateRunning) || bool_decide (nr_State rec = StateStarting).

(** Past the check for a duplicate: the image is verified before it may start. *)
Definition run_verified (opts : RunOptions) : M (option RunResult * option error) :=
  let! verr := gets (verify_image opts) in
  match verr with
  | Some err =>
    let msg := "signature verification rejected: " +:+ err in
    set_record (new_record opts StateFailed msg) ;;
    ret (failed_result opts "" msg, Some err)
  | None => start_instance opts
  end.

(** The tracker's lock of the instance is held throughout. *)
Definition RunContainer (opts : RunOptions) : M (option RunResult * option error) :=
  if decide (ro_InstanceID opts = "") then ret (None, Some "instance_id is required")
  else
  let! rec := get_record (ro_InstanceID opts) in
  match rec with
  | Some rec =>
    if is_up rec
    then ret (Some (mkRunResult (ro_InstanceID opts) (nr_ContainerID rec)
                      (state_string (nr_State rec)) "" true), None)
    else run_verified opts
  | None => run_verified opts
  end.

Definition stop_timeout (timeout : Duration) : option Duration :=
  if 0 <? timeout then Some timeout else None.

Definition StopContainer (instanceID : string) (timeout : Duration) :
    M (option StopResult * option error) :=
  if decide (instanceID = "") then ret (None, Some "instance_id is required")
  else
  let stopped := Some (mkStopResult instanceID true "") in
  let! rec := get_record instanceID in
  match rec with
  | None => ret (stopped, None)
  | Some rec =>
    if decide (nr_State rec = StateStopped) then ret (stopped, None)
    else
    let! rec := set_record (rec <| nr_State := StateStopping |>) in
    let! err := (if decide (nr_ContainerID rec = "") then ret None
                 else on_docker (dc_StopContainer (nr_ContainerID rec) (stop_timeout timeout))) in
    match err with
    | Some err =>
      let msg := "docker stop failed: " +:+ err in
      set_record (rec <| nr_LastError := msg |>) ;;
      ret (Some (mkStopResult instanceID false msg), Some err)
    | None =>
      set_record (rec <| nr_State := StateStopped |> <| nr_LastError := "" |>) ;;
      ret (stopped, None)
    end
  end.

Definition GetContainerStatus (instanceID : string) : M (option StatusResult * option error) :=
  if decide (instanceID = "") then ret (None, Some "instance_id is required")
  else
  let! rec := get_record instanceID in
  match rec with
  | None => ret (Some (mkStatusResult instanceID "" "NOT_FOUND" 0 ""), None)
  | Some rec =>
    let tracked := Some (mkStatusResult instanceID (nr_ContainerID rec) (state_string (nr_State rec))
                           (nr_ExitCode rec) (nr_LastError rec)) in
    if decide (nr_ContainerID rec = "") then ret (tracked, None)
    else
      let! r := on_docker (dc_InspectContainer (nr_ContainerID rec)) in
      match r with
      | inr details => ret (Some (mkStatusResult instanceID (nr_ContainerID rec) (cd_State details)
                                    (cd_ExitCode details) (cd_Error details)), None)
      | inl _ => ret (tracked, None)
      end
  end.

Definition ListContainers : M (list InstanceRecord) :=
  let! order := op_order in gets (λ o, tracker_List order (op_tracker o)).

End container_ops.
