(* ===== verification/RuntimeFacts.v ===== *)
(** * What the worker's runtime guarantees

    The operations of Runtime.v, against the interface [ContainerEngine] of what
    they rely on of a container engine; the in-memory engine implements it. The
    guarantee is the one that idempotency.go is written for (G-09): an instance
    has at most one running container. *)

From stdpp Require Import base option gmap strings list pretty.
From Stdlib Require Import ZArith Lia Ascii.
From S2P Require Import Prelude GoLib GoFloat PtrStore Workers Scheduler LoadBalancer HA Deployments Fleet Platform Demo Runtime.

(** ** The engine

    The containers of an engine are its identifiers, each with the instance it
    was created for and whether it runs. *)

Abbreviation Containers := (gmap string (string * bool)) (only parsing).

(** Containers stop or go away, none starts. *)
Definition quiets (v v' : Containers) : Prop :=
  ∀ id i, v' !! id = Some (i, true) → v !! id = Some (i, true).

#[export] Instance quiets_preorder : PreOrder quiets.
Proof. split; unfold quiets; [auto|]. intros u v w H1 H2 id i H. by apply H1, H2. Qed.

Class ContainerEngine (D : Type) `{!DockerClient D} := {
  ce_view : D → Containers;
  ce_ok : D → Prop;
  ce_create now opts d : ce_ok d →
    let '(r, d') := dc_CreateContainer now opts d in
    ce_ok d' ∧
    match r with
    | inr id => id ≠ "" ∧ ce_view d !! id = None ∧
                ce_view d' = <[id := (co_InstanceID opts, false)]> (ce_view d)
    | inl _ => quiets (ce_view d) (ce_view d')
    end;
  ce_start id d : ce_ok d →
    let '(err, d') := dc_StartContainer id d in
    ce_ok d' ∧
    match err with
    | None => ∃ i b, ce_view d !! id = Some (i, b) ∧ ce_view d' = <[id := (i, true)]> (ce_view d)
    | Some _ => quiets (ce_view d) (ce_view d')
    end;
  ce_stop id timeout d : ce_ok d →
    let '(err, d') := dc_StopContainer id timeout d in
    ce_ok d' ∧
    match err with
    | None => ∃ i b, ce_view d !! id = Some (i, b) ∧ ce_view d' = <[id := (i, false)]> (ce_view d)
    | Some _ => quiets (ce_view d) (ce_view d')
    end;
  ce_inspect id d : ce_ok d →
    let '(r, d') := dc_InspectContainer id d in
    ce_ok d' ∧ ce_view d' = ce_view d ∧
    match r with
    | inr details => ∃ i b, ce_view d !! id = Some (i, b) ∧ (b = true ↔ cd_State details = "running")
    | inl _ => True
    end
}.

(** ** The in-memory engine implements it *)

(** Its identifiers carry the counter, so that of a new container is new. *)
Lemma mock_id_inj n n' i i' : 0 ≤ n → 0 ≤ n' → mock_id n i = mock_id n' i' → n = n' ∧ i = i'.
Proof.
  intros Hn Hn'. unfold mock_id. intros E%(inj (String.append "mock-ctr-")).
  apply (free_split "-") in E as [E1 E2]; [|by (apply Itoa_free; [|left])..].
  by apply (inj pretty) in E1.
Qed.

Definition mock_view (m : MockDockerClient) : Containers :=
  (λ c, (mc_InstanceID c, bool_decide (mc_State c = "running"))) <$> md_containers m.

Definition mock_ok (m : MockDockerClient) : Prop :=
  0 ≤ md_counter m ∧
  ∀ id, is_Some (md_containers m !! id) → ∃ n i, 0 ≤ n ≤ md_counter m ∧ id = mock_id n i.

Lemma mock_ok_fresh m i : mock_ok m → md_containers m !! mock_id (Z.succ (md_counter m)) i = None.
Proof.
  intros [Hc H]. apply eq_None_not_Some. intros (n & j & Hn & E)%H.
  apply mock_id_inj in E as [??]; lia.
Qed.

(** The pull changes the cache and a counter. *)
Lemma ensure_image_frame opts m :
  let m' := (ensure_image opts m).2 in
  md_containers m' = md_containers m ∧ md_counter m' = md_counter m.
Proof. unfold ensure_image. by repeat case_match. Qed.

Lemma mock_update_spec id f m :
  mock_ok m → (∀ c, mc_InstanceID (f c) = mc_InstanceID c) →
  let '(err, m') := mock_update id f m in
  mock_ok m' ∧
  match err with
  | None => ∃ c, md_containers m !! id = Some c ∧
      mock_view m' = <[id := (mc_InstanceID c, bool_decide (mc_State (f c) = "running"))]> (mock_view m)
  | Some _ => m' = m
  end.
Proof.
  intros [Hc H] Hf. unfold mock_update. destruct (md_containers m !! id) as [c|] eqn:E; [|done].
  split; [split; [done|]|].
  - intros id'. cbn. destruct (decide (id' = id)) as [->|Hne].
    + intros _. apply H. eauto.
    + rewrite lookup_insert_ne by done. apply H.
  - exists c. split; [done|]. unfold mock_view. cbn. by rewrite fmap_insert, Hf.
Qed.

Lemma mock_create_spec `{!FloatConv} now opts m :
  mock_ok m →
  let '(r, m') := mock_CreateContainer now opts m in
  mock_ok m' ∧
  match r with
  | inr id => id ≠ "" ∧ mock_view m !! id = None ∧
              mock_view m' = <[id := (co_InstanceID opts, false)]> (mock_view m)
  | inl _ => quiets (mock_view m) (mock_view m')
  end.
Proof.
  intros Hm. pose proof (ensure_image_frame opts m) as [Hf Hc].
  unfold mock_CreateContainer. destruct (ensure_image opts m) as [r m1]. cbn in Hf, Hc.
  assert (mock_ok m1) as Hm1. { unfold mock_ok. by rewrite Hf, Hc. }
  assert (mock_view m1 = mock_view m) as Hv. { unfold mock_view. by rewrite Hf. }
  destruct r as [e|_]; [by rewrite Hv|]. cbn.
  destruct (md_FailCreate m1) as [e|]; cbn.
  { split; [done|]. change (quiets (mock_view m) (mock_view m1)). by rewrite Hv. }
  pose proof (mock_ok_fresh m1 (co_InstanceID opts) Hm1) as Hn. split; [split; cbn|split; [done|split]].
  - destruct Hm1. lia.
  - intros id. destruct (decide (id = mock_id (Z.succ (md_counter m1)) (co_InstanceID opts))) as [->|Hne].
    + intros _. exists (Z.succ (md_counter m1)), (co_InstanceID opts). destruct Hm1. split; [lia|done].
    + rewrite lookup_insert_ne by done. intros (n & i & ? & ->)%Hm1. exists n, i. split; [lia|done].
  - rewrite <- Hv. unfold mock_view. by rewrite lookup_fmap, Hn.
  - rewrite <- Hv. unfold mock_view. cbn. by rewrite fmap_insert.
Qed.

(** Starting and stopping are an update behind an injected fault. *)
Lemma mock_switch_spec (fail : option error) id f m b :
  mock_ok m → (∀ c, mc_InstanceID (f c) = mc_InstanceID c) →
  (∀ c, bool_decide (mc_State (f c) = "running") = b) →
  let '(err, m') := match fail with Some e => (Some e, m) | None => mock_update id f m end in
  mock_ok m' ∧
  match err with
  | None => ∃ i b0, mock_view m !! id = Some (i, b0) ∧ mock_view m' = <[id := (i, b)]> (mock_view m)
  | Some _ => quiets (mock_view m) (mock_view m')
  end.
Proof.
  intros Hm Hi Hb. destruct fail as [e|]; [done|].
  pose proof (mock_update_spec id f m Hm Hi) as H.
  destruct (mock_update id f m) as [[e|] m']; destruct H as [Hm' H]; [by subst m'|].
  split; [done|]. destruct H as (c & Hc & H). rewrite Hb in H.
  exists (mc_InstanceID c), (bool_decide (mc_State c = "running")).
  split; [|done]. unfold mock_view. by rewrite lookup_fmap, Hc.
Qed.

Lemma mock_inspect_spec id m :
  mock_ok m →
  let '(r, m') := mock_InspectContainer id m in
  mock_ok m' ∧ mock_view m' = mock_view m ∧
  match r with
  | inr details => ∃ i b, mock_view m !! id = Some (i, b) ∧ (b = true ↔ cd_State details = "running")
  | inl _ => True
  end.
Proof.
  intros Hm. unfold mock_InspectContainer. cbn. destruct (md_FailInspect m); [done|].
  destruct (md_containers m !! id) as [c|] eqn:E; [|done]. split; [done|]. split; [done|].
  exists (mc_InstanceID c), (bool_decide (mc_State c = "running")). split; [|apply bool_decide_eq_true].
  unfold mock_view. by rewrite lookup_fmap, E.
Qed.

#[export] Program Instance mock_engine `{!FloatConv} : ContainerEngine MockDockerClient := {
  ce_view := mock_view;
  ce_ok := mock_ok;
  ce_create := mock_create_spec;
  ce_inspect := mock_inspect_spec
}.
Next Obligation.
  intros fc id m Hm.
  pose (m' := m <| md_StartCalls ::= Z.succ |>).
  exact (mock_switch_spec (md_FailStart m) id mark_running m' true Hm
    (λ _, eq_refl) (λ _, eq_refl)).
Qed.
Next Obligation.
  intros fc id timeout m Hm.
  pose (m' := m <| md_StopCalls ::= Z.succ |>).
  exact (mock_switch_spec (md_FailStop m) id mark_stopped m' false Hm
    (λ _, eq_refl) (λ _, eq_refl)).
Qed.

Lemma mock_ok_new : mock_ok NewMockDockerClient.
Proof. split; [done|]. intros id [c Hc]. cbn in Hc. by rewrite lookup_empty in Hc. Qed.

(** ** The operations *)

Section runtime.
Context {D : Type} `{!DockerClient D, !ContainerEngine D} {ent : Entropy} {uni : Unicode}.

Abbreviation ops := (ContainerOps D).
Implicit Types (o : ops) (rec : InstanceRecord) (opts : RunOptions).

Definition view_of o : Containers := ce_view (op_client o).
Definition engine_ok o : Prop := ce_ok (op_client o).

Lemma view_of_client o o' : op_client o' = op_client o → view_of o' = view_of o.
Proof. unfold view_of. by intros ->. Qed.

Lemma engine_ok_client o o' : op_client o' = op_client o → engine_ok o → engine_ok o'.
Proof. unfold engine_ok. by intros ->. Qed.

(** [o'] is [o] with the record of the instance replaced. *)
Definition records (i : string) rec o o' : Prop :=
  op_tracker o' = <[i := rec]> (op_tracker o) ∧ op_verifier o' = op_verifier o ∧ nr_InstanceID rec = i.

(** Neither running nor about to. *)
Definition runnable (i : string) o : Prop :=
  i ≠ "" ∧ ∀ rec, op_tracker o !! i = Some rec → is_up rec = false.

(** The answers of RunContainer, each with what it says of the worker. *)
Inductive run_outcome opts o : option RunResult * option error → ops → Prop :=
| run_invalid :
    ro_InstanceID opts = "" → run_outcome opts o (None, Some "instance_id is required") o
| run_duplicate rec :
    ro_InstanceID opts ≠ "" → op_tracker o !! ro_InstanceID opts = Some rec → is_up rec = true →
    run_outcome opts o
      (Some (mkRunResult (ro_InstanceID opts) (nr_ContainerID rec) (state_string (nr_State rec)) "" true), None) o
| run_rejected err rec o' :
    runnable (ro_InstanceID opts) o → verify_image opts o = Some err →
    records (ro_InstanceID opts) rec o o' → nr_State rec = StateFailed → op_client o' = op_client o →
    run_outcome opts o (failed_result opts "" (nr_LastError rec), Some err) o'
| run_failed err rec o' :
    runnable (ro_InstanceID opts) o → verify_image opts o = None →
    records (ro_InstanceID opts) rec o o' → nr_State rec = StateFailed →
    engine_ok o' → quiets (view_of o) (view_of o') →
    run_outcome opts o (failed_result opts (nr_ContainerID rec) (nr_LastError rec), Some err) o'
| run_started rec o' :
    runnable (ro_InstanceID opts) o → verify_image opts o = None →
    records (ro_InstanceID opts) rec o o' → nr_State rec = StateRunning → nr_ContainerID rec ≠ "" →
    engine_ok o' → view_of o !! nr_ContainerID rec = None →
    view_of o' = <[nr_ContainerID rec := (ro_InstanceID opts, true)]> (view_of o) →
    run_outcome opts o (Some (mkRunResult (ro_InstanceID opts) (nr_ContainerID rec) "RUNNING" "" false), None) o'.

Lemma wp_set_record rec (Q : InstanceRecord → ops → Prop) o :
  (∀ c u o', op_client o' = op_client o → op_verifier o' = op_verifier o →
    let rec' := rec <| nr_CreatedAt := c |> <| nr_UpdatedAt := u |> in
    op_tracker o' = <[nr_InstanceID rec := rec']> (op_tracker o) → Q rec' o') →
  wp (set_record rec) Q o.
Proof.
  intros H. unfold wp, set_record, tracker_Set, op_now. cbn.
  destruct rec as [i d k im st ex le lb c u]. cbn in *.
  destruct (IsZero c); cbn; apply H; done.
Qed.

Lemma wp_on_docker {A} (f : D → A * D) (Q : A → ops → Prop) o :
  (∀ a d, f (op_client o) = (a, d) → Q a (o <| op_client := d |>)) → wp (on_docker f) Q o.
Proof. unfold wp, on_docker. destruct (f (op_client o)) as [a d]. cbn. eauto. Qed.

Lemma wp_op_now (Q : Time → ops → Prop) o :
  (∀ t n, Q t (o <| op_tick := n |>)) → wp op_now Q o.
Proof. intros H. apply H. Qed.

Lemma wp_create_container opts (Q : error + string → ops → Prop) o :
  engine_ok o →
  (∀ r o', op_tracker o' = op_tracker o → op_verifier o' = op_verifier o → engine_ok o' →
    match r with
    | inr id => id ≠ "" ∧ view_of o !! id = None ∧
                view_of o' = <[id := (ro_InstanceID opts, false)]> (view_of o)
    | inl _ => quiets (view_of o) (view_of o')
    end → Q r o') →
  wp (create_container opts) Q o.
Proof.
  intros Ho H. unfold create_container. apply wp_bind, wp_op_now. intros now n.
  apply wp_on_docker. intros r d E. pose proof (ce_create now (create_options opts) (op_client o) Ho) as Hc.
  change (op_client (o <| op_tick := n |>)) with (op_client o) in E. rewrite E in Hc.
  destruct Hc as [Hd Hc]. by apply H.
Qed.

(** A container of the instance that is not running is about to start. *)
Lemma wp_start_container id i (Q : option error → ops → Prop) o :
  engine_ok o → view_of o !! id = Some (i, false) →
  (∀ err o', op_tracker o' = op_tracker o → op_verifier o' = op_verifier o → engine_ok o' →
    match err with
    | None => view_of o' = <[id := (i, true)]> (view_of o)
    | Some _ => quiets (view_of o) (view_of o')
    end → Q err o') →
  wp (on_docker (dc_StartContainer id)) Q o.
Proof.
  intros Ho Hi H. apply wp_on_docker. intros err d E.
  pose proof (ce_start id (op_client o) Ho) as Hs. rewrite E in Hs. destruct Hs as [Hd Hs].
  apply H; [done..|]. destruct err as [e|]; [done|]. destruct Hs as (j & b & Hj & Hs).
  unfold view_of in Hi |- *. cbn. rewrite Hi in Hj. by simplify_eq.
Qed.

Lemma quiets_insert_stopped (v : Containers) id i : quiets v (<[id := (i, false)]> v).
Proof. intros id' j. rewrite lookup_insert. by case_decide. Qed.

(** Marked as starting, the instance has the container started, or a record of
    why it has not. *)
Lemma wp_start_recorded opts o :
  engine_ok o → runnable (ro_InstanceID opts) o → verify_image opts o = None →
  wp (start_instance opts) (run_outcome opts o) o.
Proof.
  intros Ho Hr Hv. unfold start_instance. apply wp_bind, wp_set_record.
  intros c u o1 C1 V1 rec1 T1. apply wp_bind, wp_create_container.
  { by apply (engine_ok_client _ _ C1). }
  intros r o2 T2 V2 O2 Hc. rewrite (view_of_client _ _ C1) in Hc.
  destruct r as [err|id]; cbv zeta.
  - apply wp_bind, wp_set_record. intros c' u' o3 C3 V3 rec3 T3. apply wp_ret.
    unfold failed_result. eapply (run_failed _ _ _ rec3); [done..| |done| |].
    + split_and!; [|by rewrite V3, V2|done]. rewrite T3, T2, T1. apply insert_insert_eq.
    + by apply (engine_ok_client _ _ C3).
    + by rewrite (view_of_client _ _ C3).
  - destruct Hc as (Hne & Hnew & Hc). apply wp_bind, (wp_start_container _ (ro_InstanceID opts)); [done| |].
    { rewrite Hc. apply lookup_insert_eq. }
    intros err o3 T3 V3 O3 Hs. destruct err as [err|]; cbv zeta.
    + apply wp_bind, wp_set_record. intros c' u' o4 C4 V4 rec4 T4. apply wp_ret.
      unfold failed_result. eapply (run_failed _ _ _ rec4); [done..| |done| |].
      * split_and!; [|by rewrite V4, V3, V2|done]. rewrite T4, T3, T2, T1. apply insert_insert_eq.
      * by apply (engine_ok_client _ _ C4).
      * rewrite (view_of_client _ _ C4). etransitivity; [|exact Hs]. rewrite Hc. apply quiets_insert_stopped.
    + apply wp_bind, wp_set_record. intros c' u' o4 C4 V4 rec4 T4. apply wp_ret.
      eapply (run_started _ _ rec4); [done..| |done|done| |done|].
      * split_and!; [|by rewrite V4, V3, V2|done]. rewrite T4, T3, T2, T1. apply insert_insert_eq.
      * by apply (engine_ok_client _ _ C4).
      * rewrite (view_of_client _ _ C4), Hs, Hc. apply insert_insert_eq.
Qed.

Lemma wp_run_container opts o : engine_ok o → wp (RunContainer opts) (run_outcome opts o) o.
Proof.
  intros Ho. unfold RunContainer. case_decide as Hi; [by apply wp_ret, run_invalid|].
  apply wp_bind, wp_gets. unfold tracker_Get.
  assert (runnable (ro_InstanceID opts) o → wp (run_verified opts) (run_outcome opts o) o) as Hnew.
  { intros Hr. unfold run_verified. apply wp_bind, wp_gets.
    destruct (verify_image opts o) as [err|] eqn:Hv; [|by apply wp_start_recorded].
    apply wp_bind, wp_set_record. intros c u o1 C1 V1 rec1 T1. apply wp_ret.
    by apply (run_rejected _ _ err rec1). }
  destruct (op_tracker o !! ro_InstanceID opts) as [rec|] eqn:E.
  - destruct (is_up rec) eqn:Hu.
    + by apply wp_ret, (run_duplicate _ _ rec).
    + apply Hnew. split; [done|]. intros rec' E'. congruence.
  - apply Hnew. split; [done|]. intros rec' E'. congruence.
Qed.

(** The answers of StopContainer. *)
Inductive stop_outcome (i : string) o : option StopResult * option error → ops → Prop :=
| stop_invalid : i = "" → stop_outcome i o (None, Some "instance_id is required") o
| stop_nothing :
    i ≠ "" → (∀ rec, op_tracker o !! i = Some rec → nr_State rec = StateStopped) →
    stop_outcome i o (Some (mkStopResult i true ""), None) o
| stop_failed rec0 err rec o' :
    i ≠ "" → op_tracker o !! i = Some rec0 → nr_State rec0 ≠ StateStopped → nr_ContainerID rec0 ≠ "" →
    records i rec o o' → nr_State rec = StateStopping → nr_ContainerID rec = nr_ContainerID rec0 →
    engine_ok o' → quiets (view_of o) (view_of o') →
    stop_outcome i o (Some (mkStopResult i false (nr_LastError rec)), Some err) o'
| stop_done rec0 rec o' :
    i ≠ "" → op_tracker o !! i = Some rec0 → nr_State rec0 ≠ StateStopped →
    records i rec o o' → nr_State rec = StateStopped → nr_ContainerID rec = nr_ContainerID rec0 →
    engine_ok o' →
    view_of o' = (if decide (nr_ContainerID rec = "") then view_of o
                  else alter (λ c, (c.1, false)) (nr_ContainerID rec) (view_of o)) →
    stop_outcome i o (Some (mkStopResult i true ""), None) o'.

Lemma wp_stop_engine rec timeout (Q : option error → ops → Prop) o :
  engine_ok o →
  (∀ err o', op_tracker o' = op_tracker o → op_verifier o' = op_verifier o → engine_ok o' →
    match err with
    | None => view_of o' = (if decide (nr_ContainerID rec = "") then view_of o
                            else alter (λ c, (c.1, false)) (nr_ContainerID rec) (view_of o))
    | Some _ => nr_ContainerID rec ≠ "" ∧ quiets (view_of o) (view_of o')
    end → Q err o') →
  wp (if decide (nr_ContainerID rec = "") then ret None
      else on_docker (dc_StopContainer (nr_ContainerID rec) timeout)) Q o.
Proof.
  intros Ho H. case_decide as Hn; [by apply wp_ret, H|].
  apply wp_on_docker. intros err d E. pose proof (ce_stop (nr_ContainerID rec) timeout (op_client o) Ho) as Hs.
  rewrite E in Hs. destruct Hs as [Hd Hs]. apply H; [done..|]. destruct err as [e|]; [done|].
  destruct Hs as (j & b & Hj & Hs). unfold view_of. cbn. rewrite Hs. apply map_eq. intros k.
  destruct (decide (k = nr_ContainerID rec)) as [->|Hk].
  - rewrite lookup_insert_eq, lookup_alter_eq. by rewrite Hj.
  - by rewrite lookup_insert_ne, lookup_alter_ne.
Qed.

(** Records are kept under their instance. *)
Definition keyed o : Prop := ∀ i rec, op_tracker o !! i = Some rec → nr_InstanceID rec = i.

Lemma wp_stop_container i timeout o :
  engine_ok o → keyed o → wp (StopContainer i timeout) (stop_outcome i o) o.
Proof.
  intros Ho Hk. unfold StopContainer. case_decide as Hi; [by apply wp_ret, stop_invalid|].
  apply wp_bind, wp_gets. unfold tracker_Get.
  destruct (op_tracker o !! i) as [rec0|] eqn:E.
  2: { apply wp_ret, stop_nothing; [done|]. intros rec. congruence. }
  case_decide as Hst. { apply wp_ret, stop_nothing; [done|]. intros rec. congruence. }
  pose proof (Hk _ _ E) as Hkey.
  apply wp_bind, wp_set_record. intros c u o1 C1 V1 rec1 T1. apply wp_bind, wp_stop_engine.
  { by apply (engine_ok_client _ _ C1). }
  intros err o2 T2 V2 O2 Hs. rewrite (view_of_client _ _ C1) in Hs.
  destruct err as [err|]; cbv zeta.
  - destruct Hs as [Hn Hs]. apply wp_bind, wp_set_record. intros c' u' o3 C3 V3 rec3 T3. apply wp_ret.
    eapply (stop_failed _ _ rec0 _ rec3); [done..| |done|done| |].
    + split_and!; [|by rewrite V3, V2|done]. rewrite T3, T2, T1. cbn. rewrite Hkey. apply insert_insert_eq.
    + by apply (engine_ok_client _ _ C3).
    + by rewrite (view_of_client _ _ C3).
  - apply wp_bind, wp_set_record. intros c' u' o3 C3 V3 rec3 T3. apply wp_ret.
    eapply (stop_done _ _ rec0 rec3); [done..| |done|done| |].
    + split_and!; [|by rewrite V3, V2|done]. rewrite T3, T2, T1. cbn. rewrite Hkey. apply insert_insert_eq.
    + by apply (engine_ok_client _ _ C3).
    + by rewrite (view_of_client _ _ C3).
Qed.

(** ** One running container per instance *)

(** What moves a worker: its operations, with stops that succeed; containers
    that end, by themselves or by hand; a change of the verifier. *)
Inductive worker_step : ops → ops → Prop :=
| step_run opts o : worker_step o (RunContainer opts o).2
| step_stop i timeout o :
    (StopContainer i timeout o).1.2 = None → worker_step o (StopContainer i timeout o).2
| step_status i o : worker_step o (GetContainerStatus i o).2
| step_engine d o : ce_ok d → quiets (view_of o) (ce_view d) → worker_step o (o <| op_client := d |>)
| step_verifier v o : worker_step o (SetVerifier v o).

(** A running container is the one that the tracker has for its instance. *)
Definition tracked (i id : string) o : Prop :=
  ∃ rec, op_tracker o !! i = Some rec ∧ nr_State rec = StateRunning ∧ nr_ContainerID rec = id ∧ id ≠ "".

Record worker_inv o : Prop := {
  wi_engine : engine_ok o;
  wi_keyed : keyed o;
  wi_running : ∀ id i, view_of o !! id = Some (i, true) → tracked i id o
}.

Lemma records_keyed i rec o o' : records i rec o o' → keyed o → keyed o'.
Proof.
  intros (T & _ & Hi) Hk j r. rewrite T, lookup_insert. case_decide as Hj; [|apply Hk].
  intros E. by simplify_eq.
Qed.

(** A record that is replaced by one that does not run, while the containers of
    its instance stay or become quiet. *)
Lemma inv_quiet i rec o o' :
  worker_inv o → records i rec o o' → engine_ok o' → quiets (view_of o) (view_of o') →
  (∀ id, view_of o' !! id ≠ Some (i, true)) → worker_inv o'.
Proof.
  intros [He Hk Hr] Hrec He' Hq Hi. split; [done|by eapply records_keyed|].
  intros id j Hj. destruct (decide (j = i)) as [->|Hne]; [by apply Hi in Hj|].
  apply Hq in Hj. destruct (Hr _ _ Hj) as (r & Hl & H). exists r. split; [|done].
  destruct Hrec as (-> & _). by rewrite lookup_insert_ne.
Qed.

Lemma runnable_quiet i o id : worker_inv o → runnable i o → view_of o !! id ≠ Some (i, true).
Proof.
  intros Hw [_ Hr] (rec & Hl & Hs & _)%Hw. apply Hr in Hl. unfold is_up in Hl. rewrite Hs in Hl. done.
Qed.

Lemma run_keeps_inv opts o : worker_inv o → worker_inv (RunContainer opts o).2.
Proof.
  intros Hw. assert (engine_ok o) as Ho by apply Hw. pose proof (wp_run_container opts o Ho) as H. unfold wp in H.
  destruct (RunContainer opts o) as [r o']. cbn in *.
  inversion H as [| |err rec o1 Hr Hv Hrec Hs Hc|err rec o1 Hr Hv Hrec Hs He Hq
                 |rec o1 Hr Hv Hrec Hs Hn He Hnew Hview]; subst; [done|done|..].
  - eapply inv_quiet; [done|done|by apply (engine_ok_client _ _ Hc)|by rewrite (view_of_client _ _ Hc)|].
    intros id. rewrite (view_of_client _ _ Hc). by apply runnable_quiet.
  - eapply inv_quiet; [done..|]. intros id Hid%Hq. by apply (runnable_quiet _ _ _ Hw Hr) in Hid.
  - split; [done|by eapply records_keyed; [|apply Hw]|]. intros id i. rewrite Hview, lookup_insert.
    destruct Hrec as (T & _ & _). unfold tracked. setoid_rewrite T. case_decide as Hid.
    + intros ?. simplify_eq. exists rec. by rewrite lookup_insert_eq.
    + intros Hi. destruct (decide (i = ro_InstanceID opts)) as [->|Hne].
      { by apply (runnable_quiet _ _ _ Hw Hr) in Hi. }
      rewrite lookup_insert_ne by done. by apply Hw.
Qed.

Lemma stop_keeps_inv i timeout o :
  worker_inv o → (StopContainer i timeout o).1.2 = None → worker_inv (StopContainer i timeout o).2.
Proof.
  intros Hw. assert (engine_ok o) as Ho by apply Hw. assert (keyed o) as Hk by apply Hw.
  pose proof (wp_stop_container i timeout o Ho Hk) as H. unfold wp in H.
  destruct (StopContainer i timeout o) as [r o']. cbn in *. intros Hnil.
  inversion H as [| |rec0 err rec o1 Hi Hl Hs0 Hn Hrec Hs Hid He Hq
                 |rec0 rec o1 Hi Hl Hs0 Hrec Hs Hid He Hview]; subst; [done|done|done|].
  assert (quiets (view_of o) (view_of o')) as Hq.
  { rewrite Hview. case_decide; [done|]. intros id j. destruct (decide (id = nr_ContainerID rec)) as [->|?].
    - rewrite lookup_alter_eq. by destruct (view_of o !! nr_ContainerID rec).
    - by rewrite lookup_alter_ne. }
  eapply inv_quiet; [done..|]. intros id Hrun. pose proof (Hq _ _ Hrun) as Hrun0.
  apply Hw in Hrun0 as (r' & Hl' & _ & Hid' & Hne). rewrite Hl in Hl'. simplify_eq.
  rewrite Hview, Hid, decide_False, lookup_alter_eq in Hrun by done.
  by apply fmap_Some in Hrun as (? & _ & ?).
Qed.

Lemma status_keeps_inv i o : worker_inv o → worker_inv (GetContainerStatus i o).2.
Proof.
  intros Hw. change (wp (GetContainerStatus i) (λ _, worker_inv) o). unfold GetContainerStatus.
  case_decide; [done|]. apply wp_bind, wp_gets. unfold tracker_Get.
  destruct (op_tracker o !! i) as [rec|]; [|done]. cbv zeta. case_decide; [done|].
  apply wp_bind, wp_on_docker. intros r d E.
  pose proof (ce_inspect (nr_ContainerID rec) (op_client o) (wi_engine _ Hw)) as Hi. rewrite E in Hi.
  destruct Hi as (Hd & Hv & _).
  assert (worker_inv (o <| op_client := d |>)) as Hw'; [|by destruct r].
  split; [done|apply Hw|]. intros id j. unfold view_of. cbn. rewrite Hv. apply Hw.
Qed.

Lemma worker_step_inv o o' : worker_step o o' → worker_inv o → worker_inv o'.
Proof.
  intros [opts o1|i timeout o1 Hnil|i o1|d o1 Hd Hq|v o1] Hw.
  - by apply run_keeps_inv.
  - by apply stop_keeps_inv.
  - by apply status_keeps_inv.
  - split; [done|apply Hw|]. intros id i Hi%Hq. by apply Hw in Hi.
  - split; apply Hw.
Qed.

Lemma worker_reach_inv d o :
  ce_ok d → (∀ id i, ce_view d !! id ≠ Some (i, true)) →
  rtc worker_step (NewContainerOps d NewInstanceTracker) o → worker_inv o.
Proof.
  intros Hd Hq Hr. assert (worker_inv (NewContainerOps d NewInstanceTracker)) as H0.
  { split; [done| |].
    - intros i rec H. unfold NewInstanceTracker in H. cbn in H. by rewrite lookup_empty in H.
    - intros id i H. by apply Hq in H. }
  induction Hr as [|o1 o2 o3 H _ IH]; [done|]. apply IH. by eapply worker_step_inv.
Qed.

(** RunContainer, on every path and for every engine that keeps its laws:
    without an identifier it fails and does nothing; an instance recorded as
    starting or running is answered as a duplicate without a call; an image that
    the verifier refuses is recorded as FAILED without a call; a create or start
    that fails leaves no new running container and a FAILED record with the
    error that is returned; otherwise exactly one new container, of this
    instance, runs and is recorded. *)
Theorem run_container_outcome opts o :
  engine_ok o → run_outcome opts o (RunContainer opts o).1 (RunContainer opts o).2.
Proof. apply wp_run_container. Qed.

(** StopContainer, on every path and for every engine that keeps its laws: an
    instance that is unknown or recorded as stopped is answered with success
    without a call; otherwise success means that its recorded container no
    longer runs and the record is STOPPED, and an error that nothing new runs
    and the record, STOPPING, has the error. *)
Theorem stop_container_outcome i timeout o :
  engine_ok o → keyed o → stop_outcome i o (StopContainer i timeout o).1 (StopContainer i timeout o).2.
Proof. apply wp_stop_container. Qed.

(** C11: Of one instance at most one container runs on a worker, and it is the
    one that the worker's record names: in every state reached from a start
    without running containers by runs, by stops that do not fail, by status
    reads, by containers that end by themselves and by changes of the verifier. *)
Theorem one_running_container d o :
  ce_ok d → (∀ id i, ce_view d !! id ≠ Some (i, true)) →
  rtc worker_step (NewContainerOps d NewInstanceTracker) o →
  (∀ i id, view_of o !! id = Some (i, true) → tracked i id o) ∧
  (∀ i id1 id2, view_of o !! id1 = Some (i, true) → view_of o !! id2 = Some (i, true) → id1 = id2).
Proof.
  intros Hd Hq Hr. pose proof (wi_running _ (worker_reach_inv d o Hd Hq Hr)) as Hw.
  split; [intros i id; apply Hw|]. intros i id1 id2 (r1 & H1 & _ & <- & _)%Hw (r2 & H2 & _ & <- & _)%Hw. congruence.
Qed.

End runtime.

(** ** On the in-memory engine *)

Section demo.
#[local] Existing Instance demo_entropy.
#[local] Existing Instance amd64.
#[local] Existing Instance unicode_none.

Definition demo_opts : RunOptions := mkRunOptions "i1" "d1" "app:1" [] [] [] ∅ fzero 0.
Definition demo_ops : ContainerOps MockDockerClient := NewContainerOps NewMockDockerClient NewInstanceTracker.
Definition demo_running : ContainerOps MockDockerClient := (RunContainer demo_opts demo_ops).2.

(** Every container ends by itself. *)
Definition crash_all (m : MockDockerClient) : MockDockerClient :=
  m <| md_containers ::= fmap (λ c, c <| mc_State := "exited" |>) |>.

Lemma crash_all_ok m : mock_ok m → mock_ok (crash_all m) ∧ quiets (mock_view m) (mock_view (crash_all m)).
Proof.
  intros [Hc H]. split; [split; [done|]|].
  - intros id. cbn. rewrite lookup_fmap, fmap_is_Some. apply H.
  - intros id i. unfold mock_view. cbn. rewrite !lookup_fmap. by destruct (_ !! id).
Qed.

Definition demo_crashed : ContainerOps MockDockerClient := demo_running <| op_client ::= crash_all |>.

Lemma demo_running_inv : worker_inv demo_running.
Proof.
  apply run_keeps_inv, (worker_reach_inv NewMockDockerClient); [exact mock_ok_new| |constructor].
  intros id i. cbn. by rewrite lookup_fmap, lookup_empty.
Qed.

(** The identifiers of the containers that run. *)
Definition running (o : ContainerOps MockDockerClient) : list string :=
  (base.filter (λ p, p.2.2 = true) (map_to_list (view_of o))).*1.

Definition demo_again : ContainerOps MockDockerClient :=
  (RunContainer demo_opts (StopContainer "i1" 0 demo_crashed).2).2.

Lemma demo_reach : rtc worker_step demo_ops demo_again.
Proof.
  eapply rtc_l; [apply (step_run demo_opts)|].
  eapply rtc_l; [apply step_engine; apply crash_all_ok, demo_running_inv|].
  eapply rtc_l; [by apply (step_stop "i1" 0)|].
  apply rtc_once, (step_run demo_opts).
Qed.

Example demo_again_runs : running demo_again = ["mock-ctr-2-i1"].
Proof. vm_compute. reflexivity. Qed.

(** While the tracker still has the container as running, a run of the instance
    answers with the container that has crashed. *)
Example crashed_is_duplicate :
  let '(r, o) := RunContainer demo_opts demo_crashed in
  r = (Some (mkRunResult "i1" "mock-ctr-1-i1" "RUNNING" "" true), None) ∧ running o = [].
Proof. vm_compute. done. Qed.

(** A stop that fails leaves the instance STOPPING, and a run that follows it
    starts a second container beside the first. *)
Example failed_stop_doubles :
  let o := demo_running <| op_client ::= λ m, m <| md_FailStop := Some "busy" |> |> in
  let '(r, o) := StopContainer "i1" 0 o in
  (snd r, running (RunContainer demo_opts o).2)
  = (Some "busy", ["mock-ctr-1-i1"; "mock-ctr-2-i1"]).
Proof. vm_compute. reflexivity. Qed.

(** A restarted agent has an empty tracker: it reports the stop of a container
    that it leaves running. *)
Example restart_forgets :
  let o := NewContainerOps (op_client demo_running) NewInstanceTracker in
  let '(r, o) := StopContainer "i1" 0 o in
  r = (Some (mkStopResult "i1" true ""), None) ∧ running o = ["mock-ctr-1-i1"].
Proof. vm_compute. done. Qed.

Lemma run_container_outcome_witness :
  engine_ok demo_crashed ∧
  run_outcome demo_opts demo_crashed (RunContainer demo_opts demo_crashed).1 (RunContainer demo_opts demo_crashed).2.
Proof.
  assert (engine_ok demo_crashed) as H by apply crash_all_ok, demo_running_inv.
  split; [exact H|exact (run_container_outcome demo_opts demo_crashed H)].
Defined.

Lemma stop_container_outcome_witness :
  engine_ok demo_running ∧
  stop_outcome "i1" demo_running (StopContainer "i1" 0 demo_running).1 (StopContainer "i1" 0 demo_running).2.
Proof.
  split; [apply demo_running_inv|].
  exact (stop_container_outcome "i1" 0 demo_running (wi_engine _ demo_running_inv) (wi_keyed _ demo_running_inv)).
Defined.

Lemma one_running_container_witness :
  running demo_again = ["mock-ctr-2-i1"] ∧
  ∀ i id, view_of demo_again !! id = Some (i, true) → tracked i id demo_again.
Proof.
  split; [vm_compute; reflexivity|].
  exact (proj1 (one_running_container NewMockDockerClient demo_again mock_ok_new
    ltac:(intros id i; cbn; by rewrite lookup_fmap, lookup_empty) demo_reach)).
Defined.

End demo.
