(* ===== verification/KeyedLock.v ===== *)
(** * The keyed locks of the instance tracker: runtime/idempotency.go, LockInstance

    Every operation of the worker holds the lock of its instance. The lock of a
    key is allocated when the first user comes and dropped when the last one
    leaves, counted by [refCount]. [LockInstance] and the function it returns
    are four atomic sections, between which other goroutines run: the section
    under [keyLockMu] that takes a reference, [mu.Lock], [mu.Unlock], and the
    section that gives the reference back. The state has the map of the locks,
    their cells and the position of every goroutine. *)

From stdpp Require Import base option gmap strings list.
From Stdlib Require Import ZArith Lia.
From S2P Require Import Prelude.

(** The mutex of a lock is the goroutine that holds it. *)
Record keyedLock := mkKeyedLock {
  kl_mu : option nat;
  kl_refCount : Z
}.

#[export] Instance keyedLock_eta : Settable keyedLock := λ k, mkKeyedLock (kl_mu k) (kl_refCount k).

(** Where a goroutine is, with its key and its [kl]; one that is not in the
    map of positions is outside. *)
Inductive Position :=
| Waiting (key : string) (kl : nat)
| Holding (key : string) (kl : nat)
| Leaving (key : string) (kl : nat).

Definition pos_key (p : Position) : string :=
  match p with Waiting k _ | Holding k _ | Leaving k _ => k end.
Definition pos_lock (p : Position) : nat :=
  match p with Waiting _ l | Holding _ l | Leaving _ l => l end.

Record Locks := mkLocks {
  lk_keys : gmap string nat;
  lk_heap : gmap nat keyedLock;
  lk_next : nat;
  lk_pos : gmap nat Position
}.

#[export] Instance Locks_eta : Settable Locks := λ s,
  mkLocks (lk_keys s) (lk_heap s) (lk_next s) (lk_pos s).

Definition NewLocks : Locks := mkLocks ∅ ∅ 0 ∅.

(** [kl, exists := t.keyLocks[instanceID]], and a new one when there is none. *)
Definition find_lock (key : string) (s : Locks) : nat * Locks :=
  match lk_keys s !! key with
  | Some l => (l, s)
  | None =>
    let l := lk_next s in
    (l, s <| lk_heap ::= <[l := mkKeyedLock None 0]> |> <| lk_next ::= S |>
          <| lk_keys ::= <[key := l]> |>)
  end.

Definition count_ref (l : nat) (d : Z) (s : Locks) : Locks :=
  s <| lk_heap ::= alter (λ k, k <| kl_refCount ::= Z.add d |>) l |>.

Definition move (t : nat) (p : option Position) (s : Locks) : Locks :=
  s <| lk_pos ::= partial_alter (λ _, p) t |>.

(** The first section of LockInstance. *)
Definition take_ref (t : nat) (key : string) (s : Locks) : Locks :=
  let '(l, s) := find_lock key s in move t (Some (Waiting key l)) (count_ref l 1 s).

(** [kl.mu.Lock()] and [kl.mu.Unlock()]. *)
Definition set_mu (l : nat) (h : option nat) (s : Locks) : Locks :=
  s <| lk_heap ::= alter (λ k, k <| kl_mu := h |>) l |>.

Definition mu_lock (t : nat) (key : string) (l : nat) (s : Locks) : Locks :=
  move t (Some (Holding key l)) (set_mu l (Some t) s).

Definition mu_unlock (t : nat) (key : string) (l : nat) (s : Locks) : Locks :=
  move t (Some (Leaving key l)) (set_mu l None s).

(** The last section: the entry goes with the last reference. *)
Definition drop_ref (t : nat) (key : string) (l : nat) (s : Locks) : Locks :=
  let s := count_ref l (-1) s in
  let s := match lk_heap s !! l with
           | Some k => if kl_refCount k =? 0 then s <| lk_keys ::= delete key |> else s
           | None => s
           end in
  move t None s.

(** The steps of a goroutine inside, and those of all. *)
Inductive lock_step : Locks → Locks → Prop :=
| step_lock t key l k s :
    lk_pos s !! t = Some (Waiting key l) → lk_heap s !! l = Some k → kl_mu k = None →
    lock_step s (mu_lock t key l s)
| step_unlock t key l s :
    lk_pos s !! t = Some (Holding key l) → lock_step s (mu_unlock t key l s)
| step_leave t key l s :
    lk_pos s !! t = Some (Leaving key l) → lock_step s (drop_ref t key l s).

Inductive locks_step : Locks → Locks → Prop :=
| step_enter t key s : lk_pos s !! t = None → locks_step s (take_ref t key s)
| step_inside s s' : lock_step s s' → locks_step s s'.

(** ** The invariant

    Every goroutine inside has the lock that the map has for its key, and the
    reference counts are the numbers of goroutines. *)

Definition users (l : nat) (s : Locks) : gmap nat Position := base.filter (λ p, pos_lock p.2 = l) (lk_pos s).

(** A cell in use: its count, and who holds it. *)
Definition cell_ok (s : Locks) (l : nat) (k : keyedLock) : Prop :=
  kl_refCount k = Z.of_nat (size (users l s)) ∧ 0 < kl_refCount k ∧
  ∀ t, kl_mu k = Some t ↔ ∃ key, lk_pos s !! t = Some (Holding key l).

Record locks_inv (s : Locks) : Prop := {
  li_entry : ∀ t p, lk_pos s !! t = Some p → lk_keys s !! pos_key p = Some (pos_lock p);
  li_cell : ∀ key l, lk_keys s !! key = Some l → ∃ k, lk_heap s !! l = Some k ∧ cell_ok s l k;
  li_inj : ∀ key key' l, lk_keys s !! key = Some l → lk_keys s !! key' = Some l → key = key';
  li_next : ∀ key l, lk_keys s !! key = Some l → (l < lk_next s)%nat
}.

Lemma locks_inv_new : locks_inv NewLocks.
Proof. by split; cbn; intros *; rewrite lookup_empty. Qed.

Lemma lookup_users l s t p : users l s !! t = Some p ↔ lk_pos s !! t = Some p ∧ pos_lock p = l.
Proof. unfold users. by rewrite map_lookup_filter_Some. Qed.

(** [s'] differs from [s] in the position of [t] alone. *)
Definition moved (t : nat) (s s' : Locks) : Prop := ∀ u, u ≠ t → lk_pos s' !! u = lk_pos s !! u.

(** The lock that [t] uses does, or will. *)
Definition at_lock (t l : nat) (s : Locks) : Prop := ∀ p, lk_pos s !! t = Some p → pos_lock p = l.

Lemma cell_frame s s' t l l' k :
  l' ≠ l → moved t s s' → at_lock t l s → at_lock t l s' → cell_ok s l' k → cell_ok s' l' k.
Proof.
  intros Hl Hm Ha Ha' (Hc & Hp & Hh). split_and!; [|done|].
  - rewrite Hc. do 2 f_equal. apply map_eq. intros u. apply option_eq. intros p. rewrite !lookup_users.
    destruct (decide (u = t)) as [->|Hu]; [|by rewrite Hm].
    split; intros [H%Ha E] || intros [H%Ha' E]; congruence.
  - intros u. rewrite Hh. destruct (decide (u = t)) as [->|Hu]; [|by rewrite Hm].
    split; intros [key H]; exfalso; [apply Ha in H|apply Ha' in H]; cbn in H; congruence.
Qed.

Lemma users_put s s' t p :
  moved t s s' → lk_pos s' !! t = Some p → users (pos_lock p) s' = <[t := p]> (users (pos_lock p) s).
Proof.
  intros Hm Hp. apply map_eq. intros u. apply option_eq. intros q. rewrite lookup_insert, lookup_users.
  case_decide as Hu; [subst u|rewrite lookup_users, Hm by done; done].
  rewrite Hp. split; [intros [? _]|intros ?]; by simplify_eq.
Qed.

Lemma size_users_in s s' t p l :
  moved t s s' → lk_pos s !! t = None → lk_pos s' !! t = Some p → pos_lock p = l →
  size (users l s') = S (size (users l s)).
Proof.
  intros Hm Hn Hp <-. rewrite (users_put s s' t p) by done.
  apply map_size_insert_None, eq_None_not_Some. intros [q Hq%lookup_users]. destruct Hq. congruence.
Qed.

Lemma size_users_same s s' t p p' l :
  moved t s s' → lk_pos s !! t = Some p → lk_pos s' !! t = Some p' → pos_lock p = l → pos_lock p' = l →
  size (users l s') = size (users l s).
Proof.
  intros Hm Hp Hp' Hl <-. rewrite (users_put s s' t p') by done.
  apply map_size_insert_Some. exists p. by apply lookup_users.
Qed.

Lemma moved_sym t s s' : moved t s s' → moved t s' s.
Proof. intros H u Hu. by rewrite H. Qed.

(** A step that keeps the map, moves one goroutine between positions at the
    same lock, and leaves that lock's cell in order. *)
Lemma inv_move s s' t p l :
  locks_inv s → lk_keys s' = lk_keys s → lk_next s' = lk_next s →
  lk_pos s !! t = Some p → pos_lock p = l → moved t s s' →
  (∀ p', lk_pos s' !! t = Some p' → pos_lock p' = l ∧ pos_key p' = pos_key p) →
  (∀ l', l' ≠ l → lk_heap s' !! l' = lk_heap s !! l') →
  (∀ k, lk_heap s !! l = Some k → cell_ok s l k → ∃ k', lk_heap s' !! l = Some k' ∧ cell_ok s' l k') →
  locks_inv s'.
Proof.
  intros Hi Hk Hn Hp Hl Hm Hp' Hheap Hcell. split; rewrite ?Hk, ?Hn; [| |apply Hi..].
  - intros u q Hq. destruct (decide (u = t)) as [->|Hu].
    + destruct (Hp' _ Hq) as [-> ->]. rewrite <- Hl. by apply (li_entry _ Hi t).
    + apply (li_entry _ Hi u). by rewrite <- Hm.
  - intros key l' Hkey. destruct (li_cell _ Hi _ _ Hkey) as (k & Hh & Hc).
    destruct (decide (l' = l)) as [->|Hne]; [by apply (Hcell k)|].
    exists k. split; [by rewrite Hheap|]. apply (cell_frame s s' t l); [done|done| | |done].
    + intros q Hq. congruence.
    + intros q Hq. by destruct (Hp' _ Hq).
Qed.

Lemma lookup_move t p s u :
  lk_pos (move t p s) !! u = if decide (t = u) then p else lk_pos s !! u.
Proof. unfold move. cbn. by rewrite lookup_partial_alter. Qed.

Lemma moved_move t p s s' : lk_pos s' = lk_pos s → moved t s (move t p s').
Proof. intros E u Hu. by rewrite lookup_move, decide_False, E. Qed.

(** [mu.Lock] and [mu.Unlock] set the mutex of the lock and the position. *)
Lemma inv_set_mu t p p' l h s :
  locks_inv s → lk_pos s !! t = Some p → pos_lock p = l → pos_lock p' = l → pos_key p' = pos_key p →
  (∀ k, lk_heap s !! l = Some k → cell_ok s l k →
    ∀ u, h = Some u ↔ ∃ key, lk_pos (move t (Some p') s) !! u = Some (Holding key l)) →
  locks_inv (move t (Some p') (set_mu l h s)).
Proof.
  intros Hi Hp Hl Hl' Hkey Hh.
  assert (moved t s (move t (Some p') (set_mu l h s))) as Hm by by apply moved_move.
  assert (lk_pos (move t (Some p') (set_mu l h s)) !! t = Some p') as Ht.
  { by rewrite lookup_move, decide_True. }
  apply (inv_move s _ t p l); [done..| | |].
  - intros q Hq. rewrite Ht in Hq. by simplify_eq.
  - intros l' Hne. cbn. by rewrite lookup_alter_ne.
  - intros k Hk Hc. exists (k <| kl_mu := h |>). split; [cbn; by rewrite lookup_alter_eq, Hk|].
    pose proof (Hh k Hk Hc) as Hh'. destruct Hc as (Hc & Hpos & _). split_and!; [|done|exact Hh'].
    cbn. rewrite Hc. f_equal. symmetry. by apply (size_users_same _ _ t p p').
Qed.

Lemma mu_lock_inv t key l k s :
  lk_pos s !! t = Some (Waiting key l) → lk_heap s !! l = Some k → kl_mu k = None →
  locks_inv s → locks_inv (mu_lock t key l s).
Proof.
  intros Ht Hk Hfree Hi. apply (inv_set_mu t (Waiting key l)); [done..|].
  intros k' Hk' (_ & _ & Hh) u. rewrite Hk in Hk'. simplify_eq. rewrite Hfree in Hh.
  rewrite lookup_move. case_decide as Hu; [subst u; naive_solver|].
  rewrite <- Hh. naive_solver.
Qed.

Lemma mu_unlock_inv t key l s :
  lk_pos s !! t = Some (Holding key l) → locks_inv s → locks_inv (mu_unlock t key l s).
Proof.
  intros Ht Hi. apply (inv_set_mu t (Holding key l)); [done..|].
  intros k Hk (_ & _ & Hh) u. assert (kl_mu k = Some t) as Hmu by (apply Hh; eauto).
  rewrite lookup_move. case_decide as Hu; [naive_solver|]. rewrite <- Hh, Hmu. naive_solver.
Qed.

(** A goroutine that takes a reference counts. *)
Lemma cell_enter s s' t key l k :
  moved t s s' → lk_pos s !! t = None → lk_pos s' !! t = Some (Waiting key l) →
  kl_refCount k = Z.of_nat (size (users l s)) →
  (∀ u, kl_mu k = Some u ↔ ∃ key', lk_pos s !! u = Some (Holding key' l)) →
  cell_ok s' l (k <| kl_refCount ::= Z.add 1 |>).
Proof.
  intros Hm Ht Ht' Hc Hh. split_and!; cbn.
  - rewrite (size_users_in s s' t (Waiting key l)) by done. lia.
  - lia.
  - intros u. rewrite Hh. destruct (decide (u = t)) as [->|Hu]; [|by rewrite Hm].
    rewrite Ht, Ht'. naive_solver.
Qed.

Section take_ref.
Context (t : nat) (key : string) (s : Locks) (Ht : lk_pos s !! t = None) (Hi : locks_inv s).

(** The state with the reference taken, for any map and heap. *)
Let entered (l : nat) (s0 : Locks) : Locks := move t (Some (Waiting key l)) (count_ref l 1 s0).

Lemma entered_at l s0 : lk_pos (entered l s0) !! t = Some (Waiting key l).
Proof. unfold entered. by rewrite lookup_move, decide_True. Qed.

Lemma entered_frame l l' s0 k :
  lk_pos s0 = lk_pos s → l' ≠ l → cell_ok s l' k → cell_ok (entered l s0) l' k.
Proof.
  intros E Hl. apply (cell_frame _ _ t l); [done|by apply moved_move| |].
  - intros q Hq. by rewrite Ht in Hq.
  - intros q Hq. rewrite entered_at in Hq. by simplify_eq.
Qed.

Lemma take_known_inv l : lk_keys s !! key = Some l → locks_inv (entered l s).
Proof.
  intros Hl. assert (moved t s (entered l s)) as Hm by by apply moved_move. split; [| |apply Hi..].
  - intros u p Hp. destruct (decide (u = t)) as [->|Hu].
    + rewrite entered_at in Hp. by simplify_eq.
    + rewrite Hm in Hp by done. by apply (li_entry _ Hi u).
  - intros key' l' Hkey'. destruct (li_cell _ Hi _ _ Hkey') as (k & Hk & Hc).
    destruct (decide (l' = l)) as [->|Hne].
    + exists (k <| kl_refCount ::= Z.add 1 |>). split; [cbn; by rewrite lookup_alter_eq, Hk|].
      apply (cell_enter s (entered l s) t key); [done|done|apply entered_at|apply Hc..].
    + exists k. split; [cbn; by rewrite lookup_alter_ne|by apply entered_frame].
Qed.

(** The lock that is new to the map is new to the goroutines. *)
Lemma no_user_next : users (lk_next s) s = ∅.
Proof.
  apply map_empty. intros u. apply eq_None_not_Some. intros [p [Hp Hl]%lookup_users].
  apply (li_entry _ Hi), (li_next _ Hi) in Hp. lia.
Qed.

Lemma take_new_inv :
  lk_keys s !! key = None → locks_inv (entered (find_lock key s).1 (find_lock key s).2).
Proof.
  intros Hn. unfold find_lock. rewrite Hn. cbn [fst snd]. set (s' := entered _ _).
  assert (moved t s s') as Hm by by apply moved_move.
  assert (lk_keys s' = <[key := lk_next s]> (lk_keys s)) as Hkeys by done.
  split; rewrite ?Hkeys.
  - intros u p Hp. rewrite lookup_insert. destruct (decide (u = t)) as [->|Hu].
    { unfold s' in Hp. rewrite entered_at in Hp. simplify_eq. by rewrite decide_True. }
    rewrite Hm in Hp by done. apply (li_entry _ Hi) in Hp. by case_decide; [congruence|].
  - intros key' l'. rewrite lookup_insert. case_decide as Hk; intros Hl.
    + injection Hl as <-. exists ((mkKeyedLock None 0) <| kl_refCount ::= Z.add 1 |>).
      split; [unfold s'; cbn; by rewrite lookup_alter_eq, lookup_insert_eq|].
      apply (cell_enter s _ t key); [done|done|apply entered_at|by rewrite no_user_next|].
      intros u. split; [done|]. intros [key0 H]. apply (li_entry _ Hi), (li_next _ Hi) in H. cbn in H. lia.
    + pose proof (li_next _ Hi _ _ Hl) as Hlt. destruct (li_cell _ Hi _ _ Hl) as (k & Hkc & Hc).
      exists k. split; [|by apply entered_frame; [|lia|]].
      unfold s'. cbn. by rewrite lookup_alter_ne, lookup_insert_ne by lia.
  - intros k1 k2 l'. rewrite !lookup_insert. repeat case_decide; [by subst| | |apply Hi];
      intros H1 H2; [apply (li_next _ Hi) in H2|apply (li_next _ Hi) in H1]; simplify_eq; lia.
  - intros k1 l'. rewrite lookup_insert. unfold s'. cbn. case_decide.
    + intros ?. simplify_eq. lia.
    + intros H1%(li_next _ Hi). lia.
Qed.

Lemma take_ref_inv : locks_inv (take_ref t key s).
Proof.
  unfold take_ref. destruct (lk_keys s !! key) as [l|] eqn:E.
  - unfold find_lock. rewrite E. by apply take_known_inv.
  - pose proof (take_new_inv E) as H. by destruct (find_lock key s).
Qed.

End take_ref.

Section drop_ref.
Context (t l : nat) (key : string) (s : Locks) (k : keyedLock).
Context (Ht : lk_pos s !! t = Some (Leaving key l)) (Hi : locks_inv s).
Context (Hk : lk_heap s !! l = Some k) (Hc : cell_ok s l k).

Let dropped : Locks := count_ref l (-1) s.

(** The goroutines that are left count one less. *)
Lemma left_size (s0 : Locks) : lk_pos s0 = lk_pos s → size (users l s) = S (size (users l (move t None s0))).
Proof.
  intros E. apply (size_users_in _ _ t (Leaving key l)); [|by rewrite lookup_move, decide_True|done|done].
  by apply moved_sym, moved_move.
Qed.

Lemma left_frame (s0 : Locks) l' k0 :
  lk_pos s0 = lk_pos s → l' ≠ l → cell_ok s l' k0 → cell_ok (move t None s0) l' k0.
Proof.
  intros E Hne. apply (cell_frame _ _ t l); [done|by apply moved_move| |]; intros q Hq.
  - by simplify_eq.
  - by rewrite lookup_move, decide_True in Hq.
Qed.

(** Without any, the entry goes. *)
Lemma drop_last_inv : kl_refCount k = 1 → locks_inv (move t None (dropped <| lk_keys ::= delete key |>)).
Proof.
  intros Hz. set (s0 := dropped <| lk_keys ::= _ |>). assert (lk_pos s0 = lk_pos s) as E by done.
  pose proof (left_size s0 E) as Hs. destruct Hc as (Hcount & _ & _).
  assert (users l (move t None s0) = ∅) as Hnone by (apply map_size_empty_iff; lia).
  pose proof (li_entry _ Hi _ _ Ht) as Hkey. cbn in Hkey.
  assert (lk_keys (move t None s0) = delete key (lk_keys s)) as Hkeys by done.
  split; rewrite ?Hkeys.
  - intros u p Hp. pose proof Hp as Hp0. rewrite lookup_move in Hp. case_decide as Hu; [done|].
    rewrite E in Hp. apply (li_entry _ Hi) in Hp. rewrite lookup_delete_ne; [done|].
    intros Ek. rewrite <- Ek, Hkey in Hp. injection Hp as Hp.
    assert (users l (move t None s0) !! u = Some p) as Hin by by apply lookup_users.
    by rewrite Hnone, lookup_empty in Hin.
  - intros key' l' [Hne Hl']%lookup_delete_Some. destruct (li_cell _ Hi _ _ Hl') as (k0 & Hk0 & Hc0).
    assert (l' ≠ l) as Hll. { intros ->. by apply Hne, (li_inj _ Hi _ _ l). }
    exists k0. split; [cbn; by rewrite lookup_alter_ne|by apply left_frame].
  - intros k1 k2 l' [_ H1]%lookup_delete_Some [_ H2]%lookup_delete_Some. by apply (li_inj _ Hi _ _ l').
  - intros k1 l' [_ H1]%lookup_delete_Some. by apply (li_next _ Hi k1).
Qed.

Lemma drop_some_inv : kl_refCount k ≠ 1 → locks_inv (move t None dropped).
Proof.
  intros Hz. assert (lk_pos dropped = lk_pos s) as E by done.
  pose proof (left_size dropped E) as Hs. destruct Hc as (Hcount & Hpos & Hh).
  split; [| |apply Hi..].
  - intros u p Hp. rewrite lookup_move in Hp. case_decide as Hu; [done|]. by apply (li_entry _ Hi u).
  - intros key' l' Hl'. destruct (li_cell _ Hi _ _ Hl') as (k0 & Hk0 & Hc0).
    destruct (decide (l' = l)) as [->|Hne].
    + exists (k <| kl_refCount ::= Z.add (-1) |>). split; [cbn; by rewrite lookup_alter_eq, Hk|].
      split_and!; cbn; [lia..|]. intros u. rewrite Hh. destruct (decide (t = u)) as [<-|Hu].
      * rewrite lookup_partial_alter_eq, Ht. naive_solver.
      * by rewrite lookup_partial_alter_ne.
    + exists k0. split; [cbn; by rewrite lookup_alter_ne|by apply left_frame].
Qed.

End drop_ref.

Lemma drop_ref_inv t key l s :
  lk_pos s !! t = Some (Leaving key l) → locks_inv s → locks_inv (drop_ref t key l s).
Proof.
  intros Ht Hi. pose proof (li_entry _ Hi _ _ Ht) as Hkey.
  destruct (li_cell _ Hi _ _ Hkey) as (k & Hk & Hc). cbn in Hk, Hc.
  unfold drop_ref. replace (lk_heap (count_ref l (-1) s) !! l) with (Some (k <| kl_refCount ::= Z.add (-1) |>))
    by (cbn; by rewrite lookup_alter_eq, Hk).
  cbn. destruct (Z.eqb_spec (-1 + kl_refCount k) 0) as [Hz|Hz].
  - apply (drop_last_inv t l key s k); [done..|lia].
  - apply (drop_some_inv t l key s k); [done..|lia].
Qed.

Lemma locks_step_inv s s' : locks_step s s' → locks_inv s → locks_inv s'.
Proof.
  intros [t key s0 Ht|s0 s0' [t key l k s1 Ht Hk Hf|t key l s1 Ht|t key l s1 Ht]] Hi.
  - by apply take_ref_inv.
  - by eapply mu_lock_inv.
  - by apply mu_unlock_inv.
  - by apply drop_ref_inv.
Qed.

Lemma locks_reach_inv s : rtc locks_step NewLocks s → locks_inv s.
Proof.
  assert (∀ s0, locks_inv s0 → rtc locks_step s0 s → locks_inv s) as H.
  { intros s0 H0 Hr. induction Hr as [|s1 s2 s3 Hs _ IH]; [done|]. by eapply IH, locks_step_inv. }
  apply H, locks_inv_new.
Qed.

(** ** Exclusion and progress *)

(** The sections that the goroutines inside have left. *)
Definition weight (p : Position) : nat :=
  match p with Waiting _ _ => 3 | Holding _ _ => 2 | Leaving _ _ => 1 end.

Definition work (s : Locks) : nat := map_fold (λ _ p n, (weight p + n)%nat) 0%nat (lk_pos s).

Lemma work_delete s t p :
  lk_pos s !! t = Some p → work s = (weight p + work (move t None s))%nat.
Proof. intros H. unfold work. rewrite (map_fold_delete_L _ 0%nat t p (lk_pos s)); [done|intros; lia|exact H]. Qed.

Lemma move_none t p s : lk_pos (move t None (move t p s)) = lk_pos (move t None s).
Proof. apply map_eq. intros u. rewrite !lookup_move. by case_decide. Qed.

Lemma lock_step_work s s' : lock_step s s' → work s = S (work s').
Proof.
  assert (∀ t p p' s0 s1, lk_pos s0 = lk_pos s1 → lk_pos s0 !! t = Some p → weight p = S (weight p') →
    work s0 = S (work (move t (Some p') s1))) as Hmove.
  { intros t p p' s0 s1 E Ht Hw. rewrite (work_delete s0 t p Ht), (work_delete (move t (Some p') s1) t p').
    - rewrite Hw. unfold work. rewrite move_none. unfold move. cbn. by rewrite E.
    - by rewrite lookup_move, decide_True. }
  intros [t key l k s0 Ht _ _|t key l s0 Ht|t key l s0 Ht].
  - by apply (Hmove t (Waiting key l)).
  - by apply (Hmove t (Holding key l)).
  - rewrite (work_delete s0 t _ Ht). cbn. f_equal. unfold work, drop_ref. f_equal. cbn. by repeat case_match.
Qed.

Lemma lock_progress s t p : locks_inv s → lk_pos s !! t = Some p → ∃ s', lock_step s s'.
Proof.
  intros Hi Hp. destruct p as [key l|key l|key l]; [|eexists; by constructor..].
  pose proof (li_entry _ Hi _ _ Hp) as Hkey. destruct (li_cell _ Hi _ _ Hkey) as (k & Hk & _ & _ & Hh).
  destruct (kl_mu k) as [u|] eqn:Hmu; [|eexists; by eapply step_lock].
  destruct (proj1 (Hh u) eq_refl) as [key' Hu]. eexists. by apply (step_unlock u).
Qed.

Lemma idle_empty s : locks_inv s → lk_pos s = ∅ → lk_keys s = ∅.
Proof.
  intros Hi Hn. apply map_empty. intros key. apply eq_None_not_Some. intros [l Hl].
  destruct (li_cell _ Hi _ _ Hl) as (k & _ & Hc & Hpos & _).
  assert (users l s = ∅) as Hu. { unfold users. by rewrite Hn, map_filter_empty. }
  rewrite Hu, map_size_empty in Hc. lia.
Qed.

(** C12: In every interleaving of LockInstance and the functions it returns, at
    most one goroutine holds the lock of an instance, although locks are
    allocated and dropped while others wait: no goroutine ever gets a second
    lock for a key in use. *)
Theorem keyed_lock_exclusive s t1 t2 key l1 l2 :
  rtc locks_step NewLocks s →
  lk_pos s !! t1 = Some (Holding key l1) → lk_pos s !! t2 = Some (Holding key l2) → t1 = t2.
Proof.
  intros Hi%locks_reach_inv H1 H2. pose proof (li_entry _ Hi _ _ H1) as E1.
  pose proof (li_entry _ Hi _ _ H2) as E2. cbn in E1, E2. simplify_eq.
  destruct (li_cell _ Hi _ _ E1) as (k & _ & _ & _ & Hh).
  assert (kl_mu k = Some t1) as M1 by (apply Hh; eauto).
  assert (kl_mu k = Some t2) as M2 by (apply Hh; eauto). congruence.
Qed.

(** C37: From every reachable state, the goroutines inside LockInstance and its
    unlock functions can take only a bounded number of steps without a new one
    entering, and when none can step all have left and the map of locks is
    empty: no deadlock and no lock that leaks. *)
Theorem keyed_lock_drains s :
  rtc locks_step NewLocks s →
  (∀ n s', nsteps lock_step n s s' → (n ≤ work s)%nat) ∧
  (∀ s', rtc lock_step s s' → (∀ s'', ¬ lock_step s' s'') → lk_pos s' = ∅ ∧ lk_keys s' = ∅).
Proof.
  intros Hr. split.
  - intros n s' H. clear Hr. induction H as [|n s s1 s2 H _ IH]; [lia|]. apply lock_step_work in H. lia.
  - intros s' Hs Hstuck. assert (locks_inv s') as Hi.
    { apply locks_reach_inv. etransitivity; [exact Hr|]. clear -Hs.
      induction Hs as [|s s1 s2 H _ IH]; [done|]. by eapply rtc_l; [apply step_inside|]. }
    assert (lk_pos s' = ∅) as Hn; [|split; [done|by apply idle_empty]].
    apply map_empty. intros t. apply eq_None_not_Some. intros [p Hp].
    destruct (lock_progress _ _ _ Hi Hp) as [s'' H]. by apply Hstuck in H.
Qed.

(** Two goroutines at one key, and one at another. *)
Definition demo_locks : Locks :=
  mu_lock 2 "b" 1 (mu_lock 0 "a" 0 (take_ref 2 "b" (take_ref 1 "a" (take_ref 0 "a" NewLocks)))).

Lemma demo_locks_reach : rtc locks_step NewLocks demo_locks.
Proof.
  eapply rtc_l; [by apply (step_enter 0 "a")|].
  eapply rtc_l; [by apply (step_enter 1 "a")|].
  eapply rtc_l; [by apply (step_enter 2 "b")|].
  eapply rtc_l; [by apply step_inside, (step_lock 0 "a" 0 (mkKeyedLock None 2))|].
  by apply rtc_once, step_inside, (step_lock 2 "b" 1 (mkKeyedLock None 1)).
Qed.

Lemma keyed_lock_exclusive_witness :
  lk_pos demo_locks !! 0%nat = Some (Holding "a" 0) ∧
  ∀ t l, lk_pos demo_locks !! t = Some (Holding "a" l) → 0%nat = t.
Proof.
  split; [reflexivity|].
  exact (λ t l, keyed_lock_exclusive demo_locks 0 t "a" 0 l demo_locks_reach eq_refl).
Defined.

Lemma keyed_lock_drains_witness :
  work demo_locks = 7%nat ∧ ∀ n s', nsteps lock_step n demo_locks s' → (n ≤ work demo_locks)%nat.
Proof. split; [reflexivity|exact (proj1 (keyed_lock_drains demo_locks demo_locks_reach))]. Defined.
