(* ===== verification/WorkerService.v ===== *)
(** * The worker's RPC service: internal/grpcapi/worker_service.go

    The handlers between the control plane's messages (Fleet.v) and the worker's
    runtime (Runtime.v), with the checks of the caller and of the request. The
    messages of gRPC errors are the class [GRPC]. *)

From stdpp Require Import base option gmap strings list pretty.
From Stdlib Require Import ZArith Lia Ascii.
From S2P Require Import Prelude GoLib GoFloat PtrStore Workers Scheduler LoadBalancer HA Deployments Fleet Platform Demo Runtime RuntimeFacts.

(** The codes of package codes that the handlers use. *)
Inductive Code := PermissionDenied | InvalidArgument | Internal | NotFound.

(** [status.Error(code, msg).Error()], which the caller sees as well, and the
    error of a call to an address where nothing answers; [grpc.NewClient], which
    only looks at the address. *)
Class GRPC := {
  grpc_status : Code → string → error;
  grpc_unreachable : string → error;
  grpc_NewClient : string → option error
}.

Record GetContainerStatusResponse := mkStatusResponse {
  gs_InstanceId : string;
  gs_ContainerId : string;
  gs_Status : string;
  gs_ExitCode : Z;
  gs_Error : string
}.

Record RegisterRequest := mkRegisterRequest {
  rq_WorkerId : string;
  rq_Hostname : string;
  rq_IpAddress : string;
  rq_Capacity : Z;
  rq_Labels : gmap string string
}.

Record RegisterResponse := mkRegisterResponse {
  rp_Success : bool;
  rp_Message : string
}.

(** The incoming metadata of a call, [None] when there is none; its keys are
    in lower case. *)
Abbreviation Metadata := (option (gmap string (list string))) (only parsing).

(** The first error of a loop that returns at an error. *)
Fixpoint first_error {A : Type} (f : A → option error) (l : list A) : option error :=
  match l with
  | [] => None
  | x :: l' => match f x with Some e => Some e | None => first_error f l' end
  end.

(** Sequential checks, each of which returns its error. *)
Definition or_else (e f : option error) : option error :=
  match e with Some _ => e | None => f end.

Infix "|||" := or_else (at level 50, left associativity) : go_scope.

Section handlers.
Context {D : Type} `{!DockerClient D} {ent : Entropy} {uni : Unicode} {grpc : GRPC}.

Abbreviation M := (ST (ContainerOps D)).

(** ** The checks *)

Definition md_get (md : Metadata) (key : string) : list string :=
  match md with Some m => default [] (m !! key) | None => [] end.

Definition build_caller (md : Metadata) : bool :=
  existsb (λ key, existsb (λ v, EqualFold v "build") (md_get md key))
    ["role"; "capability"; "x-nebula-role"; "x-nebula-capability"].

Definition authorizeRuntimeCaller (md : Metadata) : option error :=
  if build_caller md
  then Some (grpc_status PermissionDenied
    "build worker identity is not authorized to invoke container control-path operations (§14, §21.3)")
  else None.

Definition invalid (msg : string) : option error := Some (grpc_status InvalidArgument msg).

Definition check_port (p : PortMapping) : option error :=
  if (pm_HostPort p <? 1) || (65535 <? pm_HostPort p) || (pm_ContainerPort p <? 1) || (65535 <? pm_ContainerPort p)
  then invalid ("port out of range [1-65535]: host_port=" +:+ Itoa (pm_HostPort p)
                +:+ ", container_port=" +:+ Itoa (pm_ContainerPort p))
  else None.

Definition NUL : string := String (ascii_of_nat 0) EmptyString.

(** "$(" or a backquote in the key or the value. *)
Definition injects (k v : string) : bool :=
  Contains v "$(" || Contains v "`" || Contains k "$(" || Contains k "`".

(** [len(v) > 32768]. *)
Definition too_long (v : string) : bool := 32768 <? Z.of_nat (String.length v).

Definition check_env (kv : string * string) : option error :=
  let '(k, v) := kv in
  if String.eqb k "" || Contains k "=" || Contains k NUL
  then invalid ("invalid environment variable key " +:+ Quote k)
  else if too_long v
  then invalid ("environment variable " +:+ Quote k +:+ " exceeds maximum allowed size (32KB)")
  else if injects k v
  then invalid ("shell injection pattern detected in environment variable " +:+ Quote k)
  else None.

Definition check_label (kv : string * string) : option error :=
  let '(k, v) := kv in
  if injects k v then invalid ("shell injection pattern detected in label " +:+ Quote k)
  else if too_long v then invalid ("label " +:+ Quote k +:+ " exceeds maximum allowed size (32KB)")
  else None.

Definition check_image (image : string) : option error :=
  if String.eqb image "" then invalid "image is required"
  else if Contains image ".." || HasPrefix image "/" || HasPrefix image "\"
  then invalid ("invalid image name: path traversal not allowed: " +:+ image)
  else None.

Definition check_instance (instanceID : string) : option error :=
  if String.eqb instanceID "" then invalid "instance_id is required" else None.

(** The maps are visited in the orders [o1] and [o2]. *)
Definition validateRunContainerRequest (o1 o2 : Order) (req : RunContainerRequest) : option error :=
  check_instance (rr_InstanceId req) ||| check_image (rr_Image req)
  ||| first_error check_port (rr_Ports req)
  ||| first_error check_env (map_pairs o1 (rr_Env req))
  ||| first_error check_label (map_pairs o2 (rr_Labels req)).

(** ** The handlers *)

Definition env_line (kv : string * string) : string := kv.1 +:+ "=" +:+ kv.2.

Definition worker_labels (workerKey : string) (labels : gmap string string) : gmap string string :=
  if decide (workerKey = "") then labels else <["nebula.worker_key" := workerKey]> labels.

Definition request_cmd (labels : gmap string string) : list string :=
  let cmdStr := lookup_str labels "nebula.cmd" in
  if decide (cmdStr = "") then [] else Fields cmdStr.

Definition run_options (workerKey : string) (o : Order) (req : RunContainerRequest) : RunOptions :=
  mkRunOptions (rr_InstanceId req) (rr_DeploymentId req) (rr_Image req) (request_cmd (rr_Labels req))
    (env_line <$> map_pairs o (rr_Env req)) (rr_Ports req) (worker_labels workerKey (rr_Labels req))
    (rr_CpuLimit req) (rr_MemoryLimitMb req).

Definition rpc_RunContainer (workerKey : string) (md : Metadata) (req : RunContainerRequest) :
    M (error + RunContainerResponse) :=
  match authorizeRuntimeCaller md with
  | Some err => ret (inl err)
  | None =>
    let! o1 := op_order in
    let! o2 := op_order in
    match validateRunContainerRequest o1 o2 req with
    | Some err => ret (inl err)
    | None =>
      let! o3 := op_order in
      let! ' (result, err) := RunContainer (run_options workerKey o3 req) in
      match err, result with
      | Some err, _ =>
        let containerID := match result with Some r => rn_ContainerID r | None => "" end in
        ret (inr (mkRunResponse (rr_InstanceId req) containerID "FAILED" err false))
      | None, Some r => ret (inr (mkRunResponse (rn_InstanceID r) (rn_ContainerID r) (rn_Status r) "" (rn_IsDuplicate r)))
      | None, None => ret (inl "nil result") (* not reached: [run_outcome] *)
      end
    end
  end.

Definition rpc_StopContainer (md : Metadata) (req : StopContainerRequest) :
    M (error + StopContainerResponse) :=
  match authorizeRuntimeCaller md with
  | Some err => ret (inl err)
  | None =>
    match check_instance (sq_InstanceId req) with
    | Some err => ret (inl err)
    | None =>
      let! ' (res, err) := StopContainer (sq_InstanceId req) (int64 (sq_TimeoutSeconds req * Second)) in
      match err, res with
      | Some err, _ => ret (inr (mkStopResponse (sq_InstanceId req) false err))
      | None, Some r => ret (inr (mkStopResponse (st_InstanceID r) (st_Success r) ""))
      | None, None => ret (inl "nil result") (* not reached: [stop_outcome] *)
      end
    end
  end.

Definition rpc_GetContainerStatus (instanceID : string) : M (error + GetContainerStatusResponse) :=
  match check_instance instanceID with
  | Some err => ret (inl err)
  | None =>
    let! ' (res, err) := GetContainerStatus instanceID in
    match err, res with
    | Some err, _ => ret (inl (grpc_status Internal ("failed to get container status: " +:+ err)))
    | None, Some r => ret (inr (mkStatusResponse (sr_InstanceID r) (sr_ContainerID r) (sr_Status r)
                                  (int32 (sr_ExitCode r)) (sr_Error r)))
    | None, None => ret (inl "nil result") (* not reached: the result is set when the error is nil *)
    end
  end.

(** [t.Unix()], the seconds since 1970. *)
Definition to_Unix (t : Time) : Z := t / Second - 62135596800.

(** A container of another worker on the same engine. *)
Definition foreign (workerKey : string) (sum : ContainerSummary) : bool :=
  bool_decide (workerKey ≠ "") &&
  match cs_Labels sum !! "nebula.worker_key" with
  | Some owner => bool_decide (owner ≠ workerKey)
  | None => false
  end.

Definition summary_info (sum : ContainerSummary) : ContainerInfo :=
  mkContainerInfo (if decide (cs_InstanceID sum = "") then lookup_str (cs_Labels sum) "nebula.instance_id"
                   else cs_InstanceID sum)
    (cs_ID sum) (cs_Image sum) (cs_State sum) (cs_Labels sum) (to_Unix (cs_CreatedAt sum)).

Definition record_info (rec : InstanceRecord) : ContainerInfo :=
  mkContainerInfo (nr_InstanceID rec) (nr_ContainerID rec) (nr_Image rec) (state_string (nr_State rec))
    (nr_Labels rec) (to_Unix (nr_CreatedAt rec)).

(** The engine's containers, or the tracked ones when the engine fails. *)
Definition rpc_ListContainers (workerKey : string) (md : Metadata) : M (error + list ContainerInfo) :=
  match authorizeRuntimeCaller md with
  | Some err => ret (inl err)
  | None =>
    let! o := op_order in
    let! r := on_docker (dc_ListContainers o) in
    match r with
    | inr summaries =>
      ret (inr (summary_info <$> base.filter (λ sum, foreign workerKey sum = false) summaries))
    | inl _ =>
      let! records := ListContainers in
      ret (inr (record_info <$> records))
    end
  end.

Definition rpc_Register (req : RegisterRequest) : M (error + RegisterResponse) :=
  ret (inr (mkRegisterResponse true ("worker " +:+ rq_WorkerId req +:+ " registered successfully"))).

End handlers.

(** ** What a request that is let through satisfies *)

Definition env_ok (k v : string) : Prop :=
  k ≠ "" ∧ str_free "=" k = true ∧ Contains k NUL = false ∧ Z.of_nat (String.length v) ≤ 32768 ∧ injects k v = false.

Definition label_ok (k v : string) : Prop :=
  Z.of_nat (String.length v) ≤ 32768 ∧ injects k v = false.

Definition port_ok (p : PortMapping) : Prop := 1 ≤ pm_HostPort p ≤ 65535 ∧ 1 ≤ pm_ContainerPort p ≤ 65535.

Record valid_request (req : RunContainerRequest) : Prop := {
  vr_instance : rr_InstanceId req ≠ "";
  vr_image : rr_Image req ≠ "" ∧ Contains (rr_Image req) ".." = false
    ∧ HasPrefix (rr_Image req) "/" = false ∧ HasPrefix (rr_Image req) "\" = false;
  vr_ports : ∀ p, p ∈ rr_Ports req → port_ok p;
  vr_env : ∀ k v, rr_Env req !! k = Some v → env_ok k v;
  vr_labels : ∀ k v, rr_Labels req !! k = Some v → label_ok k v
}.

Section checks.
Context {uni : Unicode} {grpc : GRPC}.

(** Every error of the checks has the code InvalidArgument. *)
Definition argument_error (e : option error) : Prop :=
  match e with Some m => ∃ msg, m = grpc_status InvalidArgument msg | None => True end.

Lemma or_else_none (e f : option error) : e ||| f = None ↔ e = None ∧ f = None.
Proof. destruct e; cbn; naive_solver. Qed.

Lemma or_else_error (e f : option error) : argument_error e → argument_error f → argument_error (e ||| f).
Proof. by destruct e. Qed.

Lemma first_error_none {A} (f : A → option error) l : first_error f l = None ↔ ∀ x, x ∈ l → f x = None.
Proof.
  induction l as [|x l IH]; cbn; [set_solver|]. destruct (f x) eqn:E.
  - split; [done|]. intros H. rewrite H in E; [done|left].
  - rewrite IH. split; [|set_solver]. intros H y Hy. apply elem_of_cons in Hy as [->|Hy]; auto.
Qed.

Lemma first_error_error {A} (f : A → option error) l :
  (∀ x, argument_error (f x)) → argument_error (first_error f l).
Proof. intros H. induction l as [|x l IH]; cbn; [done|]. specialize (H x). by destruct (f x). Qed.

Lemma first_error_map (f : string * string → option error) (P : string → string → Prop) o (m : gmap string string) :
  (∀ k v, f (k, v) = None ↔ P k v) →
  first_error f (map_pairs o m) = None ↔ ∀ k v, m !! k = Some v → P k v.
Proof.
  intros H. rewrite first_error_none. split.
  - intros Hl k v Hm. by apply H, Hl, elem_of_map_pairs.
  - intros Hm [k v] Hl%elem_of_map_pairs. by apply H, Hm.
Qed.

Lemma check_instance_none i : check_instance i = None ↔ i ≠ "".
Proof. unfold check_instance. destruct (String.eqb_spec i ""); naive_solver. Qed.

Lemma check_image_none i :
  check_image i = None ↔ i ≠ "" ∧ Contains i ".." = false ∧ HasPrefix i "/" = false ∧ HasPrefix i "\" = false.
Proof.
  unfold check_image. destruct (String.eqb_spec i ""); [naive_solver|].
  destruct (Contains i ".."), (HasPrefix i "/"), (HasPrefix i "\"); cbn; naive_solver.
Qed.

Lemma check_port_none p : check_port p = None ↔ port_ok p.
Proof.
  unfold check_port, port_ok.
  destruct (Z.ltb_spec (pm_HostPort p) 1), (Z.ltb_spec 65535 (pm_HostPort p)),
    (Z.ltb_spec (pm_ContainerPort p) 1), (Z.ltb_spec 65535 (pm_ContainerPort p)); cbn;
    split; intros ?; done || lia.
Qed.

Lemma check_env_none k v : check_env (k, v) = None ↔ env_ok k v.
Proof.
  unfold check_env, env_ok, too_long. rewrite Contains_char.
  destruct (String.eqb_spec k ""); [naive_solver|]. destruct (str_free "=" k); [|cbn; naive_solver].
  destruct (Contains k NUL); [cbn; naive_solver|]. cbn.
  destruct (Z.ltb_spec 32768 (Z.of_nat (String.length v))); [split; [done|lia]|].
  destruct (injects k v); naive_solver.
Qed.

Lemma check_label_none k v : check_label (k, v) = None ↔ label_ok k v.
Proof.
  unfold check_label, label_ok, too_long. destruct (injects k v); [naive_solver|].
  destruct (Z.ltb_spec 32768 (Z.of_nat (String.length v))); [split; [done|lia]|naive_solver].
Qed.

Lemma validate_none o1 o2 req : validateRunContainerRequest o1 o2 req = None ↔ valid_request req.
Proof.
  unfold validateRunContainerRequest.
  rewrite !or_else_none, check_instance_none, check_image_none, first_error_none.
  setoid_rewrite check_port_none.
  rewrite (first_error_map _ _ _ _ check_env_none), (first_error_map _ _ _ _ check_label_none).
  split; [by intros [[[[]]]]|intros []; tauto].
Qed.

Lemma invalid_error msg : argument_error (invalid msg).
Proof. by exists msg. Qed.

Lemma validate_error o1 o2 req : argument_error (validateRunContainerRequest o1 o2 req).
Proof.
  unfold validateRunContainerRequest. repeat apply or_else_error; try apply first_error_error; intros *;
    unfold check_instance, check_image, check_port, check_env, check_label;
    repeat case_match; exact I || apply invalid_error.
Qed.

(** The environment of a container, read from its lines as the system does. *)
Definition read_env (lines : list string) : gmap string string :=
  list_to_map ((λ line, (Cut line "=").1) <$> lines).

Lemma Cut_env_line k v : str_free "=" k = true → Cut (env_line (k, v)) "=" = (k, v, true).
Proof. apply Cut_sep. Qed.

Lemma read_env_lines o (m : gmap string string) :
  (∀ k v, m !! k = Some v → str_free "=" k = true) → read_env (env_line <$> map_pairs o m) = m.
Proof.
  intros H. unfold read_env. rewrite <- list_fmap_compose.
  rewrite (list_fmap_ext _ id).
  - rewrite list_fmap_id. transitivity (list_to_map (map_to_list m) : gmap string string); [|apply list_to_map_to_list].
    apply list_to_map_proper; [|apply permute_perm].
    unfold map_pairs. rewrite permute_perm. apply NoDup_fst_map_to_list.
  - intros i [k v] Hi%list_elem_of_lookup_2%elem_of_map_pairs. cbn [compose].
    rewrite Cut_env_line; [done|by eapply H].
Qed.

End checks.

(** ** What a call of RunContainer does *)

Section outcome.
Context {D : Type} `{!DockerClient D, !ContainerEngine D} {ent : Entropy} {uni : Unicode} {grpc : GRPC}.
Implicit Types o : ContainerOps D.

(** The node but for the draws of the clock and of map orders. *)
Definition same_node o o' : Prop :=
  op_client o' = op_client o ∧ op_tracker o' = op_tracker o ∧ op_verifier o' = op_verifier o.

(** The reply to the runtime's answer. *)
Definition run_reply (req : RunContainerRequest) (r : option RunResult * option error)
    (resp : RunContainerResponse) : Prop :=
  rs_InstanceId resp = rr_InstanceId req ∧ rs_Error resp = default "" r.2 ∧
  (rs_Status resp = "FAILED" ↔ is_Some r.2) ∧ ∃ res, r.1 = Some res ∧ rs_ContainerId resp = rn_ContainerID res.

Inductive rpc_run_outcome (key : string) (md : Metadata) (req : RunContainerRequest) o :
    error + RunContainerResponse → ContainerOps D → Prop :=
| rpc_denied msg :
    build_caller md = true → rpc_run_outcome key md req o (inl (grpc_status PermissionDenied msg)) o
| rpc_invalid msg o' :
    build_caller md = false → ¬ valid_request req → same_node o o' →
    rpc_run_outcome key md req o (inl (grpc_status InvalidArgument msg)) o'
| rpc_served order o1 r o' resp :
    build_caller md = false → valid_request req → same_node o o1 →
    run_outcome (run_options key order req) o1 r o' → run_reply req r resp →
    rpc_run_outcome key md req o (inr resp) o'.

(** The result is there, and failed with an error only. *)
Lemma run_outcome_reply opts o r o' :
  run_outcome opts o r o' → ro_InstanceID opts ≠ "" →
  ∃ res, r.1 = Some res ∧ rn_InstanceID res = ro_InstanceID opts ∧ (r.2 = None → rn_Status res ≠ "FAILED").
Proof.
  intros [Hi|rec Hi Hl Hu|err rec o1 _ _ _ _ _|err rec o1 _ _ _ _ _ _|rec o1 _ _ _ _ _ _ _ _] Hne; [done| | | |];
    eexists; split_and!; try done.
  intros _. cbn. unfold is_up in Hu. by destruct (nr_State rec).
Qed.

Lemma wp_rpc_RunContainer key md req o :
  engine_ok o → wp (rpc_RunContainer key md req) (rpc_run_outcome key md req o) o.
Proof.
  intros Ho. unfold rpc_RunContainer, authorizeRuntimeCaller.
  destruct (build_caller md) eqn:Hb; [by apply wp_ret, rpc_denied|].
  apply wp_bind. unfold wp at 1. cbn. apply wp_bind. unfold wp at 1. cbn.
  set (o1 := _ <| op_tick ::= S |>).
  destruct (validateRunContainerRequest _ _ req) as [m|] eqn:Hv.
  - pose proof (validate_error (order_at (op_tick o)) (order_at (S (op_tick o))) req) as He. rewrite Hv in He.
    destruct He as [msg ->]. apply wp_ret, rpc_invalid; [done| |done].
    intros Hr%(validate_none (order_at (op_tick o)) (order_at (S (op_tick o)))). congruence.
  - apply validate_none in Hv. apply wp_bind. unfold wp at 1. cbn. set (o2 := _ <| op_tick ::= S |>).
    set (opts := run_options _ _ _). apply wp_bind. eapply wp_wand; [apply (wp_run_container opts o2 Ho)|].
    intros [res err] o' H. destruct (run_outcome_reply _ _ _ _ H (vr_instance _ Hv)) as (res' & E & Hid & Hst).
    cbn in E, Hst. subst res. destruct err as [err|]; apply wp_ret.
    + apply (rpc_served _ _ _ _ (order_at (op_tick o1)) o2 (Some res', Some err)); [done..|].
      repeat split; [eauto|]. by exists res'.
    + apply (rpc_served _ _ _ _ (order_at (op_tick o1)) o2 (Some res', None)); [done..|].
      split_and!; [done|done|split; [by intros ?%Hst|by intros []]|]. by exists res'.
Qed.

(** C19: A RunContainer call answers PermissionDenied to a caller with a build
    role and InvalidArgument exactly to a request that breaks one of the rules
    on its identifier, image, ports, environment or labels, and neither touches
    the runtime; every other request is served: the runtime runs it as
    RunContainer promises, and the reply has status FAILED exactly when there
    was an error, with its message. *)
Theorem rpc_RunContainer_outcome key md req o :
  engine_ok o →
  rpc_run_outcome key md req o (rpc_RunContainer key md req o).1 (rpc_RunContainer key md req o).2.
Proof. apply wp_rpc_RunContainer. Qed.

(** The environment of a request that passes validation survives its encoding as
    KEY=value lines, in whatever order the map is visited: reading the lines
    back gives the map of the request. *)
Theorem env_roundtrip key order req :
  valid_request req → read_env (ro_Env (run_options key order req)) = rr_Env req.
Proof. intros Hv. apply read_env_lines. intros k v Hkv. by destruct (vr_env _ Hv k v Hkv) as (_ & H & _). Qed.

End outcome.
