(* ===== verification/RuntimeFleet.v ===== *)
(** * A fleet of worker runtimes: the control plane on the real runtime

    GRPCWorkerClientFactory (deployments/service.go, lines 38 to 74) connects
    the control plane to the service of every worker (WorkerService.v). The
    fleet of nodes is an instance of [WorkerClientFactory], so that the control
    plane's operations run on it as they run on the in-memory fleet; the
    examples at the end show where the two differ. *)

From stdpp Require Import base option gmap strings list pretty.
From Stdlib Require Import ZArith Lia.
From S2P Require Import Prelude GoLib GoFloat PtrStore Workers Scheduler LoadBalancer Discovery HA Deployments Fleet Platform Service Scaling Demo ServiceTheorems Diff Repair Reconcile Convergence Runtime RuntimeFacts WorkerService.

(** A worker's process, with the key of its service. *)
Record Node (D : Type) := mkNode {
  nd_ops : ContainerOps D;
  nd_key : string
}.
Arguments mkNode {D} _ _.
Arguments nd_ops {D} _.
Arguments nd_key {D} _.

(** The nodes that answer, by address. *)
Record RuntimeFleet (D : Type) := mkFleet { rf_nodes : gmap string (Node D) }.
Arguments mkFleet {D} _.
Arguments rf_nodes {D} _.

Section fleet.
Context {D : Type} `{!DockerClient D} {ent : Entropy} {uni : Unicode} {grpc : GRPC}.

(** The connections that are kept are as new ones. *)
Definition grpc_GetClient (w : Worker) (f : RuntimeFleet D) : option error * RuntimeFleet D :=
  (if decide (Address w = "") then Some "worker has empty address"
   else match grpc_NewClient (Address w) with
        | Some err => Some ("failed to dial worker at " +:+ Address w +:+ ": " +:+ err)
        | None => None
        end, f).

(** A call of the service at the worker's address, without metadata. *)
Definition call_node {A} (w : Worker) (handler : string → ST (ContainerOps D) (error + A))
    (f : RuntimeFleet D) : (error + A) * RuntimeFleet D :=
  match rf_nodes f !! Address w with
  | None => (inl (grpc_unreachable (Address w)), f)
  | Some node =>
    let '(a, ops) := handler (nd_key node) (nd_ops node) in
    (a, mkFleet (<[Address w := mkNode ops (nd_key node)]> (rf_nodes f)))
  end.

#[export] Instance runtime_fleet : WorkerClientFactory (RuntimeFleet D) := {
  wc_GetClient := grpc_GetClient;
  wc_RunContainer w req := call_node w (λ key, rpc_RunContainer key None req);
  wc_StopContainer w req := call_node w (λ key, rpc_StopContainer None req);
  wc_ListContainers w := call_node w (λ key, rpc_ListContainers key None)
}.

End fleet.

(** ** The demo deployment on a runtime *)

#[local] Existing Instance demo_entropy.
#[local] Existing Instance amd64.
#[local] Existing Instance demo_entropy_laws.
#[local] Existing Instance demo_url.
#[local] Existing Instance demo_externals.
#[local] Existing Instance unicode_none.

Definition demo_grpc : GRPC := {|
  grpc_status c msg := match c with
                       | PermissionDenied => "PermissionDenied: " | InvalidArgument => "InvalidArgument: "
                       | Internal => "Internal: " | NotFound => "NotFound: " end +:+ msg;
  grpc_unreachable a := "Unavailable: " +:+ a;
  grpc_NewClient a := None
|}.

#[local] Existing Instance demo_grpc.

Abbreviation NodeSys :=
  (Sys MemoryDeploymentRepository MemoryInstanceRepository MemoryWorkerRepository
     (RuntimeFleet MockDockerClient) unit).

Definition demo_nodes : RuntimeFleet MockDockerClient :=
  mkFleet ((λ _, mkNode demo_ops "") <$>
    list_to_map ((λ w, (Address w, tt)) <$> List order_id demo_registry)).

Definition demo_node_sys : NodeSys :=
  mkSys 0 NewMemoryDeploymentRepository NewMemoryInstanceRepository ∅ [] demo_registry
    NewRouter None demo_nodes tt.

Definition node_created : NodeSys := (CreateAndDeploy demo_create demo_node_sys).2.

(** The containers of every node, with their states. *)
Definition containers (s : NodeSys) : list (list (string * string)) :=
  (λ n, (λ c, (mc_InstanceID c, mc_State c)) <$> (map_to_list (md_containers (op_client (nd_ops n)))).*2)
    <$> (map_to_list (rf_nodes (s_fleet s))).*2.
Definition node_reconciler (s : NodeSys) : RecSys _ _ _ _ _ :=
  mkRec s (Some (NewServiceRegistry (Some NewRouter))) true.

Definition actions (stopped recreated : Z) : error + ReconcileActions := inr (mkActions recreated stopped 0 0 []).

(** Two passes, with the containers after each. *)
Definition two_passes (s : NodeSys) :=
  let '(r1, t1) := ReconcileOnce (node_reconciler s) in
  let '(r2, t2) := ReconcileOnce t1 in
  ((r1, containers (rc_sys t1)), (r2, containers (rc_sys t2))).

Example node_create_runs :
  (λ r : Outcome, (d_Status <$> r.1.1, length r.1.2, r.2)) (CreateAndDeploy demo_create demo_node_sys).1
    = (Some StatusRunning, 2%nat, None)
  ∧ containers node_created = [[("inst-uuid-000-0", "running"); ("inst-uuid-000-1", "running")]]
  ∧ (ReconcileOnce (node_reconciler node_created)).1 = actions 0 0.
Proof. vm_compute. done. Qed.

(** The agent lists stopped containers and removes none, so a deployment that
    was scaled down has one stopped again by every pass: the reconciler does
    not come to rest. *)
Example stopped_again :
  let s := (ScaleDeployment demo_id 1 node_created).2 in
  let c := [[("inst-uuid-000-0", "stopped"); ("inst-uuid-000-1", "running")]] in
  containers s = c ∧ two_passes s = ((actions 1 0, c), (actions 1 0, c)).
Proof. vm_compute. done. Qed.

(** Containers that crash are replaced by the next pass, since it has their
    instances stopped first; the pass after it finds the crashed ones again,
    has their instances stopped, and so stops the replacements. *)
Example crash_flaps :
  let crash f := mkFleet ((λ n, mkNode ((nd_ops n) <| op_client ::= crash_all |>) (nd_key n)) <$> rf_nodes f) in
  let s := node_created <| s_fleet ::= crash |> in
  containers s = [[("inst-uuid-000-0", "exited"); ("inst-uuid-000-1", "exited")]] ∧
  two_passes s =
    ((actions 2 2, [[("inst-uuid-000-1", "running"); ("inst-uuid-000-0", "stopped");
                     ("inst-uuid-000-1", "stopped"); ("inst-uuid-000-0", "running")]]),
     (actions 2 0, [[("inst-uuid-000-1", "stopped"); ("inst-uuid-000-0", "stopped");
                     ("inst-uuid-000-1", "stopped"); ("inst-uuid-000-0", "stopped")]])).
Proof. vm_compute. done. Qed.

(** After its agent was restarted, the containers of a stopped deployment go on
    running, and every pass reports that it has stopped them. *)
Example restart_leaks :
  let restart f := mkFleet ((λ n, mkNode (NewContainerOps (op_client (nd_ops n)) NewInstanceTracker) (nd_key n))
                              <$> rf_nodes f) in
  let s := (StopDeployment demo_id (node_created <| s_fleet ::= restart |>)).2 in
  let c := [[("inst-uuid-000-0", "running"); ("inst-uuid-000-1", "running")]] in
  containers s = c ∧ two_passes s = ((actions 2 0, c), (actions 2 0, c)).
Proof. vm_compute. done. Qed.

(** ** One request, served by a worker whose runtime has run *)

Definition demo_request : RunContainerRequest :=
  mkRunRequest "i2" "d1" "app:1" {["A" := "1=2"; "B" := "x"]} ∅ [mkPortMapping 8080 80 "tcp"]
    (float_of_int 2) 256.

Lemma demo_request_valid : valid_request demo_request.
Proof. apply (validate_none order_id order_id). vm_compute. reflexivity. Qed.

Lemma rpc_RunContainer_outcome_witness :
  engine_ok demo_running ∧
  rpc_run_outcome "w1" None demo_request demo_running
    (rpc_RunContainer "w1" None demo_request demo_running).1 (rpc_RunContainer "w1" None demo_request demo_running).2 ∧
  match (rpc_RunContainer "w1" None demo_request demo_running).1 with
  | inr resp => rs_Status resp = "RUNNING" | inl _ => False end.
Proof.
  assert (engine_ok demo_running) as H by apply demo_running_inv.
  split; [exact H|]. split; [exact (rpc_RunContainer_outcome "w1" None demo_request demo_running H)|].
  vm_compute. reflexivity.
Defined.

Lemma env_roundtrip_witness :
  valid_request demo_request ∧
  read_env (ro_Env (run_options "w1" order_id demo_request)) = {["A" := "1=2"; "B" := "x"]}.
Proof.
  split; [exact demo_request_valid|].
  exact (env_roundtrip "w1" order_id demo_request demo_request_valid).
Defined.
