(* ===== verification/Projects.v ===== *)
(** * Projects: internal/projects/projects.go

    The in-memory project repository, its two maps to shared records, and the
    agreement of the two ways to find a project. *)

From stdpp Require Import base option gmap strings list.
From Stdlib Require Import ZArith Lia.
From S2P Require Import Prelude GoLib PtrStore.

Record Project := mkProject {
  p_ID : string;
  p_Name : string;
  p_Description : string;
  p_RepoURL : string;
  p_DefaultBranch : string;
  p_RootDir : string;
  p_WebhookSecret : string;
  p_DesiredReplicas : Z;
  p_MinReplicas : Z;
  p_MaxReplicas : Z;
  p_CreatedAt : Time;
  p_UpdatedAt : Time
}.

#[export] Instance Project_eta : Settable Project := λ p,
  mkProject (p_ID p) (p_Name p) (p_Description p) (p_RepoURL p) (p_DefaultBranch p) (p_RootDir p)
    (p_WebhookSecret p) (p_DesiredReplicas p) (p_MinReplicas p) (p_MaxReplicas p)
    (p_CreatedAt p) (p_UpdatedAt p).

Definition ErrProjectNotFound : error := "project not found".

(** The operations of the interface that the control plane calls. *)
Class ProjectRepository (PR : Type) := {
  pr_Create : Time → Project → PR → option error * Project * PR;
  pr_GetByID : string → PR → error + Project;
  pr_GetByName : string → PR → error + Project;
  pr_List : Order → PR → error + list Project;
  pr_UpdateScale : Time → string → Z → Z → Z → PR → option error * PR
}.

(** [projects] is the primary map and [byName] the index. *)
Definition MemoryProjectRepository : Type := Store Project.

Definition NewMemoryProjectRepository : MemoryProjectRepository := st_empty.

Definition or_default (n dflt : Z) : Z := if n <=? 0 then dflt else n.

(** The record [Create] stores. *)
Definition new_project (now : Time) (p : Project) : Project :=
  p <| p_DesiredReplicas ::= λ n, or_default n 1 |>
    <| p_MinReplicas ::= λ n, or_default n 1 |>
    <| p_MaxReplicas ::= λ n, or_default n 10 |>
    <| p_CreatedAt := now |> <| p_UpdatedAt := now |>.

Definition if_positive (n old : Z) : Z := if 0 <? n then n else old.

(** The record [UpdateScale] stores. *)
Definition rescaled (now : Time) (desired min max : Z) (p : Project) : Project :=
  p <| p_DesiredReplicas ::= if_positive desired |>
    <| p_MinReplicas ::= if_positive min |>
    <| p_MaxReplicas ::= if_positive max |> <| p_UpdatedAt := now |>.

Section memory.
Implicit Types r : MemoryProjectRepository.

Definition mpr_Create (now : Time) (p : Project) r : option error * Project * MemoryProjectRepository :=
  if decide (p_Name p = "") then (Some "project name is required", p, r)
  else match st_sec r !! p_Name p with
  | Some _ => (Some "project name already exists", p, r)
  | None => let p := new_project now p in (None, p, st_insert (p_ID p) (p_Name p) p r)
  end.

(** The record is written in place and then replaced by a clone of itself. *)
Definition mpr_UpdateScale (now : Time) (id : string) (desired min max : Z) r :
    option error * MemoryProjectRepository :=
  match st_pri r !! id ≫= λ l, (l,.) <$> st_heap r !! l with
  | None => (Some ErrProjectNotFound, r)
  | Some (l, p) =>
    let p := rescaled now desired min max p in
    let r := st_write l p r in
    (None, if decide (p_Name p = "") then link_pri id (st_next r) (st_alloc p r)
           else st_insert id (p_Name p) p r)
  end.

Definition mpr_GetByID (id : string) r : error + Project :=
  match get_pri id r with Some p => inr p | None => inl ErrProjectNotFound end.

Definition mpr_GetByName (name : string) r : error + Project :=
  match get_sec name r with Some p => inr p | None => inl ErrProjectNotFound end.

Definition mpr_List (o : Order) r : error + list Project := inr (map_values o (pri_view r)).

Definition mpr_Wipe r : MemoryProjectRepository := st_empty.

End memory.

#[export] Instance memory_project_repository : ProjectRepository MemoryProjectRepository := {
  pr_Create := mpr_Create;
  pr_GetByID := mpr_GetByID;
  pr_GetByName := mpr_GetByName;
  pr_List := mpr_List;
  pr_UpdateScale := mpr_UpdateScale
}.

(** ** The invariant *)

Definition project_ok (p : Project) : Prop :=
  p_Name p ≠ "" ∧ 0 < p_DesiredReplicas p ∧ 0 < p_MinReplicas p ∧ 0 < p_MaxReplicas p.

(** Both maps lead to the same record. *)
Record proj_inv (r : MemoryProjectRepository) : Prop := {
  pi_wf : st_wf r;
  pi_pri : ∀ id l, st_pri r !! id = Some l →
    ∃ p, st_heap r !! l = Some p ∧ p_ID p = id ∧ project_ok p ∧ st_sec r !! p_Name p = Some l;
  pi_sec : ∀ name l, st_sec r !! name = Some l →
    ∃ p, st_heap r !! l = Some p ∧ p_Name p = name ∧ st_pri r !! p_ID p = Some l
}.

Lemma proj_inv_empty : proj_inv st_empty.
Proof. split; [apply st_wf_empty|intros *; cbn; by rewrite lookup_empty..]. Qed.

(** A record linked under its identifier and its name keeps the maps in
    agreement when whatever these led to before was the same project. *)
Lemma proj_inv_insert r p :
  proj_inv r → project_ok p →
  (∀ l q, st_pri r !! p_ID p = Some l → st_heap r !! l = Some q → p_Name q = p_Name p) →
  (∀ l q, st_sec r !! p_Name p = Some l → st_heap r !! l = Some q → p_ID q = p_ID p) →
  proj_inv (st_insert (p_ID p) (p_Name p) p r).
Proof.
  intros [Hw Hp Hs] Hok H1 H2. split; [by apply st_wf_insert|..].
  - intros id l. cbn. rewrite lookup_insert. destruct (decide (p_ID p = id)) as [<-|Hne].
    + intros [= <-]. exists p. by rewrite !lookup_insert_eq.
    + intros Hl. destruct (Hp id l Hl) as (q & Hq & <- & Hqok & Hqs). exists q.
      rewrite lookup_insert_ne by (intros <-; by rewrite wf_fresh in Hq).
      rewrite lookup_insert_ne; [done|]. intros E. rewrite <- E in Hqs. by destruct Hne; symmetry; eapply H2.
  - intros name l. cbn. rewrite lookup_insert. destruct (decide (p_Name p = name)) as [<-|Hne].
    + intros [= <-]. exists p. by rewrite !lookup_insert_eq.
    + intros Hl. destruct (Hs name l Hl) as (q & Hq & <- & Hqp). exists q.
      rewrite lookup_insert_ne by (intros <-; by rewrite wf_fresh in Hq).
      rewrite lookup_insert_ne; [done|]. intros E. rewrite <- E in Hqp. by destruct Hne; symmetry; eapply H1.
Qed.

Lemma proj_inv_Create now p r :
  proj_inv r → st_pri r !! p_ID p = None → proj_inv (mpr_Create now p r).2.
Proof.
  intros H Hf. unfold mpr_Create. destruct (decide (p_Name p = "")) as [|Hn]; [done|].
  destruct (st_sec r !! p_Name p) as [|] eqn:Es; [done|].
  apply (proj_inv_insert r (new_project now p)); [done| |cbn; congruence..].
  unfold project_ok. cbn. unfold or_default. repeat case_match; split_and!; (done || lia).
Qed.

Lemma proj_inv_UpdateScale now id d mn mx r :
  proj_inv r → proj_inv (mpr_UpdateScale now id d mn mx r).2.
Proof.
  intros H. unfold mpr_UpdateScale. destruct (st_pri r !! id) as [l|] eqn:El; [|done]. cbn.
  destruct (pi_pri r H id l El) as (p & Hp & <- & (Hn & H1 & H2 & H3) & Hs). rewrite Hp. cbn.
  rewrite decide_False by done.
  set (p' := rescaled now d mn mx p).
  assert (project_ok p') as Hok'.
  { unfold project_ok. cbn. unfold if_positive. repeat case_match; split_and!; (done || lia). }
  assert (∀ k, k ≠ l → st_heap (st_write l p' r) !! k = st_heap r !! k) as Hk
    by (intros; by apply lookup_insert_ne).
  pose proof (heap_write r l p') as Hl.
  apply (proj_inv_insert (st_write l p' r) p').
  - destruct H as [Hw Hpri Hsec]. split; [apply st_wf_write; eauto|..].
    + intros id' l' Hl'. destruct (decide (l' = l)) as [->|Hne].
      * exists p'. rewrite Hl. split_and!; [done| |done|done]. by eapply (wf_inj r Hw).
      * rewrite Hk by done. by apply Hpri.
    + intros name l' Hl'. destruct (decide (l' = l)) as [->|Hne].
      * exists p'. rewrite Hl. split_and!; [done| |done]. cbn in Hl'.
        destruct (Hsec name l Hl') as (q & Hq & <- & _). change (p_Name p = p_Name q). congruence.
      * rewrite Hk by done. by apply Hsec.
  - done.
  - intros l' q Hl' Hq. cbn in Hl'. rewrite El in Hl'. injection Hl' as <-. congruence.
  - intros l' q Hl' Hq. cbn in Hl'. rewrite Hs in Hl'. injection Hl' as <-. congruence.
Qed.

(** A repository that was filled by its operations: new projects come with new
    identifiers. *)
Inductive proj_reachable : MemoryProjectRepository → Prop :=
| pr_empty : proj_reachable st_empty
| pr_create now p r : proj_reachable r → mpr_GetByID (p_ID p) r = inl ErrProjectNotFound →
    proj_reachable (mpr_Create now p r).2
| pr_scale now id d mn mx r : proj_reachable r → proj_reachable (mpr_UpdateScale now id d mn mx r).2
| pr_wipe r : proj_reachable r → proj_reachable (mpr_Wipe r).

Lemma proj_reachable_inv r : proj_reachable r → proj_inv r.
Proof.
  induction 1 as [|now p r Hr IH Hf|now id d mn mx r Hr IH|r Hr IH].
  - apply proj_inv_empty.
  - apply proj_inv_Create; [done|]. apply get_pri_None; [apply IH|].
    unfold mpr_GetByID in Hf. by destruct (get_pri (p_ID p) r).
  - by apply proj_inv_UpdateScale.
  - apply proj_inv_empty.
Qed.

(** In every project repository reached by its operations, where new projects
    come with new identifiers, the lookups by name and by identifier find the
    same records, with a name and positive replica numbers, and UpdateScale
    succeeds on a known project with the record found afterwards being the
    rescaled one. *)
Theorem project_lookups_agree (r : MemoryProjectRepository) :
  proj_reachable r →
  (∀ name p, mpr_GetByName name r = inr p → p_Name p = name ∧ mpr_GetByID (p_ID p) r = inr p)
  ∧ (∀ id p, mpr_GetByID id r = inr p → p_ID p = id ∧ mpr_GetByName (p_Name p) r = inr p ∧ project_ok p)
  ∧ (∀ id now d mn mx p, mpr_GetByID id r = inr p →
       let '(err, r') := mpr_UpdateScale now id d mn mx r in
       err = None ∧ mpr_GetByID id r' = inr (rescaled now d mn mx p)).
Proof.
  intros H%proj_reachable_inv. split; [|split].
  - intros name p. unfold mpr_GetByName, mpr_GetByID. destruct (get_sec name r) as [q|] eqn:E; [|done].
    intros [= ->]. destruct (get_sec_cell _ _ _ E) as (l & Hl & Hh).
    destruct (pi_sec r H name l Hl) as (q & Hq & <- & Hp). split; [congruence|].
    assert (p = q) as <- by congruence. unfold get_pri. rewrite Hp. cbn. by rewrite Hh.
  - intros id p. unfold mpr_GetByName, mpr_GetByID. destruct (get_pri id r) as [q|] eqn:E; [|done].
    intros [= ->]. destruct (get_pri_cell _ _ _ E) as (l & Hl & Hh).
    destruct (pi_pri r H id l Hl) as (q & Hq & <- & Hok & Hs). assert (p = q) as <- by congruence.
    split; [done|]. split; [|done]. unfold get_sec. rewrite Hs. cbn. by rewrite Hh.
  - intros id now d mn mx p. unfold mpr_UpdateScale, mpr_GetByID.
    destruct (get_pri id r) as [q|] eqn:E; [|done]. intros [= ->].
    destruct (get_pri_cell _ _ _ E) as (l & Hl & Hh). rewrite Hl. cbn. rewrite Hh. cbn.
    destruct (pi_pri r H id l Hl) as (q & Hq & _ & (Hn & _) & _).
    assert (p = q) as <- by congruence. rewrite decide_False by done. split; [done|].
    unfold st_insert. by rewrite get_pri_link_sec, get_pri_link_pri, decide_True, heap_alloc.
Qed.

Definition demo_project : Project := mkProject "id-1" "shop" "" "" "" "" "" 0 0 5 0 0.

Lemma project_lookups_agree_witness :
  let r := (mpr_UpdateScale 2 "id-1" 3 0 0 (mpr_Create 1 demo_project st_empty).2).2 in
  (∀ name p, mpr_GetByName name r = inr p → p_Name p = name ∧ mpr_GetByID (p_ID p) r = inr p)
  ∧ p_DesiredReplicas <$> get_sec "shop" r = Some 3.
Proof.
  split; [|vm_compute; reflexivity].
  refine (proj1 (project_lookups_agree _ _)). apply pr_scale, pr_create; [apply pr_empty|done].
Defined.
