(* ===== verification/Policy.v ===== *)
(** * Scaling policy: internal/autoscaler/policy.go

    The number of replicas a metric asks for. Replica counts are Go ints, the
    metric, its target and the tolerance are float64. *)

From stdpp Require Import base option gmap strings list.
From Stdlib Require Import ZArith Lia.
From S2P Require Import Prelude GoLib GoFloat.

(** [MetricType] is a string type, with constants for the known metrics. *)
Abbreviation MetricType := string (only parsing).
Definition MetricCPU : MetricType := "CPU".
Definition MetricRPS : MetricType := "RPS".

Inductive ScalingAction := ActionNone | ActionScaleUp | ActionScaleDown.

#[export] Instance ScalingAction_eq_dec : EqDecision ScalingAction.
Proof. solve_decision. Defined.

Record ScalingPolicy := mkPolicy {
  sp_ProjectID : string;
  sp_MetricType : MetricType;
  sp_TargetValue : float64;
  sp_Tolerance : float64;
  sp_MinReplicas : Z;
  sp_MaxReplicas : Z;
  sp_ScaleUpCooldown : Duration;
  sp_ScaleDownCooldown : Duration
}.

#[export] Instance ScalingPolicy_eta : Settable ScalingPolicy := λ p,
  mkPolicy (sp_ProjectID p) (sp_MetricType p) (sp_TargetValue p) (sp_Tolerance p)
    (sp_MinReplicas p) (sp_MaxReplicas p) (sp_ScaleUpCooldown p) (sp_ScaleDownCooldown p).

(** The constant [0.10]. *)
Definition tenth : float64 := fdiv (float_of_int 1) (float_of_int 10).

Definition DefaultPolicy (projectID : string) : ScalingPolicy :=
  mkPolicy projectID MetricCPU (float_of_int 70) tenth 1 10 (60 * Second) (180 * Second).

Record ScalingDecision := mkScaling {
  sd_ProjectID : string;
  sd_CurrentReplicas : Z;
  sd_DesiredReplicas : Z;
  sd_MetricType : MetricType;
  sd_MetricValue : float64;
  sd_TargetValue : float64;
  sd_Action : ScalingAction;
  sd_Reason : string;
  sd_EvaluatedAt : Time
}.

Section calculate.
Context {fc : FloatConv}.

Definition int_ceil (x : float64) : Z := default (int_of_unrepresentable x) (int_of_ceil x).
Definition int_floor (x : float64) : Z := default (int_of_unrepresentable x) (int_of_floor x).

(** The first adjustments of the parameters. *)
Definition norm_min (minReplicas : Z) : Z := if minReplicas <=? 0 then 1 else minReplicas.
Definition norm_max (minReplicas maxReplicas : Z) : Z :=
  if maxReplicas <? norm_min minReplicas then norm_min minReplicas else maxReplicas.
Definition norm_current (minReplicas currentReplicas : Z) : Z :=
  if currentReplicas <=? 0 then norm_min minReplicas else currentReplicas.

Definition scale_up_to (currentReplicas maxReplicas : Z) (ratio : float64) :
    Z * ScalingAction * string :=
  let desired := int_ceil (fmul (float_of_int currentReplicas) ratio) in
  let desired := if desired <=? currentReplicas then currentReplicas + 1 else desired in
  let desired := if maxReplicas <? desired then maxReplicas else desired in
  if desired =? currentReplicas
  then (currentReplicas, ActionNone, "already at maximum replica ceiling")
  else (desired, ActionScaleUp, "metric exceeded target threshold").

Definition scale_down_to (currentReplicas minReplicas : Z) (ratio : float64) :
    Z * ScalingAction * string :=
  let desired := int_floor (fmul (float_of_int currentReplicas) ratio) in
  let desired := if currentReplicas <=? desired then currentReplicas - 1 else desired in
  let desired := if desired <? minReplicas then minReplicas else desired in
  if desired =? currentReplicas
  then (currentReplicas, ActionNone, "already at minimum replica floor")
  else (desired, ActionScaleDown, "metric dropped below target threshold").

Definition in_deadband (ratio tolerance : float64) : bool :=
  fle (fabs (fsub ratio fone)) (if fle tolerance fzero then tenth else tolerance).

Definition CalculateDesiredReplicas (currentReplicas : Z) (metricValue targetValue : float64)
    (minReplicas maxReplicas : Z) (tolerance : float64) : Z * ScalingAction * string :=
  let mn := norm_min minReplicas in
  let mx := norm_max minReplicas maxReplicas in
  let current := norm_current minReplicas currentReplicas in
  if fle targetValue fzero then (current, ActionNone, "invalid target value <= 0")
  else
    let ratio := fdiv metricValue targetValue in
    if in_deadband ratio tolerance then (current, ActionNone, "metric within tolerance deadband")
    else if fgt ratio fone then scale_up_to current mx ratio
    else scale_down_to current mn ratio.

(** ** What the policy promises *)

Lemma scale_up_to_spec current mx ratio :
  let '(desired, action, _) := scale_up_to current mx ratio in
  if current <? mx then action = ActionScaleUp ∧ current < desired ≤ mx
  else desired = mx ∧ action = if current =? mx then ActionNone else ActionScaleUp.
Proof.
  unfold scale_up_to. cbv zeta. generalize (int_ceil (fmul (float_of_int current) ratio)); intros n.
  repeat (case_match; try lia); simplify_eq; split; first [done | lia | exfalso; lia].
Qed.

Lemma scale_down_to_spec current mn ratio :
  let '(desired, action, _) := scale_down_to current mn ratio in
  if mn <? current then action = ActionScaleDown ∧ mn ≤ desired < current
  else desired = mn ∧ action = if current =? mn then ActionNone else ActionScaleDown.
Proof.
  unfold scale_down_to. cbv zeta. generalize (int_floor (fmul (float_of_int current) ratio)); intros n.
  repeat (case_match; try lia); simplify_eq; split; first [done | lia | exfalso; lia].
Qed.

(** The target is valid and the metric outside of the tolerance band. *)
Definition off_target (metricValue targetValue tolerance : float64) : Prop :=
  fle targetValue fzero = false ∧ in_deadband (fdiv metricValue targetValue) tolerance = false.

(** C38: When the current replicas are within the bounds of the policy, so are
    the desired ones; the action agrees with the direction, and it is up, or
    down, exactly when the target is valid, the metric is outside of the
    tolerance band on that side and the bound on that side is not reached. *)
Theorem policy_within_bounds (currentReplicas minReplicas maxReplicas : Z)
    (metricValue targetValue tolerance : float64) :
  let mn := norm_min minReplicas in
  let mx := norm_max minReplicas maxReplicas in
  let current := norm_current minReplicas currentReplicas in
  mn ≤ current ≤ mx →
  let '(desired, action, _) :=
    CalculateDesiredReplicas currentReplicas metricValue targetValue minReplicas maxReplicas tolerance in
  mn ≤ desired ≤ mx
  ∧ match action with
    | ActionNone => desired = current
    | ActionScaleUp => current < desired
    | ActionScaleDown => desired < current
    end
  ∧ (action = ActionScaleUp ↔ off_target metricValue targetValue tolerance
       ∧ fgt (fdiv metricValue targetValue) fone = true ∧ current < mx)
  ∧ (action = ActionScaleDown ↔ off_target metricValue targetValue tolerance
       ∧ fgt (fdiv metricValue targetValue) fone = false ∧ mn < current).
Proof.
  cbv zeta. intros Hc. unfold CalculateDesiredReplicas, off_target. cbv zeta.
  destruct (fle targetValue fzero); [split_and!; (done || lia || naive_solver)|].
  destruct (in_deadband _ _); [split_and!; (done || lia || naive_solver)|].
  set (mn := norm_min minReplicas) in *. set (mx := norm_max _ _) in *. set (cur := norm_current _ _) in *.
  destruct (fgt _ _).
  - pose proof (scale_up_to_spec cur mx (fdiv metricValue targetValue)) as H.
    destruct (scale_up_to _ _ _) as [[d a] m]. destruct (Z.ltb_spec cur mx).
    + destruct H as [-> Hd]. split_and!; (lia || naive_solver lia).
    + destruct H as [-> ->]. destruct (Z.eqb_spec cur mx); [|lia]. split_and!; (lia || naive_solver lia).
  - pose proof (scale_down_to_spec cur mn (fdiv metricValue targetValue)) as H.
    destruct (scale_down_to _ _ _) as [[d a] m]. destruct (Z.ltb_spec mn cur).
    + destruct H as [-> Hd]. split_and!; (lia || naive_solver lia).
    + destruct H as [-> ->]. destruct (Z.eqb_spec cur mn); [|lia]. split_and!; (lia || naive_solver lia).
Qed.

(** When the current replicas are above the maximum and the metric above its
    band, the answer is SCALE_UP with fewer replicas; when they are below the
    minimum and the metric below its band, it is SCALE_DOWN with more. *)
Theorem policy_outside_bounds (currentReplicas minReplicas maxReplicas : Z)
    (metricValue targetValue tolerance : float64) :
  let mn := norm_min minReplicas in
  let mx := norm_max minReplicas maxReplicas in
  let current := norm_current minReplicas currentReplicas in
  off_target metricValue targetValue tolerance →
  let '(desired, action, _) :=
    CalculateDesiredReplicas currentReplicas metricValue targetValue minReplicas maxReplicas tolerance in
  (fgt (fdiv metricValue targetValue) fone = true → mx < current →
     action = ActionScaleUp ∧ desired = mx ∧ desired < current)
  ∧ (fgt (fdiv metricValue targetValue) fone = false → current < mn →
     action = ActionScaleDown ∧ desired = mn ∧ current < desired).
Proof.
  cbv zeta. intros [Ht Hb]. unfold CalculateDesiredReplicas. cbv zeta. rewrite Ht, Hb.
  set (mn := norm_min minReplicas). set (mx := norm_max _ _). set (cur := norm_current _ _).
  destruct (fgt _ _).
  - pose proof (scale_up_to_spec cur mx (fdiv metricValue targetValue)) as H.
    destruct (scale_up_to _ _ _) as [[d a] m]. split; [|done]. intros _ Hlt.
    destruct (Z.ltb_spec cur mx); [lia|]. destruct (Z.eqb_spec cur mx); [lia|]. destruct H as [-> ->]. done.
  - pose proof (scale_down_to_spec cur mn (fdiv metricValue targetValue)) as H.
    destruct (scale_down_to _ _ _) as [[d a] m]. split; [done|]. intros _ Hlt.
    destruct (Z.ltb_spec mn cur); [lia|]. destruct (Z.eqb_spec cur mn); [lia|]. destruct H as [-> ->]. done.
Qed.

End calculate.

Lemma policy_within_bounds_witness :
  let '(desired, action, _) := @CalculateDesiredReplicas amd64 2 (float_of_int 105) (float_of_int 70) 1 10 tenth in
  1 ≤ desired ≤ 10 ∧ action = ActionScaleUp ∧ desired = 3.
Proof.
  pose proof (@policy_within_bounds amd64 2 1 10 (float_of_int 105) (float_of_int 70) tenth) as H.
  cbv zeta in H. specialize (H ltac:(vm_compute; by split)).
  vm_compute in H |- *. split; [apply H|done].
Defined.

Lemma policy_outside_bounds_witness :
  let '(desired, action, _) := @CalculateDesiredReplicas amd64 12 (float_of_int 140) (float_of_int 70) 1 10 tenth in
  action = ActionScaleUp ∧ desired = 10 ∧ desired < 12.
Proof.
  pose proof (@policy_outside_bounds amd64 12 1 10 (float_of_int 140) (float_of_int 70) tenth) as H.
  cbv zeta in H. specialize (H ltac:(vm_compute; by split)).
  vm_compute in H |- *. by apply H.
Defined.

(** Below the minimum, an increase may stay below it. *)
Example policy_below_floor :
  @CalculateDesiredReplicas amd64 1 (float_of_int 105) (float_of_int 70) 5 10 tenth
  = (2, ActionScaleUp, "metric exceeded target threshold").
Proof. by vm_compute. Qed.
