(* ===== verification/Autoscaler.v ===== *)
(** * The autoscaler: internal/autoscaler/autoscaler.go

    A check of a project's metric against its policy, the cooldown windows,
    and the scaling of the running deployment through the deployment service. *)

From stdpp Require Import base option gmap strings list pretty.
From Stdlib Require Import ZArith Lia.
From S2P Require Import Prelude GoLib GoFloat PtrStore Workers Scheduler LoadBalancer HA Deployments Fleet Platform Service ServiceFacts Lifecycle Scaling Projects Policy Demo ServiceTheorems.

(** ** The metrics feed *)

Definition ErrMetricsUnavailable : error := "metrics feed unavailable".

Class MetricsProvider (MP : Type) := {
  mp_GetMetric : string → MetricType → MP → error + float64
}.

Record MemoryMetricsProvider := mkMetrics {
  mm_metrics : gmap string (gmap string float64);
  mm_err : option error
}.

#[export] Instance MemoryMetrics_eta : Settable MemoryMetricsProvider := λ m,
  mkMetrics (mm_metrics m) (mm_err m).

Definition NewMemoryMetricsProvider : MemoryMetricsProvider := mkMetrics ∅ None.

Section metrics.
Context {uni : Unicode}.

Definition SetMetric (projectID : string) (metric : MetricType) (val : float64)
    (p : MemoryMetricsProvider) : MemoryMetricsProvider :=
  p <| mm_metrics ::= λ m,
         <[projectID := <[ToUpper metric := val]> (default ∅ (m !! projectID))]> m |>.

Definition SetError (err : option error) (p : MemoryMetricsProvider) : MemoryMetricsProvider :=
  p <| mm_err := err |>.

Definition GetMetric (projectID : string) (metric : MetricType) (p : MemoryMetricsProvider) :
    error + float64 :=
  match mm_err p with
  | Some err => inl err
  | None =>
    match mm_metrics p !! projectID with
    | None => inl ErrMetricsUnavailable
    | Some m => match m !! ToUpper metric with
                | Some val => inr val
                | None => inl ErrMetricsUnavailable
                end
    end
  end.

#[export] Instance memory_metrics : MetricsProvider MemoryMetricsProvider := {
  mp_GetMetric := GetMetric
}.

End metrics.

(** ** The autoscaler's state

    The fields of [Autoscaler] and, in [a_sys], the state of the service it
    calls. [a_eventRepo] says whether an event repository was given, which is
    the service's. *)

Record AutoSys (MP PR S : Type) := mkAuto {
  a_policies : gmap string ScalingPolicy;
  a_lastScaleUp : gmap string Time;
  a_lastScaleDown : gmap string Time;
  a_metrics : MP;
  a_projects : option PR;
  a_eventRepo : bool;
  a_sys : S
}.
Arguments mkAuto {MP PR S} _ _ _ _ _ _ _.
Arguments a_policies {MP PR S} _.
Arguments a_lastScaleUp {MP PR S} _.
Arguments a_lastScaleDown {MP PR S} _.
Arguments a_metrics {MP PR S} _.
Arguments a_projects {MP PR S} _.
Arguments a_eventRepo {MP PR S} _.
Arguments a_sys {MP PR S} _.

#[export] Instance AutoSys_eta MP PR S : Settable (AutoSys MP PR S) := λ a,
  mkAuto (a_policies a) (a_lastScaleUp a) (a_lastScaleDown a) (a_metrics a) (a_projects a)
    (a_eventRepo a) (a_sys a).

Section autoscaler.
Context {DR IR WR F X MP PR : Type}.
Context {ent : Entropy} `{!DeploymentRepository DR, !InstanceRepository IR, !WorkerRepository WR}.
Context `{!WorkerClientFactory F, !Externals X} {uni : Unicode} {net : NetURL}.
Context `{!MetricsProvider MP, !ProjectRepository PR} {fc : FloatConv}.

Abbreviation state := (AutoSys MP PR (Sys DR IR WR F X)).
Abbreviation M := (ST state).

(** A call on the service. *)
Definition on_sys {A} (m : ST (Sys DR IR WR F X) A) : M A := λ a,
  let '(x, s) := m (a_sys a) in (x, a <| a_sys := s |>).

(** [nil] and a policy without a project are ignored. *)
Definition SetPolicy (policy : option ScalingPolicy) : M unit :=
  match policy with
  | None => ret tt
  | Some p =>
    if decide (sp_ProjectID p = "") then ret tt
    else modify (λ a, a <| a_policies ::= <[sp_ProjectID p := p <| sp_MetricType ::= ToUpper |>]> |>)
  end.

Definition GetPolicy (projectID : string) : M (option ScalingPolicy) :=
  gets (λ a, a_policies a !! projectID).

Definition SetLastScaleTimes (projectID : string) (up down : Time) : M unit :=
  modify (λ a, if IsZero up then a else a <| a_lastScaleUp ::= <[projectID := up]> |>) ;;
  modify (λ a, if IsZero down then a else a <| a_lastScaleDown ::= <[projectID := down]> |>).

(** The first running deployment of a list. *)
Definition first_running (deps : list Deployment) : option Deployment :=
  head (base.filter (λ d, d_Status d = StatusRunning) deps).

(** [!last.IsZero() && time.Since(last) < cooldown]. *)
Definition inside_window (last : Time) (cooldown : Duration) : M bool :=
  if IsZero last then ret false
  else let! t := on_sys draw_now in ret (t - last <? cooldown).

(** [time.Since(last).Round(time.Second)], as the messages print it. *)
Definition since_text (last : Time) : M string :=
  let! t := on_sys draw_now in ret (Duration_String (Duration_Round Second (t - last))).

(** Lines 217 to 237. *)
Definition enforce_cooldown (policy : ScalingPolicy) (lastUp lastDown : Time) (currentReplicas : Z)
    (r : Z * ScalingAction * string) : M (Z * ScalingAction * string) :=
  match r.1.2 with
  | ActionNone => ret r
  | ActionScaleUp =>
    let! inside := inside_window lastUp (sp_ScaleUpCooldown policy) in
    if inside then
      let! ago := since_text lastUp in
      ret (currentReplicas, ActionNone,
        "scale-up suppressed: inside cooldown window (last scaled " +:+ ago +:+ " ago, cooldown "
        +:+ Duration_String (sp_ScaleUpCooldown policy) +:+ ")")
    else ret r
  | ActionScaleDown =>
    let! inside := inside_window lastDown (sp_ScaleDownCooldown policy) in
    if inside then
      let! ago := since_text lastDown in
      ret (currentReplicas, ActionNone,
        "scale-down suppressed: inside cooldown window (last scaled down " +:+ ago +:+ " ago, cooldown "
        +:+ Duration_String (sp_ScaleDownCooldown policy) +:+ ")")
    else
      let! inside := inside_window lastUp (sp_ScaleDownCooldown policy) in
      if inside then
        let! ago := since_text lastUp in
        ret (currentReplicas, ActionNone,
          "scale-down suppressed: recently scaled up (" +:+ ago +:+ " ago, cooldown "
          +:+ Duration_String (sp_ScaleDownCooldown policy) +:+ ")")
      else ret r
  end.

Definition no_decision (projectID reason : string) (now : Time) : ScalingDecision :=
  mkScaling projectID 0 0 "" fzero fzero ActionNone reason now.

Definition Evaluate (projectID : string) : M (error + ScalingDecision) :=
  let! policy := GetPolicy projectID in
  let! lastUp := gets (λ a, default 0 (a_lastScaleUp a !! projectID)) in
  let! lastDown := gets (λ a, default 0 (a_lastScaleDown a !! projectID)) in
  let! now := on_sys draw_now in
  match policy with
  | None => ret (inr (no_decision projectID "no scaling policy configured" now))
  | Some policy =>
  let! l := on_sys (ListDeployments projectID) in
  match l with
  | inl err => ret (inl ("failed to list deployments: " +:+ err))
  | inr deps =>
  match first_running deps with
  | None => ret (inr (no_decision projectID "no running deployment found for project" now))
  | Some activeDep =>
  let currentReplicas := replicas (d_InstanceCount activeDep) in
  let! metric := gets (λ a, mp_GetMetric projectID (sp_MetricType policy) (a_metrics a)) in
  match metric with
  | inl err =>
    ret (inr (mkScaling projectID currentReplicas currentReplicas (sp_MetricType policy) fzero fzero
      ActionNone ("metrics feed unavailable (" +:+ err +:+ "): holding last known count") now))
  | inr metricVal =>
    let! ' (desired, action, reason) := enforce_cooldown policy lastUp lastDown currentReplicas
      (CalculateDesiredReplicas currentReplicas metricVal (sp_TargetValue policy)
         (sp_MinReplicas policy) (sp_MaxReplicas policy) (sp_Tolerance policy)) in
    ret (inr (mkScaling projectID currentReplicas desired (sp_MetricType policy) metricVal
      (sp_TargetValue policy) action reason now))
  end end end end.

Definition autoscale_event (uuid projectID : string) (now : Time) (scaledDep : Deployment)
    (decision : ScalingDecision) : Event :=
  mkEvent uuid projectID (d_ID scaledDep)
    (if decide (sd_Action decision = ActionScaleDown) then "AUTOSCALE_DOWN" else "AUTOSCALE_UP")
    ("Autoscaler scaled " +:+ projectID +:+ " from " +:+ Itoa (sd_CurrentReplicas decision) +:+ " to "
     +:+ Itoa (sd_DesiredReplicas decision) +:+ " replicas (" +:+ sd_MetricType decision +:+ "="
     +:+ fmt_float1 (sd_MetricValue decision) +:+ ", target=" +:+ fmt_float1 (sd_TargetValue decision) +:+ ")")
    [("previous_replicas", MInt (sd_CurrentReplicas decision));
     ("desired_replicas", MInt (sd_DesiredReplicas decision));
     ("metric_type", MStr (sd_MetricType decision));
     ("metric_value", MFloat (sd_MetricValue decision));
     ("target_value", MFloat (sd_TargetValue decision));
     ("reason", MStr (sd_Reason decision)); ("timestamp", MTime now)] now.

(** The time of the scaling, for the cooldown of the next one. *)
Definition stamp_scaling (projectID : string) (action : ScalingAction) (now : Time) : M unit :=
  match action with
  | ActionScaleUp => modify (λ a, a <| a_lastScaleUp ::= <[projectID := now]> |>)
  | ActionScaleDown => modify (λ a, a <| a_lastScaleDown ::= <[projectID := now]> |>)
  | ActionNone => ret tt
  end.

Definition update_project (projectID : string) (desired : Z) : M unit := λ a,
  match a_projects a with
  | None => (tt, a)
  | Some pr =>
    let '(now, a) := on_sys draw_now a in
    (tt, a <| a_projects := Some (pr_UpdateScale now projectID desired 0 0 pr).2 |>)
  end.

(** Lines 273 to 344, after the decision to scale. [ScaleDeployment] answers
    without an error only with a deployment. *)
Definition apply_scaling (projectID : string) (decision : ScalingDecision) :
    M (option ScalingDecision * option error) :=
  let! l := on_sys (ListDeployments projectID) in
  match l with
  | inl err => ret (None, Some ("list deployments: " +:+ err))
  | inr deps =>
  match first_running deps with
  | None => ret (Some decision, None)
  | Some activeDep =>
  let! r := on_sys (ScaleDeployment (d_ID activeDep) (sd_DesiredReplicas decision)) in
  match r.2 with
  | Some err => ret (Some decision, Some ("scale deployment failed: " +:+ err))
  | None =>
    let! now := on_sys draw_now in
    stamp_scaling projectID (sd_Action decision) now ;;
    update_project projectID (sd_DesiredReplicas decision) ;;
    let! events := gets a_eventRepo in
    (match events, r.1.1 with
     | true, Some scaledDep =>
       let! uuid := on_sys draw_uuid in
       on_sys (event_create (autoscale_event uuid projectID now scaledDep decision)) ;; ret tt
     | _, _ => ret tt
     end) ;;
    ret (Some decision, None)
  end end end.

Definition EvaluateAndScale (projectID : string) : M (option ScalingDecision * option error) :=
  let! d := Evaluate projectID in
  match d with
  | inl err => ret (None, Some err)
  | inr decision =>
    if bool_decide (sd_Action decision = ActionNone)
       || (sd_DesiredReplicas decision =? sd_CurrentReplicas decision)
    then ret (Some decision, None)
    else apply_scaling projectID decision
  end.

End autoscaler.

Section facts.
Context {DR IR WR F X MP PR : Type}.
Context {ent : Entropy} `{!DeploymentRepository DR, !InstanceRepository IR, !WorkerRepository WR}.
Context `{!WorkerClientFactory F, !Externals X} {uni : Unicode} {net : NetURL}.
Context `{!MetricsProvider MP, !ProjectRepository PR} {fc : FloatConv}.
Context {entl : EntropyLaws} `{!DeploymentStore DR, !InstanceStore IR, !WorkerRepositoryLaws WR}.
Implicit Types a : AutoSys MP PR (Sys DR IR WR F X).
Implicit Types s : Sys DR IR WR F X.

Lemma wp_on_sys {A} (m : ST (Sys DR IR WR F X) A) (Q : A → AutoSys MP PR _ → Prop) a :
  wp m (λ x s', Q x (a <| a_sys := s' |>)) (a_sys a) → wp (on_sys m) Q a.
Proof. unfold wp, on_sys. by destruct (m (a_sys a)). Qed.

(** [quiet a s' Q x]: the service's state became [s'] without a change of its
    contents, nothing else changed, and the call answered with [x]. *)
Lemma wp_on_sys_idle {A} (m : ST (Sys DR IR WR F X) A) (Q : A → AutoSys MP PR _ → Prop) a :
  idle m → sys_ok (a_sys a) →
  (∀ x s', after (a_sys a) s' (view (a_sys a)) → Q x (a <| a_sys := s' |>)) → wp (on_sys m) Q a.
Proof. intros Hm H HQ. by apply wp_on_sys, Hm. Qed.

(** The clock, read from [s] on, is past the window. *)
Definition past_window s (last : Time) (cooldown : Duration) : Prop :=
  last = 0 ∨ ∃ n, (s_tick s ≤ n)%nat ∧ cooldown ≤ now_at n - last.

Lemma past_window_after s s' v last c : after s s' v → past_window s' last c → past_window s last c.
Proof. intros [_ _ Ht] [|(n & Hn & Hc)]; [by left|right]. exists n. split; [lia|done]. Qed.

Lemma wp_inside_window last c (Q : bool → AutoSys MP PR _ → Prop) a :
  sys_ok (a_sys a) →
  (∀ b s', after (a_sys a) s' (view (a_sys a)) →
     (b = false → past_window (a_sys a) last c) → Q b (a <| a_sys := s' |>)) →
  wp (inside_window last c) Q a.
Proof.
  intros H HQ. unfold inside_window. destruct (IsZero last) eqn:E.
  - apply wp_ret. apply Z.eqb_eq in E. destruct a as [? ? ? ? ? ? s].
    apply (HQ false s); [by apply after_refl|]. intros _. by left.
  - apply wp_bind, wp_on_sys. unfold wp, draw_now. cbn. apply HQ.
    + by apply after_draw.
    + intros Hb. right. exists (s_tick (a_sys a)). split; [done|].
      by apply Z.ltb_ge in Hb.
Qed.

Lemma wp_since_text last (Q : string → AutoSys MP PR _ → Prop) a :
  sys_ok (a_sys a) →
  (∀ t s', after (a_sys a) s' (view (a_sys a)) → Q t (a <| a_sys := s' |>)) →
  wp (since_text last) Q a.
Proof.
  intros H HQ. apply wp_bind, wp_on_sys_idle; [apply idle_draw_now|done|].
  intros t s' A. apply wp_ret. by apply HQ.
Qed.

(** Every window that applies to the action is over. *)
Definition cooled_down (p : ScalingPolicy) (lastUp lastDown : Time) (action : ScalingAction) s : Prop :=
  match action with
  | ActionNone => True
  | ActionScaleUp => past_window s lastUp (sp_ScaleUpCooldown p)
  | ActionScaleDown => past_window s lastDown (sp_ScaleDownCooldown p)
                       ∧ past_window s lastUp (sp_ScaleDownCooldown p)
  end.

Lemma wp_enforce_cooldown p lastUp lastDown current r (Q : _ → AutoSys MP PR _ → Prop) a :
  sys_ok (a_sys a) →
  (∀ r' s', after (a_sys a) s' (view (a_sys a)) →
     (r' = r ∧ cooled_down p lastUp lastDown r.1.2 (a_sys a))
     ∨ (r'.1 = (current, ActionNone)) →
     Q r' (a <| a_sys := s' |>)) →
  wp (enforce_cooldown p lastUp lastDown current r) Q a.
Proof.
  intros H HQ. unfold enforce_cooldown.
  assert (∀ last text s', after (a_sys a) s' (view (a_sys a)) →
    wp (bind (since_text last) (λ ago, ret (current, ActionNone, text ago))) Q (a <| a_sys := s' |>)) as Hs.
  { intros last text s' A. apply wp_bind, wp_since_text; [apply (af_ok _ _ _ A)|]. intros t s2 A2.
    cbn in A2. rewrite (af_view _ _ _ A) in A2. apply wp_ret, (HQ _ s2); [by eapply after_trans|by right]. }
  destruct r as [[d []] m]; cbn [fst snd].
  - apply wp_ret. destruct a as [? ? ? ? ? ? s]. apply (HQ _ s); [by apply after_refl|by left].
  - apply wp_bind, wp_inside_window; [done|]. intros [] s1 A1 B1; [by apply Hs|].
    apply wp_ret, HQ; [done|]. left. split; [done|]. by apply B1.
  - apply wp_bind, wp_inside_window; [done|]. intros [] s1 A1 B1; [by apply Hs|].
    apply wp_bind, wp_inside_window; [apply (af_ok _ _ _ A1)|]. intros b s2 A2 B2. cbn in A2, B2.
    rewrite (af_view _ _ _ A1) in A2. pose proof (after_trans _ _ _ _ _ A1 A2) as A3.
    destruct b; [by apply (Hs _ _ s2)|]. apply wp_ret, (HQ _ s2); [done|]. left.
    split; [done|]. split; [by apply B1|]. eapply past_window_after; [apply A1|by apply B2].
Qed.

(** ** Decisions *)

Definition runs_for (projectID : string) (v : View WR) (dep : Deployment) : Prop :=
  v_deps v !! d_ID dep = Some dep ∧ d_of_project projectID dep ∧ d_Status dep = StatusRunning.

Lemma first_running_listed projectID (v : View WR) l dep :
  (∀ k d, v_deps v !! k = Some d → d_ID d = k) →
  l ≡ₚ base.filter (d_of_project projectID) (map_to_list (v_deps v)).*2 →
  first_running l = Some dep → runs_for projectID v dep.
Proof.
  intros Hk Hl Hf. assert (dep ∈ base.filter (λ d, d_Status d = StatusRunning) l) as Hin.
  { unfold first_running in Hf. destruct (base.filter _ l); [done|]. injection Hf as ->. left. }
  rewrite Hl in Hin. apply list_elem_of_filter in Hin as [Hs Hin].
  apply list_elem_of_filter in Hin as [Hp Hin].
  apply list_elem_of_fmap in Hin as ([k d] & -> & Hin%elem_of_map_to_list). cbn in *.
  split; [|done]. by rewrite (Hk _ _ Hin).
Qed.

(** What stands behind a decision that is not to keep the replicas. *)
Definition justified a (projectID : string) (d : ScalingDecision) : Prop :=
  ∃ p metricVal dep reason,
    a_policies a !! projectID = Some p
    ∧ mp_GetMetric projectID (sp_MetricType p) (a_metrics a) = inr metricVal
    ∧ runs_for projectID (view (a_sys a)) dep
    ∧ sd_CurrentReplicas d = replicas (d_InstanceCount dep)
    ∧ CalculateDesiredReplicas (sd_CurrentReplicas d) metricVal (sp_TargetValue p)
        (sp_MinReplicas p) (sp_MaxReplicas p) (sp_Tolerance p)
      = (sd_DesiredReplicas d, sd_Action d, reason)
    ∧ cooled_down p (default 0 (a_lastScaleUp a !! projectID)) (default 0 (a_lastScaleDown a !! projectID))
        (sd_Action d) (a_sys a).

Definition decided a (projectID : string) (d : ScalingDecision) : Prop :=
  if decide (sd_Action d = ActionNone) then sd_DesiredReplicas d = sd_CurrentReplicas d
  else justified a projectID d.

Lemma calculate_none current v target mn mx tol :
  0 < current →
  (CalculateDesiredReplicas current v target mn mx tol).1.2 = ActionNone →
  (CalculateDesiredReplicas current v target mn mx tol).1.1 = current.
Proof.
  intros Hc. unfold CalculateDesiredReplicas, scale_up_to, scale_down_to. cbv zeta.
  assert (norm_current mn current = current) as ->.
  { unfold norm_current. by destruct (Z.leb_spec current 0); [lia|]. }
  repeat case_match; done.
Qed.

Lemma cooled_down_after p up down act s s' v :
  after s s' v → cooled_down p up down act s' → cooled_down p up down act s.
Proof. intros A. destruct act; cbn; [done|..]; intuition; by eapply past_window_after. Qed.

Lemma wp_Evaluate projectID a :
  sys_ok (a_sys a) →
  wp (Evaluate projectID) (λ r a', ∃ s', a' = a <| a_sys := s' |>
    ∧ after (a_sys a) s' (view (a_sys a))
    ∧ ∃ d, r = inr d ∧ decided a projectID d) a.
Proof.
  intros H. unfold Evaluate. apply wp_bind, wp_gets, wp_bind, wp_gets, wp_bind, wp_gets.
  apply wp_bind, wp_on_sys_idle; [apply idle_draw_now|done|]. intros now s1 A1.
  destruct (a_policies a !! projectID) as [p|] eqn:Ep.
  2: { apply wp_ret. exists s1. split_and!; [done..|]. by eexists. }
  apply wp_bind, wp_on_sys, wp_dep_list; [apply (af_ok _ _ _ A1)|]. intros l s2 A2 Hl. cbn [a_sys set_field AutoSys_eta] in A2, Hl.
  rewrite (af_view _ _ _ A1) in A2, Hl. pose proof (after_trans _ _ _ _ _ A1 A2) as A.
  destruct (first_running l) as [dep|] eqn:Ef.
  2: { apply wp_ret. exists s2. split_and!; [done..|]. by eexists. }
  apply (first_running_listed projectID (view (a_sys a))) in Ef; [|apply (ok_dep_keys _ H)|done].
  apply wp_bind, wp_gets. cbn [a_metrics set_field AutoSys_eta].
  destruct (mp_GetMetric projectID (sp_MetricType p) (a_metrics a)) as [err|v] eqn:Ev.
  { apply wp_ret. exists s2. split_and!; [done..|]. by eexists. }
  assert (0 < replicas (d_InstanceCount dep)) as Hpos.
  { unfold replicas. by destruct (Z.leb_spec (d_InstanceCount dep) 0). }
  apply wp_bind, wp_enforce_cooldown; [apply (af_ok _ _ _ A)|].
  intros [[desired action] reason] s3 A3 Hr. cbn [a_sys set_field AutoSys_eta] in A3, Hr.
  rewrite (af_view _ _ _ A2) in A3. pose proof (after_trans _ _ _ _ _ A A3) as A'.
  apply wp_ret. exists s3. split; [done|]. split; [done|]. eexists. split; [done|]. unfold decided. cbn.
  destruct Hr as [[Hr Hcool]|Hr]; [|cbn in Hr; simplify_eq; by rewrite decide_True].
  pose proof (calculate_none _ v (sp_TargetValue p) (sp_MinReplicas p) (sp_MaxReplicas p)
    (sp_Tolerance p) Hpos) as Hnone. rewrite <- Hr in Hnone, Hcool. cbn in Hnone, Hcool.
  destruct (decide (action = ActionNone)) as [->|]; [by apply Hnone|].
  exists p, v, dep, reason. split_and!; [done..|by apply (cooled_down_after _ _ _ _ _ _ _ A)].
Qed.

(** ** Scaling *)

(** The scaling between two calls that change no contents. *)
Lemma scale_post_frame depID n r s s1 s2 s3 :
  after s s1 (view s) → scale_post depID n s1 r s2 → after s2 s3 (view s2) → scale_post depID n s r s3.
Proof.
  intros A H A3. unfold scale_post in *. destruct r as [[[dep|] active] err].
  - destruct H as (Ho & E & Hl & Hr). rewrite (af_view _ _ _ A3). rewrite (af_view _ _ _ A) in Hr, Ho.
    split; [done|]. split; [|done]. eapply evolves_trans; [by apply after_idle|].
    eapply evolves_trans; [done|by apply after_idle].
  - destruct H as (-> & He & A2). split; [done|]. split; [done|].
    rewrite (af_view _ _ _ A) in A2. rewrite (af_view _ _ _ A2) in A3.
    eapply after_trans; [done|]. by eapply after_trans.
Qed.

Lemma scale_post_ok depID n r s s' : scale_post depID n s r s' → sys_ok s'.
Proof.
  unfold scale_post. destruct r as [[[dep|] active] err]; [intros (_ & E & _)|intros (_ & _ & A)];
    [apply (ev_ok _ _ _ _ E)|apply (af_ok _ _ _ A)].
Qed.

Definition same_stamps a a' : Prop :=
  a_lastScaleUp a' = a_lastScaleUp a ∧ a_lastScaleDown a' = a_lastScaleDown a.

Definition stamped (projectID : string) (action : ScalingAction) a a' : Prop :=
  ∃ now, match action with
  | ActionNone => same_stamps a a'
  | ActionScaleUp => a_lastScaleUp a' = <[projectID := now]> (a_lastScaleUp a)
                     ∧ a_lastScaleDown a' = a_lastScaleDown a
  | ActionScaleDown => a_lastScaleUp a' = a_lastScaleUp a
                       ∧ a_lastScaleDown a' = <[projectID := now]> (a_lastScaleDown a)
  end.

(** A running deployment of the project was scaled as the service promises,
    and the time is kept exactly when that succeeded. *)
Definition scaled_project a (projectID : string) (d : ScalingDecision) (err : option error) a' : Prop :=
  ∃ dep r, runs_for projectID (view (a_sys a)) dep
    ∧ scale_post (d_ID dep) (sd_DesiredReplicas d) (a_sys a) r (a_sys a')
    ∧ (err = None ↔ r.2 = None)
    ∧ if decide (err = None) then stamped projectID (sd_Action d) a a' else same_stamps a a'.

Lemma wp_stamp_scaling projectID action now (Q : unit → AutoSys MP PR _ → Prop) a :
  (∀ a', a_sys a' = a_sys a → stamped projectID action a a' → Q tt a') →
  wp (stamp_scaling projectID action now) Q a.
Proof. intros HQ. destruct action; apply HQ; try done; by exists now. Qed.

Lemma wp_update_project projectID n (Q : unit → AutoSys MP PR _ → Prop) a :
  sys_ok (a_sys a) →
  (∀ a', after (a_sys a) (a_sys a') (view (a_sys a)) → same_stamps a a' → Q tt a') →
  wp (update_project projectID n) Q a.
Proof.
  intros H HQ. unfold wp, update_project. destruct (a_projects a) as [pr|]; cbn.
  - apply HQ; [|done]. cbn. by apply after_draw.
  - apply HQ; [by apply after_refl|done].
Qed.

Lemma wp_apply_scaling projectID d a :
  sys_ok (a_sys a) → 
  wp (apply_scaling projectID d) (λ r a',
    sys_ok (a_sys a') ∧ r.1 = Some d
    ∧ (r.2 = None ∧ view (a_sys a') = view (a_sys a) ∧ same_stamps a a'
       ∨ scaled_project a projectID d r.2 a')) a.
Proof.
  intros H. unfold apply_scaling.
  apply wp_bind, wp_on_sys, wp_dep_list; [done|]. intros l s1 A1 Hl.
  destruct (first_running l) as [dep|] eqn:Ef.
  2: { apply wp_ret. split; [apply (af_ok _ _ _ A1)|]. split; [done|]. left. split; [done|]. split; [apply (af_view _ _ _ A1)|done]. }
  apply (first_running_listed projectID (view (a_sys a))) in Ef; [|apply (ok_dep_keys _ H)|done].
  apply wp_bind, wp_on_sys. eapply wp_wand; [apply wp_ScaleDeployment, (af_ok _ _ _ A1)|].
  intros r s2 [Hp _]. cbn [a_sys set_field AutoSys_eta] in Hp. pose proof (scale_post_ok _ _ _ _ _ Hp) as H2.
  assert (∀ err a', err = None ↔ r.2 = None → after s2 (a_sys a') (view s2) →
    (if decide (err = None) then stamped projectID (sd_Action d) a a' else same_stamps a a') →
    sys_ok (a_sys a') ∧ Some d = Some d
    ∧ (err = None ∧ view (a_sys a') = view (a_sys a) ∧ same_stamps a a' ∨ scaled_project a projectID d err a'))
    as Hend.
  { intros err a' He A2 Hs. split; [apply (af_ok _ _ _ A2)|]. split; [done|]. right.
    exists dep, r. split; [done|]. split; [by eapply scale_post_frame|done]. }
  destruct (r.2) as [err|] eqn:Er.
  { apply wp_ret, (Hend (Some _)); [done|by apply after_refl|by rewrite decide_False]. }
  apply wp_bind, wp_on_sys_idle; [apply idle_draw_now|done|]. intros now s3 A3.
  cbn [a_sys set_field AutoSys_eta] in A3.
  apply wp_bind, wp_stamp_scaling. intros a4 E4 St. cbn [a_sys set_field AutoSys_eta] in E4.
  apply wp_bind, wp_update_project; [rewrite E4; apply (af_ok _ _ _ A3)|]. intros a5 A5 St5.
  rewrite E4, (af_view _ _ _ A3) in A5. pose proof (after_trans _ _ _ _ _ A3 A5) as A6.
  assert (∀ a', after (a_sys a5) (a_sys a') (view s2) → same_stamps a5 a' →
    after s2 (a_sys a') (view s2) ∧ stamped projectID (sd_Action d) a a') as Hlast.
  { intros a' A7 [S1 S2]. split; [by eapply after_trans|].
    destruct St as [t St], St5 as [S3 S4]. exists t. destruct (sd_Action d); unfold same_stamps in *;
      rewrite S1, S2, S3, S4; by apply St. }
  apply wp_bind, wp_gets, wp_bind.
  assert (∀ a', after (a_sys a5) (a_sys a') (view s2) → same_stamps a5 a' →
    wp (ret (Some d, None)) (λ r' a', sys_ok (a_sys a') ∧ r'.1 = Some d
      ∧ (r'.2 = None ∧ view (a_sys a') = view (a_sys a) ∧ same_stamps a a'
         ∨ scaled_project a projectID d r'.2 a')) a') as Hret.
  { intros a' A7 S7. destruct (Hlast a' A7 S7) as [A8 S8]. apply wp_ret, (Hend None); [done|done|].
    by rewrite decide_True. }
  assert (after (a_sys a5) (a_sys a5) (view s2)) as A7.
  { rewrite <- (af_view _ _ _ A6). apply after_refl, (af_ok _ _ _ A6). }
  destruct (a_eventRepo a5); [|by apply wp_ret, Hret].
  destruct (r.1.1) as [dd|]; [|by apply wp_ret, Hret].
  apply wp_bind, wp_on_sys_idle; [apply idle_draw_uuid|apply (af_ok _ _ _ A6)|]. intros u s8 A8.
  apply wp_bind, wp_on_sys_idle; [apply idle_event|apply (af_ok _ _ _ A8)|]. intros e s9 A9.
  cbn [a_sys set_field AutoSys_eta] in A9. apply wp_ret, Hret; [|done]. cbn [a_sys set_field AutoSys_eta].
  rewrite (af_view _ _ _ A8), (af_view _ _ _ A6) in A9. rewrite (af_view _ _ _ A6) in A8.
  by eapply after_trans.
Qed.

Lemma wp_EvaluateAndScale projectID a :
  sys_ok (a_sys a) →
  wp (EvaluateAndScale projectID) (λ r a', sys_ok (a_sys a') ∧ ∃ d, r.1 = Some d ∧ decided a projectID d
    ∧ (r.2 = None ∧ view (a_sys a') = view (a_sys a) ∧ same_stamps a a'
       ∨ sd_Action d ≠ ActionNone ∧ sd_DesiredReplicas d ≠ sd_CurrentReplicas d
         ∧ scaled_project a projectID d r.2 a')) a.
Proof.
  intros H. unfold EvaluateAndScale. apply wp_bind.
  eapply wp_wand; [by apply wp_Evaluate|]. intros r a1 (s1 & -> & A1 & d & -> & Hd).
  destruct (_ || _) eqn:Eb.
  { apply wp_ret. split; [apply (af_ok _ _ _ A1)|]. exists d. split; [done|]. split; [done|]. left.
    split; [done|]. split; [apply (af_view _ _ _ A1)|done]. }
  apply orb_false_iff in Eb as [Ea%bool_decide_eq_false Eq%Z.eqb_neq].
  eapply wp_wand; [apply wp_apply_scaling, (af_ok _ _ _ A1)|]. intros r a2 (H2 & E & Hr).
  split; [done|]. exists d. split; [done|]. split; [done|]. destruct Hr as [(E2 & V & S)|(dep & r' & Hrun & Hp & He & Hs)].
  - left. split; [done|]. split; [|done]. rewrite V. apply (af_view _ _ _ A1).
  - right. split; [done|]. split; [done|]. exists dep, r'. cbn [a_sys set_field AutoSys_eta] in Hrun, Hp.
    rewrite (af_view _ _ _ A1) in Hrun. split; [done|]. split; [|done].
    eapply scale_post_frame; [done|done|]. by apply after_refl.
Qed.


(** While every clock reading is within both cooldown windows of the last scale-
    up, EvaluateAndScale changes nothing, whatever the metric says. *)
Theorem cooldown_holds_replicas (projectID : string) (p : ScalingPolicy) (last : Time) a :
  sys_ok (a_sys a) → a_policies a !! projectID = Some p →
  a_lastScaleUp a !! projectID = Some last → last ≠ 0 →
  (∀ n, (s_tick (a_sys a) ≤ n)%nat →
     now_at n - last < Z.min (sp_ScaleUpCooldown p) (sp_ScaleDownCooldown p)) →
  wp (EvaluateAndScale projectID) (λ r a',
    r.2 = None ∧ view (a_sys a') = view (a_sys a) ∧ same_stamps a a') a.
Proof.
  intros H Hp Hl Hn Ht. eapply wp_wand; [by apply wp_EvaluateAndScale|].
  intros r a' (_ & d & _ & Hd & [Hq|(Ha & _)]); [done|]. unfold decided in Hd.
  rewrite decide_False in Hd by done. destruct Hd as (p' & v & dep & reason & Hp' & _ & _ & _ & _ & Hc).
  rewrite Hp in Hp'. injection Hp' as <-. rewrite Hl in Hc. cbn in Hc.
  assert (∀ c, c = sp_ScaleUpCooldown p ∨ c = sp_ScaleDownCooldown p → past_window (a_sys a) last c → False) as Hw.
  { intros c Hcs [|(n & Hn' & Hc')]; [done|]. specialize (Ht n Hn'). lia. }
  destruct (sd_Action d); cbn in Hc; [done|..].
  - destruct (Hw _ (or_introl eq_refl) Hc).
  - destruct (Hw _ (or_intror eq_refl) (proj2 Hc)).
Qed.

End facts.

(** ** The concrete platform *)

#[local] Existing Instance demo_entropy_laws.
#[local] Existing Instance demo_url.
#[local] Existing Instance demo_externals.
#[local] Existing Instance unicode_none.
#[local] Existing Instance amd64.

Definition demo_metrics : MemoryMetricsProvider :=
  SetMetric "proj" "cpu" (float_of_int 140) NewMemoryMetricsProvider.

Abbreviation DemoAuto := (AutoSys MemoryMetricsProvider MemoryProjectRepository DemoSys).

Definition demo_auto (lastUp : Time) : DemoAuto :=
  mkAuto {[ "proj" := DefaultPolicy "proj" ]} {[ "proj" := lastUp ]} ∅ demo_metrics None true demo_created.

(** Twice the target doubles the two replicas of the demo deployment. *)
Example demo_autoscale_runs :
  (λ r : option ScalingDecision * option error,
     ((λ d, (sd_CurrentReplicas d, sd_DesiredReplicas d, sd_Action d)) <$> r.1, r.2))
    (EvaluateAndScale (ent := demo_entropy) "proj" (demo_auto 0)).1
  = (Some (2, 4, ActionScaleUp), None).
Proof. vm_compute. reflexivity. Qed.


(** A platform whose clock stands at 1000 during the check. *)
Definition still_entropy : Entropy := {|
  uuid_at := uuid_at (Entropy := demo_entropy);
  now_at := λ _, 1000;
  order_at := λ _, order_id
|}.

Lemma still_entropy_laws : @EntropyLaws still_entropy.
Proof. destruct demo_entropy_laws as [H1 H2]. split; [exact H1|exact H2]. Qed.

Lemma still_ok : sys_ok (ent := still_entropy) demo_created.
Proof. destruct demo_created_ok. by split. Qed.

Lemma cooldown_holds_replicas_witness :
  wp (EvaluateAndScale (ent := still_entropy) "proj") (λ r a',
    r.2 = None ∧ view (a_sys a') = view (a_sys (demo_auto 990)) ∧ same_stamps (demo_auto 990) a')
    (demo_auto 990).
Proof.
  apply (cooldown_holds_replicas (ent := still_entropy) (entl := still_entropy_laws) "proj"
           (DefaultPolicy "proj") 990 (demo_auto 990)).
  - exact still_ok.
  - reflexivity.
  - reflexivity.
  - discriminate.
  - intros n _. reflexivity.
Defined.
