(* ===== verification/Registry.v ===== *)
(** * The image registry: internal/registry

    digest.go and signing.go (on the class [Crypto], which stands for the
    standard library's SHA-256, Ed25519 and base64), the in-memory registry of
    client.go with the check of the push namespace, its garbage collection
    (gc.go) and the coordinator of gc_policy.go. Bytes are strings. *)

From stdpp Require Import base option gmap strings list pretty fin_maps.
From Stdlib Require Import ZArith Lia Ascii.
From S2P Require Import Prelude GoLib.

(** ** crypto/sha256, encoding/hex, crypto/ed25519, encoding/base64 *)

Class Crypto := {
  sha256_hex : string → string;
  ed25519_Sign : string → string → string;
  ed25519_Verify : string → string → string → bool;
  base64_Encode : string → string;
  base64_Decode : string → error + string
}.

(** What these packages promise, for the key pairs [(private, public)]. *)
Class CryptoLaws `{!Crypto} (keypair : string → string → Prop) : Prop := {
  base64_roundtrip b : base64_Decode (base64_Encode b) = inr b;
  base64_nonempty b : b ≠ "" → base64_Encode b ≠ "";
  ed25519_size priv m : String.length (ed25519_Sign priv m) = 64%nat;
  ed25519_correct priv pub m : keypair priv pub → ed25519_Verify pub m (ed25519_Sign priv m) = true
}.

Section registry.
Context {cr : Crypto} {uni : Unicode}.

(** ** digest.go *)

Definition ErrDigestMismatch : error := "image digest verification failed: digest mismatch".
Definition ErrInvalidDigest : error := "invalid digest format: expected sha256:<hex>".

Definition ComputeDigest (data : string) : string := "sha256:" +:+ sha256_hex data.

Definition VerifyDigest (expectedDigest actualDigest : string) : option error :=
  let expected := TrimSpace (ToLower expectedDigest) in
  let actual := TrimSpace (ToLower actualDigest) in
  if decide (expected = "") then Some (ErrInvalidDigest +:+ ": expected digest cannot be empty")
  else if decide (actual = "") then Some (ErrInvalidDigest +:+ ": actual digest cannot be empty")
  else if decide (expected ≠ actual)
  then Some (ErrDigestMismatch +:+ ": expected '" +:+ expected +:+ "', got '" +:+ actual +:+ "'")
  else None.

(** ** signing.go *)

Definition ErrUnsignedImage : error :=
  "image is unsigned; cluster policy requires cryptographic signature (G-28)".
Definition ErrSignatureMismatch : error :=
  "image signature verification failed: signature does not match image digest (G-28)".
Definition ErrInvalidSignature : error := "malformed or invalid signature encoding".
Definition ErrMissingImageDigest : error := "cannot verify signature on image without cryptographic digest".

Definition signed_message (digest : string) : string := "nebula-image-signature:" +:+ digest.

(** The signer is its private key. *)
Definition Sign (privateKey digest : string) : error + string :=
  if decide (digest = "") then inl ErrMissingImageDigest
  else inr (base64_Encode (ed25519_Sign privateKey (signed_message digest))).

Record Ed25519ImageVerifier := mkVerifier {
  ev_trustedKeys : list string;
  ev_enforce : bool
}.

Definition NewEd25519ImageVerifier (trustedKeys : list string) : Ed25519ImageVerifier :=
  mkVerifier trustedKeys true.

Definition SetEnforce (enforce : bool) (v : Ed25519ImageVerifier) : Ed25519ImageVerifier :=
  mkVerifier (ev_trustedKeys v) enforce.

(** The verb [%v] on a nil error. *)
Definition show_error (err : option error) : string := default "<nil>" err.

Definition Verify (v : Ed25519ImageVerifier) (image digest signature : string) : option error :=
  if negb (ev_enforce v) then None
  else if decide (signature = "") then Some (ErrUnsignedImage +:+ " for image " +:+ image)
  else if decide (digest = "") then Some ErrMissingImageDigest
  else
  match base64_Decode signature with
  | inl err => Some (ErrInvalidSignature +:+ ": " +:+ show_error (Some err))
  | inr sigBytes =>
    if decide (String.length sigBytes ≠ 64%nat)
    then Some (ErrInvalidSignature +:+ ": " +:+ show_error None)
    else if existsb (λ key, ed25519_Verify key (signed_message digest) sigBytes) (ev_trustedKeys v)
    then None
    else Some (ErrSignatureMismatch +:+ " for image " +:+ image +:+ " (digest: " +:+ digest +:+ ")")
  end.

(** ** client.go *)

Definition ErrImageNotFound : error := "image not found in registry".
Definition ErrRegistryUnavailable : error := "registry service unavailable (G-27)".
Definition ErrUnauthorizedImagePush : error :=
  "unauthorized image push: build sandbox cannot push to repository outside its project namespace (§20)".

Record StoredImage := mkImage {
  im_Tag : string;
  im_Digest : string;
  im_Data : string
}.

Record MemoryRegistry := mkMemoryRegistry {
  mr_images : gmap string StoredImage;
  mr_available : bool
}.

Definition NewMemoryRegistry : MemoryRegistry := mkMemoryRegistry ∅ true.

Definition SetAvailable (available : bool) (r : MemoryRegistry) : MemoryRegistry :=
  mkMemoryRegistry (mr_images r) available.

Definition Push (tag data expectedDigest : string) (r : MemoryRegistry) : (error + string) * MemoryRegistry :=
  if negb (mr_available r) then (inl ErrRegistryUnavailable, r)
  else if decide (tag = "") then (inl "image tag cannot be empty", r)
  else
  let actualDigest := ComputeDigest data in
  match (if decide (expectedDigest = "") then None else VerifyDigest expectedDigest actualDigest) with
  | Some err => (inl err, r)
  | None => (inr actualDigest,
      mkMemoryRegistry (<[tag := mkImage tag actualDigest data]> (mr_images r)) (mr_available r))
  end.

(** The image under a tag, when the registry is there and has it. *)
Definition find_image (tag : string) (r : MemoryRegistry) : error + StoredImage :=
  if negb (mr_available r) then inl ErrRegistryUnavailable
  else match mr_images r !! tag with
       | None => inl (ErrImageNotFound +:+ ": " +:+ tag)
       | Some img => inr img
       end.

Definition GetDigest (tag : string) (r : MemoryRegistry) : error + string :=
  match find_image tag r with inl err => inl err | inr img => inr (im_Digest img) end.

Definition Pull (tag : string) (r : MemoryRegistry) : error + (string * string) :=
  match find_image tag r with inl err => inl err | inr img => inr (im_Data img, im_Digest img) end.

Definition HasImage (tag : string) (r : MemoryRegistry) : bool :=
  if negb (mr_available r) then false else bool_decide (is_Some (mr_images r !! tag)).

(** The repository of a tag, without the registry's host. *)
Definition strip_host (imageTag : string) : string :=
  match Cut imageTag "/" with
  | (firstPart, rest, true) =>
    if Contains firstPart ":" || Contains firstPart "." || String.eqb firstPart "localhost"
    then rest else imageTag
  | _ => imageTag
  end.

Definition AuthorizePush (projectID imageTag : string) : option error :=
  if decide (projectID = "") then Some (ErrUnauthorizedImagePush +:+ ": missing project_id")
  else if decide (imageTag = "") then Some (ErrUnauthorizedImagePush +:+ ": empty image tag")
  else
  let cleanRepo := split_head (strip_host imageTag) ":" in
  let expectedPrefix := "nebula/" +:+ projectID in
  let altPrefix := projectID +:+ "/" in
  if negb (String.eqb cleanRepo expectedPrefix) && negb (HasPrefix cleanRepo (expectedPrefix +:+ "/"))
     && negb (String.eqb cleanRepo projectID) && negb (HasPrefix cleanRepo altPrefix)
  then Some (ErrUnauthorizedImagePush +:+ ": project '" +:+ projectID +:+ "' not authorized to push to '"
             +:+ imageTag +:+ "'")
  else None.

(** ** gc.go *)

Record GCResult := mkGCResult {
  gc_DeletedImages : Z;
  gc_DeletedBlobs : Z;
  gc_ReclaimedBytes : Z;
  gc_RetainedImages : Z
}.

#[export] Instance GCResult_eta : Settable GCResult := λ r,
  mkGCResult (gc_DeletedImages r) (gc_DeletedBlobs r) (gc_ReclaimedBytes r) (gc_RetainedImages r).

Definition len (data : string) : Z := Z.of_nat (String.length data).

(** One turn of the loop over the images; it deletes only the current one. *)
Definition gc_image (active : list string) (st : GCResult * gmap string StoredImage)
    (entry : string * StoredImage) : GCResult * gmap string StoredImage :=
  let '(result, images) := st in
  let '(tag, img) := entry in
  if decide (im_Digest img ∈ active)
  then (result <| gc_RetainedImages ::= Z.succ |>, images)
  else (result <| gc_DeletedImages ::= Z.succ |> <| gc_ReclaimedBytes ::= Z.add (len (im_Data img)) |>,
        delete tag images).

Definition GarbageCollect (o : Order) (referencedDigests : list string) (r : MemoryRegistry) :
    (error + GCResult) * MemoryRegistry :=
  let '(result, images) :=
    fold_left (gc_image referencedDigests) (map_pairs o (mr_images r)) (mkGCResult 0 0 0 0, mr_images r) in
  (inr result, mkMemoryRegistry images (mr_available r)).

(** ** gc_policy.go *)

(** The provider: the digests, in the order of the map. *)
Definition MemoryDigestProvider : Type := gset string.
Definition AddDigest (d : string) (p : MemoryDigestProvider) : MemoryDigestProvider := {[d]} ∪ p.
Definition RemoveDigest (d : string) (p : MemoryDigestProvider) : MemoryDigestProvider := p ∖ {[d]}.
Definition GetReferencedDigests (o : Order) (p : MemoryDigestProvider) : error + list string :=
  inr (permute o (elements p)).

Record GCPolicyResult := mkPolicyResult {
  pr_ReferencedCount : Z;
  pr_TotalRegistryImgs : Z;
  pr_CandidateDigests : list string;
  pr_DeletedImages : Z;
  pr_ReclaimedBytes : Z;
  pr_RetainedImages : Z
}.

(** The cycle, for a provider's answer and an executor with its state [E];
    [None] is a nil collaborator. *)
Definition SelectCandidatesAndRun {E : Type} (provider : option (error + list string))
    (executor : option (list string → E → (error + GCResult) * E)) (e : E) :
    (error + GCPolicyResult) * E :=
  match provider, executor with
  | None, _ => (inl "no deployment digest provider configured for image GC", e)
  | _, None => (inl "no registry GC executor configured for image GC", e)
  | Some (inl err), _ => (inl ("failed to fetch referenced deployment digests: " +:+ err), e)
  | Some (inr referenced), Some collect =>
    let '(r, e) := collect referenced e in
    (match r with
     | inl err => inl ("garbage collection execution failed: " +:+ err)
     | inr gcRes => inr (mkPolicyResult (Z.of_nat (length referenced)) 0 [] (gc_DeletedImages gcRes)
                           (gc_ReclaimedBytes gcRes) (gc_RetainedImages gcRes))
     end, e)
  end.

(** The goroutine of [StartBackgroundLoop], for the provider and the registry in
    memory; nothing closes a channel of it, only its context ends it. *)
Definition gc_tick (o : Order * Order) (s : MemoryDigestProvider * MemoryRegistry) :
    bool * (MemoryDigestProvider * MemoryRegistry) :=
  (true, (s.1, (SelectCandidatesAndRun (Some (GetReferencedDigests o.1 s.1)) (Some (GarbageCollect o.2)) s.2).2)).

Definition StartBackgroundLoop (p : MemoryDigestProvider) (r : MemoryRegistry) :
    Loop (MemoryDigestProvider * MemoryRegistry) := go_loop (p, r).

End registry.

(** ** Garbage collection

    It removes the images whose digest is not referenced, whatever the order in
    which it visits them. *)

Section gc.
Context (refs : list string).
Implicit Types (l : list (string * StoredImage)) (m : gmap string StoredImage).

Definition referenced (kv : string * StoredImage) : Prop := im_Digest kv.2 ∈ refs.

#[export] Instance referenced_dec kv : Decision (referenced kv) := decide (im_Digest kv.2 ∈ refs).

Definition total_len l : Z := foldr (λ kv n, len (im_Data kv.2) + n) 0 l.

Definition count {A} (P : A → Prop) `{!∀ x, Decision (P x)} (xs : list A) : Z :=
  Z.of_nat (length (base.filter P xs)).

Lemma count_cons {A} (P : A → Prop) `{!∀ x, Decision (P x)} x (xs : list A) :
  count P (x :: xs) = (if decide (P x) then 1 else 0) + count P xs.
Proof. unfold count. rewrite filter_cons. case_decide; cbn [length]; lia. Qed.

Lemma count_pairs {V} (o : Order) (P : string * V → Prop) `{!∀ x, Decision (P x)} (mv : gmap string V) :
  count P (map_pairs o mv) = Z.of_nat (size (base.filter P mv)).
Proof. unfold count. by rewrite (map_pairs_filter o P mv), length_map_to_list. Qed.

Lemma total_len_perm l l' : l ≡ₚ l' → total_len l = total_len l'.
Proof. unfold total_len. induction 1; cbn; lia. Qed.

Lemma total_len_app l l' : total_len (l ++ l') = total_len l + total_len l'.
Proof. unfold total_len. induction l; cbn; lia. Qed.

(** The counters, once the sums over the list are names. *)
Lemma total_len_cons kv l : total_len (kv :: l) = len (im_Data kv.2) + total_len l.
Proof. done. Qed.

Ltac gc_counts l :=
  rewrite ?total_len_cons;
  generalize (count (λ kv, ¬ referenced kv) l) (count referenced l)
    (total_len (base.filter (λ kv, ¬ referenced kv) l));
  intros; do 2 f_equal; cbn; lia.

Lemma gc_fold l : ∀ m res, NoDup l.*1 → (∀ k v, (k, v) ∈ l → m !! k = Some v) →
  ∃ m', fold_left (gc_image refs) l (res, m) =
    (mkGCResult (gc_DeletedImages res + count (λ kv, ¬ referenced kv) l) (gc_DeletedBlobs res)
       (gc_ReclaimedBytes res + total_len (base.filter (λ kv, ¬ referenced kv) l))
       (gc_RetainedImages res + count referenced l), m') ∧
  ∀ i x, m' !! i = Some x ↔ m !! i = Some x ∧ ((i, x) ∈ l → referenced (i, x)).
Proof.
  induction l as [|[k v] l IH]; intros m res Hnd Hin.
  { exists m. split; [|intros i x; set_solver]. cbn. rewrite !Z.add_0_r. by destruct res. }
  apply NoDup_cons in Hnd as [Hk Hnd]. cbn [fold_left gc_image].
  assert (m !! k = Some v) as Hm by (apply Hin; left).
  assert (∀ x, (k, x) ∉ l) as Hkl. { intros x Hx. by apply Hk, (list_elem_of_fmap_2 fst _ (k, x)). }
  rewrite !count_cons, filter_cons. destruct (decide (im_Digest v ∈ refs)) as [Hr|Hr].
  - rewrite (decide_True (P := referenced (k, v))) by done.
    rewrite !(decide_False (P := ¬ referenced (k, v))) by (unfold referenced; tauto).
    edestruct (IH m) as (m' & -> & H); [done|set_solver|]. exists m'. split; [gc_counts l|].
    intros i x. rewrite H, elem_of_cons. naive_solver.
  - rewrite (decide_False (P := referenced (k, v))) by done.
    rewrite !(decide_True (P := ¬ referenced (k, v))) by done.
    edestruct (IH (delete k m)) as (m' & -> & H); [done| |].
    { intros j x Hj. rewrite lookup_delete_ne; [set_solver|]. intros <-. by apply Hkl in Hj. }
    exists m'. split; [gc_counts l|]. intros i x. rewrite H, elem_of_cons, lookup_delete_Some. split.
    + intros [[Hne Hx] Hl]. split; [done|]. intros [E|Hi]; [congruence|auto].
    + intros [Hx Hl]. split; [split; [|done]|by auto]. intros <-. apply Hr.
      rewrite Hm in Hx. injection Hx as <-. apply Hl. by left.
Qed.

Lemma gc_spec (o : Order) (r : MemoryRegistry) :
  let '(a, r') := GarbageCollect o refs r in
  let kept := base.filter referenced (mr_images r) in
  let gone := base.filter (λ kv, ¬ referenced kv) (mr_images r) in
  a = inr (mkGCResult (Z.of_nat (size gone)) 0 (total_len (map_to_list gone)) (Z.of_nat (size kept))) ∧
  r' = mkMemoryRegistry kept (mr_available r).
Proof.
  unfold GarbageCollect.
  destruct (gc_fold (map_pairs o (mr_images r)) (mr_images r) (mkGCResult 0 0 0 0)) as (m' & -> & H).
  { unfold map_pairs. rewrite permute_perm. apply NoDup_fst_map_to_list. }
  { intros k v. by rewrite elem_of_map_pairs. }
  cbv zeta. split.
  - do 2 f_equal; cbn.
    + apply count_pairs.
    + apply total_len_perm, map_pairs_filter.
    + apply count_pairs.
  - f_equal. apply map_eq. intros i. apply option_eq. intros x.
    rewrite H, map_lookup_filter_Some, elem_of_map_pairs. naive_solver.
Qed.
End gc.

(** ** Integrity *)

Section integrity.
Context {cr : Crypto} {uni : Unicode}.

Inductive registry_step : MemoryRegistry → MemoryRegistry → Prop :=
| rs_push tag data expected r : registry_step r (Push tag data expected r).2
| rs_collect o refs r : registry_step r (GarbageCollect o refs r).2
| rs_available b r : registry_step r (SetAvailable b r).

(** An image is under its tag, with the digest of its data. *)
Definition image_ok (tag : string) (img : StoredImage) : Prop :=
  im_Tag img = tag ∧ im_Digest img = ComputeDigest (im_Data img).

Definition registry_ok (r : MemoryRegistry) : Prop := map_Forall image_ok (mr_images r).

(** A push answers with the digest and stores the image, or changes nothing. *)
Lemma push_spec tag data expected r :
  let '(a, r') := Push tag data expected r in
  match a with
  | inl _ => r' = r
  | inr digest => digest = ComputeDigest data ∧ mr_available r = true ∧ tag ≠ "" ∧
      (expected ≠ "" → VerifyDigest expected digest = None) ∧
      r' = mkMemoryRegistry (<[tag := mkImage tag digest data]> (mr_images r)) true
  end.
Proof.
  unfold Push. destruct (mr_available r) eqn:Ha; cbn; [|done]. case_decide as Ht; [done|].
  case_decide as He; [done|]. by destruct (VerifyDigest expected (ComputeDigest data)) eqn:E.
Qed.

Lemma registry_step_ok r r' : registry_step r r' → registry_ok r → registry_ok r'.
Proof.
  intros [tag data expected r0|o refs r0|b r0] H; [| |done].
  - pose proof (push_spec tag data expected r0) as Hp. destruct (Push tag data expected r0) as [[e|d] r1].
    { by subst r1. }
    destruct Hp as (-> & _ & _ & _ & ->). by apply map_Forall_insert_2.
  - pose proof (gc_spec refs o r0) as Hg. destruct (GarbageCollect o refs r0) as [a r1].
    destruct Hg as [_ ->]. cbn. intros tag img [Hi _]%map_lookup_filter_Some. by apply H.
Qed.

Lemma registry_reach_ok r : rtc registry_step NewMemoryRegistry r → registry_ok r.
Proof.
  assert (∀ r0, registry_ok r0 → rtc registry_step r0 r → registry_ok r) as H.
  { intros r0 H0 Hr. induction Hr as [|r1 r2 r3 Hs _ IH]; [done|]. by eapply IH, registry_step_ok. }
  apply H, map_Forall_empty.
Qed.

(** C29: In every state of the registry reached by pushes, collections and
    outages, a pull answers data with its own digest; a push that succeeds is
    what the next pull of the tag gives, under a digest that agrees with the
    expected one, and leaves the other tags; a push that fails changes nothing. *)
Theorem registry_integrity r :
  rtc registry_step NewMemoryRegistry r →
  (∀ tag data digest, Pull tag r = inr (data, digest) → digest = ComputeDigest data) ∧
  (∀ tag data expected digest r', Push tag data expected r = (inr digest, r') →
    Pull tag r' = inr (data, digest) ∧ GetDigest tag r' = inr digest ∧
    (expected ≠ "" → VerifyDigest expected digest = None) ∧
    ∀ tag', tag' ≠ tag → Pull tag' r' = Pull tag' r) ∧
  (∀ tag data expected err r', Push tag data expected r = (inl err, r') → r' = r).
Proof.
  intros Hok%registry_reach_ok. split_and!.
  - intros tag data digest. unfold Pull, find_image. destruct (mr_available r); cbn; [|done].
    destruct (mr_images r !! tag) as [img|] eqn:E; [|done]. intros ?. simplify_eq. by destruct (Hok _ _ E).
  - intros tag data expected digest r' E. pose proof (push_spec tag data expected r) as Hp. rewrite E in Hp.
    destruct Hp as (-> & Ha & _ & Hv & ->). unfold GetDigest, Pull, find_image. cbn. rewrite Ha, !lookup_insert_eq.
    split_and!; [done..|]. intros tag' Hne. by rewrite lookup_insert_ne.
  - intros tag data expected err r' E. pose proof (push_spec tag data expected r) as Hp. by rewrite E in Hp.
Qed.

(** What others do with the provider and the registry while the loop runs, short
    of a push under [tag] and of giving up the digest [d]. *)
Inductive registry_use (tag d : string) : MemoryDigestProvider * MemoryRegistry → MemoryDigestProvider * MemoryRegistry → Prop :=
| ru_add d' p r : registry_use tag d (p, r) (AddDigest d' p, r)
| ru_remove d' p r : d' ≠ d → registry_use tag d (p, r) (RemoveDigest d' p, r)
| ru_push tag' data expected p r : tag' ≠ tag → registry_use tag d (p, r) (p, (Push tag' data expected r).2)
| ru_available b p r : registry_use tag d (p, r) (p, SetAvailable b r).

(** The background loop never takes an image whose digest stays referenced,
    whatever is pushed and referenced meanwhile. *)
Theorem background_gc_keeps p r tag img l :
  mr_images r !! tag = Some img → im_Digest img ∈ p →
  rtc (loop_step gc_tick (registry_use tag (im_Digest img))) (StartBackgroundLoop p r) l →
  mr_images (lp_state l).2 !! tag = Some img ∧ im_Digest img ∈ (lp_state l).1.
Proof.
  intros Hi Hp Hrun.
  apply (loop_keeps gc_tick (registry_use tag (im_Digest img))
    (λ s, mr_images s.2 !! tag = Some img ∧ im_Digest img ∈ s.1) _ _) in Hrun; [done| | |done].
  - intros [o o'] [p1 r1] [Hi1 Hp1]. cbn [gc_tick snd fst]. split; [|done].
    unfold SelectCandidatesAndRun, GetReferencedDigests. cbn [fst snd].
    pose proof (gc_spec (permute o (elements p1)) o' r1) as Hg.
    destruct (GarbageCollect o' _ r1) as [a r2]. destruct Hg as [-> ->]. cbn.
    apply map_lookup_filter_Some. split; [done|]. unfold referenced. cbn. by rewrite elem_of_permute, elem_of_elements.
  - intros s1 s2 [Hi1 Hp1] Hs. destruct Hs as [d' p1 r1|d' p1 r1 Hd|tag' data expected p1 r1 Ht|b p1 r1];
      unfold AddDigest, RemoveDigest in *; cbn in *; [set_solver..| |done].
    split; [|done]. pose proof (push_spec tag' data expected r1) as Hpush.
    destruct (Push tag' data expected r1) as [[e|d] r2]; [by subst r2|].
    destruct Hpush as (_ & _ & _ & _ & ->). cbn. by rewrite lookup_insert_ne.
Qed.

(** C20: A garbage collection cycle keeps exactly the images whose digest the
    provider reports as referenced, whatever the order of the maps; its counters
    add up to the images and bytes that were there; when the provider fails,
    nothing is deleted. *)
Theorem gc_cycle_safe (o o' : Order) (p : MemoryDigestProvider) (r : MemoryRegistry) :
  (∃ result r',
    SelectCandidatesAndRun (Some (GetReferencedDigests o p)) (Some (GarbageCollect o')) r = (inr result, r') ∧
    mr_available r' = mr_available r ∧
    (∀ tag img, mr_images r' !! tag = Some img ↔ mr_images r !! tag = Some img ∧ im_Digest img ∈ p) ∧
    pr_ReferencedCount result = Z.of_nat (size p) ∧
    pr_RetainedImages result = Z.of_nat (size (mr_images r')) ∧
    pr_DeletedImages result + pr_RetainedImages result = Z.of_nat (size (mr_images r)) ∧
    pr_ReclaimedBytes result + total_len (map_to_list (mr_images r')) = total_len (map_to_list (mr_images r))) ∧
  (∀ err, ∃ msg, SelectCandidatesAndRun (Some (inl err)) (Some (GarbageCollect o')) r = (inl msg, r)).
Proof.
  split; [|intros err; by eexists]. unfold SelectCandidatesAndRun, GetReferencedDigests.
  set (refs := permute o (elements p)). pose proof (gc_spec refs o' r) as Hg.
  destruct (GarbageCollect o' refs r) as [a r']. cbv zeta in Hg. destruct Hg as [-> ->].
  assert (∀ d, d ∈ refs ↔ d ∈ p) as Hrefs. { intros d. unfold refs. by rewrite elem_of_permute, elem_of_elements. }
  eexists _, _. split; [done|]. cbn. split_and!; [done| | |done| |].
  - intros tag img. rewrite map_lookup_filter_Some. unfold referenced. cbn. by rewrite Hrefs.
  - unfold refs. by rewrite (permute_perm o).
  - apply size_filter_split.
  - rewrite <- total_len_app. apply total_len_perm, map_filter_split.
Qed.

(** ** Signatures *)

(** A signature made with a trusted key is accepted for its digest, and under
    enforcement an accepted signature is for a digest that is not empty and is
    valid for the digest's message under one of the trusted keys. *)
Theorem signature_roundtrip {keypair} `{!CryptoLaws keypair} (v : Ed25519ImageVerifier) priv pub image digest :
  keypair priv pub → pub ∈ ev_trustedKeys v →
  (digest ≠ "" → ∃ s, Sign priv digest = inr s ∧ Verify v image digest s = None) ∧
  (∀ s, ev_enforce v = true → Verify v image digest s = None →
    digest ≠ "" ∧ ∃ key sig, key ∈ ev_trustedKeys v ∧ base64_Decode s = inr sig ∧
      ed25519_Verify key (signed_message digest) sig = true).
Proof.
  intros Hk Hin. split.
  - intros Hd. unfold Sign. rewrite decide_False by done. eexists. split; [done|].
    unfold Verify. destruct (ev_enforce v); cbn; [|done].
    pose proof (ed25519_size priv (signed_message digest)) as Hsize.
    rewrite decide_False.
    2: { apply base64_nonempty. intros E. rewrite E in Hsize. discriminate. }
    rewrite decide_False, base64_roundtrip, decide_False by naive_solver.
    rewrite (proj2 (existsb_exists _ _)); [done|]. exists pub. split; [by apply list_elem_of_In|].
    by apply ed25519_correct.
  - intros s He. unfold Verify. rewrite He. cbn. case_decide; [done|]. case_decide as Hd; [done|].
    destruct (base64_Decode s) as [err|sig]; [done|]. case_decide; [done|].
    destruct (existsb _ _) eqn:E; [|done]. apply existsb_exists in E as (key & Hkey & Hv).
    intros _. split; [done|]. exists key, sig. by rewrite list_elem_of_In.
Qed.

(** ** Push namespaces *)

(** The repositories that a project may push to. *)
Definition owns (projectID repo : string) : Prop :=
  repo = "nebula/" +:+ projectID ∨ HasPrefix repo ("nebula/" +:+ projectID +:+ "/") = true ∨
  repo = projectID ∨ HasPrefix repo (projectID +:+ "/") = true.

Lemma authorize_spec projectID imageTag :
  AuthorizePush projectID imageTag = None ↔
  projectID ≠ "" ∧ imageTag ≠ "" ∧ owns projectID (split_head (strip_host imageTag) ":").
Proof.
  unfold AuthorizePush, owns. set (repo := split_head _ _).
  case_decide; [naive_solver|]. case_decide; [naive_solver|].
  change (("nebula/" +:+ projectID) +:+ "/") with ("nebula/" +:+ projectID +:+ "/").
  destruct (String.eqb_spec repo ("nebula/" +:+ projectID)), (String.eqb_spec repo projectID),
    (HasPrefix repo ("nebula/" +:+ projectID +:+ "/")), (HasPrefix repo (projectID +:+ "/")); cbn; naive_solver.
Qed.

(** The first part of a repository, or the second under "nebula". *)
Definition namespace (repo : string) : string :=
  let '(first, rest, _) := Cut repo "/" in
  if String.eqb first "nebula" then (Cut rest "/").1.1 else first.

Lemma owns_namespace projectID repo :
  str_free "/" projectID = true → projectID ≠ "nebula" → owns projectID repo → namespace repo = projectID.
Proof.
  intros Hf Hn. unfold namespace. intros [->|[[t ->]%HasPrefix_app|[->|[t ->]%HasPrefix_app]]].
  - change ("nebula/" +:+ projectID) with ("nebula" +:+ String "/" projectID).
    rewrite (Cut_sep "/" "nebula") by done. cbn. by rewrite (Cut_free _ _ Hf).
  - replace (("nebula/" +:+ projectID +:+ "/") +:+ t) with ("nebula" +:+ String "/" (projectID +:+ String "/" t))
      by (by rewrite !str_app_assoc).
    rewrite (Cut_sep "/" "nebula") by done. cbn. by rewrite Cut_sep.
  - rewrite (Cut_free _ _ Hf). by rewrite (proj2 (String.eqb_neq _ _) Hn).
  - replace ((projectID +:+ "/") +:+ t) with (projectID +:+ String "/" t) by (by rewrite str_app_assoc).
    rewrite Cut_sep by done. by rewrite (proj2 (String.eqb_neq _ _) Hn).
Qed.

(** Two projects whose names have no slash and are not nebula are never both
    authorized to push to the same image tag. *)
Theorem push_namespaces_disjoint p1 p2 imageTag :
  str_free "/" p1 = true → str_free "/" p2 = true → p1 ≠ "nebula" → p2 ≠ "nebula" →
  AuthorizePush p1 imageTag = None → AuthorizePush p2 imageTag = None → p1 = p2.
Proof.
  intros F1 F2 N1 N2 (_ & _ & H1)%authorize_spec (_ & _ & H2)%authorize_spec.
  apply owns_namespace in H1; [|done..]. apply owns_namespace in H2; [|done..]. congruence.
Qed.

End integrity.

(** ** A toy cryptography, for evaluation

    The digest of a string is the string, and the signature of a message by a
    key is the key, the message and padding, cut to 64 bytes. *)

Definition toy_pad : string := "................................................................".

Definition toy_sign (key m : string) : string := str_take 64 (key +:+ m +:+ toy_pad).

Definition toy_crypto : Crypto := {|
  sha256_hex := id;
  ed25519_Sign := toy_sign;
  ed25519_Verify key m sig := String.eqb sig (toy_sign key m);
  base64_Encode := id;
  base64_Decode := inr
|}.

Lemma substring_length n s : (n ≤ String.length s)%nat → String.length (String.substring 0 n s) = n.
Proof. revert s. induction n as [|n IH]; intros [|c s]; cbn; [done..|lia|]. intros H. f_equal. apply IH. lia. Qed.

Lemma toy_crypto_laws : @CryptoLaws toy_crypto eq.
Proof.
  split; cbn; [done|done| |].
  - intros priv m. unfold toy_sign, str_take. apply substring_length.
    rewrite !str_app_length. change (String.length toy_pad) with 64%nat. lia.
  - intros priv pub m ->. apply String.eqb_refl.
Qed.

#[local] Existing Instance toy_crypto.
#[local] Existing Instance toy_crypto_laws.
#[local] Existing Instance unicode_none.

Definition demo_images : MemoryRegistry :=
  (Push "nebula/shop:1" "layers" "sha256:layers" NewMemoryRegistry).2.

Lemma demo_images_reach : rtc registry_step NewMemoryRegistry demo_images.
Proof. apply rtc_once, (rs_push "nebula/shop:1" "layers" "sha256:layers"). Qed.

Lemma registry_integrity_witness :
  Pull "nebula/shop:1" demo_images = inr ("layers", "sha256:layers") ∧
  ∀ tag data digest, Pull tag demo_images = inr (data, digest) → digest = ComputeDigest data.
Proof. split; [reflexivity|exact (proj1 (registry_integrity demo_images demo_images_reach))]. Defined.

Lemma signature_roundtrip_witness :
  ∃ s, Sign "key" "sha256:layers" = inr s ∧
    Verify (NewEd25519ImageVerifier ["other"; "key"]) "nebula/shop:1" "sha256:layers" s = None.
Proof.
  refine (proj1 (signature_roundtrip (keypair := eq) (NewEd25519ImageVerifier ["other"; "key"]) "key" "key"
    "nebula/shop:1" "sha256:layers" eq_refl _) _); [|discriminate].
  apply list_elem_of_In. cbn. tauto.
Defined.

Lemma push_namespaces_disjoint_witness :
  AuthorizePush "shop" "localhost/nebula/shop/web:1" = None ∧
  (AuthorizePush "blog" "localhost/nebula/shop/web:1" = None → "shop" = "blog").
Proof.
  split; [reflexivity|].
  exact (push_namespaces_disjoint "shop" "blog" "localhost/nebula/shop/web:1" eq_refl eq_refl
    ltac:(discriminate) ltac:(discriminate) eq_refl).
Defined.

(** A project that is called "nebula" may push to the namespaces of all. *)
Example nebula_project_owns_all : AuthorizePush "nebula" "nebula/shop:1" = None.
Proof. reflexivity. Qed.

(** An image is gone when a tick comes between its push and the record of the
    deployment that refers to it. *)
Example gc_takes_a_new_image :
  let l := loop_turn gc_tick (StartBackgroundLoop ∅ demo_images) (LoopTick (order_id, order_id)) in
  let '(p, r) := lp_state l in
  Pull "nebula/shop:1" demo_images = inr ("layers", "sha256:layers")
  ∧ (∃ err, Pull "nebula/shop:1" r = inl err) ∧ "sha256:layers" ∈ AddDigest "sha256:layers" p.
Proof. split_and!; [reflexivity|eexists; vm_compute; reflexivity|set_solver]. Qed.
