(* ===== verification/RegistryServer.v ===== *)
(** * The embedded registry: internal/registry/server.go and gc.go

    The handlers of the registry's HTTP API, as functions from the request and
    the server's maps to the response and the maps, and its garbage collection.
    The listener and the goroutine that serves are net/http. The body of a
    request is what reading it gives; its errors are not modelled. *)

From stdpp Require Import base option gmap strings list pretty.
From Stdlib Require Import ZArith Lia Ascii.
From S2P Require Import Prelude GoLib Registry.

Record HttpRequest := mkRequest {
  hr_Method : string;
  hr_Path : string;
  hr_Body : string
}.

(** The headers in the order in which they are set. *)
Record HttpResponse := mkResponse {
  hs_Code : Z;
  hs_Header : list (string * string);
  hs_Body : string
}.

Record EmbeddedRegistryServer := mkServer {
  es_manifests : gmap string string;
  es_manifestDg : gmap string string;
  es_blobs : gmap string string;
  es_uploads : gmap string string;
  es_available : bool
}.

#[export] Instance Server_eta : Settable EmbeddedRegistryServer := λ s,
  mkServer (es_manifests s) (es_manifestDg s) (es_blobs s) (es_uploads s) (es_available s).

Definition NewEmbeddedRegistryServer : EmbeddedRegistryServer := mkServer ∅ ∅ ∅ ∅ true.

Definition srv_SetAvailable (available : bool) (s : EmbeddedRegistryServer) : EmbeddedRegistryServer :=
  s <| es_available := available |>.

Definition newline : string := String (ascii_of_nat 10) EmptyString.

(** [http.Error] and [http.NotFound] end the message with a newline. *)
Definition http_Error (h : list (string * string)) (msg : string) (code : Z) : HttpResponse :=
  mkResponse code h (msg +:+ newline).

Definition NotFound (h : list (string * string)) : HttpResponse := http_Error h "404 page not found" 404.

(** The errors of the registry's API, as JSON. *)
Definition error_body (code message : string) : string :=
  "{" +:+ quote "errors" +:+ ":[{" +:+ quote "code" +:+ ":" +:+ quote code +:+ ","
  +:+ quote "message" +:+ ":" +:+ quote message +:+ "}]}".

Definition api_version : list (string * string) := [("Docker-Distribution-API-Version", "registry/2.0")].

(** [strings.Join(parts, "/")]. *)
Fixpoint join_path (parts : list string) : string :=
  match parts with
  | [] => EmptyString
  | [p] => p
  | p :: parts' => p +:+ "/" +:+ join_path parts'
  end.

(** The index of the first part that is [x]. *)
Fixpoint index_of (x : string) (parts : list string) : option nat :=
  match parts with
  | [] => None
  | p :: parts' => if String.eqb p x then Some 0%nat else S <$> index_of x parts'
  end.

Section server.
Context {cr : Crypto}.

(** The repository and the reference of a manifest's path. *)
Definition manifest_ref (parts : list string) : option (string * string) :=
  match index_of "manifests" parts with
  | None => None
  | Some idx =>
    if (idx <? 2)%nat then None
    else match parts !! S idx with
         | None => None
         | Some reference => Some (join_path (take (idx - 1) (drop 1 parts)), reference)
         end
  end.

Definition ref_key (repo reference : string) : string := repo +:+ ":" +:+ reference.

Definition put_manifest (repo reference body : string) (s : EmbeddedRegistryServer) :
    HttpResponse * EmbeddedRegistryServer :=
  let digest := ComputeDigest body in
  (mkResponse 201 (api_version ++ [("Docker-Content-Digest", digest);
                     ("Location", "/v2/" +:+ repo +:+ "/manifests/" +:+ digest)]) "",
   s <| es_manifests ::= λ m, <[ref_key repo digest := body]> (<[ref_key repo reference := body]> m) |>
     <| es_manifestDg ::= <[ref_key repo reference := digest]> |>).

(** The body under the key, and the digest of a tag; a digest as reference is
    looked for once more. *)
Definition find_manifest (repo reference : string) (s : EmbeddedRegistryServer) : option (string * string) :=
  let key := ref_key repo reference in
  match es_manifests s !! key with
  | Some body => Some (body, lookup_str (es_manifestDg s) key)
  | None =>
    if HasPrefix reference "sha256:" then
      match es_manifests s !! ref_key repo reference with
      | Some body => Some (body, reference)
      | None => None
      end
    else None
  end.

Definition content_response (isGet : bool) (digest contentType body : string) : HttpResponse :=
  mkResponse 200 (api_version ++ [("Docker-Content-Digest", digest); ("Content-Type", contentType);
                                  ("Content-Length", Itoa (len body))])
    (if isGet then body else "").

Definition manifest_unknown : string := error_body "MANIFEST_UNKNOWN" "manifest unknown".

Definition handleManifests (r : HttpRequest) (parts : list string) (s : EmbeddedRegistryServer) :
    HttpResponse * EmbeddedRegistryServer :=
  match manifest_ref parts with
  | None => (NotFound api_version, s)
  | Some (repo, reference) =>
    if String.eqb (hr_Method r) "PUT" then put_manifest repo reference (hr_Body r) s
    else if String.eqb (hr_Method r) "GET" || String.eqb (hr_Method r) "HEAD" then
      (match find_manifest repo reference s with
       | None => http_Error api_version manifest_unknown 404
       | Some (body, digest) =>
         content_response (String.eqb (hr_Method r) "GET") digest
           "application/vnd.docker.distribution.manifest.v2+json" body
       end, s)
    else (http_Error api_version "method not allowed" 405, s)
  end.

Definition last_part (parts : list string) : string := default "" (last parts).

(** [uploadID] is the result of [uuid.New]. *)
Definition handleUploads (uploadID : string) (r : HttpRequest) (parts : list string) (s : EmbeddedRegistryServer) :
    HttpResponse * EmbeddedRegistryServer :=
  if String.eqb (hr_Method r) "POST" then
    (mkResponse 202 (api_version ++ [("Location", "/v2/blobs/uploads/" +:+ uploadID);
                       ("Docker-Upload-UUID", uploadID); ("Range", "0-0")]) "",
     s <| es_uploads ::= <[uploadID := ""]> |>)
  else if String.eqb (hr_Method r) "PUT" then
    let digest := ComputeDigest (hr_Body r) in
    (mkResponse 201 (api_version ++ [("Docker-Content-Digest", digest)]) "",
     s <| es_blobs ::= <[digest := hr_Body r]> |> <| es_uploads ::= delete (last_part parts) |>)
  else (mkResponse 202 api_version "", s).

Definition handleBlobs (uploadID : string) (r : HttpRequest) (parts : list string) (s : EmbeddedRegistryServer) :
    HttpResponse * EmbeddedRegistryServer :=
  if Contains (hr_Path r) "/blobs/uploads" then handleUploads uploadID r parts s
  else
  let digest := last_part parts in
  if String.eqb (hr_Method r) "GET" || String.eqb (hr_Method r) "HEAD" then
    (match es_blobs s !! digest with
     | None => NotFound api_version
     | Some content =>
       content_response (String.eqb (hr_Method r) "GET") digest "application/octet-stream" content
     end, s)
  else (http_Error api_version "method not allowed" 405, s).

Definition registry_unavailable : string := error_body "UNAVAILABLE" "registry service unavailable (G-27)".

Definition srv_ServeHTTP (uploadID : string) (r : HttpRequest) (s : EmbeddedRegistryServer) :
    HttpResponse * EmbeddedRegistryServer :=
  if negb (es_available s) then (http_Error [] registry_unavailable 503, s)
  else
  let path := TrimPrefix (hr_Path r) "/" in
  let parts := Split path "/" in
  if String.eqb path "v2" || String.eqb path "v2/"
  then (mkResponse 200 (api_version ++ [("Content-Type", "application/json")]) "{}", s)
  else if (length parts <? 2)%nat || negb (String.eqb (default "" (head parts)) "v2")
  then (NotFound api_version, s)
  else if Contains path "/manifests/" then handleManifests r parts s
  else if Contains path "/blobs/" then handleBlobs uploadID r parts s
  else (NotFound api_version, s).

(** ** Garbage collection *)

(** The loop over the digests of the tags. *)
Definition gc_manifest (active : list string)
    (st : GCResult * (gmap string string * gmap string string)) (entry : string * string) :
    GCResult * (gmap string string * gmap string string) :=
  let '(result, (manifestDg, manifests)) := st in
  let '(ref, dg) := entry in
  if decide (dg ∈ active) then (result <| gc_RetainedImages ::= Z.succ |>, (manifestDg, manifests))
  else (result <| gc_DeletedImages ::= Z.succ |>, (delete ref manifestDg, delete ref manifests)).

(** The loop over the blobs. *)
Definition gc_blob (active : list string) (st : GCResult * gmap string string) (entry : string * string) :
    GCResult * gmap string string :=
  let '(result, blobs) := st in
  let '(dg, blob) := entry in
  if decide (dg ∈ active) then (result, blobs)
  else (result <| gc_DeletedBlobs ::= Z.succ |> <| gc_ReclaimedBytes ::= Z.add (len blob) |>, delete dg blobs).

Definition srv_GarbageCollect (o1 o2 : Order) (referencedDigests : list string) (s : EmbeddedRegistryServer) :
    (error + GCResult) * EmbeddedRegistryServer :=
  let '(result, (manifestDg, manifests)) :=
    fold_left (gc_manifest referencedDigests) (map_pairs o1 (es_manifestDg s))
      (mkGCResult 0 0 0 0, (es_manifestDg s, es_manifests s)) in
  let '(result, blobs) :=
    fold_left (gc_blob referencedDigests) (map_pairs o2 (es_blobs s)) (result, es_blobs s) in
  (inr result, s <| es_manifests := manifests |> <| es_manifestDg := manifestDg |> <| es_blobs := blobs |>).

End server.

(** ** What the collection leaves *)

(** A fold that deletes the keys of some entries. *)
Definition purge {V W : Type} (P : string * V → Prop) `{!∀ x, Decision (P x)} (l : list (string * V))
    (m : gmap string W) : gmap string W :=
  fold_left (λ m kv, if decide (P kv) then m else delete kv.1 m) l m.

Lemma lookup_purge {V W} (P : string * V → Prop) `{!∀ x, Decision (P x)} l (m : gmap string W) i x :
  purge P l m !! i = Some x ↔ m !! i = Some x ∧ ∀ v, (i, v) ∈ l → P (i, v).
Proof.
  unfold purge. revert m. induction l as [|[k v] l IH]; intros m; cbn; [set_solver|].
  rewrite IH. setoid_rewrite elem_of_cons. case_decide as Hp.
  - split; intros [Hm Hl]; (split; [done|]); naive_solver.
  - rewrite lookup_delete_Some. split.
    + intros [[Hne Hm] Hl]. split; [done|]. naive_solver.
    + intros [Hm Hl]. split; [split; [|done]|naive_solver]. intros <-. by apply Hp, Hl; left.
Qed.

(** Over its own entries it is a filter. *)
Lemma purge_own {V} (P : string * V → Prop) `{!∀ x, Decision (P x)} o (m : gmap string V) :
  purge P (map_pairs o m) m = base.filter P m.
Proof.
  apply map_eq. intros i. apply option_eq. intros x. rewrite lookup_purge, map_lookup_filter_Some.
  setoid_rewrite elem_of_map_pairs. naive_solver.
Qed.

Section collect.
Context (refs : list string).

Lemma gc_manifest_fold l : ∀ res dg ms,
  fold_left (gc_manifest refs) l (res, (dg, ms)) =
    (mkGCResult (gc_DeletedImages res + count (λ kv, kv.2 ∉ refs) l) (gc_DeletedBlobs res)
       (gc_ReclaimedBytes res) (gc_RetainedImages res + count (λ kv, kv.2 ∈ refs) l),
     (purge (λ kv, kv.2 ∈ refs) l dg, purge (λ kv, kv.2 ∈ refs) l ms)).
Proof.
  induction l as [|[r d] l IH]; intros res dg ms.
  { cbn. rewrite !Z.add_0_r. by destruct res. }
  cbn [fold_left gc_manifest]. rewrite !count_cons. unfold purge. cbn [fold_left snd fst].
  destruct (decide (d ∈ refs)) as [Hd|Hd]; rewrite IH; unfold purge;
    generalize (count (λ kv : string * string, kv.2 ∉ refs) l) (count (λ kv : string * string, kv.2 ∈ refs) l);
    intros n1 n2; repeat case_decide; try done; f_equal; f_equal; cbn; lia.
Qed.

Definition blob_len (l : list (string * string)) : Z := foldr (λ kv n, len kv.2 + n) 0 l.

Lemma blob_len_app l l' : blob_len (l ++ l') = blob_len l + blob_len l'.
Proof. unfold blob_len. induction l; cbn; lia. Qed.

Lemma blob_len_perm l l' : l ≡ₚ l' → blob_len l = blob_len l'.
Proof. unfold blob_len. induction 1; cbn; lia. Qed.

Lemma gc_blob_fold l : ∀ res blobs,
  fold_left (gc_blob refs) l (res, blobs) =
    (mkGCResult (gc_DeletedImages res) (gc_DeletedBlobs res + count (λ kv, kv.1 ∉ refs) l)
       (gc_ReclaimedBytes res + blob_len (base.filter (λ kv, kv.1 ∉ refs) l)) (gc_RetainedImages res),
     purge (λ kv, kv.1 ∈ refs) l blobs).
Proof.
  induction l as [|[d b] l IH]; intros res blobs.
  { cbn. rewrite !Z.add_0_r. by destruct res. }
  cbn [fold_left gc_blob]. rewrite count_cons, filter_cons. unfold purge. cbn [fold_left snd fst].
  destruct (decide (d ∈ refs)) as [Hd|Hd]; rewrite IH; unfold purge.
  - rewrite !(decide_False (P := d ∉ refs)) by tauto. done.
  - rewrite !(decide_True (P := d ∉ refs)) by done.
    change (blob_len ((d, b) :: ?l0)) with (len b + blob_len l0).
    generalize (count (λ kv : string * string, kv.1 ∉ refs) l) (blob_len (base.filter (λ kv, kv.1 ∉ refs) l)).
    intros n1 n2. f_equal. f_equal; cbn; lia.
Qed.

End collect.

(** ** Paths *)

Definition plain (p : string) : Prop := str_free "/" p = true.

Lemma Split_join (parts : list string) :
  parts ≠ [] → Forall plain parts → Split (join_path parts) "/" = parts.
Proof.
  induction parts as [|p parts IH]; [done|]. intros _ [Hp Hl]%Forall_cons.
  destruct parts as [|q parts]; [by apply Split_free|].
  change (join_path (p :: q :: parts)) with (p +:+ String "/" (join_path (q :: parts))).
  rewrite Split_sep by done. by rewrite IH.
Qed.

(** The last parts of a path, after a separator. *)
Lemma join_path_snoc (p : string) (l1 l2 : list string) :
  l2 ≠ [] → ∃ s, join_path (p :: l1 ++ l2) = s +:+ "/" +:+ join_path l2.
Proof.
  intros Hl. revert p. induction l1 as [|q l1 IH]; intros p.
  - exists p. by destruct l2.
  - destruct (IH q) as [s Hs]. exists (p +:+ "/" +:+ s).
    change (join_path (p :: (q :: l1) ++ l2)) with (p +:+ "/" +:+ join_path (q :: l1 ++ l2)).
    by rewrite Hs, !str_app_assoc.
Qed.

Lemma index_of_here (x : string) (l l' : list string) : x ∉ l → index_of x (l ++ x :: l') = Some (length l).
Proof.
  induction l as [|y l IH]; cbn; [by rewrite String.eqb_refl|].
  intros [Hy Hl]%not_elem_of_cons. rewrite (proj2 (String.eqb_neq _ _)) by done. by rewrite IH.
Qed.

(** A path of the API of manifests. *)
Definition manifest_path (repo : list string) (reference : string) : list string :=
  "v2" :: repo ++ ["manifests"; reference].

Lemma manifest_ref_path repo reference :
  repo ≠ [] → "manifests" ∉ repo →
  manifest_ref (manifest_path repo reference) = Some (join_path repo, reference).
Proof.
  intros Hne Hm. unfold manifest_ref, manifest_path.
  assert ("manifests" ∉ "v2" :: repo) as Hv by (apply not_elem_of_cons; split; [discriminate|done]).
  pose proof (index_of_here "manifests" ("v2" :: repo) [reference] Hv) as E.
  change (("v2" :: repo) ++ ["manifests"; reference]) with ("v2" :: repo ++ ["manifests"; reference]) in E.
  rewrite E. clear E. cbn [length]. destruct (Nat.ltb_spec (S (length repo)) 2) as [Hl|Hl].
  { destruct repo; [by destruct Hne|cbn in Hl; lia]. }
  replace (("v2" :: repo ++ ["manifests"; reference]) !! S (S (length repo))) with (Some reference).
  - replace (take _ _) with repo; [done|]. cbn. by rewrite drop_0, Nat.sub_0_r, take_app_length.
  - change (Some reference = (repo ++ ["manifests"; reference]) !! S (length repo)).
    rewrite lookup_app_r by lia. by replace (S (length repo) - length repo)%nat with 1%nat by lia.
Qed.

(** ** What the server promises *)

Section contract.
Context {cr : Crypto}.

Lemma TrimPrefix_slash p : TrimPrefix ("/" +:+ p) "/" = p.
Proof. by destruct p. Qed.

(** A manifest request is served by [handleManifests]. *)
Lemma ServeHTTP_manifests id r repo reference s :
  es_available s = true → Forall plain repo → plain reference → repo ≠ [] → "manifests" ∉ repo →
  hr_Path r = "/" +:+ join_path (manifest_path repo reference) →
  srv_ServeHTTP id r s = handleManifests r (manifest_path repo reference) s.
Proof.
  intros Ha Hr Hp Hne Hm Hpath. unfold srv_ServeHTTP. rewrite Ha, Hpath. cbn [negb].
  rewrite TrimPrefix_slash.
  assert (Split (join_path (manifest_path repo reference)) "/" = manifest_path repo reference) as Hs.
  { apply Split_join; [done|]. apply Forall_cons. split; [done|]. apply Forall_app. split; [done|].
    by repeat constructor. }
  rewrite Hs. destruct repo as [|q repo]; [by destruct Hne|].
  set (path := join_path _) in *.
  assert (∀ p, length (Split p "/") = 1%nat ∨ length (Split p "/") = 2%nat → path ≠ p) as Hshort.
  { intros p Hl E. rewrite <- E, Hs in Hl. unfold manifest_path in Hl. cbn in Hl. rewrite length_app in Hl. cbn in Hl. lia. }
  rewrite (proj2 (String.eqb_neq path "v2")) by (apply Hshort; by left).
  rewrite (proj2 (String.eqb_neq path "v2/")) by (apply Hshort; by right).
  cbn [orb manifest_path length head default negb].
  destruct (join_path_snoc "v2" (q :: repo) ["manifests"; reference]) as [pre Hpre]; [done|].
  assert (Contains path "/manifests/" = true) as ->; [|done].
  unfold path, manifest_path. rewrite Hpre.
  change (join_path ["manifests"; reference]) with ("manifests" +:+ "/" +:+ reference).
  apply Contains_app. by exists pre, reference.
Qed.

(** A manifest that is put under a repository and a reference is what a get of
    the same path answers, both with the digest of the body, while the registry
    is available and no part of the repository is called manifests. *)
Theorem manifest_roundtrip id1 id2 repo reference body s :
  es_available s = true → Forall plain repo → plain reference → repo ≠ [] → "manifests" ∉ repo →
  let path := "/" +:+ join_path (manifest_path repo reference) in
  let '(r1, s1) := srv_ServeHTTP id1 (mkRequest "PUT" path body) s in
  let '(r2, s2) := srv_ServeHTTP id2 (mkRequest "GET" path "") s1 in
  hs_Code r1 = 201 ∧ hs_Code r2 = 200 ∧ hs_Body r2 = body ∧ s2 = s1 ∧
  ("Docker-Content-Digest", ComputeDigest body) ∈ hs_Header r1 ∧
  ("Docker-Content-Digest", ComputeDigest body) ∈ hs_Header r2.
Proof.
  intros Ha Hr Hp Hne Hm path. rewrite (ServeHTTP_manifests id1 _ repo reference) by done.
  unfold handleManifests. rewrite manifest_ref_path by done. cbn.
  set (s1 := _ <| es_manifestDg ::= _ |>).
  rewrite (ServeHTTP_manifests id2 _ repo reference) by done.
  unfold handleManifests. rewrite manifest_ref_path by done. cbn.
  assert (find_manifest (join_path repo) reference s1 = Some (body, ComputeDigest body)) as ->.
  { unfold find_manifest, s1. cbn. unfold lookup_str. rewrite !lookup_insert.
    repeat case_decide; congruence || done. }
  cbn. split_and!; try done; repeat constructor.
Qed.

(** The collection of the embedded registry keeps exactly the tags whose digest
    is referenced, the manifest bodies whose tag, if any, is kept, and the blobs
    whose own digest is referenced; its counters add up to what was there. *)
Theorem server_gc_outcome (o1 o2 : Order) refs s :
  let '(a, s') := srv_GarbageCollect o1 o2 refs s in
  (∃ res, a = inr res ∧
    gc_DeletedImages res + gc_RetainedImages res = Z.of_nat (size (es_manifestDg s)) ∧
    gc_RetainedImages res = Z.of_nat (size (es_manifestDg s')) ∧
    gc_DeletedBlobs res + Z.of_nat (size (es_blobs s')) = Z.of_nat (size (es_blobs s)) ∧
    gc_ReclaimedBytes res + blob_len (map_to_list (es_blobs s')) = blob_len (map_to_list (es_blobs s))) ∧
  (∀ ref d, es_manifestDg s' !! ref = Some d ↔ es_manifestDg s !! ref = Some d ∧ d ∈ refs) ∧
  (∀ key body, es_manifests s' !! key = Some body ↔
    es_manifests s !! key = Some body ∧ ∀ d, es_manifestDg s !! key = Some d → d ∈ refs) ∧
  (∀ d blob, es_blobs s' !! d = Some blob ↔ es_blobs s !! d = Some blob ∧ d ∈ refs) ∧
  es_uploads s' = es_uploads s ∧ es_available s' = es_available s.
Proof.
  unfold srv_GarbageCollect. rewrite gc_manifest_fold, gc_blob_fold. cbn. rewrite !purge_own. split_and!.
  - eexists. split; [done|]. cbn. rewrite !count_pairs, !Z.add_0_l.
    split_and!.
    + apply size_filter_split.
    + done.
    + apply size_filter_split.
    + rewrite <- blob_len_app. apply blob_len_perm.
      rewrite map_pairs_filter. apply map_filter_split.
  - intros ref d. by rewrite map_lookup_filter_Some.
  - intros key body. rewrite lookup_purge. by setoid_rewrite elem_of_map_pairs.
  - intros d blob. by rewrite map_lookup_filter_Some.
  - done.
  - done.
Qed.

End contract.

(** ** On a concrete server *)

#[local] Existing Instance toy_crypto.

Definition demo_path : string := "/v2/nebula/shop/manifests/1".

Lemma manifest_roundtrip_witness :
  Forall plain ["nebula"; "shop"] ∧
  let '(r1, s1) := srv_ServeHTTP "u1" (mkRequest "PUT" demo_path "layers: a") NewEmbeddedRegistryServer in
  let '(r2, s2) := srv_ServeHTTP "u2" (mkRequest "GET" demo_path "") s1 in
  hs_Code r1 = 201 ∧ hs_Code r2 = 200 ∧ hs_Body r2 = "layers: a" ∧ s2 = s1 ∧
  ("Docker-Content-Digest", ComputeDigest "layers: a") ∈ hs_Header r1 ∧
  ("Docker-Content-Digest", ComputeDigest "layers: a") ∈ hs_Header r2.
Proof.
  assert (Forall plain ["nebula"; "shop"]) as Hp by by repeat constructor. split; [exact Hp|].
  exact (manifest_roundtrip "u1" "u2" ["nebula"; "shop"] "1" "layers: a" NewEmbeddedRegistryServer eq_refl Hp eq_refl
    ltac:(discriminate) ltac:(by apply (bool_decide_unpack _); vm_compute)).
Defined.

(** A server with an image of one layer, and the requests of a pull. *)
Definition demo_server : EmbeddedRegistryServer :=
  let s := (srv_ServeHTTP "u" (mkRequest "PUT" "/v2/nebula/shop/blobs/uploads/u" "layer") NewEmbeddedRegistryServer).2 in
  (srv_ServeHTTP "u" (mkRequest "PUT" demo_path "manifest") s).2.

Definition get (path : string) (s : EmbeddedRegistryServer) : Z * string :=
  let r := (srv_ServeHTTP "u" (mkRequest "GET" path "") s).1 in (hs_Code r, hs_Body r).

(** The collection, with the digest of the image as referenced, keeps the
    manifest and removes its layer. *)
Example gc_drops_layers :
  let s' := (srv_GarbageCollect order_id order_id ["sha256:manifest"] demo_server).2 in
  get demo_path demo_server = (200, "manifest") ∧
  get "/v2/nebula/shop/blobs/sha256:layer" demo_server = (200, "layer") ∧
  get demo_path s' = (200, "manifest") ∧
  (get "/v2/nebula/shop/blobs/sha256:layer" s').1 = 404.
Proof. vm_compute. done. Qed.

(** The entry under the digest outlives the tag that was collected. *)
Example gc_keeps_digest_entry :
  let s' := (srv_GarbageCollect order_id order_id [] demo_server).2 in
  (get demo_path s').1 = 404 ∧ get "/v2/nebula/shop/manifests/sha256:manifest" s' = (200, "manifest").
Proof. vm_compute. done. Qed.

(** A pull by digest is answered without the digest. *)
Example digest_pull_unlabelled :
  ("Docker-Content-Digest", "") ∈
    hs_Header (srv_ServeHTTP "u" (mkRequest "GET" "/v2/nebula/shop/manifests/sha256:manifest" "") demo_server).1.
Proof. vm_compute. repeat constructor. Qed.
