(* ===== verification/AuditLog.v ===== *)
(** * The audit log: internal/observability/audit.go

    Entries that are chained by hashes, and the check of the chain. SHA-256 with
    its hex encoding is [sha256_hex] of the class [Crypto]; the orders in which
    the maps of details are visited are arguments. *)

From stdpp Require Import base option gmap strings list pretty.
From Stdlib Require Import ZArith Lia Ascii.
From S2P Require Import Prelude GoLib GoFloat GoTime Registry.

Definition ErrAuditImmutable : error :=
  "audit log is append-only; update and delete operations are strictly prohibited".
Definition ErrAuditTampered : error :=
  "audit chain verification failed: record has been tampered with or modified".
Definition ErrAuditBrokenChain : error :=
  "audit chain verification failed: prev_hash does not match previous entry's hash".
Definition ErrAuditNotFound : error := "audit record not found".

Definition GenesisHash : string := "0000000000000000000000000000000000000000000000000000000000000000".

Definition EventSecretCreate : string := "SECRET_CREATE".
Definition EventSecretAccess : string := "SECRET_ACCESS".
Definition EventSecretRotate : string := "SECRET_ROTATE".

Record AuditEntry := mkAudit {
  ae_Index : Z;
  ae_Timestamp : Time;
  ae_EventType : string;
  ae_Actor : string;
  ae_Resource : string;
  ae_Details : gmap string string;
  ae_PrevHash : string;
  ae_Hash : string
}.

#[export] Instance AuditEntry_eta : Settable AuditEntry := λ e,
  mkAudit (ae_Index e) (ae_Timestamp e) (ae_EventType e) (ae_Actor e) (ae_Resource e) (ae_Details e)
    (ae_PrevHash e) (ae_Hash e).

Section audit.
Context {cr : Crypto}.

Definition detailsCanonical (o : Order) (details : gmap string string) : string :=
  Join ((λ k, k +:+ "=" +:+ lookup_str details k) <$> sort_Strings (map_pairs o details).*1) "&".

(** The text that is hashed. *)
Definition raw_text (o : Order) (index : Z) (ts : Time) (eventType actor resource : string)
    (details : gmap string string) (prevHash : string) : string :=
  Itoa index +:+ "|" +:+ format_rfc3339_nano ts +:+ "|" +:+ eventType +:+ "|" +:+ actor +:+ "|"
  +:+ resource +:+ "|" +:+ detailsCanonical o details +:+ "|" +:+ prevHash.

Definition ComputeHash (o : Order) (index : Z) (ts : Time) (eventType actor resource : string)
    (details : gmap string string) (prevHash : string) : string :=
  sha256_hex (raw_text o index ts eventType actor resource details prevHash).

(** ** MemoryAuditRepository: its entries *)

Abbreviation Repo := (list AuditEntry) (only parsing).

Definition NewMemoryAuditRepository : Repo := [].

(** The hash that the next entry refers to. *)
Definition tip (r : Repo) : string := match last r with Some e => ae_Hash e | None => GenesisHash end.

(** [Append], which does not fail; [now] is the clock. *)
Definition Append (o : Order) (now : Time) (eventType actor resource : string)
    (details : gmap string string) (r : Repo) : AuditEntry * Repo :=
  let idx := uint64 (Z.of_nat (length r)) in
  let prevHash := tip r in
  let hash := ComputeHash o idx now eventType actor resource details prevHash in
  let entry := mkAudit idx now eventType actor resource details prevHash hash in
  (entry, r ++ [entry]).

(** For an index of type uint64. *)
Definition audit_Get (index : Z) (r : Repo) : error + AuditEntry :=
  match r !! Z.to_nat index with
  | Some e => inr e
  | None => inl ErrAuditNotFound
  end.

(** [None] is a panic: a slice of a negative length, or an index out of range. *)
Definition audit_List (limit offset : Z) (r : Repo) : option Repo :=
  let n := Z.of_nat (length r) in
  if n <=? offset then Some []
  else
    let end_ := int64 (offset + limit) in
    let end_ := if (limit <=? 0) || (n <? end_) then n else end_ in
    if (end_ <? offset) || (offset <? 0) then None
    else Some (take (Z.to_nat (end_ - offset)) (drop (Z.to_nat offset) r)).

Definition audit_Count (r : Repo) : Z := Z.of_nat (length r).

(** The loop of VerifyChain from entry [i] on. *)
Fixpoint verify_from (o : Order) (i : Z) (expectedPrev : string) (r : Repo) : option error :=
  match r with
  | [] => None
  | entry :: r' =>
    if negb (ae_Index entry =? uint64 i)
    then Some (ErrAuditBrokenChain +:+ ": index mismatch at entry " +:+ Itoa i +:+ " (found "
               +:+ Itoa (ae_Index entry) +:+ ")")
    else if negb (String.eqb (ae_PrevHash entry) expectedPrev)
    then Some (ErrAuditBrokenChain +:+ ": entry " +:+ Itoa i +:+ " prev_hash " +:+ ae_PrevHash entry
               +:+ " != expected " +:+ expectedPrev)
    else
    let recalc := ComputeHash o (ae_Index entry) (ae_Timestamp entry) (ae_EventType entry) (ae_Actor entry)
                    (ae_Resource entry) (ae_Details entry) (ae_PrevHash entry) in
    if negb (String.eqb (ae_Hash entry) recalc)
    then Some (ErrAuditTampered +:+ ": entry " +:+ Itoa i +:+ " hash " +:+ ae_Hash entry
               +:+ " != calculated " +:+ recalc)
    else verify_from o (i + 1) (ae_Hash entry) r'
  end.

Definition VerifyChain (o : Order) (r : Repo) : option error := verify_from o 0 GenesisHash r.

Definition audit_Update (entry : AuditEntry) (r : Repo) : option error * Repo := (Some ErrAuditImmutable, r).
Definition audit_Delete (index : Z) (r : Repo) : option error * Repo := (Some ErrAuditImmutable, r).

Definition TamperEntryForTest (index : Z) (tamperedActor : string) (r : Repo) : option error * Repo :=
  match r !! Z.to_nat index with
  | None => (Some ErrAuditNotFound, r)
  | Some e => (None, <[Z.to_nat index := e <| ae_Actor := tamperedActor |>]> r)
  end.

Definition DeleteEntryForTest (index : Z) (r : Repo) : option error * Repo :=
  if (Z.to_nat index <? length r)%nat
  then (None, take (Z.to_nat index) r ++ drop (S (Z.to_nat index)) r)
  else (Some ErrAuditNotFound, r).

(** ** The chain *)

Lemma detailsCanonical_order o o' details : detailsCanonical o details = detailsCanonical o' details.
Proof.
  unfold detailsCanonical. do 2 f_equal. apply sort_Strings_perm.
  unfold map_pairs. by rewrite !permute_perm.
Qed.

(** The hash of the entry's fields. *)
Definition entry_text (e : AuditEntry) : string :=
  raw_text order_id (ae_Index e) (ae_Timestamp e) (ae_EventType e) (ae_Actor e) (ae_Resource e) (ae_Details e)
    (ae_PrevHash e).

Lemma ComputeHash_text o e :
  ComputeHash o (ae_Index e) (ae_Timestamp e) (ae_EventType e) (ae_Actor e) (ae_Resource e) (ae_Details e)
    (ae_PrevHash e) = sha256_hex (entry_text e).
Proof. unfold ComputeHash, entry_text, raw_text. by rewrite (detailsCanonical_order o order_id). Qed.

(** Entry [i], after an entry with the hash [prev]. *)
Definition link_ok (i : Z) (prev : string) (e : AuditEntry) : Prop :=
  ae_Index e = uint64 i ∧ ae_PrevHash e = prev ∧ ae_Hash e = sha256_hex (entry_text e).

Lemma verify_from_cons o i prev e r :
  verify_from o i prev (e :: r) = None ↔ link_ok i prev e ∧ verify_from o (i + 1) (ae_Hash e) r = None.
Proof.
  unfold link_ok. cbn. rewrite ComputeHash_text.
  destruct (Z.eqb_spec (ae_Index e) (uint64 i)); cbn; [|split; [discriminate|intros [(? & _) _]; congruence]].
  destruct (String.eqb_spec (ae_PrevHash e) prev); cbn; [|split; [discriminate|intros [(_ & ? & _) _]; congruence]].
  destruct (String.eqb_spec (ae_Hash e) (sha256_hex (entry_text e))); cbn; [tauto|].
  split; [discriminate|intros [(_ & _ & ?) _]; congruence].
Qed.

Lemma verify_from_snoc o e r : ∀ i prev,
  verify_from o i prev (r ++ [e]) = None ↔
  verify_from o i prev r = None ∧
  link_ok (i + Z.of_nat (length r)) (match last r with Some e' => ae_Hash e' | None => prev end) e.
Proof.
  induction r as [|e0 r IH]; intros i prev.
  - cbn [app length last]. rewrite verify_from_cons, Z.add_0_r. cbn. tauto.
  - cbn [app]. rewrite !verify_from_cons, IH.
    replace (i + 1 + Z.of_nat (length r)) with (i + Z.of_nat (length (e0 :: r))) by (cbn [length]; lia).
    assert (match last (e0 :: r) with Some e' => ae_Hash e' | None => prev end
      = match last r with Some e' => ae_Hash e' | None => ae_Hash e0 end) as ->; [|tauto].
    destruct r as [|e1 r]; [done|]. rewrite last_cons_cons. by destruct (last_is_Some (e1 :: r)) as [_ [x ->]].
Qed.

Lemma VerifyChain_snoc o e r :
  VerifyChain o (r ++ [e]) = None ↔ VerifyChain o r = None ∧ link_ok (Z.of_nat (length r)) (tip r) e.
Proof. apply verify_from_snoc. Qed.

Lemma tip_snoc e r : tip (r ++ [e]) = ae_Hash e.
Proof. unfold tip. by rewrite last_snoc. Qed.

(** The logs that are written through Append. *)
Inductive audit_reach : Repo → Prop :=
| ar_new : audit_reach NewMemoryAuditRepository
| ar_append o now eventType actor resource details r :
    audit_reach r → audit_reach (Append o now eventType actor resource details r).2.

Lemma append_link o o' now eventType actor resource details r :
  let '(e, r') := Append o now eventType actor resource details r in
  r' = r ++ [e] ∧ link_ok (Z.of_nat (length r)) (tip r) e ∧
  (VerifyChain o' r' = None ↔ VerifyChain o' r = None).
Proof.
  unfold Append. set (e := mkAudit _ _ _ _ _ _ _ _).
  assert (link_ok (Z.of_nat (length r)) (tip r) e) as H.
  { split_and!; [done|done|]. by rewrite <- (ComputeHash_text o). }
  split; [done|]. split; [exact H|]. rewrite VerifyChain_snoc. tauto.
Qed.

Lemma audit_reach_verifies o r : audit_reach r → VerifyChain o r = None.
Proof.
  induction 1 as [|o' now et ac re de r H IH]; [done|].
  pose proof (append_link o' o now et ac re de r) as Ha.
  destruct (Append o' now et ac re de r) as [e r']. by apply Ha.
Qed.

(** ** Tampering *)

(** Fields without the separator of the hashed text. *)
Definition plain_entry (e : AuditEntry) : Prop :=
  0 ≤ ae_Index e ∧ str_free "|" (ae_EventType e) = true ∧ str_free "|" (ae_Actor e) = true ∧
  str_free "|" (ae_Resource e) = true ∧ str_free "|" (detailsCanonical order_id (ae_Details e)) = true.

(** Two entries that an auditor reads alike. *)
Definition same_record (e e' : AuditEntry) : Prop :=
  ae_Index e = ae_Index e' ∧ format_rfc3339_nano (ae_Timestamp e) = format_rfc3339_nano (ae_Timestamp e') ∧
  ae_EventType e = ae_EventType e' ∧ ae_Actor e = ae_Actor e' ∧ ae_Resource e = ae_Resource e' ∧
  detailsCanonical order_id (ae_Details e) = detailsCanonical order_id (ae_Details e') ∧
  ae_PrevHash e = ae_PrevHash e' ∧ ae_Hash e = ae_Hash e'.

Lemma entry_text_inj e e' :
  plain_entry e → plain_entry e' → entry_text e = entry_text e' → ae_Hash e = ae_Hash e' →
  ae_Index e = ae_Index e' → same_record e e'.
Proof.
  intros (I & T & A & R & D) (I' & T' & A' & R' & D') E H Hi. unfold entry_text, raw_text in E.
  apply (free_split "|") in E as [_ E]; [|apply Itoa_free; auto..].
  apply (free_split "|") in E as [Ets E]; [|by apply format_nano_free..].
  apply (free_split "|") in E as [Et E]; [|done..].
  apply (free_split "|") in E as [Ea E]; [|done..].
  apply (free_split "|") in E as [Er E]; [|done..].
  apply (free_split "|") in E as [Ed E]; [|done..].
  by split_and!.
Qed.

(** Two different texts of the logs with one hash. *)
Definition collision (l l' : Repo) : Prop :=
  ∃ e e', e ∈ l ∧ e' ∈ l' ∧ entry_text e ≠ entry_text e' ∧ sha256_hex (entry_text e) = sha256_hex (entry_text e').

(** In every log made by appends, an append keeps the chain verified, adds one
    entry with the given fields at the end, and changes no entry that could be
    read before; updates and deletions are refused and change nothing. *)
Theorem audit_chain_intact r o o' now eventType actor resource details :
  audit_reach r →
  let '(e, r') := Append o now eventType actor resource details r in
  VerifyChain o' r' = None ∧ r' = r ++ [e] ∧
  (∀ i x, 0 ≤ i → audit_Get i r = inr x → audit_Get i r' = inr x) ∧
  audit_Get (Z.of_nat (length r)) r' = inr e ∧
  ae_EventType e = eventType ∧ ae_Actor e = actor ∧ ae_Resource e = resource ∧ ae_Details e = details ∧
  (∀ x, audit_Update x r' = (Some ErrAuditImmutable, r')) ∧ (∀ i, audit_Delete i r' = (Some ErrAuditImmutable, r')).
Proof.
  intros Hr. pose proof (append_link o o' now eventType actor resource details r) as H.
  destruct (Append o now eventType actor resource details r) as [e r'] eqn:E. destruct H as (-> & _ & Hv).
  unfold Append in E. injection E as <- _. split_and!; try done.
  - by apply Hv, audit_reach_verifies.
  - intros i x _. unfold audit_Get. destruct (r !! Z.to_nat i) eqn:Hi; [|done].
    by rewrite (lookup_app_l_Some _ _ _ _ Hi).
  - unfold audit_Get. by rewrite Nat2Z.id, lookup_app_r, Nat.sub_diag by lia.
Qed.


End audit.

(** ** With the toy cryptography, whose hash is the text itself *)

#[local] Existing Instance toy_crypto.

Definition demo_log : list AuditEntry :=
  (Append order_id 7 EventSecretRotate "mallory" "p1/DB" ∅
    (Append order_id 5 EventSecretCreate "alice|ops" "p1/DB" {["version" := "1"; "key_version" := "1"]}
      NewMemoryAuditRepository).2).2.

Lemma demo_log_reach : audit_reach demo_log.
Proof. do 2 apply ar_append. apply ar_new. Qed.

Lemma audit_chain_intact_witness :
  VerifyChain order_id (Append order_id 9 EventSecretAccess "bob" "p1/secrets" ∅ demo_log).2 = None ∧
  audit_Get 2 (Append order_id 9 EventSecretAccess "bob" "p1/secrets" ∅ demo_log).2
    = inr (Append order_id 9 EventSecretAccess "bob" "p1/secrets" ∅ demo_log).1.
Proof.
  pose proof (audit_chain_intact demo_log order_id order_id 9 EventSecretAccess "bob" "p1/secrets" ∅ demo_log_reach) as H.
  destruct (Append order_id 9 EventSecretAccess "bob" "p1/secrets" ∅ demo_log) as [e r'].
  destruct H as (H1 & _ & _ & H2 & _). split; [exact H1|exact H2].
Defined.

(** A log whose fields have no separator, and the same log. *)
Definition demo_plain : list AuditEntry :=
  (Append order_id 7 EventSecretRotate "bob" "p1/DB" ∅
    (Append order_id 5 EventSecretCreate "alice" "p1/DB" {["version" := "1"]} NewMemoryAuditRepository).2).2.


(** A character moved over the separator, from the actor to the resource, is
    not noticed: the hashed text is the same. *)
Example pipe_moves_fields :
  let tampered := alter (λ e, e <| ae_Actor := "alice" |> <| ae_Resource := "ops|p1/DB" |>) 0%nat demo_log in
  VerifyChain order_id demo_log = None ∧ VerifyChain order_id tampered = None ∧
  ((λ e, (ae_Actor e, ae_Resource e)) <$> tampered !! 0%nat) = Some ("alice", "ops|p1/DB").
Proof. vm_compute. done. Qed.

(** Entries cut off at the end are not noticed either. *)
Example cut_log_verifies : VerifyChain order_id (DeleteEntryForTest 1 demo_log).2 = None.
Proof. vm_compute. reflexivity. Qed.

(** Another actor, or an entry missing in the middle, is. *)
Example tampering_noticed :
  VerifyChain order_id (TamperEntryForTest 0 "bob" demo_log).2 ≠ None ∧
  VerifyChain order_id (DeleteEntryForTest 0 demo_log).2 ≠ None.
Proof. vm_compute. done. Qed.

(** A limit near the largest int makes the end of the page negative. *)
Example list_overflows : audit_List (2 ^ 63 - 1) 1 demo_log = None ∧ audit_List 10 1 demo_log = Some (drop 1 demo_log).
Proof. vm_compute. done. Qed.
