(* ===== verification/Secrets.v ===== *)
(** * Secrets: internal/secrets

    store.go (encryption, the in-memory store and its snapshots), rotate.go,
    keyprovider.go and kms.go (key providers, the in-memory KMS and the envelope
    provider). AES, GCM and SHA-256 of the standard library are the class
    [Cipher]; random bytes are arguments, and reading them does not fail. The
    store is proved against the interface [KeyProvider]. *)

From stdpp Require Import base option gmap strings list pretty.
From Stdlib Require Import ZArith Lia Ascii.
From S2P Require Import Prelude GoLib.

(** ** crypto/aes, crypto/cipher, crypto/sha256 *)

Class Cipher := {
  gcm_Seal : string → string → string → string;
  gcm_Open : string → string → string → error + string;
  sha256_sum : string → string
}.

(** [gcm.Open] recovers what [gcm.Seal] sealed under the key and the nonce. *)
Class CipherLaws `{!Cipher} : Prop := {
  gcm_roundtrip key nonce pt : gcm_Open key nonce (gcm_Seal key nonce pt) = inr pt;
  sha256_size s : String.length (sha256_sum s) = 32%nat
}.

Section secrets.
Context {ci : Cipher}.

(** ** store.go: encryption *)

Definition ErrSecretNotFound : error := "secret not found".
Definition ErrCiphertextTooShort : error := "ciphertext too short: missing nonce".

(** [aes.NewCipher] takes keys of 16, 24 and 32 bytes. *)
Definition aes_error (key : string) : option error :=
  let n := String.length key in
  if decide (n = 16 ∨ n = 24 ∨ n = 32)%nat then None
  else Some ("crypto/aes: invalid key size " +:+ Itoa (Z.of_nat n)).

Definition nonce_size : nat := 12.

(** [nonce] is what [rand.Reader] gives. *)
Definition Encrypt (nonce plaintext key : string) : error + string :=
  match aes_error key with
  | Some err => inl ("create aes cipher: " +:+ err)
  | None => inr (nonce +:+ gcm_Seal key nonce plaintext)
  end.

Definition Decrypt (ciphertext key : string) : error + string :=
  match aes_error key with
  | Some err => inl ("create aes cipher: " +:+ err)
  | None =>
    if (String.length ciphertext <? nonce_size)%nat then inl ErrCiphertextTooShort
    else gcm_Open key (str_take nonce_size ciphertext) (drop_string nonce_size ciphertext)
  end.

(** ** keyprovider.go *)

Definition ErrKeyNotFound : error := "encryption key not found for version".
Definition ErrInvalidKeyLength : error := "encryption key must be 32 bytes for AES-256".

Class KeyProvider (K : Type) := {
  kp_GetKey : Z → K → error + string;
  kp_CurrentVersion : K → Z
}.

Record StaticKeyProvider := mkStaticKeys {
  sk_currentVersion : Z;
  sk_keys : gmap Z string
}.

(** The first key, in the order of the map, that is not of 32 bytes. *)
Definition bad_key (o : Order) (keys : gmap Z string) : option error :=
  match base.filter (λ kv, String.length kv.2 ≠ 32%nat) (permute o (map_to_list keys)) with
  | [] => None
  | (ver, key) :: _ => Some ("version " +:+ Itoa ver +:+ ": " +:+ ErrInvalidKeyLength +:+ " (got "
                             +:+ Itoa (Z.of_nat (String.length key)) +:+ " bytes)")
  end.

Definition NewStaticKeyProvider (o : Order) (keys : gmap Z string) (currentVersion : Z) :
    error + StaticKeyProvider :=
  if decide (keys = ∅) then inl "at least one key must be provided"
  else match bad_key o keys with
       | Some err => inl err
       | None =>
         match keys !! currentVersion with
         | None => inl ("current version " +:+ Itoa currentVersion +:+ " not found in key map")
         | Some _ => inr (mkStaticKeys currentVersion keys)
         end
       end.

Definition NewSingleKeyProvider (rawKey : string) : StaticKeyProvider :=
  mkStaticKeys 1 {[1 := if decide (String.length rawKey = 32%nat) then rawKey else sha256_sum rawKey]}.

Definition static_GetKey (version : Z) (p : StaticKeyProvider) : error + string :=
  match sk_keys p !! version with
  | None => inl (ErrKeyNotFound +:+ ": " +:+ Itoa version)
  | Some k => inr k
  end.

Definition AddKey (version : Z) (key : string) (makeCurrent : bool) (p : StaticKeyProvider) :
    option error * StaticKeyProvider :=
  if decide (String.length key ≠ 32%nat) then (Some ErrInvalidKeyLength, p)
  else (None, mkStaticKeys (if makeCurrent then version else sk_currentVersion p)
                (<[version := key]> (sk_keys p))).

#[export] Instance static_keys : KeyProvider StaticKeyProvider := {
  kp_GetKey := static_GetKey;
  kp_CurrentVersion := sk_currentVersion
}.

(** ** store.go: the store *)

Record Secret := mkSecret {
  sc_ID : string;
  sc_ProjectID : string;
  sc_DeploymentID : string;
  sc_Name : string;
  sc_Ciphertext : string;
  sc_KeyVersion : Z;
  sc_Version : Z;
  sc_CreatedAt : Time;
  sc_UpdatedAt : Time
}.

#[export] Instance Secret_eta : Settable Secret := λ s,
  mkSecret (sc_ID s) (sc_ProjectID s) (sc_DeploymentID s) (sc_Name s) (sc_Ciphertext s)
    (sc_KeyVersion s) (sc_Version s) (sc_CreatedAt s) (sc_UpdatedAt s).

Record MemorySecretStore (K : Type) := mkSecrets {
  ms_keyProvider : K;
  ms_projectSecrets : gmap string Secret;
  ms_deploymentSecrets : gmap string Secret
}.
#[global] Arguments mkSecrets {K} _ _ _.
#[global] Arguments ms_keyProvider {K} _.
#[global] Arguments ms_projectSecrets {K} _.
#[global] Arguments ms_deploymentSecrets {K} _.

#[export] Instance MemorySecretStore_eta K : Settable (MemorySecretStore K) := λ s,
  mkSecrets (ms_keyProvider s) (ms_projectSecrets s) (ms_deploymentSecrets s).

Definition NewMemorySecretStore {K} (keyProvider : K) : MemorySecretStore K := mkSecrets keyProvider ∅ ∅.

(** [projectID + ":" + name]. *)
Definition map_key (owner name : string) : string := owner +:+ ":" +:+ name.

Section store.
Context {K : Type} `{!KeyProvider K}.

(** What one call draws: the clock, an identifier and a nonce. *)
Record Draw := mkDraw { dw_now : Time; dw_uuid : string; dw_nonce : string }.

Definition SetSecret (dw : Draw) (projectID name plaintext : string) (s : MemorySecretStore K) :
    (error + Secret) * MemorySecretStore K :=
  let keyVer := kp_CurrentVersion (ms_keyProvider s) in
  match kp_GetKey keyVer (ms_keyProvider s) with
  | inl err => (inl ("get encryption key: " +:+ err), s)
  | inr key =>
    match Encrypt (dw_nonce dw) plaintext key with
    | inl err => (inl ("encrypt secret: " +:+ err), s)
    | inr ciphertext =>
      let mapKey := map_key projectID name in
      let version := match ms_projectSecrets s !! mapKey with
                     | Some existing => sc_Version existing + 1 | None => 1 end in
      let sec := mkSecret (dw_uuid dw) projectID "" name ciphertext keyVer version (dw_now dw) (dw_now dw) in
      (inr sec, s <| ms_projectSecrets ::= <[mapKey := sec]> |>)
    end
  end.

Definition GetSecret (projectID name : string) (s : MemorySecretStore K) : error + (Secret * string) :=
  match ms_projectSecrets s !! map_key projectID name with
  | None => inl ErrSecretNotFound
  | Some sec =>
    match kp_GetKey (sc_KeyVersion sec) (ms_keyProvider s) with
    | inl err => inl ("get key version " +:+ Itoa (sc_KeyVersion sec) +:+ ": " +:+ err)
    | inr key =>
      match Decrypt (sc_Ciphertext sec) key with
      | inl err => inl ("decrypt secret: " +:+ err)
      | inr pt => inr (sec, pt)
      end
    end
  end.

(** The loops of the two readers: the first error ends them. *)
Fixpoint collect_secrets (open : string * Secret → error + string) (l : list (string * Secret))
    (result : gmap string string) : error + gmap string string :=
  match l with
  | [] => inr result
  | entry :: l' =>
    match open entry with
    | inl err => inl err
    | inr pt => collect_secrets open l' (<[sc_Name entry.2 := pt]> result)
    end
  end.

Definition open_project (keys : K) (entry : string * Secret) : error + string :=
  let '(mapKey, sec) := entry in
  match kp_GetKey (sc_KeyVersion sec) keys with
  | inl err => inl ("get key version " +:+ Itoa (sc_KeyVersion sec) +:+ " for " +:+ mapKey +:+ ": " +:+ err)
  | inr key => match Decrypt (sc_Ciphertext sec) key with
               | inl err => inl ("decrypt secret " +:+ sc_Name sec +:+ ": " +:+ err)
               | inr pt => inr pt end
  end.

Definition GetSecretsForProject (o : Order) (projectID : string) (s : MemorySecretStore K) :
    error + gmap string string :=
  collect_secrets (open_project (ms_keyProvider s))
    (base.filter (λ kv, sc_ProjectID kv.2 = projectID) (map_pairs o (ms_projectSecrets s))) ∅.

Definition snapshot_of (now : Time) (uuid deploymentID : string) (sec : Secret) : Secret :=
  mkSecret uuid (sc_ProjectID sec) deploymentID (sc_Name sec) (sc_Ciphertext sec) (sc_KeyVersion sec)
    (sc_Version sec) now now.

(** One turn of the loop; [n] counts the identifiers drawn. *)
Definition snapshot_one (now : Time) (uuids : nat → string) (deploymentID : string)
    (st : nat * gmap string Secret) (sec : Secret) : nat * gmap string Secret :=
  let '(n, snaps) := st in
  (S n, <[map_key deploymentID (sc_Name sec) := snapshot_of now (uuids n) deploymentID sec]> snaps).

Definition SnapshotForDeployment (o : Order) (now : Time) (uuids : nat → string)
    (projectID deploymentID : string) (s : MemorySecretStore K) : option error * MemorySecretStore K :=
  let secs := base.filter (λ sec, sc_ProjectID sec = projectID) (map_values o (ms_projectSecrets s)) in
  (None, s <| ms_deploymentSecrets ::= λ m, (fold_left (snapshot_one now uuids deploymentID) secs (0%nat, m)).2 |>).

Definition open_deployment (keys : K) (entry : string * Secret) : error + string :=
  let sec := entry.2 in
  match kp_GetKey (sc_KeyVersion sec) keys with
  | inl err => inl ("get key version " +:+ Itoa (sc_KeyVersion sec) +:+ ": " +:+ err)
  | inr key => match Decrypt (sc_Ciphertext sec) key with
               | inl err => inl ("decrypt deployment secret " +:+ sc_Name sec +:+ ": " +:+ err)
               | inr pt => inr pt end
  end.

Definition GetSecretsForDeployment (o : Order) (deploymentID : string) (s : MemorySecretStore K) :
    error + gmap string string :=
  collect_secrets (open_deployment (ms_keyProvider s))
    (base.filter (λ kv, sc_DeploymentID kv.2 = deploymentID) (map_pairs o (ms_deploymentSecrets s))) ∅.

Definition ListSecrets (o : Order) (projectID : string) (s : MemorySecretStore K) : error + list Secret :=
  inr ((λ sec, sec <| sc_Ciphertext := "" |>)
         <$> base.filter (λ sec, sc_ProjectID sec = projectID) (map_values o (ms_projectSecrets s))).

(** rotate.go, for a store that is not nil. *)
Definition RotateSecret (dw : Draw) (projectID name newPlaintext : string) (s : MemorySecretStore K) :
    (error + Secret) * MemorySecretStore K :=
  let '(r, s) := SetSecret dw projectID name newPlaintext s in
  (match r with
   | inl err => inl ("failed to rotate secret " +:+ name +:+ ": " +:+ err)
   | inr sec => inr sec
   end, s).

End store.
End secrets.


(** ** Encryption round trip *)

Section facts.
Context {ci : Cipher} {cil : CipherLaws}.

Lemma str_take_app (s t : string) : str_take (String.length s) (s +:+ t) = s.
Proof.
  unfold str_take. induction s as [|c s IH]; [by destruct t|].
  change (String c s +:+ t) with (String c (s +:+ t)). cbn. by rewrite IH.
Qed.

Lemma encrypt_decrypt nonce pt key ct :
  String.length nonce = nonce_size → Encrypt nonce pt key = inr ct → Decrypt ct key = inr pt.
Proof.
  intros Hn. unfold Encrypt, Decrypt. destruct (aes_error key); [done|]. intros ?. simplify_eq.
  rewrite str_app_length, Hn.
  destruct (Nat.ltb_spec (nonce_size + String.length (gcm_Seal key nonce pt)) nonce_size) as [?|_]; [lia|].
  rewrite <- Hn, str_take_app, drop_string_app. apply gcm_roundtrip.
Qed.

Section store.
Context {K : Type} `{!KeyProvider K}.
Implicit Types (s : MemorySecretStore K) (sec : Secret).

(** The value of a record, when its key is there and opens it. *)
Definition reveal (keys : K) sec : option string :=
  match kp_GetKey (sc_KeyVersion sec) keys with
  | inl _ => None
  | inr key => match Decrypt (sc_Ciphertext sec) key with inl _ => None | inr pt => Some pt end
  end.

Lemma reveal_open keys k sec v : reveal keys sec = Some v →
  open_project keys (k, sec) = inr v ∧ open_deployment keys (k, sec) = inr v.
Proof.
  unfold reveal, open_project, open_deployment. cbn.
  destruct (kp_GetKey _ keys); [done|]. destruct (Decrypt _ _); [done|]. intros ?. by simplify_eq.
Qed.

Lemma set_secret_spec dw p n pt s :
  String.length (dw_nonce dw) = nonce_size →
  let '(r, s') := SetSecret dw p n pt s in
  match r with
  | inl _ => s' = s
  | inr sec => sc_ProjectID sec = p ∧ sc_Name sec = n ∧ reveal (ms_keyProvider s) sec = Some pt ∧
      sc_Version sec = match ms_projectSecrets s !! map_key p n with Some e => sc_Version e + 1 | None => 1 end ∧
      s' = mkSecrets (ms_keyProvider s) (<[map_key p n := sec]> (ms_projectSecrets s)) (ms_deploymentSecrets s)
  end.
Proof.
  intros Hn. unfold SetSecret. destruct (kp_GetKey _ _) as [e|key] eqn:Ek; [done|].
  destruct (Encrypt _ pt key) as [e|ct] eqn:Ee; [done|]. cbn. split_and!; [done|done| |done|done].
  unfold reveal. cbn. rewrite Ek. by rewrite (encrypt_decrypt _ _ _ _ Hn Ee).
Qed.

Lemma get_reveal p n s sec :
  ms_projectSecrets s !! map_key p n = Some sec →
  ∀ v, reveal (ms_keyProvider s) sec = Some v → GetSecret p n s = inr (sec, v).
Proof.
  intros H v. unfold GetSecret, reveal. rewrite H. destruct (kp_GetKey _ _); [done|].
  destruct (Decrypt _ _); [done|]. intros ?. by simplify_eq.
Qed.

(** ** Reading all secrets *)

Lemma collect_fold open (f : string * Secret → string) l : ∀ acc,
  (∀ e, e ∈ l → open e = inr (f e)) →
  collect_secrets open l acc = inr (fold_left (λ m e, <[sc_Name e.2 := f e]> m) l acc).
Proof.
  induction l as [|e l IH]; intros acc H; cbn; [done|].
  rewrite (H e) by left. apply IH. intros e' He. apply H. by right.
Qed.

Lemma lookup_names (f : string * Secret → string) l n v : ∀ acc : gmap string string,
  NoDup ((λ e, sc_Name e.2) <$> l) →
  fold_left (λ m e, <[sc_Name e.2 := f e]> m) l acc !! n = Some v ↔
    (∃ e, e ∈ l ∧ sc_Name e.2 = n ∧ f e = v) ∨ ((∀ e, e ∈ l → sc_Name e.2 ≠ n) ∧ acc !! n = Some v).
Proof.
  induction l as [|e l IH]; intros acc Hnd; cbn [fold_left].
  { split; [intros H; right; split; [set_solver|done]|intros [(e & He & _)|[_ H]]; [set_solver|done]]. }
  apply NoDup_cons in Hnd as [Hnew Hnd]. rewrite (IH _ Hnd). setoid_rewrite elem_of_cons.
  assert (∀ e', e' ∈ l → sc_Name e'.2 ≠ sc_Name e.2) as Hne.
  { intros e' He' E. apply Hnew. change (sc_Name e.2 ∈ (λ e, sc_Name e.2) <$> l). rewrite <- E.
    by apply (list_elem_of_fmap_2 (λ e, sc_Name e.2)). }
  rewrite lookup_insert. case_decide as Hn; naive_solver.
Qed.

Lemma read_spec open (P : Secret → Prop) `{!∀ sec, Decision (P sec)} o (mp : gmap string Secret)
    (g : Secret → option string) :
  (∀ k sec, mp !! k = Some sec → P sec → ∃ v, open (k, sec) = inr v ∧ g sec = Some v) →
  (∀ k k' sec sec', mp !! k = Some sec → mp !! k' = Some sec' → P sec → P sec' → sc_Name sec = sc_Name sec' → k = k') →
  ∃ m, collect_secrets open (base.filter (λ kv, P kv.2) (map_pairs o mp)) ∅ = inr m ∧
  ∀ n v, m !! n = Some v ↔ ∃ k sec, mp !! k = Some sec ∧ P sec ∧ sc_Name sec = n ∧ g sec = Some v.
Proof.
  intros Hopen Hinj. set (l := base.filter _ _).
  assert (∀ k sec, (k, sec) ∈ l ↔ P sec ∧ mp !! k = Some sec) as Hl.
  { intros k sec. unfold l. by rewrite list_elem_of_filter, elem_of_map_pairs. }
  eexists. split.
  - apply (collect_fold _ (λ e, default "" (g e.2))). intros [k sec] [HP Hk]%Hl.
    destruct (Hopen k sec Hk HP) as (v & -> & Hg). cbn. by rewrite Hg.
  - intros n v. rewrite lookup_names.
    + rewrite lookup_empty. split.
      * intros [([k sec] & [HP Hk]%Hl & Hn & Hv)|[_ ?]]; [|done]. cbn in Hn, Hv.
        destruct (Hopen k sec Hk HP) as (v' & _ & Hg). rewrite Hg in Hv. cbn in Hv. subst v'. eauto 10.
      * intros (k & sec & Hk & HP & Hn & Hg). left. exists (k, sec). rewrite Hl. cbn. by rewrite Hg.
    + apply (NoDup_fmap_2_strong _).
      * intros [k sec] [k' sec'] [HP Hk]%Hl [HP' Hk']%Hl Hn. cbn in Hn.
        pose proof (Hinj _ _ _ _ Hk Hk' HP HP' Hn) as ->. congruence.
      * unfold l. apply NoDup_filter. unfold map_pairs. rewrite permute_perm. apply NoDup_map_to_list.
Qed.

(** ** Snapshots

    Identifiers of projects and deployments without a colon, under which the
    keys of the maps are unambiguous. *)

Definition colon_free (id : string) : Prop := str_free ":" id = true.

Lemma map_key_inj p p' n n' : colon_free p → colon_free p' → map_key p n = map_key p' n' → p = p' ∧ n = n'.
Proof. apply free_split. Qed.

(** The calls that change the store, with snapshots of the deployments in [D]. *)
Inductive store_step (D : string → Prop) : MemorySecretStore K → MemorySecretStore K → Prop :=
| ss_set dw p n pt s :
    String.length (dw_nonce dw) = nonce_size → colon_free p → store_step D s (SetSecret dw p n pt s).2
| ss_snapshot o now uuids p d s :
    colon_free d → D d → store_step D s (SnapshotForDeployment o now uuids p d s).2.

Definition readable (keys : K) sec : Prop := ∃ v, reveal keys sec = Some v.

(** Every record is under its own key and can be opened. *)
Record store_ok (D : string → Prop) s : Prop := {
  so_project : ∀ k sec, ms_projectSecrets s !! k = Some sec →
    k = map_key (sc_ProjectID sec) (sc_Name sec) ∧ colon_free (sc_ProjectID sec) ∧ readable (ms_keyProvider s) sec;
  so_deployment : ∀ k sec, ms_deploymentSecrets s !! k = Some sec →
    k = map_key (sc_DeploymentID sec) (sc_Name sec) ∧ colon_free (sc_DeploymentID sec) ∧ D (sc_DeploymentID sec) ∧
    readable (ms_keyProvider s) sec
}.

Lemma snapshot_fold now uuids d secs : ∀ n (m : gmap string Secret) k x,
  (fold_left (snapshot_one now uuids d) secs (n, m)).2 !! k = Some x →
  (m !! k = Some x ∧ ∀ sec, sec ∈ secs → k ≠ map_key d (sc_Name sec)) ∨
  (∃ sec u, sec ∈ secs ∧ k = map_key d (sc_Name sec) ∧ x = snapshot_of now u d sec).
Proof.
  induction secs as [|sec secs IH]; intros n m k x; cbn [fold_left snapshot_one].
  { intros H. left. split; [done|set_solver]. }
  intros [[H Hn]|(sec' & u & Hs & Hk & Hx)]%IH.
  - rewrite lookup_insert in H. case_decide as Hk.
    + right. exists sec, (uuids n). split; [by left|]. split; [done|congruence].
    + left. split; [done|]. intros sec' [->|Hs]%elem_of_cons; [congruence|auto].
  - right. exists sec', u. split; [by right|done].
Qed.

Lemma snapshot_fold_in now uuids d secs : ∀ n (m : gmap string Secret) k,
  (is_Some (m !! k) ∨ ∃ sec, sec ∈ secs ∧ k = map_key d (sc_Name sec)) →
  is_Some ((fold_left (snapshot_one now uuids d) secs (n, m)).2 !! k).
Proof.
  induction secs as [|sec secs IH]; intros n m k; cbn [fold_left snapshot_one].
  { intros [H|(? & H & _)]; [done|set_solver]. }
  intros H. apply IH. rewrite lookup_insert. case_decide as Hk; [left; eauto|].
  destruct H as [H|(sec' & [->|Hs]%elem_of_cons & ->)]; [by left|done|right; eauto].
Qed.

Lemma reveal_snapshot keys now u d sec : reveal keys (snapshot_of now u d sec) = reveal keys sec.
Proof. done. Qed.

Lemma in_project o p s sec :
  sec ∈ base.filter (λ sec, sc_ProjectID sec = p) (map_values o (ms_projectSecrets s)) ↔
  sc_ProjectID sec = p ∧ ∃ k, ms_projectSecrets s !! k = Some sec.
Proof. by rewrite list_elem_of_filter, elem_of_map_values. Qed.

Lemma store_step_ok D s s' : store_step D s s' → store_ok D s → store_ok D s' ∧ ms_keyProvider s' = ms_keyProvider s.
Proof.
  intros [dw p n pt s0 Hn Hp|o now uuids p d s0 Hd HD] Hok.
  - pose proof (set_secret_spec dw p n pt s0 Hn) as H. destruct (SetSecret dw p n pt s0) as [[e|sec] s1]; cbn in *.
    { by subst s1. }
    destruct H as (Ep & En & Er & _ & ->). split; [|done]. split; cbn; [|apply Hok].
    intros k sec'. rewrite lookup_insert. case_decide as Hk; [|apply Hok].
    intros E. injection E as <-. rewrite Ep, En. split; [done|]. split; [done|by exists pt].
  - split; [|done]. split; cbn; [apply Hok|]. intros k x [[H _]|(sec & u & [Ep (k0 & Hs)]%in_project & -> & ->)]%snapshot_fold.
    { by apply (so_deployment _ _ Hok). }
    cbn. split_and!; [done..|]. unfold readable. rewrite reveal_snapshot. by destruct (so_project _ _ Hok _ _ Hs) as (_ & _ & ?).
Qed.

Lemma store_reach_ok D s s' :
  rtc (store_step D) s s' → store_ok D s → store_ok D s' ∧ ms_keyProvider s' = ms_keyProvider s.
Proof.
  induction 1 as [|s1 s2 s3 Hs _ IH]; intros Hok; [done|].
  destruct (store_step_ok _ _ _ Hs Hok) as [Hok' E]. rewrite <- E. auto.
Qed.

Lemma new_store_ok D (keys : K) : store_ok D (NewMemorySecretStore keys).
Proof. by split; cbn; intros *; rewrite lookup_empty. Qed.

(** The snapshot of a deployment: its records, whichever steps came after. *)
Definition snap (d : string) s (k : string) sec : Prop :=
  ms_deploymentSecrets s !! k = Some sec ∧ sc_DeploymentID sec = d.

Lemma store_step_snap D d s s' k sec :
  store_step D s s' → (∀ d', D d' → d' ≠ d) → colon_free d → (∃ D', store_ok D' s) →
  snap d s k sec ↔ snap d s' k sec.
Proof.
  intros [dw p n pt s0 Hn Hp|o now uuids p d' s0 Hd' HD] Hne Hd [D' Hok]; unfold snap.
  - pose proof (set_secret_spec dw p n pt s0 Hn) as H. destruct (SetSecret dw p n pt s0) as [[e|sec'] s1]; cbn in *.
    + by subst s1.
    + by destruct H as (_ & _ & _ & _ & ->).
  - cbn. split.
    + intros [Hk Hs]. split; [|done].
      destruct (snapshot_fold_in now uuids d'
        (base.filter (λ sec, sc_ProjectID sec = p) (map_values o (ms_projectSecrets s0)))
        0%nat (ms_deploymentSecrets s0) k) as [x Hx]; [by left|].
      rewrite Hx. destruct (snapshot_fold _ _ _ _ _ _ _ _ Hx) as [[H _]|(sec' & u & _ & Hk' & _)]; [congruence|].
      destruct (so_deployment _ _ Hok _ _ Hk) as (E & Hc & _). rewrite Hk' in E.
      apply map_key_inj in E as [E _]; [|done..]. by destruct (Hne d' HD); rewrite E.
    + intros [[[H _]|(sec' & u & _ & _ & ->)]%snapshot_fold Hs]; [done|]. by destruct (Hne d' HD).
Qed.

Lemma store_reach_snap D d s s' k sec :
  rtc (store_step D) s s' → (∀ d', D d' → d' ≠ d) → colon_free d → store_ok (λ _, True) s →
  snap d s k sec ↔ snap d s' k sec.
Proof.
  intros Hr Hne Hd. induction Hr as [|s1 s2 s3 Hs _ IH]; intros Hok; [done|].
  rewrite (store_step_snap D d s1 s2) by eauto. apply IH.
  eapply store_step_ok; [|done]. clear -Hs. destruct Hs; by constructor.
Qed.

(** The readers on a store in order, as relations. *)
Lemma read_project D o p s :
  store_ok D s → ∃ m, GetSecretsForProject o p s = inr m ∧
  ∀ n v, m !! n = Some v ↔ ∃ k sec, ms_projectSecrets s !! k = Some sec ∧ sc_ProjectID sec = p ∧
    sc_Name sec = n ∧ reveal (ms_keyProvider s) sec = Some v.
Proof.
  intros Hok. edestruct (read_spec (open_project (ms_keyProvider s)) (λ sec, sc_ProjectID sec = p) o
    (ms_projectSecrets s) (reveal (ms_keyProvider s))) as (m & E & H).
  - intros k sec Hk _. destruct (so_project _ _ Hok _ _ Hk) as (_ & _ & v & Hv).
    exists v. split; [by apply reveal_open|done].
  - intros k k' sec sec' Hk Hk' HP HP' Hn. destruct (so_project _ _ Hok _ _ Hk) as [-> _].
    destruct (so_project _ _ Hok _ _ Hk') as [-> _]. by rewrite HP, HP', Hn.
  - by exists m.
Qed.

Lemma read_deployment D o d s :
  store_ok D s → ∃ m, GetSecretsForDeployment o d s = inr m ∧
  ∀ n v, m !! n = Some v ↔ ∃ k sec, snap d s k sec ∧ sc_Name sec = n ∧ reveal (ms_keyProvider s) sec = Some v.
Proof.
  intros Hok. edestruct (read_spec (open_deployment (ms_keyProvider s)) (λ sec, sc_DeploymentID sec = d) o
    (ms_deploymentSecrets s) (reveal (ms_keyProvider s))) as (m & E & H).
  - intros k sec Hk _. destruct (so_deployment _ _ Hok _ _ Hk) as (_ & _ & _ & v & Hv).
    exists v. split; [by apply reveal_open|done].
  - intros k k' sec sec' Hk Hk' HP HP' Hn. destruct (so_deployment _ _ Hok _ _ Hk) as [-> _].
    destruct (so_deployment _ _ Hok _ _ Hk') as [-> _]. by rewrite HP, HP', Hn.
  - exists m. split; [exact E|]. intros n v. rewrite H. unfold snap. naive_solver.
Qed.

Lemma get_iff D p n s v :
  store_ok D s → colon_free p →
  (∃ k sec, ms_projectSecrets s !! k = Some sec ∧ sc_ProjectID sec = p ∧ sc_Name sec = n ∧
     reveal (ms_keyProvider s) sec = Some v) ↔ ∃ sec, GetSecret p n s = inr (sec, v).
Proof.
  intros Hok Hp. split.
  - intros (k & sec & Hk & <- & <- & Hv). destruct (so_project _ _ Hok _ _ Hk) as [-> _].
    exists sec. by apply get_reveal.
  - intros [sec H]. unfold GetSecret in H. destruct (ms_projectSecrets s !! map_key p n) as [sec'|] eqn:E; [|done].
    destruct (so_project _ _ Hok _ _ E) as (Ek & Hc & v' & Hv'). apply map_key_inj in Ek as [-> ->]; [|done..].
    exists (map_key (sc_ProjectID sec') (sc_Name sec')), sec'. split_and!; [done..|].
    unfold reveal. clear Hv'.
    destruct (kp_GetKey _ _); [done|]. destruct (Decrypt _ _); [done|]. by simplify_eq.
Qed.

(** Right after the snapshot, its records are those of the project. *)
Lemma snapshot_copies D o now uuids p d s n v :
  store_ok D s → (∀ d', D d' → d' ≠ d) →
  (∃ k sec, snap d (SnapshotForDeployment o now uuids p d s).2 k sec ∧ sc_Name sec = n ∧
     reveal (ms_keyProvider s) sec = Some v) ↔
  (∃ k sec, ms_projectSecrets s !! k = Some sec ∧ sc_ProjectID sec = p ∧ sc_Name sec = n ∧
     reveal (ms_keyProvider s) sec = Some v).
Proof.
  intros Hok HD. unfold snap. cbn. split.
  - intros (k & x & [Hk Hd] & Hn & Hv).
    apply snapshot_fold in Hk as [[Hk _]|(sec & u & [Ep (k0 & Hs)]%in_project & -> & ->)].
    + destruct (so_deployment _ _ Hok _ _ Hk) as (_ & _ & Hx & _). by apply HD in Hx.
    + exists k0, sec. done.
  - intros (k & sec & Hk & Ep & Hn & Hv).
    destruct (snapshot_fold_in now uuids d
      (base.filter (λ sec, sc_ProjectID sec = p) (map_values o (ms_projectSecrets s)))
      0%nat (ms_deploymentSecrets s) (map_key d (sc_Name sec))) as [x Hx].
    { right. exists sec. rewrite in_project. eauto. }
    exists (map_key d (sc_Name sec)), x.
    destruct (snapshot_fold _ _ _ _ _ _ _ _ Hx) as [[_ H]|(sec' & u & [Ep' (k' & Hk')]%in_project & E & ->)].
    { exfalso. apply (H sec); [rewrite in_project; eauto|done]. }
    assert (sc_Name sec' = sc_Name sec) as En by (by unfold map_key in E; simplify_eq).
    destruct (so_project _ _ Hok _ _ Hk) as [-> _]. destruct (so_project _ _ Hok _ _ Hk') as [-> _].
    rewrite Ep', En, <- Ep, Hk in Hk'. injection Hk' as <-. done.
Qed.

(** A secret that was set is read back with the same plaintext and the next
    version number, and setting it changes no secret under another key and no
    snapshot of a deployment. *)
Theorem secret_roundtrip dw p n pt sec s s' :
  String.length (dw_nonce dw) = nonce_size → SetSecret dw p n pt s = (inr sec, s') →
  GetSecret p n s' = inr (sec, pt) ∧
  sc_Version sec = match ms_projectSecrets s !! map_key p n with Some e => sc_Version e + 1 | None => 1 end ∧
  (∀ p' n', map_key p' n' ≠ map_key p n → GetSecret p' n' s' = GetSecret p' n' s) ∧
  (∀ o d, GetSecretsForDeployment o d s' = GetSecretsForDeployment o d s).
Proof.
  intros Hn E. pose proof (set_secret_spec dw p n pt s Hn) as H. rewrite E in H.
  destruct H as (_ & _ & Hr & Hv & ->). split_and!; [|done| |done].
  - apply get_reveal; cbn; [by rewrite lookup_insert_eq|done].
  - intros p' n' Hne. unfold GetSecret. cbn. by rewrite lookup_insert_ne.
Qed.

(** C16: What a deployment reads from its snapshot is, for ever after, what its
    project's secrets were when the snapshot was taken, whatever is set, rotated
    or snapshotted for other deployments later: exactly the secrets that
    GetSecret gave then, in every order of the maps. *)
Theorem snapshot_is_frozen (keys : K) s0 s2 o now uuids p d o1 o2 :
  colon_free p → colon_free d →
  rtc (store_step (λ d', d' ≠ d)) (NewMemorySecretStore keys) s0 →
  rtc (store_step (λ d', d' ≠ d)) (SnapshotForDeployment o now uuids p d s0).2 s2 →
  ∃ m, GetSecretsForDeployment o2 d s2 = inr m ∧ GetSecretsForProject o1 p s0 = inr m ∧
    ∀ n v, m !! n = Some v ↔ ∃ sec, GetSecret p n s0 = inr (sec, v).
Proof.
  intros Hp Hd H0 H2. set (D := λ d', d' ≠ d) in *.
  destruct (store_reach_ok _ _ _ H0 (new_store_ok D keys)) as [Hok0 K0].
  assert (store_ok (λ _, True) s0) as Hok0'. { destruct Hok0 as [A B]. split; [done|naive_solver]. }
  destruct (store_step_ok (λ _, True) s0 (SnapshotForDeployment o now uuids p d s0).2) as [Hok1 K1]; [by constructor|done|].
  assert (store_ok (λ _, True) s2 ∧ ms_keyProvider s2 = ms_keyProvider (SnapshotForDeployment o now uuids p d s0).2) as [Hok2 K2].
  { eapply store_reach_ok; [|done]. eapply rtc_subrel; [|exact H2]. intros a b Hs. destruct Hs; by constructor. }
  destruct (read_project D o1 p s0 Hok0) as (m1 & E1 & M1).
  destruct (read_deployment _ o2 d s2 Hok2) as (m2 & E2 & M2).
  exists m1. split_and!; [|done|].
  - rewrite E2. f_equal. apply map_eq. intros n. apply option_eq. intros v. rewrite M1, M2, K2, K1.
    rewrite <- (snapshot_copies D o now uuids p d s0 n v Hok0) by done.
    setoid_rewrite <- (store_reach_snap D d _ s2 _ _ H2); [done|done..].
  - intros n v. rewrite M1. by apply (get_iff D).
Qed.

End store.
End facts.

(** ** With a cipher that leaves the text in the clear *)

Section demo.

Definition clear_cipher : Cipher := {|
  gcm_Seal key nonce pt := pt;
  gcm_Open key nonce ct := inr ct;
  sha256_sum s := "0123456789abcdef0123456789abcdef"
|}.

#[local] Existing Instance clear_cipher.

#[local] Instance clear_cipher_laws : CipherLaws.
Proof. by split. Qed.

Definition demo_keys : StaticKeyProvider := NewSingleKeyProvider "master".
Definition demo_draw (n : string) : Draw := mkDraw 7 ("id-" +:+ n) "nonce-of-12b".
Definition demo_store : MemorySecretStore StaticKeyProvider :=
  (SetSecret (demo_draw "2") "p2" "DB" "other"
    (SetSecret (demo_draw "1") "p1" "DB" "hunter2" (NewMemorySecretStore demo_keys)).2).2.
Definition demo_snapshot : MemorySecretStore StaticKeyProvider :=
  (SnapshotForDeployment order_id 9 (λ _, "snap") "p1" "d1" demo_store).2.
Definition demo_rotated : MemorySecretStore StaticKeyProvider :=
  (SetSecret (demo_draw "3") "p1" "DB" "rotated" demo_snapshot).2.

Lemma demo_step n p v s :
  colon_free p → store_step (λ d', d' ≠ "d1") s (SetSecret (demo_draw n) p "DB" v s).2.
Proof. intros ?. by constructor. Qed.

(** Two pairs of a project and a name that share their key: the second write
    replaces the first, and a read of the first pair returns the record of the
    other project. *)
Example colon_collides :
  let s := (SetSecret (demo_draw "2") "a:b" "c" "theirs"
             (SetSecret (demo_draw "1") "a" "b:c" "ours" (NewMemorySecretStore demo_keys)).2).2 in
  (λ r, (sc_ProjectID r.1, r.2)) <$> match GetSecret "a" "b:c" s with inr r => Some r | inl _ => None end
  = Some ("a:b", "theirs").
Proof. vm_compute. reflexivity. Qed.

(** [AddKey] on a version that exists replaces its key, and what was encrypted
    under it is then opened with the new one. *)
Example add_key_replaces :
  (λ p, (static_GetKey 1 p.2, p.1)) (AddKey 1 "0123456789abcdef0123456789abcdef" false
     (mkStaticKeys 1 {[1 := "AAAAAAAAAAAAAAAABBBBBBBBBBBBBBBB"]}))
  = (inr "0123456789abcdef0123456789abcdef", None).
Proof. vm_compute. reflexivity. Qed.

Lemma secret_roundtrip_witness :
  ∃ sec, SetSecret (demo_draw "3") "p1" "DB" "rotated" demo_snapshot = (inr sec, demo_rotated) ∧
    GetSecret "p1" "DB" demo_rotated = inr (sec, "rotated") ∧ sc_Version sec = 2.
Proof.
  eexists. assert (SetSecret (demo_draw "3") "p1" "DB" "rotated" demo_snapshot = (inr _, demo_rotated)) as E
    by reflexivity.
  split; [exact E|]. split; [|reflexivity].
  exact (proj1 (secret_roundtrip (demo_draw "3") "p1" "DB" "rotated" _ demo_snapshot demo_rotated eq_refl E)).
Defined.

Lemma snapshot_is_frozen_witness :
  ∃ m, GetSecretsForDeployment order_id "d1" demo_rotated = inr m ∧
    GetSecretsForProject order_id "p1" demo_store = inr m ∧ m !! "DB" = Some "hunter2".
Proof.
  edestruct (snapshot_is_frozen demo_keys demo_store demo_rotated order_id 9 (λ _, "snap") "p1" "d1"
    order_id order_id) as (m & E2 & E1 & H).
  - reflexivity.
  - reflexivity.
  - eapply rtc_l; [by apply (demo_step "1" "p1")|]. apply rtc_once. by apply (demo_step "2" "p2").
  - apply rtc_once. by apply (demo_step "3" "p1").
  - exists m. split; [exact E2|]. split; [exact E1|]. apply H. eexists. vm_compute. reflexivity.
Defined.

End demo.
