(* ===== verification/Http.v ===== *)
(** * Requests, replies and handlers of net/http

    What the HTTP code of the control plane uses of net/http and net/url: a
    header with canonical keys, the fields of a request, the writer of a reply
    and handlers. A handler is a computation on the server's state that ends by
    returning, by a panic, or not at all when it waits for ever; the body of a
    request is what reading it gives. The other side, the interface
    [HTTPClient] of the client with the network behind it, whose state is [X], is
    at the end. *)

From stdpp Require Import base option gmap strings list pretty.
From Stdlib Require Import ZArith Lia Ascii.
From S2P Require Import Prelude GoLib.

(** ** Headers

    [http.Header] maps a canonical key to its values. A key that is not a
    token is left as it is. *)

Abbreviation Header := (gmap string (list string)) (only parsing).

Definition token_char (c : ascii) : bool :=
  let n := N_of_ascii c in
  is_digit c || ((65 <=? n) && (n <=? 90))%N || ((97 <=? n) && (n <=? 122))%N
  || existsb (Ascii.eqb c) ["!"; "#"; "$"; "%"; "&"; "'"; "*"; "+"; "-"; "."; "^"; "_"; "`"; "|"; "~"]%char.

Fixpoint str_forall (f : ascii → bool) (s : string) : bool :=
  match s with EmptyString => true | String c s' => f c && str_forall f s' end.

Lemma str_forall_app f (s t : string) : str_forall f (s +:+ t) = str_forall f s && str_forall f t.
Proof.
  induction s as [|c s IH]; [done|]. change (f c && str_forall f (s +:+ t) = f c && str_forall f s && str_forall f t).
  by rewrite IH, andb_assoc.
Qed.

Lemma str_forall_impl (f g : ascii → bool) (s : string) :
  (∀ c, f c = true → g c = true) → str_forall f s = true → str_forall g s = true.
Proof.
  intros H. induction s as [|c s IH]; cbn; [done|]. rewrite !andb_true_iff. intros [Hc Hs]. auto.
Qed.

(** Upper case at the start and after a dash, lower case elsewhere. *)
Fixpoint canonical_from (upper : bool) (s : string) : string :=
  match s with
  | EmptyString => EmptyString
  | String c s' => String (if upper then upper_char c else lower_char c) (canonical_from (Ascii.eqb c "-") s')
  end.

Definition CanonicalKey (k : string) : string := if str_forall token_char k then canonical_from true k else k.

Definition hdr_Get (h : Header) (k : string) : string := default "" (h !! CanonicalKey k ≫= head).
Definition hdr_Set (k v : string) (h : Header) : Header := <[CanonicalKey k := [v]]> h.
Definition hdr_Add (k v : string) (h : Header) : Header :=
  <[CanonicalKey k := default [] (h !! CanonicalKey k) ++ [v]]> h.

Example CanonicalKey_ex : CanonicalKey "X-API-Key" = "X-Api-Key" ∧ CanonicalKey "x-request-ID" = "X-Request-Id".
Proof. by vm_compute. Qed.

(** ** Escapes in URLs *)

Definition hex_value (c : ascii) : option N :=
  let n := N_of_ascii c in
  if is_digit c then Some (n - 48)%N
  else if ((97 <=? n) && (n <=? 102))%N then Some (n - 87)%N
  else if ((65 <=? n) && (n <=? 70))%N then Some (n - 55)%N
  else None.

(** [url.QueryUnescape], and [url.PathUnescape], which keeps a plus sign.
    [None] is an escape that is not %XX. *)
Fixpoint Unescape (plus : bool) (s : string) : option string :=
  match s with
  | EmptyString => Some EmptyString
  | String "%" s' =>
    match s' with
    | String a (String b s'') =>
      match hex_value a, hex_value b with
      | Some x, Some y => String (ascii_of_N (16 * x + y)) <$> Unescape plus s''
      | _, _ => None
      end
    | _ => None
    end
  | String c s' => String (if plus && Ascii.eqb c "+" then " "%char else c) <$> Unescape plus s'
  end.

(** [r.URL.Query().Get(key)]: the first pair with the key; pairs with a
    semicolon or a bad escape are dropped. *)
Definition query_pair (part : string) : option (string * string) :=
  if Contains part ";" then None
  else if decide (part = "") then None
  else
    let '(k, v, _) := Cut part "=" in
    match Unescape true k, Unescape true v with
    | Some k, Some v => Some (k, v)
    | _, _ => None
    end.

Definition QueryGet (rawQuery key : string) : string :=
  default "" (snd <$> head (base.filter (λ kv, kv.1 = key) (omap query_pair (Split rawQuery "&")))).

Example QueryGet_ex : QueryGet "a=1&follow=tr%75e&follow=x" "follow" = "true" ∧ QueryGet "a;follow=true" "follow" = "".
Proof. by vm_compute. Qed.

(** ** Requests

    [r_Context] is what a handler finds in the request's context. *)

Record Request (C : Type) := mkRequest {
  r_Method : string;
  r_EscapedPath : string;
  r_Path : string;
  r_RawQuery : string;
  r_RequestURI : string;
  r_Header : Header;
  r_Body : string;
  r_ContentLength : Z;
  r_Host : string;
  r_RemoteAddr : string;
  r_TLS : bool;
  r_Context : C
}.
Arguments mkRequest {C} _ _ _ _ _ _ _ _ _ _ _ _.
Arguments r_Method {C} _.
Arguments r_EscapedPath {C} _.
Arguments r_Path {C} _.
Arguments r_RawQuery {C} _.
Arguments r_RequestURI {C} _.
Arguments r_Header {C} _.
Arguments r_Body {C} _.
Arguments r_ContentLength {C} _.
Arguments r_Host {C} _.
Arguments r_RemoteAddr {C} _.
Arguments r_TLS {C} _.
Arguments r_Context {C} _.

#[export] Instance Request_eta C : Settable (Request C) := λ r,
  mkRequest (r_Method r) (r_EscapedPath r) (r_Path r) (r_RawQuery r) (r_RequestURI r) (r_Header r)
    (r_Body r) (r_ContentLength r) (r_Host r) (r_RemoteAddr r) (r_TLS r) (r_Context r).

(** [r.Header.Get(k)]. *)
Definition req_header {C} (r : Request C) (k : string) : string := hdr_Get (r_Header r) k.

(** ** Replies

    The status and the header are sent with the first [WriteHeader], or with
    status 200 by the first [Write]; later changes of the header are lost. *)

Record Writer := mkWriter {
  w_Header : Header;
  w_sent : option (Z * Header);
  w_Body : string
}.

#[export] Instance Writer_eta : Settable Writer := λ w, mkWriter (w_Header w) (w_sent w) (w_Body w).

Definition NewWriter : Writer := mkWriter ∅ None "".

Definition WriteHeader (code : Z) (w : Writer) : Writer :=
  match w_sent w with
  | None => w <| w_sent := Some (code, w_Header w) |>
  | Some _ => w
  end.

Definition Write (data : string) (w : Writer) : Writer :=
  (WriteHeader 200 w) <| w_Body ::= λ b, b +:+ data |>.

Definition SetHeader (k v : string) (w : Writer) : Writer := w <| w_Header ::= hdr_Set k v |>.

(** The status of the reply. *)
Definition w_status (w : Writer) : Z := default 200 (fst <$> w_sent w).

Definition newline : string := String (ascii_of_nat 10) EmptyString.

(** [http.Error]. *)
Definition http_Error (msg : string) (code : Z) (w : Writer) : Writer :=
  let w := w <| w_Header ::= delete "Content-Length" |> in
  let w := SetHeader "X-Content-Type-Options" "nosniff" (SetHeader "Content-Type" "text/plain; charset=utf-8" w) in
  Write (msg +:+ newline) (WriteHeader code w).

(** ** Handlers *)

Inductive Outcome := Returned (w : Writer) | Panicked (w : Writer) | Blocked.

Definition Handler (C S : Type) : Type := Request C → Writer → ST S Outcome.

(** What the client gets of a finished handler. *)
Definition reply_of (o : Outcome) : option Writer :=
  match o with Returned w => Some w | Panicked w => Some w | Blocked => None end.

(** A reply that was sent once keeps its status. *)
Lemma sent_stays code w x : w_sent w = Some x → w_sent (WriteHeader code w) = Some x.
Proof. unfold WriteHeader. intros H. by rewrite H. Qed.

Lemma status_WriteHeader code w : w_sent w = None → w_status (WriteHeader code w) = code.
Proof. unfold WriteHeader, w_status. by intros ->. Qed.

Lemma status_Write data w : w_status (Write data w) = w_status w.
Proof.
  unfold w_status. change (w_sent (Write data w)) with (w_sent (WriteHeader 200 w)). unfold WriteHeader.
  destruct (w_sent w) as [[]|] eqn:E; [by rewrite E|done].
Qed.

Lemma status_SetHeader k v w : w_status (SetHeader k v w) = w_status w.
Proof. done. Qed.

(** Setting a header and reading it, with another one in between. *)
Lemma hdr_Get_Set k v h : hdr_Get (hdr_Set k v h) k = v.
Proof. unfold hdr_Get, hdr_Set. by rewrite lookup_insert_eq. Qed.

Lemma hdr_Get_Set_ne k k' v h : CanonicalKey k ≠ CanonicalKey k' → hdr_Get (hdr_Set k v h) k' = hdr_Get h k'.
Proof. intros H. unfold hdr_Get, hdr_Set. by rewrite lookup_insert_ne. Qed.

(** ** The client *)

Record OutRequest := mkOut {
  or_Method : string;
  or_URL : string;
  or_Header : list (string * string);
  or_Body : string
}.

(** A response, with the error that ends the reading of its body. *)
Record InResponse := mkIn {
  ir_Code : Z;
  ir_Header : list (string * string);
  ir_Body : string;
  ir_ReadErr : option error
}.

Class HTTPClient (X : Type) := {
  http_NewRequest : string → string → option error;
  http_Do : OutRequest → X → (error + InResponse) * X
}.

(** [Header.Get]: the first value, or the empty string. *)
Fixpoint response_Get (key : string) (h : list (string * string)) : string :=
  match h with
  | [] => ""
  | (k, v) :: h' => if String.eqb k key then v else response_Get key h'
  end.

(** The characters of a path that are not escaped. *)
Definition url_char (a : ascii) : bool :=
  let n := N_of_ascii a in
  is_digit a || ((65 <=? n) && (n <=? 90))%N || ((97 <=? n) && (n <=? 122))%N
  || existsb (Ascii.eqb a) ["-"; "."; "_"; "~"; "/"; ":"]%char.
