(* ===== verification/Auth.v ===== *)
(** * Tokens, access and signatures: internal/auth

    The token store (tokens.go), the authentication of a request and its
    middleware (authn.go), the check of a project (authz.go) and the signature
    of a webhook (webhook_signature.go). HMAC-SHA256 is the class [Hmac]. *)

From stdpp Require Import base option gmap strings list pretty.
From Stdlib Require Import ZArith Lia Ascii.
From S2P Require Import Prelude GoLib Http.

(** ** tokens.go *)

Definition ErrInvalidToken : error := "invalid or expired token".
Definition ErrUnauthenticated : error := "unauthorized: missing or invalid credentials".
Definition ErrForbidden : error := "forbidden: project access denied".

Record User := mkUser {
  u_ID : string;
  u_Username : string;
  u_Role : string;
  u_AllowedProjects : list string
}.

#[export] Instance User_eq_dec : EqDecision User.
Proof. solve_decision. Defined.

(** [None] is a nil user. *)
Definition HasProjectAccess (u : option User) (projectID : string) : bool :=
  match u with
  | None => false
  | Some u =>
    String.eqb (u_Role u) "admin"
    || existsb (λ p, String.eqb p "*" || String.eqb p projectID) (u_AllowedProjects u)
  end.

Abbreviation TokenStore := (gmap string (option User)) (only parsing).

Definition NewTokenStore : TokenStore := ∅.
Definition RegisterToken (token : string) (user : option User) (s : TokenStore) : TokenStore := <[token := user]> s.
Definition RevokeToken (token : string) (s : TokenStore) : TokenStore := delete token s.

Definition ValidateToken (token : string) (s : TokenStore) : error + User :=
  match s !! token with
  | Some (Some user) => inr user
  | _ => inl ErrInvalidToken
  end.

(** [hex.EncodeToString] and [hex.DecodeString]. *)
Fixpoint hex_encode (s : string) : string :=
  match s with
  | EmptyString => EmptyString
  | String c s' =>
    let n := N_of_ascii c in
    String (hex_digit (n / 16)) (String (hex_digit (n mod 16)) (hex_encode s'))
  end.

Fixpoint hex_decode (s : string) : option string :=
  match s with
  | EmptyString => Some EmptyString
  | String a (String b s') =>
    match hex_value a, hex_value b with
    | Some x, Some y => String (ascii_of_N (16 * x + y)) <$> hex_decode s'
    | _, _ => None
    end
  | String _ EmptyString => None
  end.

(** [bytes] is what [rand.Read] gives, or its error. *)
Definition GenerateToken (bytes : error + string) (user : option User) (s : TokenStore) :
    (error + string) * TokenStore :=
  match bytes with
  | inl err => (inl ("failed to generate random token: " +:+ err), s)
  | inr b => let token := hex_encode b in (inr token, RegisterToken token user s)
  end.

(** ** authn.go *)

Section authn.
Context {uni : Unicode} {C : Type}.
Implicit Types r : Request C.

(** The branches of [extractToken] on the parts of the header. *)
Definition bearer_token (authHeader : string) : option string :=
  let '(scheme, rest, found) := Cut authHeader " " in
  if found then
    if EqualFold scheme "Bearer" || EqualFold scheme "Token" then Some (TrimSpace rest) else None
  else Some (TrimSpace scheme).

Definition extractToken r : string :=
  let authHeader := req_header r "Authorization" in
  let fallback :=
    let apiKey := req_header r "X-API-Key" in
    if decide (apiKey = "") then "" else TrimSpace apiKey in
  if decide (authHeader = "") then fallback
  else match bearer_token authHeader with
       | Some token => token
       | None => fallback
       end.

Definition Authenticate (store : TokenStore) r : error + User :=
  let token := extractToken r in
  if decide (token = "") then inl ErrUnauthenticated
  else match ValidateToken token store with
       | inl _ => inl ErrUnauthenticated
       | inr user => inr user
       end.

(** The paths that need no credentials. *)
Definition public_path (path : string) : bool :=
  String.eqb path "/health" || String.eqb path "/v1/health"
  || HasPrefix path "/services/" || Contains path "/webhooks".

End authn.

(** The bodies that encoding/json makes of the error maps, with the newline
    that its encoder adds. *)
Definition error_json (msg : string) : string :=
  "{" +:+ quote "error" +:+ ":" +:+ quote msg +:+ "}" +:+ newline.

Definition refuse (code : Z) (msg : string) (w : Writer) : Writer :=
  Write (error_json msg) (WriteHeader code (SetHeader "Content-Type" "application/json" w)).

(** The context of a request is its user. [None] is a nil authenticator. *)
Definition AuthMiddleware {uni : Unicode} {S} (auth : option (S → TokenStore)) (next : Handler (option User) S) :
    Handler (option User) S := λ r w s,
  if public_path (r_Path r) then next r w s
  else match auth with
  | None => next r w s
  | Some store =>
    match Authenticate (store s) r with
    | inl _ => (Returned (refuse 401 "unauthorized: valid authentication required" w), s)
    | inr user => next (r <| r_Context := Some user |>) w s
    end
  end.

(** ** authz.go *)

Definition AuthorizeProject (user : option User) (projectID : string) : option error :=
  if HasProjectAccess user projectID then None else Some ErrForbidden.

(** The reply and whether the caller may go on. *)
Definition CheckProjectAccess (r : Request (option User)) (projectID : string) (w : Writer) :
    option User * bool * Writer :=
  match r_Context r with
  | None => (None, false, refuse 401 "unauthorized" w)
  | Some user =>
    match AuthorizeProject (Some user) projectID with
    | Some _ => (Some user, false, refuse 403 "forbidden: project access denied" w)
    | None => (Some user, true, w)
    end
  end.

(** ** webhook_signature.go *)

Class Hmac := hmac_sha256 : string → string → string.

Section webhook.
Context {uni : Unicode} {hm : Hmac}.

Definition ComputeHMACSHA256 (secret payload : string) : string := hmac_sha256 secret payload.

Definition ComputeWebhookSignatureHeader (secret payload : string) : string :=
  "sha256=" +:+ hex_encode (ComputeHMACSHA256 secret payload).

Definition VerifyWebhookSignature (secret payload signatureHeader : string) : bool :=
  if decide (secret = "") then false
  else if decide (signatureHeader = "") then false
  else
    let sigHex := TrimPrefix (TrimSpace signatureHeader) "sha256=" in
    match hex_decode sigHex with
    | None => false
    | Some providedMAC => String.eqb (ComputeHMACSHA256 secret payload) providedMAC
    end.

End webhook.

(** ** Hexadecimal *)

Lemma hex_value_digit (n : N) : (n < 16)%N → hex_value (hex_digit n) = Some n.
Proof.
  intros Hn. assert (Forall (λ k, hex_value (hex_digit k) = Some k) (N.of_nat <$> seq 0 16)) as H.
  { repeat constructor. }
  rewrite Forall_forall in H. apply H, list_elem_of_fmap.
  exists (N.to_nat n). rewrite N2Nat.id, elem_of_seq. split; [done|lia].
Qed.

Lemma hex_roundtrip (s : string) : hex_decode (hex_encode s) = Some s.
Proof.
  induction s as [|c s IH]; [done|]. cbn -[N.mul N.div N.modulo hex_digit hex_value].
  assert (N_of_ascii c < 256)%N by apply N_ascii_bounded.
  rewrite !hex_value_digit, IH by (apply N.mod_lt || apply N.Div0.div_lt_upper_bound; lia).
  cbn. rewrite <- N.div_mod by done. by rewrite ascii_N_embedding.
Qed.

Definition hex_char (c : ascii) : bool :=
  is_digit c || existsb (Ascii.eqb c) ["a"; "b"; "c"; "d"; "e"; "f"]%char.

Lemma hex_digit_char (n : N) : (n < 16)%N → hex_char (hex_digit n) = true.
Proof.
  intros Hn. assert (Forall (λ k, hex_char (hex_digit k) = true) (N.of_nat <$> seq 0 16)) as H.
  { repeat constructor. }
  rewrite Forall_forall in H. apply H, list_elem_of_fmap.
  exists (N.to_nat n). rewrite N2Nat.id, elem_of_seq. split; [done|lia].
Qed.

(** ** The signature of a payload *)

Lemma hex_encode_chars (s : string) : str_forall hex_char (hex_encode s) = true.
Proof.
  induction s as [|c s IH]; [done|]. cbn -[N.div N.modulo hex_digit hex_char].
  assert (N_of_ascii c < 256)%N by apply N_ascii_bounded.
  by rewrite !hex_digit_char, IH by (apply N.mod_lt || apply N.Div0.div_lt_upper_bound; lia).
Qed.

(** ASCII without spaces, which [strings.TrimSpace] leaves alone. *)
Definition plain_char (c : ascii) : bool := isASCII_char c && negb (space_char c).

Lemma hex_char_plain c : hex_char c = true → plain_char c = true.
Proof. destruct c as [[] [] [] [] [] [] [] []]; vm_compute; done. Qed.

Lemma trim_right_plain (s : string) : str_forall plain_char s = true → trim_right s = s.
Proof.
  induction s as [|c s IH]; [done|]. cbn. unfold plain_char. rewrite !andb_true_iff, negb_true_iff. intros [[_ Hc] Hs].
  rewrite IH by done. destruct s; [by rewrite Hc|done].
Qed.

Lemma TrimSpace_plain {uni : Unicode} (s : string) : str_forall plain_char s = true → TrimSpace s = s.
Proof.
  intros H. unfold TrimSpace. assert (isASCII s = true) as ->.
  { clear -H. unfold plain_char in H. induction s as [|c s IH]; [done|]. cbn in *. rewrite !andb_true_iff in *. naive_solver. }
  rewrite <- (trim_right_plain s H) at 2. f_equal.
  destruct s as [|c s]; [done|]. cbn in *. unfold plain_char in H. rewrite !andb_true_iff, negb_true_iff in H.
  by destruct H as [[_ ->] _].
Qed.

(** A signature made with a secret is accepted for a payload exactly when the
    payload has the HMAC of the signed one, both in the form sha256=<hex> and,
    when the HMAC is not empty, as plain hex. *)
Theorem webhook_signature_roundtrip {uni : Unicode} {hm : Hmac} (secret payload payload' : string) :
  secret ≠ "" →
  (VerifyWebhookSignature secret payload' (ComputeWebhookSignatureHeader secret payload) = true
   ↔ ComputeHMACSHA256 secret payload = ComputeHMACSHA256 secret payload')
  ∧ (VerifyWebhookSignature secret payload' (hex_encode (ComputeHMACSHA256 secret payload)) = true
     ↔ ComputeHMACSHA256 secret payload = ComputeHMACSHA256 secret payload'
       ∧ ComputeHMACSHA256 secret payload ≠ "").
Proof.
  intros Hs. set (mac := ComputeHMACSHA256 secret payload).
  pose proof (str_forall_impl _ plain_char _ hex_char_plain (hex_encode_chars mac)) as Hp.
  split; unfold VerifyWebhookSignature; rewrite decide_False by done.
  - unfold ComputeWebhookSignatureHeader. fold mac.
    rewrite decide_False by done. rewrite TrimSpace_plain by (rewrite str_forall_app, Hp; done).
    rewrite TrimPrefix_app, hex_roundtrip, String.eqb_eq. done.
  - destruct (decide (hex_encode mac = "")) as [E|E].
    + split; [done|]. intros [_ []]. by destruct mac.
    + assert (mac ≠ "") by (by intros ->). rewrite TrimSpace_plain by done.
      assert (TrimPrefix (hex_encode mac) "sha256=" = hex_encode mac) as ->.
      { unfold TrimPrefix. destruct (HasPrefix _ _) eqn:Hh; [|done].
        apply HasPrefix_app in Hh as [t Ht]. pose proof (hex_encode_chars mac) as Hc.
        rewrite Ht in Hc. done. }
      rewrite hex_roundtrip, String.eqb_eq. naive_solver.
Qed.

(** ** Who is authenticated *)

Inductive TokenOp := OpRegister (token : string) (user : option User) | OpRevoke (token : string).

Definition op_token (o : TokenOp) : string := match o with OpRegister t _ | OpRevoke t => t end.

Definition token_op (s : TokenStore) (o : TokenOp) : TokenStore :=
  match o with
  | OpRegister token user => RegisterToken token user s
  | OpRevoke token => RevokeToken token s
  end.

Lemma token_ops_last ops token u :
  fold_left token_op ops NewTokenStore !! token = Some (Some u) ↔
  ∃ before after, ops = before ++ OpRegister token (Some u) :: after
    ∧ Forall (λ o, op_token o ≠ token) after.
Proof.
  induction ops as [|o ops IH] using rev_ind.
  - unfold NewTokenStore. cbn. rewrite lookup_empty. split; [done|]. by intros ([] & ? & ? & _).
  - rewrite fold_left_app. cbn. split.
    + assert (∀ o, op_token o ≠ token →
        token_op (fold_left token_op ops NewTokenStore) o !! token = Some (Some u) →
        ∃ before after, ops ++ [o] = before ++ OpRegister token (Some u) :: after
          ∧ Forall (λ o, op_token o ≠ token) after) as Hother.
      { intros [] Hne; cbn in Hne |- *; unfold RegisterToken, RevokeToken;
          [rewrite lookup_insert_ne by done|rewrite lookup_delete_ne by done];
          intros (before & after & -> & Ha)%IH;
          eexists before, (after ++ [_]); rewrite <- app_assoc; split; [done| |done|];
          apply Forall_app; by repeat constructor. }
      destruct (decide (op_token o = token)) as [<-|Hne]; [|by apply Hother].
      destruct o as [t v|t]; cbn; unfold RegisterToken, RevokeToken.
      * rewrite lookup_insert_eq. intros [= ->]. by exists ops, [].
      * by rewrite lookup_delete_eq.
    + intros (before & after & E & Ha). destruct after as [|o' after _] using rev_ind.
      * apply app_inj_tail in E as [-> ->]. cbn. apply lookup_insert_eq.
      * rewrite app_comm_cons, app_assoc in E. apply app_inj_tail in E as [-> ->].
        apply Forall_app in Ha as [Ha Ho]. rewrite Forall_singleton in Ho.
        assert (fold_left token_op (before ++ OpRegister token (Some u) :: after) NewTokenStore !! token = Some (Some u))
          as H by (apply IH; eauto).
        destruct o'; cbn in Ho |- *; unfold RegisterToken, RevokeToken; by rewrite ?lookup_insert_ne, ?lookup_delete_ne.
Qed.

(** C28: A request is authenticated as a user exactly when its token is not
    empty and, among all registrations and revocations of the token store so
    far, the last one about that token registered this user. *)
Theorem authentication_outcome {uni : Unicode} {C} (ops : list TokenOp) (r : Request C) (u : User) :
  Authenticate (fold_left token_op ops NewTokenStore) r = inr u ↔
  extractToken r ≠ "" ∧
  ∃ before after, ops = before ++ OpRegister (extractToken r) (Some u) :: after
    ∧ Forall (λ o, op_token o ≠ extractToken r) after.
Proof.
  rewrite <- token_ops_last. unfold Authenticate, ValidateToken.
  destruct (decide (extractToken r = "")) as [->|Hne]; [naive_solver|].
  destruct (_ !! _) as [[v|]|]; naive_solver.
Qed.

Definition demo_hmac : Hmac := λ secret payload, secret +:+ payload.

Lemma webhook_signature_roundtrip_witness :
  VerifyWebhookSignature (uni := unicode_none) (hm := demo_hmac) "k" "push"
    (ComputeWebhookSignatureHeader (hm := demo_hmac) "k" "push") = true.
Proof.
  apply (webhook_signature_roundtrip (uni := unicode_none) (hm := demo_hmac) "k" "push" "push"); done.
Defined.
