(* ===== verification/Idempotency.v ===== *)
(** * Idempotency keys: internal/api/idempotency.go

    The store of responses by key. Entries are shared by pointer, so the state
    has a heap of them. The operations are used by the handlers of the API and,
    one atomic section at a time, by the step relation of concurrent requests,
    on which the promise of the store is proved: a key is executed once, and
    every other request with the key gets the response of that execution. *)

From stdpp Require Import base option gmap strings list.
From Stdlib Require Import ZArith Lia.
From S2P Require Import Prelude GoLib Http.

(** ** The store *)

Inductive IdempotencyStatus := IdempotencyInFlight | IdempotencyCompleted.

(** The status code, the header and the body of a response. *)
Abbreviation Response := (Z * gmap string (list string) * string)%type (only parsing).

(** [ie_Done] says whether the channel is closed. *)
Record IdempotencyEntry := mkEntry {
  ie_Status : IdempotencyStatus;
  ie_Response : Response;
  ie_Done : bool
}.

Record IdempotencyStore := mkIdempotency {
  id_entries : gmap string nat;
  id_heap : gmap nat IdempotencyEntry;
  id_next : nat
}.

#[export] Instance IdempotencyStore_eta : Settable IdempotencyStore := λ s,
  mkIdempotency (id_entries s) (id_heap s) (id_next s).

Definition NewIdempotencyStore : IdempotencyStore := mkIdempotency ∅ ∅ 0.

Definition in_flight : IdempotencyEntry := mkEntry IdempotencyInFlight (0, ∅, "") false.

(** The entry, and whether the caller is the first one. *)
Definition GetOrReserve (key : string) (s : IdempotencyStore) : nat * bool * IdempotencyStore :=
  match id_entries s !! key with
  | Some l => (l, false, s)
  | None =>
    let l := id_next s in
    (l, true, s <| id_entries ::= <[key := l]> |> <| id_heap ::= <[l := in_flight]> |> <| id_next ::= S |>)
  end.

(** The section of [Complete] under the lock of the store, and the one under
    the lock of the entry; [None] is the panic of closing a channel twice. *)
Definition complete_find (key : string) (s : IdempotencyStore) : option nat := id_entries s !! key.

Definition complete_entry (l : nat) (r : Response) (s : IdempotencyStore) : option IdempotencyStore :=
  match id_heap s !! l with
  | Some e =>
    if ie_Done e then None
    else Some (s <| id_heap ::= <[l := mkEntry IdempotencyCompleted r true]> |>)
  | None => Some s
  end.

Definition Complete (key : string) (r : Response) (s : IdempotencyStore) : option IdempotencyStore :=
  match complete_find key s with
  | None => Some s
  | Some l => complete_entry l r s
  end.

(** [None]: the caller waits. *)
Definition WaitAndGet (l : nat) (s : IdempotencyStore) : option Response :=
  match id_heap s !! l with
  | Some e => if ie_Done e then Some (ie_Response e) else None
  | None => None
  end.

(** ** Concurrent requests

    Where a request with a key is. [Executing] is the handler between
    [GetOrReserve] and [Complete], [Failed] a handler that panicked before it
    called [Complete]: the recoverer answers it and the entry stays. *)

Inductive Caller :=
| Executing (key : string) (l : nat)
| Completing (key : string) (l : nat) (r : Response)
| Waiting (key : string) (l : nat)
| Answered (key : string) (r : Response) (replayed : bool)
| Failed (key : string) (l : nat).

(** [it_started]: the requests that began to execute, and their keys. *)
Record Traffic := mkTraffic {
  it_store : IdempotencyStore;
  it_callers : gmap nat Caller;
  it_started : list (nat * string)
}.

#[export] Instance Traffic_eta : Settable Traffic := λ s,
  mkTraffic (it_store s) (it_callers s) (it_started s).

Definition NewTraffic : Traffic := mkTraffic NewIdempotencyStore ∅ [].

Definition put (t : nat) (c : Caller) (s : Traffic) : Traffic := s <| it_callers ::= <[t := c]> |>.

Definition arrive (t : nat) (key : string) (s : Traffic) : Traffic :=
  let '(l, isFirst, st) := GetOrReserve key (it_store s) in
  if isFirst
  then put t (Executing key l) (s <| it_store := st |> <| it_started ::= cons (t, key) |>)
  else put t (Waiting key l) s.

(** The steps of a request inside. *)
Inductive caller_step : Traffic → Traffic → Prop :=
| step_execute t key l r l' s :
    it_callers s !! t = Some (Executing key l) → complete_find key (it_store s) = Some l' →
    caller_step s (put t (Completing key l' r) s)
| step_lost t key l r s :
    it_callers s !! t = Some (Executing key l) → complete_find key (it_store s) = None →
    caller_step s (put t (Answered key r false) s)
| step_panic t key l s :
    it_callers s !! t = Some (Executing key l) → caller_step s (put t (Failed key l) s)
| step_complete t key l r st s :
    it_callers s !! t = Some (Completing key l r) → complete_entry l r (it_store s) = Some st →
    caller_step s (put t (Answered key r false) (s <| it_store := st |>))
| step_close_twice t key l r s :
    it_callers s !! t = Some (Completing key l r) → complete_entry l r (it_store s) = None →
    caller_step s (put t (Failed key l) s)
| step_wake t key l r s :
    it_callers s !! t = Some (Waiting key l) → WaitAndGet l (it_store s) = Some r →
    caller_step s (put t (Answered key r true) s).

Inductive traffic_step : Traffic → Traffic → Prop :=
| step_arrive t key s : it_callers s !! t = None → traffic_step s (arrive t key s)
| step_inside s s' : caller_step s s' → traffic_step s s'.

(** ** The invariant *)

Definition caller_key (c : Caller) : string :=
  match c with Executing k _ | Completing k _ _ | Waiting k _ | Answered k _ _ | Failed k _ => k end.

(** The request that is responsible for the entry, until it has completed it. *)
Definition owns (c : Caller) : option (string * nat) :=
  match c with Executing k l | Completing k l _ | Failed k l => Some (k, l) | _ => None end.

Definition entry_of (s : Traffic) (key : string) (l : nat) (e : IdempotencyEntry) : Prop :=
  id_entries (it_store s) !! key = Some l ∧ id_heap (it_store s) !! l = Some e.

(** What the position of a request says about the entry of its key. *)
Definition caller_ok (s : Traffic) (t : nat) (c : Caller) : Prop :=
  match c with
  | Executing k l | Completing k l _ | Failed k l =>
    (∃ e, entry_of s k l e ∧ ie_Done e = false) ∧ (t, k) ∈ it_started s
  | Waiting k l => (∃ e, entry_of s k l e) ∧ (t, k) ∉ it_started s
  | Answered k r replayed =>
    (∃ l e, entry_of s k l e ∧ ie_Done e = true ∧ ie_Response e = r)
    ∧ (replayed = false ↔ (t, k) ∈ it_started s)
  end.

Record traffic_inv (s : Traffic) : Prop := {
  ti_caller : ∀ t c, it_callers s !! t = Some c → caller_ok s t c;
  ti_entry : ∀ k l, id_entries (it_store s) !! k = Some l →
    (l < id_next (it_store s))%nat ∧ ∃ e, id_heap (it_store s) !! l = Some e
      ∧ (ie_Done e = false → ∃ t c, it_callers s !! t = Some c ∧ owns c = Some (k, l));
  ti_inj : ∀ k k' l, id_entries (it_store s) !! k = Some l → id_entries (it_store s) !! k' = Some l → k = k';
  ti_started : NoDup (it_started s).*2;
  ti_reserved : ∀ t k, (t, k) ∈ it_started s →
    is_Some (id_entries (it_store s) !! k) ∧ ∃ c, it_callers s !! t = Some c ∧ caller_key c = k
}.

Lemma traffic_inv_new : traffic_inv NewTraffic.
Proof.
  split; cbn; try (intros *; rewrite ?lookup_empty; done); [apply NoDup_nil_2|].
  intros t k H. by apply not_elem_of_nil in H.
Qed.

(** Only one request is responsible for a key. *)
Lemma started_once s t t' k :
  traffic_inv s → (t, k) ∈ it_started s → (t', k) ∈ it_started s → t = t'.
Proof.
  intros Hi. pose proof (ti_started _ Hi) as Hn. induction (it_started s) as [|[u j] l IH]; [set_solver|].
  cbn in Hn. apply NoDup_cons in Hn as [Hj Hn].
  assert (∀ v, (v, j) ∈ l → False) as Hout.
  { intros v Hv. apply Hj, list_elem_of_fmap. by exists (v, j). }
  rewrite !elem_of_cons. intros [E|H] [E'|H']; simplify_eq; [done|naive_solver..].
Qed.

(** A step of one request that leaves the store as it is. *)
Lemma put_inv s t c c' :
  traffic_inv s → it_callers s !! t = Some c → caller_key c' = caller_key c →
  owns c' = owns c → caller_ok s t c' → traffic_inv (put t c' s).
Proof.
  intros Hi Ht Hk Ho Hok. split; [| |apply Hi..|].
  - intros u d. cbn. rewrite lookup_insert. case_decide as E; [intros [= <-]; subst u; exact Hok|].
    by apply (ti_caller _ Hi).
  - intros k l Hl. destruct (ti_entry _ Hi k l Hl) as (Hlt & e & He & Hown). split; [done|].
    exists e. split; [done|]. intros (u & d & Hu & Hd)%Hown. cbn.
    destruct (decide (t = u)) as [<-|Hne].
    + exists t, c'. rewrite lookup_insert_eq. split; [done|]. congruence.
    + exists u, d. by rewrite lookup_insert_ne.
  - intros u k Hs. destruct (ti_reserved _ Hi _ _ Hs) as (Hr & d & Hu & Hd). split; [done|]. cbn.
    destruct (decide (t = u)) as [<-|Hne].
    + exists c'. rewrite lookup_insert_eq. split; [done|]. congruence.
    + exists d. by rewrite lookup_insert_ne.
Qed.

Lemma arrive_inv s t key : traffic_inv s → it_callers s !! t = None → traffic_inv (arrive t key s).
Proof.
  intros Hi Ht. unfold arrive, GetOrReserve.
  assert (∀ k, (t, k) ∉ it_started s) as Hnew.
  { intros k (_ & c & Hc & _)%(ti_reserved _ Hi). congruence. }
  destruct (id_entries (it_store s) !! key) as [l|] eqn:Hkey.
  - split; [| |apply Hi..|].
    + intros u d. cbn. rewrite lookup_insert. case_decide as E; [intros [= <-]; subst u|by apply (ti_caller _ Hi)].
      destruct (ti_entry _ Hi _ _ Hkey) as (_ & e & He & _). split; [by exists e|apply Hnew].
    + intros k l' Hl. destruct (ti_entry _ Hi k l' Hl) as (Hlt & e & He & Hown). split; [done|].
      exists e. split; [done|]. intros (u & d & Hu & Hd)%Hown. exists u, d. cbn.
      rewrite lookup_insert_ne; [done|]. intros <-. congruence.
    + intros u k Hs. destruct (ti_reserved _ Hi _ _ Hs) as (Hr & d & Hu & Hd). split; [done|]. exists d. cbn.
      rewrite lookup_insert_ne; [done|]. intros <-. congruence.
  - set (l := id_next (it_store s)).
    assert (∀ k l', id_entries (it_store s) !! k = Some l' → l' ≠ l ∧ k ≠ key) as Hfresh.
    { intros k l' Hl. destruct (ti_entry _ Hi k l' Hl) as [Hlt _]. split; [unfold l; lia|congruence]. }
    set (s' := put t _ _).
    assert (∀ k l' e, entry_of s k l' e → entry_of s' k l' e) as Hkeep.
    { intros k l' e [He Hh]. destruct (Hfresh _ _ He) as [Hl Hk]. split; cbn; by rewrite lookup_insert_ne. }
    assert (entry_of s' key l in_flight) as Hme by (split; cbn; by rewrite lookup_insert_eq).
    assert (∀ u k, (u, k) ∈ it_started s' ↔ u = t ∧ k = key ∨ (u, k) ∈ it_started s) as Hst.
    { intros u k. cbn. rewrite elem_of_cons. naive_solver. }
    split.
    + intros u d. cbn. rewrite lookup_insert. case_decide as E; [intros [= <-]; subst u|].
      { split; [by exists in_flight|]. apply Hst. by left. }
      intros Hu. pose proof (ti_caller _ Hi _ _ Hu) as Hok.
      destruct d as [k l'|k l' r|k l'|k r b|k l']; cbn [caller_ok] in Hok |- *; rewrite Hst; naive_solver.
    + intros k l'. cbn. rewrite lookup_insert. case_decide as E.
      * intros [= <-]. subst k. split; [fold l; lia|]. exists in_flight. rewrite lookup_insert_eq.
        split; [done|]. intros _. exists t, (Executing key l). by rewrite lookup_insert_eq.
      * intros Hl. destruct (ti_entry _ Hi k l' Hl) as (Hlt & e & He & Hown). split; [lia|].
        exists e. rewrite lookup_insert_ne by (by apply not_eq_sym, (Hfresh k)). split; [done|].
        intros (u & d & Hu & Hd)%Hown. exists u, d. rewrite lookup_insert_ne; [done|]. intros <-. congruence.
    + intros k k' l'. cbn. rewrite !lookup_insert. repeat case_decide; subst; [done| | |by apply (ti_inj _ Hi)].
      * intros [= <-] [? _]%Hfresh. done.
      * intros [? _]%Hfresh [= <-]. done.
    + cbn. apply NoDup_cons. split; [|apply Hi].
      intros ([u k] & Hk & ([x Hr] & _)%(ti_reserved _ Hi))%list_elem_of_fmap. cbn in Hk. subst k. congruence.
    + intros u k [[-> ->]|Hs]%Hst.
      * split; [rewrite (proj1 Hme); eauto|]. exists (Executing key l). cbn. by rewrite lookup_insert_eq.
      * destruct (ti_reserved _ Hi _ _ Hs) as ([l' Hr] & d & Hu & Hd). split.
        -- exists l'. cbn. rewrite lookup_insert_ne; [done|]. destruct (Hfresh _ _ Hr). by apply not_eq_sym.
        -- exists d. cbn. rewrite lookup_insert_ne; [done|]. intros <-. congruence.
Qed.

Lemma complete_inv s t key l r st :
  traffic_inv s → it_callers s !! t = Some (Completing key l r) → complete_entry l r (it_store s) = Some st →
  traffic_inv (put t (Answered key r false) (s <| it_store := st |>)).
Proof.
  intros Hi Ht. pose proof (ti_caller _ Hi _ _ Ht) as ((e & [He Hh] & Hd) & Hst).
  unfold complete_entry. rewrite Hh, Hd. intros [= <-].
  set (s' := put t _ _). set (e' := mkEntry IdempotencyCompleted r true).
  assert (entry_of s' key l e') as Hme by (split; [done|]; cbn; by rewrite lookup_insert_eq).
  assert (∀ k l' e0, k ≠ key → entry_of s k l' e0 → entry_of s' k l' e0) as Hkeep.
  { intros k l' e0 Hk [He0 Hh0]. split; [done|]. cbn. rewrite lookup_insert_ne; [done|].
    intros <-. by apply Hk, (ti_inj _ Hi k key l). }
  split; [| |apply Hi..|].
  - intros u d. cbn. rewrite lookup_insert. case_decide as E; [intros [= <-]; subst u|].
    { split; [by exists l, e'|]. by split. }
    intros Hu. pose proof (ti_caller _ Hi _ _ Hu) as Hok. destruct (decide (caller_key d = key)) as [Hk|Hk].
    + assert (∀ l0 e0, entry_of s key l0 e0 → l0 = l ∧ e0 = e) as Huniq.
      { intros l0 e0 [H1 H2]. simplify_eq. done. }
      destruct d as [k l'|k l' r'|k l'|k r' b|k l']; cbn [caller_ok caller_key] in Hk, Hok |- *; subst k.
      1, 2, 5: by destruct E; apply (started_once s t u key Hi); [|apply Hok].
      * destruct Hok as ([e0 [-> _]%Huniq] & Hn). split; [by exists e'|done].
      * destruct Hok as ((l0 & e0 & [-> ->]%Huniq & Hd' & _) & _). congruence.
    + destruct d as [k l'|k l' r'|k l'|k r' b|k l']; cbn [caller_ok caller_key] in Hk, Hok |- *; naive_solver.
  - intros k l'. cbn. intros Hl. destruct (ti_entry _ Hi k l' Hl) as (Hlt & e0 & He0 & Hown). split; [done|].
    destruct (decide (l' = l)) as [->|Hne]; [exists e'; by rewrite lookup_insert_eq|].
    exists e0. rewrite lookup_insert_ne by done. split; [done|]. intros (u & d & Hu & Ho)%Hown. exists u, d.
    rewrite lookup_insert_ne; [done|]. intros <-. rewrite Ht in Hu. injection Hu as <-. cbn in Ho. congruence.
  - intros u k Hs. destruct (ti_reserved _ Hi _ _ Hs) as (Hr & d & Hu & Hk). split; [done|]. cbn.
    destruct (decide (t = u)) as [<-|Hne].
    + exists (Answered key r false). rewrite lookup_insert_eq. split; [done|]. rewrite Ht in Hu. by injection Hu as <-.
    + exists d. by rewrite lookup_insert_ne.
Qed.

Lemma caller_step_inv s s' : caller_step s s' → traffic_inv s → traffic_inv s'.
Proof.
  intros [t key l r l' s0 Ht Hf|t key l r s0 Ht Hf|t key l s0 Ht|t key l r st s0 Ht Hc|t key l r s0 Ht Hc|t key l r s0 Ht Hw] Hi;
    pose proof (ti_caller _ Hi _ _ Ht) as Hok; cbn in Hok.
  - destruct Hok as ((e & [He Hh] & Hd) & Hs). unfold complete_find in Hf.
    rewrite He in Hf. injection Hf as <-. apply (put_inv s0 t (Executing key l)); [done..|]. split; [by exists e|done].
  - destruct Hok as ((e & [He Hh] & Hd) & Hs). unfold complete_find in Hf. congruence.
  - by apply (put_inv s0 t (Executing key l)).
  - by apply (complete_inv s0 t key l).
  - by apply (put_inv s0 t (Completing key l r)).
  - destruct Hok as ((e & [He Hh]) & Hs). unfold WaitAndGet in Hw. rewrite Hh in Hw.
    destruct (ie_Done e) eqn:Hd; [|done]. injection Hw as <-.
    apply (put_inv s0 t (Waiting key l)); [done..|]. split; [by exists l, e|]. by split.
Qed.

Lemma traffic_reach_inv s : rtc traffic_step NewTraffic s → traffic_inv s.
Proof.
  assert (∀ s0, traffic_inv s0 → rtc traffic_step s0 s → traffic_inv s) as H.
  { intros s0 H0 Hr. induction Hr as [|s1 s2 s3 Hs _ IH]; [done|]. apply IH.
    destruct Hs; [by apply arrive_inv|by eapply caller_step_inv]. }
  apply H, traffic_inv_new.
Qed.

(** ** Once, and the same for all *)

(** C9: In every interleaving of requests with idempotency keys, a key is
    executed at most once, every request with the key that gets an answer gets
    the same one, exactly the executing request has an answer that is not a
    replay, and an entry is never completed twice. *)
Theorem idempotency_key_once s key :
  rtc traffic_step NewTraffic s →
  (∀ t t', (t, key) ∈ it_started s → (t', key) ∈ it_started s → t = t') ∧
  NoDup (it_started s).*2 ∧
  (∀ t t' r r' b b', it_callers s !! t = Some (Answered key r b) → it_callers s !! t' = Some (Answered key r' b') → r = r') ∧
  (∀ t r b, it_callers s !! t = Some (Answered key r b) → (b = false ↔ (t, key) ∈ it_started s)) ∧
  (∀ t l r, it_callers s !! t = Some (Completing key l r) → complete_entry l r (it_store s) ≠ None).
Proof.
  intros Hi%traffic_reach_inv. split_and!.
  - intros t t'. by apply started_once.
  - apply Hi.
  - intros t t' r r' b b' ((l & e & [He Hh] & _ & <-) & _)%(ti_caller _ Hi)
      ((l' & e' & [He' Hh'] & _ & <-) & _)%(ti_caller _ Hi). by simplify_eq.
  - by intros t r b (_ & H)%(ti_caller _ Hi).
  - intros t l r ((e & [He Hh] & Hd) & _)%(ti_caller _ Hi). unfold complete_entry. by rewrite Hh, Hd.
Qed.

(** The sections that the requests inside have left. *)
Definition caller_weight (c : Caller) : nat :=
  match c with Executing _ _ => 2 | Completing _ _ _ | Waiting _ _ => 1 | _ => 0 end.

Definition traffic_work (s : Traffic) : nat := map_fold (λ _ c n, (caller_weight c + n)%nat) 0%nat (it_callers s).

Lemma put_work s s0 t c c' :
  it_callers s0 = it_callers s → it_callers s !! t = Some c → (caller_weight c' < caller_weight c)%nat →
  (traffic_work (put t c' s0) < traffic_work s)%nat.
Proof.
  intros E Ht Hw. unfold traffic_work. rewrite (map_fold_delete_L _ 0%nat t c (it_callers s)) by (intros; lia || done).
  cbn. rewrite E, <- insert_delete_eq.
  rewrite (map_fold_insert_L _ 0%nat t c') by (intros; lia || apply lookup_delete_eq). lia.
Qed.

Lemma caller_step_work s s' : caller_step s s' → (traffic_work s' < traffic_work s)%nat.
Proof. intros []; (eapply put_work; [|eassumption|]; [done|cbn; lia]). Qed.

(** A request is answered, failed, or waits for one that failed. *)
Definition settled (s : Traffic) (c : Caller) : Prop :=
  match c with
  | Answered _ _ _ | Failed _ _ => True
  | Waiting key l => ∃ t, it_callers s !! t = Some (Failed key l)
  | _ => False
  end.

Lemma stuck_settled s t c :
  traffic_inv s → (∀ s', ¬ caller_step s s') → it_callers s !! t = Some c → settled s c.
Proof.
  intros Hi Hstuck Ht. destruct c as [key l|key l r|key l|key r b|key l]; cbn; try done.
  - by destruct (Hstuck _ (step_panic _ _ _ _ Ht)).
  - destruct (complete_entry l r (it_store s)) eqn:E.
    + by destruct (Hstuck _ (step_complete _ _ _ _ _ _ Ht E)).
    + by destruct (Hstuck _ (step_close_twice _ _ _ _ _ Ht E)).
  - destruct (ti_caller _ Hi _ _ Ht) as ((e & [He Hh]) & _).
    destruct (ti_entry _ Hi _ _ He) as (_ & e' & Hh' & Hown).
    assert (e' = e) as -> by congruence. destruct (ie_Done e) eqn:Hd.
    + exfalso. eapply Hstuck, step_wake; [done|]. unfold WaitAndGet. by rewrite Hh, Hd.
    + destruct (Hown eq_refl) as (u & d & Hu & Ho). exists u.
      destruct d as [k l'|k l' r|k l'|k r b|k l']; cbn in Ho; simplify_eq.
      * by destruct (Hstuck _ (step_panic _ _ _ _ Hu)).
      * destruct (complete_entry l r (it_store s)) eqn:E.
        -- by destruct (Hstuck _ (step_complete _ _ _ _ _ _ Hu E)).
        -- by destruct (Hstuck _ (step_close_twice _ _ _ _ _ Hu E)).
      * done.
Qed.

(** From every reachable state, the requests that have arrived can take only a
    bounded number of steps without a new one arriving, and when none can step,
    every one of them has its answer or has panicked, or waits for one that has
    panicked. *)
Theorem idempotency_drains s :
  rtc traffic_step NewTraffic s →
  (∀ n s', nsteps caller_step n s s' → (n ≤ traffic_work s)%nat) ∧
  (∀ s' t c, rtc caller_step s s' → (∀ s'', ¬ caller_step s' s'') → it_callers s' !! t = Some c → settled s' c).
Proof.
  intros Hr. split.
  - intros n s' H. clear Hr. induction H as [|n s s1 s2 H _ IH]; [lia|]. apply caller_step_work in H. lia.
  - intros s' t c Hs Hstuck. apply stuck_settled; [|done]. apply traffic_reach_inv.
    etransitivity; [exact Hr|]. clear -Hs. induction Hs as [|s s1 s2 H _ IH]; [done|].
    by eapply rtc_l; [apply step_inside|].
Qed.

(** ** A handler that panics

    Its key is blocked for ever: the entry is never completed or removed. *)

Lemma failed_stays t key l s s' :
  it_callers s !! t = Some (Failed key l) → traffic_step s s' → it_callers s' !! t = Some (Failed key l).
Proof.
  intros Ht Hs. destruct Hs as [u k s Hu|s s' Hs].
  - unfold arrive. destruct (GetOrReserve k (it_store s)) as [[l' []] st]; cbn;
      (rewrite lookup_insert_ne; [done|]); intros ->; congruence.
  - destruct Hs as [u k l0 r l' s Hu|u k l0 r s Hu|u k l0 s Hu|u k l0 r st s Hu|u k l0 r s Hu|u k l0 r s Hu]; cbn;
      (rewrite lookup_insert_ne; [done|]); intros ->; congruence.
Qed.

(** When a request panics before it completes its entry, no request with the key
    is ever answered, whatever happens later. *)
Theorem panic_blocks_key s s' t key l :
  rtc traffic_step NewTraffic s → it_callers s !! t = Some (Failed key l) → rtc traffic_step s s' →
  ∀ u r b, it_callers s' !! u ≠ Some (Answered key r b).
Proof.
  intros Hr Ht Hs u r b Hu.
  assert (traffic_inv s') as Hi by (apply traffic_reach_inv; by etransitivity).
  assert (it_callers s' !! t = Some (Failed key l)) as Ht'.
  { clear -Ht Hs. induction Hs as [|s s1 s2 H _ IH]; [done|]. apply IH. by eapply failed_stays. }
  destruct (ti_caller _ Hi _ _ Ht') as ((e & [He Hh] & Hd) & _).
  destruct (ti_caller _ Hi _ _ Hu) as ((l' & e' & [He' Hh'] & Hd' & _) & _). congruence.
Qed.

(** ** Two requests with one key, and two with another whose handler panics *)

Definition demo_response : Response := (202, {[ "Content-Type" := ["application/json"] ]}, "{}").

Definition demo_waiting : Traffic := arrive 3 "x" (arrive 2 "x" (arrive 1 "k" (arrive 0 "k" NewTraffic))).

Definition demo_executed : Traffic := put 0 (Completing "k" 0 demo_response) demo_waiting.

Definition demo_completed : Traffic :=
  put 0 (Answered "k" demo_response false)
    (demo_executed <| it_store ::= λ st, default st (complete_entry 0 demo_response st) |>).

Definition demo_traffic : Traffic := put 2 (Failed "x" 1) (put 1 (Answered "k" demo_response true) demo_completed).

Lemma demo_waiting_reach : rtc traffic_step NewTraffic demo_waiting.
Proof.
  eapply rtc_l; [by apply (step_arrive 0 "k")|]. eapply rtc_l; [by apply (step_arrive 1 "k")|].
  eapply rtc_l; [by apply (step_arrive 2 "x")|]. by apply rtc_once, (step_arrive 3 "x").
Qed.

Lemma demo_traffic_reach : rtc traffic_step NewTraffic demo_traffic.
Proof.
  etransitivity; [apply demo_waiting_reach|].
  eapply rtc_l; [by apply step_inside, (step_execute 0 "k" 0 demo_response 0)|].
  eapply rtc_l; [by apply step_inside, (step_complete 0 "k" 0 demo_response)|].
  eapply rtc_l; [by apply step_inside, (step_wake 1 "k" 0 demo_response)|].
  by apply rtc_once, step_inside, (step_panic 2 "x" 1).
Qed.

Lemma idempotency_key_once_witness :
  it_callers demo_traffic !! 1%nat = Some (Answered "k" demo_response true) ∧
  ∀ r, it_callers demo_traffic !! 0%nat = Some (Answered "k" r false) → demo_response = r.
Proof.
  split; [reflexivity|]. intros r.
  exact (proj1 (proj2 (proj2 (idempotency_key_once demo_traffic "k" demo_traffic_reach))) 1%nat 0%nat
    demo_response r true false eq_refl).
Defined.

Lemma idempotency_drains_witness :
  traffic_work demo_waiting = 6%nat ∧ ∀ n s', nsteps caller_step n demo_waiting s' → (n ≤ traffic_work demo_waiting)%nat.
Proof. split; [reflexivity|exact (proj1 (idempotency_drains demo_waiting demo_waiting_reach))]. Defined.

Lemma panic_blocks_key_witness :
  it_callers demo_traffic !! 3%nat = Some (Waiting "x" 1) ∧
  ∀ s' r b, rtc traffic_step demo_traffic s' → it_callers s' !! 3%nat ≠ Some (Answered "x" r b).
Proof.
  split; [reflexivity|]. intros s' r b Hs.
  exact (panic_blocks_key demo_traffic s' 2 "x" 1 demo_traffic_reach eq_refl Hs 3%nat r b).
Defined.
