(* ===== verification/RateLimit.v ===== *)
(** * Rate limits per tenant: internal/loadbalancer/ratelimit.go

    The token buckets are golang.org/x/time/rate, the class [RateLib]: a new
    limiter, and the answer of [Allow] at a time with the limiter's next state. *)

From stdpp Require Import base option gmap strings list pretty.
From Stdlib Require Import ZArith Lia Ascii.
From S2P Require Import Prelude GoLib GoFloat Http.

Class RateLib (L : Type) := {
  rate_NewLimiter : float64 → Z → L;
  rate_Allow : Time → L → bool * L
}.

Section extractor.
Context {uni : Unicode} {C : Type}.

Definition DefaultTenantExtractor (r : Request C) : string :=
  let h := req_header r "X-Project-ID" in
  if decide (h = "") then
    if decide (r_Host r = "") then
      let ip := req_header r "X-Forwarded-For" in
      if decide (ip = "") then "remote:" +:+ split_head (r_RemoteAddr r) ":"
      else "ip:" +:+ split_head ip ","
    else "host:" +:+ ToLower (split_head (r_Host r) ":")
  else "tenant:" +:+ h.

End extractor.

(** The limiters are shared by pointer and each has one key. *)
Record TenantRateLimiter (C L : Type) := mkRateLimiter {
  trl_limiters : gmap string L;
  trl_r : float64;
  trl_b : Z;
  trl_tenantFn : Request C → string
}.
Arguments mkRateLimiter {C L} _ _ _ _.
Arguments trl_limiters {C L} _.
Arguments trl_r {C L} _.
Arguments trl_b {C L} _.
Arguments trl_tenantFn {C L} _ _.

#[export] Instance TenantRateLimiter_eta C L : Settable (TenantRateLimiter C L) := λ t,
  mkRateLimiter (trl_limiters t) (trl_r t) (trl_b t) (trl_tenantFn t).

Section limiter.
Context {uni : Unicode} {ft : FloatText} {C L : Type} `{!RateLib L}.

(** [None] is a nil extractor. *)
Definition NewTenantRateLimiter (reqPerSec : float64) (burst : Z) (tenantExtractor : option (Request C → string)) :
    TenantRateLimiter C L :=
  mkRateLimiter ∅ reqPerSec burst (default DefaultTenantExtractor tenantExtractor).

(** The limiter of a tenant, made when there is none. *)
Definition getLimiter (tenantKey : string) (t : TenantRateLimiter C L) : L * TenantRateLimiter C L :=
  match trl_limiters t !! tenantKey with
  | Some lim => (lim, t)
  | None =>
    let lim := rate_NewLimiter (trl_r t) (trl_b t) in
    (lim, t <| trl_limiters ::= <[tenantKey := lim]> |>)
  end.

(** The decision of the middleware on a request at a time. *)
Definition allow_request (now : Time) (r : Request C) (t : TenantRateLimiter C L) : bool * TenantRateLimiter C L :=
  let tenantKey := trl_tenantFn t r in
  let '(lim, t) := getLimiter tenantKey t in
  let '(ok, lim) := rate_Allow now lim in
  (ok, t <| trl_limiters ::= <[tenantKey := lim]> |>).

Definition too_many_body : string :=
  "{" +:+ quote "error" +:+ ":" +:+ quote "too many requests" +:+ ","
  +:+ quote "message" +:+ ":" +:+ quote "rate limit exceeded for tenant" +:+ "}".

Definition too_many (r : float64) (w : Writer) : Writer :=
  let w := SetHeader "X-RateLimit-Limit" (ft_g r) (SetHeader "Retry-After" "1" w) in
  let w := SetHeader "Content-Type" "application/json" (SetHeader "X-RateLimit-Remaining" "0" w) in
  Write too_many_body (WriteHeader 429 w).

(** [clock] reads the time, and [get] and [set] are the limiter's place in the
    state of the server. *)
Definition RateMiddleware {S} (clock : ST S Time) (get : S → TenantRateLimiter C L)
    (set : TenantRateLimiter C L → S → S) (next : Handler C S) : Handler C S := λ r w,
  let! now := clock in
  let! ok := λ s, let '(ok, t) := allow_request now r (get s) in (ok, set t s) in
  let! rate := gets (λ s, trl_r (get s)) in
  if ok : bool
  then next r (SetHeader "X-RateLimit-Remaining" "1" (SetHeader "X-RateLimit-Limit" (ft_g rate) w))
  else ret (Returned (too_many rate w)).

(** ** A tenant's requests alone

    The decisions on a sequence of requests, and those of one limiter. *)

Fixpoint decisions (reqs : list (Time * Request C)) (t : TenantRateLimiter C L) : list (string * bool) :=
  match reqs with
  | [] => []
  | (now, r) :: reqs' =>
    let '(ok, t') := allow_request now r t in (trl_tenantFn t r, ok) :: decisions reqs' t'
  end.

Fixpoint limiter_decisions (times : list Time) (lim : L) : list bool :=
  match times with
  | [] => []
  | now :: times' => let '(ok, lim') := rate_Allow now lim in ok :: limiter_decisions times' lim'
  end.

Definition limiter_of (key : string) (t : TenantRateLimiter C L) : L :=
  default (rate_NewLimiter (trl_r t) (trl_b t)) (trl_limiters t !! key).

(** What a decision changes: the limiter of the request's tenant. *)
Lemma allow_request_spec now r t :
  (allow_request now r t).1 = (rate_Allow now (limiter_of (trl_tenantFn t r) t)).1 ∧
  trl_tenantFn (allow_request now r t).2 = trl_tenantFn t ∧
  ∀ key, limiter_of key (allow_request now r t).2 =
    if decide (key = trl_tenantFn t r) then (rate_Allow now (limiter_of (trl_tenantFn t r) t)).2
    else limiter_of key t.
Proof.
  unfold allow_request, getLimiter, limiter_of.
  destruct (trl_limiters t !! trl_tenantFn t r) as [lim|] eqn:E; cbn;
    [destruct (rate_Allow now lim) as [ok lim']|destruct (rate_Allow now _) as [ok lim']];
    cbn; (split_and!; [done|done|]); intros key; case_decide as Hk;
    rewrite ?Hk, ?lookup_insert_eq, ?lookup_insert_ne by congruence; done.
Qed.

(** C24: The decisions of the rate limiter on the requests of one tenant, in any
    traffic, are those of one token bucket that sees only the requests of that
    tenant at their times: tenants do not influence each other. *)
Theorem tenants_are_isolated (reqs : list (Time * Request C)) (t : TenantRateLimiter C L) (key : string) :
  (base.filter (λ d : string * bool, d.1 = key) (decisions reqs t)).*2
  = limiter_decisions (base.filter (λ x : Time * Request C, trl_tenantFn t x.2 = key) reqs).*1 (limiter_of key t).
Proof.
  revert t. induction reqs as [|[now r] reqs IH]; intros t; [done|]. cbn [decisions].
  destruct (allow_request_spec now r t) as (Hok & Hfn & Hlim). specialize (Hlim key).
  destruct (allow_request now r t) as [ok t'] eqn:E. cbn [fst snd] in Hok, Hfn, Hlim. subst ok.
  rewrite !filter_cons. cbn [fst snd].
  specialize (IH t'). rewrite Hlim, Hfn in IH.
  destruct (decide (key = trl_tenantFn t r)) as [->|Hk].
  - rewrite !decide_True by done. cbn. rewrite IH. by destruct (rate_Allow now _).
  - rewrite !decide_False by congruence. exact IH.
Qed.

(** ** The middleware

    The next handler runs exactly for the requests that are allowed. *)

Lemma rate_middleware_spec {S} (clock : ST S Time) get set (next : Handler C S) r w s :
  let '(now, s1) := clock s in
  let '(ok, t) := allow_request now r (get s1) in
  RateMiddleware clock get set next r w s =
    if ok then next r (SetHeader "X-RateLimit-Remaining" "1"
                         (SetHeader "X-RateLimit-Limit" (ft_g (trl_r (get (set t s1)))) w)) (set t s1)
    else (Returned (too_many (trl_r (get (set t s1))) w), set t s1).
Proof.
  unfold RateMiddleware, bind, gets. destruct (clock s) as [now s1]. cbn [fst snd].
  destruct (allow_request now r (get s1)) as [[] t]; done.
Qed.

End limiter.

(** ** Tenants that share a limiter, and one that has many

    Clients with IPv6 addresses all have the bucket of the opening bracket, and
    a client that names a new project in the header has a new bucket. *)

Definition plain_request (h : Header) (host remote : string) : Request unit :=
  mkRequest "GET" "/" "/" "" "/" h "" 0 host remote false tt.

Example ipv6_clients_share :
  DefaultTenantExtractor (uni := unicode_none) (plain_request ∅ "" "[2001:db8::1]:4000")
  = DefaultTenantExtractor (uni := unicode_none) (plain_request ∅ "" "[2001:db8::2]:4000").
Proof. vm_compute. reflexivity. Qed.

(** A limiter that counts its burst down and is never filled again. *)
Definition counting_limiter : RateLib Z := {|
  rate_NewLimiter := λ _ b, b;
  rate_Allow := λ _ n, if 0 <? n then (true, n - 1) else (false, n)
|}.

Definition with_project (p : string) : Request unit := plain_request (hdr_Set "X-Project-ID" p ∅) "api" "10.0.0.1:1".

Example header_names_tenant :
  snd <$> decisions (RateLib0 := counting_limiter) [(0, with_project "a"); (0, with_project "a"); (0, with_project "b")]
    (NewTenantRateLimiter (uni := unicode_none) fone 1 None) = [true; false; true].
Proof. vm_compute. reflexivity. Qed.
