(* ===== verification/Waf.v ===== *)
(** * Request filtering: internal/loadbalancer/waf.go

    The rules are regular expressions, written here as the package regexp
    parses them. Texts are bytes: a dot, a class and a literal of the rules
    match the same texts by bytes as by characters, except that a letter [s]
    without regard to case, and the class [\w] there, match two characters
    outside of ASCII, which are written out. *)

From stdpp Require Import base option gmap strings list pretty.
From Stdlib Require Import ZArith Lia Ascii.
From S2P Require Import Prelude GoLib Http Auth.

(** ** Regular expressions

    A position in a text: the byte before it and the bytes after it. *)

Inductive regex :=
| REmpty
| RChar (p : ascii → bool)
| RBound
| RSeq (a b : regex)
| RAlt (a b : regex)
| RStar (a : regex).

Abbreviation Position := (option ascii * list ascii)%type (only parsing).

Definition word_char (c : ascii) : bool :=
  let n := N_of_ascii c in
  is_digit c || ((65 <=? n) && (n <=? 90))%N || ((97 <=? n) && (n <=? 122))%N || (n =? 95)%N.

Definition is_word (c : option ascii) : bool := match c with Some c => word_char c | None => false end.

Definition at_bound (st : Position) : bool := negb (Bool.eqb (is_word st.1) (is_word (head st.2))).

(** All positions at which a match from a position can end. Only rounds of a
    star that read something are repeated. *)
Fixpoint ends (r : regex) (st : Position) : list Position :=
  match r with
  | REmpty => [st]
  | RChar p => match st.2 with c :: s => if p c then [(Some c, s)] else [] | [] => [] end
  | RBound => if at_bound st then [st] else []
  | RSeq a b => ends a st ≫= ends b
  | RAlt a b => ends a st ++ ends b st
  | RStar a =>
    (fix rounds (n : nat) (st : Position) : list Position :=
       st :: match n with
             | O => []
             | S n' => ends a st ≫= λ st', if (length st'.2 <? length st.2)%nat then rounds n' st' else []
             end) (length st.2) st
  end.

(** The positions of a text. *)
Fixpoint positions (prev : option ascii) (s : list ascii) : list Position :=
  (prev, s) :: match s with [] => [] | c :: s' => positions (Some c) s' end.

(** [Pattern.MatchString(s)]: a match anywhere. *)
Definition MatchString (r : regex) (s : string) : bool :=
  existsb (λ st, match ends r st with [] => false | _ => true end) (positions None (String.list_ascii_of_string s)).

(** ** The rules *)

Fixpoint lit (s : string) : regex :=
  match s with
  | EmptyString => REmpty
  | String c EmptyString => RChar (Ascii.eqb c)
  | String c s' => RSeq (RChar (Ascii.eqb c)) (lit s')
  end.

Definition byte (n : N) : regex := RChar (λ c, (N_of_ascii c =? n)%N).

(** The characters U+017F and U+212A, which fold to [s] and [k]. *)
Definition long_s : regex := RSeq (byte 197) (byte 191).
Definition kelvin : regex := RSeq (byte 226) (RSeq (byte 132) (byte 170)).

(** A lower-case letter under the flag [(?i)]; the rules have no [k]. *)
Definition fold_char (c : ascii) : regex :=
  let r := RChar (λ d, Ascii.eqb c (lower_char d)) in
  if Ascii.eqb c "s" then RAlt r long_s else r.

Fixpoint fold_lit (s : string) : regex :=
  match s with
  | EmptyString => REmpty
  | String c EmptyString => fold_char c
  | String c s' => RSeq (fold_char c) (fold_lit s')
  end.

Definition RPlus (r : regex) : regex := RSeq r (RStar r).

Fixpoint RAlts (l : list regex) : regex :=
  match l with [] => RChar (λ _, false) | [r] => r | r :: l' => RAlt r (RAlts l') end.

Definition perl_space : regex :=
  RChar (λ c, let n := N_of_ascii c in ((n =? 9) || (n =? 10) || (n =? 12) || (n =? 13) || (n =? 32))%N).
Definition any : regex := RChar (λ c, negb (N_of_ascii c =? 10)%N).

(** The class of quotes, digits and word characters, without regard to case. *)
Definition value_char : regex :=
  RAlts [RChar (λ c, word_char c || (N_of_ascii c =? 39)%N || (N_of_ascii c =? 34)%N); long_s; kelvin].

Definition sql_injection : regex :=
  RSeq (RAlt (lit "'") RBound)
    (RAlts [RSeq (fold_lit "union") (RSeq (RPlus perl_space) (fold_lit "select"));
            RSeq (fold_lit "select") (RSeq (RPlus perl_space) (RSeq (RStar any) (RSeq (RPlus perl_space) (fold_lit "from"))));
            RSeq (fold_lit "insert") (RSeq (RPlus perl_space) (fold_lit "into"));
            RSeq (fold_lit "drop") (RSeq (RPlus perl_space) (fold_lit "table"));
            lit "--";
            RSeq RBound (RSeq (fold_lit "or") (RSeq RBound (RSeq (RPlus perl_space)
              (RSeq (RPlus value_char) (RSeq (lit "=") (RPlus value_char))))))]).

Definition path_traversal : regex :=
  RAlts [lit "../"; lit "..\"; lit ".%2e/"; lit ".%2e\"; lit "%2e%2e"].

Definition null_byte_injection : regex := RAlts [lit "%00"; byte 0].

Definition script_tag_xss : regex :=
  RAlts [RSeq (fold_lit "<script") (RSeq (RStar any) (lit ">")); fold_lit "javascript:"; fold_lit "onload="; fold_lit "<iframe"].

Record WAFRule := mkRule { wr_Name : string; wr_Pattern : regex }.

Definition wafRules : list WAFRule :=
  [mkRule "sql_injection" sql_injection; mkRule "path_traversal" path_traversal;
   mkRule "null_byte_injection" null_byte_injection; mkRule "script_tag_xss" script_tag_xss].

(** The first rule that matches. *)
Definition blocked_by (text : string) : option WAFRule :=
  head (base.filter (λ r, MatchString (wr_Pattern r) text = true) wafRules).

(** ** The middleware *)

Definition waf_body (what name : string) : string :=
  "{" +:+ quote "error" +:+ ":" +:+ quote what +:+ "," +:+ quote "rule" +:+ ":" +:+ quote name +:+ "}".

Definition waf_block (what : string) (rule : WAFRule) (w : Writer) : Writer :=
  Write (waf_body what (wr_Name rule)) (WriteHeader 400 (SetHeader "Content-Type" "application/json" w)).

Definition decodedURI {C} (r : Request C) : string := default (r_RequestURI r) (Unescape true (r_RequestURI r)).

Definition inspects_body {C} (r : Request C) : bool := (0 <? r_ContentLength r) && (r_ContentLength r <? 65536).

Definition uri_too_long : string :=
  "{" +:+ quote "error" +:+ ":" +:+ quote "request blocked by WAF: uri too long" +:+ "}".

Definition WAFMiddleware {C S} (next : Handler C S) : Handler C S := λ r w,
  if 4096 <? Z.of_nat (String.length (r_RequestURI r)) then ret (Returned (http_Error uri_too_long 400 w))
  else match blocked_by (decodedURI r) with
  | Some rule => ret (Returned (waf_block "request blocked by WAF" rule w))
  | None =>
    match (if inspects_body r then blocked_by (r_Body r) else None) with
    | Some rule => ret (Returned (waf_block "request blocked by WAF in payload" rule w))
    | None => next r w
    end
  end.

(** ** What a regular expression means

    [Matches r st st']: the text between the two positions is in the language
    of [r], with the bytes around it where a word boundary looks at them. *)

Inductive Matches : regex → Position → Position → Prop :=
| m_empty st : Matches REmpty st st
| m_char p prev c s : p c = true → Matches (RChar p) (prev, c :: s) (Some c, s)
| m_bound st : at_bound st = true → Matches RBound st st
| m_seq a b st st1 st2 : Matches a st st1 → Matches b st1 st2 → Matches (RSeq a b) st st2
| m_left a b st st' : Matches a st st' → Matches (RAlt a b) st st'
| m_right a b st st' : Matches b st st' → Matches (RAlt a b) st st'
| m_stop a st : Matches (RStar a) st st
| m_round a st st1 st2 : Matches a st st1 → Matches (RStar a) st1 st2 → Matches (RStar a) st st2.

(** A match reads a part of the text: it ends where it began, or later. *)
Lemma matches_suffix r st st' :
  Matches r st st' → st' = st ∨ (length st'.2 < length st.2)%nat.
Proof. induction 1; cbn; intuition (subst; auto with lia). Qed.

Lemma ends_star_sound a n st st' :
  (∀ st st', st' ∈ ends a st → Matches a st st') →
  st' ∈ (fix rounds (n : nat) (st : Position) : list Position :=
       st :: match n with
             | O => []
             | S n' => ends a st ≫= λ st', if (length st'.2 <? length st.2)%nat then rounds n' st' else []
             end) n st →
  Matches (RStar a) st st'.
Proof.
  intros Ha. revert st. induction n as [|n IH]; intros st; rewrite elem_of_cons.
  - intros [->|H]; [constructor|set_solver].
  - intros [->|(st1 & H & H1)%list_elem_of_bind]; [constructor|].
    case_match; [|set_solver]. eapply m_round; eauto.
Qed.

Lemma ends_sound r st st' : st' ∈ ends r st → Matches r st st'.
Proof.
  revert st st'. induction r as [|p| |a IHa b IHb|a IHa b IHb|a IHa]; intros st st'; cbn [ends].
  - rewrite list_elem_of_singleton. intros ->. constructor.
  - destruct st as [prev [|c s]]; cbn; [set_solver|]. destruct (p c) eqn:E; [|set_solver].
    rewrite list_elem_of_singleton. intros ->. by constructor.
  - case_match; [|set_solver]. rewrite list_elem_of_singleton. intros ->. by constructor.
  - intros (st1 & H & H1)%list_elem_of_bind. econstructor; eauto.
  - rewrite elem_of_app. intros [H|H]; [by apply m_left, IHa|by apply m_right, IHb].
  - by apply ends_star_sound.
Qed.

Lemma ends_star_complete a st st' :
  (∀ st st', Matches a st st' → st' ∈ ends a st) → Matches (RStar a) st st' →
  ∀ n, (length st.2 ≤ n)%nat →
  st' ∈ (fix rounds (n : nat) (st : Position) : list Position :=
       st :: match n with
             | O => []
             | S n' => ends a st ≫= λ st', if (length st'.2 <? length st.2)%nat then rounds n' st' else []
             end) n st.
Proof.
  intros Ha Hm. remember (RStar a) as r eqn:Er. induction Hm; try discriminate Er; injection Er as ->.
  - intros n _. destruct n; apply elem_of_cons; by left.
  - intros n Hn. destruct (matches_suffix _ _ _ Hm1) as [->|Hlt]; [by apply IHHm2|].
    destruct n as [|n]; [lia|]. apply elem_of_cons. right. apply list_elem_of_bind. exists st1.
    split; [|by apply Ha]. rewrite (proj2 (Nat.ltb_lt _ _) Hlt). apply IHHm2; [done|lia].
Qed.

Lemma ends_complete r st st' : Matches r st st' → st' ∈ ends r st.
Proof.
  revert st st'. induction r as [|p| |a IHa b IHb|a IHa b IHb|a IHa]; intros st st' H; cbn [ends].
  - inversion H. by apply list_elem_of_singleton.
  - inversion H as [|? ? ? ? Hp| | | | | |]; subst. cbn. rewrite Hp. by apply list_elem_of_singleton.
  - inversion H as [| |? Hb| | | | |]; subst. rewrite Hb. by apply list_elem_of_singleton.
  - inversion H; subst. apply list_elem_of_bind. eauto.
  - apply elem_of_app. inversion H; subst; auto.
  - by apply ends_star_complete.
Qed.

(** A match anywhere in a text. *)
Definition matches_in (r : regex) (s : string) : Prop :=
  ∃ st st', st ∈ positions None (String.list_ascii_of_string s) ∧ Matches r st st'.

Lemma MatchString_spec r s : MatchString r s = true ↔ matches_in r s.
Proof.
  unfold MatchString, matches_in. rewrite existsb_exists. split.
  - intros (st & Hst%list_elem_of_In & H). destruct (ends r st) as [|st' l] eqn:E; [done|].
    exists st, st'. split; [done|]. apply ends_sound. rewrite E. by left.
  - intros (st & st' & Hst & H%ends_complete). exists st. split; [by apply list_elem_of_In|].
    destruct (ends r st); [set_solver|done].
Qed.

Lemma blocked_by_None text : blocked_by text = None ↔ ∀ rule, rule ∈ wafRules → ¬ matches_in (wr_Pattern rule) text.
Proof.
  unfold blocked_by. rewrite head_None. split.
  - intros E rule Hr Hm%MatchString_spec.
    assert (rule ∈ base.filter (λ r, MatchString (wr_Pattern r) text = true) wafRules) as Hin.
    { by apply list_elem_of_filter. }
    rewrite E in Hin. by apply not_elem_of_nil in Hin.
  - intros H. apply elem_of_nil_inv. intros rule [Hm Hr]%list_elem_of_filter.
    by apply (H rule Hr), MatchString_spec.
Qed.

(** ** What passes *)

(** The request has a short URI and no rule matches in what is inspected. *)
Definition waf_clean {C} (r : Request C) : Prop :=
  (Z.of_nat (String.length (r_RequestURI r)) ≤ 4096) ∧
  ∀ rule, rule ∈ wafRules → ¬ matches_in (wr_Pattern rule) (decodedURI r)
    ∧ (inspects_body r = true → ¬ matches_in (wr_Pattern rule) (r_Body r)).

Lemma waf_block_status what rule w : w_sent w = None → w_status (waf_block what rule w) = 400.
Proof. intros H. unfold waf_block. by rewrite status_Write, status_WriteHeader. Qed.

(** C23: The middleware passes a request on unchanged exactly when its URI is
    not too long and no rule, in the sense of the regular languages of the
    rules, matches anywhere in the decoded URI or in a body that is inspected;
    every other request is answered with 400 and does not reach the handler. *)
Theorem waf_outcome {C S} (next : Handler C S) (r : Request C) (w : Writer) (s : S) :
  waf_clean r ∧ WAFMiddleware next r w s = next r w s ∨
  ¬ waf_clean r ∧ ∃ w', WAFMiddleware next r w s = (Returned w', s) ∧ (w_sent w = None → w_status w' = 400).
Proof.
  unfold WAFMiddleware, waf_clean. destruct (Z.ltb_spec 4096 (Z.of_nat (String.length (r_RequestURI r)))) as [Hl|Hl].
  { right. split; [lia|]. eexists. split; [done|]. intros H. unfold http_Error.
    by rewrite status_Write, status_WriteHeader. }
  destruct (blocked_by (decodedURI r)) as [rule|] eqn:E.
  { right. split; [|eexists; split; [done|apply waf_block_status]]. intros [_ H].
    assert (blocked_by (decodedURI r) = None) as E'; [|congruence].
    apply blocked_by_None. intros rule' Hr. by apply H. }
  pose proof (proj1 (blocked_by_None _) E) as Huri.
  destruct (if inspects_body r then _ else _) as [rule|] eqn:E'.
  { right. split; [|eexists; split; [done|apply waf_block_status]]. intros [_ H].
    destruct (inspects_body r); [|done]. assert (blocked_by (r_Body r) = None) as E''; [|congruence].
    apply blocked_by_None. intros rule' Hr. by apply H. }
  left. split; [|done]. split; [done|]. intros rule Hr. split; [by apply Huri|]. intros Hb. rewrite Hb in E'.
  by apply (proj1 (blocked_by_None _) E').
Qed.

(** ** On concrete texts *)

Example rules_on_texts :
  wr_Name <$> blocked_by "/v1/projects?q=1 UNION  Select name" = Some "sql_injection" ∧
  wr_Name <$> blocked_by "/v1/../etc" = Some "path_traversal" ∧
  wr_Name <$> blocked_by "<ScRiPt src=x>" = Some "script_tag_xss" ∧
  blocked_by "/v1/projects/union/deployments" = None ∧
  wr_Name <$> blocked_by "x' or 1=1" = Some "sql_injection".
Proof. vm_compute. done. Qed.

(** Two dashes after a word are taken for an SQL comment, so an image such as
    this one cannot be deployed. *)
Example dashes_are_blocked : wr_Name <$> blocked_by "registry/web:feature--login" = Some "sql_injection".
Proof. vm_compute. done. Qed.

(** A body that is sent in chunks has no length and is not inspected. *)
Example chunked_not_inspected :
  let r := mkRequest "POST" "/" "/" "" "/" ∅ "drop table users" (-1) "api" "" false tt in
  w_status <$> reply_of (WAFMiddleware (λ r w, ret (Returned (WriteHeader 200 w))) r NewWriter tt).1 = Some 200 ∧
  w_status <$> reply_of (WAFMiddleware (λ r w, ret (Returned (WriteHeader 200 w)))
    (r <| r_ContentLength := 16 |>) NewWriter tt).1 = Some 400.
Proof. vm_compute. done. Qed.
