(* ===== verification/Redact.v ===== *)
(** * Redaction: internal/secrets/redact.go

    The registry of sensitive strings and the replacement of their occurrences
    in what is logged. A byte slice is a string; the lock is not modelled, each
    method holds it. *)

From stdpp Require Import base option gmap strings list pretty.
From Stdlib Require Import ZArith Lia Ascii.
From S2P Require Import Prelude GoLib.

Definition RedactedPlaceholder : string := "[REDACTED]".

Abbreviation Redactor := (gmap string unit) (only parsing).

Definition NewRedactor : Redactor := ∅.

(** [strings.ReplaceAll(s, old, new)] for an [old] that is not empty, from left
    to right; [skip] bytes of an occurrence are still to be dropped. *)
Fixpoint replace_from (skip : nat) (old new s : string) : string :=
  match s with
  | EmptyString => EmptyString
  | String c s' =>
    match skip with
    | S k => replace_from k old new s'
    | O => if String.prefix old s then new +:+ replace_from (String.length old - 1) old new s'
           else String c (replace_from 0 old new s')
    end
  end.

Definition ReplaceAll (s old new : string) : string := replace_from 0 old new s.

Section redactor.
Context {uni : Unicode}.

Definition Redact_Register (secret : string) (r : Redactor) : Redactor :=
  let s := TrimSpace secret in
  if (String.length s <? 3)%nat then r else <[s := tt]> r.

(** The loop over the secrets. *)
Definition redact_one (res secret : string) : string :=
  if Contains res secret then ReplaceAll res secret RedactedPlaceholder else res.

Definition Redact (o : Order) (r : Redactor) (s : string) : string :=
  fold_left redact_one (map_pairs o r).*1 s.

(** The same loop on bytes. *)
Definition RedactBytes (o : Order) (r : Redactor) (b : string) : string :=
  fold_left redact_one (map_pairs o r).*1 b.

(** [RedactingWriter.Write]: the underlying writer answers with an error or
    none; [None] is a nil redactor. The length that is returned is that of the
    argument. *)
Definition RedactingWrite {S} (out : string → ST S (Z * option error)) (redactor : option (Order * Redactor)) (p : string) :
    ST S (Z * option error) :=
  match redactor with
  | None => out p
  | Some (o, r) =>
    let! res := out (RedactBytes o r p) in
    ret (Z.of_nat (String.length p), res.2)
  end.

End redactor.

(** ** Occurrences *)

Lemma str_app_eq_app (s1 t1 s2 t2 : string) :
  s1 +:+ t1 = s2 +:+ t2 → ∃ k, s1 = s2 +:+ k ∧ t2 = k +:+ t1 ∨ s2 = s1 +:+ k ∧ t1 = k +:+ t2.
Proof.
  revert s2. induction s1 as [|c s1 IH]; intros s2 E.
  - exists s2. right. by split.
  - destruct s2 as [|d s2].
    + exists (String c s1). left. by split.
    + change (String c (s1 +:+ t1) = String d (s2 +:+ t2)) in E. injection E as -> E.
      destruct (IH s2 E) as [k [[-> ->]|[-> ->]]]; exists k; [left|right]; by split.
Qed.

Lemma str_app_inj (s t1 t2 : string) : s +:+ t1 = s +:+ t2 → t1 = t2.
Proof.
  induction s as [|c s IH]; [done|]. intros E.
  change (String c (s +:+ t1) = String c (s +:+ t2)) in E. injection E as E. auto.
Qed.

(** An occurrence of a text without the byte [c] does not go over it. *)
Lemma occurrence_split c (b g t x y : string) :
  str_free c b = true → g +:+ String c t = x +:+ b +:+ y →
  (∃ y', g = x +:+ b +:+ y') ∨ (∃ x', t = x' +:+ b +:+ y).
Proof.
  intros Hb E. destruct (str_app_eq_app _ _ _ _ E) as [k [[-> E1]|[-> E1]]].
  - destruct (str_app_eq_app _ _ _ _ E1) as [j [[-> E2]|[-> E2]]].
    + destruct j as [|d j].
      * left. exists "". by rewrite !str_app_nil in *.
      * exfalso. change (String c t = String d (j +:+ y)) in E2. injection E2 as <- _.
        rewrite str_free_app in Hb. cbn in Hb. by rewrite Ascii.eqb_refl, andb_false_r in Hb.
    + left. by exists j.
  - destruct k as [|d k].
    + change (String c t = b +:+ y) in E1. destruct b as [|d b].
      * left. exists "". by rewrite !str_app_nil in *.
      * exfalso. change (String c t = String d (b +:+ y)) in E1. injection E1 as <- _.
        cbn in Hb. by rewrite Ascii.eqb_refl in Hb.
    + right. change (String c t = String d (k +:+ b +:+ y)) in E1. injection E1 as -> ->. by exists k.
Qed.

(** A text of unreplaced bytes, the placeholder, and the rest. *)
Lemma placeholder_split (b g t : string) :
  b ≠ "" → str_free "[" b = true → str_free "]" b = true → Contains "REDACTED" b = false →
  Contains g b = false → Contains t b = false → Contains (g +:+ RedactedPlaceholder +:+ t) b = false.
Proof.
  intros Hne Ho Hc Hr Hg Ht. apply not_true_iff_false. intros (x & y & E)%Contains_app.
  change (RedactedPlaceholder +:+ t) with (String "[" ("REDACTED" +:+ String "]" t)) in E.
  destruct (occurrence_split _ _ _ _ _ _ Ho E) as [[y' ->]|[x' E']].
  - apply not_true_iff_false in Hg. apply Hg, Contains_app. eauto.
  - destruct (occurrence_split _ _ _ _ _ _ Hc E') as [[y' E'']|[x'' ->]].
    + apply not_true_iff_false in Hr. apply Hr, Contains_app. eauto.
    + apply not_true_iff_false in Ht. apply Ht, Contains_app. eauto.
Qed.

(** ** ReplaceAll *)

Lemma replace_from_skip (k : nat) (old new s : string) :
  replace_from k old new s = ReplaceAll (drop_string k s) old new.
Proof.
  revert k. induction s as [|c s IH]; intros k; [by destruct k|]. destruct k as [|k]; [done|]. apply IH.
Qed.

(** At an occurrence, and elsewhere. *)
Lemma ReplaceAll_match (old new t : string) :
  old ≠ "" → ReplaceAll (old +:+ t) old new = new +:+ ReplaceAll t old new.
Proof.
  intros Hne. destruct old as [|c old]; [done|].
  change (String c old +:+ t) with (String c (old +:+ t)). unfold ReplaceAll at 1. cbn [replace_from].
  change (String c (old +:+ t)) with (String c old +:+ t).
  rewrite (proj2 (prefix_app _ _)) by eauto. rewrite replace_from_skip. cbn [String.length].
  rewrite Nat.sub_succ, Nat.sub_0_r. by rewrite drop_string_app.
Qed.

Lemma ReplaceAll_step (old new s : string) c :
  String.prefix old (String c s) = false → ReplaceAll (String c s) old new = String c (ReplaceAll s old new).
Proof. intros H. unfold ReplaceAll at 1. cbn [replace_from]. by rewrite H. Qed.

(** A secret that the placeholder cannot complete. *)
Definition redactable (b : string) : Prop :=
  b ≠ "" ∧ str_free "[" b = true ∧ str_free "]" b = true ∧ Contains "REDACTED" b = false.

Lemma Contains_l (x y b : string) : Contains (x +:+ y) b = false → Contains x b = false ∧ Contains y b = false.
Proof.
  intros H%not_true_iff_false. split; apply not_true_iff_false; intros (u & v & ->)%Contains_app;
    apply H, Contains_app.
  - exists u, (v +:+ y). by rewrite !str_app_assoc.
  - exists (x +:+ u), v. by rewrite !str_app_assoc.
Qed.

Lemma app_cons_assoc (g s : string) c : g +:+ String c s = (g +:+ String c EmptyString) +:+ s.
Proof. by rewrite str_app_assoc. Qed.

Lemma ReplaceAll_keeps_out (a b g s : string) :
  a ≠ "" → redactable b → Contains (g +:+ s) b = false →
  Contains (g +:+ ReplaceAll s a RedactedPlaceholder) b = false.
Proof.
  intros Ha (Hne & Ho & Hc & Hr). revert g.
  induction s as [s IH] using (induction_ltof1 _ String.length). intros g Hg. destruct s as [|c s]; [done|]. destruct (String.prefix a (String c s)) eqn:E.
  - apply prefix_app in E as [t E]. rewrite E in *. rewrite ReplaceAll_match by done.
    destruct (Contains_l _ _ _ Hg) as [Hg' Ht]. destruct (Contains_l _ _ _ Ht) as [_ Ht'].
    apply placeholder_split; try done. apply (IH t) with (g := ""); [|done].
    unfold ltof. rewrite str_app_length. destruct a; [done|]. cbn. lia.
  - rewrite ReplaceAll_step by done. rewrite app_cons_assoc. apply IH; [unfold ltof; cbn; lia|].
    by rewrite <- app_cons_assoc.
Qed.

(** No occurrence of [a] in [g s] begins in [g]. *)
Definition starts_after (a g s : string) : Prop :=
  ∀ x y, g +:+ s = x +:+ a +:+ y → (String.length g ≤ String.length x)%nat.

Lemma starts_after_out (a g s : string) : a ≠ "" → starts_after a g s → Contains g a = false.
Proof.
  intros Ha H. apply not_true_iff_false. intros (x & y & ->)%Contains_app.
  specialize (H x (y +:+ s) ltac:(by rewrite !str_app_assoc)). rewrite !str_app_length in H.
  destruct a; [done|]. cbn in H. lia.
Qed.

Lemma ReplaceAll_removes (a g s : string) :
  redactable a → starts_after a g s → Contains (g +:+ ReplaceAll s a RedactedPlaceholder) a = false.
Proof.
  intros (Hne & Ho & Hc & Hr). revert g.
  induction s as [s IH] using (induction_ltof1 _ String.length). intros g Hg. destruct s as [|c s].
  - rewrite str_app_nil. by apply (starts_after_out a g "").
  - destruct (String.prefix a (String c s)) eqn:E.
    + apply prefix_app in E as [t E]. rewrite E in *. rewrite ReplaceAll_match by done.
      apply placeholder_split; try done; [by apply (starts_after_out a g (a +:+ t))|].
      apply (IH t) with (g := "").
      * unfold ltof. rewrite str_app_length. destruct a; [done|]. cbn. lia.
      * intros x y _. cbn. lia.
    + rewrite ReplaceAll_step by done. rewrite app_cons_assoc. apply IH; [unfold ltof; cbn; lia|].
      intros x y Exy. rewrite <- app_cons_assoc in Exy. pose proof (Hg x y Exy) as Hx.
      rewrite str_app_length. cbn. destruct (decide (String.length g = String.length x)) as [Hl|]; [exfalso|lia].
      destruct (str_app_eq_app _ _ _ _ Exy) as [k [[-> E2]|[-> E2]]]; rewrite str_app_length in Hl;
        (destruct k; [|cbn in Hl; lia]); apply not_true_iff_false in E; apply E, prefix_app; exists y; [done|].
      by rewrite E2.
Qed.

(** ** Redaction *)

Lemma redact_one_out (a b s : string) :
  a ≠ "" → redactable b → Contains s b = false → Contains (redact_one s a) b = false.
Proof.
  intros Ha Hb Hs. unfold redact_one. destruct (Contains s a); [|done].
  by apply (ReplaceAll_keeps_out a b "").
Qed.

Lemma redact_one_self (a s : string) : redactable a → Contains (redact_one s a) a = false.
Proof.
  intros Ha. unfold redact_one. destruct (Contains s a) eqn:E; [|done].
  apply (ReplaceAll_removes a ""); [done|]. intros x y _. cbn. lia.
Qed.

Lemma redact_all_out (l : list string) (b s : string) :
  Forall redactable l → redactable b → Contains s b = false ∨ b ∈ l →
  Contains (fold_left redact_one l s) b = false.
Proof.
  intros Hl Hb. revert s. induction Hl as [|a l Ha Hl IH]; intros s; cbn [fold_left].
  - rewrite elem_of_nil. by intros [?|[]].
  - intros Hs. apply IH. destruct (decide (a = b)) as [->|Hne].
    + left. by apply redact_one_self.
    + destruct Hs as [Hs|[?|Hin]%elem_of_cons]; [|congruence|by right].
      left. apply redact_one_out; [by destruct Ha|done..].
Qed.

Lemma redact_idle (l : list string) (s : string) :
  (∀ b, b ∈ l → Contains s b = false) → fold_left redact_one l s = s.
Proof.
  induction l as [|a l IH]; intros H; [done|]. cbn [fold_left]. unfold redact_one at 2.
  rewrite (H a) by (by left). apply IH. intros b Hb. apply H. by right.
Qed.

Lemma elem_of_secrets (o : Order) (r : Redactor) b : b ∈ (map_pairs o r).*1 ↔ is_Some (r !! b).
Proof.
  rewrite list_elem_of_fmap. split.
  - intros ([k u] & -> & H%elem_of_map_pairs). eauto.
  - intros [u H]. exists (b, u). by rewrite elem_of_map_pairs.
Qed.

(** C26: When no registered secret overlaps the placeholder or another secret's
    edges, no secret is left in a redacted text in any order of the map, a text
    without secrets is unchanged, and the writer passes on a text without
    secrets and reports the length of what it was given. *)
Theorem redact_complete {S} (o : Order) (r : Redactor) (s : string)
    (out : string → ST S (Z * option error)) :
  (∀ b, is_Some (r !! b) → redactable b) →
  (∀ b, is_Some (r !! b) → Contains (Redact o r s) b = false) ∧
  ((∀ b, is_Some (r !! b) → Contains s b = false) → Redact o r s = s) ∧
  (∀ st, ∃ clean, (RedactingWrite out (Some (o, r)) s st).2 = (out clean st).2
     ∧ (RedactingWrite out (Some (o, r)) s st).1 = (Z.of_nat (String.length s), (out clean st).1.2)
     ∧ ∀ b, is_Some (r !! b) → Contains clean b = false).
Proof.
  intros Hr. assert (∀ b, is_Some (r !! b) → Contains (RedactBytes o r s) b = false) as Hout.
  { intros b Hb. apply redact_all_out; [|by apply Hr|right; by apply elem_of_secrets].
    apply Forall_forall. intros a Ha%elem_of_secrets. by apply Hr. }
  split_and!; [done| |intros st; by exists (RedactBytes o r s)].
  intros Hs. apply redact_idle. intros b Hb%elem_of_secrets. by apply Hs.
Qed.

Definition demo_redactor : Redactor := Redact_Register (uni := unicode_none) " hunter2 " NewRedactor.

Lemma demo_redactable b : is_Some (demo_redactor !! b) → redactable b.
Proof.
  intros [u H]. change demo_redactor with (<["hunter2" := tt]> (∅ : Redactor)) in H.
  rewrite lookup_insert in H. case_decide as E; [|done]. by rewrite <- E.
Qed.

Lemma redact_complete_witness :
  Redact order_id demo_redactor "password hunter2!" = "password [REDACTED]!" ∧
  Contains (Redact order_id demo_redactor "password hunter2!") "hunter2" = false.
Proof.
  split; [vm_compute; reflexivity|].
  apply (proj1 (redact_complete (S := unit) order_id demo_redactor "password hunter2!"
    (λ _, ret (0, None)) demo_redactable)). by exists tt.
Defined.

(** ** What is not redacted

    A part of the placeholder; a secret that is logged in two writes; a secret
    with a quote, once the logger has escaped it. *)

Example placeholder_part_remains :
  let r := Redact_Register (uni := unicode_none) "ACTED" NewRedactor in
  Contains (Redact order_id r "the ACTED one") "ACTED" = true.
Proof. vm_compute. reflexivity. Qed.

Example split_write_leaks :
  let write p := RedactingWrite (λ b log, ((Z.of_nat (String.length b), None), log +:+ b)) (Some (order_id, demo_redactor)) p in
  (write "hunt" ;; write "er2") "" = ((3, None), "hunter2").
Proof. vm_compute. reflexivity. Qed.

Example escaped_secret_leaks :
  let secret := "pass" +:+ String (ascii_of_nat 34) "word" in
  let r := Redact_Register (uni := unicode_none) secret NewRedactor in
  let line := Quote (H := unicode_none) secret in
  Redact order_id r line = line.
Proof. vm_compute. reflexivity. Qed.
