(* ===== verification/Json.v ===== *)
(** * JSON: what the control plane uses of encoding/json

    Values, the encoder, the parser and the decoding into structs. A number is
    its literal. Texts with bytes outside of ASCII, where the encoder and the
    parser look at UTF-8, and the messages of syntax errors are the class
    [JsonText]. The parser runs on fuel, one unit for each value, element and
    member it starts; the length of the text is always enough. *)

From stdpp Require Import base option gmap strings list pretty.
From Stdlib Require Import ZArith Lia Ascii.
From S2P Require Import Prelude GoLib Http.

Unset Elimination Schemes.
Inductive Json :=
| JNull
| JBool (b : bool)
| JNum (literal : string)
| JStr (s : string)
| JArr (l : list Json)
| JObj (members : list (string * Json)).
Set Elimination Schemes.

(** Induction with hypotheses for the elements and the members. *)
Fixpoint Json_ind (P : Json → Prop) (Hnull : P JNull) (Hbool : ∀ b, P (JBool b)) (Hnum : ∀ n, P (JNum n))
    (Hstr : ∀ s, P (JStr s)) (Harr : ∀ l, Forall P l → P (JArr l))
    (Hobj : ∀ l, Forall (λ kv, P kv.2) l → P (JObj l)) (v : Json) : P v :=
  let rec := Json_ind P Hnull Hbool Hnum Hstr Harr Hobj in
  match v with
  | JNull => Hnull
  | JBool b => Hbool b
  | JNum n => Hnum n
  | JStr s => Hstr s
  | JArr l => Harr l ((fix go l : Forall P l :=
      match l with [] => Forall_nil_2 _ | x :: l' => Forall_cons_2 _ x l' (rec x) (go l') end) l)
  | JObj l => Hobj l ((fix go l : Forall (λ kv, P kv.2) l :=
      match l with [] => Forall_nil_2 _ | x :: l' => Forall_cons_2 _ x l' (rec x.2) (go l') end) l)
  end.

(** What depends on UTF-8: the quoted text of a string, and the parse of a
    text, both when they are not ASCII; and the messages. *)
Inductive Failure := Malformed | NoFuel.

(** A value and the rest of the text. *)
Definition Parsed (A : Type) : Type := (A * string) + Failure.

Class JsonText := {
  jt_quote : string → string;
  jt_parse : string → Parsed Json;
  jt_syntax_error : string → error
}.

(** ** The encoder *)

Definition dquote : ascii := ascii_of_nat 34.
Definition bslash : ascii := ascii_of_nat 92.

(** A character in a quoted string: the encoder also escapes what HTML gives a
    meaning. *)
Definition json_char (c : ascii) : string :=
  let n := N_of_ascii c in
  let esc d := String bslash (String d EmptyString) in
  if (n =? 34)%N || (n =? 92)%N then esc c
  else if (n =? 8)%N then esc "b"%char else if (n =? 9)%N then esc "t"%char
  else if (n =? 10)%N then esc "n"%char else if (n =? 12)%N then esc "f"%char
  else if (n =? 13)%N then esc "r"%char
  else if (n <? 32)%N || (n =? 38)%N || (n =? 60)%N || (n =? 62)%N
  then String bslash (String "u" (String "0" (String "0"
         (String (hex_digit (n / 16)) (String (hex_digit (n mod 16)) EmptyString)))))
  else String c EmptyString.

Fixpoint json_chars (s : string) : string :=
  match s with
  | EmptyString => EmptyString
  | String c s' => json_char c +:+ json_chars s'
  end.

Section encode.
Context {jt : JsonText}.

Definition json_string (s : string) : string :=
  if isASCII s then String dquote (json_chars s +:+ String dquote EmptyString) else jt_quote s.

Fixpoint json_text (v : Json) : string :=
  match v with
  | JNull => "null"
  | JBool true => "true"
  | JBool false => "false"
  | JNum n => n
  | JStr s => json_string s
  | JArr l =>
    String "["
      ((fix elems (l : list Json) : string :=
          match l with
          | [] => "]"
          | [x] => json_text x +:+ "]"
          | x :: l' => json_text x +:+ String "," (elems l')
          end) l)
  | JObj l =>
    String "{"
      ((fix members (l : list (string * Json)) : string :=
          match l with
          | [] => "}"
          | [x] => json_string x.1 +:+ String ":" (json_text x.2 +:+ "}")
          | x :: l' => json_string x.1 +:+ String ":" (json_text x.2 +:+ String "," (members l'))
          end) l)
  end.

(** The two loops by name. *)
Fixpoint json_elems (l : list Json) : string :=
  match l with
  | [] => "]"
  | [x] => json_text x +:+ "]"
  | x :: l' => json_text x +:+ String "," (json_elems l')
  end.

Fixpoint json_members (l : list (string * Json)) : string :=
  match l with
  | [] => "}"
  | [x] => json_string x.1 +:+ String ":" (json_text x.2 +:+ "}")
  | x :: l' => json_string x.1 +:+ String ":" (json_text x.2 +:+ String "," (json_members l'))
  end.

End encode.

(** ** The parser *)

Definition json_space (c : ascii) : bool :=
  let n := N_of_ascii c in ((n =? 32) || (n =? 9) || (n =? 10) || (n =? 13))%N.

Fixpoint skip_space (s : string) : string :=
  match s with
  | String c s' => if json_space c then skip_space s' else s
  | EmptyString => EmptyString
  end.

(** The UTF-8 bytes of a code point. *)
Definition utf8 (r : N) : string :=
  let b n := ascii_of_N n in
  (if (r <? 128)%N then String (b r) EmptyString
  else if (r <? 2048)%N then String (b (192 + r / 64)) (String (b (128 + r mod 64)) EmptyString)
  else if (r <? 65536)%N then
    String (b (224 + r / 4096)) (String (b (128 + (r / 64) mod 64)) (String (b (128 + r mod 64)) EmptyString))
  else
    String (b (240 + r / 262144)) (String (b (128 + (r / 4096) mod 64))
      (String (b (128 + (r / 64) mod 64)) (String (b (128 + r mod 64)) EmptyString))))%N.

Definition hex4 (a b c d : ascii) : option N :=
  match hex_value a, hex_value b, hex_value c, hex_value d with
  | Some w, Some x, Some y, Some z => Some (4096 * w + 256 * x + 16 * y + z)%N
  | _, _, _, _ => None
  end.

Definition is_surrogate (r : N) : bool := ((55296 <=? r) && (r <? 57344))%N.

(** The code point of a surrogate pair, when it is one. *)
Definition surrogate_pair (hi lo : N) : option N :=
  if ((55296 <=? hi) && (hi <? 56320) && (56320 <=? lo) && (lo <? 57344))%N
  then Some (65536 + 1024 * (hi - 55296) + (lo - 56320))%N else None.

Definition replacement : N := 65533.

(** The character of an escape of one letter. *)
Definition escaped (c : ascii) : option ascii :=
  if existsb (Ascii.eqb c) [dquote; bslash; "/"%char] then Some c
  else if Ascii.eqb c "b" then Some (ascii_of_nat 8)
  else if Ascii.eqb c "f" then Some (ascii_of_nat 12)
  else if Ascii.eqb c "n" then Some (ascii_of_nat 10)
  else if Ascii.eqb c "r" then Some (ascii_of_nat 13)
  else if Ascii.eqb c "t" then Some (ascii_of_nat 9)
  else None.

(** The rest of a string literal, after the opening quote: its value and what
    follows the closing quote. [pending] is a first half of a surrogate pair
    whose second half must come next, or it is replaced. *)
Fixpoint string_rest (pending : option N) (s : string) : option (string * string) :=
  let flush (x : string) := match pending with Some _ => utf8 replacement +:+ x | None => x end in
  let after (x : string) := option_map (λ r : string * string, (flush (x +:+ r.1), r.2)) in
  match s with
  | EmptyString => None
  | String c s' =>
    if Ascii.eqb c dquote then Some (flush "", s')
    else if (N_of_ascii c <? 32)%N then None
    else if Ascii.eqb c bslash then
      match s' with
      | EmptyString => None
      | String d s'' =>
        if Ascii.eqb d "u" then
          match s'' with
          | String h1 (String h2 (String h3 (String h4 t))) =>
            match hex4 h1 h2 h3 h4 with
            | None => None
            | Some r =>
              match pending ≫= λ hi, surrogate_pair hi r with
              | Some p => option_map (λ x : string * string, (utf8 p +:+ x.1, x.2)) (string_rest None t)
              | None =>
                if is_surrogate r then option_map (λ x : string * string, (flush x.1, x.2)) (string_rest (Some r) t)
                else after (utf8 r) (string_rest None t)
              end
            end
          | _ => None
          end
        else match escaped d with
             | Some e => after (String e EmptyString) (string_rest None s'')
             | None => None
             end
      end
    else after (String c EmptyString) (string_rest None s')
  end.

(** The digits at the front, and what follows. *)
Fixpoint digits (s : string) : string * string :=
  match s with
  | String c s' => if is_digit c then let '(d, r) := digits s' in (String c d, r) else (EmptyString, s)
  | EmptyString => (EmptyString, EmptyString)
  end.

(** The rest of a text that begins with a character. *)
Definition eat (c : ascii) (s : string) : option string :=
  match s with
  | String d s' => if Ascii.eqb d c then Some s' else None
  | EmptyString => None
  end.

(** One digit at least. *)
Definition digits1 (s : string) : option (string * string) :=
  let '(d, r) := digits s in if decide (d = "") then None else Some (d, r).

(** The parts of the literal of a number. *)
Definition int_part (s : string) : option (string * string) :=
  match eat "0" s with Some s' => Some ("0", s') | None => digits1 s end.

Definition frac_part (s : string) : option (string * string) :=
  match eat "." s with
  | Some s' => option_map (λ x : string * string, ("." +:+ x.1, x.2)) (digits1 s')
  | None => Some ("", s)
  end.

Definition sign_part (s : string) : string * string :=
  match eat "+" s with
  | Some s' => ("+", s')
  | None => match eat "-" s with Some s' => ("-", s') | None => ("", s) end
  end.

Definition exp_part (s : string) : option (string * string) :=
  match s with
  | String e s' =>
    if Ascii.eqb e "e" || Ascii.eqb e "E" then
      let '(sign, s') := sign_part s' in
      option_map (λ x : string * string, (String e (sign +:+ x.1), x.2)) (digits1 s')
    else Some ("", s)
  | EmptyString => Some ("", s)
  end.

Definition number_rest (s : string) : option (string * string) :=
  match int_part s with
  | None => None
  | Some (i, s) =>
    match frac_part s with
    | None => None
    | Some (f, s) => option_map (λ x : string * string, (i +:+ f +:+ x.1, x.2)) (exp_part s)
    end
  end.

Definition number (s : string) : option (string * string) :=
  match eat "-" s with
  | Some s' => option_map (λ x : string * string, ("-" +:+ x.1, x.2)) (number_rest s')
  | None => number_rest s
  end.

(** The rest of a word. *)
Definition word (w : string) (v : Json) (s : string) : Parsed Json :=
  if HasPrefix s w then inl (v, TrimPrefix s w) else inr Malformed.

Definition max_depth : Z := 10000.

(** The elements of an array after its opening bracket, or after a comma;
    [first] says that a closing bracket may come. *)
Fixpoint parse_value (fuel : nat) (depth : Z) (s : string) : Parsed Json :=
  match fuel with
  | O => inr NoFuel
  | S fuel =>
    match skip_space s with
    | EmptyString => inr Malformed
    | String c s' =>
      if Ascii.eqb c dquote then
        match string_rest None s' with Some (x, r) => inl (JStr x, r) | None => inr Malformed end
      else if Ascii.eqb c "[" then
        if max_depth <=? depth then inr Malformed
        else match parse_elems fuel (depth + 1) true s' with
             | inl (l, r) => inl (JArr l, r)
             | inr e => inr e
             end
      else if Ascii.eqb c "{" then
        if max_depth <=? depth then inr Malformed
        else match parse_members fuel (depth + 1) true s' with
             | inl (l, r) => inl (JObj l, r)
             | inr e => inr e
             end
      else if Ascii.eqb c "n" then word "null" JNull (String c s')
      else if Ascii.eqb c "t" then word "true" (JBool true) (String c s')
      else if Ascii.eqb c "f" then word "false" (JBool false) (String c s')
      else match number (String c s') with Some (n, r) => inl (JNum n, r) | None => inr Malformed end
    end
  end
with parse_elems (fuel : nat) (depth : Z) (first : bool) (s : string) : Parsed (list Json) :=
  match fuel with
  | O => inr NoFuel
  | S fuel =>
    match eat "]" (skip_space s) with
    | Some s' => if first then inl ([], s') else inr Malformed
    | None =>
      match parse_value fuel depth s with
      | inl (v, r) =>
        match eat "," (skip_space r) with
        | Some r => match parse_elems fuel depth false r with
                    | inl (l, r) => inl (v :: l, r)
                    | inr e => inr e
                    end
        | None =>
          match eat "]" (skip_space r) with
          | Some r => inl ([v], r)
          | None => inr Malformed
          end
        end
      | inr e => inr e
      end
    end
  end
with parse_members (fuel : nat) (depth : Z) (first : bool) (s : string) : Parsed (list (string * Json)) :=
  match fuel with
  | O => inr NoFuel
  | S fuel =>
    match eat "}" (skip_space s) with
    | Some s' => if first then inl ([], s') else inr Malformed
    | None =>
      match eat dquote (skip_space s) ≫= string_rest None with
      | None => inr Malformed
      | Some (k, r) =>
        match eat ":" (skip_space r) with
        | None => inr Malformed
        | Some r =>
          match parse_value fuel depth r with
          | inl (v, r) =>
            match eat "," (skip_space r) with
            | Some r => match parse_members fuel depth false r with
                        | inl (l, r) => inl ((k, v) :: l, r)
                        | inr e => inr e
                        end
            | None =>
              match eat "}" (skip_space r) with
              | Some r => inl ([(k, v)], r)
              | None => inr Malformed
              end
            end
          | inr e => inr e
          end
        end
      end
    end
  end.

Section parse.
Context {jt : JsonText}.

(** The first value of a text, as [Decoder.Decode] reads it. *)
Definition parse_first (s : string) : Parsed Json :=
  if isASCII s then parse_value (S (2 * String.length s)) 0 s else jt_parse s.

(** The value that is the whole text, as [Unmarshal] reads it. *)
Definition parse_whole (s : string) : option Json :=
  match parse_first s with
  | inl (v, rest) => if decide (skip_space rest = "") then Some v else None
  | _ => None
  end.

End parse.

(** The trivial tables, for ASCII texts. *)
Definition json_ascii : JsonText :=
  {| jt_quote := id; jt_parse := λ _, inr Malformed; jt_syntax_error := λ _, "invalid JSON" |}.

Example parse_ex :
  let q := String dquote EmptyString in
  parse_whole (jt := json_ascii)
    (" {" +:+ q +:+ "a\u0041\n" +:+ q +:+ " : [1, -2.5e3,true, null ] , " +:+ q +:+ q +:+ ":{}} ")
  = Some (JObj [("aA" +:+ String (ascii_of_nat 10) EmptyString, JArr [JNum "1"; JNum "-2.5e3"; JBool true; JNull]);
                ("", JObj [])]).
Proof. vm_compute. reflexivity. Qed.

Example surrogates_ex :
  let q := String dquote EmptyString in
  parse_whole (jt := json_ascii) (q +:+ "\ud83d\ude00\ud83dx" +:+ q)
  = Some (JStr (utf8 128512 +:+ utf8 replacement +:+ "x")).
Proof. vm_compute. reflexivity. Qed.

(** ** The fuel is enough *)

#[local] Arguments Ascii.eqb : simpl never.
#[local] Arguments N_of_ascii : simpl never.
#[local] Arguments is_digit : simpl never.
#[local] Arguments json_space : simpl never.

Abbreviation slen := String.length (only parsing).

Lemma skip_space_length (s : string) : (slen (skip_space s) ≤ slen s)%nat.
Proof. induction s as [|c s IH]; [done|]. cbn. destruct (json_space c); cbn; lia. Qed.

Lemma digits_length (s d r : string) : digits s = (d, r) → slen s = (slen d + slen r)%nat.
Proof.
  revert d r. induction s as [|c s IH]; intros d r; cbn; [by intros [= <- <-]|].
  destruct (is_digit c); [|by intros [= <- <-]].
  destruct (digits s) as [d' r']. intros [= <- <-]. cbn. by rewrite (IH d' r').
Qed.

Lemma slen_pos (s : string) : s ≠ "" → (0 < slen s)%nat.
Proof. destruct s; [done|cbn; lia]. Qed.

Lemma eat_length c (s r : string) : eat c s = Some r → slen s = S (slen r).
Proof. destruct s as [|d s]; [done|]. cbn. destruct (Ascii.eqb d c); [|done]. by intros [= ->]. Qed.

Lemma digits1_length (s d r : string) : digits1 s = Some (d, r) → (slen r < slen s)%nat.
Proof.
  unfold digits1. destruct (digits s) as [d' r'] eqn:E. apply digits_length in E. case_decide as Hd; [done|].
  intros [= -> ->]. apply slen_pos in Hd. lia.
Qed.

Lemma number_rest_length (s n r : string) : number_rest s = Some (n, r) → (slen r < slen s)%nat.
Proof.
  unfold number_rest. destruct (int_part s) as [[i s1]|] eqn:E1; [|done].
  assert (slen s1 < slen s)%nat.
  { unfold int_part in E1. destruct (eat _ s) eqn:E; [apply eat_length in E; simplify_eq; lia|].
    by eapply digits1_length. }
  destruct (frac_part s1) as [[f s2]|] eqn:E2; [|done].
  assert (slen s2 ≤ slen s1)%nat.
  { unfold frac_part in E2. destruct (eat _ s1) as [s'|] eqn:E; [|by simplify_eq]. apply eat_length in E.
    destruct (digits1 s') as [[d r']|] eqn:Ed; [|done]. apply digits1_length in Ed. cbn in E2. simplify_eq. lia. }
  destruct (exp_part s2) as [[e s3]|] eqn:E3; [|done]. cbn. intros [= _ <-].
  assert (slen s3 ≤ slen s2)%nat; [|lia].
  unfold exp_part in E3. destruct s2 as [|e' s4]; [by simplify_eq|]. destruct (_ || _); [|by simplify_eq].
  unfold sign_part in E3. cbn [slen].
  destruct (eat "+" s4) as [s5|] eqn:F1; [apply eat_length in F1|destruct (eat "-" s4) as [s5|] eqn:F2; [apply eat_length in F2|]];
    (destruct (digits1 _) as [[d r']|] eqn:Ed; [|done]; apply digits1_length in Ed; cbn in E3; simplify_eq; lia).
Qed.

Lemma number_length (s n r : string) : number s = Some (n, r) → (slen r < slen s)%nat.
Proof.
  unfold number. destruct (eat _ s) as [s'|] eqn:E; [|apply number_rest_length].
  apply eat_length in E. destruct (number_rest s') as [[n' r']|] eqn:E'; [|done].
  apply number_rest_length in E'. cbn. intros [= _ <-]. lia.
Qed.

Lemma string_rest_length (pending : option N) (s x r : string) :
  string_rest pending s = Some (x, r) → (slen r < slen s)%nat.
Proof.
  revert pending x r. induction s as [s IH] using (induction_ltof1 _ slen). intros pending x r.
  assert (∀ p (f : string * string → string) s', (slen s' < slen s)%nat →
    option_map (λ y : string * string, (f y, y.2)) (string_rest p s') = Some (x, r) → (slen r < slen s)%nat) as Hm.
  { intros p f s' Hl Hs. destruct (string_rest p s') as [[y r']|] eqn:E; [|done]. cbn in Hs. simplify_eq.
    apply IH in E; [lia|exact Hl]. }
  destruct s as [|c s]; [done|]. cbn [string_rest].
  destruct (Ascii.eqb c dquote); [intros [= _ <-]; cbn; lia|].
  destruct (_ <? 32)%N; [done|].
  destruct (Ascii.eqb c bslash); [|apply Hm; cbn; lia].
  destruct s as [|d s]; [done|]. destruct (Ascii.eqb d "u").
  - destruct s as [|h1 [|h2 [|h3 [|h4 t]]]]; try done. destruct (hex4 _ _ _ _) as [c'|]; [|done].
    destruct (_ ≫= _); [apply Hm; cbn; lia|]. destruct (is_surrogate c'); apply Hm; cbn; lia.
  - destruct (escaped d); [|done]. apply Hm. cbn. lia.
Qed.

Lemma word_length w v s v' r : w ≠ "" → word w v s = inl (v', r) → (slen r < slen s)%nat.
Proof.
  intros Hw. unfold word. destruct (HasPrefix s w) eqn:E; [|done].
  apply HasPrefix_app in E as [t ->]. rewrite TrimPrefix_app. intros [= _ <-].
  rewrite str_app_length. apply slen_pos in Hw. lia.
Qed.

Lemma word_app w v rest : word w v (w +:+ rest) = inl (v, rest).
Proof. unfold word, HasPrefix. rewrite (proj2 (prefix_app _ _)) by eauto. by rewrite TrimPrefix_app. Qed.

(** A parse that succeeds leaves a shorter text. *)
Lemma parse_shorter fuel :
  (∀ d s v r, parse_value fuel d s = inl (v, r) → (slen r < slen s)%nat) ∧
  (∀ d b s l r, parse_elems fuel d b s = inl (l, r) → (slen r < slen s)%nat) ∧
  (∀ d b s l r, parse_members fuel d b s = inl (l, r) → (slen r < slen s)%nat).
Proof.
  induction fuel as [|fuel (IHv & IHe & IHm)]; [done|]. split_and!.
  - intros d s v r. cbn [parse_value]. pose proof (skip_space_length s).
    destruct (skip_space s) as [|c s']; [done|]. cbn [slen] in *.
    destruct (Ascii.eqb c dquote).
    { destruct (string_rest None s') as [[x r']|] eqn:E; [|done]. apply string_rest_length in E.
      intros [= _ <-]. lia. }
    destruct (Ascii.eqb c "[").
    { destruct (_ <=? _); [done|]. destruct (parse_elems _ _ _ _) as [[l r']|] eqn:E; intros [= _ <-].
      apply IHe in E. lia. }
    destruct (Ascii.eqb c "{").
    { destruct (_ <=? _); [done|]. destruct (parse_members _ _ _ _) as [[l r']|] eqn:E; intros [= _ <-].
      apply IHm in E. lia. }
    destruct (Ascii.eqb c "n"); [intros E%word_length; [cbn in E; lia|done]|].
    destruct (Ascii.eqb c "t"); [intros E%word_length; [cbn in E; lia|done]|].
    destruct (Ascii.eqb c "f"); [intros E%word_length; [cbn in E; lia|done]|].
    destruct (number _) as [[n r']|] eqn:E; [|done]. apply number_length in E. cbn in E. intros [= _ <-]. lia.
  - intros d b s l r. cbn [parse_elems]. pose proof (skip_space_length s).
    destruct (eat "]" (skip_space s)) as [s'|] eqn:E.
    { apply eat_length in E. destruct b; [|done]. intros [= _ <-]. lia. }
    destruct (parse_value fuel d s) as [[v r1]|] eqn:Ev; [|done]. apply IHv in Ev.
    pose proof (skip_space_length r1).
    destruct (eat "," (skip_space r1)) as [r2|] eqn:E1.
    { apply eat_length in E1. destruct (parse_elems fuel d false r2) as [[l' r3]|] eqn:Ee; [|done].
      apply IHe in Ee. intros [= _ <-]. lia. }
    destruct (eat "]" (skip_space r1)) as [r2|] eqn:E2; [|done]. apply eat_length in E2. intros [= _ <-]. lia.
  - intros d b s l r. cbn [parse_members]. pose proof (skip_space_length s).
    destruct (eat "}" (skip_space s)) as [s'|] eqn:E.
    { apply eat_length in E. destruct b; [|done]. intros [= _ <-]. lia. }
    destruct (eat dquote (skip_space s)) as [s1|] eqn:Eq; [|done]. apply eat_length in Eq. cbn [mbind option_bind].
    destruct (string_rest None s1) as [[k r0]|] eqn:Es; [|done]. apply string_rest_length in Es.
    pose proof (skip_space_length r0). destruct (eat ":" (skip_space r0)) as [r1'|] eqn:Ec; [|done].
    apply eat_length in Ec. destruct (parse_value fuel d r1') as [[v r1]|] eqn:Ev; [|done]. apply IHv in Ev.
    pose proof (skip_space_length r1).
    destruct (eat "," (skip_space r1)) as [r2|] eqn:E1.
    { apply eat_length in E1. destruct (parse_members fuel d false r2) as [[l' r3]|] eqn:Ee; [|done].
      apply IHm in Ee. intros [= _ <-]. lia. }
    destruct (eat "}" (skip_space r1)) as [r2|] eqn:E2; [|done]. apply eat_length in E2. intros [= _ <-]. lia.
Qed.

Lemma parse_fueled fuel :
  (∀ d s, (2 * slen s < fuel)%nat → parse_value fuel d s ≠ inr NoFuel) ∧
  (∀ d b s, (S (2 * slen s) < fuel)%nat → parse_elems fuel d b s ≠ inr NoFuel) ∧
  (∀ d b s, (S (2 * slen s) < fuel)%nat → parse_members fuel d b s ≠ inr NoFuel).
Proof.
  induction fuel as [|fuel (IHv & IHe & IHm)]; [split_and!; intros; lia|].
  destruct (parse_shorter fuel) as (Sv & _ & _). split_and!.
  - intros d s Hf. cbn [parse_value]. pose proof (skip_space_length s).
    destruct (skip_space s) as [|c s']; [done|]. cbn [slen] in *.
    destruct (Ascii.eqb c dquote); [by destruct (string_rest None s') as [[x r']|]|].
    destruct (Ascii.eqb c "[").
    { destruct (_ <=? _); [done|]. specialize (IHe (d + 1) true s' ltac:(lia)).
      destruct (parse_elems _ _ _ _) as [[]|]; congruence. }
    destruct (Ascii.eqb c "{").
    { destruct (_ <=? _); [done|]. specialize (IHm (d + 1) true s' ltac:(lia)).
      destruct (parse_members _ _ _ _) as [[]|]; congruence. }
    unfold word. destruct (Ascii.eqb c "n"); [by destruct (HasPrefix _ _)|].
    destruct (Ascii.eqb c "t"); [by destruct (HasPrefix _ _)|].
    destruct (Ascii.eqb c "f"); [by destruct (HasPrefix _ _)|]. by destruct (number _) as [[]|].
  - intros d b s Hf. cbn [parse_elems]. destruct (eat "]" (skip_space s)); [by destruct b|].
    specialize (IHv d s ltac:(lia)). destruct (parse_value fuel d s) as [[v r1]|] eqn:Ev; [|congruence].
    apply Sv in Ev. pose proof (skip_space_length r1).
    destruct (eat "," (skip_space r1)) as [r2|] eqn:E1; [|by destruct (eat "]" _)].
    apply eat_length in E1. specialize (IHe d false r2 ltac:(lia)).
    destruct (parse_elems fuel d false r2) as [[]|]; congruence.
  - intros d b s Hf. cbn [parse_members]. pose proof (skip_space_length s).
    destruct (eat "}" (skip_space s)); [by destruct b|].
    destruct (eat dquote (skip_space s)) as [s1|] eqn:Eq; [|done]. apply eat_length in Eq. cbn [mbind option_bind].
    destruct (string_rest None s1) as [[k r0]|] eqn:Es; [|done]. apply string_rest_length in Es.
    pose proof (skip_space_length r0). destruct (eat ":" (skip_space r0)) as [r1'|] eqn:Ec; [|done].
    apply eat_length in Ec. specialize (IHv d r1' ltac:(lia)).
    destruct (parse_value fuel d r1') as [[v r1]|] eqn:Ev; [|congruence]. apply Sv in Ev.
    pose proof (skip_space_length r1).
    destruct (eat "," (skip_space r1)) as [r2|] eqn:E1; [|by destruct (eat "}" _)].
    apply eat_length in E1. specialize (IHm d false r2 ltac:(lia)).
    destruct (parse_members fuel d false r2) as [[]|]; congruence.
Qed.

(** ** The parser reads what the encoder writes *)

Definition value_end (s : string) : bool :=
  match s with
  | EmptyString => true
  | String c _ => existsb (Ascii.eqb c) [","; "]"; "}"; ascii_of_nat 10]%char
  end.

(** A literal that is all of a number. *)
Definition number_literal (n : string) : bool := bool_decide (number n = Some (n, "")).

(** A value of ASCII strings and valid numbers, which is at [depth]. *)
Fixpoint json_ok (depth : Z) (v : Json) : bool :=
  match v with
  | JNum n => number_literal n
  | JStr s => isASCII s
  | JArr l => (depth <? max_depth) && forallb (json_ok (depth + 1)) l
  | JObj l => (depth <? max_depth) && forallb (λ kv, isASCII kv.1 && json_ok (depth + 1) kv.2) l
  | _ => true
  end.

(** What the end of a value looks like to the parts of a number. *)
Definition number_end (s : string) : bool :=
  match s with
  | EmptyString => true
  | String c _ => negb (is_digit c) && forallb (λ d, negb (Ascii.eqb c d)) ["."; "e"; "E"; "+"; "-"; "0"]%char
  end.

Lemma value_number_end s : value_end s = true → number_end s = true.
Proof.
  destruct s as [|c s]; [done|]. cbn [value_end number_end existsb].
  rewrite !orb_true_iff, !Ascii.eqb_eq. by intros [->|[->|[->|[->|]]]].
Qed.

Lemma digits_app (s d r rest : string) :
  number_end rest = true → digits s = (d, r) → digits (s +:+ rest) = (d, r +:+ rest).
Proof.
  intros Hr. revert d r. induction s as [|c s IH]; intros d r.
  - intros [= <- <-]. change ("" +:+ rest) with rest. destruct rest as [|c rest]; [done|]. cbn in *.
    apply andb_true_iff in Hr as [Hc _]. apply negb_true_iff in Hc. by rewrite Hc.
  - change (String c s +:+ rest) with (String c (s +:+ rest)). cbn [digits].
    destruct (is_digit c); [|by intros [= <- <-]].
    destruct (digits s) as [d' r']. rewrite (IH d' r') by done. by intros [= <- <-].
Qed.

Lemma digits1_app (s d r rest : string) :
  number_end rest = true → digits1 s = Some (d, r) → digits1 (s +:+ rest) = Some (d, r +:+ rest).
Proof.
  intros Hr. unfold digits1. destruct (digits s) as [d' r'] eqn:E.
  rewrite (digits_app _ _ _ _ Hr E). case_decide; [done|]. by intros [= <- <-].
Qed.

Lemma eat_app c (s r rest : string) : eat c s = Some r → eat c (s +:+ rest) = Some (r +:+ rest).
Proof.
  destruct s as [|d s]; [done|]. change (String d s +:+ rest) with (String d (s +:+ rest)). cbn.
  destruct (Ascii.eqb d c); [|done]. by intros [= <-].
Qed.

Lemma eat_app_None c (s rest : string) :
  number_end rest = true → c ∈ ["."; "+"; "-"; "0"]%char → eat c s = None → eat c (s +:+ rest) = None.
Proof.
  intros Hr Hc. destruct s as [|d s]; [|change (String d s +:+ rest) with (String d (s +:+ rest)); cbn; by destruct (Ascii.eqb d c)].
  intros _. change ("" +:+ rest) with rest. destruct rest as [|d rest]; [done|]. cbn [eat].
  assert (Ascii.eqb d c = false) as ->; [|done]. cbn in Hr. rewrite !andb_true_iff, !negb_true_iff in Hr.
  destruct Hr as (_ & H1 & H2 & H3 & H4 & H5 & H6 & _). set_solver.
Qed.

Lemma number_rest_app (s n r rest : string) :
  number_end rest = true → number_rest s = Some (n, r) → number_rest (s +:+ rest) = Some (n, r +:+ rest).
Proof.
  intros Hr. unfold number_rest. destruct (int_part s) as [[i s1]|] eqn:E1; [|done].
  assert (int_part (s +:+ rest) = Some (i, s1 +:+ rest)) as ->.
  { unfold int_part in *. destruct (eat "0" s) as [s'|] eqn:E.
    - simplify_eq. by rewrite (eat_app _ _ _ _ E).
    - rewrite (eat_app_None _ _ _ Hr) by (done || set_solver). by apply digits1_app. }
  destruct (frac_part s1) as [[f s2]|] eqn:E2; [|done].
  assert (frac_part (s1 +:+ rest) = Some (f, s2 +:+ rest)) as ->.
  { unfold frac_part in *. destruct (eat "." s1) as [s'|] eqn:E.
    - rewrite (eat_app _ _ _ _ E). destruct (digits1 s') as [[d r']|] eqn:Ed; [|done].
      rewrite (digits1_app _ _ _ _ Hr Ed). cbn in *. by simplify_eq.
    - rewrite (eat_app_None _ _ _ Hr) by (done || set_solver). by simplify_eq. }
  destruct (exp_part s2) as [[e s3]|] eqn:E3; [|done].
  assert (exp_part (s2 +:+ rest) = Some (e, s3 +:+ rest)) as ->; [|cbn; by intros [= <- <-]].
  unfold exp_part in *. destruct s2 as [|e' s4].
  - simplify_eq. change ("" +:+ rest) with rest. destruct rest as [|c rest]; [done|].
    cbn in Hr. rewrite !andb_true_iff, !negb_true_iff in Hr. destruct Hr as (_ & _ & -> & -> & _). done.
  - change (String e' s4 +:+ rest) with (String e' (s4 +:+ rest)). cbn [orb] in *.
    destruct (_ || _); [|by simplify_eq].
    assert (∀ sign s5, sign_part s4 = (sign, s5) → sign_part (s4 +:+ rest) = (sign, s5 +:+ rest)) as Hs.
    { intros sign s5. unfold sign_part. destruct (eat "+" s4) as [t|] eqn:F1.
      { rewrite (eat_app _ _ _ _ F1). by intros [= <- <-]. }
      rewrite (eat_app_None _ _ _ Hr) by (done || set_solver).
      destruct (eat "-" s4) as [t|] eqn:F2.
      { rewrite (eat_app _ _ _ _ F2). by intros [= <- <-]. }
      rewrite (eat_app_None _ _ _ Hr) by (done || set_solver). by intros [= <- <-]. }
    destruct (sign_part s4) as [sign s5]. rewrite (Hs sign s5) by done.
    destruct (digits1 s5) as [[d r']|] eqn:Ed; [|done]. rewrite (digits1_app _ _ _ _ Hr Ed). cbn in *. by simplify_eq.
Qed.

Lemma number_app (n rest : string) :
  number_literal n = true → number_end rest = true → number (n +:+ rest) = Some (n, rest).
Proof.
  intros Hn%bool_decide_eq_true Hr. unfold number in *. destruct (eat "-" n) as [s'|] eqn:E.
  - rewrite (eat_app _ _ _ _ E). destruct (number_rest s') as [[n' r']|] eqn:En; [|done].
    rewrite (number_rest_app _ _ _ _ Hr En). cbn in *. by simplify_eq.
  - rewrite (eat_app_None _ _ _ Hr) by (done || set_solver). by apply (number_rest_app _ _ ""), Hn.
Qed.

(** A number begins with a digit or a dash. *)
Lemma number_head (n : string) :
  number_literal n = true → ∃ c t, n = String c t ∧ is_digit c || Ascii.eqb c "-" = true.
Proof.
  intros Hn%bool_decide_eq_true. destruct n as [|c t]; [done|]. exists c, t. split; [done|].
  apply orb_true_iff. unfold number in Hn. cbn [eat] in Hn. destruct (Ascii.eqb c "-"); [by right|left].
  unfold number_rest, int_part in Hn. cbn [eat] in Hn. destruct (Ascii.eqb c "0") eqn:E0.
  { apply Ascii.eqb_eq in E0. by subst c. }
  unfold digits1 in Hn. cbn [digits] in Hn. by destruct (is_digit c).
Qed.

(** Strings. *)
Lemma string_rest_char c (t : string) :
  isASCII_char c = true →
  string_rest None (json_char c +:+ t) = option_map (λ x : string * string, (String c x.1, x.2)) (string_rest None t).
Proof. destruct c as [[] [] [] [] [] [] [] []]; intros H; try discriminate H; reflexivity. Qed.

Lemma string_rest_chars (s t : string) :
  isASCII s = true → string_rest None (json_chars s +:+ String dquote t) = Some (s, t).
Proof.
  induction s as [|c s IH]; [done|]. cbn [isASCII json_chars]. intros [Hc Hs]%andb_true_iff.
  rewrite str_app_assoc, string_rest_char by done. by rewrite IH.
Qed.

Lemma skip_space_char c (s : string) : json_space c = false → skip_space (String c s) = String c s.
Proof. intros H. cbn. by rewrite H. Qed.

Section roundtrip.
Context {jt : JsonText}.

(** How the text of a value begins. *)
Lemma json_text_head d v : json_ok d v = true →
  ∃ c t, json_text v = String c t ∧ json_space c = false ∧ Ascii.eqb c "]" = false ∧ Ascii.eqb c "}" = false.
Proof.
  destruct v as [|[]|n|s|l|l]; cbn [json_ok]; intros H; try by repeat eexists.
  - destruct (number_head n H) as (c & t & -> & Hc). exists c, t. split; [done|].
    assert (c ∈ ["-"; "0"; "1"; "2"; "3"; "4"; "5"; "6"; "7"; "8"; "9"]%char) as Hin.
    { destruct c as [[] [] [] [] [] [] [] []]; vm_compute in Hc; try discriminate Hc; set_solver. }
    rewrite !elem_of_cons, elem_of_nil in Hin. destruct_or? Hin; subst; done.
  - cbn. unfold json_string. rewrite H. by repeat eexists.
Qed.

(** What the parser makes of a value, once it has the fuel. *)
Definition reads (v : Json) : Prop := ∀ fuel d rest,
  json_ok d v = true → value_end rest = true →
  parse_value fuel d (json_text v +:+ rest) ≠ inr NoFuel →
  parse_value fuel d (json_text v +:+ rest) = inl (v, rest).

Lemma json_string_app s t :
  isASCII s = true → json_string s +:+ t = String dquote (json_chars s +:+ String dquote t).
Proof.
  intros H. unfold json_string. rewrite H.
  change (String dquote (json_chars s +:+ String dquote "") +:+ t)
    with (String dquote ((json_chars s +:+ String dquote "") +:+ t)). by rewrite str_app_assoc.
Qed.

Lemma eat_same c t : eat c (String c t) = Some t.
Proof. cbn. by rewrite Ascii.eqb_refl. Qed.

Lemma reads_elems l fuel d b rest :
  Forall reads l → forallb (json_ok d) l = true → l ≠ [] →
  parse_elems fuel d b (json_elems l +:+ rest) ≠ inr NoFuel →
  parse_elems fuel d b (json_elems l +:+ rest) = inl (l, rest).
Proof.
  intros Hl. revert fuel b. induction Hl as [|x l Hx Hl IH]; intros fuel b Hok Hne; [done|]. clear Hne.
  cbn [forallb] in Hok. apply andb_true_iff in Hok as [Hxo Hok].
  destruct (json_text_head d x Hxo) as (c & t & Et & Hsp & Hb & _).
  destruct fuel as [|fuel]; [done|]. cbn [parse_elems].
  assert (∀ u, eat "]" (skip_space (json_text x +:+ u)) = None) as Hnb.
  { intros u. rewrite Et. change (String c t +:+ u) with (String c (t +:+ u)).
    rewrite skip_space_char by done. cbn. by rewrite Hb. }
  destruct l as [|y l].
  - cbn [json_elems]. rewrite str_app_assoc, Hnb. change ("]" +:+ rest) with (String "]" rest). intros Hf.
    rewrite (Hx fuel d) by (done || by intros E; rewrite E in Hf). by rewrite skip_space_char.
  - change (json_elems (x :: y :: l)) with (json_text x +:+ String "," (json_elems (y :: l))).
    rewrite str_app_assoc, Hnb.
    change (String "," (json_elems (y :: l)) +:+ rest) with (String "," (json_elems (y :: l) +:+ rest)).
    intros Hf.
    assert (parse_value fuel d (json_text x +:+ String "," (json_elems (y :: l) +:+ rest))
      = inl (x, String "," (json_elems (y :: l) +:+ rest))) as E.
    { apply Hx; [done|done|]. intros E. by rewrite E in Hf. }
    rewrite E in *. rewrite skip_space_char, eat_same in * by done.
    rewrite IH by (done || by intros E'; rewrite E' in Hf). done.
Qed.

Lemma reads_members l fuel d b rest :
  Forall (λ kv, reads kv.2) l → forallb (λ kv, isASCII kv.1 && json_ok d kv.2) l = true → l ≠ [] →
  parse_members fuel d b (json_members l +:+ rest) ≠ inr NoFuel →
  parse_members fuel d b (json_members l +:+ rest) = inl (l, rest).
Proof.
  intros Hl. revert fuel b. induction Hl as [|[k x] l Hx Hl IH]; intros fuel b Hok Hne; [done|]. clear Hne.
  cbn [forallb fst snd] in Hok, Hx. rewrite !andb_true_iff in Hok. destruct Hok as [[Hk Hxo] Hok].
  destruct fuel as [|fuel]; [done|].
  assert (∀ u, json_members ((k, x) :: l) +:+ rest = json_string k +:+ String ":" (json_text x +:+ u) →
    parse_members (S fuel) d b (json_members ((k, x) :: l) +:+ rest) =
    match parse_value fuel d (json_text x +:+ u) with
    | inl (v, r) =>
      match eat "," (skip_space r) with
      | Some r => match parse_members fuel d false r with inl (l, r) => inl ((k, v) :: l, r) | inr e => inr e end
      | None => match eat "}" (skip_space r) with Some r => inl ([(k, v)], r) | None => inr Malformed end
      end
    | inr e => inr e
    end) as Hstep.
  { intros u ->. rewrite json_string_app by done. cbn [parse_members]. rewrite skip_space_char by done.
    cbn [eat]. change (Ascii.eqb dquote "}") with false. rewrite Ascii.eqb_refl. cbn [mbind option_bind].
    rewrite string_rest_chars by done. rewrite skip_space_char, eat_same by done. done. }
  destruct l as [|y l].
  - rewrite (Hstep (String "}" rest)).
    2: { cbn [json_members fst snd]. rewrite !str_app_assoc.
         change (String ":" (json_text x +:+ "}") +:+ rest) with (String ":" ((json_text x +:+ "}") +:+ rest)).
         by rewrite str_app_assoc. }
    intros Hf. change ("}" +:+ rest) with (String "}" rest) in *.
    rewrite (Hx fuel d) by (done || by intros E; rewrite E in Hf). by rewrite skip_space_char.
  - rewrite (Hstep (String "," (json_members (y :: l) +:+ rest))).
    2: { change (json_members ((k, x) :: y :: l))
           with (json_string k +:+ String ":" (json_text x +:+ String "," (json_members (y :: l)))).
         rewrite str_app_assoc.
         change (String ":" (json_text x +:+ String "," (json_members (y :: l))) +:+ rest)
           with (String ":" ((json_text x +:+ String "," (json_members (y :: l))) +:+ rest)).
         by rewrite str_app_assoc. }
    intros Hf.
    assert (parse_value fuel d (json_text x +:+ String "," (json_members (y :: l) +:+ rest))
      = inl (x, String "," (json_members (y :: l) +:+ rest))) as E.
    { apply Hx; [done|done|]. intros E. by rewrite E in Hf. }
    rewrite E in *. rewrite skip_space_char, eat_same in * by done.
    rewrite IH by (done || by intros E'; rewrite E' in Hf). done.
Qed.

Lemma json_text_arr l : json_text (JArr l) = String "[" (json_elems l).
Proof. reflexivity. Qed.

Lemma json_text_obj l : json_text (JObj l) = String "{" (json_members l).
Proof. reflexivity. Qed.

Lemma json_reads v : reads v.
Proof.
  induction v as [|b|n|s|l IH|l IH] using Json_ind; intros fuel d rest Hok Hend; (destruct fuel as [|fuel]; [done|]).
  - intros _. apply (word_app "null").
  - intros _. destruct b; [apply (word_app "true")|apply (word_app "false")].
  - intros _. cbn [json_ok] in Hok. destruct (number_head n Hok) as (c & t & En & Hc).
    assert (Ascii.eqb c dquote = false ∧ Ascii.eqb c "[" = false ∧ Ascii.eqb c "{" = false ∧ Ascii.eqb c "n" = false
      ∧ Ascii.eqb c "t" = false ∧ Ascii.eqb c "f" = false ∧ json_space c = false) as (H1 & H2 & H3 & H4 & H5 & H6 & H7).
    { clear -Hc. destruct c as [[] [] [] [] [] [] [] []]; vm_compute in Hc; try discriminate Hc; done. }
    cbn [parse_value json_text]. pose proof (number_app n rest Hok (value_number_end _ Hend)) as Hn.
    rewrite En in Hn |- *. change (String c t +:+ rest) with (String c (t +:+ rest)) in Hn |- *.
    rewrite skip_space_char by done. rewrite H1, H2, H3, H4, H5, H6. by rewrite Hn.
  - intros _. cbn [parse_value json_text]. rewrite json_string_app by done. rewrite skip_space_char by done.
    rewrite Ascii.eqb_refl. by rewrite string_rest_chars.
  - rewrite json_text_arr. change (String "[" (json_elems l) +:+ rest) with (String "[" (json_elems l +:+ rest)).
    cbn [parse_value json_ok] in *. rewrite skip_space_char by done.
    change (Ascii.eqb "[" dquote) with false. change (Ascii.eqb "[" "[") with true. cbv iota.
    apply andb_true_iff in Hok as [Hd%Z.ltb_lt Hok]. rewrite (proj2 (Z.leb_gt _ _)) by lia.
    destruct l as [|x l]; [by destruct fuel|]. intros Hf.
    rewrite reads_elems by (done || by intros E; rewrite E in Hf). done.
  - rewrite json_text_obj. change (String "{" (json_members l) +:+ rest) with (String "{" (json_members l +:+ rest)).
    cbn [parse_value json_ok] in *. rewrite skip_space_char by done.
    change (Ascii.eqb "{" dquote) with false. change (Ascii.eqb "{" "[") with false.
    change (Ascii.eqb "{" "{") with true. cbv iota.
    apply andb_true_iff in Hok as [Hd%Z.ltb_lt Hok]. rewrite (proj2 (Z.leb_gt _ _)) by lia.
    destruct l as [|x l]; [by destruct fuel|]. intros Hf.
    rewrite reads_members by (done || by intros E; rewrite E in Hf). done.
Qed.

(** The texts of such values are ASCII. *)
Lemma isASCII_app s t : isASCII (s +:+ t) = isASCII s && isASCII t.
Proof.
  induction s as [|c s IH]; [done|]. change (isASCII_char c && isASCII (s +:+ t) = isASCII_char c && isASCII s && isASCII t).
  by rewrite IH, andb_assoc.
Qed.

Lemma json_chars_ascii s : isASCII s = true → isASCII (json_chars s) = true.
Proof.
  induction s as [|c s IH]; [done|]. cbn [isASCII json_chars]. intros [Hc Hs]%andb_true_iff.
  rewrite isASCII_app, IH, andb_true_r by done.
  destruct c as [[] [] [] [] [] [] [] []]; try discriminate Hc; reflexivity.
Qed.

Lemma json_string_ascii s : isASCII s = true → isASCII (json_string s) = true.
Proof.
  intros H. unfold json_string. rewrite H. cbn [isASCII]. rewrite isASCII_app, json_chars_ascii by done. done.
Qed.

Lemma number_chars_ascii (s d r : string) : digits s = (d, r) → isASCII d = true.
Proof.
  revert d r. induction s as [|c s IH]; intros d r; cbn [digits]; [by intros [= <- <-]|].
  destruct (is_digit c) eqn:Hc; [|by intros [= <- <-]].
  destruct (digits s) as [d' r'] eqn:E. intros [= <- <-]. cbn [isASCII]. rewrite (IH _ _ eq_refl), andb_true_r.
  clear -Hc. destruct c as [[] [] [] [] [] [] [] []]; vm_compute in Hc; by try discriminate Hc.
Qed.

Lemma digits1_ascii (s d r : string) : digits1 s = Some (d, r) → isASCII d = true.
Proof.
  unfold digits1. destruct (digits s) as [d' r'] eqn:E. case_decide; [done|]. intros [= <- <-].
  by eapply number_chars_ascii.
Qed.

Lemma number_ascii (s n r : string) : number s = Some (n, r) → isASCII n = true.
Proof.
  assert (∀ s n r, number_rest s = Some (n, r) → isASCII n = true) as H.
  { clear. intros s n r. unfold number_rest. destruct (int_part s) as [[i s1]|] eqn:E1; [|done].
    assert (isASCII i = true) as Hi.
    { unfold int_part in E1. destruct (eat "0" s); [by simplify_eq|by eapply digits1_ascii]. }
    destruct (frac_part s1) as [[f s2]|] eqn:E2; [|done].
    assert (isASCII f = true) as Hf.
    { unfold frac_part in E2. destruct (eat "." s1) as [s'|]; [|by simplify_eq].
      destruct (digits1 s') as [[d r']|] eqn:Ed; [|done]. apply digits1_ascii in Ed. cbn in E2. by simplify_eq. }
    destruct (exp_part s2) as [[e s3]|] eqn:E3; [|done]. cbn. intros [= <- _].
    rewrite !isASCII_app, Hi, Hf. cbn. unfold exp_part in E3. destruct s2 as [|c s4]; [by simplify_eq|].
    destruct (Ascii.eqb c "e" || Ascii.eqb c "E") eqn:Hc; [|by simplify_eq].
    assert (isASCII_char c = true) as Hc'.
    { apply orb_true_iff in Hc as [->%Ascii.eqb_eq| ->%Ascii.eqb_eq]; done. }
    destruct (sign_part s4) as [sign s5] eqn:Es.
    assert (isASCII sign = true) as Hs.
    { unfold sign_part in Es. repeat case_match; by simplify_eq. }
    destruct (digits1 s5) as [[d r']|] eqn:Ed; [|done]. apply digits1_ascii in Ed. cbn in E3. simplify_eq.
    cbn [isASCII]. by rewrite isASCII_app, Hc', Hs, Ed. }
  unfold number. destruct (eat "-" s) as [s'|]; [|apply H].
  destruct (number_rest s') as [[n' r']|] eqn:E; [|done]. apply H in E. cbn. by intros [= <- _].
Qed.

Lemma json_text_ascii v d : json_ok d v = true → isASCII (json_text v) = true.
Proof.
  revert d. induction v as [|b|n|s|l IH|l IH] using Json_ind; intros d Hok.
  - done.
  - by destruct b.
  - cbn [json_ok] in Hok. apply bool_decide_eq_true in Hok. by eapply number_ascii.
  - by apply json_string_ascii.
  - rewrite json_text_arr. cbn [isASCII json_ok] in *. apply andb_true_iff in Hok as [_ Hok].
    induction IH as [|x l Hx Hl IH]; [done|]. cbn [forallb] in Hok. apply andb_true_iff in Hok as [Hxo Hok].
    specialize (IH Hok). apply Hx in Hxo. destruct l as [|y l].
    + cbn [json_elems]. by rewrite isASCII_app, Hxo.
    + change (json_elems (x :: y :: l)) with (json_text x +:+ String "," (json_elems (y :: l))).
      rewrite isASCII_app, Hxo. exact IH.
  - rewrite json_text_obj. cbn [isASCII json_ok] in *. apply andb_true_iff in Hok as [_ Hok].
    induction IH as [|[k x] l Hx Hl IH]; [done|]. cbn [forallb fst snd] in Hok, Hx.
    rewrite !andb_true_iff in Hok. destruct Hok as [[Hk%json_string_ascii Hxo] Hok].
    specialize (IH Hok). apply Hx in Hxo. destruct l as [|y l].
    + cbn [json_members fst snd]. rewrite isASCII_app, Hk. cbn [andb isASCII]. by rewrite isASCII_app, Hxo.
    + change (json_members ((k, x) :: y :: l))
        with (json_string k +:+ String ":" (json_text x +:+ String "," (json_members (y :: l)))).
      rewrite isASCII_app, Hk. cbn [andb isASCII]. rewrite isASCII_app, Hxo. exact IH.
Qed.

(** What the encoder writes, with or without the newline that its stream form
    adds, is read back. *)
Lemma json_roundtrip v rest :
  json_ok 0 v = true → rest = "" ∨ rest = newline → parse_whole (json_text v +:+ rest) = Some v.
Proof.
  intros Hok Hr. unfold parse_whole, parse_first.
  assert (isASCII rest = true ∧ value_end rest = true ∧ skip_space rest = "") as (H1 & H2 & H3).
  { by destruct Hr as [->| ->]. }
  rewrite isASCII_app, (json_text_ascii v 0), H1 by done. cbn [andb].
  rewrite json_reads; [by rewrite H3|done|done|]. apply parse_fueled. lia.
Qed.

End roundtrip.

(** ** Integers *)

(** The value of decimal digits, after those of [acc]; [None] for another
    character. *)
Fixpoint dec_value (acc : Z) (s : string) : option Z :=
  match s with
  | EmptyString => Some acc
  | String c s' => if is_digit c then dec_value (10 * acc + (Z.of_N (N_of_ascii c) - 48)) s' else None
  end.

(** [strconv.ParseInt(s, 10, 64)]. A literal of JSON has no plus sign, and
    digits after its dash. *)
Definition ParseInt (s : string) : option Z :=
  let v := match eat "-" s with
           | Some s' => Z.opp <$> dec_value 0 s'
           | None => dec_value 0 s
           end in
  match v with
  | Some z => if (- 2 ^ 63 <=? z) && (z <? 2 ^ 63) then Some z else None
  | None => None
  end.

(** How a positive number is printed: a digit that is not zero, and digits. *)
Lemma pretty_char_digit (n : N) : (n < 10)%N →
  is_digit (pretty_N_char n) = true ∧ Z.of_N (N_of_ascii (pretty_N_char n)) - 48 = Z.of_N n
  ∧ (n ≠ 0%N → Ascii.eqb (pretty_N_char n) "0" = false ∧ Ascii.eqb (pretty_N_char n) "-" = false).
Proof.
  intros Hn. assert (n = 0 ∨ n = 1 ∨ n = 2 ∨ n = 3 ∨ n = 4 ∨ n = 5 ∨ n = 6 ∨ n = 7 ∨ n = 8 ∨ n = 9)%N as H by lia.
  destruct_or? H; subst; by vm_compute.
Qed.

Definition all_digits (s : string) : bool := str_forall is_digit s.

Lemma pretty_go_spec (n : N) : (0 < n)%N → ∀ s, all_digits s = true →
  ∃ c t, pretty_N_go n s = String c t ∧ Ascii.eqb c "0" = false ∧ Ascii.eqb c "-" = false
    ∧ all_digits (String c t) = true ∧ dec_value 0 (String c t) = dec_value (Z.of_N n) s.
Proof.
  induction (N.lt_wf_0 n) as [n _ IH]. intros Hn s Hs. rewrite pretty_N_go_step by done.
  destruct (pretty_char_digit (n `mod` 10)%N) as (Hd & Hv & Hz); [by apply N.mod_lt|].
  pose proof (N.Div0.div_mod n 10) as Hdm.
  assert (all_digits (String (pretty_N_char (n `mod` 10)) s) = true) as Hs'.
  { unfold all_digits in *. cbn [str_forall]. by rewrite Hd, Hs. }
  destruct (decide (0 < n `div` 10)%N) as [Hq|Hq].
  - destruct (IH (n `div` 10)%N (N.div_lt n 10 Hn eq_refl) Hq _ Hs') as (c & t & E & H1 & H2 & H3 & H4).
    exists c, t. split_and!; [done..|]. rewrite H4. cbn [dec_value]. rewrite Hd, Hv. f_equal. lia.
  - assert (n `div` 10 = 0)%N as Hq0 by (by apply N.le_0_r, N.nlt_ge). rewrite Hq0, pretty_N_go_0.
    destruct (Hz ltac:(lia)) as [Hz1 Hz2]. eexists _, s. split_and!; [done..|].
    cbn [dec_value]. rewrite Hd, Hv. f_equal. lia.
Qed.

Lemma pretty_pos_spec (p : positive) : ∃ c t, pretty p = String c t
  ∧ Ascii.eqb c "0" = false ∧ Ascii.eqb c "-" = false ∧ all_digits (String c t) = true
  ∧ dec_value 0 (String c t) = Some (Z.pos p).
Proof.
  destruct (pretty_go_spec (N.pos p) ltac:(lia) "" eq_refl) as (c & t & E & H).
  exists c, t. split; [|exact H]. rewrite <- E. unfold pretty, pretty_positive, pretty, pretty_N.
  by rewrite decide_False.
Qed.

Lemma digits_all (s : string) : all_digits s = true → digits s = (s, "").
Proof.
  unfold all_digits. induction s as [|c s IH]; [done|]. cbn [str_forall digits].
  intros [Hc Hs]%andb_true_iff. by rewrite Hc, IH.
Qed.

Lemma number_rest_digits c t :
  Ascii.eqb c "0" = false → all_digits (String c t) = true → number_rest (String c t) = Some (String c t, "").
Proof.
  intros H0 Hd. unfold number_rest, int_part. cbn [eat]. rewrite H0. unfold digits1. rewrite digits_all by done.
  cbn [decide]. rewrite decide_False by done. cbn. by rewrite !str_app_nil.
Qed.

(** A printed integer is a literal, and is read back. *)
Lemma Itoa_literal z : number_literal (Itoa z) = true.
Proof.
  unfold number_literal, Itoa. apply bool_decide_eq_true. destruct z as [|p|p]; [done|..].
  - change (number (pretty p) = Some (pretty p, "")).
    destruct (pretty_pos_spec p) as (c & t & -> & H0 & Hm & Hd & _). unfold number. cbn [eat]. rewrite Hm.
    by apply number_rest_digits.
  - change (number (String "-" (pretty p)) = Some (String "-" (pretty p), "")).
    destruct (pretty_pos_spec p) as (c & t & -> & H0 & Hm & Hd & _). unfold number. rewrite eat_same.
    by rewrite number_rest_digits.
Qed.

Lemma ParseInt_Itoa z : - 2 ^ 63 ≤ z < 2 ^ 63 → ParseInt (Itoa z) = Some z.
Proof.
  intros Hz. unfold ParseInt, Itoa. destruct z as [|p|p]; [done|..].
  - change (pretty (Z.pos p)) with (pretty p). destruct (pretty_pos_spec p) as (c & t & -> & _ & Hm & _ & Hv).
    cbn [eat]. rewrite Hm, Hv. rewrite (proj2 (Z.leb_le _ _)), (proj2 (Z.ltb_lt _ _)) by lia. done.
  - change (pretty (Z.neg p)) with (String "-" (pretty p)). rewrite eat_same.
    destruct (pretty_pos_spec p) as (c & t & -> & _ & _ & _ & Hv). rewrite Hv. cbn [fmap option_fmap option_map Z.opp].
    rewrite (proj2 (Z.leb_le _ _)), (proj2 (Z.ltb_lt _ _)) by lia. done.
Qed.
