(* ===== verification/JsonDecode.v ===== *)
(** * Decoding JSON into structs

    [Decoder.Decode] and [Unmarshal] of encoding/json on the structs of the
    API: a value of another type is skipped and the first error is kept, while
    the other fields are still set. A [Field] is the key of a struct's field
    and how a value is stored there. *)

From stdpp Require Import base option gmap strings list pretty.
From Stdlib Require Import ZArith Lia Ascii.
From S2P Require Import Prelude GoLib GoFloat Http Json.

Abbreviation Store T := (Json → T → T * option error) (only parsing).
Abbreviation Field T := (string * (Json → T → T * option error))%type (only parsing).

Definition keep_first (e e' : option error) : option error :=
  match e with Some _ => e | None => e' end.

(** [UnmarshalTypeError.Error]. *)
Definition type_error (value st field ty : string) : error :=
  "json: cannot unmarshal " +:+ value +:+ " into Go struct field " +:+ st +:+ "." +:+ field
  +:+ " of type " +:+ ty.

Definition value_kind (v : Json) : string :=
  match v with
  | JNull => "null" | JBool _ => "bool" | JNum _ => "number" | JStr _ => "string"
  | JArr _ => "array" | JObj _ => "object"
  end.

Section decode.
Context {uni : Unicode} {jt : JsonText} {ft : FloatText} {T : Type}.

(** The struct and the key, for the messages, and the assignment. *)
Definition into_string (st field : string) (set : string → T → T) : Store T := λ v x,
  match v with
  | JStr s => (set s x, None)
  | JNull => (x, None)
  | _ => (x, Some (type_error (value_kind v) st field "string"))
  end.

Definition into_int (st field ty : string) (set : Z → T → T) : Store T := λ v x,
  match v with
  | JNum n =>
    match ParseInt n with
    | Some z => (set z x, None)
    | None => (x, Some (type_error ("number " +:+ n) st field ty))
    end
  | JNull => (x, None)
  | _ => (x, Some (type_error (value_kind v) st field ty))
  end.

Definition into_float (st field : string) (set : float64 → T → T) : Store T := λ v x,
  match v with
  | JNum n =>
    match ft_parse n with
    | Some y => (set y x, None)
    | None => (x, Some (type_error ("number " +:+ n) st field "float64"))
    end
  | JNull => (x, None)
  | _ => (x, Some (type_error (value_kind v) st field "float64"))
  end.

(** One member of an object that is decoded into a map of strings. *)
Definition map_member (st field : string) (acc : gmap string string * option error) (kv : string * Json) :
    gmap string string * option error :=
  match kv.2 with
  | JStr s => (<[kv.1 := s]> acc.1, acc.2)
  | JNull => (<[kv.1 := ""]> acc.1, acc.2)
  | v => (<[kv.1 := ""]> acc.1, keep_first acc.2 (Some (type_error (value_kind v) st field "string")))
  end.

(** The members are added to what the map has; null empties it. *)
Definition into_map (st field : string) (get : T → gmap string string) (set : gmap string string → T → T) : Store T :=
  λ v x,
  match v with
  | JNull => (set ∅ x, None)
  | JObj l => let '(m, err) := fold_left (map_member st field) l (get x, None) in (set m x, err)
  | _ => (x, Some (type_error (value_kind v) st field "map[string]string"))
  end.

(** The elements are decoded over those that the slice has. *)
Fixpoint decode_elems {A} (elem : Store A) (zero : A) (l : list Json) (old : list A) : list A * option error :=
  match l with
  | [] => ([], None)
  | v :: l' =>
    let '(a, err) := elem v (default zero (head old)) in
    let '(r, err') := decode_elems elem zero l' (tail old) in
    (a :: r, keep_first err err')
  end.

Definition into_list {A} (st field ty : string) (elem : Store A) (zero : A) (get : T → list A) (set : list A → T → T) :
    Store T := λ v x,
  match v with
  | JNull => (set [] x, None)
  | JArr l => let '(r, err) := decode_elems elem zero l (get x) in (set r x, err)
  | _ => (x, Some (type_error (value_kind v) st field ("[]" +:+ ty)))
  end.

(** The field of a key: an exact match, or one that differs in case. *)
Definition field_of (key : string) (fields : list (Field T)) : option (Field T) :=
  match head (base.filter (λ f : Field T, f.1 = key) fields) with
  | Some f => Some f
  | None => head (base.filter (λ f : Field T, EqualFold f.1 key = true) fields)
  end.

Fixpoint decode_members (disallow : bool) (fields : list (Field T)) (l : list (string * Json)) (x : T)
    (err : option error) : T * option error :=
  match l with
  | [] => (x, err)
  | (key, v) :: l' =>
    match field_of key fields with
    | Some f => let '(x, err') := f.2 v x in decode_members disallow fields l' x (keep_first err err')
    | None =>
      decode_members disallow fields l' x
        (if disallow then keep_first err (Some ("json: unknown field " +:+ Quote key)) else err)
    end
  end.

(** A value into the struct; [mismatch] is the message for another type. *)
Definition decode_struct (disallow : bool) (fields : list (Field T)) (mismatch : string → error) : Store T := λ v x,
  match v with
  | JObj l => decode_members disallow fields l x None
  | JNull => (x, None)
  | _ => (x, Some (mismatch (value_kind v)))
  end.

(** The message for a struct that is the whole value. *)
Definition top_mismatch (ty kind : string) : error :=
  "json: cannot unmarshal " +:+ kind +:+ " into Go value of type " +:+ ty.

(** [json.NewDecoder(body).Decode(&x)], with or without DisallowUnknownFields. *)
Definition Decode (disallow : bool) (fields : list (Field T)) (ty body : string) (x : T) : T * option error :=
  match parse_first body with
  | inl (v, _) => decode_struct disallow fields (top_mismatch ty) v x
  | inr _ => (x, Some (jt_syntax_error body))
  end.

(** [json.Unmarshal(body, &x)]. *)
Definition Unmarshal (fields : list (Field T)) (ty body : string) (x : T) : T * option error :=
  match parse_whole body with
  | Some v => decode_struct false fields (top_mismatch ty) v x
  | None => (x, Some (jt_syntax_error body))
  end.

(** ** What decoding keeps *)

(** A body that the encoder wrote decodes as its value. *)
Lemma Decode_text disallow fields ty v x :
  json_ok 0 v = true → Decode disallow fields ty (json_text v) x = decode_struct disallow fields (top_mismatch ty) v x.
Proof.
  intros Hok. unfold Decode. pose proof (json_roundtrip v "" Hok (or_introl eq_refl)) as H.
  rewrite str_app_nil in H. unfold parse_whole in H. destruct (parse_first _) as [[w r]|]; [|done].
  case_decide; [|done]. by simplify_eq.
Qed.

Lemma Decode_stream disallow fields ty v x :
  json_ok 0 v = true →
  Decode disallow fields ty (json_text v +:+ newline) x = decode_struct disallow fields (top_mismatch ty) v x.
Proof.
  intros Hok. unfold Decode. pose proof (json_roundtrip v newline Hok (or_intror eq_refl)) as H.
  unfold parse_whole in H. destruct (parse_first _) as [[w r]|]; [|done]. case_decide; [|done]. by simplify_eq.
Qed.

(** Decoding keeps every predicate that the stores of the fields keep. *)
Lemma decode_members_inv (P : T → Prop) disallow fields l x err :
  Forall (λ f : Field T, ∀ v y, P y → P (f.2 v y).1) fields → P x → P (decode_members disallow fields l x err).1.
Proof.
  intros Hf. rewrite Forall_forall in Hf. revert x err. induction l as [|[k v] l IH]; intros x err Hx; [done|].
  cbn [decode_members]. destruct (field_of k fields) as [f|] eqn:E; [|by apply IH].
  assert (f ∈ fields) as Hin.
  { unfold field_of in E. destruct (head (base.filter (λ f0 : Field T, f0.1 = k) fields)) as [f'|] eqn:E1.
    - simplify_eq. apply head_Some_elem_of in E1. by apply list_elem_of_filter in E1 as [_ ?].
    - apply head_Some_elem_of in E. by apply list_elem_of_filter in E as [_ ?]. }
  specialize (Hf f Hin v x Hx). destruct (f.2 v x) as [y err']. by apply IH.
Qed.

End decode.

(** ** Encoding records

    Fields with [omitempty] are left out when they are empty. *)

Definition omit_empty (key s : string) : list (string * Json) := if decide (s = "") then [] else [(key, JStr s)].
Definition omit_zero (key : string) (n : Z) : list (string * Json) := if n =? 0 then [] else [(key, JNum (Itoa n))].

(** A map of strings is written in the order of its keys. *)
Definition json_map (m : gmap string string) : Json :=
  JObj ((λ k, (k, JStr (lookup_str m k))) <$> sort_Strings (map_to_list m).*1).
