(* ===== verification/Kms.v ===== *)
(** * Keys wrapped by a KMS: internal/secrets/kms.go and kms_localstack.go

    The in-memory KMS and the envelope key provider, whose data keys are stored
    wrapped under master keys that stay in the KMS. The provider is proved
    against the interface [KMSClient]; it is a [KeyProvider] of the secret
    store. Random bytes (nonces, keys) are arguments. At the end the client of a
    real service, whose calls are requests over HTTP. *)

From stdpp Require Import base option gmap strings list pretty.
From Stdlib Require Import ZArith Lia Ascii.
From S2P Require Import Prelude GoLib GoFloat Registry Secrets Http Json JsonDecode.

Definition ErrKMSUnavailable : error := "KMS/Vault service is unavailable".
Definition ErrInvalidMasterKeyID : error := "unknown or invalid KMS master key ID".

(** The nonce comes first, where the call encrypts. *)
Class KMSClient (K : Type) := {
  kms_WrapKey : string → string → string → K → error + string;
  kms_UnwrapKey : string → string → K → error + string;
  kms_RotateKey : string → K → (error + string) * K;
  kms_ReWrapKey : string → string → string → string → K → error + string;
  kms_CurrentKeyID : K → string;
  kms_SetAvailable : bool → K → K
}.

(** What is wrapped under a master key can be unwrapped with it, also after it
    was wrapped anew. *)
Class KMSLaws (K : Type) `{!KMSClient K} : Prop := {
  kms_unwrap nonce keyID dek w (k : K) :
    String.length nonce = nonce_size → kms_WrapKey nonce keyID dek k = inr w → kms_UnwrapKey keyID w k = inr dek;
  kms_rewrap nonce oldKeyID newKeyID w w' dek (k : K) :
    String.length nonce = nonce_size → kms_ReWrapKey nonce oldKeyID newKeyID w k = inr w' →
    kms_UnwrapKey oldKeyID w k = inr dek → kms_UnwrapKey newKeyID w' k = inr dek
}.

(** ** MockKMSClient *)

Record MockKMSClient := mkKMS {
  mk_currentKeyID : string;
  mk_keys : gmap string string;
  mk_available : bool
}.

Definition master_key_id (n : Z) : string := "nebula-kms-master-v" +:+ Itoa n.

Definition NewMockKMSClient (initialKey : string) : MockKMSClient :=
  mkKMS (master_key_id 1) {[master_key_id 1 := initialKey]} true.

Section mock.
Context {ci : Cipher}.

Definition mock_WrapKey (nonce keyID plaintextDEK : string) (m : MockKMSClient) : error + string :=
  if negb (mk_available m) then inl ErrKMSUnavailable
  else match mk_keys m !! keyID with
       | None => inl (ErrInvalidMasterKeyID +:+ ": " +:+ keyID)
       | Some masterKey => Encrypt nonce plaintextDEK masterKey
       end.

Definition mock_UnwrapKey (keyID wrappedDEK : string) (m : MockKMSClient) : error + string :=
  if negb (mk_available m) then inl ErrKMSUnavailable
  else match mk_keys m !! keyID with
       | None => inl (ErrInvalidMasterKeyID +:+ ": " +:+ keyID)
       | Some masterKey => Decrypt wrappedDEK masterKey
       end.

Definition mock_RotateKey (newKey : string) (m : MockKMSClient) : (error + string) * MockKMSClient :=
  if negb (mk_available m) then (inl ErrKMSUnavailable, m)
  else
    let newKeyID := master_key_id (Z.of_nat (size (mk_keys m)) + 1) in
    (inr newKeyID, mkKMS newKeyID (<[newKeyID := newKey]> (mk_keys m)) (mk_available m)).

Definition mock_ReWrapKey (nonce oldKeyID newKeyID wrappedDEK : string) (m : MockKMSClient) : error + string :=
  if negb (mk_available m) then inl ErrKMSUnavailable
  else
  match mk_keys m !! oldKeyID with
  | None => inl (ErrInvalidMasterKeyID +:+ ": old key " +:+ oldKeyID)
  | Some oldMasterKey =>
    match mk_keys m !! newKeyID with
    | None => inl (ErrInvalidMasterKeyID +:+ ": new key " +:+ newKeyID)
    | Some newMasterKey =>
      match Decrypt wrappedDEK oldMasterKey with
      | inl err => inl ("unwrap with old master key: " +:+ err)
      | inr plaintextDEK => Encrypt nonce plaintextDEK newMasterKey
      end
    end
  end.

#[export] Instance mock_kms : KMSClient MockKMSClient := {
  kms_WrapKey := mock_WrapKey;
  kms_UnwrapKey := mock_UnwrapKey;
  kms_RotateKey := mock_RotateKey;
  kms_ReWrapKey := mock_ReWrapKey;
  kms_CurrentKeyID := mk_currentKeyID;
  kms_SetAvailable b m := mkKMS (mk_currentKeyID m) (mk_keys m) b
}.

#[export] Instance mock_kms_laws : CipherLaws → KMSLaws MockKMSClient.
Proof.
  intros cl. split; cbn.
  - intros nonce keyID dek w k Hn. unfold mock_WrapKey, mock_UnwrapKey.
    destruct (mk_available k); cbn; [|done]. destruct (mk_keys k !! keyID); [|done]. by apply encrypt_decrypt.
  - intros nonce old new w w' dek k Hn. unfold mock_ReWrapKey, mock_UnwrapKey.
    destruct (mk_available k); cbn; [|done]. destruct (mk_keys k !! old); [|done].
    destruct (mk_keys k !! new); [|done]. intros E Ed. rewrite Ed in E. by eapply encrypt_decrypt.
Qed.

End mock.

(** ** KMSEnvelopeKeyProvider *)

Record KMSEnvelopeKeyProvider (K : Type) := mkEnvelope {
  ek_kms : K;
  ek_currentVersion : Z;
  ek_wrappedDEKs : gmap Z string;
  ek_keyIDs : gmap Z string
}.
Arguments mkEnvelope {K} _ _ _ _.
Arguments ek_kms {K} _.
Arguments ek_currentVersion {K} _.
Arguments ek_wrappedDEKs {K} _.
Arguments ek_keyIDs {K} _.

Section envelope.
Context {K : Type} `{!KMSClient K}.
Implicit Types p : KMSEnvelopeKeyProvider K.

(** [dek] are the random bytes of the new key. *)
Definition GenerateAndWrapKey (nonce dek : string) (version : Z) p :
    (error + string) * KMSEnvelopeKeyProvider K :=
  let keyID := kms_CurrentKeyID (ek_kms p) in
  match kms_WrapKey nonce keyID dek (ek_kms p) with
  | inl err => (inl ("wrap DEK with KMS: " +:+ err), p)
  | inr wrapped =>
    (inr dek, mkEnvelope (ek_kms p)
       (if ek_currentVersion p <=? version then version else ek_currentVersion p)
       (<[version := wrapped]> (ek_wrappedDEKs p)) (<[version := keyID]> (ek_keyIDs p)))
  end.

(** For a KMS client that is not nil. *)
Definition NewKMSEnvelopeKeyProvider (nonce dek : string) (kms : K) : error + KMSEnvelopeKeyProvider K :=
  match GenerateAndWrapKey nonce dek 1 (mkEnvelope kms 1 ∅ ∅) with
  | (inl err, _) => inl ("initialize DEK v1: " +:+ err)
  | (inr _, p) => inr p
  end.

Definition envelope_GetKey (version : Z) p : error + string :=
  match ek_wrappedDEKs p !! version, ek_keyIDs p !! version with
  | Some wrapped, Some keyID =>
    match kms_UnwrapKey keyID wrapped (ek_kms p) with
    | inl err => inl ("KMS unwrap failed for version " +:+ Itoa version +:+ ": " +:+ err)
    | inr dek => inr dek
    end
  | _, _ => inl (ErrKeyNotFound +:+ ": " +:+ Itoa version)
  end.

#[export] Instance envelope_keys : KeyProvider (KMSEnvelopeKeyProvider K) := {
  kp_GetKey := envelope_GetKey;
  kp_CurrentVersion := ek_currentVersion
}.

(** The loop over the wrapped keys, until an error; [nonces] are those of the
    versions. *)
Fixpoint rewrap_loop (nonces : Z → string) (oldKeyID newKeyID : string) (l : list (Z * string)) p :
    option error * KMSEnvelopeKeyProvider K :=
  match l with
  | [] => (None, p)
  | (ver, wrapped) :: l' =>
    if decide (default "" (ek_keyIDs p !! ver) = oldKeyID) then
      match kms_ReWrapKey (nonces ver) oldKeyID newKeyID wrapped (ek_kms p) with
      | inl err => (Some ("re-wrap DEK version " +:+ Itoa ver +:+ ": " +:+ err), p)
      | inr newWrapped =>
        rewrap_loop nonces oldKeyID newKeyID l'
          (mkEnvelope (ek_kms p) (ek_currentVersion p) (<[ver := newWrapped]> (ek_wrappedDEKs p))
             (<[ver := newKeyID]> (ek_keyIDs p)))
      end
    else rewrap_loop nonces oldKeyID newKeyID l' p
  end.

Definition ReWrapKeys (o : Order) (nonces : Z → string) (oldKeyID newKeyID : string) p :
    option error * KMSEnvelopeKeyProvider K :=
  rewrap_loop nonces oldKeyID newKeyID (permute o (map_to_list (ek_wrappedDEKs p))) p.

(** ** Wrapping anew keeps every key *)

Section laws.
Context {kl : KMSLaws K}.

(** Every key that [keys] gives is given by [keys'] as well. *)
Definition keys_kept (keys keys' : KMSEnvelopeKeyProvider K) : Prop :=
  ek_kms keys' = ek_kms keys ∧ ek_currentVersion keys' = ek_currentVersion keys ∧
  ∀ v key, kp_GetKey v keys = inr key → kp_GetKey v keys' = inr key.

#[export] Instance keys_kept_preorder : PreOrder keys_kept.
Proof.
  split; [by intros p|]. intros p1 p2 p3 (E1 & V1 & H1) (E2 & V2 & H2).
  split_and!; [congruence..|]. intros v key H. by apply H2, H1.
Qed.

(** One key that is wrapped anew. *)
Lemma rewrap_one_kept nonce oldKeyID newKeyID ver wrapped newWrapped p :
  String.length nonce = nonce_size → ek_wrappedDEKs p !! ver = Some wrapped →
  default "" (ek_keyIDs p !! ver) = oldKeyID →
  kms_ReWrapKey nonce oldKeyID newKeyID wrapped (ek_kms p) = inr newWrapped →
  keys_kept p (mkEnvelope (ek_kms p) (ek_currentVersion p) (<[ver := newWrapped]> (ek_wrappedDEKs p))
                 (<[ver := newKeyID]> (ek_keyIDs p))).
Proof.
  intros Hn Hw Hid Hr. split_and!; [done..|]. intros v key. cbn. unfold envelope_GetKey. cbn.
  rewrite !lookup_insert. case_decide as Hv; [subst v|done]. rewrite Hw.
  destruct (ek_keyIDs p !! ver) as [id|] eqn:Ek; [|done]. cbn in Hid. subst id.
  destruct (kms_UnwrapKey oldKeyID wrapped (ek_kms p)) as [e|d] eqn:Eu; [done|]. intros ?. simplify_eq.
  by rewrite (kms_rewrap _ _ _ _ _ _ _ Hn Hr Eu).
Qed.

Lemma rewrap_loop_spec nonces oldKeyID newKeyID l : ∀ p,
  (∀ v, String.length (nonces v) = nonce_size) → NoDup l.*1 →
  (∀ v w, (v, w) ∈ l → ek_wrappedDEKs p !! v = Some w) →
  let '(err, p') := rewrap_loop nonces oldKeyID newKeyID l p in
  keys_kept p p' ∧
  (∀ v, is_Some (ek_wrappedDEKs p' !! v) ↔ is_Some (ek_wrappedDEKs p !! v)) ∧
  (∀ v, v ∉ l.*1 → ek_keyIDs p' !! v = ek_keyIDs p !! v) ∧
  (err = None → oldKeyID ≠ newKeyID → ∀ v, v ∈ l.*1 → default "" (ek_keyIDs p' !! v) ≠ oldKeyID).
Proof.
  induction l as [|[ver wrapped] l IH]; intros p Hn Hnd Hl; cbn [rewrap_loop].
  { split_and!; [done|done|done|set_solver]. }
  apply NoDup_cons in Hnd as [Hnew Hnd]. change ((ver, wrapped).1) with ver in Hnew.
  assert (ek_wrappedDEKs p !! ver = Some wrapped) as Hw by (apply Hl; left).
  case_decide as Hid.
  - destruct (kms_ReWrapKey _ _ _ _ _) as [err|newWrapped] eqn:Er.
    { split; [reflexivity|]. split; [intros v; reflexivity|]. split; [intros v _; reflexivity|].
      intros He; discriminate He. }
    specialize (IH (mkEnvelope (ek_kms p) (ek_currentVersion p) (<[ver := newWrapped]> (ek_wrappedDEKs p))
      (<[ver := newKeyID]> (ek_keyIDs p))) Hn Hnd).
    destruct (rewrap_loop _ _ _ _ _) as [err p'] eqn:E. destruct IH as (Hk & Hd & Hids & Hold).
    { intros v w Hv. cbn. rewrite lookup_insert_ne; [apply Hl; by right|].
      intros <-. by apply Hnew, (list_elem_of_fmap_2 fst _ (ver, w)). }
    split_and!.
    + etransitivity; [|exact Hk].
      exact (rewrap_one_kept (nonces ver) _ _ _ _ _ _ (Hn ver) Hw Hid Er).
    + intros v. rewrite Hd. cbn. rewrite lookup_insert_is_Some'. split; [|by right].
      intros [<-|?]; [by rewrite Hw|done].
    + intros v [Hv Hvl]%not_elem_of_cons. rewrite Hids by done. cbn. by rewrite lookup_insert_ne.
    + intros He Hne v [->|Hv]%elem_of_cons; [|by apply Hold].
      rewrite Hids by done. cbn. by rewrite lookup_insert_eq.
  - specialize (IH p Hn Hnd). destruct (rewrap_loop _ _ _ _ _) as [err p'] eqn:E.
    destruct IH as (Hk & Hd & Hids & Hold); [intros v w Hv; apply Hl; by right|].
    split_and!; [done|done| |].
    + intros v [Hv Hvl]%not_elem_of_cons. by apply Hids.
    + intros He Hne v [->|Hv]%elem_of_cons; [|by apply Hold]. cbn. by rewrite Hids.
Qed.

Lemma get_secret_kept {ci : Cipher} (keys keys' : KMSEnvelopeKeyProvider K) ps ds project name r :
  keys_kept keys keys' →
  GetSecret project name (mkSecrets keys ps ds) = inr r → GetSecret project name (mkSecrets keys' ps ds) = inr r.
Proof.
  intros (_ & _ & H). unfold GetSecret. cbn [ms_projectSecrets ms_keyProvider].
  destruct (ps !! _) as [sec|]; [|done]. destruct (kp_GetKey (sc_KeyVersion sec) keys) eqn:E; [done|].
  by rewrite (H _ _ E).
Qed.

(** Wrapping the data keys anew under another master key never loses one, even
    when it stops at an error part-way: every key version that could be read
    still gives the same key, every secret that could be read is still read, and
    without an error no data key is wrapped under the old master key any more. *)
Theorem rewrap_keeps_secrets {ci : Cipher} o nonces oldKeyID newKeyID p err p' :
  (∀ v, String.length (nonces v) = nonce_size) →
  ReWrapKeys o nonces oldKeyID newKeyID p = (err, p') →
  (∀ v key, kp_GetKey v p = inr key → kp_GetKey v p' = inr key) ∧
  (∀ ps ds project name r, GetSecret project name (mkSecrets p ps ds) = inr r →
     GetSecret project name (mkSecrets p' ps ds) = inr r) ∧
  (err = None → oldKeyID ≠ newKeyID →
     ∀ v w, ek_wrappedDEKs p' !! v = Some w → ek_keyIDs p' !! v ≠ Some oldKeyID).
Proof.
  intros Hn E. unfold ReWrapKeys in E.
  pose proof (rewrap_loop_spec nonces oldKeyID newKeyID (permute o (map_to_list (ek_wrappedDEKs p))) p Hn) as H.
  rewrite E in H. destruct H as (Hk & Hd & _ & Hold).
  - rewrite (permute_perm o). apply NoDup_fst_map_to_list.
  - intros v w. by rewrite elem_of_permute, elem_of_map_to_list.
  - split_and!; [by apply Hk|intros; by eapply get_secret_kept|].
    intros He Hne v w Hw Hid. apply (Hold He Hne v); [|by rewrite Hid].
    destruct (proj1 (Hd v) (mk_is_Some _ _ Hw)) as [w0 Hw0].
    apply (list_elem_of_fmap_2 fst _ (v, w0)). by rewrite elem_of_permute, elem_of_map_to_list.
Qed.

End laws.
End envelope.

(** ** A rotation of the master key *)

Section demo.
#[local] Existing Instance clear_cipher.
#[local] Existing Instance clear_cipher_laws.

Definition demo_nonce : string := "nonce-of-12b".
Definition demo_dek : string := "0123456789abcdef0123456789abcdef".
Definition demo_kms : MockKMSClient :=
  (mock_RotateKey "AAAAAAAAAAAAAAAABBBBBBBBBBBBBBBB" (NewMockKMSClient "CCCCCCCCCCCCCCCCDDDDDDDDDDDDDDDD")).2.

(** A provider with its key wrapped under the first master key, and the KMS
    rotated since. *)
Definition demo_envelope : KMSEnvelopeKeyProvider MockKMSClient :=
  mkEnvelope demo_kms 1 {[1 := demo_nonce +:+ demo_dek]} {[1 := master_key_id 1]}.

Lemma rewrap_keeps_secrets_witness :
  let '(err, p') := ReWrapKeys order_id (λ _, demo_nonce) (master_key_id 1) (master_key_id 2) demo_envelope in
  err = None ∧ ek_keyIDs p' !! 1 = Some (master_key_id 2) ∧ kp_GetKey 1 p' = inr demo_dek.
Proof.
  destruct (ReWrapKeys order_id (λ _, demo_nonce) (master_key_id 1) (master_key_id 2) demo_envelope)
    as [err p'] eqn:E.
  pose proof (rewrap_keeps_secrets order_id (λ _, demo_nonce) (master_key_id 1) (master_key_id 2)
    demo_envelope err p' (λ _, eq_refl) E) as (Hk & _ & _).
  assert (err = None ∧ ek_keyIDs p' !! 1 = Some (master_key_id 2)) as [-> Hid].
  { revert E. vm_compute. intros E. injection E as <- <-. done. }
  split; [done|]. split; [exact Hid|]. apply Hk. vm_compute. reflexivity.
Defined.

End demo.

(** ** LocalStackKMSClient: internal/secrets/kms_localstack.go

    The client of a real service, over HTTP: JSON with the values in base64. The
    service is behind the class [HTTPClient]. *)

Record LocalStackRequest := mkLsRequest {
  lr_Action : string;
  lr_RequestAt : Time;
  lr_StatusCode : Z
}.

Record LocalStackKMSClient := mkLocalStack {
  ls_endpoint : string;
  ls_region : string;
  ls_accessKey : string;
  ls_secretKey : string;
  ls_currentKeyID : string;
  ls_requestLog : list LocalStackRequest
}.

#[export] Instance LocalStack_eta : Settable LocalStackKMSClient := λ c,
  mkLocalStack (ls_endpoint c) (ls_region c) (ls_accessKey c) (ls_secretKey c) (ls_currentKeyID c) (ls_requestLog c).

Definition NewLocalStackKMSClient (endpoint region accessKey secretKey keyID : string) : LocalStackKMSClient :=
  mkLocalStack (trim_slashes endpoint) region accessKey secretKey keyID [].

(** The verb [%v] on a decoded object. *)
Class AnyText := { any_text : gmap string Json → string }.

(** The members of an object in a map: the last one of a key stays. *)
Definition members (l : list (string * Json)) : gmap string Json := fold_left (λ m kv, <[kv.1 := kv.2]> m) l ∅.

Definition string_at (key : string) (m : gmap string Json) : option string :=
  match m !! key with Some (JStr s) => Some s | _ => None end.

Definition object_at (key : string) (m : gmap string Json) : option (gmap string Json) :=
  match m !! key with Some (JObj l) => Some (members l) | _ => None end.

Section localstack.
Context {cr : Crypto} {jt : JsonText} {ft : FloatText} {at_ : AnyText} {X : Type} {net : HTTPClient X}.
Implicit Types (c : LocalStackKMSClient) (x : X).

(** A number that a float64 cannot hold is an error, wherever it is. *)
Fixpoint number_error (v : Json) : option error :=
  match v with
  | JNum n =>
    match ft_parse n with
    | Some _ => None
    | None => Some ("json: cannot unmarshal number " +:+ n +:+ " into Go value of type float64")
    end
  | JArr l => foldr (λ v err, keep_first (number_error v) err) None l
  | JObj l => foldr (λ kv err, keep_first (number_error kv.2) err) None l
  | _ => None
  end.

(** [json.Unmarshal] into a nil [map[string]any]. *)
Definition unmarshal_any (body : string) : error + gmap string Json :=
  match parse_whole body with
  | None => inl (jt_syntax_error body)
  | Some JNull => inr ∅
  | Some (JObj l) => match number_error (JObj l) with Some err => inl err | None => inr (members l) end
  | Some v => inl (top_mismatch "map[string]interface {}" (value_kind v))
  end.

Definition kms_headers (action : string) c : list (string * string) :=
  [("Content-Type", "application/x-amz-json-1.1"); ("X-Amz-Target", "TrentService." +:+ action);
   ("Authorization", "AWS4-HMAC-SHA256 Credential=" +:+ ls_accessKey c +:+ "/20240101/" +:+ ls_region c
      +:+ "/kms/aws4_request, SignedHeaders=host, Signature=fakesig")].

Definition kms_request (action : string) (body : Json) c : OutRequest :=
  mkOut "POST" (ls_endpoint c +:+ "/") (kms_headers action c) (json_text body).

(** The log has an entry for every request that was made, also a failed one. *)
Definition doKMSRequest (start : Time) (action : string) (body : Json) c x :
    (error + gmap string Json) * LocalStackKMSClient * X :=
  match http_NewRequest "POST" (ls_endpoint c +:+ "/") with
  | Some err => (inl ("create request: " +:+ err), c, x)
  | None =>
    let '(r, x) := http_Do (kms_request action body c) x in
    let status := match r with inr resp => ir_Code resp | inl _ => 0 end in
    let c := c <| ls_requestLog ::= λ l, l ++ [mkLsRequest action start status] |> in
    (match r with
     | inl err => inl ("HTTP " +:+ action +:+ ": " +:+ err)
     | inr resp =>
       match ir_ReadErr resp with
       | Some err => inl ("read response: " +:+ err)
       | None =>
         if 400 <=? ir_Code resp
         then inl ("KMS " +:+ action +:+ " returned HTTP " +:+ Itoa (ir_Code resp) +:+ ": " +:+ ir_Body resp)
         else match unmarshal_any (ir_Body resp) with
              | inl err => inl ("decode response: " +:+ err)
              | inr m => inr m
              end
       end
     end, c, x)
  end.

(** The bytes in a member of the answer. *)
Definition answered_bytes (what key kind : string) (r : error + gmap string Json) : error + string :=
  match r with
  | inl err => inl (what +:+ ": " +:+ err)
  | inr resp =>
    match string_at key resp with
    | None => inl (what +:+ ": unexpected response shape: " +:+ any_text resp)
    | Some b64 =>
      match base64_Decode b64 with
      | inl err => inl (what +:+ ": decode " +:+ kind +:+ ": " +:+ err)
      | inr b => inr b
      end
    end
  end.

(** The bodies; the encoder writes the keys of a map in order. *)
Definition encrypt_body (keyID dek : string) : Json :=
  JObj [("KeyId", JStr keyID); ("Plaintext", JStr (base64_Encode dek))].
Definition decrypt_body (keyID wrapped : string) : Json :=
  JObj [("CiphertextBlob", JStr (base64_Encode wrapped)); ("KeyId", JStr keyID)].
Definition create_key_body : Json :=
  JObj [("Description", JStr "nebula-gate-test-rotation-key"); ("KeyUsage", JStr "ENCRYPT_DECRYPT")].

Definition ls_WrapKey (now : Time) (keyID dek : string) c x : (error + string) * LocalStackKMSClient * X :=
  let '(r, c, x) := doKMSRequest now "Encrypt" (encrypt_body keyID dek) c x in
  (answered_bytes "KMS Encrypt" "CiphertextBlob" "ciphertext" r, c, x).

Definition ls_UnwrapKey (now : Time) (keyID wrapped : string) c x : (error + string) * LocalStackKMSClient * X :=
  let '(r, c, x) := doKMSRequest now "Decrypt" (decrypt_body keyID wrapped) c x in
  (answered_bytes "KMS Decrypt" "Plaintext" "plaintext" r, c, x).

Definition ls_RotateKey (now : Time) c x : (error + string) * LocalStackKMSClient * X :=
  let '(r, c, x) := doKMSRequest now "CreateKey" create_key_body c x in
  match r with
  | inl err => (inl ("KMS CreateKey: " +:+ err), c, x)
  | inr resp =>
    match object_at "KeyMetadata" resp with
    | None => (inl ("KMS CreateKey: unexpected response: " +:+ any_text resp), c, x)
    | Some meta =>
      match string_at "KeyId" meta with
      | None => (inl ("KMS CreateKey: KeyId not a string: " +:+ any_text meta), c, x)
      | Some newKeyID => (inr newKeyID, c <| ls_currentKeyID := newKeyID |>, x)
      end
    end
  end.

Definition ls_ReWrapKey (now now' : Time) (oldKeyID newKeyID wrapped : string) c x :
    (error + string) * LocalStackKMSClient * X :=
  let '(r, c, x) := ls_UnwrapKey now oldKeyID wrapped c x in
  match r with
  | inl err => (inl ("ReWrapKey decrypt: " +:+ err), c, x)
  | inr plaintext =>
    let '(r, c, x) := ls_WrapKey now' newKeyID plaintext c x in
    (match r with inl err => inl ("ReWrapKey re-encrypt: " +:+ err) | inr w => inr w end, c, x)
  end.

(** Availability is the service's. *)
Definition ls_SetAvailable (_ : bool) c : LocalStackKMSClient := c.
Definition RequestLog c : list LocalStackRequest := ls_requestLog c.

(** *** What the client needs of the service *)

(** A text or bytes that the requests can carry as they are. *)
Definition carried (dek : string) : Prop := isASCII (base64_Encode dek) = true.

(** The answer 200 with an object. *)
Definition gives (r : (error + InResponse) * X) (m : gmap string Json) (x : X) : Prop :=
  ∃ resp, r = (inr resp, x) ∧ ir_Code resp = 200 ∧ ir_ReadErr resp = None ∧ unmarshal_any (ir_Body resp) = inr m.

(** What the service knows: its master keys, and what it sealed under them. *)
Class KMSView := {
  ks_has : string → X → Prop;
  ks_seals : string → string → string → X → Prop
}.

Definition ks_keeps {kv : KMSView} (x x' : X) : Prop :=
  (∀ k, ks_has k x → ks_has k x') ∧ (∀ k d w, ks_seals k d w x → ks_seals k d w x').

(** A service at [endpoint] that keeps its keys and opens what it sealed, as
    KMS documents for CreateKey, Encrypt and Decrypt. *)
Class KMSService (endpoint : string) `{!KMSView} : Prop := {
  ks_new : http_NewRequest "POST" (endpoint +:+ "/") = None;
  ks_create c x : ls_endpoint c = endpoint → ∃ m meta key x',
    gives (http_Do (kms_request "CreateKey" create_key_body c) x) m x'
    ∧ object_at "KeyMetadata" m = Some meta ∧ string_at "KeyId" meta = Some key
    ∧ isASCII key = true ∧ ks_has key x' ∧ ks_keeps x x';
  ks_encrypt c key dek x : ls_endpoint c = endpoint → isASCII key = true → carried dek → ks_has key x → ∃ m w x',
    gives (http_Do (kms_request "Encrypt" (encrypt_body key dek) c) x) m x'
    ∧ string_at "CiphertextBlob" m = Some (base64_Encode w)
    ∧ carried w ∧ ks_seals key dek w x' ∧ ks_keeps x x';
  ks_decrypt c key dek w x : ls_endpoint c = endpoint → isASCII key = true → carried w → ks_seals key dek w x → ∃ m x',
    gives (http_Do (kms_request "Decrypt" (decrypt_body key w) c) x) m x'
    ∧ string_at "Plaintext" m = Some (base64_Encode dek) ∧ ks_keeps x x'
}.

(** The client after a request. *)
Definition logged (now : Time) (action : string) (status : Z) c : LocalStackKMSClient :=
  c <| ls_requestLog ::= λ l, l ++ [mkLsRequest action now status] |>.

Lemma doKMSRequest_gives now action body c x m x' :
  http_NewRequest "POST" (ls_endpoint c +:+ "/") = None →
  gives (http_Do (kms_request action body c) x) m x' →
  doKMSRequest now action body c x = (inr m, logged now action 200 c, x').
Proof.
  intros Hn (resp & Hd & Hc & Hr & Hu). unfold doKMSRequest. by rewrite Hn, Hd, Hc, Hr, Hu.
Qed.

(** A request changes nothing of the client but its log, which has one more
    entry when the request was made. *)
Lemma doKMSRequest_client now action body c x :
  let '(r, c', x') := doKMSRequest now action body c x in
  (c' = c ∧ x' = x ∧ ∃ err, r = inl err) ∨ ∃ status, c' = logged now action status c.
Proof.
  unfold doKMSRequest. destruct (http_NewRequest _ _); [left; eauto|]. destruct (http_Do _ _) as [[err|resp] y]; eauto.
Qed.

Section service.
Context {keypair : string → string → Prop} {crl : CryptoLaws keypair} {kv : KMSView}.

Lemma service_new endpoint c : KMSService endpoint → ls_endpoint c = endpoint →
  http_NewRequest "POST" (ls_endpoint c +:+ "/") = None.
Proof. intros Hs ->. apply ks_new. Qed.

Lemma wrap_service endpoint now key dek c x :
  KMSService endpoint → ls_endpoint c = endpoint → isASCII key = true → carried dek → ks_has key x →
  ∃ w x', ls_WrapKey now key dek c x = (inr w, logged now "Encrypt" 200 c, x')
    ∧ carried w ∧ ks_seals key dek w x' ∧ ks_keeps x x'.
Proof.
  intros Hs He Hk Hd Hh. destruct (ks_encrypt c key dek x He Hk Hd Hh) as (m & w & x' & Hg & Hm & H).
  exists w, x'. split; [|done]. unfold ls_WrapKey.
  rewrite (doKMSRequest_gives _ _ _ _ _ _ _ (service_new _ _ Hs He) Hg). unfold answered_bytes.
  by rewrite Hm, (base64_roundtrip (keypair := keypair)).
Qed.

Lemma unwrap_service endpoint now key dek w c x :
  KMSService endpoint → ls_endpoint c = endpoint → isASCII key = true → carried w → ks_seals key dek w x →
  ∃ x', ls_UnwrapKey now key w c x = (inr dek, logged now "Decrypt" 200 c, x') ∧ ks_keeps x x'.
Proof.
  intros Hs He Hk Hw Hl. destruct (ks_decrypt c key dek w x He Hk Hw Hl) as (m & x' & Hg & Hm & H).
  exists x'. split; [|done]. unfold ls_UnwrapKey.
  rewrite (doKMSRequest_gives _ _ _ _ _ _ _ (service_new _ _ Hs He) Hg). unfold answered_bytes.
  by rewrite Hm, (base64_roundtrip (keypair := keypair)).
Qed.

Lemma rotate_service endpoint now c x :
  KMSService endpoint → ls_endpoint c = endpoint →
  ∃ key x', ls_RotateKey now c x = (inr key, logged now "CreateKey" 200 c <| ls_currentKeyID := key |>, x')
    ∧ isASCII key = true ∧ ks_has key x' ∧ ks_keeps x x'.
Proof.
  intros Hs He. destruct (ks_create c x He) as (m & meta & key & x' & Hg & Hm & Hk & H).
  exists key, x'. split; [|done]. unfold ls_RotateKey.
  rewrite (doKMSRequest_gives _ _ _ _ _ _ _ (service_new _ _ Hs He) Hg). by rewrite Hm, Hk.
Qed.

(** A data key that was wrapped under the current master key survives a
    rotation: rewrapped from the old key to the new one, it is unwrapped with
    the new one. Every step is one request of the service and one entry of the
    log, a rewrap two. *)
Theorem rotation_over_http endpoint c x dek (t : nat → Time) :
  KMSService endpoint → ls_endpoint c = endpoint → isASCII (ls_currentKeyID c) = true → carried dek →
  ks_has (ls_currentKeyID c) x →
  let old := ls_currentKeyID c in
  ∃ w x1 new c2 x2 w' c3 x3 c4 x4,
    ls_WrapKey (t 0%nat) old dek c x = (inr w, logged (t 0%nat) "Encrypt" 200 c, x1)
    ∧ ls_RotateKey (t 1%nat) (logged (t 0%nat) "Encrypt" 200 c) x1 = (inr new, c2, x2) ∧ ls_currentKeyID c2 = new
    ∧ ls_ReWrapKey (t 2%nat) (t 3%nat) old new w c2 x2 = (inr w', c3, x3)
    ∧ ls_UnwrapKey (t 4%nat) new w' c3 x3 = (inr dek, c4, x4)
    ∧ (lr_Action <$> RequestLog c4) = (lr_Action <$> RequestLog c) ++ ["Encrypt"; "CreateKey"; "Decrypt"; "Encrypt"; "Decrypt"].
Proof.
  intros Hs He Hk Hd Hh old.
  destruct (wrap_service endpoint (t 0%nat) old dek c x) as (w & x1 & E1 & Hw & Hl1 & Hk1); [done..|].
  destruct (rotate_service endpoint (t 1%nat) (logged (t 0%nat) "Encrypt" 200 c) x1) as (new & x2 & E2 & Hn & Hh2 & Hk2); [done..|].
  set (c2 := logged (t 1%nat) "CreateKey" 200 (logged (t 0%nat) "Encrypt" 200 c) <| ls_currentKeyID := new |>) in *.
  destruct (unwrap_service endpoint (t 2%nat) old dek w c2 x2) as (x3 & E3 & Hk3); [done..|by apply Hk2|].
  destruct (wrap_service endpoint (t 3%nat) new dek (logged (t 2%nat) "Decrypt" 200 c2) x3) as (w' & x4 & E4 & Hw' & Hl4 & Hk4);
    [done..|by apply Hk3|].
  destruct (unwrap_service endpoint (t 4%nat) new dek w' (logged (t 3%nat) "Encrypt" 200 (logged (t 2%nat) "Decrypt" 200 c2)) x4)
    as (x5 & E5 & _); [done..|].
  exists w, x1, new, c2, x2, w'. eexists. exists x4. eexists. exists x5. split_and!; [exact E1|exact E2|done| |exact E5|].
  - unfold ls_ReWrapKey. by rewrite E3, E4.
  - unfold RequestLog. cbn. by rewrite !fmap_app, <- !app_assoc.
Qed.

End service.
End localstack.

(** ** A service that seals a key by writing the name of the master key before it *)

Section service_demo.
#[local] Existing Instance toy_crypto.
#[local] Existing Instance toy_crypto_laws.
#[local] Existing Instance json_ascii.
#[local] Instance no_floats : FloatText := {| ft_g := λ _, ""; ft_json := λ _, ""; ft_parse := λ _, None |}.
#[local] Instance no_text : AnyText := {| any_text := λ _, "map" |}.

Definition toy_seal (key dek : string) : string := key +:+ "/" +:+ dek.

(** The answer of the service, with [n] keys created, to an action. *)
Definition toy_answer (action : string) (body : gmap string Json) (n : nat) : option (Json * nat) :=
  if String.eqb action "TrentService.CreateKey" then
    Some (JObj [("KeyMetadata", JObj [("KeyId", JStr "cmk-2")])], S n)
  else
    match string_at "KeyId" body with
    | None => None
    | Some key =>
      if String.eqb action "TrentService.Encrypt" then
        match string_at "Plaintext" body with
        | Some dek => Some (JObj [("CiphertextBlob", JStr (toy_seal key dek)); ("KeyId", JStr key)], n)
        | None => None
        end
      else
        match string_at "CiphertextBlob" body with
        | Some w => Some (JObj [("Plaintext", JStr (TrimPrefix w (key +:+ "/"))); ("KeyId", JStr key)], n)
        | None => None
        end
    end.

#[local] Instance toy_net : HTTPClient nat := {|
  http_NewRequest _ _ := None;
  http_Do r n :=
    match unmarshal_any (or_Body r) with
    | inl err => (inr (mkIn 400 [] err None), n)
    | inr body =>
      match toy_answer (response_Get "X-Amz-Target" (or_Header r)) body n with
      | Some (v, n) => (inr (mkIn 200 [] (json_text v) None), n)
      | None => (inr (mkIn 400 [] "ValidationException" None), n)
      end
    end |}.

#[local] Instance toy_view : KMSView (X := nat) := {| ks_has _ _ := True; ks_seals key dek w _ := w = toy_seal key dek |}.

Lemma unmarshal_map_text l : json_ok 0 (JObj l) = true → number_error (JObj l) = None →
  unmarshal_any (json_text (JObj l)) = inr (members l).
Proof.
  intros Hok Hn. unfold unmarshal_any. pose proof (json_roundtrip (JObj l) "" Hok (or_introl eq_refl)) as H.
  rewrite str_app_nil in H. by rewrite H, Hn.
Qed.

Lemma isASCII_seal key dek : isASCII key = true → isASCII dek = true → isASCII (toy_seal key dek) = true.
Proof. intros Hk Hd. unfold toy_seal. by rewrite !isASCII_app, Hk, Hd. Qed.

Lemma toy_gives action body c n m v n' :
  unmarshal_any (json_text body) = inr m →
  toy_answer ("TrentService." +:+ action) m n = Some (JObj v, n') →
  json_ok 0 (JObj v) = true → number_error (JObj v) = None →
  gives (http_Do (kms_request action body c) n) (members v) n'.
Proof.
  intros Hm Ha Hok Hn. eexists. split.
  { unfold http_Do, toy_net, kms_request, or_Body. rewrite Hm.
    change (response_Get "X-Amz-Target" _) with ("TrentService." +:+ action). by rewrite Ha. }
  split_and!; [done|done|]. cbn. by apply unmarshal_map_text.
Qed.

Lemma toy_service : KMSService "http://localhost:4566".
Proof.
  split; [done|..].
  - intros c x _. 
    exists (members [("KeyMetadata", JObj [("KeyId", JStr "cmk-2")])]), (members [("KeyId", JStr "cmk-2")]), "cmk-2", (S x).
    split_and!; [|reflexivity..|done|done].
    eapply toy_gives; [by apply unmarshal_map_text|reflexivity..].
  - intros c key dek x _ Hk Hd _. 
    exists (members [("CiphertextBlob", JStr (toy_seal key dek)); ("KeyId", JStr key)]), (toy_seal key dek), x.
    split_and!; [|reflexivity|by apply isASCII_seal|done|done].
    assert (json_ok 0 (encrypt_body key dek) = true) as Hok by (cbn; by rewrite Hk, Hd).
    eapply toy_gives; [by apply unmarshal_map_text|reflexivity| |done].
    cbn. by rewrite isASCII_seal, Hk.
  - intros c key dek w x _ Hk Hw Hs. cbn in Hs. subst w.
    exists (members [("Plaintext", JStr dek); ("KeyId", JStr key)]), x.
    assert (isASCII dek = true) as Hd.
    { unfold carried in Hw. cbn in Hw. unfold toy_seal in Hw. rewrite !isASCII_app in Hw. by destruct (isASCII dek), (isASCII key). }
    assert (json_ok 0 (decrypt_body key (toy_seal key dek)) = true) as Hok by (cbn; by rewrite Hk, isASCII_seal).
    assert (TrimPrefix (toy_seal key dek) (key +:+ "/") = dek) as Htrim.
    { unfold toy_seal. change (key +:+ "/" +:+ dek) with (key +:+ ("/" +:+ dek)). rewrite <- str_app_assoc. apply TrimPrefix_app. }
    split_and!; [|reflexivity|done].
    eapply toy_gives; [by apply unmarshal_map_text| | |done].
    { transitivity (Some (JObj [("Plaintext", JStr (TrimPrefix (toy_seal key dek) (key +:+ "/"))); ("KeyId", JStr key)], x));
        [reflexivity|by rewrite Htrim]. }
    cbn. by rewrite Hd, Hk.
Qed.

Definition local_client : LocalStackKMSClient :=
  NewLocalStackKMSClient "http://localhost:4566/" "us-east-1" "test" "test" "cmk-1".

Lemma rotation_over_http_witness :
  ∃ w x1 new c2 x2 w' c3 x3 c4 x4,
    ls_WrapKey 0 "cmk-1" "data-key" local_client 0%nat = (inr w, logged 0 "Encrypt" 200 local_client, x1)
    ∧ ls_RotateKey 1 (logged 0 "Encrypt" 200 local_client) x1 = (inr new, c2, x2) ∧ ls_currentKeyID c2 = new
    ∧ ls_ReWrapKey 2 3 "cmk-1" new w c2 x2 = (inr w', c3, x3)
    ∧ ls_UnwrapKey 4 new w' c3 x3 = (inr "data-key", c4, x4)
    ∧ (lr_Action <$> RequestLog c4) = [] ++ ["Encrypt"; "CreateKey"; "Decrypt"; "Encrypt"; "Decrypt"].
Proof.
  exact (rotation_over_http "http://localhost:4566" local_client 0%nat "data-key" Z.of_nat toy_service
    eq_refl eq_refl eq_refl I).
Defined.

(** An answer that is not an object of strings, and a number that is too large. *)
Example odd_answers :
  unmarshal_any "[1]" = inl "json: cannot unmarshal array into Go value of type map[string]interface {}"
  ∧ unmarshal_any "null" = inr ∅
  ∧ answered_bytes "KMS Encrypt" "CiphertextBlob" "ciphertext" (inr ∅) = inl "KMS Encrypt: unexpected response shape: map".
Proof. by vm_compute. Qed.

End service_demo.
