(* ===== verification/ApiData.v ===== *)
(** * The messages of the API: internal/api/dto.go

    The requests and responses of the handlers, with the requests and responses
    of handlers_secrets.go, handlers_webhooks.go and handlers_deployments.go:
    the fields that a request is decoded into, and the JSON of a response. The
    JSON of a map that is empty is an empty object; Go writes null for one that
    is nil. *)

From stdpp Require Import base option gmap strings list pretty.
From Stdlib Require Import ZArith Lia Ascii.
From S2P Require Import Prelude GoLib GoFloat GoTime Workers Deployments Fleet Platform Service Projects Policy Secrets Http Json JsonDecode.

(** ** Requests *)

Record ProjectCreateRequest := mkProjectCreate {
  pq_Name : string;
  pq_Description : string;
  pq_RepoURL : string;
  pq_DefaultBranch : string;
  pq_RootDir : string;
  pq_WebhookSecret : string
}.

#[export] Instance ProjectCreateRequest_eta : Settable ProjectCreateRequest := λ r,
  mkProjectCreate (pq_Name r) (pq_Description r) (pq_RepoURL r) (pq_DefaultBranch r) (pq_RootDir r) (pq_WebhookSecret r).

Record DeploymentCreateRequest := mkDeploymentCreate {
  dq_Image : string;
  dq_SourcePath : string;
  dq_Revision : string;
  dq_InstanceCount : Z;
  dq_Env : gmap string string;
  dq_Labels : gmap string string;
  dq_Ports : list PortSpec
}.

#[export] Instance DeploymentCreateRequest_eta : Settable DeploymentCreateRequest := λ r,
  mkDeploymentCreate (dq_Image r) (dq_SourcePath r) (dq_Revision r) (dq_InstanceCount r) (dq_Env r) (dq_Labels r) (dq_Ports r).

(** [ScaleRequest] has the field DesiredReplicas. *)
Record ScaleRequest := mkScaleRequest { sq_DesiredReplicas : Z }.

Record SecretCreateRequest := mkSecretCreate { cq_Name : string; cq_Value : string }.

#[export] Instance SecretCreateRequest_eta : Settable SecretCreateRequest := λ r,
  mkSecretCreate (cq_Name r) (cq_Value r).

(** [SecretRotateRequest] has the field Value. *)
Record SecretRotateRequest := mkSecretRotate { tq_Value : string }.

Record WebhookPayload := mkWebhook {
  wp_Ref : string;
  wp_After : string;
  wp_SourcePath : string;
  wp_Image : string;
  wp_InstanceCount : Z
}.

#[export] Instance WebhookPayload_eta : Settable WebhookPayload := λ r,
  mkWebhook (wp_Ref r) (wp_After r) (wp_SourcePath r) (wp_Image r) (wp_InstanceCount r).

Section decode.
Context {uni : Unicode} {jt : JsonText} {ft : FloatText}.

Definition project_fields : list (Field ProjectCreateRequest) :=
  let st := "ProjectCreateRequest" in
  [("name", into_string st "name" (λ s r, r <| pq_Name := s |>));
   ("description", into_string st "description" (λ s r, r <| pq_Description := s |>));
   ("repo_url", into_string st "repo_url" (λ s r, r <| pq_RepoURL := s |>));
   ("default_branch", into_string st "default_branch" (λ s r, r <| pq_DefaultBranch := s |>));
   ("root_dir", into_string st "root_dir" (λ s r, r <| pq_RootDir := s |>));
   ("webhook_secret", into_string st "webhook_secret" (λ s r, r <| pq_WebhookSecret := s |>))].

Definition port_fields : list (Field PortSpec) :=
  let st := "PortSpec" in
  [("host_port", into_int st "ports.host_port" "int" (λ n p, p <| ps_HostPort := n |>));
   ("container_port", into_int st "ports.container_port" "int" (λ n p, p <| ps_ContainerPort := n |>));
   ("protocol", into_string st "ports.protocol" (λ s p, p <| ps_Protocol := s |>))].

Definition into_port : Store PortSpec :=
  decode_struct true port_fields (λ kind, type_error kind "DeploymentCreateRequest" "ports" "deployments.PortSpec").

Definition deployment_fields : list (Field DeploymentCreateRequest) :=
  let st := "DeploymentCreateRequest" in
  [("image", into_string st "image" (λ s r, r <| dq_Image := s |>));
   ("source_path", into_string st "source_path" (λ s r, r <| dq_SourcePath := s |>));
   ("revision", into_string st "revision" (λ s r, r <| dq_Revision := s |>));
   ("instance_count", into_int st "instance_count" "int" (λ n r, r <| dq_InstanceCount := n |>));
   ("env", into_map st "env" dq_Env (λ m r, r <| dq_Env := m |>));
   ("labels", into_map st "labels" dq_Labels (λ m r, r <| dq_Labels := m |>));
   ("ports", into_list st "ports" "deployments.PortSpec" into_port (mkPortSpec 0 0 "") dq_Ports
               (λ l r, r <| dq_Ports := l |>))].

Definition scale_fields : list (Field ScaleRequest) :=
  [("desired_replicas", into_int "ScaleRequest" "desired_replicas" "int" (λ n _, mkScaleRequest n))].

Definition secret_fields : list (Field SecretCreateRequest) :=
  let st := "SecretCreateRequest" in
  [("name", into_string st "name" (λ s r, r <| cq_Name := s |>));
   ("value", into_string st "value" (λ s r, r <| cq_Value := s |>))].

Definition rotate_fields : list (Field SecretRotateRequest) :=
  [("value", into_string "SecretRotateRequest" "value" (λ s _, mkSecretRotate s))].

Definition webhook_fields : list (Field WebhookPayload) :=
  let st := "WebhookPayload" in
  [("ref", into_string st "ref" (λ s r, r <| wp_Ref := s |>));
   ("after", into_string st "after" (λ s r, r <| wp_After := s |>));
   ("source_path", into_string st "source_path" (λ s r, r <| wp_SourcePath := s |>));
   ("image", into_string st "image" (λ s r, r <| wp_Image := s |>));
   ("instance_count", into_int st "instance_count" "int" (λ n r, r <| wp_InstanceCount := n |>))].

(** autoscaler/policy.go *)
Definition policy_fields : list (Field ScalingPolicy) :=
  let st := "ScalingPolicy" in
  [("project_id", into_string st "project_id" (λ s p, p <| sp_ProjectID := s |>));
   ("metric_type", into_string st "metric_type" (λ s p, p <| sp_MetricType := s |>));
   ("target_value", into_float st "target_value" (λ x p, p <| Policy.sp_TargetValue := x |>));
   ("tolerance", into_float st "tolerance" (λ x p, p <| sp_Tolerance := x |>));
   ("min_replicas", into_int st "min_replicas" "int" (λ n p, p <| sp_MinReplicas := n |>));
   ("max_replicas", into_int st "max_replicas" "int" (λ n p, p <| sp_MaxReplicas := n |>));
   ("scale_up_cooldown", into_int st "scale_up_cooldown" "time.Duration" (λ n p, p <| sp_ScaleUpCooldown := n |>));
   ("scale_down_cooldown", into_int st "scale_down_cooldown" "time.Duration" (λ n p, p <| sp_ScaleDownCooldown := n |>))].

End decode.

(** ** Responses *)

Definition json_int (n : Z) : Json := JNum (Itoa n).

(** A time in the layout of the API, and as a [time.Time] is encoded. *)
Definition json_date (t : Time) : Json := JStr (format_rfc3339 t).
Definition json_time (t : Time) : Json := JStr (format_rfc3339_nano t).

(** [ErrorResponse], with and without its optional fields. *)
Definition ErrorResponse (msg depID status : string) : Json :=
  JObj ([("error", JStr msg)] ++ omit_empty "deployment_id" depID ++ omit_empty "status" status).

Definition newProjectResponse (p : Project) : Json :=
  JObj ([("id", JStr (p_ID p)); ("name", JStr (p_Name p)); ("description", JStr (p_Description p));
         ("repo_url", JStr (p_RepoURL p))]
        ++ omit_empty "default_branch" (p_DefaultBranch p) ++ omit_empty "root_dir" (p_RootDir p)
        ++ omit_zero "desired_replicas" (p_DesiredReplicas p) ++ omit_zero "min_replicas" (p_MinReplicas p)
        ++ omit_zero "max_replicas" (p_MaxReplicas p)
        ++ [("created_at", json_date (p_CreatedAt p)); ("updated_at", json_date (p_UpdatedAt p))]).

Definition newInstanceResponse (i : Instance_) : Json :=
  JObj [("id", JStr (i_ID i)); ("deployment_id", JStr (i_DeploymentID i)); ("worker_id", JStr (i_WorkerID i));
        ("instance_key", JStr (i_InstanceKey i)); ("status", JStr (i_Status i)); ("container_id", JStr (i_ContainerID i));
        ("created_at", json_date (i_CreatedAt i)); ("updated_at", json_date (i_UpdatedAt i))].

Definition newDeploymentResponse (d : Deployment) (instances : list Instance_) : Json :=
  JObj ([("id", JStr (d_ID d)); ("project_id", JStr (d_ProjectID d)); ("revision", JStr (d_Revision d));
         ("image", JStr (d_Image d)); ("image_digest", JStr (d_ImageDigest d)); ("desired_state", JStr (d_DesiredState d));
         ("status", JStr (status_string (d_Status d))); ("stage", JStr (d_Stage d));
         ("instance_count", json_int (d_InstanceCount d))]
        ++ omit_zero "desired_replicas" (d_DesiredReplicas d)
        ++ (match instances with [] => [] | _ => [("instances", JArr (newInstanceResponse <$> instances))] end)
        ++ [("created_at", json_date (d_CreatedAt d)); ("updated_at", json_date (d_UpdatedAt d))]).

Definition worker_state_string (s : WorkerState) : string :=
  match s with
  | StateUnregistered => "UNREGISTERED" | StateReady => "READY" | StateDraining => "DRAINING" | StateDown => "DOWN"
  end.

Definition worker_health_string (h : WorkerHealth) : string :=
  match h with
  | HealthUnknown => "UNKNOWN" | HealthHealthy => "HEALTHY" | HealthSuspected => "SUSPECTED"
  | HealthUnhealthy => "UNHEALTHY" | HealthUnreachable => "UNREACHABLE"
  end.

Definition newWorkerResponse (w : Worker) : Json :=
  JObj [("id", JStr (w_ID w)); ("worker_key", JStr (w_WorkerKey w)); ("hostname", JStr (w_Hostname w));
        ("ip_address", JStr (w_IPAddress w)); ("grpc_port", json_int (w_GRPCPort w)); ("capacity", json_int (w_Capacity w));
        ("active_workloads", json_int (w_ActiveWorkloads w)); ("state", JStr (worker_state_string (w_State w)));
        ("health", JStr (worker_health_string (w_Health w))); ("schedulable", JBool (w_Schedulable w));
        ("labels", json_map (w_Labels w))].

(** [SecretResponse], which has no value and no ciphertext. *)
Definition SecretResponse (s : Secret) : Json :=
  JObj [("id", JStr (sc_ID s)); ("project_id", JStr (sc_ProjectID s)); ("name", JStr (sc_Name s));
        ("key_version", json_int (sc_KeyVersion s)); ("version", json_int (sc_Version s));
        ("created_at", json_time (sc_CreatedAt s)); ("updated_at", json_time (sc_UpdatedAt s))].

Section responses.
Context {ft : FloatText}.

Definition json_policy (p : ScalingPolicy) : Json :=
  JObj [("project_id", JStr (sp_ProjectID p)); ("metric_type", JStr (sp_MetricType p));
        ("target_value", JNum (ft_json (Policy.sp_TargetValue p))); ("tolerance", JNum (ft_json (sp_Tolerance p)));
        ("min_replicas", json_int (sp_MinReplicas p)); ("max_replicas", json_int (sp_MaxReplicas p));
        ("scale_up_cooldown", json_int (sp_ScaleUpCooldown p)); ("scale_down_cooldown", json_int (sp_ScaleDownCooldown p))].

Definition action_string (a : ScalingAction) : string :=
  match a with ActionNone => "NONE" | ActionScaleUp => "SCALE_UP" | ActionScaleDown => "SCALE_DOWN" end.

Definition json_decision (d : ScalingDecision) : Json :=
  JObj [("project_id", JStr (sd_ProjectID d)); ("current_replicas", json_int (sd_CurrentReplicas d));
        ("desired_replicas", json_int (sd_DesiredReplicas d)); ("metric_type", JStr (sd_MetricType d));
        ("metric_value", JNum (ft_json (sd_MetricValue d))); ("target_value", JNum (ft_json (sd_TargetValue d)));
        ("action", JStr (action_string (sd_Action d))); ("reason", JStr (sd_Reason d));
        ("evaluated_at", json_time (sd_EvaluatedAt d))].

(** A map is written in the order of its keys; of two entries with the same key
    the later one counts. *)
Definition json_entries (l : list (string * Json)) : Json :=
  let m : gmap string Json := list_to_map (reverse l) in
  JObj (omap (λ k, (λ v, (k, v)) <$> m !! k) (sort_Strings (map_to_list m).*1)).

Fixpoint json_meta (v : MetaValue) : Json :=
  match v with
  | MStr s => JStr s
  | MInt n => json_int n
  | MTime t => json_time t
  | MFloat x => JNum (ft_json x)
  | MNil => JNull
  | MBool b => JBool b
  | MList l => JArr (map json_meta l)
  | MMap l => json_entries (map (λ kv, match kv with (k, x) => (k, json_meta x) end) l)
  end.

(** The metadata as the map they are. *)
Definition meta_map (l : list (string * MetaValue)) : gmap string MetaValue := list_to_map (reverse l).

Definition json_metadata (l : list (string * MetaValue)) : Json := json_meta (MMap l).

Definition json_event (e : Event) : Json :=
  JObj [("id", JStr (ev_ID e)); ("project_id", JStr (ev_ProjectID e)); ("deployment_id", JStr (ev_DeploymentID e));
        ("event_type", JStr (ev_EventType e)); ("message", JStr (ev_Message e));
        ("metadata", json_metadata (ev_Metadata e)); ("created_at", json_time (ev_CreatedAt e))].

End responses.

(** ** Writing *)

Section write.
Context {jt : JsonText}.

(** [json.NewEncoder(w).Encode(v)] ends the text with a newline. *)
Definition writeJSON (status : Z) (v : Json) (w : Writer) : Writer :=
  Write (json_text v +:+ newline) (WriteHeader status (SetHeader "Content-Type" "application/json" w)).

Definition writeErr (status : Z) (msg : string) (w : Writer) : Writer :=
  writeJSON status (ErrorResponse msg "" "") w.

(** The reply of [decodeBody] to a body that it does not take. *)
Definition bad_body (err : error) (w : Writer) : Writer := writeErr 400 ("invalid request body: " +:+ err) w.

Definition notFound (err : error) (w : Writer) : Writer :=
  if decide (err = ErrProjectNotFound ∨ err = ErrDeploymentNotFound ∨ err = ErrInstanceNotFound)
  then writeErr 404 err w else writeErr 400 err w.

Lemma writeJSON_status status v w : w_sent w = None → w_status (writeJSON status v w) = status.
Proof. intros H. unfold writeJSON. by rewrite status_Write, status_WriteHeader. Qed.

End write.
