(* ===== verification/Api.v ===== *)
(** * The handlers of the API: internal/api/handlers_*.go

    One definition per handler, as a handler of net/http on the server's state:
    the platform with the autoscaler, the projects, the idempotency keys, the
    tokens, the rate limiter and the audit log. The path values are arguments,
    in the order of the pattern. What was set up before the server started is
    [ServerConfig]; the secret store, if there is one, is [SecretOps] on the
    platform's external state, and so are the instances behind the load
    balancer, [Backends]. *)

From stdpp Require Import base option gmap strings list pretty.
From Stdlib Require Import ZArith Lia Ascii.
From S2P Require Import Prelude GoLib GoFloat GoTime PtrStore Workers Scheduler LoadBalancer HA Deployments Fleet Platform Service Projects Policy Autoscaler Secrets Registry AuditLog Http Auth Idempotency RateLimit Json JsonDecode ApiData.

(** ** The server *)

Record ServerConfig := mkServerConfig {
  sc_auth : bool;
  sc_autoscaler : bool;
  sc_autoscalerProjects : bool;
  sc_enforceHTTPS : bool;
  sc_audit : bool;
  sc_rateLimiter : bool;
  sc_enableWAF : bool
}.

(** The secret store's operations; [so_configured] is false for a nil store. *)
Class SecretOps (X : Type) := {
  so_configured : bool;
  so_SetSecret : string → string → string → X → (error + Secret) * X;
  so_ListSecrets : string → X → (error + list Secret) * X
}.

(** The answer of an instance to a request that the load balancer forwards. *)
Class Backends (X : Type) :=
  proxy_to : Target → Http.Request (option User) → Writer → X → Http.Outcome * X.

(** [nebula-default-webhook-secret]. *)
Definition default_webhook_secret : string := "nebula-default-webhook-secret".

Record ApiSys (MP PR S L : Type) := mkApi {
  ap_auto : AutoSys MP PR S;
  ap_projects : PR;
  ap_idempotency : IdempotencyStore;
  ap_tokens : gmap string (option User);
  ap_limiter : TenantRateLimiter (option User) L;
  ap_audit : list AuditEntry
}.
Arguments mkApi {MP PR S L} _ _ _ _ _ _.
Arguments ap_auto {MP PR S L} _.
Arguments ap_projects {MP PR S L} _.
Arguments ap_idempotency {MP PR S L} _.
Arguments ap_tokens {MP PR S L} _.
Arguments ap_limiter {MP PR S L} _.
Arguments ap_audit {MP PR S L} _.

#[export] Instance ApiSys_eta MP PR S L : Settable (ApiSys MP PR S L) := λ s,
  mkApi (ap_auto s) (ap_projects s) (ap_idempotency s) (ap_tokens s) (ap_limiter s) (ap_audit s).

(** [io.LimitReader(r.Body, n)], read to its end. *)
Fixpoint read_limit (n : Z) (s : string) : string :=
  match s with
  | EmptyString => EmptyString
  | String c s' => if n <=? 0 then EmptyString else String c (read_limit (n - 1) s')
  end.

Section api.
Context {DR IR WR F X MP PR L : Type}.
Context {ent : Entropy} `{!DeploymentRepository DR, !InstanceRepository IR, !WorkerRepository WR}.
Context `{!WorkerClientFactory F, !Externals X} {uni : Unicode} {net : NetURL}.
Context `{!MetricsProvider MP, !ProjectRepository PR} {fc : FloatConv}.
Context {ft : FloatText} {jt : JsonText} {hm : Hmac} {cr : Crypto} `{!SecretOps X}.
Context (cfg : ServerConfig).

Abbreviation state := (ApiSys MP PR (Sys DR IR WR F X) L).
Abbreviation M := (ST state).
Abbreviation handler := (Handler (option User) state).
Abbreviation request := (Http.Request (option User)).

(** ** Calls *)

(** A call on the autoscaler, whose project repository, if it was given one, is
    the server's. *)
Definition on_auto {A} (m : ST (AutoSys MP PR (Sys DR IR WR F X)) A) : M A := λ s,
  let a := (ap_auto s) <| a_projects := if sc_autoscalerProjects cfg then Some (ap_projects s) else None |> in
  let '(x, a') := m a in
  (x, s <| ap_auto := a' |> <| ap_projects := default (ap_projects s) (a_projects a') |>).

(** A call on the service. *)
Definition on_svc {A} (m : ST (Sys DR IR WR F X) A) : M A := λ s,
  let '(x, p) := m (a_sys (ap_auto s)) in (x, s <| ap_auto ::= λ a, a <| a_sys := p |> |>).

Definition project_get (id : string) : M (error + Project) := gets (λ s, pr_GetByID id (ap_projects s)).
Definition project_named (name : string) : M (error + Project) := gets (λ s, pr_GetByName name (ap_projects s)).

Definition project_create (p : Project) : M (option error * Project) :=
  let! now := on_svc draw_now in
  λ s, let '(err, p, r) := pr_Create now p (ap_projects s) in ((err, p), s <| ap_projects := r |>).

(** [GetByID], and [GetByName] when that fails. *)
Definition project_find (idOrName : string) : M (error + Project) :=
  let! p := project_get idOrName in
  match p with inr p => ret (inr p) | inl _ => project_named idOrName end.

(** [s.auth != nil && user != nil && !user.HasProjectAccess(projectID)]. *)
Definition denied (r : request) (projectID : string) : bool :=
  sc_auth cfg && match r_Context r with
                 | Some u => negb (HasProjectAccess (Some u) projectID)
                 | None => false
                 end.

Definition access_denied : string := "forbidden: project access denied".

Definition reply (w : Writer) : M Http.Outcome := ret (Returned w).

(** [s.RecordAudit], after the choice of the actor. *)
Definition audit_actor (r : request) : string :=
  if sc_auth cfg then match r_Context r with Some u => u_Username u | None => "anonymous" end else "anonymous".

Definition RecordAudit (eventType actor resource : string) (details : gmap string string) : M unit :=
  if sc_audit cfg then
    let! now := on_svc draw_now in
    let! o := on_svc draw_order in
    modify (λ s, s <| ap_audit ::= λ l, (Append o now eventType actor resource details l).2 |>)
  else ret tt.

(** ** handlers_projects.go *)

Definition new_project_record (id : string) (q : ProjectCreateRequest) : Project :=
  mkProject id (pq_Name q) (pq_Description q) (pq_RepoURL q) (pq_DefaultBranch q) (pq_RootDir q) (pq_WebhookSecret q)
    0 0 0 0 0.

Definition createProject : handler := λ r w,
  let '(req, err) := Decode true project_fields "api.ProjectCreateRequest" (r_Body r) (mkProjectCreate "" "" "" "" "" "") in
  match err with
  | Some err => reply (bad_body err w)
  | None =>
    if decide (TrimSpace (pq_Name req) = "") then reply (writeErr 400 "project name is required" w)
    else
      let! id := on_svc draw_uuid in
      let! ' (err, p) := project_create (new_project_record id req) in
      match err with
      | Some err => reply (writeErr 409 err w)
      | None => reply (writeJSON 201 (newProjectResponse p) w)
      end
  end.

(** The projects that a user sees. *)
Definition visible (r : request) (p : Project) : bool := negb (denied r (p_ID p)).

Definition listProjects : handler := λ r w,
  let! o := on_svc draw_order in
  let! l := gets (λ s, pr_List o (ap_projects s)) in
  match l with
  | inl err => reply (writeErr 500 err w)
  | inr list => reply (writeJSON 200 (JArr (newProjectResponse <$> base.filter (λ p, visible r p = true) list)) w)
  end.

Definition getProject (idOrName : string) : handler := λ r w,
  let! p := project_find idOrName in
  match p with
  | inl err => reply (notFound err w)
  | inr p =>
    if denied r (p_ID p) then reply (writeErr 403 access_denied w)
    else reply (writeJSON 200 (newProjectResponse p) w)
  end.

(** ** handlers_deployments.go *)

Definition idempotency_key (r : request) : string :=
  let k := req_header r "Idempotency-Key" in
  if decide (k = "") then req_header r "X-Idempotency-Key" else k.

(** The headers of a kept response are added to those of the writer. *)
Definition add_headers (h : Header) (w : Writer) : Writer :=
  w <| w_Header ::= λ own, union_with (λ a b, Some (a ++ b)) own h |>.

(** The reply from a kept response, or none when the request waits. *)
Definition replay (l : nat) (w : Writer) : M Http.Outcome :=
  let! resp := gets (λ s, WaitAndGet l (ap_idempotency s)) in
  match resp with
  | None => ret Blocked
  | Some (code, header, body) =>
    let w := SetHeader "Idempotent-Replayed" "true" (add_headers header w) in
    reply (Write body (WriteHeader code w))
  end.

(** [Complete]; completing twice panics. *)
Definition complete (key : string) (code : Z) (header : Header) (body : string) : M bool := λ s,
  match Complete key (code, header, body) (ap_idempotency s) with
  | Some st => (true, s <| ap_idempotency := st |>)
  | None => (false, s)
  end.

(** [respond]. *)
Definition respond (idempKey : string) (status : Z) (v : Json) (w : Writer) : M Http.Outcome :=
  let data := json_text v in
  let w := SetHeader "Content-Type" "application/json" w in
  if decide (idempKey = "") then reply (Write data (WriteHeader status w))
  else
    let! ok := complete idempKey status (w_Header w) data in
    if ok : bool then reply (Write data (WriteHeader status w)) else ret (Panicked w).

Definition create_params (projectID : string) (req : DeploymentCreateRequest) : CreateDeploymentParams :=
  mkCreateParams projectID (dq_SourcePath req) (dq_Image req) (dq_InstanceCount req) (dq_Env req) (dq_Labels req) (dq_Ports req).

Definition empty_deployment_request : DeploymentCreateRequest := mkDeploymentCreate "" "" "" 0 ∅ ∅ [].

(** The answer to what [CreateAndDeploy] returned, by [send]. A deployment
    without an error is not nil. *)
Definition deploy_reply (send : Z → Json → M Http.Outcome) (w : Writer)
    (res : option Deployment * list Instance_ * option error) : M Http.Outcome :=
  match res with
  | (d, instances, Some err) =>
    send 502 (match d with
              | Some d => ErrorResponse err (d_ID d) (status_string (d_Status d))
              | None => ErrorResponse err "" ""
              end)
  | (Some d, instances, None) => send 202 (newDeploymentResponse d instances)
  | (None, _, None) => ret (Panicked w)
  end.

Definition invalid_body : string := "invalid request body".

(** Lines 64 to 104: the request, in the project that was found. *)
Definition deploy_in (idempKey projectID : string) : handler := λ r w,
  let send status v := respond idempKey status v w in
  let '(req, err) := Decode true deployment_fields "api.DeploymentCreateRequest" (r_Body r) empty_deployment_request in
  match err with
  | Some err =>
    let w := bad_body err w in
    if decide (idempKey = "") then reply w
    else
      let! ok := complete idempKey 400 (w_Header w) (json_text (ErrorResponse invalid_body "" "")) in
      if ok : bool then reply w else ret (Panicked w)
  | None =>
    if bool_decide (dq_Image req = "") && bool_decide (dq_SourcePath req = "")
    then send 400 (ErrorResponse "either image or source_path is required" "" "")
    else
      let! res := on_svc (CreateAndDeploy (create_params projectID req)) in
      deploy_reply send w res
  end.

(** What the first request with a key executes: lines 45 to 104. *)
Definition create_deployment (idempKey projectID : string) : handler := λ r w,
  if denied r projectID then respond idempKey 403 (ErrorResponse access_denied "" "") w
  else
    let! p := project_get projectID in
    let! found := (match p with
                   | inr p => ret (Some projectID)
                   | inl _ => let! p := project_named projectID in
                              ret (match p with inr p => Some (p_ID p) | inl _ => None end)
                   end) in
    match found with
    | None => respond idempKey 404 (ErrorResponse "project not found" "" "") w
    | Some projectID => deploy_in idempKey projectID r w
    end.

Definition createDeployment (projectID : string) : handler := λ r w,
  let idempKey := idempotency_key r in
  if decide (idempKey = "") then create_deployment idempKey projectID r w
  else
    let! ' (l, isFirst) := λ s, let '(l, isFirst, st) := GetOrReserve idempKey (ap_idempotency s) in
                                ((l, isFirst), s <| ap_idempotency := st |>) in
    if isFirst : bool then create_deployment idempKey projectID r w else replay l w.

(** The read and the check at the start of the handlers of one deployment. *)
Definition with_deployment (depID not_found : string) (r : request) (w : Writer)
    (body : Deployment → list Instance_ → M Http.Outcome) : M Http.Outcome :=
  let! d := on_svc (GetDeployment depID) in
  match d with
  | inl err =>
    if decide (err = ErrDeploymentNotFound) then reply (writeErr 404 not_found w) else reply (writeErr 500 err w)
  | inr (d, instances) =>
    if denied r (d_ProjectID d) then reply (writeErr 403 access_denied w) else body d instances
  end.

Definition getDeployment (depID : string) : handler := λ r w,
  with_deployment depID ErrDeploymentNotFound r w (λ d instances,
    reply (writeJSON 200 (newDeploymentResponse d instances) w)).

(** The identifier of the project with the name or identifier, if there is one. *)
Definition project_id_of (projectID : string) : M string :=
  let! p := project_find projectID in
  ret (match p with inr p => p_ID p | inl _ => projectID end).

Definition listDeployments (projectID : string) : handler := λ r w,
  let! projectID := project_id_of projectID in
  if denied r projectID then reply (writeErr 403 access_denied w)
  else
    let! l := on_svc (ListDeployments projectID) in
    match l with
    | inl err => reply (writeErr 500 err w)
    | inr list => reply (writeJSON 200 (JArr ((λ d, newDeploymentResponse d []) <$> list)) w)
    end.

(** The answer to an operation that gives a deployment or an error. *)
Definition outcome_reply (w ok : Writer) (res : option Deployment * list Instance_ * option error) : M Http.Outcome :=
  match res with
  | (_, _, Some err) => reply (writeErr 400 err w)
  | (Some d, instances, None) => reply (writeJSON 200 (newDeploymentResponse d instances) ok)
  | (None, _, None) => ret (Panicked ok)
  end.

Definition rollbackDeployment (depID : string) : handler := λ r w,
  with_deployment depID "deployment not found" r w (λ d _,
    let! res := on_svc (Rollback depID) in
    outcome_reply w (SetHeader "X-Rolled-Back-Deployment-ID" depID w) res).

Definition stopDeployment (depID : string) : handler := λ r w,
  with_deployment depID "deployment not found" r w (λ d _,
    let! res := on_svc (StopDeployment depID) in
    match res with
    | inl err => reply (writeErr 400 err w)
    | inr d => reply (writeJSON 200 (newDeploymentResponse d []) w)
    end).

(** [writeJSON] of a list of events, which is never nil. *)
Definition events_reply (events : list Event) (w : Writer) : M Http.Outcome :=
  reply (writeJSON 200 (JArr (json_event <$> events)) w).

Definition listProjectEvents (projectID : string) : handler := λ r w,
  if denied r projectID then reply (writeErr 403 access_denied w)
  else
    let! events := on_svc (gets (λ p, mer_ListByProject projectID (s_events p))) in
    events_reply events w.

Definition listDeploymentEvents (depID : string) : handler := λ r w,
  with_deployment depID ErrDeploymentNotFound r w (λ d _,
    let! events := on_svc (gets (λ p, mer_ListByDeployment depID (s_events p))) in
    events_reply events w).

Definition scaleDeployment (depID : string) : handler := λ r w,
  with_deployment depID ErrDeploymentNotFound r w (λ d _,
    let '(req, err) := Decode false scale_fields "api.ScaleRequest" (r_Body r) (mkScaleRequest 0) in
    match err with
    | Some _ => reply (writeErr 400 invalid_body w)
    | None =>
      let! res := on_svc (ScaleDeployment depID (sq_DesiredReplicas req)) in
      outcome_reply w w res
    end).

Definition scaleProject (projectID : string) : handler := λ r w,
  if denied r projectID then reply (writeErr 403 access_denied w)
  else
    let '(req, err) := Decode false scale_fields "api.ScaleRequest" (r_Body r) (mkScaleRequest 0) in
    match err with
    | Some _ => reply (writeErr 400 invalid_body w)
    | None =>
      let! res := on_svc (ScaleProject projectID (sq_DesiredReplicas req)) in
      outcome_reply w w res
    end.

(** The checks at the start of the handlers of the autoscaler. *)
Definition with_autoscaler (projectID : string) (r : request) (w : Writer) (body : M Http.Outcome) : M Http.Outcome :=
  if denied r projectID then reply (writeErr 403 access_denied w)
  else if negb (sc_autoscaler cfg) then reply (writeErr 501 "autoscaler not configured" w)
  else body.

Definition empty_policy : ScalingPolicy := mkPolicy "" "" fzero fzero 0 0 0 0.

(** [SetPolicy] keeps a clone with the metric type in upper case; the response
    is the policy as it was decoded. *)
Definition setAutoscalerPolicy (projectID : string) : handler := λ r w,
  with_autoscaler projectID r w (
    let '(policy, err) := Decode false policy_fields "autoscaler.ScalingPolicy" (r_Body r) empty_policy in
    match err with
    | Some _ => reply (writeErr 400 invalid_body w)
    | None =>
      let policy := policy <| sp_ProjectID := projectID |> in
      on_auto (SetPolicy (Some policy)) ;;
      reply (writeJSON 200 (json_policy policy) w)
    end).

Definition getAutoscalerPolicy (projectID : string) : handler := λ r w,
  with_autoscaler projectID r w (
    let! policy := on_auto (GetPolicy projectID) in
    match policy with
    | None => reply (writeErr 404 "autoscaling policy not found" w)
    | Some policy => reply (writeJSON 200 (json_policy policy) w)
    end).

(** A nil decision, which comes only with an error, is encoded as null. *)
Definition evaluateAutoscaler (projectID : string) : handler := λ r w,
  with_autoscaler projectID r w (
    let! ' (decision, err) := on_auto (EvaluateAndScale projectID) in
    match err with
    | Some err => reply (writeErr 400 err w)
    | None => reply (writeJSON 200 (match decision with Some d => json_decision d | None => JNull end) w)
    end).

(** ** handlers_secrets.go *)

Definition with_secret_store (projectID : string) (r : request) (w : Writer) (body : M Http.Outcome) : M Http.Outcome :=
  if denied r projectID then reply (writeErr 403 access_denied w)
  else if negb so_configured then reply (writeErr 501 "secret store is not configured" w)
  else body.

(** [s.redactor.Register], when there is a redactor. *)
Definition register_secret (value : string) : M unit :=
  match x_redactor with
  | Some register => on_svc (on_ext (λ x, (tt, register value x)))
  | None => ret tt
  end.

Definition version_details (sec : Secret) : gmap string string :=
  {[ "version" := Itoa (sc_Version sec); "key_version" := Itoa (sc_KeyVersion sec) ]}.

Definition createSecret (projectID : string) : handler := λ r w,
  with_secret_store projectID r w (
    let '(req, err) := Decode true secret_fields "api.SecretCreateRequest" (r_Body r) (mkSecretCreate "" "") in
    match err with
    | Some err => reply (bad_body err w)
    | None =>
      if decide (cq_Name req = "" ∨ cq_Value req = "") then reply (writeErr 400 "name and value are required" w)
      else
        register_secret (cq_Value req) ;;
        let! sec := on_svc (on_ext (so_SetSecret projectID (cq_Name req) (cq_Value req))) in
        match sec with
        | inl err => reply (writeErr 500 err w)
        | inr sec =>
          RecordAudit EventSecretCreate (audit_actor r) (projectID +:+ "/" +:+ cq_Name req) (version_details sec) ;;
          reply (writeJSON 201 (SecretResponse sec) w)
        end
    end).

Definition listSecrets (projectID : string) : handler := λ r w,
  with_secret_store projectID r w (
    let! l := on_svc (on_ext (so_ListSecrets projectID)) in
    match l with
    | inl err => reply (writeErr 500 err w)
    | inr list =>
      RecordAudit EventSecretAccess (audit_actor r) (projectID +:+ "/secrets")
        {[ "count" := Itoa (Z.of_nat (length list)) ]} ;;
      reply (writeJSON 200 (JArr (SecretResponse <$> list)) w)
    end).

(** secrets/rotate.go, on the store of the server. *)
Definition rotate_secret (projectID name newPlaintext : string) : M (error + Secret) :=
  let! sec := on_svc (on_ext (so_SetSecret projectID name newPlaintext)) in
  ret (match sec with inl err => inl ("failed to rotate secret " +:+ name +:+ ": " +:+ err) | inr sec => inr sec end).

Definition rotateSecret (projectID secretName : string) : handler := λ r w,
  with_secret_store projectID r w (
    let '(req, err) := Decode false rotate_fields "api.SecretRotateRequest" (r_Body r) (mkSecretRotate "") in
    match err with
    | Some _ => reply (writeErr 400 invalid_body w)
    | None =>
      if decide (tq_Value req = "") then reply (writeErr 400 "new secret value is required" w)
      else
        register_secret (tq_Value req) ;;
        let! sec := rotate_secret projectID secretName (tq_Value req) in
        match sec with
        | inl err => reply (writeErr 500 err w)
        | inr sec =>
          RecordAudit EventSecretRotate (audit_actor r) (projectID +:+ "/" +:+ secretName) (version_details sec) ;;
          reply (writeJSON 200 (SecretResponse sec) w)
        end
    end).

(** ** handlers_webhooks.go *)

Definition signature_header (r : request) : string :=
  let s := req_header r "X-Hub-Signature-256" in
  let s := if decide (s = "") then req_header r "X-Nebula-Signature" else s in
  if decide (s = "") then req_header r "X-Signature-256" else s.

Definition webhook_secret (p : Project) : string :=
  if decide (p_WebhookSecret p = "") then default_webhook_secret else p_WebhookSecret p.

Definition max_payload : Z := 1048576.

(** The payload of a body; errors of the decoding are ignored. *)
Definition webhook_payload (body : string) : WebhookPayload :=
  let payload := if decide (body = "") then mkWebhook "" "" "" "" 0
                 else (Unmarshal webhook_fields "api.WebhookPayload" body (mkWebhook "" "" "" "" 0)).1 in
  if wp_InstanceCount payload <=? 0 then payload <| wp_InstanceCount := 1 |> else payload.

Definition webhook_params (projectID : string) (payload : WebhookPayload) : CreateDeploymentParams :=
  mkCreateParams projectID (wp_SourcePath payload) (wp_Image payload) (wp_InstanceCount payload) ∅ ∅ [].

Definition handleProjectWebhook (projectID : string) : handler := λ r w,
  if decide (projectID = "") then reply (writeErr 400 "missing projectID" w)
  else
    let! proj := project_get projectID in
    match proj with
    | inl _ => reply (writeErr 404 "project not found" w)
    | inr proj =>
      let bodyBytes := read_limit max_payload (r_Body r) in
      let sigHeader := signature_header r in
      if decide (sigHeader = "") then reply (writeErr 401 "missing webhook signature header" w)
      else if negb (VerifyWebhookSignature (webhook_secret proj) bodyBytes sigHeader)
      then reply (writeErr 401 "invalid webhook signature" w)
      else
        let! res := on_svc (CreateAndDeploy (webhook_params projectID (webhook_payload bodyBytes))) in
        deploy_reply (λ status v, reply (writeJSON status v w)) w res
    end.

(** ** handlers_workers.go *)

Definition listWorkers : handler := λ r w,
  let! o := on_svc draw_order in
  let! l := on_svc (gets (λ p, Workers.List o (s_registry p))) in
  reply (writeJSON 200 (JArr (newWorkerResponse <$> l)) w).

End api.
