(* ===== verification/ApiLogs.v ===== *)
(** * The logs of the API: internal/api/handlers_logs.go

    The lines of events, the two handlers, and the polling of a followed log.
    [stream] is [None] when the writer cannot flush, and otherwise gives the
    states at the ticks of the poll timer, between which other requests run. *)

From stdpp Require Import base option gmap strings list pretty.
From Stdlib Require Import ZArith Lia Ascii.
From S2P Require Import Prelude GoLib GoFloat GoTime PtrStore Workers Scheduler LoadBalancer HA Deployments Fleet Platform Service Projects Policy Autoscaler Secrets Registry AuditLog Http Auth Idempotency RateLimit Json JsonDecode ApiData Api.

(** The verb [%v] of a time, which also prints a reading of the monotonic clock
    that the model does not have. *)
Class TimeText := fmt_time : Time → string.

Section lines.
Context {ft : FloatText} {tt_ : TimeText}.

(** A map is printed in the order of its keys. *)
Definition fmt_entries (l : list (string * string)) : string :=
  let m : gmap string string := list_to_map (reverse l) in
  "map[" +:+ Join ((λ k, k +:+ ":" +:+ lookup_str m k) <$> sort_Strings (map_to_list m).*1) " " +:+ "]".

(** The verb [%v]. *)
Fixpoint fmt_meta (v : MetaValue) : string :=
  match v with
  | MStr s => s
  | MInt n => Itoa n
  | MTime t => fmt_time t
  | MFloat x => ft_g x
  | MNil => "<nil>"
  | MBool b => if b then "true" else "false"
  | MList l => "[" +:+ Join (map fmt_meta l) " " +:+ "]"
  | MMap l => fmt_entries (map (λ kv, match kv with (k, x) => (k, fmt_meta x) end) l)
  end.

Definition formatEventAsLog (o : Order) (ev : Event) : string :=
  let meta := meta_map (ev_Metadata ev) in
  let metaStr :=
    if decide (meta = ∅) then ""
    else " (" +:+ Join ((λ kv, kv.1 +:+ "=" +:+ fmt_meta kv.2) <$> map_pairs o meta) ", " +:+ ")" in
  "[" +:+ format_rfc3339 (ev_CreatedAt ev) +:+ "] " +:+ ev_EventType ev +:+ ": " +:+ ev_Message ev +:+ metaStr.

(** [fmt.Fprintln] of each event. *)
Definition log_lines (o : Order) (events : list Event) : string :=
  foldr (λ ev text, formatEventAsLog o ev +:+ newline +:+ text) "" events.

(** ** Following

    A tick: when there are more events than the cursor says, those from the
    cursor on are written. *)
Definition poll (o : Order) (events : list Event) (st : nat * string) : nat * string :=
  let '(cursor, written) := st in
  if (cursor <? length events)%nat
  then (length events, written +:+ log_lines o (drop cursor events))
  else st.

Definition follow (o : Order) (polls : list (list Event)) : nat * string :=
  fold_left (λ st events, poll o events st) polls (0%nat, "").

End lines.

Section logs.
Context {DR IR WR F X MP PR L : Type}.
Context {ent : Entropy} `{!DeploymentRepository DR, !InstanceRepository IR, !WorkerRepository WR}.
Context `{!WorkerClientFactory F, !Externals X} {uni : Unicode} {net : NetURL}.
Context `{!MetricsProvider MP, !ProjectRepository PR} {fc : FloatConv}.
Context {ft : FloatText} {jt : JsonText} {tt_ : TimeText}.
Context (cfg : ServerConfig).

Abbreviation state := (ApiSys MP PR (Sys DR IR WR F X) L).
Abbreviation M := (ST state).
Abbreviation handler := (Handler (option User) state).
Abbreviation request := (Http.Request (option User)).

Context (stream : option (state → list state)).

(** The events of a state. *)
Definition events_of (list_events : list Event → list Event) (s : state) : list Event :=
  list_events (s_events (a_sys (ap_auto s))).

Definition wants_follow (r : request) : bool := String.eqb (QueryGet (r_RawQuery r) "follow") "true".

Definition stream_header (w : Writer) : Writer :=
  let w := SetHeader "Transfer-Encoding" "chunked" (SetHeader "Content-Type" "text/plain; charset=utf-8" w) in
  WriteHeader 200 (SetHeader "X-Content-Type-Options" "nosniff" w).

(** The streaming branch; the events of a poll are those of the state then. *)
Definition stream_logs (ticks : state → list state) (list_events : list Event → list Event) (w : Writer) :
    M Http.Outcome :=
  let! o := on_svc draw_order in
  λ s, let states := ticks s in
       let '(_, text) := follow o (events_of list_events <$> states) in
       (Returned (Write text (stream_header w)), default s (last states)).

(** The answer with the events, as JSON or as lines. *)
Definition logs_reply (events : list (Event * Json)) (r : request) (w : Writer) : M Http.Outcome :=
  if Contains (req_header r "Accept") "application/json"
  then reply (writeJSON 200 (JArr events.*2) w)
  else
    let! o := on_svc draw_order in
    reply (Write (log_lines o events.*1)
             (WriteHeader 200 (SetHeader "Content-Type" "text/plain; charset=utf-8" w))).

(** The event that stands for a deployment; its metadata are nil. *)
Definition status_event (d : Deployment) : Event :=
  mkEvent "" (d_ProjectID d) (d_ID d) "DEPLOYMENT_STATUS"
    ("Deployment " +:+ short_id (d_ID d) +:+ " is " +:+ status_string (d_Status d) +:+ " (stage: " +:+ d_Stage d
     +:+ ", image: " +:+ d_Image d +:+ ")") [] (d_CreatedAt d).

Definition json_status_event (d : Deployment) : Json :=
  let e := status_event d in
  JObj [("id", JStr (ev_ID e)); ("project_id", JStr (ev_ProjectID e)); ("deployment_id", JStr (ev_DeploymentID e));
        ("event_type", JStr (ev_EventType e)); ("message", JStr (ev_Message e)); ("metadata", JNull);
        ("created_at", json_time (ev_CreatedAt e))].

(** [d.ID[:8]] panics on an identifier that is shorter. *)
Definition short_identifier (d : Deployment) : bool := (String.length (d_ID d) <? 8)%nat.

Definition listProjectLogs (projectID : string) : handler := λ r w,
  let! projectID := project_id_of projectID in
  if denied cfg r projectID then reply (writeErr 403 access_denied w)
  else
    let list_events := mer_ListByProject projectID in
    match wants_follow r, stream with
    | true, Some ticks => stream_logs ticks list_events w
    | _, _ =>
      let! events := gets (events_of list_events) in
      match events with
      | [] =>
        let! l := on_svc (dep_list projectID) in
        let deps := match l with inr deps => deps | inl _ => [] end in
        if existsb short_identifier deps then ret (Panicked w)
        else logs_reply ((λ d, (status_event d, json_status_event d)) <$> deps) r w
      | _ => logs_reply ((λ e, (e, json_event e)) <$> events) r w
      end
    end.

Definition listDeploymentLogs (depID : string) : handler := λ r w,
  let! d := on_svc (GetDeployment depID) in
  match d with
  | inl _ => reply (writeErr 404 "deployment not found" w)
  | inr (d, _) =>
    if denied cfg r (d_ProjectID d) then reply (writeErr 403 access_denied w)
    else
      let list_events := mer_ListByDeployment depID in
      match wants_follow r, stream with
      | true, Some ticks => stream_logs ticks list_events w
      | _, _ =>
        let! events := gets (events_of list_events) in
        logs_reply ((λ e, (e, json_event e)) <$> events) r w
      end
  end.

End logs.

(** ** What a followed log prints

    The repository lists the newest events first, so the events from the cursor
    on are the oldest ones. *)

Lemma poll_more {ft : FloatText} {tt_ : TimeText} o events cursor written :
  (cursor < length events)%nat →
  poll o events (cursor, written) = (length events, written +:+ log_lines o (drop cursor events)).
Proof. intros H. unfold poll. by rewrite (proj2 (Nat.ltb_lt _ _) H). Qed.

(** When events arrive between two polls of a followed log, the second poll
    prints the oldest events again and none of the new ones, because the
    repository lists the newest first and the cursor counts from the front. *)
Theorem follow_repeats_old {ft : FloatText} {tt_ : TimeText} (o : Order) (projectID : string) (old new : list Event) :
  let events l := mer_ListByProject projectID l in
  (0 < length (events new) ≤ length (events old))%nat →
  follow o [events old; events (old ++ new)]
  = (length (events (old ++ new)),
     log_lines o (events old) +:+ log_lines o (drop (length (events old) - length (events new)) (events old))).
Proof.
  cbv beta zeta. intros Hn.
  assert (mer_ListByProject projectID (old ++ new) = mer_ListByProject projectID new ++ mer_ListByProject projectID old) as E.
  { unfold mer_ListByProject. by rewrite ?reverse_app, ?rev_app_distr, ?filter_app, ?reverse_app, ?rev_app_distr. }
  rewrite E. unfold follow. cbn [fold_left]. rewrite (poll_more o _ 0) by lia.
  rewrite poll_more by (rewrite length_app; lia). rewrite drop_0, drop_app_ge by lia. done.
Qed.

(** Two events, and one more before the second poll: the oldest is printed
    again, and the new one never. *)
Definition demo_log_events : list Event :=
  [mkEvent "e1" "p" "d" "DEPLOYMENT_QUEUED" "first" [] 0; mkEvent "e2" "p" "d" "DEPLOYMENT_RUNNING" "second" [] Second].

Definition demo_new_event : Event := mkEvent "e3" "p" "d" "DEPLOYMENT_FAILED" "third" [] (2 * Second).

Definition demo_float_text : FloatText := {| ft_g := λ _, "0"; ft_json := λ _, "0"; ft_parse := λ _, Some fzero |}.

Lemma follow_repeats_old_witness :
  let events l := mer_ListByProject "p" l in
  (0 < length (events [demo_new_event]) ≤ length (events demo_log_events))%nat ∧
  (follow (ft := demo_float_text) (tt_ := λ _, "") order_id
     [events demo_log_events; events (demo_log_events ++ [demo_new_event])]).2
  = log_lines (ft := demo_float_text) (tt_ := λ _, "") order_id (events demo_log_events)
      +:+ "[0001-01-01T00:00:00Z] DEPLOYMENT_QUEUED: first" +:+ newline.
Proof.
  split; [vm_compute; lia|]. cbv beta zeta.
  rewrite (follow_repeats_old (ft := demo_float_text) (tt_ := λ _, "") order_id "p" demo_log_events [demo_new_event])
    by (vm_compute; lia).
  vm_compute. reflexivity.
Defined.
