(* ===== verification/ApiRouter.v ===== *)
(** * The handler tree of the API: internal/api/router.go and middleware.go

    The middleware, the patterns with their handlers, and [NewRouter], which
    composes them. The multiplexer is that of net/http: a path is cleaned, its
    segments are unescaped, and the methods of the patterns that match decide.
    The trace identifier in the headers of a request is the class [Propagator]
    (OpenTelemetry), and the page of metrics is an argument. *)

From stdpp Require Import base option gmap strings list pretty.
From Stdlib Require Import ZArith Lia Ascii.
From S2P Require Import Prelude GoLib GoFloat GoTime PtrStore Workers Scheduler LoadBalancer HA Deployments Fleet Platform Service Projects Policy Autoscaler Secrets Registry AuditLog Http Auth Idempotency RateLimit Waf Json JsonDecode ApiData Api ApiLogs.

(** ** net/http: redirects and the multiplexer *)

Fixpoint html_escape (s : string) : string :=
  match s with
  | EmptyString => EmptyString
  | String c s' =>
    (if Ascii.eqb c "&" then "&amp;" else if Ascii.eqb c "<" then "&lt;" else if Ascii.eqb c ">" then "&gt;"
     else if Ascii.eqb c (ascii_of_nat 34) then "&#34;" else if Ascii.eqb c "'" then "&#39;"
     else String c EmptyString) +:+ html_escape s'
  end.

(** [http.Redirect] with status 301, to a URL that needs no further cleaning. *)
Definition redirect {C} (url : string) (r : Http.Request C) (w : Writer) : Writer :=
  let reads := String.eqb (r_Method r) "GET" || String.eqb (r_Method r) "HEAD" in
  let hadCT := bool_decide (is_Some (w_Header w !! "Content-Type")) in
  let w := SetHeader "Location" url w in
  let w := if negb hadCT && reads then SetHeader "Content-Type" "text/html; charset=utf-8" w else w in
  let w := WriteHeader 301 w in
  if negb hadCT && String.eqb (r_Method r) "GET"
  then Write ("<a href=" +:+ quote (html_escape url) +:+ ">Moved Permanently</a>." +:+ newline +:+ newline) w
  else w.

(** [url.URL.String] of a path: bytes that are not allowed in one are escaped,
    a percent sign among them. *)
Definition path_char (c : ascii) : bool :=
  let n := N_of_ascii c in
  is_digit c || ((65 <=? n) && (n <=? 90))%N || ((97 <=? n) && (n <=? 122))%N
  || existsb (Ascii.eqb c) ["-"; "_"; "."; "~"; "$"; "&"; "+"; ","; "/"; ":"; ";"; "="; "@"]%char.

Fixpoint escape_path (s : string) : string :=
  match s with
  | EmptyString => EmptyString
  | String c s' =>
    if path_char c then String c (escape_path s')
    else let n := N_of_ascii c in
         String "%" (String (upper_char (hex_digit (n / 16))) (String (upper_char (hex_digit (n mod 16))) (escape_path s')))
  end.

(** The elements of a path without empty ones, dots, and what double dots
    remove. *)
Definition clean_step (acc : list string) (seg : string) : list string :=
  if decide (seg = "" ∨ seg = ".") then acc
  else if decide (seg = "..") then tail acc
  else seg :: acc.

(** [cleanPath]: rooted, and a trailing slash is kept. *)
Definition cleanPath (p : string) : string :=
  let segs := Split p "/" in
  let clean := rev (fold_left clean_step segs []) in
  let joined := "/" +:+ Join clean "/" in
  if bool_decide (last segs = Some "") && negb (bool_decide (clean = [])) && negb (bool_decide (p = ""))
  then joined +:+ "/" else joined.

Inductive Seg := Lit (s : string) | Wild.

(** The segments of a path after its first slash, unescaped; an empty last one
    stands for a trailing slash. *)
Definition path_segments (path : string) : list string :=
  (λ s, default s (Unescape false s)) <$> tail (Split path "/").

(** The values of the wildcards, when the pattern matches. *)
Fixpoint match_segs (pat : list Seg) (path : list string) : option (list string) :=
  match pat, path with
  | [], [] => Some []
  | Lit s :: pat', p :: path' => if String.eqb s p then match_segs pat' path' else None
  | Wild :: pat', p :: path' => if String.eqb p "" then None else cons p <$> match_segs pat' path'
  | _, _ => None
  end.

Record Route (H : Type) := mkRoute { rt_Method : string; rt_Pattern : list Seg; rt_Handler : list string → H }.
Arguments mkRoute {H} _ _ _.
Arguments rt_Method {H} _.
Arguments rt_Pattern {H} _.
Arguments rt_Handler {H} _ _.

(** A pattern with the method GET also serves HEAD. *)
Definition method_ok (pattern method : string) : bool :=
  String.eqb pattern method || (String.eqb pattern "GET" && String.eqb method "HEAD").

(** The handler of a request and, when no method fits, the methods that would. *)
Definition find_route {H} (routes : list (Route H)) (method : string) (segs : list string) : option H * list string :=
  let matching := omap (λ rt, (λ pv, (rt_Method rt, rt_Handler rt pv)) <$> match_segs (rt_Pattern rt) segs) routes in
  (snd <$> head (base.filter (λ mh : string * H, method_ok mh.1 method = true) matching), matching.*1).

(** The value of the header Allow: the methods in order, with HEAD for GET. *)
Definition allow_header (methods : list string) : string :=
  Join (sort_Strings (if decide ("GET" ∈ methods) then "HEAD" :: methods else methods)) ", ".

(** ** middleware.go *)

Definition HeaderClientVersion : string := "X-Nebula-Client-Version".
Definition HeaderTraceID : string := "X-Trace-ID".

(** [fmt.Sscanf(s, "%d", &n)], [None] for an error. *)
Definition Sscanf_int (s : string) : option Z :=
  let s := trim_left s in
  let '(sign, rest) := sign_part s in
  match digits1 rest with
  | None => None
  | Some (d, _) => ParseInt ((if String.eqb sign "-" then "-" else "") +:+ d)
  end.

(** The identifier without its dashes. *)
Fixpoint without_dashes (s : string) : string :=
  match s with
  | EmptyString => EmptyString
  | String c s' => if Ascii.eqb c "-" then without_dashes s' else String c (without_dashes s')
  end.

(** The trace that the headers of a request continue; empty when there is none. *)
Class Propagator := otel_trace_id : Header → string.

Section middleware.
Context {DR IR WR F X MP PR L : Type}.
Context {ent : Entropy} `{!DeploymentRepository DR, !InstanceRepository IR, !WorkerRepository WR}.
Context `{!WorkerClientFactory F, !Externals X} {uni : Unicode} {net : NetURL}.
Context `{!MetricsProvider MP, !ProjectRepository PR} {fc : FloatConv}.
Context {ft : FloatText} {jt : JsonText} {hm : Hmac} {cr : Crypto} `{!SecretOps X} {tt_ : TimeText}.
Context `{!Backends X, !RateLib L} {prop : Propagator}.
Context (cfg : ServerConfig).

Abbreviation state := (ApiSys MP PR (Sys DR IR WR F X) L).
Abbreviation M := (ST state).
Abbreviation handler := (Handler (option User) state).
Abbreviation request := (Http.Request (option User)).

(** [ExtractHTTPHeaders] and [EnsureTraceID] of observability/tracing.go. *)
Definition extracted_trace_id (r : request) : string :=
  let tid := otel_trace_id (r_Header r) in
  if decide (tid = "") then req_header r HeaderTraceID else tid.

Definition trace_id (r : request) : M string :=
  let tid := extracted_trace_id r in
  if decide (tid = "") then
    let! u := on_svc draw_uuid in ret ("trace-" +:+ without_dashes u)
  else ret tid.

Definition requestID (next : handler) : handler := λ r w,
  let rid := req_header r "X-Request-ID" in
  let! rid := (if decide (rid = "") then let! u := on_svc draw_uuid in ret (str_take 8 u) else ret rid) in
  let! tid := trace_id r in
  next r (SetHeader HeaderTraceID tid (SetHeader "X-Request-ID" rid w)).

Definition recoverer (next : handler) : handler := λ r w,
  let! o := next r w in
  ret (match o with
       | Panicked w => Returned (writeErr 500 "internal server error" w)
       | o => o
       end).

Definition hsts : string := "max-age=63072000; includeSubDomains; preload".

(** [r.URL.RequestURI()]. *)
Definition url_RequestURI (r : request) : string :=
  (if decide (r_EscapedPath r = "") then "/" else r_EscapedPath r)
  +:+ (if decide (r_RawQuery r = "") then "" else "?" +:+ r_RawQuery r).

Definition is_https (r : request) : bool := r_TLS r || String.eqb (req_header r "X-Forwarded-Proto") "https".

Definition RequireHTTPS (enforce : bool) (next : handler) : handler := λ r w,
  let w := SetHeader "Strict-Transport-Security" hsts w in
  if enforce && negb (is_https r) then
    if String.eqb (r_Method r) "GET" || String.eqb (r_Method r) "HEAD"
    then reply (redirect ("https://" +:+ r_Host r +:+ url_RequestURI r) r w)
    else reply (writeErr 426 "HTTPS is required for all API interactions" w)
  else next r w.

Definition ClientVersionCheck (minSupportedMajor : Z) (next : handler) : handler := λ r w,
  let v := req_header r HeaderClientVersion in
  if decide (v = "") then next r w
  else
    match Sscanf_int (split_head (TrimPrefix v "v") ".") with
    | Some major =>
      if major <? minSupportedMajor
      then reply (writeErr 426 ("client version mismatch: " +:+ v +:+ " is deprecated, please upgrade nebula-cli to >= v"
             +:+ Itoa minSupportedMajor +:+ ".0.0") w)
      else next r w
    | None => next r w
    end.

(** ** The load balancer as a handler *)

Definition lb_request (r : request) : LoadBalancer.Request :=
  LoadBalancer.mkRequest (r_Host r) (req_header r "X-Project-ID") (QueryGet (r_RawQuery r) "project") (r_Path r).

Definition missing_project : string :=
  "missing project identifier (Host header, X-Project-ID header, or /services/{project-id} path)".

Definition serve_balancer : handler := λ r w,
  let! res := on_svc (λ p, let '(res, rt) := LoadBalancer.ServeHTTP (lb_request r) (s_router p) in
                           (res, p <| s_router := rt |>)) in
  match res with
  | None => ret (Panicked w)
  | Some BadRequest => reply (http_Error missing_project 400 w)
  | Some (ServiceUnavailable msg) => reply (http_Error msg 503 w)
  | Some (Proxied t) =>
    let w := SetHeader "X-Routed-Instance" (t_InstanceID t) (SetHeader "X-Forwarded-By" "nebula-loadbalancer" w) in
    on_svc (on_ext (proxy_to t r w))
  end.

(** ** router.go *)

Definition health : handler := λ r w,
  reply (Write ("{" +:+ quote "status" +:+ ":" +:+ quote "ok" +:+ "}")
           (WriteHeader 200 (SetHeader "Content-Type" "application/json" w))).

(** A handler of one path value and of two. *)
Definition on1 (h : string → handler) (pv : list string) : handler :=
  match pv with [a] => h a | _ => λ r w, reply (http_Error "404 page not found" 404 w) end.
Definition on2 (h : string → string → handler) (pv : list string) : handler :=
  match pv with [a; b] => h a b | _ => λ r w, reply (http_Error "404 page not found" 404 w) end.

Context (metricsHandler : handler).

(** The request logger wraps the writer in one that does not flush, so logs are
    never streamed. *)
Definition no_stream : option (state → list state) := None.

Definition api_routes : list (Route handler) :=
  let v1 l := Lit "v1" :: l in
  let project l := v1 (Lit "projects" :: Wild :: l) in
  let deployment l := v1 (Lit "deployments" :: Wild :: l) in
  [mkRoute "POST" (v1 [Lit "projects"]) (λ _, createProject);
   mkRoute "GET" (v1 [Lit "projects"]) (λ _, listProjects cfg);
   mkRoute "GET" (project []) (on1 (getProject cfg));
   mkRoute "POST" (project [Lit "scale"]) (on1 (scaleProject cfg));
   mkRoute "POST" (project [Lit "deployments"]) (on1 (createDeployment cfg));
   mkRoute "GET" (project [Lit "deployments"]) (on1 (listDeployments cfg));
   mkRoute "GET" (deployment []) (on1 (getDeployment cfg));
   mkRoute "POST" (deployment [Lit "rollback"]) (on1 (rollbackDeployment cfg));
   mkRoute "POST" (deployment [Lit "stop"]) (on1 (stopDeployment cfg));
   mkRoute "POST" (deployment [Lit "scale"]) (on1 (scaleDeployment cfg));
   mkRoute "POST" (project [Lit "autoscaler"; Lit "policy"]) (on1 (setAutoscalerPolicy cfg));
   mkRoute "GET" (project [Lit "autoscaler"; Lit "policy"]) (on1 (getAutoscalerPolicy cfg));
   mkRoute "POST" (project [Lit "autoscaler"; Lit "evaluate"]) (on1 (evaluateAutoscaler cfg));
   mkRoute "GET" (project [Lit "events"]) (on1 (listProjectEvents cfg));
   mkRoute "GET" (deployment [Lit "events"]) (on1 (listDeploymentEvents cfg));
   mkRoute "GET" (project [Lit "logs"]) (on1 (listProjectLogs cfg no_stream));
   mkRoute "GET" (deployment [Lit "logs"]) (on1 (listDeploymentLogs cfg no_stream));
   mkRoute "POST" (project [Lit "webhooks"]) (on1 handleProjectWebhook);
   mkRoute "POST" (project [Lit "secrets"]) (on1 (createSecret cfg));
   mkRoute "GET" (project [Lit "secrets"]) (on1 (listSecrets cfg));
   mkRoute "POST" (project [Lit "secrets"; Wild; Lit "rotate"]) (on2 (rotateSecret cfg));
   mkRoute "GET" (v1 [Lit "workers"]) (λ _, listWorkers);
   mkRoute "GET" [Lit "health"] (λ _, health);
   mkRoute "GET" [Lit "metrics"] (λ _, metricsHandler)].

(** The multiplexer: a path that is not clean is redirected, and so is
    /services; everything below /services/ goes to the load balancer. *)
Definition serve_mux : handler := λ r w,
  let escaped := r_EscapedPath r in
  let path := if String.eqb (r_Method r) "CONNECT" then escaped else cleanPath escaped in
  let query := if decide (r_RawQuery r = "") then "" else "?" +:+ r_RawQuery r in
  if bool_decide (path_segments path = ["services"])
  then reply (redirect (escape_path (cleanPath (r_Path r) +:+ "/") +:+ query) r w)
  else if negb (String.eqb path escaped) then reply (redirect (escape_path path +:+ query) r w)
  else if bool_decide (head (path_segments path) = Some "services") then serve_balancer r w
  else match find_route api_routes (r_Method r) (path_segments path) with
       | (Some h, _) => h r w
       | (None, []) => reply (http_Error "404 page not found" 404 w)
       | (None, methods) => reply (http_Error "Method Not Allowed" 405 (SetHeader "Allow" (allow_header methods) w))
       end.

(** The hook for the hostnames of projects. *)
Definition hostname_hook (orig : handler) : handler := λ r w,
  let! p := on_svc (gets (λ p, GetProjectForHostname (r_Host r) (s_router p))) in
  match p with Some _ => serve_balancer r w | None => orig r w end.

Definition set_limiter (t : TenantRateLimiter (option User) L) (s : state) : state := s <| ap_limiter := t |>.

(** The handler behind the middleware that authenticates. *)
Definition authenticated : handler :=
  AuthMiddleware (if sc_auth cfg then Some ap_tokens else None) (hostname_hook serve_mux).

(** The middleware in the order of the code; the request logger only logs. *)
Definition NewRouter : handler :=
  let handler := authenticated in
  let handler := if sc_enableWAF cfg then WAFMiddleware handler else handler in
  let handler := if sc_rateLimiter cfg then RateMiddleware (on_svc draw_now) ap_limiter set_limiter handler else handler in
  RequireHTTPS (sc_enforceHTTPS cfg) (recoverer (requestID (ClientVersionCheck 1 handler))).

End middleware.

Example cleanPath_ex :
  cleanPath "/v1//projects/../workers" = "/v1/workers" ∧ cleanPath "/services/" = "/services/" ∧ cleanPath "" = "/"
  ∧ cleanPath "/a/b/.." = "/a" ∧ cleanPath "/v1/projects/x" = "/v1/projects/x".
Proof. vm_compute. done. Qed.

Example escape_path_ex : escape_path "/a b/%2F!" = "/a%20b/%252F%21".
Proof. vm_compute. done. Qed.

Example Sscanf_ex : Sscanf_int "0rc" = Some 0 ∧ Sscanf_int "x" = None ∧ Sscanf_int "-2" = Some (-2).
Proof. vm_compute. done. Qed.

Example html_redirect_ex : html_escape "a&b" = "a&amp;b".
Proof. reflexivity. Qed.
