(* ===== verification/Tenancy.v ===== *)
(** * What an operation leaves to the other projects

    [confined ok]: a computation on the platform changes only what belongs to
    the projects of [ok]. The operations of the service and of the autoscaler
    are confined to the project of the deployment they are about. *)

From stdpp Require Import base option gmap strings list pretty.
From Stdlib Require Import ZArith Lia.
From S2P Require Import Prelude GoLib GoFloat PtrStore Workers Scheduler LoadBalancer HA Deployments Fleet Platform Service ServiceFacts Lifecycle Scaling Projects Policy Autoscaler.

Section tenancy.
Context {DR IR WR F X : Type}.
Context {ent : Entropy} `{!DeploymentRepository DR, !InstanceRepository IR, !WorkerRepository WR}.
Context `{!WorkerClientFactory F, !Externals X} {uni : Unicode} {net : NetURL}.
Context {entl : EntropyLaws} `{!DeploymentStore DR, !InstanceStore IR, !WorkerRepositoryLaws WR}.
Implicit Types s : Sys DR IR WR F X.
Implicit Types ok : string → Prop.

Definition confined ok s s' : Prop := sys_ok s → sys_ok s' ∧ within ok (view s) (view s').

#[export] Instance confined_preorder ok : PreOrder (confined ok).
Proof.
  split; [by intros s H|]. intros s1 s2 s3 H12 H23 H. destruct (H12 H) as [H2 W12], (H23 H2) as [H3 W23].
  split; [done|by etransitivity].
Qed.

Lemma confined_impl ok ok' s s' : (∀ p, ok p → ok' p) → confined ok s s' → confined ok' s s'.
Proof. intros Hi Hc H. destruct (Hc H). split; [done|by eapply within_impl]. Qed.

(** Calls that change no contents are confined to no project at all. *)
Lemma after_confined ok s s' : after s s' (view s) → confined ok s s'.
Proof. intros A _. split; [apply (af_ok _ _ _ A)|by rewrite (af_view _ _ _ A)]. Qed.

Lemma idle_confined {A} ok (m : ST (Sys DR IR WR F X) A) : idle m → steps (confined ok) m.
Proof.
  intros Hm s H.
  exact (Hm (λ _ s', sys_ok s' ∧ within ok (view s) (view s')) s H (λ _ s' A, after_confined ok s s' A H)).
Qed.

Lemma wp_confined {A} ok (m : ST (Sys DR IR WR F X) A) Q s :
  (sys_ok s → wp m Q s) → (∀ a s', Q a s' → sys_ok s' ∧ within ok (view s) (view s')) →
  wp m (λ _ s', confined ok s s') s.
Proof. intros Hm HQ H. eapply HQ, Hm, H. Qed.

(** ** The service *)

Lemma confined_CreateAndDeploy ok params :
  ok (cp_ProjectID params) → steps (confined ok) (CreateAndDeploy (DR := DR) (IR := IR) (WR := WR) (F := F) (X := X) params).
Proof.
  intros Hok s. apply (wp_confined ok _ _ s (wp_CreateAndDeploy params s)).
  intros [[od created] err] s' [H' Hp]. split; [done|].
  destruct od as [dep|]; [|by destruct Hp as (_ & _ & ->)]. destruct Hp as (Hf & Ht & _).
  eapply within_impl; [|eapply touches_within; [done|]]; [by intros ? <-|]. by rewrite Hf.
Qed.

Lemma wp_stop_confined ok depID dep s :
  v_deps (view s) !! depID = Some dep → ok (d_ProjectID dep) →
  wp (StopDeployment depID) (λ _ s', confined ok s s') s.
Proof.
  intros Ed Hok. apply (wp_confined ok _ _ s (wp_StopDeployment depID s)).
  intros [err|d'] s'; [by intros (H' & -> & _)|]. intros (d & Hd & E & _). rewrite Ed in Hd. injection Hd as <-.
  split; [apply (ev_ok _ _ _ _ E)|]. eapply within_impl; [|eapply touches_within; [apply (ev_touches _ _ _ _ E)|]].
  - by intros ? <-.
  - rewrite Ed. by intros ? [= <-].
Qed.

Lemma wp_rollback_confined ok depID dep s :
  v_deps (view s) !! depID = Some dep → ok (d_ProjectID dep) →
  wp (Rollback depID) (λ _ s', confined ok s s') s.
Proof.
  intros Ed Hok. apply (wp_confined ok _ _ s (wp_Rollback depID s)).
  intros [[od created] err] s' [H' Hp]. split; [done|].
  destruct od as [newDep|]; [|by destruct Hp as (_ & _ & ->)].
  destruct Hp as (d & rel & Hd & _ & W & _). rewrite Ed in Hd. injection Hd as <-.
  eapply within_impl; [|done]. by intros ? <-.
Qed.

Lemma scale_post_within ok depID n s r s' dep :
  v_deps (view s) !! depID = Some dep → ok (d_ProjectID dep) → scale_post depID n s r s' →
  within ok (view s) (view s').
Proof.
  intros Ed Hok. unfold scale_post. destruct r as [[[d'|] active] err].
  - intros ((d & Hd & Hp) & E & _). rewrite Ed in Hd. injection Hd as <-.
    eapply within_impl; [|eapply touches_within; [apply (ev_touches _ _ _ _ E)|]].
    + by intros ? <-; rewrite <- Hp.
    + rewrite Ed. by intros ? [= <-].
  - intros (_ & _ & A). by rewrite (af_view _ _ _ A).
Qed.

Lemma wp_scale_confined ok depID n dep s :
  v_deps (view s) !! depID = Some dep → ok (d_ProjectID dep) →
  wp (ScaleDeployment depID n) (λ _ s', confined ok s s') s.
Proof.
  intros Ed Hok. apply (wp_confined ok _ _ s (wp_ScaleDeployment depID n s)).
  intros r s' [Hp _]. split; [by eapply scale_post_ok|by eapply scale_post_within].
Qed.

(** A running deployment of the project is scaled, if there is one. *)
Lemma wp_ScaleProject projectID n s :
  sys_ok s →
  wp (ScaleProject projectID n) (λ r s',
    (r = (None, [], Some ErrNoRunningDeployment) ∧ after s s' (view s)
       ∧ (∀ dep, v_deps (view s) !! d_ID dep = Some dep → d_of_project projectID dep → d_Status dep ≠ StatusRunning))
    ∨ ∃ dep, runs_for projectID (view s) dep ∧ scale_post (d_ID dep) n s r s') s.
Proof.
  intros H. unfold ScaleProject. apply wp_bind, wp_dep_list; [done|]. intros l s1 A1 Hl.
  assert (first_running l = head (base.filter (λ d, d_Status d = StatusRunning) l)) as Hf by done.
  destruct (base.filter _ l) as [|dep l'] eqn:E.
  - apply wp_ret. left. split; [done|]. split; [done|]. intros dep Hd Hp Hs.
    assert (dep ∈ base.filter (λ d, d_Status d = StatusRunning) l) as Hin; [|rewrite E in Hin; set_solver].
    apply list_elem_of_filter. split; [done|]. rewrite Hl. apply list_elem_of_filter. split; [done|].
    apply list_elem_of_fmap. exists (d_ID dep, dep). by rewrite elem_of_map_to_list.
  - cbn in Hf. apply (first_running_listed projectID (view s)) in Hf; [|apply (ok_dep_keys _ H)|done].
    eapply wp_wand; [apply wp_ScaleDeployment, (af_ok _ _ _ A1)|]. intros r s2 [Hp _]. right.
    exists dep. split; [done|]. eapply scale_post_frame; [done|done|]. apply after_refl. by eapply scale_post_ok.
Qed.

Lemma runs_for_owner projectID (v : View WR) dep :
  projectID ≠ "" → runs_for projectID v dep → v_deps v !! d_ID dep = Some dep ∧ d_ProjectID dep = projectID.
Proof. by intros Hne (Hd & [?|Hp] & _). Qed.

Lemma confined_ScaleProject ok projectID n :
  projectID ≠ "" → ok projectID →
  steps (confined ok) (ScaleProject (DR := DR) (IR := IR) (WR := WR) (F := F) (X := X) projectID n).
Proof.
  intros Hne Hok s. apply (wp_confined ok _ _ s (wp_ScaleProject projectID n s)).
  intros r s' [(_ & A & _)|(dep & Hrun & Hp)].
  - split; [apply (af_ok _ _ _ A)|by rewrite (af_view _ _ _ A)].
  - apply runs_for_owner in Hrun as [Hd Ho]; [|done].
    split; [by eapply scale_post_ok|]. eapply scale_post_within; [done| |done]. by rewrite Ho.
Qed.

(** ** The autoscaler *)

Context {MP PR : Type} `{!MetricsProvider MP, !ProjectRepository PR} {fc : FloatConv}.
Implicit Types a : AutoSys MP PR (Sys DR IR WR F X).

Definition same_policies a a' : Prop := a_policies a' = a_policies a.

#[export] Instance same_policies_preorder : PreOrder same_policies.
Proof. split; [done|]. unfold same_policies. congruence. Qed.

Lemma policies_on_sys {A} (m : ST (Sys DR IR WR F X) A) : steps same_policies (on_sys (MP := MP) (PR := PR) m).
Proof. intros a. unfold same_policies, on_sys. by destruct (m (a_sys a)). Qed.

Lemma policies_stamp projectID action now :
  steps same_policies (stamp_scaling (DR := DR) (IR := IR) (WR := WR) (F := F) (X := X) (MP := MP) (PR := PR) projectID action now).
Proof. intros a. by destruct action. Qed.

Lemma policies_update projectID n :
  steps same_policies (update_project (DR := DR) (IR := IR) (WR := WR) (F := F) (X := X) (MP := MP) (PR := PR) projectID n).
Proof.
  intros a. unfold update_project. destruct (a_projects a); [|done]. destruct (on_sys draw_now a) as [now a'] eqn:E.
  pose proof (policies_on_sys draw_now a) as H. by rewrite E in H.
Qed.

#[local] Hint Resolve policies_on_sys policies_stamp policies_update : go.

Lemma policies_EvaluateAndScale projectID :
  steps same_policies (EvaluateAndScale (DR := DR) (IR := IR) (WR := WR) (F := F) (X := X) (MP := MP) (PR := PR) projectID).
Proof.
  unfold EvaluateAndScale, Evaluate, apply_scaling, enforce_cooldown, inside_window, since_text, GetPolicy. steps_tac.
Qed.

Lemma wp_evaluate_confined ok projectID a :
  projectID ≠ "" → ok projectID →
  wp (EvaluateAndScale projectID) (λ _ a', confined ok (a_sys a) (a_sys a')) a.
Proof.
  intros Hne Hok. unfold wp. intros H. pose proof (wp_EvaluateAndScale projectID a H) as W. unfold wp in W.
  destruct (EvaluateAndScale projectID a) as [r a'] eqn:E. cbn in *.
  destruct W as (H' & d & _ & _ & [(_ & V & _)|(_ & _ & dep & r' & Hrun & Hp & _)]).
  - split; [done|by rewrite V].
  - apply runs_for_owner in Hrun as [Hd Ho]; [|done].
    split; [by eapply scale_post_ok|]. eapply scale_post_within; [done| |done]. by rewrite Ho.
Qed.

End tenancy.
