(* ===== verification/ApiFacts.v ===== *)
(** * What a request changes

    [leaves ok]: after a step of the API, in a platform that was in order,
    everything of the projects outside of [ok] is as it was: deployments,
    instances, routes and scaling policies; and the tokens are the same. Every
    handler is confined to the projects that its checks let through, and so is
    the whole tree of [NewRouter]. *)

From stdpp Require Import base option gmap strings list pretty.
From Stdlib Require Import ZArith Lia Ascii.
From S2P Require Import Prelude GoLib GoFloat GoTime PtrStore Workers Scheduler LoadBalancer HA Deployments Fleet Platform Service ServiceFacts Lifecycle Scaling Projects Policy Autoscaler Demo ServiceTheorems Secrets Registry AuditLog Http Auth Idempotency RateLimit Waf Json JsonDecode ApiData Api ApiLogs ApiRouter Tenancy.

Section facts.
Context {DR IR WR F X MP PR L : Type}.
Context {ent : Entropy} `{!DeploymentRepository DR, !InstanceRepository IR, !WorkerRepository WR}.
Context `{!WorkerClientFactory F, !Externals X} {uni : Unicode} {net : NetURL}.
Context {entl : EntropyLaws} `{!DeploymentStore DR, !InstanceStore IR, !WorkerRepositoryLaws WR}.
Context `{!MetricsProvider MP, !ProjectRepository PR} {fc : FloatConv}.
Context {ft : FloatText} {jt : JsonText} {hm : Hmac} {cr : Crypto} `{!SecretOps X} {tt_ : TimeText}.
Context `{!Backends X, !RateLib L} {prop : Propagator}.
Context (cfg : ServerConfig).

Abbreviation state := (ApiSys MP PR (Sys DR IR WR F X) L).
Abbreviation M := (ST state).
Abbreviation handler := (Handler (option User) state).
Abbreviation request := (Http.Request (option User)).
Implicit Types s : state.
Implicit Types r : request.
Implicit Types ok : string → Prop.

Definition platform s : Sys DR IR WR F X := a_sys (ap_auto s).

Record left_alone ok s s' : Prop := {
  la_ok : sys_ok (platform s');
  la_within : within ok (view (platform s)) (view (platform s'));
  la_policies : ∀ q, ¬ ok q → a_policies (ap_auto s') !! q = a_policies (ap_auto s) !! q;
  la_tokens : ap_tokens s' = ap_tokens s
}.

Definition leaves ok s s' : Prop := sys_ok (platform s) → left_alone ok s s'.

#[export] Instance leaves_preorder ok : PreOrder (leaves ok).
Proof.
  split; [by intros s H|]. intros s1 s2 s3 H12 H23 H.
  destruct (H12 H) as [H2 W2 P2 T2], (H23 H2) as [H3 W3 P3 T3].
  split; [done|by etransitivity| |congruence]. intros q Hq. by rewrite P3, P2.
Qed.

Lemma leaves_impl ok ok' s s' : (∀ p, ok p → ok' p) → leaves ok s s' → leaves ok' s s'.
Proof. intros Hi Hl H. destruct (Hl H). split; [done|by eapply within_impl|naive_solver|done]. Qed.

(** A platform in order may be assumed. *)
Lemma steps_ordered {A} ok (m : M A) s :
  (∀ s, sys_ok (platform s) → wp m (λ _ s', leaves ok s s') s) → leaves ok s (m s).2.
Proof. intros H Hs. by apply (H s Hs). Qed.

(** A step beside the platform. *)
Lemma leaves_aside ok s s' : ap_auto s' = ap_auto s → ap_tokens s' = ap_tokens s → leaves ok s s'.
Proof. intros E T H. unfold platform in *. split; unfold platform; rewrite ?E; done. Qed.

(** ** Calls *)

Lemma wp_on_svc {A} (m : ST (Sys DR IR WR F X) A) (Q : A → state → Prop) s :
  wp m (λ x p, Q x (s <| ap_auto ::= λ a, a <| a_sys := p |> |>)) (platform s) → wp (on_svc m) Q s.
Proof. unfold wp, on_svc, platform. by destruct (m (a_sys (ap_auto s))). Qed.

Lemma leaves_platform ok s p :
  confined ok (platform s) p → leaves ok s (s <| ap_auto ::= λ a, a <| a_sys := p |> |>).
Proof. intros Hc H. destruct (Hc H). by split. Qed.

Lemma wp_svc_confined {A} ok (m : ST (Sys DR IR WR F X) A) s :
  wp m (λ _ p, confined ok (platform s) p) (platform s) → wp (on_svc m) (λ _ s', leaves ok s s') s.
Proof. intros Hm. apply wp_on_svc. eapply wp_wand; [done|]. intros x p. apply leaves_platform. Qed.

Lemma steps_svc {A} ok (m : ST (Sys DR IR WR F X) A) :
  steps (confined ok) m → steps (leaves ok) (on_svc (MP := MP) (PR := PR) (L := L) m).
Proof. intros Hm s. apply (wp_svc_confined ok m s), Hm. Qed.

Lemma steps_svc_idle {A} ok (m : ST (Sys DR IR WR F X) A) :
  idle m → steps (leaves ok) (on_svc (MP := MP) (PR := PR) (L := L) m).
Proof. intros Hm. by apply steps_svc, idle_confined. Qed.

(** The read and the check at the start of a handler. *)
Lemma wp_GetDeployment depID (Q : _ → Sys DR IR WR F X → Prop) p :
  sys_ok p →
  (∀ d l p', after p p' (view p) → v_deps (view p) !! depID = Some d → Q (inr (d, l)) p') →
  (∀ err p', after p p' (view p) → Q (inl err) p') →
  wp (GetDeployment depID) Q p.
Proof.
  intros H HQ Herr. unfold GetDeployment. apply wp_bind, wp_dep_get.
  destruct (v_deps (view p) !! depID) as [d|] eqn:Ed; [|by apply wp_ret, Herr, after_refl].
  apply wp_bind, wp_inst_list; [done|]. intros l p' A _. apply wp_ret. by apply HQ.
Qed.

(** ** The handlers *)

#[local] Hint Extern 1 (PreOrder _) => apply _ : go.
#[local] Hint Resolve steps_svc_idle idle_draw_uuid idle_draw_now idle_draw_order idle_on_ext : go.

Lemma steps_reply ok w : steps (leaves ok) (reply w : M Http.Outcome).
Proof. apply steps_ret, _. Qed.

Lemma steps_gets_svc {A} ok (f : Sys DR IR WR F X → A) : steps (leaves ok) (on_svc (MP := MP) (PR := PR) (L := L) (gets f)).
Proof. apply steps_svc, steps_gets, _. Qed.

Lemma steps_list_svc ok projectID : steps (leaves ok) (on_svc (MP := MP) (PR := PR) (L := L) (dep_list projectID)).
Proof.
  apply steps_svc_idle. intros Q p H HQ. apply wp_dep_list; [done|]. intros l p' A _. by apply HQ.
Qed.

Lemma steps_complete ok key code header body : steps (leaves ok) (complete (DR := DR) (IR := IR) (WR := WR) (F := F) (X := X) (MP := MP) (PR := PR) (L := L) key code header body).
Proof. intros s. unfold complete. destruct (Complete _ _ _); by apply leaves_aside. Qed.

#[local] Hint Resolve steps_gets_svc steps_list_svc steps_complete : go.

Lemma steps_audit ok ev actor res details : steps (leaves ok) (RecordAudit cfg ev actor res details : M unit).
Proof. unfold RecordAudit. steps_tac. intros s. by apply leaves_aside. Qed.

Lemma steps_respond ok key status v w : steps (leaves ok) (respond key status v w : M Http.Outcome).
Proof. unfold respond, reply. steps_tac. Qed.

#[local] Hint Resolve steps_audit steps_respond : go.

Lemma steps_replay ok l w : steps (leaves ok) (replay l w : M Http.Outcome).
Proof. unfold replay, reply. steps_tac. Qed.

Lemma steps_deploy_reply ok send w res :
  (∀ status v, steps (leaves ok) (send status v)) → steps (leaves ok) (deploy_reply send w res : M Http.Outcome).
Proof. intros H. unfold deploy_reply. destruct res as [[[d|] l] [err|]]; steps_tac. Qed.

#[local] Hint Resolve steps_replay : go.

(** Requests that read only. *)
Lemma steps_reads ok r w :
  (∀ idOrName, steps (leaves ok) (getProject cfg idOrName r w : M Http.Outcome))
  ∧ steps (leaves ok) (listProjects cfg r w : M Http.Outcome)
  ∧ (∀ p, steps (leaves ok) (listDeployments cfg p r w : M Http.Outcome))
  ∧ (∀ p, steps (leaves ok) (listProjectEvents cfg p r w : M Http.Outcome))
  ∧ steps (leaves ok) (listWorkers r w : M Http.Outcome).
Proof.
  split_and!; intros; unfold getProject, listProjects, listDeployments, listProjectEvents, listWorkers, project_find,
    project_get, project_named, project_id_of, project_find, project_get, project_named, events_reply, ListDeployments, reply; steps_tac.
Qed.

(** *** Behind the check of a project *)

Lemma steps_checked {A} ok r p (m m' : M A) :
  (∀ q, denied cfg r q = false → ok q) → steps (leaves ok) m' → (ok p → steps (leaves ok) m) →
  steps (leaves ok) (if denied cfg r p then m' else m).
Proof. intros Hok Hm' Hm. destruct (denied cfg r p) eqn:E; [done|]. by apply Hm, Hok. Qed.

(** What a handler does with the deployment it was given. *)
Lemma steps_with_deployment ok depID nf r w (body : Deployment → list Instance_ → M Http.Outcome) :
  (∀ q, denied cfg r q = false → ok q) →
  (∀ d l s, v_deps (view (platform s)) !! depID = Some d → ok (d_ProjectID d) →
     wp (body d l) (λ _ s', leaves ok s s') s) →
  steps (leaves ok) (with_deployment cfg depID nf r w body).
Proof.
  intros Hok Hbody s. apply steps_ordered. clear s. intros s H.
  unfold with_deployment. apply wp_bind, wp_on_svc, wp_GetDeployment; [done|..].
  - intros d l p' A Ed. destruct (denied cfg r (d_ProjectID d)) eqn:E.
    + apply wp_ret, leaves_platform. by apply after_confined.
    + eapply wp_wand; [apply Hbody|].
      * unfold platform. cbn. by rewrite (af_view _ _ _ A).
      * by apply Hok.
      * intros o s' Hs'. etransitivity; [apply leaves_platform; by apply after_confined|done].
  - intros err p' A. case_decide; apply wp_ret, leaves_platform; by apply after_confined.
Qed.

Lemma steps_outcome_reply ok w w' res : steps (leaves ok) (outcome_reply w w' res : M Http.Outcome).
Proof. unfold outcome_reply, reply. destruct res as [[[d|] l] [err|]]; steps_tac. Qed.

#[local] Hint Resolve steps_outcome_reply : go.

(** A call on the service, and a reply that depends on its result. *)
Lemma wp_svc_reply {A} ok (m : ST (Sys DR IR WR F X) A) (k : A → M Http.Outcome) s :
  wp m (λ _ p, confined ok (platform s) p) (platform s) → (∀ x, steps (leaves ok) (k x)) →
  wp (bind (on_svc m) k) (λ _ s', leaves ok s s') s.
Proof.
  intros Hm Hk. apply wp_bind. eapply wp_wand; [by apply (wp_svc_confined ok)|].
  intros x s1 H1. eapply wp_wand; [apply steps_wp, Hk|]. intros o s2 H2. exact (transitivity H1 H2).
Qed.

(** The handlers of one deployment. *)
Lemma steps_deployment_handlers ok r w depID :
  (∀ q, denied cfg r q = false → ok q) →
  steps (leaves ok) (getDeployment cfg depID r w : M Http.Outcome)
  ∧ steps (leaves ok) (rollbackDeployment cfg depID r w : M Http.Outcome)
  ∧ steps (leaves ok) (stopDeployment cfg depID r w : M Http.Outcome)
  ∧ steps (leaves ok) (scaleDeployment cfg depID r w : M Http.Outcome)
  ∧ steps (leaves ok) (listDeploymentEvents cfg depID r w : M Http.Outcome).
Proof.
  intros Hok. split_and!; (apply steps_with_deployment; [exact Hok|]); intros d l s Ed Hd.
  - by apply wp_ret.
  - apply wp_svc_reply; [by eapply wp_rollback_confined|]. steps_tac.
  - apply wp_svc_reply; [by eapply wp_stop_confined|]. unfold reply. steps_tac.
  - destruct (Decode _ _ _ _ _) as [req [err|]]; [by apply wp_ret|].
    apply wp_svc_reply; [by eapply wp_scale_confined|]. steps_tac.
  - apply steps_wp. unfold events_reply, reply. steps_tac.
Qed.

Lemma steps_scaleProject ok r w projectID :
  (∀ q, denied cfg r q = false → ok q) → projectID ≠ "" →
  steps (leaves ok) (scaleProject cfg projectID r w : M Http.Outcome).
Proof.
  intros Hok Hne. apply steps_checked; [done|apply steps_reply|]. intros Hp.
  destruct (Decode _ _ _ _ _) as [req [err|]]; [apply steps_reply|].
  intros s. apply wp_svc_reply; [apply steps_wp; by apply confined_ScaleProject|]. steps_tac.
Qed.

(** *** The autoscaler and the secrets *)

Lemma wp_auto_confined {A} ok (m : ST (AutoSys MP PR (Sys DR IR WR F X)) A) s :
  (∀ a, platform s = a_sys a → a_policies a = a_policies (ap_auto s) →
     wp m (λ _ a', confined ok (platform s) (a_sys a')
       ∧ ∀ q, ¬ ok q → a_policies a' !! q = a_policies a !! q) a) →
  wp (on_auto cfg m) (λ _ s', leaves ok s s') s.
Proof.
  intros Hm. unfold wp, on_auto in *. set (a := (ap_auto s) <| a_projects := _ |>).
  destruct (Hm a eq_refl eq_refl) as [Hc Hp]. destruct (m a) as [x a']. intros H. by destruct (Hc H).
Qed.

Lemma steps_with_autoscaler ok r w projectID (body : M Http.Outcome) :
  (∀ q, denied cfg r q = false → ok q) → (ok projectID → steps (leaves ok) body) →
  steps (leaves ok) (with_autoscaler cfg projectID r w body).
Proof. intros Hok Hb. apply steps_checked; [done|apply steps_reply|]. intros Hp. destruct (negb _); [apply steps_reply|auto]. Qed.

Lemma steps_autoscaler_handlers ok r w projectID :
  (∀ q, denied cfg r q = false → ok q) → projectID ≠ "" →
  steps (leaves ok) (setAutoscalerPolicy cfg projectID r w : M Http.Outcome)
  ∧ steps (leaves ok) (getAutoscalerPolicy cfg projectID r w : M Http.Outcome)
  ∧ steps (leaves ok) (evaluateAutoscaler cfg projectID r w : M Http.Outcome).
Proof.
  intros Hok Hne. split_and!; apply steps_with_autoscaler; try done; intros Hp.
  - destruct (Decode _ _ _ _ _) as [policy [err|]]; [apply steps_reply|].
    apply steps_bind; [apply _| |intros; apply steps_reply].
    intros s. apply (wp_auto_confined ok _ s). intros a -> _. unfold wp, SetPolicy.
    cbn [sp_ProjectID set_field ScalingPolicy_eta]. rewrite decide_False by done.
    cbn. split; [by apply confined_preorder|]. intros q Hq. rewrite lookup_insert_ne; [done|]. by intros ->.
  - apply steps_bind; [apply _| |intros [p|]; apply steps_reply].
    intros s. apply (wp_auto_confined ok _ s). intros a -> _. split; [by apply confined_preorder|done].
  - apply steps_bind; [apply _| |intros [d [err|]]; apply steps_reply].
    intros s. apply (wp_auto_confined ok _ s). intros a -> _. apply wp_and; [by apply wp_evaluate_confined|].
    eapply wp_wand; [apply steps_wp, policies_EvaluateAndScale|]. intros x a' Ha q _. by rewrite Ha.
Qed.

Lemma steps_with_secret_store ok r w projectID (body : M Http.Outcome) :
  steps (leaves ok) body → steps (leaves ok) (with_secret_store cfg projectID r w body).
Proof. intros Hb. unfold with_secret_store, reply. steps_tac. Qed.

Lemma steps_secret_handlers ok r w projectID name :
  steps (leaves ok) (createSecret cfg projectID r w : M Http.Outcome)
  ∧ steps (leaves ok) (listSecrets cfg projectID r w : M Http.Outcome)
  ∧ steps (leaves ok) (rotateSecret cfg projectID name r w : M Http.Outcome).
Proof.
  split_and!; apply steps_with_secret_store; unfold register_secret, rotate_secret, reply; steps_tac.
Qed.

(** *** Projects, deployments and webhooks *)

Lemma steps_createProject ok r w : steps (leaves ok) (createProject r w : M Http.Outcome).
Proof.
  unfold createProject, project_create, reply. steps_tac. intros s. destruct (pr_Create _ _ _) as [[? ?] ?].
  by apply leaves_aside.
Qed.

(** The projects that the project of a path stands for: itself, or the project
    with that name. *)
Definition stands_for s (path p : string) : Prop :=
  path = p ∨ ∃ q, pr_GetByName path (ap_projects s) = inr q ∧ p_ID q = p.

Lemma steps_deploy_in ok key projectID r w : ok projectID → steps (leaves ok) (deploy_in key projectID r w : M Http.Outcome).
Proof.
  intros Hok. unfold deploy_in. destruct (Decode _ _ _ _ _) as [req [err|]].
  - unfold reply. steps_tac.
  - destruct (_ && _); [apply steps_respond|]. apply steps_bind; [apply _| |].
    + apply steps_svc, confined_CreateAndDeploy, Hok.
    + intros res. apply steps_deploy_reply. intros status v. apply steps_respond.
Qed.

Lemma wp_create_deployment ok key projectID r w s :
  (∀ q p, denied cfg r q = false → stands_for s q p → ok p) →
  wp (create_deployment cfg key projectID r w) (λ _ s', leaves ok s s') s.
Proof.
  intros Hok. unfold create_deployment. destruct (denied cfg r projectID) eqn:Ed; [apply steps_wp, steps_respond|].
  apply wp_bind, wp_gets, wp_bind. destruct (pr_GetByID projectID (ap_projects s)) as [err|p].
  - apply wp_bind, wp_gets, wp_ret. destruct (pr_GetByName projectID (ap_projects s)) as [err'|p] eqn:En.
    + apply steps_wp, steps_respond.
    + apply steps_wp, steps_deploy_in, (Hok projectID); [done|right; eauto].
  - apply wp_ret, steps_wp, steps_deploy_in, (Hok projectID); [done|by left].
Qed.

Lemma wp_createDeployment ok projectID r w s :
  (∀ q p, denied cfg r q = false → stands_for s q p → ok p) →
  wp (createDeployment cfg projectID r w) (λ _ s', leaves ok s s') s.
Proof.
  intros Hok. unfold createDeployment. case_decide; [by apply wp_create_deployment|].
  apply wp_bind. unfold wp at 1. destruct (GetOrReserve _ _) as [[l isFirst] st]. cbn [fst snd].
  set (s1 := s <| ap_idempotency := st |>). assert (leaves ok s s1) as H1 by by apply leaves_aside.
  eapply (wp_wand _ (λ _ s', leaves ok s1 s')); [|intros o s2 H2; exact (transitivity H1 H2)].
  destruct isFirst; [by apply wp_create_deployment|apply steps_wp, steps_replay].
Qed.

(** The body carries a signature with the secret of the project. *)
Definition signed s r (p : string) : Prop :=
  ∃ proj, pr_GetByID p (ap_projects s) = inr proj
    ∧ VerifyWebhookSignature (webhook_secret proj) (read_limit max_payload (r_Body r)) (signature_header r) = true.

Lemma wp_webhook ok projectID r w s :
  (∀ p, signed s r p → ok p) →
  wp (handleProjectWebhook projectID r w) (λ _ s', leaves ok s s') s.
Proof.
  intros Hok. unfold handleProjectWebhook. case_decide; [by apply wp_ret|]. apply wp_bind, wp_gets.
  destruct (pr_GetByID projectID (ap_projects s)) as [err|proj] eqn:Ep; [by apply wp_ret|].
  case_decide; [by apply wp_ret|]. destruct (VerifyWebhookSignature _ _ _) eqn:Ev; [|by apply wp_ret].
  apply wp_svc_reply.
  - apply steps_wp, confined_CreateAndDeploy, Hok. by exists proj.
  - intros res. apply steps_deploy_reply. intros. apply steps_reply.
Qed.

(** *** Logs and the load balancer *)

Lemma steps_logs_reply ok events r w : steps (leaves ok) (logs_reply events r w : M Http.Outcome).
Proof. unfold logs_reply, reply. steps_tac. Qed.

#[local] Hint Resolve steps_reply steps_logs_reply : go.

Lemma steps_GetDeployment ok depID : steps (leaves ok) (on_svc (MP := MP) (PR := PR) (L := L) (GetDeployment depID)).
Proof.
  apply steps_svc_idle. intros Q p H HQ. apply wp_GetDeployment; [done|..]; intros; by apply HQ.
Qed.

#[local] Hint Resolve steps_GetDeployment : go.

Lemma steps_log_handlers ok r w id :
  steps (leaves ok) (listProjectLogs cfg no_stream id r w : M Http.Outcome)
  ∧ steps (leaves ok) (listDeploymentLogs cfg no_stream id r w : M Http.Outcome).
Proof.
  split; unfold listProjectLogs, listDeploymentLogs, no_stream, project_id_of, project_find, project_get, project_named;
    steps_tac.
Qed.

(** A request to an instance moves the round-robin counter. *)
Lemma steps_balancer ok r w : steps (leaves ok) (serve_balancer r w : M Http.Outcome).
Proof.
  unfold serve_balancer. steps_tac. apply steps_svc. intros p H.
  pose proof (ServeHTTP_tables (lb_request r) (s_router p)) as Hs.
  destruct (LoadBalancer.ServeHTTP (lb_request r) (s_router p)) as [res rt]. cbn [snd] in *.
  pose proof (λ q, targets_same_tables q _ _ Hs) as Ht.
  destruct H as [K1 K2 K3 K4 K5 K6 K7]. split.
  - split; try done. intros q. cbn. rewrite Ht. apply K7.
  - split; try done. intros q _. cbn. unfold routes. by rewrite Ht.
Qed.

#[local] Hint Resolve steps_balancer : go.

(** *** The routes *)

Lemma match_segs_values pat path pv : match_segs pat path = Some pv → Forall (λ v, v ≠ "") pv.
Proof.
  revert path pv. induction pat as [|[lit|] pat IH]; intros [|p path] pv; cbn; try done.
  - intros [= <-]. constructor.
  - destruct (String.eqb _ _); [apply IH|done].
  - destruct (String.eqb_spec p "") as [|Hp]; [done|]. destruct (match_segs pat path) as [pv'|] eqn:E; [|done].
    intros [= <-]. constructor; [done|by eapply IH].
Qed.

Lemma find_route_in {H} (routes : list (Route H)) method segs h rest :
  find_route routes method segs = (Some h, rest) →
  ∃ rt pv, rt ∈ routes ∧ match_segs (rt_Pattern rt) segs = Some pv ∧ h = rt_Handler rt pv.
Proof.
  unfold find_route. intros [= Hh _]. apply fmap_Some in Hh as ([m h'] & Hh & ->).
  assert ((m, h') ∈ omap (λ rt, (λ pv, (rt_Method rt, rt_Handler rt pv)) <$> match_segs (rt_Pattern rt) segs) routes) as Hin.
  { apply head_Some_elem_of in Hh. by apply list_elem_of_filter in Hh as [_ Hh]. }
  apply list_elem_of_omap in Hin as (rt & Hrt & Hm). apply fmap_Some in Hm as (pv & Hpv & [= -> ->]). eauto.
Qed.

Context (metricsHandler : handler).
Context (Hmetrics : ∀ ok r w, steps (leaves ok) (metricsHandler r w)).

(** The projects that a request may change, when it has passed the
    authentication. *)
Definition permitted s r (p : string) : Prop :=
  (∃ q, denied cfg r q = false ∧ stands_for s q p) ∨ signed s r p.

Lemma wp_route rt pv r w s :
  rt ∈ api_routes cfg metricsHandler → Forall (λ v, v ≠ "") pv →
  wp (rt_Handler rt pv r w) (λ _ s', leaves (permitted s r) s s') s.
Proof.
  intros Hrt Hpv. set (ok := permitted s r).
  assert (∀ q p, denied cfg r q = false → stands_for s q p → ok p) as Hnamed by (intros; left; eauto).
  assert (∀ q, denied cfg r q = false → ok q) as Hok by (intros q Hq; apply (Hnamed q); [done|by left]).
  assert (∀ p, signed s r p → ok p) as Hsigned by (intros; by right).
  assert (∀ h, (∀ a, a ≠ "" → wp (h a r w) (λ _ s', leaves ok s s') s) → wp (on1 h pv r w) (λ _ s', leaves ok s s') s) as Hon1.
  { intros h Hh. destruct pv as [|a [|b pv]]; cbn [on1]; [by apply wp_ret| |by apply wp_ret].
    apply Hh. by apply Forall_inv in Hpv. }
  assert (∀ h, (∀ a, a ≠ "" → steps (leaves ok) (h a r w)) → wp (on1 h pv r w) (λ _ s', leaves ok s s') s) as Hsteps.
  { intros h Hh. apply Hon1. intros a Ha. by apply steps_wp, Hh. }
  destruct (steps_reads ok r w) as (R1 & R2 & R3 & R4 & R5).
  unfold api_routes in Hrt. repeat (apply elem_of_cons in Hrt as [->|Hrt]); [..|by apply not_elem_of_nil in Hrt];
    cbn [rt_Handler]; try (apply Hsteps; intros a Ha; by first
      [ apply R1 | apply R3 | apply R4 | apply (steps_deployment_handlers ok r w a Hok)
      | apply (steps_autoscaler_handlers ok r w a Hok Ha) | apply steps_scaleProject
      | apply (steps_log_handlers ok r w a) | apply (steps_secret_handlers ok r w a "") ]);
    try (by apply steps_wp, R2 || by apply steps_wp, R5 || by apply steps_wp, steps_createProject || by apply steps_wp, Hmetrics || by apply wp_ret).
  - apply Hon1. intros a _. by apply wp_createDeployment.
  - apply Hon1. intros a _. by apply wp_webhook.
  - destruct pv as [|a [|b [|c pv]]]; cbn [on2]; try (by apply wp_ret). apply steps_wp, (steps_secret_handlers ok r w a b).
Qed.

Lemma wp_mux r w s : wp (serve_mux cfg metricsHandler r w) (λ _ s', leaves (permitted s r) s s') s.
Proof.
  unfold serve_mux. case_bool_decide; [by apply wp_ret|]. destruct (negb _); [by apply wp_ret|].
  case_bool_decide; [apply steps_wp, steps_balancer|].
  destruct (find_route _ _ _) as [[h|] methods] eqn:E; [|destruct methods; by apply wp_ret].
  apply find_route_in in E as (rt & pv & Hrt & Hpv & ->). apply wp_route; [done|]. by eapply match_segs_values.
Qed.

Lemma wp_hook r w s :
  wp (hostname_hook (serve_mux cfg metricsHandler) r w) (λ _ s', leaves (permitted s r) s s') s.
Proof.
  unfold hostname_hook. apply wp_bind, wp_on_svc, wp_gets. set (s1 := s <| ap_auto ::= _ |>).
  assert (leaves (permitted s r) s s1) as H1 by by apply leaves_platform.
  eapply (wp_wand _ (λ _ s', leaves (permitted s r) s1 s')); [|intros o s2 H2; exact (transitivity H1 H2)].
  destruct (GetProjectForHostname _ _); [apply steps_wp, steps_balancer|]. exact (wp_mux r w s1).
Qed.

(** ** The middleware

    [bounded P h]: a request to [h] changes only the projects that [P] gives,
    which looks at the projects, the tokens and the request. *)
Definition bounded (P : PR → gmap string (option User) → request → string → Prop) (h : handler) : Prop :=
  ∀ r w s, wp (h r w) (λ _ s', leaves (P (ap_projects s) (ap_tokens s) r) s s') s.

(** A step that changes neither contents nor what [bounded] looks at. *)
Record quiet s s' : Prop := {
  qu_leaves : ∀ ok, leaves ok s s';
  qu_projects : ap_projects s' = ap_projects s;
  qu_tokens : ap_tokens s' = ap_tokens s
}.

#[export] Instance quiet_preorder : PreOrder quiet.
Proof.
  split; [by intros s|]. intros s1 s2 s3 [A1 A2 A3] [B1 B2 B3]. split; [|congruence..].
  intros ok. exact (transitivity (A1 ok) (B1 ok)).
Qed.

Lemma quiet_idle {A} (m : ST (Sys DR IR WR F X) A) : idle m → steps quiet (on_svc (MP := MP) (PR := PR) (L := L) m).
Proof.
  intros Hm s. split.
  - intros ok. by apply steps_svc_idle.
  - unfold on_svc. by destruct (m _).
  - unfold on_svc. by destruct (m _).
Qed.

Lemma wp_bounded_bind {A} P (m : M A) (k : A → M Http.Outcome) r s :
  steps quiet m → (∀ x s, wp (k x) (λ _ s', leaves (P (ap_projects s) (ap_tokens s) r) s s') s) →
  wp (bind m k) (λ _ s', leaves (P (ap_projects s) (ap_tokens s) r) s s') s.
Proof.
  intros Hm Hk. apply wp_bind. eapply wp_wand; [by apply steps_wp|]. intros x s1 [H1 E1 E2].
  eapply wp_wand; [apply Hk|]. intros o s2 H2. cbn beta in H2. rewrite E1, E2 in H2. exact (transitivity (H1 _) H2).
Qed.

#[local] Hint Resolve quiet_idle : go.

Lemma bounded_requestID P h : bounded P h → bounded P (requestID h).
Proof.
  intros Hh r w s. unfold requestID. apply wp_bounded_bind; [steps_tac|]. intros rid s1.
  apply wp_bounded_bind; [unfold trace_id; steps_tac|]. intros tid s2. apply Hh.
Qed.

Lemma bounded_recoverer P h : bounded P h → bounded P (recoverer h).
Proof.
  intros Hh r w s. unfold recoverer. apply wp_bind. eapply wp_wand; [apply Hh|]. intros o s' H. by apply wp_ret.
Qed.

Lemma bounded_https P e h : bounded P h → bounded P (RequireHTTPS e h).
Proof.
  intros Hh r w s. unfold RequireHTTPS. destruct (e && _); [destruct (_ || _); by apply wp_ret|apply Hh].
Qed.

Lemma bounded_version P n h : bounded P h → bounded P (ClientVersionCheck n h).
Proof.
  intros Hh r w s. unfold ClientVersionCheck. case_decide; [apply Hh|].
  destruct (Sscanf_int _) as [major|]; [|apply Hh]. destruct (_ <? _); [by apply wp_ret|apply Hh].
Qed.

Lemma bounded_waf P h : bounded P h → bounded P (WAFMiddleware h).
Proof.
  intros Hh r w s. unfold WAFMiddleware. destruct (_ <? _); [by apply wp_ret|].
  destruct (blocked_by _); [by apply wp_ret|]. destruct (if inspects_body r then _ else _); [by apply wp_ret|apply Hh].
Qed.

Lemma bounded_rate P h : bounded P h → bounded P (RateMiddleware (on_svc draw_now) ap_limiter set_limiter h).
Proof.
  intros Hh r w s. unfold RateMiddleware. apply wp_bounded_bind; [steps_tac|]. intros now s1.
  apply wp_bounded_bind.
  { intros s2. destruct (allow_request _ _ _) as [b t]. split; [|done..]. intros ok'. by apply leaves_aside. }
  intros b s2. apply wp_bounded_bind; [apply steps_gets, _|]. intros rate s3. destruct b; [apply Hh|by apply wp_ret].
Qed.

(** ** The whole tree *)

(** The projects a request may change. With authentication on, and on a path
    that is not exempt: none without a valid token; with one, those that its
    user has access to by identifier or by name, and the one whose webhook
    secret signs the body. *)
Definition may_change (projects : PR) (tokens : gmap string (option User)) r (p : string) : Prop :=
  if sc_auth cfg && negb (public_path (r_Path r)) then
    match Authenticate tokens r with
    | inl _ => False
    | inr u =>
      (∃ path, HasProjectAccess (Some u) path = true
         ∧ (path = p ∨ ∃ q, pr_GetByName path projects = inr q ∧ p_ID q = p))
      ∨ ∃ proj, pr_GetByID p projects = inr proj
          ∧ VerifyWebhookSignature (webhook_secret proj) (read_limit max_payload (r_Body r)) (signature_header r) = true
    end
  else True.

Lemma bounded_authenticated : bounded may_change (authenticated cfg metricsHandler).
Proof.
  intros r w s. unfold authenticated, AuthMiddleware, may_change, wp.
  destruct (public_path (r_Path r)) eqn:Ep.
  { rewrite andb_false_r. pose proof (wp_hook r w s) as H. unfold wp in H. by eapply leaves_impl. }
  destruct (sc_auth cfg) eqn:Ea; cbn [andb negb].
  2: { pose proof (wp_hook r w s) as H. unfold wp in H. by eapply leaves_impl. }
  destruct (Authenticate (ap_tokens s) r) as [err|u]; [done|].
  pose proof (wp_hook (r <| r_Context := Some u |>) w s) as H. unfold wp in H.
  eapply leaves_impl; [|exact H]. intros p [(q & Hq & Hp)|Hs]; [left|right; exact Hs].
  exists q. split; [|exact Hp]. unfold denied in Hq. rewrite Ea in Hq. cbn in Hq |- *.
  by apply negb_false_iff in Hq.
Qed.

Lemma bounded_NewRouter : bounded may_change (ApiRouter.NewRouter cfg metricsHandler).
Proof.
  pose proof bounded_authenticated as H. unfold ApiRouter.NewRouter.
  apply bounded_https, bounded_recoverer, bounded_requestID, bounded_version.
  destruct (sc_enableWAF cfg), (sc_rateLimiter cfg); auto using bounded_waf, bounded_rate.
Qed.

(** C3: Whatever request goes through the whole handler tree, it changes the
    deployments, instances, routes and scaling policies of the projects that the
    access checks permit and of no other: on a path that is not exempt from
    authentication, none without a valid token, and with one only the projects
    that its user has access to by identifier or name and the project whose
    webhook secret signs the body. The tokens never change. *)
Theorem requests_are_confined r w s :
  sys_ok (platform s) →
  left_alone (may_change (ap_projects s) (ap_tokens s) r) s (ApiRouter.NewRouter cfg metricsHandler r w s).2.
Proof. intros H. by apply (bounded_NewRouter r w s). Qed.

End facts.
