(* ===== verification/ApiDemo.v ===== *)
(** * A concrete API server

    Every parameter of the API instantiated: the platform of Demo.v with the
    secret store of Secrets.v as its external state, one project "proj" named
    "shop" with two running replicas, and the tokens of three users. Requests
    run through the whole tree of [NewRouter]. *)

From stdpp Require Import base option gmap strings list pretty.
From Stdlib Require Import ZArith Lia Ascii.
From S2P Require Import Prelude GoLib GoFloat GoTime PtrStore Workers Scheduler LoadBalancer HA Deployments Fleet Platform Service ServiceFacts Lifecycle Scaling Projects Policy Autoscaler Demo ServiceTheorems Secrets Registry AuditLog Http Auth Idempotency RateLimit Waf Json JsonDecode ApiData Api ApiLogs ApiRouter Tenancy ApiFacts ApiReplay.

#[local] Existing Instance demo_entropy.
#[local] Existing Instance demo_entropy_laws.
#[local] Existing Instance demo_url.
#[local] Existing Instance unicode_none.
#[local] Existing Instance amd64.
#[local] Existing Instance toy_crypto.
#[local] Existing Instance clear_cipher.
#[local] Existing Instance demo_float_text.
#[local] Existing Instance json_ascii.
#[local] Existing Instance demo_hmac.
#[local] Existing Instance counting_limiter.

Abbreviation Vault := (MemorySecretStore StaticKeyProvider).

#[local] Instance api_externals : Externals Vault := {|
  x_crashHook := None;
  x_BuildFromSource := λ _ _ _ _ x, (inl "no build", x);
  x_Push := λ _ _ d x, (inr d, x);
  x_GetDigest := λ _ x, (inr "sha256:0", x);
  x_signer := None;
  x_secretStore := None;
  x_redactor := None;
  x_freePort := λ x, (30000, x)
|}.

#[local] Instance vault_ops : SecretOps Vault := {|
  so_configured := true;
  so_SetSecret := SetSecret (demo_draw "1");
  so_ListSecrets := λ p x, (ListSecrets order_id p x, x)
|}.

#[local] Instance demo_backends : Backends Vault := λ t r w x, (Returned (Write ("from " +:+ t_InstanceID t) w), x).
#[local] Instance demo_times : TimeText := λ _, "".
#[local] Instance no_trace : Propagator := λ _, "".

Abbreviation VaultSys :=
  (Sys MemoryDeploymentRepository MemoryInstanceRepository MemoryWorkerRepository MockWorkerClientFactory Vault).
Abbreviation DemoApi := (ApiSys MemoryMetricsProvider MemoryProjectRepository VaultSys Z).

Definition vault_sys : VaultSys :=
  mkSys 0 NewMemoryDeploymentRepository NewMemoryInstanceRepository ∅ [] demo_registry
    LoadBalancer.NewRouter None NewMockWorkerClientFactory (NewMemorySecretStore demo_keys).

Definition vault_created : VaultSys := (CreateAndDeploy demo_create vault_sys).2.

Definition demo_projects : MemoryProjectRepository :=
  (mpr_Create 1 (mkProject "proj" "shop" "" "" "" "" "" 0 0 0 0 0) NewMemoryProjectRepository).2.

Definition demo_users : gmap string (option User) :=
  RegisterToken "t-alice" (Some (mkUser "u1" "alice" "member" ["proj"]))
    (RegisterToken "t-bob" (Some (mkUser "u2" "bob" "member" ["other"]))
      (RegisterToken "t-carol" (Some (mkUser "u3" "carol" "member" ["shop"])) NewTokenStore)).

Definition demo_api : DemoApi :=
  mkApi (mkAuto ∅ ∅ ∅ NewMemoryMetricsProvider None true vault_created) demo_projects NewIdempotencyStore demo_users
    (NewTenantRateLimiter fone 100 None) NewMemoryAuditRepository.

Definition demo_config : ServerConfig := mkServerConfig true true true false true true true.

Definition no_metrics : Handler (option User) DemoApi := λ r w, ret (Returned (Write "" (WriteHeader 200 w))).

Definition serve : Handler (option User) DemoApi := ApiRouter.NewRouter demo_config no_metrics.

(** A request with a token, which may be empty. *)
Definition api_request (token method path body : string) (h : gmap string (list string)) : Http.Request (option User) :=
  let h := if decide (token = "") then h else hdr_Set "Authorization" ("Bearer " +:+ token) h in
  Http.mkRequest method path path "" path h body (Z.of_nat (String.length body)) "api" "10.0.0.1:1" false None.

(** The status of the reply, and the server after it. *)
Definition run (r : Http.Request (option User)) (s : DemoApi) : option Z * DemoApi :=
  let '(o, s') := serve r NewWriter s in (w_status <$> reply_of o, s').

Lemma vault_sys_ok : sys_ok vault_sys.
Proof.
  apply sys_ok_empty; [done|done|apply mir_ok_empty| |].
  - apply reg_reachable_inv, demo_registry_reachable.
  - intros p. unfold project_targets. cbn. constructor.
Qed.

Lemma demo_api_ok : sys_ok (platform demo_api).
Proof. exact (create_keeps_ok demo_create vault_sys vault_sys_ok). Qed.

Definition scale_path : string := "/v1/deployments/" +:+ demo_id +:+ "/scale".
Definition scale_body : string := "{" +:+ quote "desired_replicas" +:+ ": 3}".

Definition replicas_of (s : DemoApi) : nat := active_count (view (platform s)) demo_id.

(** Who may scale: the user of the project, not another one, and no one without
    a token. *)
Example scale_requests :
  (let '(st, s) := run (api_request "t-alice" "POST" scale_path scale_body ∅) demo_api in (st, replicas_of s))
  = (Some 200, 3%nat)
  ∧ (let '(st, s) := run (api_request "t-bob" "POST" scale_path scale_body ∅) demo_api in (st, replicas_of s))
  = (Some 403, 2%nat)
  ∧ (let '(st, s) := run (api_request "" "POST" scale_path scale_body ∅) demo_api in (st, replicas_of s))
  = (Some 401, 2%nat).
Proof. vm_compute. done. Qed.

(** ** The exemption of webhooks

    A path that contains /webhooks needs no credentials, and a request without
    a user is not checked: anyone replaces a secret of any project, here with
    the name "webhooks". *)

Definition vault_of (s : DemoApi) : gmap string string := sc_Ciphertext <$> ms_projectSecrets (s_ext (platform s)).

Definition rotate_body : string := "{" +:+ quote "value" +:+ ": " +:+ quote "owned" +:+ "}".

Example webhooks_path_is_open :
  (let '(st, s) := run (api_request "" "POST" "/v1/projects/proj/secrets/webhooks/rotate" rotate_body ∅) demo_api in
   (st, vault_of s !! "proj:webhooks"))
  = (Some 200, Some "nonce-of-12bowned")
  ∧ (let '(st, s) := run (api_request "" "POST" "/v1/projects/proj/secrets/api-key/rotate" rotate_body ∅) demo_api in
     (st, vault_of s !! "proj:api-key"))
  = (Some 401, None).
Proof. vm_compute. done. Qed.

(** ** Names and identifiers

    A token that lists the name of a project opens the handlers that check the
    path, and not those that check the identifier of what they found; and a
    secret stored under the name is not a secret of the project. *)

Example names_open_half_of_the_api :
  let status path := (run (api_request "t-carol" "GET" path "" ∅) demo_api).1 in
  (status "/v1/projects/shop/secrets", status "/v1/projects/shop", status "/v1/projects/shop/deployments")
  = (Some 200, Some 403, Some 403).
Proof. vm_compute. done. Qed.

Example secret_under_a_name :
  let '(st, s) := run (api_request "t-carol" "POST" "/v1/projects/shop/secrets"
    ("{" +:+ quote "name" +:+ ": " +:+ quote "DB" +:+ ", " +:+ quote "value" +:+ ": " +:+ quote "pw" +:+ "}") ∅) demo_api in
  (st, match GetSecretsForProject order_id "proj" (s_ext (platform s)) with inr m => Some (m !! "DB") | inl _ => None end)
  = (Some 201, Some None).
Proof. vm_compute. done. Qed.

(** ** Idempotency keys

    The key of one user answers for another one, whatever the project. *)

Definition keyed : gmap string (list string) := hdr_Set "Idempotency-Key" "k1" ∅.
Definition create_body : string := "{" +:+ quote "image" +:+ ": " +:+ quote "img:2" +:+ "}".
Definition create_path : string := "/v1/projects/proj/deployments".

Definition demo_keyed : DemoApi := (run (api_request "t-alice" "POST" create_path create_body keyed) demo_api).2.

Example keys_cross_users :
  (run (api_request "t-bob" "POST" create_path create_body keyed) demo_keyed).1 = Some 202
  ∧ (run (api_request "t-bob" "POST" create_path create_body ∅) demo_keyed).1 = Some 403.
Proof. vm_compute. done. Qed.

(** And a refusal takes the key away from the user who may deploy. *)
Example refusal_is_replayed :
  (let '(st, s) := run (api_request "t-bob" "POST" create_path create_body keyed) demo_api in
   (st, (run (api_request "t-alice" "POST" create_path create_body keyed) s).1))
  = (Some 403, Some 403).
Proof. vm_compute. done. Qed.

(** ** The theorems at this server *)

Definition bob_scales : Http.Request (option User) := api_request "t-bob" "POST" scale_path scale_body ∅.

Lemma bob_may_change p : may_change demo_config demo_projects demo_users bob_scales p → p ≠ "proj".
Proof.
  unfold may_change. vm_compute (sc_auth demo_config && _). cbv match.
  change (Authenticate demo_users bob_scales) with (inr (mkUser "u2" "bob" "member" ["other"]) : error + User).
  intros [(path & Ha & Hp)|(proj & Hg & Hv)] ->.
  - assert (path = "other") as ->.
    { unfold HasProjectAccess in Ha. cbn in Ha. rewrite !orb_false_r in Ha.
      change (String.eqb "other" path = true) in Ha. symmetry. by apply String.eqb_eq. }
    destruct Hp as [Hp|(q & Hq & _)]; [done|]. vm_compute in Hq. done.
  - vm_compute in Hg. injection Hg as <-. vm_compute in Hv. done.
Qed.

Lemma requests_are_confined_witness :
  v_deps (view (platform (serve bob_scales NewWriter demo_api).2)) !! demo_id
  = v_deps (view (platform demo_api)) !! demo_id
  ∧ is_Some (v_deps (view (platform demo_api)) !! demo_id).
Proof.
  assert (∃ d, v_deps (view (platform demo_api)) !! demo_id = Some d ∧ d_ProjectID d = "proj") as (d & Hd & Hp).
  { eexists. split; vm_compute; reflexivity. }
  rewrite Hd. split; [|done].
  assert (∀ ok r w, steps (leaves ok) (no_metrics r w)) as Hm by (intros ok r w s; apply leaves_preorder).
  pose proof (requests_are_confined demo_config no_metrics Hm bob_scales NewWriter demo_api demo_api_ok) as [_ W _ _].
  apply (wi_deps _ _ _ W demo_id d); [|exact Hd]. rewrite Hp. intros H. by apply (bob_may_change "proj").
Defined.

Definition alice_creates : Http.Request (option User) := api_request "t-alice" "POST" create_path create_body keyed.

Definition bob_creates : Http.Request (option User) := api_request "t-bob" "POST" create_path create_body keyed.

