(* ===== verification/TimeParse.v ===== *)
(** * Parsing of times

    [parseRFC3339] of the package time, which decides what a [time.Time] is
    decoded from, and its round trip with the format that a [time.Time] is
    encoded in: [civil] and [day_number] are inverse to each other, which is
    evaluated for the years of an era and the days of a year. *)

From stdpp Require Import base option strings list pretty.
From Stdlib Require Import ZArith Lia Ascii.
From S2P Require Import Prelude GoLib GoFloat GoTime Json.

(** [lia] with the equations of the divisions by constants. *)
Ltac div_lia := Z.to_euclidean_division_equations; lia.

(** ** The calendar *)

Definition leap (year : Z) : bool :=
  (year `mod` 4 =? 0) && (negb (year `mod` 100 =? 0) || (year `mod` 400 =? 0)).

(** [daysIn]. *)
Definition daysIn (month year : Z) : Z :=
  if month =? 2 then (if leap year then 29 else 28)
  else if (month =? 4) || (month =? 6) || (month =? 9) || (month =? 11) then 30 else 31.

(** The day, counted from January 1 of year 1, of a date. *)
Definition day_number (year month day : Z) : Z :=
  let y := if month <=? 2 then year - 1 else year in
  let yoe := y `mod` 400 in
  let mp := if month <=? 2 then month + 9 else month - 3 in
  y / 400 * 146097 + (yoe * 365 + yoe / 4 - yoe / 100 + (153 * mp + 2) / 5 + day - 1) - 306.

(** A property of the numbers from [base] on, [2 ^ k] of them. *)
Fixpoint all_range (k : nat) (base : Z) (f : Z → bool) : bool :=
  match k with
  | O => f base
  | S k' => all_range k' base f && all_range k' (base + 2 ^ Z.of_nat k') f
  end.

Lemma all_range_spec k base f x :
  all_range k base f = true → base ≤ x < base + 2 ^ Z.of_nat k → f x = true.
Proof.
  revert base. induction k as [|k IH]; intros base H Hx; cbn [all_range] in H.
  - change (2 ^ Z.of_nat 0) with 1 in Hx. by replace x with base by lia.
  - apply andb_true_iff in H as [H1 H2]. rewrite Nat2Z.inj_succ, Z.pow_succ_r in Hx by lia.
    destruct (Z.lt_ge_cases x (base + 2 ^ Z.of_nat k)); [apply (IH base)|apply (IH (base + 2 ^ Z.of_nat k))]; done || lia.
Qed.

(** The days before a year of the era that starts with March of year 0, and
    what [civil] divides to find the year. *)
Definition era_start (yoe : Z) : Z := 365 * yoe + yoe / 4 - yoe / 100 + yoe / 400.

Definition year_quotient (doe : Z) : Z := doe - doe / 1460 + doe / 36524 - doe / 146096.

Lemma year_quotient_mono x y : 0 ≤ x ≤ y → y < 146097 → year_quotient x ≤ year_quotient y.
Proof.
  intros H Hy. unfold year_quotient. destruct (decide (y = 146096)) as [->|].
  - assert (x < 146096 ∨ x = 146096) as [Hx|Hx] by div_lia; [|by rewrite Hx].
    rewrite (Z.div_small x 146096) by div_lia.
    change (146096 / 1460) with 100. change (146096 / 36524) with 4. change (146096 / 146096) with 1. div_lia.
  - rewrite !(Z.div_small _ 146096) by div_lia. div_lia.
Qed.

Lemma era_start_bounds y : 0 ≤ y ≤ 400 → 365 * y ≤ era_start y ≤ 146097.
Proof. unfold era_start. intros H. div_lia. Qed.

Definition year_ok (yoe : Z) : bool :=
  (year_quotient (era_start yoe) / 365 =? yoe) && (year_quotient (era_start (yoe + 1) - 1) / 365 =? yoe)
  && (era_start (yoe + 1) - era_start yoe =? (if leap (yoe + 1) then 366 else 365)).

Lemma years_ok yoe : 0 ≤ yoe < 400 → year_ok yoe = true.
Proof.
  intros H. assert (((399 <? yoe) || year_ok yoe) = true) as He.
  { apply (all_range_spec 9 0 (λ y, (399 <? y) || year_ok y)); [by vm_compute|].
    change (2 ^ Z.of_nat 9) with 512. div_lia. }
  by rewrite (proj2 (Z.ltb_ge _ _)) in He by div_lia.
Qed.

(** The year that [civil] finds is the one that the day is in. *)
Lemma era_year doe : 0 ≤ doe < 146097 →
  let yoe := year_quotient doe / 365 in
  0 ≤ yoe < 400 ∧ 0 ≤ doe - era_start yoe < (if leap (yoe + 1) then 366 else 365).
Proof.
  intros H yoe.
  assert (0 ≤ yoe < 400) as By.
  { pose proof (year_quotient_mono 0 doe ltac:(div_lia) ltac:(div_lia)) as H1.
    pose proof (year_quotient_mono doe 146096 ltac:(div_lia) ltac:(div_lia)) as H2.
    change (year_quotient 0) with 0 in H1. change (year_quotient 146096) with 145999 in H2. unfold yoe. div_lia. }
  pose proof (years_ok yoe By) as Hy. unfold year_ok in Hy. rewrite !andb_true_iff, !Z.eqb_eq in Hy.
  destruct Hy as [_ Hd]. split; [done|]. rewrite <- Hd.
  pose proof (era_start_bounds yoe ltac:(lia)). pose proof (era_start_bounds (yoe + 1) ltac:(lia)).
  assert (¬ doe < era_start yoe ∧ ¬ era_start (yoe + 1) ≤ doe); [|lia]. split; intros Hlt.
  - assert (0 < yoe) as Hp by (destruct (decide (yoe = 0)) as [E|]; [rewrite E in Hlt; change (era_start 0) with 0 in Hlt|]; lia).
    pose proof (years_ok (yoe - 1) ltac:(lia)) as Hy. unfold year_ok in Hy.
    replace (yoe - 1 + 1) with yoe in Hy by lia. rewrite !andb_true_iff, !Z.eqb_eq in Hy.
    pose proof (year_quotient_mono doe (era_start yoe - 1) ltac:(lia) ltac:(lia)) as Hm.
    pose proof (Z.div_le_mono _ _ 365 ltac:(done) Hm) as Hq. fold yoe in Hq. lia.
  - assert (yoe < 399) as Hp.
    { destruct (decide (yoe = 399)) as [E|]; [rewrite E in Hlt; change (era_start (399 + 1)) with 146097 in Hlt|]; lia. }
    pose proof (years_ok (yoe + 1) ltac:(lia)) as Hy. unfold year_ok in Hy. rewrite !andb_true_iff, !Z.eqb_eq in Hy.
    pose proof (year_quotient_mono (era_start (yoe + 1)) doe ltac:(lia) ltac:(lia)) as Hm.
    pose proof (Z.div_le_mono _ _ 365 ltac:(done) Hm) as Hq. fold yoe in Hq. lia.
Qed.

(** The month and the day of a day of a year from March on. *)
Definition month_day (doy : Z) : Z * Z :=
  let mp := (5 * doy + 2) / 153 in
  (if mp <? 10 then mp + 3 else mp - 9, doy - (153 * mp + 2) / 5 + 1).

Definition month_ok (doy : Z) : bool :=
  let '(m, d) := month_day doy in
  let mp := if m <=? 2 then m + 9 else m - 3 in
  ((153 * mp + 2) / 5 + d - 1 =? doy) && (1 <=? m) && (m <=? 12) && (1 <=? d)
  && (d <=? daysIn m 400) && ((365 <=? doy) || (d <=? daysIn m 1)).

Lemma months_ok doy : 0 ≤ doy < 366 → month_ok doy = true.
Proof.
  intros H. assert (((365 <? doy) || month_ok doy) = true) as He.
  { apply (all_range_spec 9 0 (λ y, (365 <? y) || month_ok y)); [by vm_compute|].
    change (2 ^ Z.of_nat 9) with 512. div_lia. }
  by rewrite (proj2 (Z.ltb_ge _ _)) in He by div_lia.
Qed.

Lemma civil_month_day doe :
  0 ≤ doe < 146097 →
  let yoe := year_quotient doe / 365 in
  let '(m, d) := month_day (doe - era_start yoe) in
  civil (doe - 306) = (yoe + (if m <=? 2 then 1 else 0), m, d).
Proof.
  intros H yoe. pose proof (era_year doe H) as [By _]. fold yoe in By.
  unfold civil, month_day, era_start. replace (doe - 306 + 306) with doe by lia.
  rewrite (Z.div_small doe), (Z.mod_small doe), (Z.div_small yoe 400) by lia. fold (year_quotient doe) yoe. cbv zeta.
  replace (365 * yoe + yoe / 4 - yoe / 100 + 0) with (365 * yoe + yoe / 4 - yoe / 100) by lia.
  f_equal; f_equal. lia.
Qed.

Lemma daysIn_leap m y : daysIn m y = if leap y then daysIn m 400 else daysIn m 1.
Proof.
  unfold daysIn. change (leap 400) with true. change (leap 1) with false. by destruct (leap y), (m =? 2).
Qed.

(** The dates of the first era. *)
Lemma era_dates doe : 0 ≤ doe < 146097 →
  let '(y, m, d) := civil (doe - 306) in
  day_number y m d = doe - 306 ∧ 1 ≤ m ≤ 12 ∧ 1 ≤ d ≤ daysIn m y.
Proof.
  intros H. pose proof (era_year doe H) as [By Bd]. pose proof (civil_month_day doe H) as Hc. cbv zeta in *.
  set (yoe := year_quotient doe / 365) in *. set (doy := doe - era_start yoe) in *.
  assert (doy < 366) as Bm by (destruct (leap _); lia).
  pose proof (months_ok doy ltac:(lia)) as Hm. unfold month_ok in Hm. destruct (month_day doy) as [m d].
  rewrite Hc. rewrite !andb_true_iff, orb_true_iff, !Z.leb_le, Z.eqb_eq in Hm.
  assert (era_start yoe = 365 * yoe + yoe / 4 - yoe / 100) as E.
  { unfold era_start. rewrite (Z.div_small yoe 400) by lia. lia. }
  split_and!; [|lia..|].
  - unfold day_number. replace (if m <=? 2 then yoe + (if m <=? 2 then 1 else 0) - 1 else yoe + (if m <=? 2 then 1 else 0))
      with yoe by (case_match; lia).
    rewrite Z.mod_small, (Z.div_small yoe 400) by lia. lia.
  - rewrite daysIn_leap. destruct (m <=? 2) eqn:E2; [destruct (leap (yoe + 1)); lia|].
    apply Z.leb_gt in E2.
    assert (daysIn m 1 = daysIn m 400) as -> by (unfold daysIn; by rewrite (proj2 (Z.eqb_neq m 2)) by lia).
    destruct Hm as [[_ Hm] _]. clear Bd Bm. by destruct (leap (yoe + 0)).
Qed.

Lemma leap_era year era : leap (year + era * 400) = leap year.
Proof.
  unfold leap. rewrite Z.mod_add by done.
  replace (era * 400) with (era * 100 * 4) by lia. rewrite Z.mod_add by done.
  replace (era * 100 * 4) with (era * 4 * 100) by lia. by rewrite Z.mod_add by done.
Qed.

Lemma daysIn_era month year era : daysIn month (year + era * 400) = daysIn month year.
Proof. unfold daysIn. by rewrite leap_era. Qed.

Lemma day_number_era year month day era :
  day_number (year + era * 400) month day = day_number year month day + era * 146097.
Proof.
  unfold day_number. replace (if month <=? 2 then year + era * 400 - 1 else year + era * 400)
    with ((if month <=? 2 then year - 1 else year) + era * 400) by (case_match; lia).
  rewrite Z.mod_add, Z.div_add by done. lia.
Qed.

Lemma civil_era day era :
  civil (day + era * 146097) = (let '(y, m, d) := civil day in (y + era * 400, m, d)).
Proof.
  unfold civil. replace (day + era * 146097 + 306) with (day + 306 + era * 146097) by lia.
  rewrite Z.mod_add, Z.div_add by done. cbv zeta. case_match; f_equal; f_equal; lia.
Qed.

(** Every day has one date. *)
Lemma civil_spec day :
  let '(y, m, d) := civil day in
  day_number y m d = day ∧ 1 ≤ m ≤ 12 ∧ 1 ≤ d ≤ daysIn m y.
Proof.
  set (era := (day + 306) / 146097). set (doe := (day + 306) `mod` 146097).
  pose proof (Z.div_mod (day + 306) 146097 ltac:(done)) as E.
  pose proof (Z.mod_pos_bound (day + 306) 146097 ltac:(done)) as B. fold era doe in E, B.
  pose proof (era_dates doe B) as D.
  replace day with (doe - 306 + era * 146097) by lia. rewrite civil_era.
  destruct (civil (doe - 306)) as [[y m] d]. rewrite day_number_era, daysIn_era.
  lia.
Qed.

(** ** The parser *)

(** [parseUint]. *)
Definition parse_uint (s : string) (min max : Z) : option Z :=
  match dec_value 0 s with
  | Some x => if (min <=? x) && (x <=? max) then Some x else None
  | None => None
  end.

Definition char_at (c : ascii) (n : nat) (s : string) : bool := bool_decide (String.get n s = Some c).

(** The fraction of a second at the front, in nanoseconds: nine digits count. *)
Definition parse_fraction (s : string) : Z * string :=
  match eat "." s with
  | Some s' =>
    match digits1 s' with
    | Some (d, r) =>
      let d := str_take 9 d in
      (default 0 (dec_value 0 d) * 10 ^ (9 - Z.of_nat (String.length d)), r)
    | None => (0, s)
    end
  | None => (0, s)
  end.

(** The offset of the time zone, in seconds. *)
Definition parse_zone (s : string) : option Z :=
  if decide (s = "Z") then Some 0
  else if negb (Nat.eqb (String.length s) 6) then None
  else
    hr ← parse_uint (String.substring 1 2 s) 0 23;
    mm ← parse_uint (String.substring 4 2 s) 0 59;
    if (char_at "-" 0 s || char_at "+" 0 s) && char_at ":" 3 s
    then Some (let offset := (hr * 60 + mm) * 60 in if char_at "-" 0 s then - offset else offset)
    else None.

(** [parseStrictRFC3339], which takes what [parseRFC3339] takes. *)
Definition parse_rfc3339 (s : string) : option Time :=
  if (String.length s <? 19)%nat then None
  else
    year ← parse_uint (String.substring 0 4 s) 0 9999;
    month ← parse_uint (String.substring 5 2 s) 1 12;
    day ← parse_uint (String.substring 8 2 s) 1 (daysIn month year);
    hour ← parse_uint (String.substring 11 2 s) 0 23;
    min ← parse_uint (String.substring 14 2 s) 0 59;
    sec ← parse_uint (String.substring 17 2 s) 0 59;
    if char_at "-" 4 s && char_at "-" 7 s && char_at "T" 10 s && char_at ":" 13 s && char_at ":" 16 s
    then
      let '(nsec, zone) := parse_fraction (drop_string 19 s) in
      offset ← parse_zone zone;
      Some ((day_number year month day * 86400 + hour * 3600 + min * 60 + sec - offset) * Second + nsec)
    else None.

Example parse_rfc3339_ex :
  parse_rfc3339 "2024-02-29T12:34:56.12034Z" = Some ((62135596800 + 1709210096) * Second + 120340000) ∧
  parse_rfc3339 "2024-02-29T12:34:56+02:00" = Some ((62135596800 + 1709210096 - 7200) * Second) ∧
  parse_rfc3339 "2023-02-29T12:34:56Z" = None ∧ parse_rfc3339 "2024-02-29T12:34:56,5Z" = None ∧
  parse_rfc3339 "2024-02-29T2:34:56Z" = None ∧ parse_rfc3339 "2024-02-29T12:34:56" = None ∧
  parse_rfc3339 "2024-02-29T12:34:56.0000000019Z" = Some ((62135596800 + 1709210096) * Second + 1).
Proof. vm_compute. done. Qed.

(** ** The round trip *)

(** [Time.MarshalJSON] fails for other years. *)
Definition year_in_range (t : Time) : bool := let '(y, _, _) := civil (day_of t) in (0 <=? y) && (y <=? 9999).

#[local] Arguments Ascii.eqb : simpl never.
#[local] Arguments is_digit : simpl never.
#[local] Arguments dec_value : simpl never.
#[local] Arguments Z.mul : simpl never.
#[local] Arguments Z.add : simpl never.
#[local] Arguments Z.pow : simpl never.

Lemma pad4 y : 0 ≤ y ≤ 9999 → ∃ a b c d,
  pad 4 y = String a (String b (String c (String d ""))) ∧ dec_value 0 (pad 4 y) = Some y.
Proof.
  intros H. set (f := λ v, match pad 4 v with
    | String a (String b (String c (String d ""))) => bool_decide (dec_value 0 (pad 4 v) = Some v) | _ => false end).
  assert (((9999 <? y) || f y) = true) as He.
  { apply (all_range_spec 14 0 (λ v, (9999 <? v) || f v)); [by vm_compute|]. change (2 ^ Z.of_nat 14) with 16384. lia. }
  rewrite (proj2 (Z.ltb_ge _ _)) in He by lia. unfold f in He. cbn [orb] in He.
  destruct (pad 4 y) as [|a [|b [|c [|d []]]]]; try done. apply bool_decide_eq_true in He. eauto 8.
Qed.

Lemma pad2 v : 0 ≤ v ≤ 99 → ∃ a b, pad 2 v = String a (String b "") ∧ dec_value 0 (pad 2 v) = Some v.
Proof.
  intros H. set (f := λ v, match pad 2 v with
    | String a (String b "") => bool_decide (dec_value 0 (pad 2 v) = Some v) | _ => false end).
  assert (((99 <? v) || f v) = true) as He.
  { apply (all_range_spec 7 0 (λ v, (99 <? v) || f v)); [by vm_compute|]. change (2 ^ Z.of_nat 7) with 128. lia. }
  rewrite (proj2 (Z.ltb_ge _ _)) in He by lia. unfold f in He. cbn [orb] in He.
  destruct (pad 2 v) as [|a [|b []]]; try done. apply bool_decide_eq_true in He. eauto 8.
Qed.

Lemma digit_char_spec d : 0 ≤ d < 10 →
  is_digit (digit_char d) = true ∧ Z.of_N (N_of_ascii (digit_char d)) - 48 = d.
Proof.
  intros H. unfold is_digit, digit_char. rewrite N_ascii_embedding by lia. split; [|lia].
  apply andb_true_iff. rewrite N.leb_le, N.ltb_lt. lia.
Qed.

(** All digits, once one was printed. *)
Lemma fmtFrac_print prec v buf : 0 ≤ v < 10 ^ Z.of_nat prec → ∃ ds,
  fmtFrac prec v true buf = (0, true, ds +:+ buf) ∧ String.length ds = prec
  ∧ ∀ acc rest, digits (ds +:+ rest) = (let '(d, r) := digits rest in (ds +:+ d, r))
    ∧ dec_value acc (ds +:+ rest) = dec_value (acc * 10 ^ Z.of_nat prec + v) rest.
Proof.
  revert v buf. induction prec as [|prec IH]; intros v buf H; cbn [fmtFrac].
  - change (10 ^ Z.of_nat 0) with 1 in *. exists "". split_and!; [by replace v with 0 by lia|done|].
    intros acc rest. replace (acc * 1 + v) with acc by lia.
    change ("" +:+ rest) with rest. split; [by destruct (digits rest)|done].
  - rewrite Nat2Z.inj_succ, Z.pow_succ_r in H |- * by lia. cbn [orb].
    set (c := digit_char (v `mod` 10)).
    destruct (IH (v / 10) (String c buf)) as (ds & Hf & Hl & Hd); [div_lia|].
    exists (ds +:+ String c ""). rewrite str_app_assoc. split_and!; [done|by rewrite str_app_length, Hl; cbn; lia|].
    intros acc rest. rewrite str_app_assoc. change (String c "" +:+ rest) with (String c rest).
    destruct (digit_char_spec (v `mod` 10)) as [H1 H2]; [by apply Z.mod_pos_bound|]. fold c in H1, H2.
    destruct (Hd acc (String c rest)) as [Hd1 Hd2]. rewrite Hd1, Hd2. split.
    + cbn [digits]. rewrite H1. destruct (digits rest) as [d r]. by rewrite str_app_assoc.
    + cbn [dec_value]. unfold dec_value at 1. rewrite H1. fold dec_value. rewrite H2. f_equal. div_lia.
Qed.

(** What [fmtFrac] prints of a fraction, and what it is worth. *)
Lemma fmtFrac_spec prec v buf : 0 < v < 10 ^ Z.of_nat prec → ∃ c ds,
  fmtFrac prec v false buf = (0, true, String c ds +:+ buf) ∧ (S (String.length ds) ≤ prec)%nat
  ∧ ∀ rest, digits (String c ds +:+ rest) = (let '(d, r) := digits rest in (String c ds +:+ d, r))
    ∧ ∃ x, dec_value 0 (String c ds) = Some x ∧ x * 10 ^ (Z.of_nat prec - Z.of_nat (S (String.length ds))) = v.
Proof.
  revert v. induction prec as [|prec IH]; intros v H; [change (10 ^ Z.of_nat 0) with 1 in H; lia|].
  cbn [fmtFrac orb]. rewrite Nat2Z.inj_succ, Z.pow_succ_r in H by lia.
  destruct (v `mod` 10 =? 0) eqn:E; cbn [negb].
  - apply Z.eqb_eq in E. destruct (IH (v / 10)) as (c & ds & -> & Hl & Hd); [div_lia|].
    exists c, ds. split_and!; [done|lia|]. intros rest. destruct (Hd rest) as (Hd1 & x & Hx & Hv).
    split; [done|]. exists x. split; [done|].
    replace (Z.of_nat (S prec) - _) with (Z.succ (Z.of_nat prec - Z.of_nat (S (String.length ds)))) by lia.
    rewrite Z.pow_succ_r by lia. div_lia.
  - apply Z.eqb_neq in E. set (c := digit_char (v `mod` 10)).
    destruct (fmtFrac_print prec (v / 10) (String c buf)) as (ds & Hf & Hl & Hd); [div_lia|].
    destruct (digit_char_spec (v `mod` 10)) as [H1 H2]; [by apply Z.mod_pos_bound|]. fold c in H1, H2.
    assert (∃ a t, ds +:+ String c "" = String a t ∧ S (String.length t) = S prec) as (a & t & Ht & Hlt).
    { destruct ds as [|a t]; cbn in *; eexists _, _; (split; [done|]); cbn; [lia|rewrite str_app_length; cbn; lia]. }
    exists a, t. rewrite <- Ht, !str_app_assoc. change (String c "" +:+ buf) with (String c buf). split_and!; [done|lia|].
    intros rest. rewrite str_app_assoc. change (String c "" +:+ rest) with (String c rest).
    destruct (Hd 0 (String c rest)) as [Hd1 _]. rewrite Hd1. split.
    + cbn [digits]. rewrite H1. destruct (digits rest) as [d r]. by rewrite str_app_assoc.
    + destruct (Hd 0 (String c "")) as [_ Hd2]. exists v. split.
      * rewrite Hd2. unfold dec_value. rewrite H1, H2. f_equal. div_lia.
      * rewrite Hlt, Z.sub_diag. change (10 ^ 0) with 1. lia.
Qed.

Lemma str_take_all n (s : string) : (String.length s ≤ n)%nat → str_take n s = s.
Proof.
  unfold str_take. revert s. induction n as [|n IH]; intros [|c s] H; cbn in *; try done; [lia|].
  f_equal. apply IH. lia.
Qed.

Lemma fraction_roundtrip ns : 0 ≤ ns < Second → parse_fraction (with_frac 9 ns "Z").2 = (ns, "Z").
Proof.
  intros H. unfold with_frac. destruct (decide (ns = 0)) as [->|Hn]; [by vm_compute|].
  destruct (fmtFrac_spec 9 ns "Z") as (c & ds & -> & Hl & Hd);
    [change (10 ^ Z.of_nat 9) with Second; unfold Second in *; lia|].
  destruct (Hd "Z") as (Hd1 & x & Hx & Hv). cbn [snd].
  unfold parse_fraction. rewrite eat_same. unfold digits1. rewrite Hd1.
  change (digits "Z") with ("", "Z"). cbv beta iota zeta. rewrite str_app_nil, decide_False by done.
  rewrite str_take_all by (cbn; lia).
  rewrite Hx. by rewrite <- Hv.
Qed.

(** A time is read back from what it is encoded as. *)
Lemma parse_format t : year_in_range t = true → parse_rfc3339 (format_rfc3339_nano t) = Some t.
Proof.
  unfold year_in_range. intros Hy. unfold format_rfc3339_nano, format_seconds.
  pose proof (civil_spec (day_of t)) as Hc. destruct (civil (day_of t)) as [[y m] d]. destruct Hc as (Hday & Hm & Hd).
  apply andb_true_iff in Hy as [Hy1%Z.leb_le Hy2%Z.leb_le].
  set (secs := (t / Second) `mod` 86400).
  pose proof (Z.mod_pos_bound (t / Second) 86400 ltac:(done)) as Hs. fold secs in Hs.
  assert (d ≤ 31) by (revert Hd; unfold daysIn; repeat case_match; lia).
  destruct (pad4 y) as (y1 & y2 & y3 & y4 & Ey & Vy); [lia|].
  destruct (pad2 m) as (m1 & m2 & Em & Vm); [lia|]. destruct (pad2 d) as (d1 & d2 & Ed & Vd); [lia|].
  destruct (pad2 (secs / 3600)) as (h1 & h2 & Eh & Vh); [div_lia|].
  destruct (pad2 ((secs / 60) `mod` 60)) as (n1 & n2 & En & Vn); [div_lia|].
  destruct (pad2 (secs `mod` 60)) as (s1 & s2 & Es & Vs); [div_lia|].
  rewrite Ey, Em, Ed, Eh, En, Es in *.
  pose proof (fraction_roundtrip (t `mod` Second) (Z.mod_pos_bound t Second ltac:(done))) as Hf.
  set (f := (with_frac 9 (t `mod` Second) "Z").2) in *. clearbody f.
  match goal with |- parse_rfc3339 ?e = _ => set (s := e) end.
  assert ((String.length s <? 19)%nat = false) as L by done.
  assert ((char_at "-" 4 s && char_at "-" 7 s && char_at "T" 10 s && char_at ":" 13 s && char_at ":" 16 s) = true)
    as M by done.
  change (String y1 (String y2 (String y3 (String y4 "")))) with (String.substring 0 4 s) in Vy.
  change (String m1 (String m2 "")) with (String.substring 5 2 s) in Vm.
  change (String d1 (String d2 "")) with (String.substring 8 2 s) in Vd.
  change (String h1 (String h2 "")) with (String.substring 11 2 s) in Vh.
  change (String n1 (String n2 "")) with (String.substring 14 2 s) in Vn.
  replace (String s1 (String s2 "")) with (String.substring 17 2 s) in Vs by by destruct f.
  change f with (drop_string 19 s) in Hf. clearbody s.
  assert (∀ u lo hi x, dec_value 0 u = Some x → lo ≤ x ≤ hi → parse_uint u lo hi = Some x) as P.
  { intros u lo hi x Hu Hx. unfold parse_uint. rewrite Hu.
    by rewrite (proj2 (Z.leb_le lo x)), (proj2 (Z.leb_le x hi)) by lia. }
  unfold parse_rfc3339.
  rewrite L, (P _ _ _ _ Vy) by lia. cbn [mbind option_bind]. rewrite (P _ _ _ _ Vm) by lia.
  cbn [mbind option_bind]. rewrite (P _ _ _ _ Vd) by lia. cbn [mbind option_bind].
  rewrite (P _ _ _ _ Vh) by div_lia. cbn [mbind option_bind]. rewrite (P _ _ _ _ Vn) by div_lia.
  cbn [mbind option_bind]. rewrite (P _ _ _ _ Vs) by div_lia.
  cbn [mbind option_bind]. rewrite M, Hf. change (parse_zone "Z") with (Some 0). cbn [mbind option_bind]. f_equal.
  rewrite Hday. unfold day_of, secs. clear. unfold Second. div_lia.
Qed.

(** In whole seconds, from the layout of the API. *)
Lemma parse_format_seconds t : year_in_range t = true → parse_rfc3339 (format_rfc3339 t) = Some (t / Second * Second).
Proof.
  intros Hy. set (u := t / Second * Second).
  assert (u / Second = t / Second) as Hu by (apply Z.div_mul; done).
  assert (day_of u = day_of t) as Hday.
  { unfold day_of. rewrite (Z.mul_comm 86400), <- !Z.div_div by done. by rewrite Hu. }
  rewrite <- parse_format; [|by unfold year_in_range in *; rewrite Hday]. f_equal.
  unfold format_rfc3339, format_rfc3339_nano, format_seconds. rewrite Hday, Hu.
  assert (u `mod` Second = 0) as -> by (apply Z.mod_mul; done). done.
Qed.
