(* ===== verification/Records.v ===== *)
(** * The JSON of stored records

    The encoding and decoding by encoding/json of the records that a backup
    keeps: [Project], [Deployment], [Instance], [Release], [Event] and [Worker],
    by the tags of their fields. Decoding a [time.Time] that fails ends the
    decoding of the whole text with what was decoded so far, while a value of
    another type is skipped. Times are decoded from the value of their string:
    Go reads the text between the quotes, which is the same unless it has
    escapes, which no encoded time has. *)

From stdpp Require Import base option gmap strings list pretty.
From Stdlib Require Import ZArith Lia Ascii SpecFloat.
From S2P Require Import Prelude GoLib GoFloat GoTime PtrStore Workers Deployments Projects Http Json JsonDecode TimeParse ApiData.

(** ** Encoding *)

Section encode.
Context {ft : FloatText}.

Definition json_project (p : Project) : Json :=
  JObj ([("id", JStr (p_ID p)); ("name", JStr (p_Name p)); ("description", JStr (p_Description p));
         ("repo_url", JStr (p_RepoURL p))]
        ++ omit_empty "default_branch" (p_DefaultBranch p) ++ omit_empty "root_dir" (p_RootDir p)
        ++ omit_empty "webhook_secret" (p_WebhookSecret p)
        ++ [("desired_replicas", json_int (p_DesiredReplicas p)); ("min_replicas", json_int (p_MinReplicas p));
            ("max_replicas", json_int (p_MaxReplicas p)); ("created_at", json_time (p_CreatedAt p));
            ("updated_at", json_time (p_UpdatedAt p))]).

Definition json_deployment (d : Deployment) : Json :=
  JObj [("id", JStr (d_ID d)); ("project_id", JStr (d_ProjectID d)); ("revision", JStr (d_Revision d));
        ("image", JStr (d_Image d)); ("image_digest", JStr (d_ImageDigest d)); ("desired_state", JStr (d_DesiredState d));
        ("status", JStr (status_string (d_Status d))); ("stage", JStr (d_Stage d));
        ("instance_count", json_int (d_InstanceCount d)); ("desired_replicas", json_int (d_DesiredReplicas d));
        ("env", json_map (d_Env d)); ("labels", json_map (d_Labels d));
        ("created_at", json_time (d_CreatedAt d)); ("updated_at", json_time (d_UpdatedAt d))].

Definition json_instance (i : Instance_) : Json :=
  JObj [("id", JStr (i_ID i)); ("deployment_id", JStr (i_DeploymentID i)); ("worker_id", JStr (i_WorkerID i));
        ("instance_key", JStr (i_InstanceKey i)); ("status", JStr (i_Status i)); ("container_id", JStr (i_ContainerID i));
        ("created_at", json_time (i_CreatedAt i)); ("updated_at", json_time (i_UpdatedAt i))].

Definition json_release (r : Release) : Json :=
  JObj [("id", JStr (rl_ID r)); ("project_id", JStr (rl_ProjectID r)); ("deployment_id", JStr (rl_DeploymentID r));
        ("version", JStr (rl_Version r)); ("image_ref", JStr (rl_ImageRef r)); ("image_digest", JStr (rl_ImageDigest r));
        ("signature", JStr (rl_Signature r)); ("created_at", json_time (rl_CreatedAt r))].

Definition json_worker (w : Worker) : Json :=
  JObj ([("id", JStr (w_ID w)); ("worker_key", JStr (w_WorkerKey w)); ("hostname", JStr (w_Hostname w));
         ("ip_address", JStr (w_IPAddress w)); ("grpc_port", json_int (w_GRPCPort w)); ("capacity", json_int (w_Capacity w));
         ("labels", json_map (w_Labels w)); ("state", JStr (worker_state_string (w_State w)));
         ("health", JStr (worker_health_string (w_Health w))); ("schedulable", JBool (w_Schedulable w));
         ("active_workloads", json_int (w_ActiveWorkloads w))]
        ++ match w_LastBeatAt w with Some t => [("last_beat_at", json_time t)] | None => [] end
        ++ [("consecutive_beats", json_int (w_ConsecutiveBeats w)); ("consecutive_misses", json_int (w_ConsecutiveMisses w));
            ("is_partitioned", JBool (w_IsPartitioned w)); ("created_at", json_time (w_CreatedAt w));
            ("updated_at", json_time (w_UpdatedAt w))]).

(** *** What cannot be encoded: a year out of range, a float that is no number *)

Definition project_times (p : Project) : list Time := [p_CreatedAt p; p_UpdatedAt p].
Definition deployment_times (d : Deployment) : list Time := [d_CreatedAt d; d_UpdatedAt d].
Definition instance_times (i : Instance_) : list Time := [i_CreatedAt i; i_UpdatedAt i].
Definition worker_times (w : Worker) : list Time := option_list (w_LastBeatAt w) ++ [w_CreatedAt w; w_UpdatedAt w].

Definition finite_float (x : float64) : bool :=
  match x with S754_zero _ | S754_finite _ _ _ => true | _ => false end.

(** The values that a map has. *)
Definition entries_ok (l : list (string * bool)) : bool :=
  let m : gmap string bool := list_to_map (reverse l) in forallb id (map_to_list m).*2.

Fixpoint meta_ok (v : MetaValue) : bool :=
  match v with
  | MTime t => year_in_range t
  | MFloat x => finite_float x
  | MList l => forallb meta_ok l
  | MMap l => entries_ok (map (λ kv, match kv with (k, x) => (k, meta_ok x) end) l)
  | _ => true
  end.

Definition project_encodes (p : Project) : bool := forallb year_in_range (project_times p).
Definition deployment_encodes (d : Deployment) : bool := forallb year_in_range (deployment_times d).
Definition instance_encodes (i : Instance_) : bool := forallb year_in_range (instance_times i).
Definition release_encodes (r : Release) : bool := year_in_range (rl_CreatedAt r).
Definition event_encodes (e : Event) : bool := meta_ok (MMap (ev_Metadata e)) && year_in_range (ev_CreatedAt e).
Definition worker_encodes (w : Worker) : bool := forallb year_in_range (worker_times w).

Context {jt : JsonText}.

(** [json.Marshal(list)] of a slice that is not nil, and of one that is nil
    when it is empty; the empty text stands for the nil bytes of an error. *)
Definition marshal_list {A} (encodes : A → bool) (json : A → Json) (l : list A) : string :=
  if forallb encodes l then json_text (JArr (json <$> l)) else "".

Definition marshal_nil_list {A} (encodes : A → bool) (json : A → Json) (l : list A) : string :=
  match l with [] => json_text JNull | _ => marshal_list encodes json l end.

End encode.

(** ** Decoding *)

Section decode.
Context {uni : Unicode} {ft : FloatText}.

(** The keys of the fields that are times. *)
Definition time_key (key : string) : bool := bool_decide (key = "created_at") || bool_decide (key = "updated_at").

(** [Time.UnmarshalJSON]. *)
Definition into_time {T} (set : Time → T → T) : Store T := λ v x,
  match v with
  | JStr s => match parse_rfc3339 s with Some t => (set t x, None) | None => (set 0 x, Some "parsing time") end
  | JNull => (x, None)
  | _ => (x, Some "Time.UnmarshalJSON: input is not a JSON string")
  end.

(** [true] when the decoding ended early. *)
Fixpoint decode_members_stop {T} (fields : list (Field T)) (l : list (string * Json)) (x : T) (err : option error) :
    T * option error * bool :=
  match l with
  | [] => (x, err, false)
  | (key, v) :: l' =>
    match field_of key fields with
    | Some f =>
      let '(x, err') := f.2 v x in
      if time_key f.1 && negb (bool_decide (err' = None)) then (x, err', true)
      else decode_members_stop fields l' x (keep_first err err')
    | None => decode_members_stop fields l' x err
    end
  end.

Definition decode_record {T} (fields : list (Field T)) (ty : string) (v : Json) (x : T) : T * option error * bool :=
  match v with
  | JObj l => decode_members_stop fields l x None
  | JNull => (x, None, false)
  | _ => (x, Some (top_mismatch ty (value_kind v)), false)
  end.

(** The elements of a slice of pointers; [None] is nil. *)
Fixpoint decode_pointers {T} (fields : list (Field T)) (ty : string) (zero : T) (l : list Json) : list (option T) :=
  match l with
  | [] => []
  | JNull :: l' => None :: decode_pointers fields ty zero l'
  | v :: l' =>
    let '(x, _, stop) := decode_record fields ty v zero in
    Some x :: if stop then [] else decode_pointers fields ty zero l'
  end.

Definition project_row : list (Field Project) :=
  let st := "Project" in
  [("id", into_string st "id" (λ s p, p <| p_ID := s |>)); ("name", into_string st "name" (λ s p, p <| p_Name := s |>));
   ("description", into_string st "description" (λ s p, p <| p_Description := s |>));
   ("repo_url", into_string st "repo_url" (λ s p, p <| p_RepoURL := s |>));
   ("default_branch", into_string st "default_branch" (λ s p, p <| p_DefaultBranch := s |>));
   ("root_dir", into_string st "root_dir" (λ s p, p <| p_RootDir := s |>));
   ("webhook_secret", into_string st "webhook_secret" (λ s p, p <| p_WebhookSecret := s |>));
   ("desired_replicas", into_int st "desired_replicas" "int" (λ n p, p <| p_DesiredReplicas := n |>));
   ("min_replicas", into_int st "min_replicas" "int" (λ n p, p <| p_MinReplicas := n |>));
   ("max_replicas", into_int st "max_replicas" "int" (λ n p, p <| p_MaxReplicas := n |>));
   ("created_at", into_time (λ t p, p <| p_CreatedAt := t |>)); ("updated_at", into_time (λ t p, p <| p_UpdatedAt := t |>))].

(** The constant of a string, if there is one. *)
Definition parse_status (s : string) : DeploymentStatus :=
  if decide (s = "QUEUED") then StatusQueued else if decide (s = "BUILDING") then StatusBuilding
  else if decide (s = "BUILT") then StatusBuilt else if decide (s = "SCHEDULING") then StatusScheduling
  else if decide (s = "STARTING") then StatusStarting else if decide (s = "RUNNING") then StatusRunning
  else if decide (s = "FAILED") then StatusFailed else if decide (s = "STOPPED") then StatusStopped
  else if decide (s = "ROLLED_BACK") then StatusRolledBack else StatusOther s.

Definition deployment_row : list (Field Deployment) :=
  let st := "Deployment" in
  [("id", into_string st "id" (λ s d, d <| d_ID := s |>));
   ("project_id", into_string st "project_id" (λ s d, d <| d_ProjectID := s |>));
   ("revision", into_string st "revision" (λ s d, d <| d_Revision := s |>));
   ("image", into_string st "image" (λ s d, d <| d_Image := s |>));
   ("image_digest", into_string st "image_digest" (λ s d, d <| d_ImageDigest := s |>));
   ("desired_state", into_string st "desired_state" (λ s d, d <| d_DesiredState := s |>));
   ("status", into_string st "status" (λ s d, d <| d_Status := parse_status s |>));
   ("stage", into_string st "stage" (λ s d, d <| d_Stage := s |>));
   ("instance_count", into_int st "instance_count" "int" (λ n d, d <| d_InstanceCount := n |>));
   ("desired_replicas", into_int st "desired_replicas" "int" (λ n d, d <| d_DesiredReplicas := n |>));
   ("env", into_map st "env" d_Env (λ m d, d <| d_Env := m |>));
   ("labels", into_map st "labels" d_Labels (λ m d, d <| d_Labels := m |>));
   ("created_at", into_time (λ t d, d <| d_CreatedAt := t |>)); ("updated_at", into_time (λ t d, d <| d_UpdatedAt := t |>))].

Definition instance_row : list (Field Instance_) :=
  let st := "Instance" in
  [("id", into_string st "id" (λ s i, i <| i_ID := s |>));
   ("deployment_id", into_string st "deployment_id" (λ s i, i <| i_DeploymentID := s |>));
   ("worker_id", into_string st "worker_id" (λ s i, i <| i_WorkerID := s |>));
   ("instance_key", into_string st "instance_key" (λ s i, i <| i_InstanceKey := s |>));
   ("status", into_string st "status" (λ s i, i <| i_Status := s |>));
   ("container_id", into_string st "container_id" (λ s i, i <| i_ContainerID := s |>));
   ("created_at", into_time (λ t i, i <| i_CreatedAt := t |>)); ("updated_at", into_time (λ t i, i <| i_UpdatedAt := t |>))].

Definition release_row : list (Field Release) :=
  let st := "Release" in
  [("id", into_string st "id" (λ s r, r <| rl_ID := s |>));
   ("project_id", into_string st "project_id" (λ s r, r <| rl_ProjectID := s |>));
   ("deployment_id", into_string st "deployment_id" (λ s r, r <| rl_DeploymentID := s |>));
   ("version", into_string st "version" (λ s r, r <| rl_Version := s |>));
   ("image_ref", into_string st "image_ref" (λ s r, r <| rl_ImageRef := s |>));
   ("image_digest", into_string st "image_digest" (λ s r, r <| rl_ImageDigest := s |>));
   ("signature", into_string st "signature" (λ s r, r <| rl_Signature := s |>));
   ("created_at", into_time (λ t r, r <| rl_CreatedAt := t |>))].

(** A value of an [interface{}]. A number that float64 cannot hold is an error,
    and nil is stored. *)
Fixpoint decode_any (v : Json) : MetaValue * option error :=
  match v with
  | JNull => (MNil, None)
  | JBool b => (MBool b, None)
  | JNum n =>
    match ft_parse n with
    | Some x => (MFloat x, None)
    | None => (MNil, Some ("json: cannot unmarshal number " +:+ n +:+ " into Go value of type float64"))
    end
  | JStr s => (MStr s, None)
  | JArr l =>
    let r := map decode_any l in (MList r.*1, foldl keep_first None r.*2)
  | JObj l =>
    let r := map (λ kv, match kv with (k, x) => (k, decode_any x) end) l in
    (MMap ((λ x, (x.1, x.2.1)) <$> r), foldl keep_first None (r.*2).*2)
  end.

(** The members are added to what the map has; null empties it. *)
Definition into_any_map {T} (st field : string) (get : T → list (string * MetaValue))
    (set : list (string * MetaValue) → T → T) : Store T := λ v x,
  match v with
  | JNull => (set [] x, None)
  | JObj l =>
    match decode_any v with
    | (MMap m, err) => (set (get x ++ m) x, err)
    | (_, err) => (x, err)
    end
  | _ => (x, Some (type_error (value_kind v) st field "map[string]interface {}"))
  end.

Definition event_row : list (Field Event) :=
  let st := "Event" in
  [("id", into_string st "id" (λ s e, e <| ev_ID := s |>));
   ("project_id", into_string st "project_id" (λ s e, e <| ev_ProjectID := s |>));
   ("deployment_id", into_string st "deployment_id" (λ s e, e <| ev_DeploymentID := s |>));
   ("event_type", into_string st "event_type" (λ s e, e <| ev_EventType := s |>));
   ("message", into_string st "message" (λ s e, e <| ev_Message := s |>));
   ("metadata", into_any_map st "metadata" ev_Metadata (λ m e, e <| ev_Metadata := m |>));
   ("created_at", into_time (λ t e, e <| ev_CreatedAt := t |>))].

(** The zero values. *)
Definition zero_project : Project := mkProject "" "" "" "" "" "" "" 0 0 0 0 0.
Definition zero_deployment : Deployment := mkDeployment "" "" "" "" "" "" (StatusOther "") "" 0 0 ∅ ∅ 0 0.
Definition zero_instance : Instance_ := mkInstance "" "" "" "" "" "" 0 0.
Definition zero_release : Release := mkRelease "" "" "" "" "" "" "" 0.
Definition zero_event : Event := mkEvent "" "" "" "" "" [] 0.

Context {jt : JsonText}.

(** [json.Unmarshal(payload, &x)] of a record. *)
Definition unmarshal_record {T} (fields : list (Field T)) (ty body : string) (zero : T) : T * option error :=
  match parse_whole body with
  | Some v => (decode_record fields ty v zero).1
  | None => (zero, Some (jt_syntax_error body))
  end.

(** [_ = json.Unmarshal(raw, &list)] of a slice of pointers that was nil. *)
Definition unmarshal_pointers {T} (fields : list (Field T)) (ty raw : string) (zero : T) : list (option T) :=
  match parse_whole raw with
  | Some (JArr l) => decode_pointers fields ty zero l
  | _ => []
  end.

End decode.

(** ** Round trips *)

#[local] Arguments year_in_range : simpl never.

Section roundtrip.
Context {uni : Unicode} {ft : FloatText}.

(** A member whose field takes its value. *)
Lemma decode_member {T} (fields : list (Field T)) key v l (x y : T) f :
  field_of key fields = Some f → f.2 v x = (y, None) →
  decode_members_stop fields ((key, v) :: l) x None = decode_members_stop fields l y None.
Proof. intros Hf Hv. cbn [decode_members_stop]. rewrite Hf, Hv. by rewrite andb_false_r. Qed.

(** A member that is left out when it is empty: the field is empty already. *)
Lemma decode_omitted {T} (fields : list (Field T)) key s l (x y : T) f :
  field_of key fields = Some f → f.2 (JStr s) x = (y, None) → (s = "" → y = x) →
  decode_members_stop fields (omit_empty key s ++ l) x None = decode_members_stop fields l y None.
Proof.
  intros Hf Hv He. unfold omit_empty. case_decide as Hs; [by rewrite He|]. by apply (decode_member _ _ _ _ _ _ f).
Qed.

Lemma into_int_range {T} st field ty (set : Z → T → T) n x :
  - 2 ^ 63 ≤ n < 2 ^ 63 → into_int st field ty set (json_int n) x = (set n x, None).
Proof. intros H. unfold into_int, json_int. by rewrite ParseInt_Itoa. Qed.

Lemma into_time_range {T} (set : Time → T → T) t x :
  year_in_range t = true → into_time set (json_time t) x = (set t x, None).
Proof. intros H. unfold into_time, json_time. by rewrite parse_format. Qed.

Lemma map_members_fold st field (l : list (string * string)) m :
  fold_left (map_member st field) (prod_map id JStr <$> l) (m, None) = (foldl (λ (m : gmap string string) kv, <[kv.1 := kv.2]> m) m l, None).
Proof. revert m. induction l as [|[k s] l IH]; intros m; [done|]. apply IH. Qed.

(** The keys in any order, with their values, make up the map. *)
Lemma foldl_insert_keys (m : gmap string string) (l : list string) (a : gmap string string) k :
  foldl (λ (m : gmap string string) kv, <[kv.1 := kv.2]> m) a ((λ k, (k, lookup_str m k)) <$> l) !! k
  = if decide (k ∈ l) then Some (lookup_str m k) else a !! k.
Proof.
  revert a. induction l as [|k' l IH]; intros a; cbn; [by rewrite decide_False by apply not_elem_of_nil|].
  rewrite IH. destruct (decide (k ∈ l)) as [Hk|Hk]; [by rewrite decide_True by (by right)|].
  destruct (decide (k = k')) as [->|Hn].
  - by rewrite lookup_insert_eq, decide_True by (by left).
  - rewrite lookup_insert_ne by done. rewrite decide_False; [done|]. by intros [?|?]%elem_of_cons.
Qed.

Lemma into_map_map {T} st field (get : T → gmap string string) set x m :
  get x = ∅ → into_map st field get set (json_map m) x = (set m x, None).
Proof.
  intros Hx. unfold into_map, json_map. rewrite Hx.
  replace ((λ k, (k, JStr (lookup_str m k))) <$> sort_Strings (map_to_list m).*1)
    with (prod_map id JStr <$> ((λ k, (k, lookup_str m k)) <$> sort_Strings (map_to_list m).*1))
    by (rewrite <- list_fmap_compose; done).
  rewrite map_members_fold. f_equal. f_equal. apply map_eq. intros k. rewrite foldl_insert_keys.
  assert (k ∈ sort_Strings (map_to_list m).*1 ↔ is_Some (m !! k)) as Hk.
  { unfold sort_Strings. rewrite SliceStable_perm, list_elem_of_fmap. split.
    - intros ([k' s] & -> & H%elem_of_map_to_list). eauto.
    - intros [s H]. exists (k, s). by rewrite elem_of_map_to_list. }
  unfold lookup_str. destruct (m !! k) as [s|] eqn:E.
  - by rewrite decide_True by (apply Hk; eauto).
  - rewrite decide_False; [done|]. rewrite Hk. by intros [? ?].
Qed.

(** The numbers of a record, which are ints. *)
Definition int64_ok (n : Z) : bool := (- 2 ^ 63 <=? n) && (n <? 2 ^ 63).
Definition project_ints (p : Project) : list Z := [p_DesiredReplicas p; p_MinReplicas p; p_MaxReplicas p].
Definition deployment_ints (d : Deployment) : list Z := [d_InstanceCount d; d_DesiredReplicas d].

Lemma int64_ok_spec n : int64_ok n = true ↔ - 2 ^ 63 ≤ n < 2 ^ 63.
Proof. unfold int64_ok. by rewrite andb_true_iff, Z.leb_le, Z.ltb_lt. Qed.

Lemma parse_status_string s : (∀ t, s ≠ StatusOther t) ∨ s = StatusOther "" → parse_status (status_string s) = s.
Proof. intros [H|Hs]; [|by rewrite Hs]. destruct s; try done. by destruct (H s). Qed.

#[local] Arguments int64_ok : simpl never.
#[local] Arguments decode_members_stop : simpl never.

(** One field after the other. *)
Ltac decode_fields :=
  repeat match goal with
  | |- decode_members_stop _ (omit_empty _ _ ++ _) _ _ = _ =>
    erewrite decode_omitted; [|reflexivity|reflexivity|by intros He; rewrite He]
  | |- decode_members_stop _ ((_, json_int _) :: _) _ _ = _ =>
    erewrite decode_member; [|reflexivity|by apply into_int_range]
  | |- decode_members_stop _ ((_, json_time _) :: _) _ _ = _ =>
    erewrite decode_member; [|reflexivity|by apply into_time_range]
  | |- decode_members_stop _ ((_, json_map _) :: _) _ _ = _ =>
    erewrite decode_member; [|reflexivity|by apply into_map_map]
  | |- decode_members_stop _ ((_, _) :: _) _ _ = _ =>
    erewrite decode_member; [|reflexivity|reflexivity]
  end.

Lemma decode_project p :
  forallb int64_ok (project_ints p) = true → project_encodes p = true →
  decode_record project_row "projects.Project" (json_project p) zero_project = (p, None, false).
Proof.
  unfold project_encodes. cbn. rewrite !andb_true_r, !andb_true_iff, !int64_ok_spec. intros (Hd & Hn & Hx) [Hc Hu].
  unfold json_project, decode_record. cbn [app]. rewrite <- ?(assoc_L (++)). decode_fields. by destruct p.
Qed.

Lemma decode_deployment d :
  forallb int64_ok (deployment_ints d) = true → deployment_encodes d = true → parse_status (status_string (d_Status d)) = d_Status d →
  decode_record deployment_row "deployments.Deployment" (json_deployment d) zero_deployment = (d, None, false).
Proof.
  unfold deployment_encodes. cbn. rewrite !andb_true_r, !andb_true_iff, !int64_ok_spec. intros (Hd & Hn) [Hc Hu] Hs.
  unfold json_deployment, decode_record. decode_fields. cbn. rewrite Hs. by destruct d.
Qed.

Lemma decode_instance i : instance_encodes i = true →
  decode_record instance_row "deployments.Instance" (json_instance i) zero_instance = (i, None, false).
Proof.
  unfold instance_encodes. cbn. rewrite !andb_true_r, !andb_true_iff. intros [Hc Hu].
  unfold json_instance, decode_record. decode_fields. by destruct i.
Qed.

Lemma decode_release r : release_encodes r = true →
  decode_record release_row "deployments.Release" (json_release r) zero_release = (r, None, false).
Proof. unfold release_encodes. intros Hc. unfold json_release, decode_record. decode_fields. by destruct r. Qed.

(** *** Metadata

    The members that a map is written as are its entries. *)
Lemma json_entries_spec (l : list (string * Json)) : ∃ members,
  json_entries l = JObj members ∧ members ≡ₚ map_to_list (list_to_map (reverse l) : gmap string Json).
Proof.
  eexists. split; [done|]. set (m := list_to_map (reverse l) : gmap string Json).
  unfold sort_Strings. rewrite SliceStable_perm.
  assert (∀ L : list (string * Json), Forall (λ kv, m !! kv.1 = Some kv.2) L →
    omap (λ k, (λ v, (k, v)) <$> m !! k) L.*1 = L) as H.
  { intros L. induction 1 as [|[k v] L Hk HL IH]; [done|]. cbn in *. by rewrite Hk, IH. }
  rewrite H; [done|]. apply Forall_forall. intros [k v] Hkv. by apply elem_of_map_to_list in Hkv.
Qed.

(** What a value of the metadata is read back as. *)
Definition meta_back (v : MetaValue) : MetaValue := (decode_any (json_meta v)).1.

Definition metadata_back (l : list (string * MetaValue)) : list (string * MetaValue) :=
  match meta_back (MMap l) with MMap m => m | _ => [] end.

(** Every entry is read back by itself. *)
Lemma metadata_back_map l : meta_map (metadata_back l) = meta_back <$> meta_map l.
Proof.
  unfold metadata_back. unfold meta_back at 1. cbn [json_meta].
  set (f := λ kv : string * MetaValue, match kv with (k, x) => (k, json_meta x) end).
  destruct (json_entries_spec (map f l)) as (members & -> & Hm). cbn [decode_any fst].
  assert (map f l = prod_map id json_meta <$> l) as Hf by (unfold f; apply map_ext; by intros []).
  rewrite Hf, <- fmap_reverse, list_to_map_fmap in Hm. fold (meta_map l) in Hm.
  unfold meta_map at 1.
  set (g := λ kv : string * Json, match kv with (k, x) => (k, decode_any x) end).
  replace ((λ x : string * (MetaValue * option error), (x.1, x.2.1)) <$> map g members)
    with (prod_map id (fst ∘ decode_any) <$> members)
    by (clear Hm; unfold g; induction members as [|[k x] ms IH]; [done|]; cbn [fmap list_fmap map]; f_equal; exact IH).
  rewrite <- fmap_reverse, list_to_map_fmap.
  assert (list_to_map (reverse members) = (json_meta <$> meta_map l : gmap string Json)) as ->.
  { rewrite <- (list_to_map_to_list (json_meta <$> meta_map l)). apply list_to_map_proper.
    - rewrite reverse_Permutation, Hm. apply NoDup_fst_map_to_list.
    - by rewrite reverse_Permutation. }
  by rewrite <- map_fmap_compose.
Qed.

Lemma meta_back_plain v :
  match v with
  | MStr _ => meta_back v = v
  | MTime t => meta_back v = MStr (format_rfc3339_nano t)
  | MInt n => ∀ x, ft_parse (Itoa n) = Some x → meta_back v = MFloat x
  | MFloat y => ∀ x, ft_parse (ft_json y) = Some x → meta_back v = MFloat x
  | _ => True
  end.
Proof. destruct v; try done; intros z Hz; unfold meta_back; cbn; by rewrite Hz. Qed.

(** The numbers of the metadata can be read. *)
Definition metadata_readable (l : list (string * MetaValue)) : Prop := (decode_any (json_metadata l)).2 = None.

Lemma into_any_map_metadata {T} st field (get : T → list (string * MetaValue)) set x l :
  get x = [] → metadata_readable l →
  into_any_map st field get set (json_metadata l) x = (set (metadata_back l) x, None).
Proof.
  unfold metadata_readable, json_metadata, metadata_back, meta_back. cbn [json_meta].
  destruct (json_entries_spec (map (λ kv, match kv with (k, x) => (k, json_meta x) end) l)) as (ms & -> & _).
  intros Hx Hm. unfold into_any_map. rewrite Hx. cbn [decode_any snd fst] in Hm |- *. by rewrite Hm.
Qed.

Lemma decode_event e : event_encodes e = true → metadata_readable (ev_Metadata e) →
  decode_record event_row "deployments.Event" (json_event e) zero_event
  = (e <| ev_Metadata := metadata_back (ev_Metadata e) |>, None, false).
Proof.
  unfold event_encodes. rewrite andb_true_iff. intros [_ Hc] Hm.
  unfold json_event, decode_record. decode_fields.
  erewrite decode_member; [|reflexivity|by apply into_any_map_metadata]. decode_fields. by destruct e.
Qed.

End roundtrip.

(** ** Whole texts *)

Section texts.
Context {uni : Unicode} {ft : FloatText} {jt : JsonText} {T : Type}.
Variables (fields : list (Field T)) (ty : string) (zero : T) (encodes : T → bool) (json : T → Json) (back : T → T).
Hypothesis json_object : ∀ x, ∃ l, json x = JObj l.

(** Each record is read back as [back] says. *)
Definition reads_back (x : T) : Prop := decode_record fields ty (json x) zero = (back x, None, false).

Lemma unmarshal_text x : json_ok 0 (json x) = true → reads_back x →
  unmarshal_record fields ty (json_text (json x)) zero = (back x, None).
Proof.
  intros Hok Hx. unfold unmarshal_record. rewrite <- (str_app_nil (json_text _)).
  rewrite json_roundtrip by eauto. by rewrite Hx.
Qed.

Lemma decode_pointers_back l : Forall reads_back l →
  decode_pointers fields ty zero (json <$> l) = (Some ∘ back) <$> l.
Proof.
  induction 1 as [|x l Hx Hl IH]; [done|]. cbn [fmap list_fmap]. destruct (json_object x) as [ms E].
  unfold reads_back in Hx. cbn [decode_pointers]. rewrite E in Hx |- *. rewrite Hx. by rewrite IH.
Qed.

Lemma unmarshal_pointers_nil : unmarshal_pointers fields ty (marshal_nil_list encodes json []) zero = [].
Proof. done. Qed.

Lemma unmarshal_marshal_list l :
  forallb encodes l = true → json_ok 0 (JArr (json <$> l)) = true → Forall reads_back l →
  unmarshal_pointers fields ty (marshal_list encodes json l) zero = (Some ∘ back) <$> l.
Proof.
  intros He Hok Hl. unfold marshal_list. rewrite He. unfold unmarshal_pointers.
  rewrite <- (str_app_nil (json_text _)), json_roundtrip by eauto. by apply decode_pointers_back.
Qed.

Lemma unmarshal_marshal_nil_list l :
  forallb encodes l = true → json_ok 0 (JArr (json <$> l)) = true → Forall reads_back l →
  unmarshal_pointers fields ty (marshal_nil_list encodes json l) zero = (Some ∘ back) <$> l.
Proof.
  intros He Hok Hl. destruct l as [|x l]; [apply unmarshal_pointers_nil|]. by apply unmarshal_marshal_list.
Qed.

End texts.

(** ** Records that a text keeps *)

Section storable.
Context {ft : FloatText}.

(** Encoded inside a list. *)
Definition storable_project (p : Project) : bool :=
  project_encodes p && forallb int64_ok (project_ints p) && json_ok 1 (json_project p).
Definition storable_deployment (d : Deployment) : bool :=
  deployment_encodes d && forallb int64_ok (deployment_ints d) && json_ok 1 (json_deployment d)
  && bool_decide (parse_status (status_string (d_Status d)) = d_Status d).
Definition storable_instance (i : Instance_) : bool := instance_encodes i && json_ok 1 (json_instance i).
Definition storable_release (r : Release) : bool := release_encodes r && json_ok 1 (json_release r).
Definition storable_event (e : Event) : bool :=
  event_encodes e && bool_decide ((decode_any (json_metadata (ev_Metadata e))).2 = None) && json_ok 1 (json_event e).

Lemma json_ok_list {T} (json : T → Json) l : Forall (λ x, json_ok 1 (json x) = true) l → json_ok 0 (JArr (json <$> l)) = true.
Proof.
  intros H. cbn [json_ok]. apply andb_true_iff. split; [done|]. apply forallb_forall.
  intros v Hv%list_elem_of_In. apply list_elem_of_fmap in Hv as (x & -> & Hx). rewrite Forall_forall in H. by apply H.
Qed.

(** A value that is nested less deeply is fine as well. *)
Lemma json_ok_outer v d : json_ok (d + 1) v = true → json_ok d v = true.
Proof.
  revert d. induction v as [|b|n|s|l IH|l IH] using Json_ind; intros d; cbn [json_ok]; try done;
    rewrite !andb_true_iff; intros [Hd%Z.ltb_lt Hl]; (split; [apply Z.ltb_lt; lia|]);
    apply forallb_forall; intros x Hx; rewrite forallb_forall in Hl; specialize (Hl x Hx);
    rewrite Forall_forall in IH.
  - apply IH; [by apply list_elem_of_In|]. exact Hl.
  - apply andb_true_iff in Hl as [H1 H2]. apply andb_true_iff. split; [done|].
    apply (IH x); [by apply list_elem_of_In|]. exact H2.
Qed.

(** What a list of storable records is read back as from its text. *)
Lemma text_back {uni : Unicode} {jt : JsonText} {T} (fields : list (Field T)) ty zero (encodes storable : T → bool) json back
    (marshal : list T → string) l :
  marshal = marshal_list encodes json ∨ marshal = marshal_nil_list encodes json →
  (∀ x, ∃ ms, json x = JObj ms) →
  (∀ x, storable x = true → encodes x = true ∧ json_ok 1 (json x) = true ∧ reads_back fields ty zero json back x) →
  Forall (λ x, storable x = true) l →
  unmarshal_pointers fields ty (marshal l) zero = Some <$> (back <$> l).
Proof.
  intros Hm Hj Hs Hl. rewrite <- list_fmap_compose.
  assert (forallb encodes l = true) as He.
  { apply forallb_forall. intros x Hx%list_elem_of_In. rewrite Forall_forall in Hl. by apply Hs, Hl. }
  assert (json_ok 0 (JArr (json <$> l)) = true) as Hok.
  { apply json_ok_list. eapply Forall_impl; [exact Hl|]. intros x Hx. by apply Hs. }
  assert (Forall (reads_back fields ty zero json back) l) as Hr.
  { eapply Forall_impl; [exact Hl|]. intros x Hx. by apply Hs. }
  destruct Hm as [-> | ->]; [by apply unmarshal_marshal_list|by apply unmarshal_marshal_nil_list].
Qed.

Lemma storable_project_spec {uni : Unicode} p : storable_project p = true →
  project_encodes p = true ∧ json_ok 1 (json_project p) = true
  ∧ reads_back project_row "projects.Project" zero_project json_project id p.
Proof. unfold storable_project. rewrite !andb_true_iff. intros [[H1 H2] H3].
  by apply (conj H1), (conj H3), decode_project. Qed.

Lemma storable_deployment_spec {uni : Unicode} d : storable_deployment d = true →
  deployment_encodes d = true ∧ json_ok 1 (json_deployment d) = true
  ∧ reads_back deployment_row "deployments.Deployment" zero_deployment json_deployment id d.
Proof.
  unfold storable_deployment. rewrite !andb_true_iff, bool_decide_eq_true. intros [[[H1 H2] H3] H4].
  by apply (conj H1), (conj H3), decode_deployment.
Qed.

Lemma storable_instance_spec {uni : Unicode} i : storable_instance i = true →
  instance_encodes i = true ∧ json_ok 1 (json_instance i) = true
  ∧ reads_back instance_row "deployments.Instance" zero_instance json_instance id i.
Proof. unfold storable_instance. rewrite !andb_true_iff. intros [H1 H2]. by apply (conj H1), (conj H2), decode_instance. Qed.

Lemma storable_release_spec {uni : Unicode} r : storable_release r = true →
  release_encodes r = true ∧ json_ok 1 (json_release r) = true
  ∧ reads_back release_row "deployments.Release" zero_release json_release id r.
Proof. unfold storable_release. rewrite !andb_true_iff. intros [H1 H2]. by apply (conj H1), (conj H2), decode_release. Qed.

Lemma storable_event_spec {uni : Unicode} e : storable_event e = true →
  event_encodes e = true ∧ json_ok 1 (json_event e) = true
  ∧ reads_back event_row "deployments.Event" zero_event json_event (λ e, e <| ev_Metadata ::= metadata_back |>) e.
Proof.
  unfold storable_event. rewrite !andb_true_iff, bool_decide_eq_true. intros [[H1 H2] H3].
  apply (conj H1), (conj H3). exact (decode_event e H1 H2).
Qed.

End storable.
