(* ===== verification/Backup.v ===== *)
(** * Backup and restore: internal/storage/backup/backup.go

    The in-memory backup manager: the write-ahead log, base backups and the
    restore with its point-in-time replay. The repositories are the in-memory
    ones, the only ones that can be wiped, each of which may be nil. A result
    [None] is a panic, of a nil repository or a nil record.

    Two calls of the manager may run at the same time as long as neither holds
    the lock: a sequence number is drawn before the lock is taken, so recording
    a mutation is two steps, [draw_record] and [ArchiveWAL], and a backup is the
    steps [snapshot] and [seal]. *)

From stdpp Require Import base option gmap strings list pretty.
From Stdlib Require Import ZArith Lia Ascii.
From S2P Require Import Prelude GoLib GoFloat GoTime PtrStore Workers Deployments Platform Projects Http Json JsonDecode TimeParse ApiData Demo Records.

(** ** Data *)

Record WALRecord := mkWAL {
  wl_LSN : Z;
  wl_Timestamp : Time;
  wl_Table : string;
  wl_Operation : string;
  wl_RecordID : string;
  wl_Payload : string
}.

Record BaseBackup := mkBaseBackup {
  bb_ID : string;
  bb_BaseLSN : Z;
  bb_CreatedAt : Time;
  bb_Data : gmap string string
}.

(** [bm_draws] counts the clock readings and identifiers that were drawn. *)
Record MemoryBackupManager := mkBackupManager {
  bm_projectRepo : option MemoryProjectRepository;
  bm_depRepo : option MemoryDeploymentRepository;
  bm_instRepo : option MemoryInstanceRepository;
  bm_releaseRepo : option MemoryReleaseRepository;
  bm_eventRepo : option MemoryEventRepository;
  bm_workerRepo : option MemoryWorkerRepository;
  bm_currentLSN : Z;
  bm_backups : gmap string BaseBackup;
  bm_walLog : list WALRecord;
  bm_draws : nat
}.

#[export] Instance MemoryBackupManager_eta : Settable MemoryBackupManager := λ m,
  mkBackupManager (bm_projectRepo m) (bm_depRepo m) (bm_instRepo m) (bm_releaseRepo m) (bm_eventRepo m)
    (bm_workerRepo m) (bm_currentLSN m) (bm_backups m) (bm_walLog m) (bm_draws m).

(** What a caller records as a mutation: a record, or another value with its
    JSON. *)
Inductive Entity :=
| EProject (p : Project) | EDeployment (d : Deployment) | EInstance (i : Instance_)
| ERelease (r : Release) | EEvent (e : Event) | EWorker (w : Worker) | EJson (v : Json).

(** The messages of the encoder's errors. *)
Class EncodeErrors := encode_error : Entity → error.

Section backup.
Context {ent : Entropy} {uni : Unicode} {ft : FloatText} {jt : JsonText} {ee : EncodeErrors}.

Definition json_entity (e : Entity) : Json :=
  match e with
  | EProject p => json_project p | EDeployment d => json_deployment d | EInstance i => json_instance i
  | ERelease r => json_release r | EEvent e => json_event e | EWorker w => json_worker w | EJson v => v
  end.

Definition entity_encodes (e : Entity) : bool :=
  match e with
  | EProject p => project_encodes p | EDeployment d => deployment_encodes d | EInstance i => instance_encodes i
  | ERelease r => release_encodes r | EEvent e => event_encodes e | EWorker w => worker_encodes w | EJson _ => true
  end.

Definition NewMemoryBackupManager (depRepo : option MemoryDeploymentRepository) (instRepo : option MemoryInstanceRepository)
    (projectRepo : option MemoryProjectRepository) (releaseRepo : option MemoryReleaseRepository)
    (eventRepo : option MemoryEventRepository) (workerRepo : option MemoryWorkerRepository) : MemoryBackupManager :=
  mkBackupManager projectRepo depRepo instRepo releaseRepo eventRepo workerRepo 0 ∅ [] 0.

(** ** The log *)

(** [RecordMutation] up to its call of [ArchiveWAL]: the number is drawn with
    an atomic addition, without the lock. *)
Definition draw_record (table op id : string) (entity : Entity) (m : MemoryBackupManager) :
    (error + WALRecord) * MemoryBackupManager :=
  if entity_encodes entity then
    let lsn := uint64 (bm_currentLSN m + 1) in
    (inr (mkWAL lsn (now_at (bm_draws m)) table op id (json_text (json_entity entity))),
     m <| bm_currentLSN := lsn |> <| bm_draws ::= S |>)
  else (inl ("failed to serialize WAL record: " +:+ encode_error entity), m).

Definition ArchiveWAL (record : WALRecord) (m : MemoryBackupManager) : MemoryBackupManager :=
  m <| bm_walLog ::= λ l, l ++ [record] |>.

Definition RecordMutation (table op id : string) (entity : Entity) (m : MemoryBackupManager) :
    option error * MemoryBackupManager :=
  match draw_record table op id entity m with
  | (inl err, m) => (Some err, m)
  | (inr record, m) => (None, ArchiveWAL record m)
  end.

(** ** Base backups *)

(** The table of a repository: its list, encoded, unless it is nil. *)
Definition table_of {R A} (name : string) (repo : option R) (list_ : R → error + list A) (marshal : list A → string) :
    list (string * string) :=
  match repo with
  | None => []
  | Some r => match list_ r with inl _ => [] | inr l => [(name, marshal l)] end
  end.

(** [os] are the orders in which the lists range over their maps. *)
Definition snapshot (os : nat → Order) (m : MemoryBackupManager) : gmap string string :=
  list_to_map (
    table_of "projects" (bm_projectRepo m) (mpr_List (os 0%nat)) (marshal_list project_encodes json_project)
    ++ table_of "deployments" (bm_depRepo m) (mdr_List (os 1%nat) "") (marshal_list deployment_encodes json_deployment)
    ++ table_of "instances" (bm_instRepo m) (mir_ListAll (os 2%nat)) (marshal_list instance_encodes json_instance)
    ++ table_of "releases" (bm_releaseRepo m) (mrr_List (os 3%nat) "") (marshal_nil_list release_encodes json_release)
    ++ table_of "events" (bm_eventRepo m) (λ r, inr (mer_ListAll r)) (marshal_nil_list event_encodes json_event)
    ++ table_of "workers" (bm_workerRepo m) (mwr_List (os 4%nat)) (marshal_list worker_encodes json_worker)).

Definition seal (data : gmap string string) (m : MemoryBackupManager) : BaseBackup * MemoryBackupManager :=
  let backup := mkBaseBackup (uuid_at (bm_draws m)) (bm_currentLSN m) (now_at (bm_draws m)) data in
  (backup, m <| bm_backups ::= <[bb_ID backup := backup]> |> <| bm_draws ::= S |>).

Definition CreateBaseBackup (os : nat → Order) (m : MemoryBackupManager) : BaseBackup * MemoryBackupManager :=
  seal (snapshot os m) m.

Definition ListBackups (o : Order) (m : MemoryBackupManager) : list BaseBackup := map_values o (bm_backups m).

(** ** Restore *)

(** [repo.Create] of every record of a list, each with its own reading of the
    clock and its own identifier; a nil record is a panic. *)
Fixpoint create_each {A R} (create : Time → string → A → R → R) (l : list (option A)) (n : nat) (r : R) : option (R * nat) :=
  match l with
  | [] => Some (r, n)
  | None :: _ => None
  | Some x :: l' => create_each create l' (S n) (create (now_at n) (uuid_at n) x r)
  end.

(** Wipe and restore one table. *)
Definition restore_table {A R} (data : gmap string string) (name : string) (rows : string → list (option A)) (wipe : R → R)
    (create : Time → string → A → R → R) (n : nat) (repo : option R) : option (option R * nat) :=
  match repo, data !! name with
  | Some r, Some raw => '(r, n) ← create_each create (rows raw) n (wipe r); Some (Some r, n)
  | _, _ => Some (repo, n)
  end.

Definition project_rows (raw : string) := unmarshal_pointers project_row "projects.Project" raw zero_project.
Definition deployment_rows (raw : string) := unmarshal_pointers deployment_row "deployments.Deployment" raw zero_deployment.
Definition instance_rows (raw : string) := unmarshal_pointers instance_row "deployments.Instance" raw zero_instance.
Definition release_rows (raw : string) := unmarshal_pointers release_row "deployments.Release" raw zero_release.
Definition event_rows (raw : string) := unmarshal_pointers event_row "deployments.Event" raw zero_event.

(** The calls of [Create], whose errors are not looked at. *)
Definition recreate_project (now : Time) (_ : string) (p : Project) (r : MemoryProjectRepository) := (mpr_Create now p r).2.
Definition recreate_deployment (now : Time) (_ : string) (d : Deployment) (r : MemoryDeploymentRepository) := (mdr_Create now d r).2.
Definition recreate_instance (now : Time) (_ : string) (i : Instance_) (r : MemoryInstanceRepository) := (mir_Create now i r).2.
Definition recreate_release (now : Time) (uuid : string) (rel : Release) (r : MemoryReleaseRepository) := (mrr_Create now uuid rel r).2.
Definition recreate_event (now : Time) (uuid : string) (e : Event) (r : MemoryEventRepository) := (mer_Create now uuid e r).2.

(** Steps 1 to 5 of [Restore]. *)
Definition restore_base (data : gmap string string) (m : MemoryBackupManager) : option MemoryBackupManager :=
  '(projects, n) ← restore_table data "projects" project_rows mpr_Wipe recreate_project (bm_draws m) (bm_projectRepo m);
  '(deps, n) ← restore_table data "deployments" deployment_rows mdr_Wipe recreate_deployment n (bm_depRepo m);
  '(insts, n) ← restore_table data "instances" instance_rows mir_Wipe recreate_instance n (bm_instRepo m);
  '(rels, n) ← restore_table data "releases" release_rows mrr_Wipe recreate_release n (bm_releaseRepo m);
  '(evts, n) ← restore_table data "events" event_rows mer_Wipe recreate_event n (bm_eventRepo m);
  Some (m <| bm_projectRepo := projects |> <| bm_depRepo := deps |> <| bm_instRepo := insts |>
          <| bm_releaseRepo := rels |> <| bm_eventRepo := evts |> <| bm_draws := n |>).

(** [repo.Create(ctx, &x)] of a payload that could be decoded. *)
Definition replay_into {A R} (row : A * option error) (create : Time → string → A → R → R) (n : nat) (repo : option R) :
    option (option R * nat) :=
  match row with
  | (_, Some _) => Some (repo, n)
  | (x, None) => r ← repo; Some (Some (create (now_at n) (uuid_at n) x r), S n)
  end.

Definition replayRecord (rec : WALRecord) (m : MemoryBackupManager) : option MemoryBackupManager :=
  let n := bm_draws m in
  let payload := wl_Payload rec in
  if decide (wl_Table rec = "deployments") then
    '(r, n) ← replay_into (unmarshal_record deployment_row "deployments.Deployment" payload zero_deployment)
                recreate_deployment n (bm_depRepo m);
    Some (m <| bm_depRepo := r |> <| bm_draws := n |>)
  else if decide (wl_Table rec = "instances") then
    '(r, n) ← replay_into (unmarshal_record instance_row "deployments.Instance" payload zero_instance)
                recreate_instance n (bm_instRepo m);
    Some (m <| bm_instRepo := r |> <| bm_draws := n |>)
  else if decide (wl_Table rec = "projects") then
    '(r, n) ← replay_into (unmarshal_record project_row "projects.Project" payload zero_project)
                recreate_project n (bm_projectRepo m);
    Some (m <| bm_projectRepo := r |> <| bm_draws := n |>)
  else if decide (wl_Table rec = "events") then
    '(r, n) ← replay_into (unmarshal_record event_row "deployments.Event" payload zero_event)
                recreate_event n (bm_eventRepo m);
    Some (m <| bm_eventRepo := r |> <| bm_draws := n |>)
  else Some m.

(** The segments after the base that are not after the target. *)
Definition replayed (base : Z) (target : Time) (rec : WALRecord) : bool :=
  (base <? wl_LSN rec) && negb (target <? wl_Timestamp rec).

Fixpoint replay_log (base : Z) (target : Time) (log : list WALRecord) (m : MemoryBackupManager) : option MemoryBackupManager :=
  match log with
  | [] => Some m
  | rec :: log' =>
    if replayed base target rec then m ← replayRecord rec m; replay_log base target log' m
    else replay_log base target log' m
  end.

Definition Restore (backup : option BaseBackup) (targetTime : option Time) (m : MemoryBackupManager) :
    option (option error * MemoryBackupManager) :=
  match backup with
  | None => Some (Some "cannot restore from nil backup", m)
  | Some b =>
    m ← restore_base (bb_Data b) m;
    match targetTime with
    | None => Some (None, m)
    | Some target => m ← replay_log (bb_BaseLSN b) target (bm_walLog m) m; Some (None, m)
    end
  end.


(** ** Restoring a table

    [rebuilt done V]: the map has one entry for each record that was created,
    related to it, and no other. *)
Definition rebuilt {A B} (key : A → string) (rel : A → B → Prop) (done_ : list A) (V : gmap string B) : Prop :=
  ∀ k, (∀ x, x ∈ done_ → key x = k → ∃ y, V !! k = Some y ∧ rel x y) ∧ ((∀ x, x ∈ done_ → key x ≠ k) → V !! k = None).

Lemma rebuilt_nil {A B} (key : A → string) (rel : A → B → Prop) : rebuilt key rel [] ∅.
Proof. intros k. split; [by intros x ?%elem_of_nil|]. intros _. apply lookup_empty. Qed.

Lemma rebuilt_snoc {A B} (key : A → string) (rel : A → B → Prop) l V x y :
  rebuilt key rel l V → key x ∉ key <$> l → rel x y → rebuilt key rel (l ++ [x]) (<[key x := y]> V).
Proof.
  intros H Hx Hy k. destruct (H k) as [H1 H2]. split.
  - intros x' [Hl|<-%list_elem_of_singleton]%elem_of_app Hk.
    + rewrite lookup_insert_ne; [by apply H1|]. intros E. apply Hx. rewrite E, <- Hk. by apply list_elem_of_fmap_2.
    + exists y. by rewrite <- Hk, lookup_insert_eq.
  - intros Hn. rewrite lookup_insert_ne.
    + apply H2. intros x' Hx'. apply Hn, elem_of_app. by left.
    + apply Hn, elem_of_app. right. by apply list_elem_of_singleton.
Qed.

Lemma rebuilt_values {A B} (key : A → string) (rel : A → B → Prop) l (M : gmap string A) V :
  (∀ k x, M !! k = Some x → key x = k) → l ≡ₚ (map_to_list M).*2 → rebuilt key rel l V → map_Forall2 (λ _, rel) M V.
Proof.
  intros Hk Hl H k. destruct (H k) as [H1 H2].
  assert (∀ x, x ∈ l ↔ ∃ k, M !! k = Some x) as Hin.
  { intros x. rewrite Hl. apply (elem_of_map_values order_id). }
  destruct (M !! k) as [x|] eqn:E.
  - destruct (H1 x) as (y & -> & Hy); [apply Hin; eauto|eauto|]. by constructor.
  - rewrite H2; [constructor|]. intros x [k' Hx]%Hin Hkx. rewrite (Hk _ _ Hx) in Hkx. congruence.
Qed.

(** The records are created one after the other. *)
Lemma create_each_inv {A R} (create : Time → string → A → R → R) (L : list A) (I : list A → R → Prop) :
  (∀ done_ x rest now u r, L = done_ ++ x :: rest → I done_ r → I (done_ ++ [x]) (create now u x r)) →
  ∀ rest done_ n r, L = done_ ++ rest → I done_ r → ∃ r' n', create_each create (Some <$> rest) n r = Some (r', n') ∧ I L r'.
Proof.
  intros Hstep. induction rest as [|x rest IH]; intros done_ n r HL HI; cbn [create_each fmap list_fmap].
  - exists r, n. split; [done|]. by rewrite HL, app_nil_r.
  - apply (IH (done_ ++ [x])); [by rewrite <- (assoc_L (++))|]. by eapply Hstep.
Qed.

Lemma key_fresh {A} (key : A → string) (L done_ : list A) x rest :
  NoDup (key <$> L) → L = done_ ++ x :: rest → key x ∉ key <$> done_.
Proof.
  intros Hn ->. rewrite fmap_app in Hn. apply NoDup_app in Hn as (_ & H & _). intros Hx. apply (H _ Hx). by left.
Qed.

(** A repository that keeps every record under its key, with a stamp. *)
Lemma create_each_keyed {A R} (create : Time → string → A → R → R) (key : A → string) (stamp : Time → string → A → A)
    (view : R → gmap string A) (ok : R → Prop) (L : list A) (r : R) n :
  (∀ now u x r, ok r → view r !! key x = None → x ∈ L →
     ok (create now u x r) ∧ view (create now u x r) = <[key x := stamp now u x]> (view r)) →
  NoDup (key <$> L) → ok r → view r = ∅ →
  ∃ r' n', create_each create (Some <$> L) n r = Some (r', n') ∧ ok r'
    ∧ rebuilt key (λ x y, ∃ now u, y = stamp now u x) L (view r').
Proof.
  intros Hc Hn Hok Hr.
  apply (create_each_inv create L (λ l r, ok r ∧ rebuilt key (λ x y, ∃ now u, y = stamp now u x) l (view r)) ) with (done_ := []).
  - intros l x rest now u r0 HL [Hok0 Hl]. pose proof (key_fresh key L l x rest Hn HL) as Hx.
    destruct (Hc now u x r0) as [Hok' Hv].
    + done.
    + apply Hl. intros y Hy E. apply Hx. rewrite <- E. by apply list_elem_of_fmap_2.
    + rewrite HL. apply elem_of_app. right. by left.
    + split; [done|]. rewrite Hv. apply rebuilt_snoc; eauto.
  - done.
  - rewrite Hr. split; [done|]. apply rebuilt_nil.
Qed.

End backup.

(** ** What a restore brings back *)

Section restore.
Context {ent : Entropy} {uni : Unicode} {ft : FloatText} {jt : JsonText}.

(** A manager all of whose repositories but that of the workers are there, hold
    their records under their own keys, and only records that a text keeps. *)
Record backup_ok (m : MemoryBackupManager) (pr : MemoryProjectRepository) (dr : MemoryDeploymentRepository)
    (ir : MemoryInstanceRepository) (rr : MemoryReleaseRepository) (er : MemoryEventRepository) : Prop := {
  bo_repos : bm_projectRepo m = Some pr ∧ bm_depRepo m = Some dr ∧ bm_instRepo m = Some ir
    ∧ bm_releaseRepo m = Some rr ∧ bm_eventRepo m = Some er;
  bo_inv : proj_inv pr;
  bo_projects : ∀ k p, pri_view pr !! k = Some p → storable_project p = true;
  bo_deployments : ∀ k d, dr !! k = Some d → d_ID d = k ∧ storable_deployment d = true;
  bo_instances : ∀ k i, pri_view ir !! k = Some i → i_ID i = k ∧ storable_instance i = true;
  bo_releases : ∀ k r, rr !! k = Some r → rl_ID r = k ∧ k ≠ "" ∧ rl_CreatedAt r ≠ 0 ∧ storable_release r = true;
  bo_events : ∀ e, e ∈ er → ev_ID e ≠ "" ∧ ev_CreatedAt e ≠ 0 ∧ storable_event e = true
}.

Lemma values_nodup {V} (o : Order) (key : V → string) (M : gmap string V) :
  (∀ k x, M !! k = Some x → key x = k) → NoDup (key <$> map_values o M).
Proof.
  intros H. unfold map_values. rewrite permute_perm.
  assert (key <$> (map_to_list M).*2 = (map_to_list M).*1) as ->; [|apply NoDup_fst_map_to_list].
  assert (Forall (λ kv, key kv.2 = kv.1) (map_to_list M)) as Hl.
  { apply Forall_forall. intros [k x] Hx%elem_of_map_to_list. by apply H. }
  induction Hl as [|[k x] l Hx Hl IH]; [done|]. cbn in *. by rewrite Hx, IH.
Qed.

Lemma values_storable {V} (o : Order) (storable : V → bool) (M : gmap string V) :
  (∀ k x, M !! k = Some x → storable x = true) → Forall (λ x, storable x = true) (map_values o M).
Proof. intros H. apply Forall_forall. intros x [k Hx]%elem_of_map_values. eauto. Qed.

Lemma pri_view_key pr : proj_inv pr → ∀ k p, pri_view pr !! k = Some p → p_ID p = k ∧ project_ok p.
Proof.
  intros H k p. rewrite lookup_pri_view. intros (l & Hl & Hh)%get_pri_cell.
  destruct (pi_pri pr H k l Hl) as (q & Hq & <- & Hok & _). assert (p = q) as -> by congruence. done.
Qed.

(** Two projects do not have the same name. *)
Lemma project_names pr k k' p p' :
  proj_inv pr → pri_view pr !! k = Some p → pri_view pr !! k' = Some p' → p_Name p = p_Name p' → k = k'.
Proof.
  intros H. rewrite !lookup_pri_view. intros (l & Hl & Hh)%get_pri_cell (l' & Hl' & Hh')%get_pri_cell Hn.
  destruct (pi_pri pr H k l Hl) as (q & Hq & <- & _ & Hs). destruct (pi_pri pr H k' l' Hl') as (q' & Hq' & <- & _ & Hs').
  assert (p = q) as -> by congruence. assert (p' = q') as -> by congruence. rewrite Hn in Hs. congruence.
Qed.

(** *** The tables, one by one *)

Definition restamp_project (now : Time) (p : Project) : Project := p <| p_CreatedAt := now |> <| p_UpdatedAt := now |>.

Lemma new_project_ok now p : project_ok p → new_project now p = restamp_project now p.
Proof.
  intros (_ & H1 & H2 & H3).
  assert (∀ k d, 0 < k → or_default k d = k) as Hd by (intros k d Hk; unfold or_default; by rewrite (proj2 (Z.leb_gt _ _))).
  destruct p. unfold new_project, restamp_project, set_field. cbn in *. by rewrite !Hd.
Qed.

Lemma restore_projects o pr n : proj_inv pr →
  ∃ r n', create_each recreate_project (Some <$> map_values o (pri_view pr)) n (st_empty) = Some (r, n') ∧ proj_inv r
    ∧ map_Forall2 (λ _ p p', ∃ now (_ : string), p' = restamp_project now p) (pri_view pr) (pri_view r).
Proof.
  intros H. set (L := map_values o (pri_view pr)). pose proof (pri_view_key pr H) as Hk.
  assert (∀ x, x ∈ L → pri_view pr !! p_ID x = Some x) as HL.
  { intros x [k Hx]%elem_of_map_values. by destruct (Hk _ _ Hx) as [-> _]. }
  destruct (create_each_keyed recreate_project p_ID (λ now _, restamp_project now) pri_view
    (λ r, proj_inv r ∧ ∀ k p, pri_view r !! k = Some p → ∃ x, x ∈ L ∧ p_ID x = k ∧ p_Name x = p_Name p) L st_empty n)
    as (r & n' & Hr & [Hok _] & Hv).
  - intros now u x r [Hi Hn] Hx Hin.
    assert (st_sec r !! p_Name x = None) as Hs.
    { destruct (st_sec r !! p_Name x) as [l|] eqn:E; [|done]. exfalso.
      destruct (pi_sec r Hi _ _ E) as (q & Hq & Hqn & Hp).
      destruct (Hn (p_ID q) q) as (x' & Hx' & Hid & Hnm).
      { rewrite lookup_pri_view. unfold get_pri. by rewrite Hp. }
      rewrite Hqn in Hnm. pose proof (project_names pr _ _ _ _ H (HL _ Hx') (HL _ Hin) Hnm) as E'.
      rewrite <- E', Hid, lookup_pri_view in Hx. unfold get_pri in Hx. rewrite Hp in Hx. cbn in Hx. congruence. }
    destruct (Hk _ _ (HL _ Hin)) as [_ Hpo].
    assert (pri_view (recreate_project now u x r) = <[p_ID x := restamp_project now x]> (pri_view r)) as Hv.
    { unfold recreate_project, mpr_Create. rewrite decide_False by apply Hpo. rewrite Hs. cbn [snd].
      rewrite new_project_ok by done. apply (pri_view_insert r (p_ID x)), Hi. }
    split; [split|done].
    + apply proj_inv_Create; [done|]. rewrite lookup_pri_view in Hx. by apply get_pri_None in Hx; [|apply Hi].
    + intros k p. rewrite Hv, lookup_insert. case_decide as E; [|apply Hn]. intros [= <-]. exists x. split_and!; done.
  - apply values_nodup. intros k x Hx. by apply Hk.
  - split; [apply proj_inv_empty|]. intros k p. rewrite lookup_pri_view. done.
  - apply map_eq. intros k. by rewrite lookup_pri_view, lookup_empty.
  - exists r, n'. split; [done|]. split; [done|].
    eapply rebuilt_values; [intros k x Hx; by apply Hk|apply permute_perm|exact Hv].
Qed.

Lemma restore_deployments o (dr : MemoryDeploymentRepository) n :
  (∀ k d, dr !! k = Some d → d_ID d = k) →
  ∃ r n', create_each recreate_deployment (Some <$> map_values o dr) n (∅ : MemoryDeploymentRepository) = Some (r, n')
    ∧ map_Forall2 (λ _ d d', ∃ now (_ : string), d' = d_stamp now d) dr r.
Proof.
  intros Hk.
  destruct (create_each_keyed recreate_deployment d_ID (λ now _, d_stamp now) id (λ _, True) (map_values o dr) ∅ n)
    as (r & n' & Hr & _ & Hv); [|by apply values_nodup|done|done|].
  - intros now u x r _ _ _. split; [done|].
    unfold recreate_deployment, mdr_Create, id. cbn [snd]. by rewrite (proj1 (d_stamp_frame now x)).
  - exists r, n'. split; [done|]. eapply rebuilt_values; [exact Hk|apply permute_perm|exact Hv].
Qed.

Lemma restore_instances o (ir : MemoryInstanceRepository) n :
  (∀ k i, pri_view ir !! k = Some i → i_ID i = k) →
  ∃ r n', create_each recreate_instance (Some <$> mir_values o ir) n (st_empty : MemoryInstanceRepository) = Some (r, n') ∧ mir_ok r
    ∧ map_Forall2 (λ _ i i', ∃ now (_ : string), i' = i_stamp now i) (pri_view ir) (pri_view r).
Proof.
  intros Hk.
  destruct (create_each_keyed recreate_instance i_ID (λ now _, i_stamp now) pri_view mir_ok (mir_values o ir) st_empty n)
    as (r & n' & Hr & Hok & Hv).
  - intros now u x r Hok Hx _. pose proof (ir_create_spec (IR := MemoryInstanceRepository) now x r) as Hs.
    by destruct (Hs Hok Hx) as (_ & Hv & Hok').
  - by apply values_nodup.
  - apply mir_ok_empty.
  - apply map_eq. intros k. by rewrite lookup_pri_view, lookup_empty.
  - exists r, n'. split; [done|]. split; [done|]. eapply rebuilt_values; [exact Hk|apply permute_perm|exact Hv].
Qed.

(** A release with an identifier and a time is stored as it is. *)
Lemma restore_releases o (rr : MemoryReleaseRepository) n :
  (∀ k r, rr !! k = Some r → rl_ID r = k ∧ k ≠ "" ∧ rl_CreatedAt r ≠ 0) →
  ∃ n', create_each recreate_release (Some <$> map_values o rr) n (∅ : MemoryReleaseRepository) = Some (rr, n').
Proof.
  intros Hk.
  destruct (create_each_keyed recreate_release rl_ID (λ _ _ r, r) id (λ _, True) (map_values o rr) ∅ n)
    as (r & n' & Hr & _ & Hv); [|apply values_nodup; intros k x Hx; by apply Hk|done|done|].
  - intros now u x r _ _ [k Hx]%elem_of_map_values. destruct (Hk _ _ Hx) as (<- & Hi & Ht). split; [done|].
    cbn. unfold recreate_release, mrr_Create. rewrite decide_False by done.
    unfold IsZero. by rewrite (proj2 (Z.eqb_neq _ _)) by done.
  - exists n'. rewrite Hr. do 2 f_equal. symmetry. apply map_eq. intros k.
    assert (map_Forall2 (λ _ x y, ∃ (_ : Time) (_ : string), y = x) rr r) as Hf.
    { eapply rebuilt_values; [intros k' x Hx; by apply Hk|apply permute_perm|exact Hv]. }
    specialize (Hf k). by destruct Hf as [x y (_ & _ & ->)|].
Qed.

Lemma restore_events (er : list Event) n r :
  (∀ e, e ∈ er → ev_ID e ≠ "" ∧ ev_CreatedAt e ≠ 0) →
  ∃ n', create_each recreate_event (Some <$> er) n r = Some (r ++ er, n').
Proof.
  revert n r. induction er as [|e er IH]; intros n r He; cbn [create_each fmap list_fmap].
  - exists n. by rewrite app_nil_r.
  - destruct (He e) as [Hi Ht]; [by left|].
    assert (recreate_event (now_at n) (uuid_at n) e r = r ++ [e]) as ->.
    { unfold recreate_event, mer_Create. rewrite decide_False by done. unfold IsZero. by rewrite (proj2 (Z.eqb_neq _ _)) by done. }
    destruct (IH (S n) (r ++ [e])) as [n' Hn]; [intros e' He'; apply He; by right|].
    exists n'. rewrite Hn. by rewrite <- (assoc_L (++)).
Qed.

(** *** The whole restore *)

(** The restored tables, against those that were backed up. *)
Record brought_back (pr : MemoryProjectRepository) (dr : MemoryDeploymentRepository) (ir : MemoryInstanceRepository)
    (rr : MemoryReleaseRepository) (er : MemoryEventRepository) (m : MemoryBackupManager) : Prop := {
  bb_projects : ∃ r, bm_projectRepo m = Some r ∧ proj_inv r
    ∧ map_Forall2 (λ _ p p', ∃ now (_ : string), p' = restamp_project now p) (pri_view pr) (pri_view r);
  bb_deployments : ∃ r, bm_depRepo m = Some r
    ∧ map_Forall2 (λ _ d d', ∃ now (_ : string), d' = d_stamp now d) dr r;
  bb_instances : ∃ r, bm_instRepo m = Some r ∧ mir_ok r
    ∧ map_Forall2 (λ _ i i', ∃ now (_ : string), i' = i_stamp now i) (pri_view ir) (pri_view r);
  bb_releases : bm_releaseRepo m = Some rr;
  bb_events : bm_eventRepo m = Some ((λ e, e <| ev_Metadata ::= metadata_back |>) <$> er)
}.

(** The tables of a snapshot. *)
Lemma snapshot_tables os m pr dr ir rr er : backup_ok m pr dr ir rr er →
  let data := snapshot os m in
  data !! "projects" = Some (marshal_list project_encodes json_project (map_values (os 0%nat) (pri_view pr)))
  ∧ data !! "deployments" = Some (marshal_list deployment_encodes json_deployment (map_values (os 1%nat) dr))
  ∧ data !! "instances" = Some (marshal_list instance_encodes json_instance (mir_values (os 2%nat) ir))
  ∧ data !! "releases" = Some (marshal_nil_list release_encodes json_release (map_values (os 3%nat) rr))
  ∧ data !! "events" = Some (marshal_nil_list event_encodes json_event er).
Proof.
  intros [(Hp & Hd & Hi & Hr & He) _ _ _ _ _ _] data. subst data. unfold snapshot. rewrite Hp, Hd, Hi, Hr, He.
  unfold table_of, mpr_List, mdr_List, mir_ListAll, mrr_List, mer_ListAll. cbn [app]. rewrite !list_to_map_cons.
  assert (∀ (V : Type) (P : V → Prop) `{!∀ x, Decision (P x)} (l : list V), (∀ x, P x) → base.filter P l = l) as Hf.
  { intros V P ? l H. induction l as [|x l IH]; [done|]. by rewrite filter_cons_True, IH. }
  rewrite (Hf _ (d_of_project "")) by (intros x; by left).
  rewrite (Hf _ (λ rel, "" = "" ∨ rl_ProjectID rel = "")) by (intros x; by left).
  split_and!; rewrite ?lookup_insert_ne by done; by rewrite lookup_insert_eq.
Qed.

Lemma restore_table_ok {A R} data name rows (wipe : R → R) (create : Time → string → A → R → R) n repo raw r n' :
  data !! name = Some raw → create_each create (rows raw) n (wipe repo) = Some (r, n') →
  restore_table data name rows wipe create n (Some repo) = Some (Some r, n').
Proof. intros Hd Hc. unfold restore_table. rewrite Hd, Hc. done. Qed.

Lemma restore_base_back (os : nat → Order) (m m' : MemoryBackupManager) pr dr ir rr er :
  backup_ok m pr dr ir rr er →
  is_Some (bm_projectRepo m') → is_Some (bm_depRepo m') → is_Some (bm_instRepo m') → is_Some (bm_releaseRepo m') →
  is_Some (bm_eventRepo m') →
  ∃ m'', restore_base (snapshot os m) m' = Some m'' ∧ brought_back pr dr ir rr er m''
    ∧ bm_workerRepo m'' = bm_workerRepo m' ∧ bm_walLog m'' = bm_walLog m' ∧ bm_currentLSN m'' = bm_currentLSN m'.
Proof.
  intros Hok [pr' Hp'] [dr' Hd'] [ir' Hi'] [rr' Hr'] [er' He'].
  destruct (snapshot_tables os m pr dr ir rr er Hok) as (Tp & Td & Ti & Tr & Te).
  destruct Hok as [_ Hinv Hp Hd Hi Hr He].
  unfold restore_base.
  set (data := snapshot os m) in *. clearbody data. rewrite Hp', Hd', Hi', Hr', He'.
  destruct (restore_projects (os 0%nat) pr (bm_draws m') Hinv) as (pr2 & n1 & C1 & Hinv2 & F1).
  destruct (restore_deployments (os 1%nat) dr n1 (λ k d H, proj1 (Hd k d H))) as (dr2 & n2 & C2 & F2).
  destruct (restore_instances (os 2%nat) ir n2 (λ k i H, proj1 (Hi k i H))) as (ir2 & n3 & C3 & W3 & F3).
  destruct (restore_releases (os 3%nat) rr n3) as (n4 & C4).
  { intros k r H. destruct (Hr k r H) as (? & ? & ? & _). done. }
  set (back := λ e : Event, e <| ev_Metadata ::= metadata_back |>).
  destruct (restore_events (back <$> er) n4 []) as (n5 & C5).
  { intros e (e0 & -> & H)%list_elem_of_fmap. destruct (He e0 H) as (? & ? & _). done. }
  rewrite (restore_table_ok _ _ _ _ _ _ _ _ pr2 n1 Tp).
  2: { unfold project_rows. rewrite (text_back _ _ _ _ _ _ _ _ _ (or_introl eq_refl)
         ltac:(by eexists) storable_project_spec) by (by apply values_storable). by rewrite list_fmap_id. }
  cbn [mbind option_bind]. rewrite (restore_table_ok _ _ _ _ _ _ _ _ dr2 n2 Td).
  2: { unfold deployment_rows. rewrite (text_back _ _ _ _ _ _ _ _ _ (or_introl eq_refl)
         ltac:(by eexists) storable_deployment_spec) by (apply values_storable; intros k x H; by apply (Hd k)).
       by rewrite list_fmap_id. }
  cbn [mbind option_bind]. rewrite (restore_table_ok _ _ _ _ _ _ _ _ ir2 n3 Ti).
  2: { unfold instance_rows. rewrite (text_back _ _ _ _ _ _ _ _ _ (or_introl eq_refl)
         ltac:(by eexists) storable_instance_spec) by (apply values_storable; intros k x H; by apply (Hi k)).
       by rewrite list_fmap_id. }
  cbn [mbind option_bind]. rewrite (restore_table_ok _ _ _ _ _ _ _ _ rr n4 Tr).
  2: { unfold release_rows. rewrite (text_back _ _ _ _ _ _ _ _ _ (or_intror eq_refl)
         ltac:(by eexists) storable_release_spec) by (apply values_storable; intros k x H; by apply (Hr k)).
       by rewrite list_fmap_id. }
  cbn [mbind option_bind]. rewrite (restore_table_ok _ _ _ _ _ _ _ _ (back <$> er) n5 Te).
  2: { unfold event_rows. rewrite (text_back _ _ _ _ storable_event json_event back _ _ (or_intror eq_refl)
         ltac:(by eexists) storable_event_spec); [done|]. apply Forall_forall. intros e H. by apply He. }
  cbn [mbind option_bind]. eexists. split; [done|]. split; [|done].
  split; cbn; eauto.
Qed.

(** C39: A backup of repositories whose records a JSON text can keep, restored
    into a manager whose repositories hold anything, brings back the projects,
    deployments and instances with only their time stamps renewed, the releases
    exactly and the events in order with their metadata as JSON has them, and
    leaves the workers, the log and the sequence number as they were. *)
Theorem backup_roundtrip (os : nat → Order) (m m' : MemoryBackupManager) pr dr ir rr er :
  backup_ok m pr dr ir rr er →
  is_Some (bm_projectRepo m') → is_Some (bm_depRepo m') → is_Some (bm_instRepo m') → is_Some (bm_releaseRepo m') →
  is_Some (bm_eventRepo m') →
  ∃ m'', Restore (Some (CreateBaseBackup os m).1) None m' = Some (None, m'')
    ∧ brought_back pr dr ir rr er m''
    ∧ bm_workerRepo m'' = bm_workerRepo m' ∧ bm_walLog m'' = bm_walLog m' ∧ bm_currentLSN m'' = bm_currentLSN m'.
Proof.
  intros Hok Hp Hd Hi Hr He. unfold Restore, CreateBaseBackup, seal. cbn [fst bb_Data].
  destruct (restore_base_back os m m' pr dr ir rr er) as (m2 & -> & H); eauto.
Qed.

(** ** Point-in-time recovery *)

#[local] Arguments d_stamp : simpl never.
#[local] Arguments i_stamp : simpl never.
#[local] Arguments recreate_deployment : simpl never.
#[local] Arguments recreate_instance : simpl never.

(** A segment that holds a record of the table it names. *)
Definition wal_of (rec : WALRecord) (e : Entity) : Prop :=
  wl_Payload rec = json_text (json_entity e)
  ∧ match e with
    | EProject p => wl_Table rec = "projects" ∧ storable_project p = true
    | EDeployment d => wl_Table rec = "deployments" ∧ storable_deployment d = true
    | EInstance i => wl_Table rec = "instances" ∧ storable_instance i = true
    | EEvent e => wl_Table rec = "events" ∧ storable_event e = true
    | _ => False
    end.

(** The deployments and the instances that a log writes, up to a time. *)
Definition put_deployment (e : Entity) (D : gmap string Deployment) : gmap string Deployment :=
  match e with EDeployment d => <[d_ID d := d]> D | _ => D end.
Definition put_instance (e : Entity) (I : gmap string Instance_) : gmap string Instance_ :=
  match e with EInstance i => <[i_ID i := i]> I | _ => I end.

Definition written {X} (put : Entity → X → X) (base : Z) (target : Time) (log : list (WALRecord * Entity)) (x : X) : X :=
  foldl (λ x re, if replayed base target re.1 then put re.2 x else x) x log.

(** The deployments and instances of a manager, up to the time of their update. *)
Definition holds (D : gmap string Deployment) (I : gmap string Instance_) (m : MemoryBackupManager) : Prop :=
  is_Some (bm_projectRepo m) ∧ is_Some (bm_eventRepo m)
  ∧ (∃ dr, bm_depRepo m = Some dr ∧ map_Forall2 (λ _ d d', ∃ now (_ : string), d' = d_stamp now d) D dr)
  ∧ (∃ ir, bm_instRepo m = Some ir ∧ st_wf ir
       ∧ map_Forall2 (λ _ i i', ∃ now (_ : string), i' = i_stamp now i) I (pri_view ir)).

Lemma replay_row {T} (fields : list (Field T)) ty zero (encodes storable : T → bool) json back x payload :
  (∀ x, storable x = true → encodes x = true ∧ json_ok 1 (json x) = true ∧ reads_back fields ty zero json back x) →
  storable x = true → payload = json_text (json x) → unmarshal_record fields ty payload zero = (back x, None).
Proof.
  intros Hs (_ & Hj & Hr)%Hs ->. apply unmarshal_text; [|done]. by apply (json_ok_outer _ 0).
Qed.

Lemma replayRecord_holds rec e D I m :
  wal_of rec e → holds D I m → ∃ m', replayRecord rec m = Some m' ∧ holds (put_deployment e D) (put_instance e I) m'.
Proof.
  intros [Hpay He] ([pr Hp] & [er Hv] & (dr & Hd & FD) & (ir & Hi & Hw & FI)). unfold replayRecord.
  destruct e as [p|d|i|r|e|w|v]; try done; destruct He as [-> Hs]; cbn [decide] in *;
    repeat (rewrite decide_False by done); rewrite decide_True by done.
  - rewrite (replay_row _ _ _ _ _ _ _ _ _ storable_project_spec Hs Hpay), Hp. eexists. split; [done|].
    split_and!; cbn; eauto.
  - rewrite (replay_row _ _ _ _ _ _ _ _ _ storable_deployment_spec Hs Hpay), Hd. eexists. split; [done|].
    split_and!; cbn; [eauto|eauto| |eauto 10]. eexists. split; [done|].
    unfold recreate_deployment, mdr_Create. cbn [snd]. rewrite (proj1 (d_stamp_frame _ _)).
    apply map_Forall2_insert_2; eauto. by eexists _, "".
  - rewrite (replay_row _ _ _ _ _ _ _ _ _ storable_instance_spec Hs Hpay), Hi. eexists. split; [done|].
    split_and!; cbn; [eauto|eauto|eauto 10|]. eexists. split; [done|].
    unfold recreate_instance, mir_Create. cbn [snd]. destruct (i_stamp_keys (now_at (bm_draws m)) i) as [E1 E2].
    unfold id. rewrite E1, E2, pri_view_insert by done. split; [by apply st_wf_insert|].
    apply map_Forall2_insert_2; eauto. by eexists _, "".
  - rewrite (replay_row _ _ _ _ _ _ _ _ _ storable_event_spec Hs Hpay), Hv. eexists. split; [done|].
    split_and!; cbn; eauto 10.
Qed.

Lemma replay_log_holds base target log : ∀ D I m,
  Forall (λ re, wal_of re.1 re.2) log → holds D I m →
  ∃ m', replay_log base target log.*1 m = Some m'
    ∧ holds (written put_deployment base target log D) (written put_instance base target log I) m'.
Proof.
  induction log as [|[rec e] log IH]; intros D I m Hw Hm; [by exists m|].
  apply Forall_cons in Hw as [Hr Hw]. cbn [fmap list_fmap replay_log fst snd written foldl] in *.
  destruct (replayed base target rec); [|by apply IH].
  destruct (replayRecord_holds rec e D I m Hr Hm) as (m1 & -> & Hm1). by apply IH.
Qed.


End restore.

(** ** Backups of a small control plane *)

#[local] Existing Instance demo_entropy.
#[local] Existing Instance unicode_none.
#[local] Existing Instance json_ascii.
#[local] Instance demo_numbers : FloatText :=
  {| ft_g := λ _, "0"; ft_json := λ _, "0"; ft_parse := λ s, float_of_int <$> ParseInt s |}.
#[local] Instance demo_encode_errors : EncodeErrors := λ _, "json: error".

Definition noon : Time := (62135596800 + 1709210096) * Second.

Definition shop : Project := mkProject "p1" "shop" "a <shop>" "" "main" "" "s3cret" 2 1 5 noon noon.
Definition web (id : string) (n : Z) : Deployment :=
  mkDeployment id "p1" "v1" "img" "sha256:0" "RUNNING" StatusRunning "RUNNING" n n {[ "PORT" := "80" ]} ∅ noon noon.
Definition replica : Instance_ := mkInstance "i1" "d1" "w1" "d1-0" "RUNNING" "c1" noon noon.
Definition scaled : Event :=
  mkEvent "e1" "p1" "d1" "SCALED" "scaled" [("from", MInt 1); ("at", MTime noon); ("by", MStr "ops")] noon.

Definition demo_projects : MemoryProjectRepository := (mpr_Create noon shop st_empty).2.
Definition demo_deployments : MemoryDeploymentRepository := {[ "d1" := web "d1" 1; "d2" := web "d2" 3 ]}.
Definition demo_instances : MemoryInstanceRepository := (mir_Create noon replica st_empty).2.
Definition demo_releases : MemoryReleaseRepository := {[ "r1" := mkRelease "r1" "p1" "d1" "v1" "img" "sha256:0" "sig" noon ]}.

Definition demo_manager : MemoryBackupManager :=
  NewMemoryBackupManager (Some demo_deployments) (Some demo_instances) (Some demo_projects) (Some demo_releases)
    (Some [scaled]) (Some st_empty).

(** The same manager after the storage was lost. *)
Definition lost : MemoryBackupManager :=
  NewMemoryBackupManager (Some ∅) (Some st_empty) (Some st_empty) (Some ∅) (Some []) (Some st_empty).

Definition demo_orders : nat → Order := λ n, if Nat.even n then order_id else order_rev.

Lemma demo_manager_ok : backup_ok demo_manager demo_projects demo_deployments demo_instances demo_releases [scaled].
Proof.
  split.
  - done.
  - apply proj_inv_Create; [apply proj_inv_empty|done].
  - change (map_Forall (λ _ p, storable_project p = true) (pri_view demo_projects)).
    apply (bool_decide_unpack _). vm_compute. done.
  - change (map_Forall (λ k d, d_ID d = k ∧ storable_deployment d = true) demo_deployments).
    apply (bool_decide_unpack _). vm_compute. done.
  - change (map_Forall (λ k i, i_ID i = k ∧ storable_instance i = true) (pri_view demo_instances)).
    apply (bool_decide_unpack _). vm_compute. done.
  - change (map_Forall (λ k r, rl_ID r = k ∧ k ≠ "" ∧ rl_CreatedAt r ≠ 0 ∧ storable_release r = true) demo_releases).
    apply (bool_decide_unpack _). vm_compute. done.
  - intros e ->%list_elem_of_singleton. split_and!; vm_compute; done.
Qed.

Lemma backup_roundtrip_witness : ∃ m,
  Restore (Some (CreateBaseBackup demo_orders demo_manager).1) None lost = Some (None, m)
  ∧ brought_back demo_projects demo_deployments demo_instances demo_releases [scaled] m.
Proof.
  destruct (backup_roundtrip demo_orders demo_manager lost _ _ _ _ _ demo_manager_ok) as (m & H1 & H2 & _);
    [apply (mk_is_Some _ _ eq_refl)..|]. exact (ex_intro _ m (conj H1 H2)).
Defined.


(** ** Recovery to a point in time *)

(** A backup, then a deployment that is created and one that is scaled. *)
Definition demo_log : list (WALRecord * Entity) :=
  let record n id d := (mkWAL n (now_at (Z.to_nat n)) "deployments" "UPDATE" id (json_text (json_deployment d)), EDeployment d) in
  [record 1 "d3" (web "d3" 1); record 2 "d1" (web "d1" 4); record 3 "d1" (web "d1" 9)].

Definition lost_with_log : MemoryBackupManager := lost <| bm_walLog := demo_log.*1 |>.


(** The replica counts of the deployments after a restore. *)
Definition restored_counts (b : BaseBackup) (target : option Time) (m : MemoryBackupManager) : option (list (string * Z)) :=
  '(_, m) ← Restore (Some b) target m;
  r ← bm_depRepo m;
  Some (omap (λ id, (λ d, (id, d_InstanceCount d)) <$> r !! id) (sort_Strings (map_to_list r).*1)).

Definition demo_backup : BaseBackup := (CreateBaseBackup demo_orders demo_manager).1.

Example counts_at_two : restored_counts demo_backup (Some (now_at 2)) lost_with_log = Some [("d1", 4); ("d2", 3); ("d3", 1)].
Proof. vm_compute. reflexivity. Qed.

(** ** What a restore does not bring back *)

(** The operation of a segment is not looked at: what was deleted comes back. *)
Example deleted_comes_back :
  let m := (RecordMutation "deployments" "DELETE" "d2" (EDeployment (web "d2" 3)) (CreateBaseBackup demo_orders demo_manager).2).2 in
  restored_counts demo_backup (Some noon) (m <| bm_depRepo ::= fmap (delete "d2") |>) = Some [("d1", 1); ("d2", 3)].
Proof. vm_compute. reflexivity. Qed.

(** An update of a project is replayed as its creation, which its name is taken
    for: the project stays as it was at the time of the base. *)
Example project_update_ignored :
  let m := (RecordMutation "projects" "UPDATE" "p1" (EProject (shop <| p_DesiredReplicas := 4 |>)) demo_manager).2 in
  ('(_, m) ← Restore (Some demo_backup) (Some noon) m; r ← bm_projectRepo m; p_DesiredReplicas <$> get_pri "p1" r) = Some 2.
Proof. vm_compute. reflexivity. Qed.

(** A release is in the base, but segments of releases are not replayed. *)
Example release_not_replayed :
  let m := (RecordMutation "releases" "INSERT" "r2" (ERelease (mkRelease "r2" "p1" "d1" "v2" "img" "sha256:1" "" noon)) demo_manager).2 in
  ('(_, m) ← Restore (Some demo_backup) (Some noon) m; r ← bm_releaseRepo m; Some (r !! "r2")) = Some None.
Proof. vm_compute. reflexivity. Qed.

(** The workers are in the backup, and stay as they are. *)
Example workers_not_restored :
  (is_Some (bb_Data demo_backup !! "workers"))
  ∧ ('(_, m) ← Restore (Some demo_backup) None (lost <| bm_workerRepo := None |>); Some (bm_workerRepo m)) = Some None.
Proof. split; [by eexists; vm_compute|vm_compute; reflexivity]. Qed.

(** A mutation that is made while a backup is taken, after its table was read
    and before the backup is sealed, is in neither: the number it draws is not
    after the base. *)
Example mutation_during_backup_lost :
  let data := snapshot demo_orders demo_manager in
  match draw_record "deployments" "INSERT" "d3" (EDeployment (web "d3" 1))
          (demo_manager <| bm_depRepo ::= fmap <["d3" := web "d3" 1]> |>) with
  | (inr record, m) =>
    let '(b, m) := seal data m in
    restored_counts b (Some noon) (ArchiveWAL record m) = Some [("d1", 1); ("d2", 3)]
  | _ => False
  end.
Proof. vm_compute. reflexivity. Qed.

(** One time that cannot be encoded, and the table is backed up as nothing: a
    restore empties it. *)
Example year_10000_empties :
  let late := (web "d9" 1) <| d_CreatedAt := 3652059 * 86400 * Second |> in
  let m := demo_manager <| bm_depRepo ::= fmap <["d9" := late]> |> in
  restored_counts (CreateBaseBackup demo_orders m).1 None m = Some [].
Proof. vm_compute. reflexivity. Qed.

(** A nil repository is skipped by the backup and by the restore of the base,
    but not by the replay. *)
Example nil_repository_panics :
  let m := (RecordMutation "projects" "INSERT" "p1" (EProject shop) (lost <| bm_projectRepo := None |>)).2 in
  Restore (Some demo_backup) (Some noon) m = None ∧ is_Some (Restore (Some demo_backup) None m).
Proof. split; [vm_compute; reflexivity|]. vm_compute. by eexists. Qed.
