(* ===== verification/PgBackup.v ===== *)
(** * Backups of Postgres: internal/storage/backup/backup_postgres.go

    PostgresBackupManager, which runs pg_dump and pg_restore. The world of
    processes, files and databases is a parameter, the class [Tools]; what the
    two programs document is the class [ToolsLaws], on databases as maps from
    tables to their contents. *)

From stdpp Require Import base option gmap strings list pretty.
From Stdlib Require Import ZArith Lia Ascii.
From S2P Require Import Prelude GoLib GoFloat GoTime PtrStore Workers Deployments Platform Projects Http Json JsonDecode TimeParse ApiData Demo Records Backup.

(** A command runs to its end; a connection pool is [P]. *)
Class Tools (W P : Type) := {
  LookPath : string → W → option error;
  MkdirAll : string → W → option error * W;
  Run : string → list string → W → option error * W;
  Stat_Size : string → W → error + Z;
  pgx_New : string → W → error + P;
  pgx_Ping : P → W → option error;
  pgx_Count : P → string → W → error + Z
}.

Section manager.
Context {W P : Type} `{!Tools W P}.
Implicit Types w : W.

Record PostgresBackupManager := mkPgManager {
  pb_srcDSN : string;
  pb_dstDSN : string;
  pb_dumpDir : string;
  pb_dstPool : option P
}.

Record PostgresBackupResult := mkPgResult {
  br_ID : string;
  br_DumpFilePath : string;
  br_CreatedAt : Time;
  br_SizeBytesApprox : Z
}.

Definition NewPostgresBackupManager (srcDSN dstDSN dumpDir : string) w : (error + PostgresBackupManager) * W :=
  match LookPath "pg_dump" w with
  | Some err => (inl ("pg_dump binary not found on PATH: " +:+ err), w)
  | None =>
    match LookPath "pg_restore" w with
    | Some err => (inl ("pg_restore binary not found on PATH: " +:+ err), w)
    | None =>
      let '(err, w) := MkdirAll dumpDir w in
      match err with
      | Some err => (inl ("create dump dir " +:+ dumpDir +:+ ": " +:+ err), w)
      | None => (inr (mkPgManager srcDSN dstDSN dumpDir None), w)
      end
    end
  end.

Definition OpenDstPool (m : PostgresBackupManager) w : (error + P) * PostgresBackupManager :=
  match pgx_New (pb_dstDSN m) w with
  | inl err => (inl ("open dst pool: " +:+ err), m)
  | inr pool =>
    match pgx_Ping pool w with
    | Some err => (inl ("ping dst pool: " +:+ err), m)
    | None => (inr pool, mkPgManager (pb_srcDSN m) (pb_dstDSN m) (pb_dumpDir m) (Some pool))
    end
  end.

(** [t.UnixNano()] within its range. *)
Definition UnixNano (t : Time) : Z := t - 62135596800 * Second.

Definition dump_path (m : PostgresBackupManager) (id : string) : string := pb_dumpDir m +:+ "/" +:+ id +:+ ".dump".

Definition dump_args (path dsn : string) : list string :=
  ["--format=custom"; "--no-password"; "--file=" +:+ path; dsn].

(** The clock is read for the name and again for the record. *)
Definition CreateBackup (t1 t2 : Time) (m : PostgresBackupManager) w : (error + PostgresBackupResult) * W :=
  let backupID := "backup-" +:+ Itoa (UnixNano t1) in
  let dumpPath := dump_path m backupID in
  let '(err, w) := Run "pg_dump" (dump_args dumpPath (pb_srcDSN m)) w in
  (match err with
   | Some err => inl ("pg_dump failed: " +:+ err)
   | None =>
     match Stat_Size dumpPath w with
     | inl err => inl ("stat dump file: " +:+ err)
     | inr size => inr (mkPgResult backupID dumpPath t2 size)
     end
   end, w).

Definition restore_args (dsn path : string) : list string :=
  ["--clean"; "--if-exists"; "--no-password"; "--dbname=" +:+ dsn; path].

Definition RestoreDump (backup : option PostgresBackupResult) (m : PostgresBackupManager) w : option error * W :=
  match backup with
  | None => (Some "cannot restore from nil backup result", w)
  | Some backup =>
    let '(err, w) := Run "pg_restore" (restore_args (pb_dstDSN m) (br_DumpFilePath backup)) w in
    ((λ e, "pg_restore failed: " +:+ e) <$> err, w)
  end.

Definition QueryDst (sql : string) (m : PostgresBackupManager) w : error + Z :=
  match pb_dstPool m with
  | None => inl "dstPool not open; call OpenDstPool first"
  | Some pool => pgx_Count pool sql w
  end.

(** [CreateBaseBackup], [ArchiveWAL], [Restore] and [ListBackups] of the interface. *)
Definition pg_CreateBaseBackup (t1 t2 : Time) (m : PostgresBackupManager) w : (error + BaseBackup) * W :=
  let '(r, w) := CreateBackup t1 t2 m w in
  (match r with
   | inl err => inl err
   | inr result => inr (mkBaseBackup (br_ID result) 0 (br_CreatedAt result) {["dump_path" := br_DumpFilePath result]})
   end, w).

Definition pg_ArchiveWAL (record : WALRecord) (m : PostgresBackupManager) w : option error * W := (None, w).

(** The target time is not looked at. *)
Definition pg_Restore (backup : option BaseBackup) (targetTime : option Time) (m : PostgresBackupManager) w : option error * W :=
  match backup with
  | None => (Some "cannot restore from nil backup", w)
  | Some backup =>
    RestoreDump (Some (mkPgResult (bb_ID backup) (default "" (bb_Data backup !! "dump_path")) (bb_CreatedAt backup) 0)) m w
  end.

Definition pg_ListBackups (m : PostgresBackupManager) : list BaseBackup := [].

End manager.

(** ** What is logged of a DSN *)

(** [strings.Index(s, c)] and [strings.LastIndex(s, c)], as the text before and after. *)
Fixpoint cut_first (c : ascii) (s : string) : option (string * string) :=
  match s with
  | EmptyString => None
  | String d s' =>
    if Ascii.eqb d c then Some (EmptyString, s')
    else match cut_first c s' with Some (a, b) => Some (String d a, b) | None => None end
  end.

Fixpoint before_last (c : ascii) (s : string) : option string :=
  match s with
  | EmptyString => None
  | String d s' =>
    match before_last c s' with
    | Some a => Some (String d a)
    | None => if Ascii.eqb d c then Some EmptyString else None
    end
  end.

Definition sanitizeDSN (dsn : string) : string :=
  match cut_first "@" dsn with
  | Some (prefix, rest) =>
    match before_last ":" prefix with
    | Some head => head +:+ ":***@" +:+ rest
    | None => "<dsn-redacted>"
    end
  | None => "<dsn-redacted>"
  end.

#[local] Arguments Ascii.eqb : simpl never.
#[local] Arguments String.append : simpl nomatch.

Lemma cut_first_spec c s a b : cut_first c s = Some (a, b) → s = a +:+ String c b ∧ cut_first c a = None.
Proof.
  revert a b. induction s as [|d s IH]; intros a b; cbn; [done|].
  destruct (Ascii.eqb d c) eqn:E; [intros [= <- <-]; by apply Ascii.eqb_eq in E as ->|].
  destruct (cut_first c s) as [[x y]|] eqn:F; [|done]. intros [= <- <-]. destruct (IH x y eq_refl) as [-> H].
  cbn. by rewrite E, H.
Qed.

Lemma cut_first_app c a b : cut_first c a = None → cut_first c (a +:+ String c b) = Some (a, b).
Proof.
  induction a as [|d a IH]; cbn; [by rewrite Ascii.eqb_refl|]. destruct (Ascii.eqb d c); [done|].
  destruct (cut_first c a) as [[]|]; [done|]. intros _. by rewrite IH.
Qed.

Lemma before_last_app c a b : cut_first c b = None → before_last c (a +:+ String c b) = Some a.
Proof.
  intros Hb. assert (before_last c b = None) as Hn.
  { clear a. induction b as [|d b IH]; [done|]. cbn in *. destruct (Ascii.eqb d c); [done|].
    destruct (cut_first c b) as [[]|]; [done|]. by rewrite IH. }
  induction a as [|d a IH]; cbn; [by rewrite Hn, Ascii.eqb_refl|by rewrite IH].
Qed.

(** A connection string is logged without its password, if the password has no
    at sign and no colon and nothing before it has an at sign. *)
Theorem sanitize_hides_password head password rest :
  cut_first "@" (head +:+ ":" +:+ password) = None → cut_first ":" password = None →
  sanitizeDSN (head +:+ ":" +:+ password +:+ "@" +:+ rest) = head +:+ ":***@" +:+ rest.
Proof.
  intros H1 H2. unfold sanitizeDSN.
  assert (head +:+ ":" +:+ password +:+ "@" +:+ rest = (head +:+ String ":" password) +:+ String "@" rest) as ->.
  { by rewrite str_app_assoc. }
  rewrite cut_first_app by exact H1. by rewrite before_last_app.
Qed.

Lemma sanitize_hides_password_witness :
  sanitizeDSN "postgres://nebula:secret@db:5432/nebula" = "postgres://nebula:***@db:5432/nebula".
Proof. exact (sanitize_hides_password "postgres://nebula" "secret" "db:5432/nebula" eq_refl eq_refl). Defined.

(** The part of a password behind an at sign, or in front of a colon, is logged. *)
Example sanitize_leaks :
  sanitizeDSN "postgres://nebula:pa@ss@db/nebula" = "postgres://nebula:***@ss@db/nebula"
  ∧ sanitizeDSN "postgres://nebula:pa:ss@db/nebula" = "postgres://nebula:pa:***@db/nebula".
Proof. split; reflexivity. Qed.

(** ** Backup and restore *)

Abbreviation Tables := (gmap string string) (only parsing).

(** A dump file holds the tables of the database. A restore replaces the tables
    of the dump, and leaves the others. *)
Class ToolsLaws (W P : Type) `{!Tools W P} := {
  database : string → W → Tables;
  dump_file : string → W → option Tables;
  dump_law path dsn w w' : Run "pg_dump" (dump_args path dsn) w = (None, w') →
    dump_file path w' = Some (database dsn w) ∧ ∀ d, database d w' = database d w;
  restore_law path dsn w w' : Run "pg_restore" (restore_args dsn path) w = (None, w') →
    ∃ tables, dump_file path w = Some tables ∧ database dsn w' = tables ∪ database dsn w
      ∧ ∀ d, d ≠ dsn → database d w' = database d w
}.

Section restored.
Context {W P : Type} `{!Tools W P} {laws : ToolsLaws W P}.

(** A dump that succeeds, restored later from an unchanged file, gives the
    destination the tables of the source as they were at the dump, on top of the
    tables it had, and changes no other database. *)
Theorem dump_is_restored t1 t2 target (m : PostgresBackupManager) (w w1 w2 w3 : W) backup :
  pg_CreateBaseBackup t1 t2 m w = (inr backup, w1) →
  dump_file (dump_path m (bb_ID backup)) w2 = dump_file (dump_path m (bb_ID backup)) w1 →
  pg_Restore (Some backup) target m w2 = (None, w3) →
  database (pb_dstDSN m) w3 = database (pb_srcDSN m) w ∪ database (pb_dstDSN m) w2
  ∧ (∀ d, database d w1 = database d w) ∧ (∀ d, d ≠ pb_dstDSN m → database d w3 = database d w2).
Proof.
  unfold pg_CreateBaseBackup, CreateBackup. set (id := "backup-" +:+ _). intros H1 Hf H3.
  destruct (Run "pg_dump" _ w) as [[e|] wd] eqn:Ed; [done|]. apply dump_law in Ed as [Hd Hs].
  destruct (Stat_Size (dump_path m id) wd) as [e|size]; [done|]. injection H1 as <- <-.
  unfold pg_Restore, RestoreDump in H3. cbn [bb_Data bb_ID br_DumpFilePath br_ID] in *. rewrite lookup_singleton_eq in H3.
  change (default "" (Some (dump_path m id))) with (dump_path m id) in H3. destruct (Run "pg_restore" _ w2) as [[e|] wr] eqn:Er; [done|].
  injection H3 as <-. apply restore_law in Er as (tables & Ht & Hr & Ho). rewrite Hf, Hd in Ht. injection Ht as <-. done.
Qed.

End restored.

(** ** A small world: databases and dumps by their names *)

Definition World : Type := gmap string (gmap string string) * gmap string (gmap string string).

Definition world_run (program : string) (args : list string) (w : World) : option error * World :=
  match args with
  | [_; _; file; dsn] =>
    if decide (program = "pg_dump") then (None, (w.1, <[TrimPrefix file "--file=" := default ∅ (w.1 !! dsn)]> w.2))
    else (Some "exit status 1", w)
  | [_; _; _; dbname; path] =>
    match w.2 !! path with
    | Some tables => let dsn := TrimPrefix dbname "--dbname=" in (None, (<[dsn := tables ∪ default ∅ (w.1 !! dsn)]> w.1, w.2))
    | None => (Some "exit status 1", w)
    end
  | _ => (Some "exit status 1", w)
  end.

Definition small_world : Tools World unit := {|
  LookPath _ _ := None; MkdirAll _ w := (None, w); Run := world_run; Stat_Size _ _ := inr 1;
  pgx_New _ _ := inr tt; pgx_Ping _ _ := None; pgx_Count _ _ _ := inr 0
|}.

#[local] Existing Instance small_world.

Lemma trim_flag flag s : TrimPrefix (flag +:+ s) flag = s.
Proof.
  unfold TrimPrefix. assert (HasPrefix (flag +:+ s) flag = true) as ->.
  { unfold HasPrefix. induction flag as [|c flag IH]; [by destruct s|]. cbn. by destruct (ascii_dec c c). }
  induction flag as [|c flag IH]; [by destruct s|exact IH].
Qed.

#[local] Program Instance small_world_laws : ToolsLaws World unit := {
  database dsn w := default ∅ (w.1 !! dsn); dump_file path w := w.2 !! path
}.
Next Obligation.
  intros path dsn w w'. unfold dump_args, Run, small_world, world_run. rewrite decide_True, trim_flag by done. intros [= <-].
  cbn. by rewrite lookup_insert_eq.
Qed.
Next Obligation.
  intros path dsn w w'. unfold restore_args, Run, small_world, world_run. destruct (w.2 !! path) as [tables|] eqn:E; [|done].
  rewrite trim_flag. intros [= <-]. exists tables. cbn. rewrite lookup_insert_eq. split_and!; [done..|].
  intros d Hd. by rewrite lookup_insert_ne.
Qed.

Definition live : World := ({["src" := {["projects" := "shop"]}; "dst" := {["old" := "left"]}]}, ∅).
Definition copier : PostgresBackupManager (P := unit) := mkPgManager "src" "dst" "/dumps" None.

Definition with_backup : BaseBackup * World :=
  match pg_CreateBaseBackup 5 6 copier live with
  | (inr b, w) => (b, w)
  | (inl _, w) => (mkBaseBackup "" 0 0 ∅, w)
  end.

(** The source drifts after the backup. *)
Definition drifted : World := (<["src" := {["projects" := "other"]}]> with_backup.2.1, with_backup.2.2).

Lemma dump_is_restored_witness :
  (pg_Restore (Some with_backup.1) None copier drifted).1 = None
  ∧ database "dst" (pg_Restore (Some with_backup.1) None copier drifted).2 = {["projects" := "shop"; "old" := "left"]}.
Proof.
  split; [vm_compute; reflexivity|].
  destruct (dump_is_restored 5 6 None copier live with_backup.2 drifted (pg_Restore (Some with_backup.1) None copier drifted).2 with_backup.1)
    as [H _]; [vm_compute; reflexivity..|].
  etrans; [exact H|vm_compute; reflexivity].
Defined.

(** The target time has no effect, where the manager in memory stops its replay. *)
Example target_time_ignored target : pg_Restore (Some with_backup.1) target copier drifted = pg_Restore (Some with_backup.1) None copier drifted.
Proof. reflexivity. Qed.
