(* ===== verification/Build.v ===== *)
(** * Builds: internal/build/{ports,build_plan,detector,orchestrator,sandbox}.go

    Detection of the kind of a project, the ports that a Dockerfile exposes, the
    environment of a build without secrets, and the sandbox that makes up an
    image. The files of a source directory are a tree; symbolic links and
    directories that cannot be listed are not modelled. *)

From stdpp Require Import base option gmap strings list pretty.
From Stdlib Require Import ZArith Lia Ascii.
From S2P Require Import Prelude GoLib GoFloat GoTime PtrStore Workers Deployments Fleet Platform Registry Http Json.

(** ** Source directories

    A file that cannot be read has no contents. *)
Inductive Node :=
| NFile (content : option string)
| NDir (entries : list (string * Node)).

(** The trees that are found under paths; the empty path is the working
    directory. *)
Abbreviation FileSystem := (string → option Node) (only parsing).

Definition child (name : string) (dir : option Node) : option Node :=
  match dir with
  | Some (NDir entries) => snd <$> head (base.filter (λ e, e.1 = name) entries)
  | _ => None
  end.

(** [os.Stat(path)] finds a file that is not a directory. *)
Definition stat_file (name : string) (dir : option Node) : option (option string) :=
  match child name dir with Some (NFile content) => Some content | _ => None end.

(** [os.ReadFile(path)]. *)
Definition read_file (name : string) (dir : option Node) : option string :=
  match child name dir with Some (NFile content) => content | _ => None end.

(** [filepath.Walk]: the files under a path, in lexical order, with the names
    of the files. *)
Fixpoint walk (name : string) (node : Node) : list (string * option string) :=
  match node with
  | NFile content => [(name, content)]
  | NDir entries =>
    concat ((SliceStable (λ x y : string * list (string * option string), String.ltb x.1 y.1)
               (map (λ e, match e with (n, d) => (n, walk n d) end) entries)).*2)
  end.

Definition walk_dir (sourceDir : string) (dir : option Node) : list (string * option string) :=
  match dir with Some node => walk sourceDir node | None => [] end.

(** [filepath.Ext]: from the last dot of the last element on. *)
Fixpoint path_ext (path : string) : option string :=
  match path with
  | EmptyString => None
  | String c rest =>
    match path_ext rest with
    | Some e => Some e
    | None => if Ascii.eqb c "." && str_free "/" rest then Some path else None
    end
  end.

Definition Ext (path : string) : string := default "" (path_ext path).

(** The components of a path after [filepath.Clean]; [up] are those that are
    kept so far, the last one first. *)
Fixpoint clean_parts (rooted : bool) (parts up : list string) : list string :=
  match parts with
  | [] => rev up
  | p :: parts =>
    if decide (p = "" ∨ p = ".") then clean_parts rooted parts up
    else if decide (p = "..") then
      match up with
      | q :: up' => if decide (q = "..") then clean_parts rooted parts (p :: up) else clean_parts rooted parts up'
      | [] => clean_parts rooted parts (if rooted then [] else [p])
      end
    else clean_parts rooted parts (p :: up)
  end.

Definition clean_path (path : string) : string :=
  let rooted := HasPrefix path "/" in
  let body := Join (clean_parts rooted (Split path "/") []) "/" in
  if rooted then "/" +:+ body else if decide (body = "") then "." else body.

(** [filepath.Join(dir, name)] for a name that is not empty. *)
Definition join_path (dir name : string) : string :=
  if decide (dir = "") then clean_path name else clean_path (dir +:+ "/" +:+ name).

(** [strings.Cut(s, sep)], when [sep] is found. *)
Fixpoint cut_sub (s sep : string) : option (string * string) :=
  if HasPrefix s sep then Some ("", drop_string (String.length sep) s)
  else match s with
  | EmptyString => None
  | String c s' => (λ x : string * string, (String c x.1, x.2)) <$> cut_sub s' sep
  end.

Section build.
Context {uni : Unicode} {cr : Crypto}.

(** ** ports.go

    The pattern [(?m)^\s*EXPOSE\s+(.+)$]. Its spaces may be newlines. *)

Definition regex_space (c : ascii) : bool :=
  let n := N_of_ascii c in ((n =? 9) || (n =? 10) || (n =? 12) || (n =? 13) || (n =? 32))%N.

Fixpoint span_space (s : string) : string * string :=
  match s with
  | String c s' => if regex_space c then let '(w, r) := span_space s' in (String c w, r) else (EmptyString, s)
  | EmptyString => (EmptyString, EmptyString)
  end.

Definition newline_char : ascii := ascii_of_nat 10.

(** The rest of a line, and what follows, which begins with its newline. *)
Fixpoint line_of (s : string) : string * string :=
  match s with
  | String c s' => if Ascii.eqb c newline_char then (EmptyString, s) else let '(l, r) := line_of s' in (String c l, r)
  | EmptyString => (EmptyString, EmptyString)
  end.

(** The last space of a run that the group can begin with: [\s+] gives back
    what [.+] needs, and keeps one space. *)
Fixpoint give_back (w : string) : option string :=
  match w with
  | String c w' =>
    match give_back w' with
    | Some g => Some g
    | None =>
      match w' with
      | String d _ => if Ascii.eqb d newline_char then None else Some w'
      | EmptyString => None
      end
    end
  | EmptyString => None
  end.

(** A match at the start of a line: the group, and the text after it. *)
Definition expose_at (s : string) : option (string * string) :=
  let '(_, s) := span_space s in
  if HasPrefix s "EXPOSE" then
    match span_space (drop_string 6 s) with
    | (EmptyString, _) => None
    | (w, EmptyString) => line_of <$> give_back w
    | (_, r) => Some (line_of r)
    end
  else None.

(** [FindAllStringSubmatch], from the start of a line on: the groups of the
    matches that follow each other. The fuel counts lines. *)
Fixpoint expose_groups (fuel : nat) (s : string) : list string :=
  match fuel with
  | O => []
  | S fuel' =>
    let next t := match (line_of t).2 with String _ t' => expose_groups fuel' t' | EmptyString => [] end in
    match expose_at s with
    | Some (g, rest) => g :: next rest
    | None => next s
    end
  end.

(** [strings.FieldsFunc] with a space, a tab and a comma; [cur] is the open
    field. *)
Definition separator (c : ascii) : bool := Ascii.eqb c " " || Ascii.eqb c (ascii_of_nat 9) || Ascii.eqb c ",".

Fixpoint port_fields_from (cur s : string) : list string :=
  let flush := if decide (cur = "") then [] else [cur] in
  match s with
  | EmptyString => flush
  | String c s' =>
    if separator c then flush ++ port_fields_from "" s' else port_fields_from (cur +:+ String c EmptyString) s'
  end.

(** [strconv.Atoi], for numbers of any size. *)
Definition Atoi (s : string) : option Z :=
  match s with
  | EmptyString => None
  | String c s' =>
    if Ascii.eqb c "-" || Ascii.eqb c "+" then
      if decide (s' = "") then None
      else (λ n, if Ascii.eqb c "-" then - n else n) <$> dec_value 0 s'
    else dec_value 0 s
  end.

Definition port_of (token : string) : option Z :=
  let token := TrimSpace token in
  if decide (token = "") then None
  else
    match Atoi (split_head token "/") with
    | Some p => if (p <=? 0) || (65535 <? p) then None else Some p
    | None => None
    end.

(** The ports that were not seen before, in order. *)
Fixpoint first_seen (seen l : list Z) : list Z :=
  match l with
  | [] => []
  | p :: l' => if decide (p ∈ seen) then first_seen seen l' else p :: first_seen (p :: seen) l'
  end.

Definition ExposedPorts (dockerfileContent : string) : list Z :=
  if decide (TrimSpace dockerfileContent = "") then []
  else
    first_seen [] (g ← expose_groups (S (String.length dockerfileContent)) dockerfileContent;
                   omap port_of (port_fields_from "" g)).

(** ** build_plan.go *)

Inductive BuildStrategy := StrategyDockerfile | StrategyGo | StrategyNode | StrategyPython.

Record BuildPlan := mkPlan {
  bp_Strategy : BuildStrategy;
  bp_DockerfilePath : string;
  bp_DockerfileContent : string;
  bp_BaseImage : string;
  bp_ExposedPort : Z
}.

(** The words of an entry point, quoted, in brackets. *)
Definition entrypoint (words : list string) : string :=
  let q := String dquote EmptyString in
  "ENTRYPOINT [" +:+ Join ((λ w, q +:+ w +:+ q) <$> words) ", " +:+ "]
".

Definition DefaultGoDockerfile : string :=
"FROM golang:1.22-alpine AS builder
WORKDIR /app
COPY go.mod go.sum* ./
RUN go mod download
COPY . .
RUN CGO_ENABLED=0 GOOS=linux go build -o /server .

FROM alpine:latest
WORKDIR /app
COPY --from=builder /server /app/server
EXPOSE 8080
" +:+ entrypoint ["/app/server"].

Definition DefaultNodeDockerfile : string :=
"FROM node:20-alpine
WORKDIR /app
COPY package*.json ./
RUN npm install --production
COPY . .
EXPOSE 3000
" +:+ entrypoint ["npm"; "start"].

Definition DefaultPythonDockerfile : string :=
"FROM python:3.11-slim
WORKDIR /app
COPY requirements*.txt pyproject.toml* ./
RUN if [ -f requirements.txt ]; then pip install --no-cache-dir -r requirements.txt; fi
COPY . .
EXPOSE 8000
" +:+ entrypoint ["python"; "main.py"].

(** ** detector.go *)

Definition ErrUnsupportedProject : error :=
  "unsupported project type: no Dockerfile or recognized language manifest found".

Definition dockerfile_plan (sourceDir : string) (dir : option Node) (name : string) : option BuildPlan :=
  content ← stat_file name dir;
  Some (mkPlan StrategyDockerfile (join_path sourceDir name) (default "" content) "" 8080).

Definition has_file (name : string) (dir : option Node) : bool := bool_decide (is_Some (stat_file name dir)).

Definition Detect (fs : FileSystem) (sourceDir : string) : error + BuildPlan :=
  let dir := fs sourceDir in
  match head (omap (dockerfile_plan sourceDir dir) ["Dockerfile"; "dockerfile"]) with
  | Some plan => inr plan
  | None =>
    if has_file "go.mod" dir then inr (mkPlan StrategyGo "" DefaultGoDockerfile "golang:1.22-alpine" 8080)
    else if has_file "package.json" dir then inr (mkPlan StrategyNode "" DefaultNodeDockerfile "node:20-alpine" 3000)
    else if has_file "requirements.txt" dir || has_file "pyproject.toml" dir
    then inr (mkPlan StrategyPython "" DefaultPythonDockerfile "python:3.11-slim" 8000)
    else inl (ErrUnsupportedProject +:+ ": checked " +:+ sourceDir)
  end.

(** ** sandbox.go *)

Record BuildRequest := mkBuildRequest {
  bq_ProjectID : string;
  bq_SourceDir : string;
  bq_Plan : option BuildPlan;
  bq_ImageTag : string;
  bq_BuildArgs : gmap string string
}.

Definition forbiddenPrefixes : list string :=
  ["NEBULA_DB_"; "NEBULA_SECRETS_"; "NEBULA_GRPC_"; "DATABASE_"; "POSTGRES_"].
Definition forbiddenKeywords : list string := ["PASSWORD"; "SECRET"; "PRIVATE_KEY"; "SIGNING"; "TOKEN"].

Definition forbidden (k v : string) : bool :=
  let upperK := ToUpper k in
  existsb (HasPrefix upperK) forbiddenPrefixes || existsb (Contains upperK) forbiddenKeywords
  || Contains v ":9090" || Contains v "control-plane".

Definition SanitizeEnvironment (env : gmap string string) : gmap string string :=
  base.filter (λ kv, forbidden kv.1 kv.2 = false) env.

(** The text behind the marker of a file, to the end of its line or the next
    marker. *)
Definition syntax_error_in (s : string) : option string :=
  '(_, after) ← cut_sub s "SYNTAX_ERROR:";
  let part := match cut_sub after "SYNTAX_ERROR:" with Some (before, _) => before | None => after end in
  Some (TrimSpace (split_head part newline_char)).

Definition source_file (name : string) : bool := bool_decide (Ext name ∈ [".go"; ".js"; ".py"; ".txt"]).

(** The first file with a marker. *)
Definition checkSourceCodeForErrors (sourceDir : string) (dir : option Node) : option string :=
  head (omap (λ f : string * option string, if source_file f.1 then f.2 ≫= syntax_error_in else None) (walk_dir sourceDir dir)).

(** The contents of the files that can be read, one after the other. *)
Definition source_bytes (sourceDir : string) (dir : option Node) : string :=
  String.concat "" (omap snd (walk_dir sourceDir dir)).

(** The markers of a failed build, which every sandbox looks for. *)
Definition build_failure (sourceDir : string) (dir : option Node) : option error :=
  match read_file ".broken_build" dir with
  | Some data => Some ("build error: compilation failed: " +:+ TrimSpace data)
  | None =>
    match checkSourceCodeForErrors sourceDir dir with
    | Some msg => Some ("build error: syntax error in source code: " +:+ msg)
    | None => None
    end
  end.

(** The payload of the image, with the hash of what was built, and its digest. *)
Definition image_payload (dockerfile imageTag sources : string) : string :=
  "OCI_IMAGE_DATA[" +:+ imageTag +:+ "|" +:+ sha256_hex (dockerfile +:+ imageTag +:+ sources) +:+ "]".

Definition payload_digest (payload : string) : string := "sha256:" +:+ sha256_hex payload.

(** A result [None] is a panic, of a plan that is nil. [done_] is the error of
    the context, when it is over at the end. *)
Definition EphemeralBuild (fs : FileSystem) (done_ : option error) (req : BuildRequest) : option (error + BuildResult) :=
  plan ← bq_Plan req;
  let dir := fs (bq_SourceDir req) in
  Some (
    if decide (bq_SourceDir req = "") then inl "build failed: source directory is empty"
    else match build_failure (bq_SourceDir req) dir with
    | Some err => inl err
    | None =>
      let payload := image_payload (bp_DockerfileContent plan) (bq_ImageTag req) (source_bytes (bq_SourceDir req) dir) in
      let digest := payload_digest payload in
      match done_ with
      | Some err => inl ("build timed out: " +:+ err)
      | None =>
        inr (mkBuildResult (bq_ImageTag req) digest payload
               ("Successfully built " +:+ bq_ImageTag req +:+ " with digest " +:+ digest)
               (ExposedPorts (bp_DockerfileContent plan)))
      end
    end).

End build.

(** ** orchestrator.go

    The interface [Sandbox], with the state of what is behind it. *)
Class Sandbox (X : Type) := sandbox_Build : BuildRequest → X → option ((error + BuildResult) * X).

Section orchestrator.
Context {uni : Unicode} {cr : Crypto}.

Definition BuildFromSource `{!Sandbox X} (fs : FileSystem) (projectID sourceDir imageTag : string)
    (buildArgs : gmap string string) (x : X) : option ((error + BuildResult) * X) :=
  match AuthorizePush projectID imageTag with
  | Some err => Some (inl ("build rejected: " +:+ err), x)
  | None =>
    match Detect fs sourceDir with
    | inl err => Some (inl ("detection failed: " +:+ err), x)
    | inr plan => sandbox_Build (mkBuildRequest projectID sourceDir (Some plan) imageTag buildArgs) x
    end
  end.

(** The sandbox that [NewOrchestrator] makes when it is given none: its state
    is the error of the context. *)
#[local] Instance ephemeral_sandbox (fs : FileSystem) : Sandbox (option error) := λ req done_,
  (λ r, (r, done_)) <$> EphemeralBuild fs done_ req.

(** ** The ports of a Dockerfile *)

(** A match of the pattern in a text, and its group. *)
Definition exposes (s g : string) : Prop := ∃ a ws w b,
  s = a +:+ ws +:+ "EXPOSE" +:+ w +:+ g +:+ b
  ∧ (a = "" ∨ ∃ a', a = a' +:+ newline)
  ∧ str_forall regex_space ws = true ∧ str_forall regex_space w = true ∧ w ≠ ""
  ∧ g ≠ "" ∧ str_free newline_char g = true ∧ (b = "" ∨ ∃ b', b = String newline_char b').

Lemma span_space_spec s w r : span_space s = (w, r) →
  s = w +:+ r ∧ str_forall regex_space w = true ∧ match r with String c _ => regex_space c = false | _ => True end.
Proof.
  revert w r. induction s as [|c s IH]; intros w r; cbn [span_space]; [by intros [= <- <-]|].
  destruct (regex_space c) eqn:E.
  - destruct (span_space s) as [w' r'] eqn:Es. intros [= <- <-]. destruct (IH _ _ eq_refl) as (-> & Hw & Hr).
    split; [done|]. split; [|done]. cbn. by rewrite E.
  - intros [= <- <-]. by rewrite E.
Qed.

Lemma line_of_spec s l r : line_of s = (l, r) →
  s = l +:+ r ∧ str_free newline_char l = true ∧ (r = "" ∨ ∃ r', r = String newline_char r').
Proof.
  revert l r. induction s as [|c s IH]; intros l r; cbn [line_of]; [intros [= <- <-]; auto|].
  destruct (Ascii.eqb c newline_char) eqn:E.
  - intros [= <- <-]. apply Ascii.eqb_eq in E as ->. eauto.
  - destruct (line_of s) as [l' r'] eqn:Es. intros [= <- <-]. destruct (IH _ _ eq_refl) as (-> & Hl & Hr).
    split; [done|]. split; [|done]. cbn [str_free]. by rewrite E.
Qed.

Lemma line_of_length s : (String.length (line_of s).2 ≤ String.length s)%nat.
Proof. induction s as [|c s IH]; cbn; [done|]. destruct (Ascii.eqb c newline_char); cbn; [done|]. destruct (line_of s); cbn in *; lia. Qed.

Lemma give_back_spec w g : give_back w = Some g →
  ∃ w1, w = w1 +:+ g ∧ w1 ≠ "" ∧ match g with String d _ => Ascii.eqb d newline_char = false | EmptyString => False end.
Proof.
  revert g. induction w as [|c w IH]; intros g; cbn [give_back]; [done|].
  destruct (give_back w) as [g'|] eqn:E.
  - intros [= <-]. destruct (IH _ eq_refl) as (w1 & -> & Hw & Hg). by exists (String c w1).
  - destruct w as [|d w]; [done|]. destruct (Ascii.eqb d newline_char) eqn:Ed; [done|].
    intros [= <-]. exists (String c ""). by rewrite Ed.
Qed.

(** What [expose_at] finds is a match at the front. *)
Lemma expose_at_spec s g b : expose_at s = Some (g, b) → ∃ ws w,
  s = ws +:+ "EXPOSE" +:+ w +:+ g +:+ b ∧ str_forall regex_space ws = true ∧ str_forall regex_space w = true ∧ w ≠ ""
  ∧ g ≠ "" ∧ str_free newline_char g = true ∧ (b = "" ∨ ∃ b', b = String newline_char b').
Proof.
  unfold expose_at. destruct (span_space s) as [ws s1] eqn:E1. destruct (span_space_spec _ _ _ E1) as (-> & Hws & _).
  destruct (HasPrefix s1 "EXPOSE") eqn:Hp; [|done]. destruct (HasPrefix_app _ _ Hp) as [t ->].
  change 6%nat with (String.length "EXPOSE"). rewrite drop_string_app.
  destruct (span_space t) as [w r] eqn:E2. destruct (span_space_spec _ _ _ E2) as (-> & Hw & Hr).
  destruct w as [|c w]; [done|]. destruct r as [|d r].
  - destruct (give_back (String c w)) as [g'|] eqn:Eg; [|done]. cbn [fmap option_fmap option_map]. intros Hl%(inj Some).
    destruct (give_back_spec _ _ Eg) as (w1 & Hg & Hw1 & Hd). rewrite Hg in *. rewrite str_app_nil.
    destruct (line_of_spec _ _ _ Hl) as (Hgb & Hf & Hb). exists ws, w1.
    rewrite str_forall_app in Hw. apply andb_true_iff in Hw as [Hw _].
    split; [by rewrite Hgb|]. split_and!; try done. intros ->. destruct g' as [|x g']; [done|].
    cbn [line_of] in Hl. rewrite Hd in Hl. by destruct (line_of g').
  - intros Hl%(inj Some). destruct (line_of_spec _ _ _ Hl) as (Hgb & Hf & Hb). exists ws, (String c w).
    split; [by rewrite Hgb|]. split_and!; try done. intros ->. cbn [line_of] in Hl.
    destruct (Ascii.eqb d newline_char) eqn:Ed; [|by destruct (line_of r)].
    apply Ascii.eqb_eq in Ed as ->. done.
Qed.

(** Every group is one of a match at the start of a line. *)
Lemma expose_groups_exposes fuel s g : g ∈ expose_groups fuel s → exposes s g.
Proof.
  revert s. induction fuel as [|fuel IH]; intros s; cbn [expose_groups]; [by intros ?%elem_of_nil|].
  assert (∀ a t, s = a +:+ t →
    g ∈ match (line_of t).2 with String _ t' => expose_groups fuel t' | EmptyString => [] end → exposes s g) as Hnext.
  { intros a t Hs. destruct (line_of t) as [l r] eqn:El. destruct (line_of_spec _ _ _ El) as (-> & _ & [-> | [r' ->]]);
      cbn [snd]; [by intros ?%elem_of_nil|]. intros (a0 & ws & w & b & -> & Ha & H)%IH.
    exists (a +:+ l +:+ newline +:+ a0), ws, w, b. split; [by rewrite Hs, !str_app_assoc|]. split; [|done].
    right. destruct Ha as [-> | [a1 ->]]; [exists (a +:+ l)|exists (a +:+ l +:+ newline +:+ a1)]; by rewrite ?str_app_nil, !str_app_assoc. }
  destruct (expose_at s) as [[g' rest]|] eqn:E; [|by apply (Hnext "")].
  destruct (expose_at_spec _ _ _ E) as (ws & w & Hs & H). intros [-> | Hg]%elem_of_cons.
  - exists "", ws, w, rest. split; [done|]. split; [by left|done].
  - apply (Hnext (ws +:+ "EXPOSE" +:+ w +:+ g') rest); [by rewrite Hs, !str_app_assoc|done].
Qed.

(** *** The Dockerfile line by line

    A line that is not empty and not indented, and is not EXPOSE alone. *)
Definition line_group (l : string) : option string :=
  if HasPrefix l "EXPOSE" then
    match span_space (drop_string 6 l) with
    | (String _ _, String c r) => Some (String c r)
    | _ => None
    end
  else None.

Definition plain_line (l : string) : bool :=
  str_free newline_char l
  && match l with String c _ => negb (regex_space c) | EmptyString => false end
  && (if HasPrefix l "EXPOSE" then negb (bool_decide ((span_space (drop_string 6 l)).2 = "")) else true).

Definition line_end (t : string) : Prop := t = "" ∨ ∃ t', t = String newline_char t'.

Lemma prefix_line p l t : str_free newline_char p = true → line_end t → HasPrefix (l +:+ t) p = HasPrefix l p.
Proof.
  intros Hp Ht. unfold HasPrefix. revert p Hp. induction l as [|c l IH]; intros p Hp.
  - destruct p as [|d p]; [by destruct t|]. destruct Ht as [-> | [t' ->]]; [done|]. cbn [str_free] in Hp.
    apply andb_true_iff in Hp as [Hd%negb_true_iff _]. change (String.prefix (String d p) (String newline_char t') = false).
    cbn [String.prefix]. destruct (ascii_dec d newline_char) as [->|]; [by rewrite Ascii.eqb_refl in Hd|done].
  - destruct p as [|d p]; [done|]. cbn [str_free] in Hp. apply andb_true_iff in Hp as [_ Hp].
    change (String c l +:+ t) with (String c (l +:+ t)). cbn [String.prefix]. by rewrite IH.
Qed.

Lemma span_space_line s t : (span_space s).2 ≠ "" → span_space (s +:+ t) = ((span_space s).1, (span_space s).2 +:+ t).
Proof.
  induction s as [|c s IH]; [done|]. change (String c s +:+ t) with (String c (s +:+ t)). cbn [span_space].
  destruct (regex_space c); [|done]. destruct (span_space s) as [w r] eqn:E. cbn [fst snd] in *. intros H. by rewrite IH.
Qed.

Lemma line_of_line l t : str_free newline_char l = true → line_end t → line_of (l +:+ t) = (l, t).
Proof.
  intros Hl Ht. induction l as [|c l IH].
  - destruct Ht as [-> | [t' ->]]; [done|]. change ("" +:+ String newline_char t') with (String newline_char t'). done.
  - cbn [str_free] in Hl. apply andb_true_iff in Hl as [Hc%negb_true_iff Hl].
    change (String c l +:+ t) with (String c (l +:+ t)). cbn [line_of]. by rewrite Hc, IH.
Qed.

Lemma line_of_end t : line_end t → (line_of t).2 = t.
Proof. by intros [-> | [t' ->]]. Qed.

Lemma span_space_free s : str_free newline_char s = true → str_free newline_char (span_space s).2 = true.
Proof.
  intros H. destruct (span_space s) as [w r] eqn:E. destruct (span_space_spec _ _ _ E) as (-> & _ & _).
  rewrite str_free_app in H. by apply andb_true_iff in H as [_ ?].
Qed.

(** On a plain line the pattern matches within the line. *)
Lemma expose_at_line l t : plain_line l = true → line_end t → expose_at (l +:+ t) = (λ g, (g, t)) <$> line_group l.
Proof.
  unfold plain_line. rewrite !andb_true_iff. intros [[Hf Hc] He] Ht. unfold expose_at, line_group.
  assert (span_space (l +:+ t) = ("", l +:+ t)) as ->.
  { destruct l as [|c l]; [done|]. apply negb_true_iff in Hc. change (String c l +:+ t) with (String c (l +:+ t)).
    cbn [span_space]. by rewrite Hc. }
  rewrite prefix_line by done. destruct (HasPrefix l "EXPOSE") eqn:Hp; [|done].
  destruct (HasPrefix_app _ _ Hp) as [u ->]. rewrite str_app_assoc. change 6%nat with (String.length "EXPOSE") in *.
  rewrite !drop_string_app in *. apply negb_true_iff, bool_decide_eq_false in He. rewrite span_space_line by done.
  pose proof (span_space_free u) as Hu. rewrite str_free_app in Hf. apply andb_true_iff in Hf as [_ Hf].
  specialize (Hu Hf). destruct (span_space u) as [w r]. cbn [fst snd] in *. destruct r as [|c r]; [done|].
  destruct w as [|d w]; [done|]. change (String c r +:+ t) with (String c (r +:+ t)).
  change (Some (line_of (String c r +:+ t)) = Some (String c r, t)). by rewrite line_of_line.
Qed.

Lemma expose_groups_lines fuel ls : Forall (λ l, plain_line l = true) ls → (length ls < fuel)%nat →
  expose_groups fuel (Join ls newline) = omap line_group ls.
Proof.
  intros Hls. revert fuel. induction Hls as [|l ls Hl Hls IH]; intros fuel Hn;
    (destruct fuel as [|fuel]; [cbn in Hn; lia|]); [done|].
  assert (str_free newline_char l = true) as Hfree by (unfold plain_line in Hl; rewrite !andb_true_iff in Hl; apply Hl).
  assert (∃ t, Join (l :: ls) newline = l +:+ t ∧ line_end t
    ∧ match t with String _ t' => expose_groups fuel t' | EmptyString => [] end = omap line_group ls) as (t & -> & Ht & Hnext).
  { destruct ls as [|l' ls]; [exists ""; rewrite str_app_nil; split_and!; [done|by left|done]|].
    exists (String newline_char (Join (l' :: ls) newline)). split_and!; [done|right; eauto|].
    apply IH. cbn in Hn |- *. lia. }
  cbn [expose_groups omap list_omap]. rewrite expose_at_line, line_of_line by done. cbn [snd].
  destruct (line_group l); cbn [fmap option_fmap option_map]; [rewrite line_of_end by done; by rewrite Hnext|exact Hnext].
Qed.

Lemma first_seen_spec seen l :
  NoDup (first_seen seen l) ∧ ∀ p, p ∈ first_seen seen l ↔ p ∈ l ∧ p ∉ seen.
Proof.
  revert seen. induction l as [|q l IH]; intros seen; cbn [first_seen].
  - split; [constructor|]. intros p. by rewrite elem_of_nil; tauto.
  - destruct (decide (q ∈ seen)) as [Hq|Hq].
    + destruct (IH seen) as [Hn Hp]. split; [done|]. intros p. rewrite Hp, elem_of_cons.
      split; [by intros [? ?]; auto|]. by intros [[-> | ?] ?].
    + destruct (IH (q :: seen)) as [Hn Hp]. split.
      * constructor; [|done]. rewrite Hp, elem_of_cons. tauto.
      * intros p. rewrite elem_of_cons, Hp, !elem_of_cons. destruct (decide (p = q)) as [->|]; tauto.
Qed.

Lemma port_of_range token p : port_of token = Some p → 1 ≤ p ≤ 65535.
Proof.
  unfold port_of. case_decide; [done|]. destruct (Atoi _) as [q|]; [|done].
  destruct (_ || _) eqn:E; [done|]. apply orb_false_iff in E as [?%Z.leb_gt ?%Z.ltb_ge]. intros [= ->]. lia.
Qed.

Lemma Join_lines_length ls : Forall (λ l, plain_line l = true) ls → (length ls ≤ String.length (Join ls newline))%nat.
Proof.
  induction 1 as [|l ls Hl Hls IH]; [done|]. destruct l as [|c l]; [done|].
  destruct ls as [|l' ls]; [cbn; lia|].
  change (Join (String c l :: l' :: ls) newline) with (String c l +:+ newline +:+ Join (l' :: ls) newline).
  rewrite !str_app_length. cbn [length String.length newline] in *. lia.
Qed.

(** The ports of a Dockerfile are distinct, between 1 and 65535, and each stands
    in a match of the pattern; when every line is plain they are those of the
    EXPOSE lines in the order of their first occurrence. *)
Theorem exposed_ports_spec (s : string) :
  NoDup (ExposedPorts s) ∧ Forall (λ p, 1 ≤ p ≤ 65535) (ExposedPorts s)
  ∧ (∀ p, p ∈ ExposedPorts s → ∃ g token, exposes s g ∧ token ∈ port_fields_from "" g ∧ port_of token = Some p)
  ∧ ∀ ls, s = Join ls newline → Forall (λ l, plain_line l = true) ls → TrimSpace s ≠ "" →
      ExposedPorts s = first_seen [] (g ← omap line_group ls; omap port_of (port_fields_from "" g)).
Proof.
  unfold ExposedPorts. case_decide as Ht.
  { split_and!; [constructor|constructor|by intros p ?%elem_of_nil|done]. }
  set (l := expose_groups _ _ ≫= _). destruct (first_seen_spec [] l) as [Hn Hp].
  assert (∀ p, p ∈ first_seen [] l → ∃ g token, exposes s g ∧ token ∈ port_fields_from "" g ∧ port_of token = Some p) as H.
  { intros p [(g & Hg & Hin)%list_elem_of_bind _]%Hp. apply list_elem_of_omap in Hg as (token & Htok & Hpo).
    exists g, token. split; [|done]. by eapply expose_groups_exposes. }
  split_and!; [done| |done|].
  - apply Forall_forall. intros p (g & token & _ & _ & Hpo)%H. by apply port_of_range in Hpo.
  - intros ls -> Hls _. unfold l. rewrite expose_groups_lines; [done|done|].
    pose proof (Join_lines_length ls Hls). lia.
Qed.

(** ** What a build returns *)

Lemma ToLower_digest d : isASCII d = true → ToLower ("sha256:" +:+ d) = "sha256:" +:+ string_map lower_char d.
Proof. intros H. unfold ToLower. change (isASCII ("sha256:" +:+ d)) with (isASCII d). by rewrite H. Qed.

Lemma string_map_ascii s : isASCII s = true → isASCII (string_map lower_char s) = true.
Proof.
  induction s as [|c s IH]; [done|]. cbn. rewrite !andb_true_iff. intros [Hc Hs]. split; [|auto].
  unfold lower_char. case_match; [|done]. unfold isASCII_char in *. apply andb_true_iff in H as [_ H%N.leb_le].
  apply N.ltb_lt. rewrite N_ascii_embedding by lia. lia.
Qed.

Lemma digest_verifies d : isASCII d = true → VerifyDigest ("sha256:" +:+ d) ("sha256:" +:+ d) = None.
Proof.
  intros Hd. unfold VerifyDigest. rewrite ToLower_digest by done. set (e := string_map lower_char d).
  assert (TrimSpace ("sha256:" +:+ e) ≠ "") as Hne.
  { unfold TrimSpace. change (isASCII ("sha256:" +:+ e)) with (isASCII e). unfold e at 1. rewrite string_map_ascii by done.
    change (trim_left ("sha256:" +:+ e)) with (String "s" ("ha256:" +:+ e)). cbn [trim_right].
    destruct (trim_right ("ha256:" +:+ e)); done. }
  rewrite !decide_False by done. by rewrite decide_False by auto.
Qed.

(** The outcomes of a build from source in the sandbox of the orchestrator. *)
Inductive build_result (fs : FileSystem) (projectID sourceDir imageTag : string) (done_ : option error) :
    error + BuildResult → Prop :=
| build_denied err : AuthorizePush projectID imageTag = Some err →
    build_result fs projectID sourceDir imageTag done_ (inl ("build rejected: " +:+ err))
| build_undetected err : AuthorizePush projectID imageTag = None → Detect fs sourceDir = inl err →
    build_result fs projectID sourceDir imageTag done_ (inl ("detection failed: " +:+ err))
| build_nowhere plan : AuthorizePush projectID imageTag = None → Detect fs sourceDir = inr plan → sourceDir = "" →
    build_result fs projectID sourceDir imageTag done_ (inl "build failed: source directory is empty")
| build_fails plan err : AuthorizePush projectID imageTag = None → Detect fs sourceDir = inr plan → sourceDir ≠ "" →
    build_failure sourceDir (fs sourceDir) = Some err →
    build_result fs projectID sourceDir imageTag done_ (inl err)
| build_timeout plan err : AuthorizePush projectID imageTag = None → Detect fs sourceDir = inr plan →
    build_failure sourceDir (fs sourceDir) = None → done_ = Some err →
    build_result fs projectID sourceDir imageTag done_ (inl ("build timed out: " +:+ err))
| build_succeeds plan res : AuthorizePush projectID imageTag = None → Detect fs sourceDir = inr plan → sourceDir ≠ "" →
    build_failure sourceDir (fs sourceDir) = None → done_ = None →
    br_ImageTag res = imageTag →
    br_ImageData res = image_payload (bp_DockerfileContent plan) imageTag (source_bytes sourceDir (fs sourceDir)) →
    br_Digest res = ComputeDigest (br_ImageData res) →
    br_Ports res = ExposedPorts (bp_DockerfileContent plan) →
    build_result fs projectID sourceDir imageTag done_ (inr res).


End orchestrator.

(** ** Detection *)

Section detection.
Context {uni : Unicode}.

(** A project is detected exactly when one of the six files is there, and a
    Dockerfile is taken as it is whatever else there is. *)
Lemma detect_spec (fs : FileSystem) (sourceDir : string) :
  let dir := fs sourceDir in
  (∀ content, stat_file "Dockerfile" dir = Some content →
     Detect fs sourceDir = inr (mkPlan StrategyDockerfile (join_path sourceDir "Dockerfile") (default "" content) "" 8080))
  ∧ ((∃ plan, Detect fs sourceDir = inr plan) ↔
     existsb (λ name, has_file name dir)
       ["Dockerfile"; "dockerfile"; "go.mod"; "package.json"; "requirements.txt"; "pyproject.toml"] = true).
Proof.
  intros dir. unfold Detect, dockerfile_plan. fold dir. split.
  - intros content Hc. cbn. by rewrite Hc.
  - assert (∀ n, has_file n dir = match stat_file n dir with Some _ => true | None => false end) as Hh.
    { intros n. unfold has_file. by destruct (stat_file n dir). }
    cbn [existsb omap list_omap]. rewrite !Hh, orb_false_r.
    destruct (stat_file "Dockerfile" dir), (stat_file "dockerfile" dir); cbn; [split; intros; first [by eexists|done]..|].
    destruct (stat_file "go.mod" dir), (stat_file "package.json" dir); cbn; [split; intros; first [by eexists|done]..|].
    destruct (stat_file "requirements.txt" dir), (stat_file "pyproject.toml" dir); cbn;
      split; first [by intros [? ?]|done|by intros; eexists].
Qed.

End detection.

(** ** Evaluations *)

#[local] Existing Instance unicode_none.

(** A hash whose results are ASCII. *)
#[local] Instance demo_crypto : Crypto := {|
  sha256_hex := λ s, if isASCII s then s else "0";
  ed25519_Sign := λ _ _, ""; ed25519_Verify := λ _ _ _, false; base64_Encode := id; base64_Decode := inr |}.

Definition shop_tree : Node :=
  NDir [("main.go", NFile (Some "package main")); ("go.mod", NFile (Some "module shop"));
        ("static", NDir [("a.css", NFile (Some "a")); ("b.css", NFile (Some "b"))])].

Definition shop_files : FileSystem := λ path, if decide (path = "/src/shop") then Some shop_tree else None.


(** The plans of the recognized languages expose the port of their
    Dockerfile. *)
Example default_ports :
  ExposedPorts DefaultGoDockerfile = [8080] ∧ ExposedPorts DefaultNodeDockerfile = [3000]
  ∧ ExposedPorts DefaultPythonDockerfile = [8000].
Proof. vm_compute. done. Qed.

Example exposed_ports_ex :
  ExposedPorts "FROM x
EXPOSE 8080/tcp, 9090 8080
  EXPOSE 70000 53/udp" = [8080; 9090; 53].
Proof. vm_compute. reflexivity. Qed.

(** A pair of ports is no number. *)
Example port_pairs_are_dropped : ExposedPorts "EXPOSE 8080:80" = [].
Proof. vm_compute. reflexivity. Qed.

(** The instructions of a Dockerfile may be written in small letters. *)
Example small_letters_not_found : ExposedPorts "expose 8080" = [].
Proof. vm_compute. reflexivity. Qed.

(** The spaces of the pattern go over the end of a line: after an EXPOSE without
    ports, the next instruction is taken for its ports. *)
Example next_line_is_taken : ExposedPorts "EXPOSE
WORKDIR 8080" = [8080].
Proof. vm_compute. reflexivity. Qed.

(** Only the contents of the files are hashed, one after the other: files can
    change their names and swap their text at the border. *)
Example moved_text_same_image :
  let tree names := NDir [("Dockerfile", NFile (Some "FROM x")); names.1; names.2] in
  let build t := EphemeralBuild (λ _, Some t) None (mkBuildRequest "p" "/s" (Some (mkPlan StrategyGo "" "" "" 0)) "p:1" ∅) in
  build (tree (("a.sh", NFile (Some "rm ")), ("b.txt", NFile (Some "tmp"))))
  = build (tree (("run.sh", NFile (Some "rm tm")), ("z", NFile (Some "p")))).
Proof. vm_compute. reflexivity. Qed.

Example sanitized_ex :
  SanitizeEnvironment {[ "PORT" := "80"; "Database_Url" := "x"; "GITHUB_TOKEN" := "y"; "UPSTREAM" := "http://control-plane" ]}
  = {[ "PORT" := "80" ]}.
Proof. vm_compute. reflexivity. Qed.
