(* ===== verification/BuildWorkers.v ===== *)
(** * Build workers: internal/build/{build_worker,worker_sandbox}.go

    The nodes that execute builds, the pool of their clients, and the sandbox
    that has the scheduler choose a node. The nodes, the pool and the registry
    of the workers are one state, since a node that is killed in the middle of
    a build drains itself in the registry. A node's client is the node. *)

From stdpp Require Import base option gmap strings list pretty.
From Stdlib Require Import ZArith Lia Ascii.
From S2P Require Import Prelude GoLib GoFloat GoTime PtrStore Workers Scheduler Deployments Fleet Platform Registry Http Json Build.

(** ** build_worker.go *)

Definition ErrWorkerKilled : error := "build worker terminated mid-build: node crash/killed".

Record BuildWorkerNodeConfig := mkBuildNodeConfig {
  bc_WorkerKey : string;
  bc_Hostname : string;
  bc_IPAddress : string;
  bc_Port : Z;
  bc_Capacity : Z;
  bc_Labels : gmap string string
}.

#[export] Instance BuildWorkerNodeConfig_eta : Settable BuildWorkerNodeConfig := λ c,
  mkBuildNodeConfig (bc_WorkerKey c) (bc_Hostname c) (bc_IPAddress c) (bc_Port c) (bc_Capacity c) (bc_Labels c).

(** [bn_midBuildHook] and [bn_registry] tell whether the pointers are set. *)
Record BuildWorkerNode := mkBuildNode {
  bn_cfg : BuildWorkerNodeConfig;
  bn_workerID : string;
  bn_killed : bool;
  bn_buildCount : Z;
  bn_midBuildHook : bool;
  bn_registry : bool
}.

#[export] Instance BuildWorkerNode_eta : Settable BuildWorkerNode := λ n,
  mkBuildNode (bn_cfg n) (bn_workerID n) (bn_killed n) (bn_buildCount n) (bn_midBuildHook n) (bn_registry n).

Definition NewBuildWorkerNode (cfg : BuildWorkerNodeConfig) : BuildWorkerNode :=
  let cfg := if bc_Capacity cfg <=? 0 then cfg <| bc_Capacity := 4 |> else cfg in
  mkBuildNode (cfg <| bc_Labels ::= <["capability" := CapabilityBuild]> |>) "" false 0 false false.

(** The registry, the nodes by pointer, and the clients of the pool. *)
Record BuildSys (WR : Type) := mkBuildSys {
  by_registry : Registry WR;
  by_nodes : gmap nat BuildWorkerNode;
  by_pool : gmap string nat;
  by_draws : nat
}.
Arguments mkBuildSys {WR} _ _ _ _.
Arguments by_registry {WR} _.
Arguments by_nodes {WR} _.
Arguments by_pool {WR} _.
Arguments by_draws {WR} _.

#[export] Instance BuildSys_eta WR : Settable (BuildSys WR) := λ s,
  mkBuildSys (by_registry s) (by_nodes s) (by_pool s) (by_draws s).

Section nodes.
Context {ent : Entropy} {uni : Unicode} {cr : Crypto} {WR : Type} `{!WorkerRepository WR}.
Implicit Types s : BuildSys WR.

Definition on_node (l : nat) (f : BuildWorkerNode → BuildWorkerNode) s : BuildSys WR := s <| by_nodes ::= alter f l |>.

Definition IsKilled (l : nat) s : bool := match by_nodes s !! l with Some n => bn_killed n | None => false end.

Definition SetMidBuildHook (l : nat) s : BuildSys WR := on_node l (λ n, n <| bn_midBuildHook := true |>) s.

(** [Register] of the node. *)
Definition node_Register (l : nat) s : (error + Worker) * BuildSys WR :=
  match by_nodes s !! l with
  | None => (inl "", s)
  | Some n =>
    let c := bn_cfg n in
    let d := by_draws s in
    let s := on_node l (λ n, n <| bn_registry := true |>) s in
    let '(r, reg) := Register (now_at d) (now_at (S d)) (uuid_at d)
                       (mkRegisterParams (bc_WorkerKey c) (bc_Hostname c) (bc_IPAddress c) (bc_Port c) (bc_Capacity c) (bc_Labels c))
                       (by_registry s) in
    let s := s <| by_registry := reg |> <| by_draws ::= λ n, S (S n) |> in
    match r with
    | inl err => (inl ("failed to register build worker: " +:+ err), s)
    | inr w => (inr w, on_node l (λ n, n <| bn_workerID := w_ID w |>) s)
    end
  end.

(** A tick of [StartHeartbeat] beats, when the node has registered. *)
Definition node_beat (l : nat) s : BuildSys WR :=
  match by_nodes s !! l with
  | Some n =>
    if bn_killed n then s
    else if bn_registry n && bool_decide (bn_workerID n ≠ "") then
      let d := by_draws s in
      s <| by_registry := (Heartbeat (now_at d) (now_at (S d)) (bn_workerID n) (by_registry s)).2 |>
        <| by_draws ::= λ n, S (S n) |>
    else s
  | None => s
  end.

(** [Kill] drains the worker in the registry, once. *)
Definition Kill (l : nat) s : BuildSys WR :=
  match by_nodes s !! l with
  | Some n =>
    if bn_killed n then s
    else
      let s := on_node l (λ n, n <| bn_killed := true |>) s in
      if bn_registry n then
        let d := by_draws s in
        s <| by_registry := (Drain (now_at d) (now_at (S d)) (bc_WorkerKey (bn_cfg n)) (by_registry s)).2 |>
          <| by_draws ::= λ n, S (S n) |>
      else s
  | None => s
  end.

Definition Stop (l : nat) s : BuildSys WR := Kill l s.

(** The goroutine of [StartHeartbeat]: a tick ends it when the node was killed,
    as does the channel that [Kill] closes. *)
Definition node_tick (l : nat) (_ : unit) s : bool * BuildSys WR :=
  match by_nodes s !! l with
  | Some n => if bn_killed n then (false, s) else (true, node_beat l s)
  | None => (false, s)
  end.

Definition StartHeartbeat s : Loop (BuildSys WR) := go_loop s.

Definition node_kill (l : nat) (lp : Loop (BuildSys WR)) : Loop (BuildSys WR) :=
  loop_stop (lp <| lp_state ::= Kill l |>).

(** What the hook of a node does when a build calls it. *)
Variable hook : nat → BuildSys WR → BuildSys WR.

(** The body between the two updates of the build count; [done_] is the error of
    the context, when it is over. *)
Definition build_on (fs : FileSystem) (done_ : option error) (l : nat) (n : BuildWorkerNode) (req : BuildRequest) s :
    (error + BuildResult) * BuildSys WR :=
  let dir := fs (bq_SourceDir req) in
  if decide (bq_SourceDir req = "") then (inl "build failed: source directory is empty", s)
  else match build_failure (bq_SourceDir req) dir with
  | Some err => (inl err, s)
  | None =>
    let s := if bn_midBuildHook n then hook l s else s in
    if IsKilled l s then (inl ErrWorkerKilled, s)
    else match done_ with
    | Some err => (inl err, s)
    | None =>
      let content := match bq_Plan req with Some plan => bp_DockerfileContent plan | None => "" end in
      let payload := image_payload content (bq_ImageTag req) (source_bytes (bq_SourceDir req) dir) in
      let digest := payload_digest payload in
      (inr (mkBuildResult (bq_ImageTag req) digest payload
              ("Successfully built " +:+ bq_ImageTag req +:+ " on worker " +:+ bc_WorkerKey (bn_cfg n)
               +:+ " with digest " +:+ digest)
              (match bq_Plan req with Some plan => ExposedPorts (bp_DockerfileContent plan) | None => [] end)), s)
    end
  end.

Definition count_builds (delta : Z) (n : BuildWorkerNode) : BuildWorkerNode :=
  n <| bn_buildCount ::= λ c, int32 (c + delta) |>.

Definition ExecuteBuild (fs : FileSystem) (done_ : option error) (l : nat) (req : BuildRequest) s :
    (error + BuildResult) * BuildSys WR :=
  match by_nodes s !! l with
  | None => (inl "", s)
  | Some n =>
    if bn_killed n then (inl ErrWorkerKilled, s)
    else
      let '(r, s) := build_on fs done_ l n req (on_node l (count_builds 1) s) in
      (r, on_node l (count_builds (-1)) s)
  end.

(** ** worker_sandbox.go *)

Definition RegisterWorker (key : string) (client : nat) s : BuildSys WR := s <| by_pool ::= <[key := client]> |>.
Definition UnregisterWorker (key : string) s : BuildSys WR := s <| by_pool ::= delete key |>.

Definition GetClient (w : Worker) s : error + nat :=
  match by_pool s !! w_WorkerKey w, by_pool s !! w_ID w, by_pool s !! Address w with
  | Some c, _, _ | None, Some c, _ | None, None, Some c => inr c
  | None, None, None =>
    inl ("no build client registered for worker " +:+ w_WorkerKey w +:+ " (" +:+ Address w +:+ ")")
  end.

(** [ws_registry] tells whether the sandbox has the registry. *)
Record WorkerSandbox := mkWorkerSandbox { ws_sched : option Scheduler; ws_registry : bool }.

Definition build_requirement : WorkloadRequirement := mkReq "" 1 {[ "capability" := CapabilityBuild ]}.

Definition book (ws : WorkerSandbox) (w : Worker) (delta : Z) s : BuildSys WR :=
  if ws_registry ws then s <| by_registry ::= UpdateWorkload (w_WorkerKey w) delta |> else s.

(** The dispatch to the node that was chosen. *)
Definition dispatch (fs : FileSystem) (done_ : option error) (w : Worker) (req : BuildRequest) s :
    (error + BuildResult) * BuildSys WR :=
  match GetClient w s with
  | inl err => (inl ("failed to get build worker client: " +:+ err), s)
  | inr client => ExecuteBuild fs done_ client req s
  end.

Definition WorkerBuild (ws : WorkerSandbox) (o : Order) (fs : FileSystem) (done_ : option error) (req : BuildRequest) s :
    (error + BuildResult) * BuildSys WR :=
  match ws_sched ws with
  | None => (inl "no scheduler configured for worker build sandbox", s)
  | Some sched =>
    match SelectWorker sched o (by_registry s) build_requirement with
    | inl err => (inl ("failed to schedule build to dedicated build worker: " +:+ err), s)
    | inr w =>
      let '(r, s) := dispatch fs done_ w req (book ws w 1 s) in
      (r, book ws w (-1) s)
    end
  end.

(** The sandbox as one of the orchestrator's. *)
Definition worker_sandbox (ws : WorkerSandbox) (o : Order) (fs : FileSystem) (done_ : option error) : Sandbox (BuildSys WR) :=
  λ req s, Some (WorkerBuild ws o fs done_ req s).

End nodes.

(** ** A booking and its release *)

Section facts.
Context {ent : Entropy} {uni : Unicode} {cr : Crypto} {WR : Type} `{!WorkerRepository WR}.
Implicit Types s : BuildSys WR.

Lemma add_workload_back w : 0 ≤ w_ActiveWorkloads w → add_workload (-1) (add_workload 1 w) = w.
Proof.
  intros H. destruct w. unfold add_workload, set_field. cbn in *.
  rewrite (proj2 (Z.ltb_ge (w_ActiveWorkloads + 1) 0)) by lia. cbn.
  replace (w_ActiveWorkloads + 1 + -1) with w_ActiveWorkloads by lia. by rewrite (proj2 (Z.ltb_ge _ 0)) by lia.
Qed.

(** The workload of a registered worker, up and down again. *)
Lemma UpdateWorkload_back k (r : Registry WR) :
  reg_inv (rg_store r) → UpdateWorkload k (-1) (UpdateWorkload k 1 r) = r.
Proof.
  intros H. unfold UpdateWorkload at 2. destruct (findWorkerLocked k r) as [[l w]|] eqn:E.
  - destruct (findWorkerLocked_cell r k l w H E) as [Hp Hh].
    assert (findWorkerLocked k (write_worker l (add_workload 1 w) r) = Some (l, add_workload 1 w)) as Hf.
    { revert E. unfold findWorkerLocked, write_worker. cbn.
      destruct (st_pri (rg_store r) !! k) as [l'|]; [|destruct (st_sec (rg_store r) !! k) as [l'|]; [|done]];
        rewrite fmap_Some; intros (v & Hv & [= <- <-]); by rewrite lookup_insert_eq. }
    unfold UpdateWorkload. rewrite Hf, add_workload_back by by eapply ri_load.
    unfold write_worker, st_write. cbn. destruct r as [st repo cfg]. cbn in *. unfold set_field. cbn.
    rewrite insert_insert_eq, insert_id by done. by destruct st.
  - unfold UpdateWorkload. by rewrite E.
Qed.

Lemma book_back ws w s : reg_inv (rg_store (by_registry s)) → book ws w (-1) (book ws w 1 s) = s.
Proof.
  intros H. unfold book. destruct (ws_registry ws); [|done]. destruct s as [r nodes pool draws]. cbn in *.
  unfold set_field. cbn. by rewrite UpdateWorkload_back.
Qed.

(** ** Builds that nothing disturbs *)

Definition int32_ok (c : Z) : Prop := - 2 ^ 31 ≤ c < 2 ^ 31.

Lemma int32_back c : int32_ok c → int32 (int32 (c + 1) + -1) = c.
Proof.
  unfold int32_ok, int32. intros H.
  replace ((c + 1 + 2 ^ 31) `mod` 2 ^ 32 - 2 ^ 31 + -1 + 2 ^ 31) with ((c + 1 + 2 ^ 31) `mod` 2 ^ 32 + -1) by lia.
  rewrite Z.add_mod_idemp_l by done. rewrite Z.mod_small by lia. lia.
Qed.

(** A node whose hook is not set. *)
Definition quiet (n : BuildWorkerNode) : Prop := bn_midBuildHook n = false ∧ int32_ok (bn_buildCount n).

Lemma on_node_back l n s : by_nodes s !! l = Some n → quiet n → on_node l (count_builds (-1)) (on_node l (count_builds 1) s) = s.
Proof.
  intros Hn [_ Hq]. destruct s as [r nodes pool draws]. unfold on_node, set_field. cbn in *. f_equal.
  apply map_eq. intros k. destruct (decide (l = k)) as [<-|Hne].
  - rewrite !lookup_alter_eq, Hn. destruct n. unfold count_builds, set_field. cbn in *. by rewrite int32_back.
  - by rewrite !lookup_alter_ne.
Qed.

(** What a result of a node is. *)
Definition good_image (req : BuildRequest) (res : BuildResult) : Prop :=
  br_ImageTag res = bq_ImageTag req ∧ br_Digest res = ComputeDigest (br_ImageData res) ∧ bq_SourceDir req ≠ "".

Lemma build_on_spec hook fs done_ l n req s : bn_midBuildHook n = false →
  (build_on hook fs done_ l n req s).2 = s
  ∧ ∀ res, (build_on hook fs done_ l n req s).1 = inr res → good_image req res ∧ IsKilled l s = false ∧ done_ = None.
Proof.
  intros Hh. unfold build_on. rewrite Hh. case_decide as Hd; [done|].
  destruct (build_failure _ _); [done|]. destruct (IsKilled l s) eqn:Hk; [done|]. destruct done_; [done|].
  split; [done|]. by intros res [= <-].
Qed.

Lemma ExecuteBuild_spec hook fs done_ l req s :
  (∀ n, by_nodes s !! l = Some n → quiet n) →
  (ExecuteBuild hook fs done_ l req s).2 = s
  ∧ ∀ res, (ExecuteBuild hook fs done_ l req s).1 = inr res →
      good_image req res ∧ done_ = None ∧ ∃ n, by_nodes s !! l = Some n ∧ bn_killed n = false.
Proof.
  intros Hq. unfold ExecuteBuild. destruct (by_nodes s !! l) as [n|] eqn:E; [|done].
  destruct (bn_killed n) eqn:Hk; [done|]. specialize (Hq n eq_refl).
  destruct (build_on_spec hook fs done_ l n req (on_node l (count_builds 1) s) (proj1 Hq)) as [H2 H1].
  destruct (build_on _ _ _ _ _ _ _) as [r s']. cbn [fst snd] in *. subst s'. split; [by eapply on_node_back|].
  intros res Hr. destruct (H1 res Hr) as (Hg & _ & Hd). eauto 6.
Qed.

(** A build that is scheduled to the build workers leaves the registry, the
    nodes and the pool as they were, workload and build counts included, on
    every path; when it succeeds, the image is tagged as asked and verified by
    its digest, and it was built by a live node whose worker is a build worker
    with room for one more build. *)
Theorem worker_build_outcome (hook : nat → BuildSys WR → BuildSys WR) ws o fs done_ req s :
  reg_inv (rg_store (by_registry s)) → (∀ l n, by_nodes s !! l = Some n → quiet n) →
  let '(r, s') := WorkerBuild hook ws o fs done_ req s in
  s' = s
  ∧ ∀ res, r = inr res → good_image req res ∧ done_ = None
      ∧ ∃ w c n, w ∈ List o (by_registry s) ∧ IsBuildWorker w = true ∧ w_ActiveWorkloads w + 1 ≤ w_Capacity w
          ∧ GetClient w s = inr c ∧ by_nodes s !! c = Some n ∧ bn_killed n = false.
Proof.
  intros Hi Hq. unfold WorkerBuild. destruct (ws_sched ws) as [sched|]; [|done].
  pose proof (SelectWorker_spec sched o (by_registry s) build_requirement) as Hsel.
  destruct (SelectWorker _ _ _ _) as [err|w]; [done|]. destruct Hsel as [Hin Hf].
  assert (by_nodes (book ws w 1 s) = by_nodes s ∧ GetClient w (book ws w 1 s) = GetClient w s) as [Hnodes Hcl].
  { unfold book. by destruct (ws_registry ws). }
  unfold dispatch. rewrite Hcl. destruct (GetClient w s) as [err|c] eqn:Ec; [split; [by apply book_back|done]|].
  destruct (ExecuteBuild_spec hook fs done_ c req (book ws w 1 s)) as [H2 H1]; [intros n; rewrite Hnodes; apply Hq|].
  destruct (ExecuteBuild _ _ _ _ _ _) as [r s']. cbn [fst snd] in *. subst s'. split; [by apply book_back|].
  intros res Hr. destruct (H1 res Hr) as (Hg & Hd & n & Hn & Hk). rewrite Hnodes in Hn.
  split; [done|]. split; [done|]. exists w, c, n. split_and!; try done.
  - by rewrite <- (fe_fleet _ _ Hf).
  - exact (fe_capacity _ _ Hf).
Qed.

End facts.

(** ** A node that is registered, builds, and is killed *)

#[local] Existing Instance unicode_none.
#[local] Existing Instance demo_crypto.
#[local] Instance demo_draws : Entropy := {| uuid_at := λ n, "uuid-" +:+ pretty n; now_at := λ n, Z.of_nat n; order_at := λ _, order_id |}.

Definition builder : BuildWorkerNode := NewBuildWorkerNode (mkBuildNodeConfig "b1" "host" "10.0.0.9" 7000 0 ∅).

Abbreviation DemoBuildSys := (BuildSys MemoryWorkerRepository).

Definition build_sys : DemoBuildSys :=
  RegisterWorker "b1" 0
    (node_Register 0 (mkBuildSys (mkRegistry st_empty st_empty DefaultHealthConfig) {[ 0%nat := builder ]} ∅ 0)).2.

Definition sandbox_of_demo : WorkerSandbox := mkWorkerSandbox (Some (NewScheduler None)) true.

Definition shop_request : BuildRequest := mkBuildRequest "shop" "/src/shop" None "nebula/shop:1" ∅.

Lemma build_sys_inv : reg_inv (rg_store (by_registry build_sys)).
Proof.
  set (r0 := mkRegistry (WR := MemoryWorkerRepository) st_empty st_empty DefaultHealthConfig).
  set (p := mkRegisterParams "b1" "host" "10.0.0.9" 7000 4 {[ "capability" := CapabilityBuild ]}).
  assert (by_registry build_sys = (Register 0 1 "uuid-0" p r0).2) as -> by (vm_compute; reflexivity).
  apply reg_reachable_inv. eapply reach_step; [apply reach_empty|]. by apply step_Register.
Qed.

Lemma worker_build_outcome_witness :
  let '(r, s) := WorkerBuild (λ _ s, s) sandbox_of_demo order_id shop_files None shop_request build_sys in
  s = build_sys ∧ ∃ res, r = inr res ∧ good_image shop_request res.
Proof.
  assert (∀ l n, by_nodes build_sys !! l = Some n → quiet n) as Hq.
  { change (map_Forall (λ _ n, quiet n) (by_nodes build_sys)).
    unfold quiet, int32_ok. apply (bool_decide_unpack _). vm_compute. done. }
  pose proof (worker_build_outcome (λ _ s, s) sandbox_of_demo order_id shop_files None shop_request build_sys build_sys_inv Hq) as H.
  destruct (WorkerBuild _ _ _ _ _ _ _) as [r s] eqn:E. split; [exact (proj1 H)|].
  destruct r as [err|res]; [vm_compute in E; discriminate|].
  exists res. split; [reflexivity|]. exact (proj1 (proj2 H res eq_refl)).
Defined.

(** The workload and the state of the worker after a build. *)
Definition builder_state (s : DemoBuildSys) : list (Z * WorkerState) :=
  (λ w, (w_ActiveWorkloads w, w_State w)) <$> List order_id (by_registry s).

(** A node that is killed while it builds drains itself; its workload is
    released all the same. *)
Example killed_while_building :
  let '(r, s) := WorkerBuild Kill sandbox_of_demo order_id shop_files None shop_request (SetMidBuildHook 0 build_sys) in
  r = inl ErrWorkerKilled ∧ builder_state s = [(0, StateDraining)]
  ∧ (bn_buildCount <$> by_nodes s !! 0%nat) = Some 0
  ∧ (WorkerBuild Kill sandbox_of_demo order_id shop_files None shop_request s).1
    = inl ("failed to schedule build to dedicated build worker: no feasible workers available for placement: 1 candidates evaluated").
Proof. vm_compute. done. Qed.

(** The goroutine of a node beats until the node is killed; a tick that is taken
    after that ends it without a beat. *)
Example killed_node_is_silent :
  let beats l := (λ w, w_LastBeatAt w) <$> List order_id (by_registry (lp_state l)) in
  let l1 := loop_turn (node_tick 0) (StartHeartbeat build_sys) (LoopTick ()) in
  let l2 := node_kill 0 l1 in
  let l3 := loop_turn (node_tick 0) l2 (LoopTick ()) in
  beats l1 ≠ beats (StartHeartbeat build_sys) ∧ lp_running l2 = true
  ∧ lp_running l3 = false ∧ beats l3 = beats l1.
Proof. vm_compute. by split_and!. Qed.

(** A second node of the same key takes over the record that the first drained:
    its registration makes the worker READY again. *)
Example replaced_after_kill :
  let s := Kill 0 build_sys in
  builder_state s = [(0, StateDraining)]
  ∧ builder_state (node_Register 1 (s <| by_nodes ::= <[1%nat := builder]> |>)).2 = [(0, StateReady)].
Proof. vm_compute. done. Qed.
