(* ===== verification/DockerBuild.v ===== *)
(** * Builds by the Docker engine: internal/build/docker_builder.go

    The engine is the parameter [BuildEngine]: an image build, the inspection of
    an image and its export, on a state of the engine. The entries of the tar
    stream of a build context are its names and contents; modes and times of
    the files are left out. *)

From stdpp Require Import base option gmap strings list pretty.
From Stdlib Require Import ZArith Lia Ascii.
From S2P Require Import Prelude GoLib GoFloat GoTime PtrStore Workers Deployments Fleet Platform Registry Http Json JsonDecode Build.

Record BuildOptions := mkBuildOptions {
  bo_Tags : list string;
  bo_Dockerfile : string;
  bo_Remove : bool;
  bo_BuildArgs : gmap string string
}.

(** [ImageBuild] returns the text of the response and the error that ends
    reading it, if it is not the end of the text; [ImageInspectWithRaw] the
    identifier and the digests in repositories; [ImageSave] the payload. *)
Class BuildEngine (X : Type) := {
  be_ImageBuild : list (string * string) → BuildOptions → X → (error + (string * option error)) * X;
  be_ImageInspect : string → X → error + (string * list string);
  be_ImageSave : string → X → error + (string * option error)
}.

(** The messages of the operating system for a file that cannot be read and for
    a directory that is not there. *)
Class FileErrors := {
  fe_open : string → error;
  fe_lstat : string → error
}.

(** ** The build context *)

Section context.
Context {fe : FileErrors}.

(** The files under a directory with their relative paths, in the order of
    [filepath.Walk]. *)
Fixpoint walk_paths (rel : string) (node : Node) : list (string * option string) :=
  match node with
  | NFile content => [(rel, content)]
  | NDir entries =>
    concat ((SliceStable (λ x y : string * list (string * option string), String.ltb x.1 y.1)
      (map (λ e, match e with (n, d) => (n, walk_paths (if decide (rel = "") then n else rel +:+ "/" +:+ n) d) end)
         entries)).*2)
  end.

(** The entries, up to the first file that cannot be read. *)
Fixpoint tar_entries (sourceDir : string) (files : list (string * option string)) : error + list (string * string) :=
  match files with
  | [] => inr []
  | (rel, None) :: _ => inl (fe_open (join_path sourceDir rel))
  | (rel, Some content) :: files' =>
    match tar_entries sourceDir files' with
    | inl err => inl err
    | inr l => inr ((rel, content) :: l)
    end
  end.

(** A source that is a file has the relative path of a dot. *)
Definition dockerBuildContext (sourceDir : string) (dir : option Node) (dockerfileContent : string) :
    error + list (string * string) :=
  match dir with
  | None => inl (fe_lstat sourceDir)
  | Some node =>
    match tar_entries sourceDir (walk_paths (match node with NFile _ => "." | NDir _ => "" end) node) with
    | inl err => inl err
    | inr l => inr (l ++ [("Dockerfile", dockerfileContent)])
    end
  end.

End context.

(** ** The output of a build *)

Record BuildMessage := mkBuildMessage {
  bm_Stream : string;
  bm_Status : string;
  bm_AuxID : string;
  bm_Error : string;
  bm_Detail : string
}.

#[export] Instance BuildMessage_eta : Settable BuildMessage := λ m,
  mkBuildMessage (bm_Stream m) (bm_Status m) (bm_AuxID m) (bm_Error m) (bm_Detail m).

Section output.
Context {uni : Unicode} {jt : JsonText} {ft : FloatText}.

Definition aux_fields : list (Field BuildMessage) := [("ID", into_string "" "aux.ID" (λ s m, m <| bm_AuxID := s |>))].

Definition detail_fields : list (Field BuildMessage) :=
  [("message", into_string "" "errorDetail.message" (λ s m, m <| bm_Detail := s |>))].

(** The fields, with those of the embedded [BuildErrorMessage]. *)
Definition message_fields : list (Field BuildMessage) :=
  [("stream", into_string "" "stream" (λ s m, m <| bm_Stream := s |>));
   ("status", into_string "" "status" (λ s m, m <| bm_Status := s |>));
   ("aux", decode_struct false aux_fields (λ kind, type_error kind "" "aux" "struct { ID string }"));
   ("error", into_string "" "error" (λ s m, m <| bm_Error := s |>));
   ("errorDetail", decode_struct false detail_fields (λ kind, type_error kind "" "errorDetail" "struct { Message string }"))].

Definition max_line : Z := 1024 * 1024.

(** One line of the output: the log after it, or the error of the build. *)
Definition build_line (line log : string) : (string * error) + string :=
  let line := TrimSpace line in
  if decide (line = "") then inr log
  else if HasPrefix line "{" then
    match Unmarshal message_fields "struct" line (mkBuildMessage "" "" "" "" "") with
    | (_, Some _) => inr log
    | (m, None) =>
      if bool_decide (bm_Error m ≠ "") || bool_decide (bm_Detail m ≠ "") then inl (log, "build failed: " +:+ bm_Detail m)
      else if decide (bm_Stream m ≠ "") then inr (log +:+ bm_Stream m)
      else if decide (bm_Status m ≠ "") then inr (log +:+ bm_Status m +:+ newline)
      else if decide (bm_AuxID m ≠ "") then inr (log +:+ "image digest: " +:+ bm_AuxID m +:+ newline)
      else inr log
    end
  else inr (log +:+ line +:+ newline).

(** A line that does not fit into the buffer of the scanner ends it; [limit] is
    the size of the buffer. *)
Fixpoint scan_output (limit : Z) (readErr : option error) (lines : list string) (log : string) : string * option error :=
  match lines with
  | [] => (log, (λ err, "failed to read build output: " +:+ err) <$> readErr)
  | line :: lines' =>
    if limit <=? Z.of_nat (String.length line) then (log, Some "failed to read build output: bufio.Scanner: token too long")
    else match build_line (drop_return line) log with
    | inl (log, err) => (log, Some err)
    | inr log => scan_output limit readErr lines' log
    end
  end.

Definition collectBuildOutput (body : string * option error) : string * option error :=
  scan_output max_line body.2 (raw_lines (Split body.1 newline_char)) "".

End output.

(** ** The sandbox *)

Section sandbox.
Context {uni : Unicode} {cr : Crypto} {jt : JsonText} {ft : FloatText} {fe : FileErrors}.
Context {X : Type} `{!BuildEngine X}.

(** What follows the last at sign. *)
Fixpoint after_last_at (s : string) : option string :=
  match s with
  | EmptyString => None
  | String c s' =>
    match after_last_at s' with
    | Some t => Some t
    | None => if Ascii.eqb c "@" then Some s' else None
    end
  end.

Definition imageDigest (imageTag : string) (x : X) : error + string :=
  match be_ImageInspect imageTag x with
  | inl err => inl ("failed to inspect built image " +:+ imageTag +:+ ": " +:+ err)
  | inr (_, rd :: _) => inr (default rd (after_last_at rd))
  | inr (id, []) =>
    if decide (id = "") then inl ("built image " +:+ imageTag +:+ " has no resolvable digest") else inr id
  end.

Definition exportImage (imageTag : string) (x : X) : error + string :=
  match be_ImageSave imageTag x with
  | inl err => inl ("failed to export built image " +:+ imageTag +:+ ": " +:+ err)
  | inr (_, Some err) => inl ("failed to read exported image payload: " +:+ err)
  | inr (data, None) => inr data
  end.

(** The image of a build that went through. *)
Definition built_image (req : BuildRequest) (plan : BuildPlan) (buildLog : string) (x : X) : error + BuildResult :=
  match imageDigest (bq_ImageTag req) x with
  | inl err => inl err
  | inr digest =>
    match exportImage (bq_ImageTag req) x with
    | inl err => inl err
    | inr payload =>
      if negb (HasPrefix digest "sha256:") then inl ("unexpected image digest format: " +:+ digest)
      else
        let payloadDigest := ComputeDigest payload in
        let digest := if decide (payloadDigest = digest) then digest else payloadDigest in
        inr (mkBuildResult (bq_ImageTag req) digest payload buildLog (ExposedPorts (bp_DockerfileContent plan)))
    end
  end.

(** A result [None] is a panic, of a plan that is nil. *)
Definition DockerSandboxBuild (fs : FileSystem) (req : BuildRequest) (x : X) : option ((error + BuildResult) * X) :=
  let sanitized := SanitizeEnvironment (bq_BuildArgs req) in
  let dir := fs (bq_SourceDir req) in
  if decide (bq_SourceDir req = "") then Some (inl "build failed: source directory is empty", x)
  else match build_failure (bq_SourceDir req) dir with
  | Some err => Some (inl err, x)
  | None =>
    plan ← bq_Plan req;
    match dockerBuildContext (bq_SourceDir req) dir (bp_DockerfileContent plan) with
    | inl err => Some (inl ("failed to prepare build context: " +:+ err), x)
    | inr buildContext =>
      match be_ImageBuild buildContext (mkBuildOptions [bq_ImageTag req] "Dockerfile" true sanitized) x with
      | (inl err, x) => Some (inl ("build failed: " +:+ err), x)
      | (inr body, x) =>
        match collectBuildOutput body with
        | (_, Some err) => Some (inl err, x)
        | (buildLog, None) => Some (built_image req plan buildLog x, x)
        end
      end
    end
  end.

#[local] Instance docker_sandbox (fs : FileSystem) : Sandbox X := DockerSandboxBuild fs.

(** ** What reaches the engine, and what comes back *)

(** Only sanitized arguments and the injected Dockerfile reach the engine. *)
Definition engine_call (fs : FileSystem) (projectID sourceDir imageTag : string) (buildArgs : gmap string string)
    (ctx : list (string * string)) (opts : BuildOptions) : Prop :=
  ∃ plan files, Detect fs sourceDir = inr plan ∧ ctx = files ++ [("Dockerfile", bp_DockerfileContent plan)]
  ∧ bo_Tags opts = [imageTag] ∧ bo_Dockerfile opts = "Dockerfile"
  ∧ ∀ k v, bo_BuildArgs opts !! k = Some v → buildArgs !! k = Some v ∧ forbidden k v = false.

(** A build from source with the Docker daemon always returns, calls the daemon
    at most once, and only for a tag that the project may push, with the context
    and the sanitized arguments of the request; a result has the requested tag
    and the digest of its payload. *)
Theorem docker_build_outcome (fs : FileSystem) (projectID sourceDir imageTag : string) (buildArgs : gmap string string) (x : X) :
  ∃ r x', BuildFromSource (Sandbox0 := docker_sandbox fs) fs projectID sourceDir imageTag buildArgs x = Some (r, x')
    ∧ ((x' = x ∧ ∃ err, r = inl err)
       ∨ ∃ ctx opts, AuthorizePush projectID imageTag = None
           ∧ engine_call fs projectID sourceDir imageTag buildArgs ctx opts ∧ x' = (be_ImageBuild ctx opts x).2)
    ∧ ∀ res, r = inr res → br_ImageTag res = imageTag ∧ br_Digest res = ComputeDigest (br_ImageData res).
Proof.
  unfold BuildFromSource, sandbox_Build, docker_sandbox, DockerSandboxBuild.
  destruct (AuthorizePush projectID imageTag) as [err|] eqn:Ha; [eexists _, _; split_and!; [done|left; eauto|done]|].
  destruct (Detect fs sourceDir) as [err|plan] eqn:Hd; [eexists _, _; split_and!; [done|left; eauto|done]|].
  cbn [bq_BuildArgs bq_SourceDir bq_Plan bq_ImageTag mbind option_bind].
  case_decide; [eexists _, _; split_and!; [done|left; eauto|done]|].
  destruct (build_failure _ _) as [err|]; [eexists _, _; split_and!; [done|left; eauto|done]|].
  destruct (dockerBuildContext _ _ _) as [err|ctx] eqn:Hc; [eexists _, _; split_and!; [done|left; eauto|done]|].
  set (opts := mkBuildOptions _ _ _ _).
  assert (engine_call fs projectID sourceDir imageTag buildArgs ctx opts) as Hcall.
  { unfold dockerBuildContext in Hc. destruct (fs sourceDir) as [node|]; [|done].
    destruct (tar_entries _ _) as [|files]; [done|]. injection Hc as <-. exists plan, files.
    split_and!; try done. intros k v. cbn. unfold SanitizeEnvironment. by rewrite map_lookup_filter_Some. }
  destruct (be_ImageBuild ctx opts x) as [[err|body] x'] eqn:Eb.
  { exists (inl ("build failed: " +:+ err)), x'. split_and!; [done| |done]. right. exists ctx, opts. by rewrite Eb. }
  destruct (collectBuildOutput body) as [log [err|]].
  { exists (inl err), x'. split_and!; [done| |done]. right. exists ctx, opts. by rewrite Eb. }
  eexists _, x'. split_and!; [done|right; exists ctx, opts; by rewrite Eb|].
  intros res. unfold built_image. destruct (imageDigest _ _) as [|digest]; [done|]. destruct (exportImage _ _) as [|payload]; [done|].
  destruct (negb _); [done|]. intros [= <-]. cbn. split; [done|]. by case_decide.
Qed.

End sandbox.

(** ** Evaluations *)

#[local] Existing Instance unicode_none.
#[local] Existing Instance json_ascii.
#[local] Instance demo_numbers : FloatText := {| ft_g := λ _, "0"; ft_json := λ _, "0"; ft_parse := λ _, None |}.

Definition dq : string := String dquote EmptyString.

Example output_ex :
  collectBuildOutput ("{" +:+ dq +:+ "stream" +:+ dq +:+ ":" +:+ dq +:+ "Step 1" +:+ dq +:+ "}" +:+ newline +:+ "plain" +:+ newline
    +:+ "{" +:+ dq +:+ "aux" +:+ dq +:+ ":{" +:+ dq +:+ "ID" +:+ dq +:+ ":" +:+ dq +:+ "sha256:1" +:+ dq +:+ "}}", None)
  = ("Step 1plain" +:+ newline +:+ "image digest: sha256:1" +:+ newline, None).
Proof. vm_compute. reflexivity. Qed.

(** The message is taken from the detail even when only the error is there. *)
Example error_without_detail :
  collectBuildOutput ("{" +:+ dq +:+ "error" +:+ dq +:+ ":" +:+ dq +:+ "no space left" +:+ dq +:+ "}", None) = ("", Some "build failed: ").
Proof. vm_compute. reflexivity. Qed.
