(* ===== verification/RemoteRegistry.v ===== *)
(** * The client of an external registry: internal/registry/remote_client.go

    The client against two interfaces of what is outside: [HTTPClient] and
    [DockerImages], the two calls of the Docker daemon that it uses. The state of
    what is outside is [X].
    The client keeps a registry in memory and the digests of the tags that it
    has seen. At the end the client is composed with the embedded registry of
    RegistryServer.v. *)

From stdpp Require Import base option gmap strings list pretty.
From Stdlib Require Import ZArith Lia Ascii.
From S2P Require Import Prelude GoLib Http Json Registry RegistryServer.

(** ** The Docker client *)

(** [docker_ImagePush] is given the reference and the encoded credentials; the
    stream of its answer is read and dropped. *)
Class DockerImages (X : Type) := {
  docker_ImageTag : string → string → X → option error * X;
  docker_ImagePush : string → string → X → option error * X
}.

(** ** The client *)

Record RemoteRegistryConfig := mkRemoteConfig {
  rc_RegistryHost : string;
  rc_Username : string;
  rc_Password : string;
  rc_Insecure : bool
}.

(** [rr_dockerCli] tells whether there is a Docker client. *)
Record RemoteRegistryClient := mkRemote {
  rr_cfg : RemoteRegistryConfig;
  rr_dockerCli : bool;
  rr_fallback : MemoryRegistry;
  rr_digests : gmap string string
}.

#[export] Instance Remote_eta : Settable RemoteRegistryClient := λ c,
  mkRemote (rr_cfg c) (rr_dockerCli c) (rr_fallback c) (rr_digests c).

Definition NewRemoteRegistryClient (cfg : RemoteRegistryConfig) (dockerCli : bool) : RemoteRegistryClient :=
  mkRemote cfg dockerCli NewMemoryRegistry ∅.

Definition baseURL (cfg : RemoteRegistryConfig) : string :=
  let scheme := if rc_Insecure cfg || HasPrefix (rc_RegistryHost cfg) "localhost"
                   || HasPrefix (rc_RegistryHost cfg) "127.0.0.1" then "http" else "https" in
  scheme +:+ "://" +:+ rc_RegistryHost cfg +:+ "/v2".

Definition parseTag (tag : string) : string * string :=
  match Split tag ":" with
  | [repo; reference] => (repo, reference)
  | _ => (tag, "latest")
  end.

Definition manifest_type : string := "application/vnd.docker.distribution.manifest.v2+json".

(** A server that fails. *)
Definition server_failed (code : Z) : option error :=
  if (code =? 503) || (500 <=? code) then Some ("registry unavailable (HTTP " +:+ Itoa code +:+ ")") else None.

Section client.
Context {cr : Crypto} {uni : Unicode} {jt : JsonText} {X : Type} {net : HTTPClient X} {dk : DockerImages X}.
Implicit Types (c : RemoteRegistryClient) (x : X).

Definition manifest_url c (tag : string) : string :=
  let '(repo, reference) := parseTag tag in
  baseURL (rr_cfg c) +:+ "/" +:+ repo +:+ "/manifests/" +:+ reference.

Definition has_credentials (cfg : RemoteRegistryConfig) : bool :=
  negb (String.eqb (rc_Username cfg) "") && negb (String.eqb (rc_Password cfg) "").

(** [SetBasicAuth], when there are credentials. *)
Definition basic_auth (cfg : RemoteRegistryConfig) : list (string * string) :=
  if has_credentials cfg
  then [("Authorization", "Basic " +:+ base64_Encode (rc_Username cfg +:+ ":" +:+ rc_Password cfg))] else [].

(** The connection is tried before anything is uploaded. *)
Definition ping c x : option error * X :=
  if decide (rc_RegistryHost (rr_cfg c) = "") then (None, x)
  else
  let url := baseURL (rr_cfg c) +:+ "/" in
  match http_NewRequest "GET" url with
  | Some err => (Some ("registry ping failed: " +:+ err), x)
  | None =>
    match http_Do (mkOut "GET" url (basic_auth (rr_cfg c)) "") x with
    | (inl err, x) => (Some ("registry unavailable: " +:+ err), x)
    | (inr resp, x) =>
      let code := ir_Code resp in
      (match server_failed code with
       | Some err => Some err
       | None =>
         if (code =? 401) || (code =? 403)
         then Some ("registry authentication failed (HTTP " +:+ Itoa code
                    +:+ "): invalid credentials or unauthorized (§10.2)")
         else None
       end, x)
    end
  end.

(** The credentials for the daemon; the encoder writes the keys in order. *)
Definition registry_auth (cfg : RemoteRegistryConfig) : string :=
  if has_credentials cfg
  then json_text (JObj [("password", JStr (rc_Password cfg)); ("serveraddress", JStr (rc_RegistryHost cfg));
                        ("username", JStr (rc_Username cfg))])
  else "".

(** The push by the daemon, whose errors are only logged. *)
Definition daemon_push c (tag : string) x : X :=
  let host := rc_RegistryHost (rr_cfg c) in
  let '(targetTag, x) :=
    if HasPrefix tag (host +:+ "/") then (tag, x)
    else let targetTag := host +:+ "/" +:+ tag in
         match docker_ImageTag tag targetTag x with
         | (Some _, x) => (tag, x)
         | (None, x) => (targetTag, x)
         end in
  (docker_ImagePush targetTag (registry_auth (rr_cfg c)) x).2.

(** The upload of the manifest: the digest of the registry's answer, if any. *)
Definition upload c (tag data : string) x : (error + string) * X :=
  let reqURL := manifest_url c tag in
  match http_NewRequest "PUT" reqURL with
  | Some err => (inl ("create manifest upload request: " +:+ err), x)
  | None =>
    match http_Do (mkOut "PUT" reqURL (("Content-Type", manifest_type) :: basic_auth (rr_cfg c)) data) x with
    | (inl err, x) => (inl ("upload manifest to " +:+ reqURL +:+ ": " +:+ err), x)
    | (inr resp, x) =>
      if 400 <=? ir_Code resp
      then (inl ("upload manifest failed (HTTP " +:+ Itoa (ir_Code resp) +:+ "): " +:+ ir_Body resp), x)
      else (inr (response_Get "Docker-Content-Digest" (ir_Header resp)), x)
    end
  end.

(** Step 2 of a push: by the daemon, over HTTP, or not at all. *)
Definition push_remote c (tag data actualDigest : string) x : (error + string) * X :=
  if decide (rc_RegistryHost (rr_cfg c) = "") then (inr actualDigest, x)
  else if rr_dockerCli c then (inr actualDigest, daemon_push c tag x)
  else match upload c tag data x with
       | (inl err, x) => (inl err, x)
       | (inr d, x) => (inr (if decide (d = "") then actualDigest else d), x)
       end.

Definition remote_Push (tag data expectedDigest : string) c x : (error + string) * RemoteRegistryClient * X :=
  if decide (tag = "") then (inl "image tag cannot be empty", c, x)
  else
  let actualDigest := ComputeDigest data in
  match (if decide (expectedDigest = "") then None else VerifyDigest expectedDigest actualDigest) with
  | Some err => (inl err, c, x)
  | None =>
    match ping c x with
    | (Some err, x) => (inl err, c, x)
    | (None, x) =>
      match push_remote c tag data actualDigest x with
      | (inl err, x) => (inl err, c, x)
      | (inr digest, x) =>
        (inr digest, c <| rr_fallback ::= λ r, (Push tag data expectedDigest r).2 |> <| rr_digests ::= <[tag := digest]> |>, x)
      end
    end
  end.

Definition remote_SetAvailable (available : bool) c : RemoteRegistryClient :=
  c <| rr_fallback ::= Registry.SetAvailable available |>.

(** The headers of a request for a manifest. *)
Definition manifest_headers (cfg : RemoteRegistryConfig) : list (string * string) :=
  ("Accept", manifest_type) :: basic_auth cfg.

Definition remote_GetDigest (tag : string) c x : (error + string) * RemoteRegistryClient * X :=
  match rr_digests c !! tag with
  | Some digest => (inr digest, c, x)
  | None =>
    if decide (rc_RegistryHost (rr_cfg c) = "") then (GetDigest tag (rr_fallback c), c, x)
    else
    match http_NewRequest "HEAD" (manifest_url c tag) with
    | Some err => (inl ("failed to create manifest request: " +:+ err), c, x)
    | None =>
      match http_Do (mkOut "HEAD" (manifest_url c tag) (manifest_headers (rr_cfg c)) "") x with
      | (inl err, x) => (inl ("registry unavailable: " +:+ err), c, x)
      | (inr resp, x) =>
        match server_failed (ir_Code resp) with
        | Some err => (inl err, c, x)
        | None =>
          let digestHeader := response_Get "Docker-Content-Digest" (ir_Header resp) in
          if decide (digestHeader = "") then (GetDigest tag (rr_fallback c), c, x)
          else (inr digestHeader, c <| rr_digests ::= <[tag := digestHeader]> |>, x)
        end
      end
    end
  end.

Definition remote_Pull (tag : string) c x : (error + (string * string)) * X :=
  match Pull tag (rr_fallback c) with
  | inr image => (inr image, x)
  | inl _ =>
    if decide (rc_RegistryHost (rr_cfg c) = "") then (inl ErrImageNotFound, x)
    else
    match http_NewRequest "GET" (manifest_url c tag) with
    | Some err => (inl err, x)
    | None =>
      match http_Do (mkOut "GET" (manifest_url c tag) (manifest_headers (rr_cfg c)) "") x with
      | (inl err, x) => (inl ("registry unavailable: " +:+ err), x)
      | (inr resp, x) =>
        (match server_failed (ir_Code resp) with
         | Some err => inl err
         | None =>
           if negb (ir_Code resp =? 200)
           then inl ("remote registry returned status " +:+ Itoa (ir_Code resp) +:+ " for " +:+ tag)
           else match ir_ReadErr resp with
                | Some err => inl ("failed to read manifest body: " +:+ err)
                | None =>
                  let digest := response_Get "Docker-Content-Digest" (ir_Header resp) in
                  inr (ir_Body resp, if decide (digest = "") then ComputeDigest (ir_Body resp) else digest)
                end
         end, x)
      end
    end
  end.

Definition remote_HasImage (tag : string) c x : bool * RemoteRegistryClient * X :=
  match remote_GetDigest tag c x with
  | (inr _, c, x) => (true, c, x)
  | (inl _, c, x) => (HasImage tag (rr_fallback c), c, x)
  end.

End client.

(** ** Over the embedded registry

    A network in which the origin [base] leads to an embedded registry: a
    request for a path of plain characters reaches its handler as it is, and the
    client is given what the handler answers, without the body when only the head
    was asked for. *)

Section composed.
Context {cr : Crypto}.

Class Reaches (base : string) (net : HTTPClient EmbeddedRegistryServer) : Prop := {
  reaches_new m path : str_forall url_char path = true → http_NewRequest m (base +:+ path) = None;
  reaches_do m path h body s : m ∈ ["GET"; "HEAD"; "PUT"] → str_forall url_char path = true →
    ∃ id, let '(resp, s') := srv_ServeHTTP id (mkRequest m path body) s in
    http_Do (mkOut m (base +:+ path) h body) s
    = (inr (mkIn (hs_Code resp) (hs_Header resp) (if decide (m = "HEAD") then "" else hs_Body resp) None), s')
}.

(** The name of an image in a repository. *)
Definition image_tag (repo : list string) (reference : string) : string := join_path repo +:+ ":" +:+ reference.

Definition part_ok (p : string) : Prop :=
  str_forall url_char p = true ∧ plain p ∧ str_free ":" p = true.

Record tag_ok (repo : list string) (reference : string) : Prop := {
  tag_repo : Forall part_ok repo;
  tag_reference : part_ok reference;
  tag_nonempty : repo ≠ [];
  tag_name : "manifests" ∉ repo
}.

Lemma join_path_cons (p : string) (l : list string) : l ≠ [] → join_path (p :: l) = p +:+ "/" +:+ join_path l.
Proof. by destruct l. Qed.

Lemma join_path_app (l1 l2 : list string) :
  l1 ≠ [] → l2 ≠ [] → join_path (l1 ++ l2) = join_path l1 +:+ "/" +:+ join_path l2.
Proof.
  intros Hl Hl2. induction l1 as [|p l1 IH]; [done|]. destruct l1 as [|q l1]; [by apply join_path_cons|].
  change ((p :: q :: l1) ++ l2) with (p :: ((q :: l1) ++ l2)). rewrite !join_path_cons by done.
  rewrite IH by done. by rewrite !str_app_assoc.
Qed.

Lemma join_path_forall f (l : list string) :
  f "/"%char = true → Forall (λ p, str_forall f p = true) l → str_forall f (join_path l) = true.
Proof.
  intros Hf Hl. induction Hl as [|p l Hp _ IH]; [done|]. destruct l as [|q l]; [done|].
  rewrite join_path_cons, !str_forall_app, Hp, IH by done. cbn. by rewrite Hf.
Qed.

Lemma join_path_free c (l : list string) :
  Ascii.eqb "/" c = false → Forall (λ p, str_free c p = true) l → str_free c (join_path l) = true.
Proof.
  intros Hf Hl. induction Hl as [|p l Hp _ IH]; [done|]. destruct l as [|q l]; [done|].
  rewrite join_path_cons, !str_free_app, Hp, IH by done. cbn [str_free]. by rewrite Hf.
Qed.

Lemma parseTag_image repo reference : tag_ok repo reference → parseTag (image_tag repo reference) = (join_path repo, reference).
Proof.
  intros [Hr (_ & _ & Hc) _ _]. unfold parseTag, image_tag.
  change (":" +:+ reference) with (String ":" reference).
  rewrite Split_sep, Split_free; [done|done|]. apply join_path_free; [done|].
  eapply Forall_impl; [exact Hr|]. by intros p (_ & _ & H).
Qed.

(** The path of the API of manifests that a client asks for. *)
Definition path_of (repo : list string) (reference : string) : string :=
  "/" +:+ join_path (manifest_path repo reference).

Lemma path_of_url repo reference : tag_ok repo reference → str_forall url_char (path_of repo reference) = true.
Proof.
  intros [Hr (Hu & _) _ _]. unfold path_of. rewrite str_forall_app. cbn [str_forall]. apply andb_true_iff. split; [done|].
  apply join_path_forall; [done|]. apply Forall_cons. split; [done|]. apply Forall_app. split.
  - eapply Forall_impl; [exact Hr|]. by intros p (H & _).
  - by repeat constructor.
Qed.

Definition origin (cfg : RemoteRegistryConfig) : string :=
  (if rc_Insecure cfg || HasPrefix (rc_RegistryHost cfg) "localhost" || HasPrefix (rc_RegistryHost cfg) "127.0.0.1"
   then "http" else "https") +:+ "://" +:+ rc_RegistryHost cfg.

Lemma baseURL_origin cfg : baseURL cfg = origin cfg +:+ "/v2".
Proof. unfold baseURL, origin. by rewrite !str_app_assoc. Qed.

Lemma manifest_url_path c repo reference :
  tag_ok repo reference → manifest_url c (image_tag repo reference) = origin (rr_cfg c) +:+ path_of repo reference.
Proof.
  intros H. unfold manifest_url. rewrite parseTag_image, baseURL_origin by done. unfold path_of, manifest_path.
  destruct H as [_ _ Hne _]. rewrite join_path_cons by (by destruct repo).
  rewrite join_path_app by done. by rewrite !str_app_assoc.
Qed.

Context {uni : Unicode} {jt : JsonText} {net : HTTPClient EmbeddedRegistryServer} {dk : DockerImages EmbeddedRegistryServer}.

(** A request for a manifest is answered by [handleManifests]. *)
Lemma do_manifest c repo reference m h body s :
  Reaches (origin (rr_cfg c)) net → tag_ok repo reference → m ∈ ["GET"; "HEAD"; "PUT"] → es_available s = true →
  let '(resp, s') := handleManifests (mkRequest m (path_of repo reference) body) (manifest_path repo reference) s in
  http_NewRequest m (manifest_url c (image_tag repo reference)) = None ∧
  http_Do (mkOut m (manifest_url c (image_tag repo reference)) h body) s
  = (inr (mkIn (hs_Code resp) (hs_Header resp) (if decide (m = "HEAD") then "" else hs_Body resp) None), s').
Proof.
  intros [Hn Hd] Ht Hm Ha. rewrite manifest_url_path by done.
  destruct (Hd m (path_of repo reference) h body s Hm (path_of_url _ _ Ht)) as [id Hid].
  pose proof (path_of_url _ _ Ht) as Hu. destruct Ht as [Hr (_ & Hp & _) Hne Hname].
  rewrite (ServeHTTP_manifests id _ repo reference) in Hid; try done.
  - destruct (handleManifests _ _ _) as [resp s']. split; [|done]. by apply Hn.
  - eapply Forall_impl; [exact Hr|]. by intros q (_ & H' & _).
Qed.

(** The answer to the ping tells whether the registry is there. *)
Lemma ping_server c s :
  Reaches (origin (rr_cfg c)) net → rc_RegistryHost (rr_cfg c) ≠ "" →
  ping c s = (if es_available s then None else Some ("registry unavailable (HTTP 503)"), s).
Proof.
  intros [Hn Hd] Hh. unfold ping. rewrite decide_False by done. rewrite baseURL_origin, str_app_assoc.
  change ("/v2" +:+ "/") with "/v2/". rewrite Hn by done.
  destruct (Hd "GET" "/v2/" (basic_auth (rr_cfg c)) "" s) as [id Hid]; [set_solver|done|].
  unfold srv_ServeHTTP in Hid. destruct (es_available s); cbn in Hid; by rewrite Hid.
Qed.

(** The server after a manifest was put. *)
Definition with_manifest (repo : list string) (reference body : string) (s : EmbeddedRegistryServer) : EmbeddedRegistryServer :=
  (put_manifest (join_path repo) reference body s).2.

Lemma found_manifest repo reference body s :
  find_manifest (join_path repo) reference (with_manifest repo reference body s) = Some (body, ComputeDigest body).
Proof.
  unfold find_manifest, with_manifest, put_manifest. cbn. unfold lookup_str. rewrite !lookup_insert.
  repeat case_decide; congruence || done.
Qed.

Lemma digest_nonempty data : ComputeDigest data ≠ "".
Proof. done. Qed.

Lemma push_server c repo reference data s :
  Reaches (origin (rr_cfg c)) net → tag_ok repo reference → rc_RegistryHost (rr_cfg c) ≠ "" → rr_dockerCli c = false →
  es_available s = true →
  push_remote c (image_tag repo reference) data (ComputeDigest data) s
  = (inr (ComputeDigest data), with_manifest repo reference data s).
Proof.
  intros Hn Ht Hh Hd Ha. unfold push_remote. rewrite decide_False, Hd by done. unfold upload.
  pose proof (do_manifest c repo reference "PUT" (("Content-Type", manifest_type) :: basic_auth (rr_cfg c)) data s Hn Ht
    ltac:(set_solver) Ha) as H.
  unfold handleManifests in H. rewrite manifest_ref_path in H by apply Ht. destruct H as [-> H].
  cbn in H. rewrite H. reflexivity.
Qed.

(** A second client of the registry, or the first one when its own cache is of
    no use. *)
Lemma pull_server c repo reference data s :
  Reaches (origin (rr_cfg c)) net → tag_ok repo reference → rc_RegistryHost (rr_cfg c) ≠ "" → es_available s = true →
  find_manifest (join_path repo) reference s = Some (data, ComputeDigest data) →
  (∀ image, Pull (image_tag repo reference) (rr_fallback c) ≠ inr image) →
  remote_Pull (image_tag repo reference) c s = (inr (data, ComputeDigest data), s).
Proof.
  intros Hn Ht Hh Ha Hf Hl. unfold remote_Pull.
  destruct (Pull _ _) as [err|image]; [|by destruct (Hl image)]. rewrite decide_False by done.
  pose proof (do_manifest c repo reference "GET" (manifest_headers (rr_cfg c)) "" s Hn Ht ltac:(set_solver) Ha) as H.
  unfold handleManifests in H. rewrite manifest_ref_path in H by apply Ht. cbn in H. rewrite Hf in H.
  destruct H as [-> H]. rewrite H. reflexivity.
Qed.

Lemma digest_server c repo reference data s :
  Reaches (origin (rr_cfg c)) net → tag_ok repo reference → rc_RegistryHost (rr_cfg c) ≠ "" → es_available s = true →
  find_manifest (join_path repo) reference s = Some (data, ComputeDigest data) →
  rr_digests c !! image_tag repo reference = None →
  remote_GetDigest (image_tag repo reference) c s
  = (inr (ComputeDigest data), c <| rr_digests ::= <[image_tag repo reference := ComputeDigest data]> |>, s).
Proof.
  intros Hn Ht Hh Ha Hf Hl. unfold remote_GetDigest. rewrite Hl, decide_False by done.
  pose proof (do_manifest c repo reference "HEAD" (manifest_headers (rr_cfg c)) "" s Hn Ht ltac:(set_solver) Ha) as H.
  unfold handleManifests in H. rewrite manifest_ref_path in H by apply Ht. cbn in H. rewrite Hf in H.
  destruct H as [-> H]. rewrite H. reflexivity.
Qed.

Lemma image_tag_nonempty repo reference : tag_ok repo reference → image_tag repo reference ≠ "".
Proof. intros _. unfold image_tag. by destruct (join_path repo). Qed.

(** What a push of an image leaves in its client. *)
Definition pushed (tag data expected : string) (c : RemoteRegistryClient) : RemoteRegistryClient :=
  c <| rr_fallback ::= λ r, (Push tag data expected r).2 |> <| rr_digests ::= <[tag := ComputeDigest data]> |>.

(** What the pushing client pulls: from its own memory, or over the network. *)
Lemma pull_pushed c repo reference data expected s :
  let tag := image_tag repo reference in
  Reaches (origin (rr_cfg c)) net → tag_ok repo reference → rc_RegistryHost (rr_cfg c) ≠ "" → es_available s = true →
  expected = "" ∨ VerifyDigest expected (ComputeDigest data) = None →
  find_manifest (join_path repo) reference s = Some (data, ComputeDigest data) →
  remote_Pull tag (pushed tag data expected c) s = (inr (data, ComputeDigest data), s).
Proof.
  intros tag Hn Ht Hh Ha He Hf. destruct (mr_available (rr_fallback c)) eqn:Ea.
  - unfold remote_Pull. change (rr_fallback (pushed tag data expected c)) with (Push tag data expected (rr_fallback c)).2.
    unfold Push. rewrite Ea. cbn [negb]. rewrite decide_False by (by apply image_tag_nonempty).
    assert ((if decide (expected = "") then None else VerifyDigest expected (ComputeDigest data)) = None) as ->.
    { case_decide; [done|]. by destruct He. }
    unfold Pull, find_image. cbn [snd mr_available mr_images negb]. by rewrite lookup_insert_eq.
  - apply pull_server; try done. intros image.
    change (rr_fallback (pushed tag data expected c)) with (Push tag data expected (rr_fallback c)).2.
    unfold Push. rewrite Ea. unfold Pull, find_image. cbn [negb snd]. by rewrite Ea.
Qed.

(** An image that is pushed over HTTP through the client of an external
    registry, with the embedded registry behind the network, is there for every
    client of that registry with the digest of its payload, and for the one that
    pushed it whether its own memory is available or not; when the registry is
    not available the push fails and neither side changes. *)
Theorem remote_push_outcome c repo reference data expected s :
  let tag := image_tag repo reference in
  Reaches (origin (rr_cfg c)) net → tag_ok repo reference → rc_RegistryHost (rr_cfg c) ≠ "" → rr_dockerCli c = false →
  expected = "" ∨ VerifyDigest expected (ComputeDigest data) = None →
  let '(r, c', s') := remote_Push tag data expected c s in
  if es_available s then
    r = inr (ComputeDigest data)
    ∧ remote_Pull tag c' s' = (inr (data, ComputeDigest data), s')
    ∧ remote_GetDigest tag c' s' = (inr (ComputeDigest data), c', s')
    ∧ ∀ d, origin (rr_cfg d) = origin (rr_cfg c) → rc_RegistryHost (rr_cfg d) ≠ "" →
        ((∀ image, Pull tag (rr_fallback d) ≠ inr image) → remote_Pull tag d s' = (inr (data, ComputeDigest data), s'))
        ∧ (rr_digests d !! tag = None →
           let '(r, d', s2) := remote_GetDigest tag d s' in
           r = inr (ComputeDigest data) ∧ s2 = s' ∧ remote_HasImage tag d' s2 = (true, d', s2))
  else r = inl "registry unavailable (HTTP 503)" ∧ c' = c ∧ s' = s.
Proof.
  intros tag Hn Ht Hh Hd He. unfold remote_Push. rewrite decide_False by (by apply image_tag_nonempty).
  assert ((if decide (expected = "") then None else VerifyDigest expected (ComputeDigest data)) = None) as ->.
  { case_decide; [done|]. by destruct He. }
  rewrite ping_server by done. destruct (es_available s) eqn:Ha; [|done]. cbn.
  unfold tag. rewrite push_server by done. fold tag. fold (pushed tag data expected c).
  pose proof (found_manifest repo reference data s) as Hf.
  assert (es_available (with_manifest repo reference data s) = true) as Ha' by done.
  split_and!; [done|by apply pull_pushed| |].
  - unfold remote_GetDigest, pushed. cbn. by rewrite lookup_insert_eq.
  - intros d Ho Hdh. rewrite <- Ho in Hn. split; [intros Hl; by apply pull_server|].
    intros Hl. unfold tag. rewrite (digest_server d _ _ data) by done. split_and!; [done|done|].
    unfold remote_HasImage, remote_GetDigest. cbn. by rewrite lookup_insert_eq.
Qed.

End composed.

(** ** On a concrete network *)

#[local] Existing Instance toy_crypto.
#[local] Existing Instance unicode_none.
#[local] Existing Instance json_ascii.

Definition demo_host : string := "localhost:5000".

(** One origin, behind which the registry is; everything else has no route. *)
#[local] Instance demo_net : HTTPClient EmbeddedRegistryServer := {|
  http_NewRequest _ _ := None;
  http_Do r s :=
    if HasPrefix (or_URL r) ("http://" +:+ demo_host) then
      let '(resp, s') := srv_ServeHTTP "u" (mkRequest (or_Method r) (TrimPrefix (or_URL r) ("http://" +:+ demo_host)) (or_Body r)) s in
      (inr (mkIn (hs_Code resp) (hs_Header resp) (if decide (or_Method r = "HEAD") then "" else hs_Body resp) None), s')
    else (inl "no route to host", s) |}.

Lemma demo_reaches : Reaches ("http://" +:+ demo_host) demo_net.
Proof.
  split; [done|]. intros m path h body s _ _. exists "u". destruct (srv_ServeHTTP _ _ _) as [resp s'] eqn:E.
  unfold http_Do, demo_net. cbn [or_URL or_Method or_Body].
  assert (HasPrefix (("http://" +:+ demo_host) +:+ path) ("http://" +:+ demo_host) = true) as -> by by destruct path.
  by rewrite TrimPrefix_app, E.
Qed.

(** A daemon that cannot push. *)
#[local] Instance demo_docker : DockerImages EmbeddedRegistryServer := {|
  docker_ImageTag _ _ s := (None, s);
  docker_ImagePush _ _ s := (Some "denied", s) |}.

Definition demo_client (dockerCli : bool) : RemoteRegistryClient :=
  NewRemoteRegistryClient (mkRemoteConfig demo_host "" "" false) dockerCli.

Lemma demo_tag_ok : tag_ok ["nebula"; "shop"] "1".
Proof.
  split; [|by split_and!|done|by apply (bool_decide_unpack _); vm_compute].
  repeat constructor; done.
Qed.

Lemma remote_push_outcome_witness :
  tag_ok ["nebula"; "shop"] "1" ∧
  let '(r, c', s') := remote_Push "nebula/shop:1" "layers" "" (demo_client false) NewEmbeddedRegistryServer in
  r = inr "sha256:layers" ∧ remote_Pull "nebula/shop:1" (demo_client false) s' = (inr ("layers", "sha256:layers"), s').
Proof.
  split; [exact demo_tag_ok|].
  pose proof (remote_push_outcome (demo_client false) ["nebula"; "shop"] "1" "layers" "" NewEmbeddedRegistryServer
    demo_reaches demo_tag_ok ltac:(discriminate) eq_refl (or_introl eq_refl)) as H.
  change (image_tag ["nebula"; "shop"] "1") with "nebula/shop:1" in H.
  destruct (remote_Push _ _ _ _ _) as [[r c'] s']. destruct H as (Hr & _ & _ & Hd). split; [exact Hr|].
  destruct (Hd (demo_client false) eq_refl ltac:(discriminate)) as [Hp _]. apply Hp. discriminate.
Defined.

(** The digest of a tag is kept for ever: another client's push is not seen, and
    what is pulled does not have the digest that is reported. *)
Example stale_digest :
  let s1 := (remote_Push "p:1" "old" "" (demo_client false) NewEmbeddedRegistryServer).2 in
  let '(_, c, s2) := remote_GetDigest "p:1" (demo_client false) s1 in
  let s3 := (remote_Push "p:1" "new" "" (demo_client false) s2).2 in
  (remote_GetDigest "p:1" c s3).1.1 = inr "sha256:old" ∧ (remote_Pull "p:1" c s3).1 = inr ("new", "sha256:new").
Proof. vm_compute. done. Qed.

(** A push that the daemon refuses is a success, and the registry has nothing. *)
Example refused_push_succeeds :
  let '(r, _, s) := remote_Push "p:1" "layers" "" (demo_client true) NewEmbeddedRegistryServer in
  r = inr "sha256:layers" ∧ (remote_Pull "p:1" (demo_client false) s).1 = inl "remote registry returned status 404 for p:1".
Proof. vm_compute. done. Qed.

(** The port of a host is taken for a tag's separator. *)
Example host_with_port : parseTag "localhost:5000/shop:1" = ("localhost:5000/shop:1", "latest").
Proof. vm_compute. reflexivity. Qed.

(** A registry that answers with another digest, or another payload, is believed. *)
Example foreign_digest :
  let net : HTTPClient unit := {| http_NewRequest _ _ := None;
    http_Do _ x := (inr (mkIn 200 [("Docker-Content-Digest", "sha256:other")] "evil" None), x) |} in
  let dk : DockerImages unit := {| docker_ImageTag _ _ x := (None, x); docker_ImagePush _ _ x := (None, x) |} in
  (remote_Push (net := net) (dk := dk) "p:1" "layers" "sha256:layers" (demo_client false) tt).1.1 = inr "sha256:other"
  ∧ (remote_Pull (net := net) "p:1" (demo_client false) tt).1 = inr ("evil", "sha256:other").
Proof. vm_compute. done. Qed.
