(* ===== verification/Cli.v ===== *)
(** * The client of the command line: internal/cli/client.go

    The client of the control plane's API against [HTTPClient] and a clock: the
    requests that it sends, how it reads the answers, and the loop of a
    deployment that polls until the deployment has settled. The files of the
    configuration are in CliConfig.v. *)

From stdpp Require Import base option gmap strings list pretty.
From Stdlib Require Import ZArith Lia Ascii.
From S2P Require Import Prelude GoLib GoFloat GoTime TimeParse Http Json JsonDecode Records.

Definition CurrentClientVersion : string := "v1.0.0".
Definition HeaderClientVersion : string := "X-Nebula-Client-Version".

(** ** Errors and messages *)

(** An [APIError], or another error. *)
Inductive ClientError :=
| APIError (StatusCode : Z) (Message : string)
| PlainError (msg : error).

Definition client_error_text (e : ClientError) : error :=
  match e with
  | APIError code msg => "API error (" +:+ Itoa code +:+ "): " +:+ msg
  | PlainError msg => msg
  end.

Record CliProject := mkCliProject {
  cp_ID : string;
  cp_Name : string;
  cp_RepoURL : string;
  cp_DefaultBranch : string;
  cp_RootDir : string;
  cp_CreatedAt : Time
}.

#[export] Instance CliProject_eta : Settable CliProject := λ p,
  mkCliProject (cp_ID p) (cp_Name p) (cp_RepoURL p) (cp_DefaultBranch p) (cp_RootDir p) (cp_CreatedAt p).

Record CliDeployment := mkCliDeployment {
  cd_ID : string;
  cd_ProjectID : string;
  cd_Image : string;
  cd_ImageDigest : string;
  cd_Status : string;
  cd_Stage : string;
  cd_InstanceCount : Z;
  cd_RunningCount : Z;
  cd_CreatedAt : Time
}.

#[export] Instance CliDeployment_eta : Settable CliDeployment := λ d,
  mkCliDeployment (cd_ID d) (cd_ProjectID d) (cd_Image d) (cd_ImageDigest d) (cd_Status d) (cd_Stage d)
    (cd_InstanceCount d) (cd_RunningCount d) (cd_CreatedAt d).

(** The deployments are pointers, which may be nil. *)
Record ProjectStatus := mkProjectStatus {
  ps_Project : CliProject;
  ps_LatestDeployment : option CliDeployment;
  ps_Deployments : list (option CliDeployment);
  ps_ServiceURL : string
}.

(** [dp_Env] is [None] for the nil map. *)
Record DeployParams := mkDeployParams {
  dp_ProjectID : string;
  dp_Image : string;
  dp_SourcePath : string;
  dp_InstanceCount : Z;
  dp_Env : option (gmap string string);
  dp_PollTimeout : Z
}.

Record Client := mkClient {
  cl_Endpoint : string;
  cl_Token : string;
  cl_ClientVersion : string
}.

Definition NewClient (endpoint token : string) : Client := mkClient (trim_slashes endpoint) token CurrentClientVersion.

(** The clock, the sleep and the error of the context. *)
Class CliEnv (X : Type) := {
  clock_now : X → Time * X;
  clock_sleep : Z → X → X;
  ctx_err : X → option error
}.

Section client.
Context {uni : Unicode} {jt : JsonText} {ft : FloatText}.

(** ** What is sent and read *)

Definition cli_project_fields : list (Field CliProject) :=
  let st := "Project" in
  [("id", into_string st "id" (λ s p, p <| cp_ID := s |>)); ("name", into_string st "name" (λ s p, p <| cp_Name := s |>));
   ("repo_url", into_string st "repo_url" (λ s p, p <| cp_RepoURL := s |>));
   ("default_branch", into_string st "default_branch" (λ s p, p <| cp_DefaultBranch := s |>));
   ("root_dir", into_string st "root_dir" (λ s p, p <| cp_RootDir := s |>));
   ("created_at", into_time (λ t p, p <| cp_CreatedAt := t |>))].

Definition cli_deployment_fields : list (Field CliDeployment) :=
  let st := "Deployment" in
  [("id", into_string st "id" (λ s d, d <| cd_ID := s |>));
   ("project_id", into_string st "project_id" (λ s d, d <| cd_ProjectID := s |>));
   ("image", into_string st "image" (λ s d, d <| cd_Image := s |>));
   ("image_digest", into_string st "image_digest" (λ s d, d <| cd_ImageDigest := s |>));
   ("status", into_string st "status" (λ s d, d <| cd_Status := s |>));
   ("stage", into_string st "stage" (λ s d, d <| cd_Stage := s |>));
   ("instance_count", into_int st "instance_count" "int" (λ n d, d <| cd_InstanceCount := n |>));
   ("running_count", into_int st "running_count" "int" (λ n d, d <| cd_RunningCount := n |>));
   ("created_at", into_time (λ t d, d <| cd_CreatedAt := t |>))].

Definition zero_cli_project : CliProject := mkCliProject "" "" "" "" "" 0.
Definition zero_cli_deployment : CliDeployment := mkCliDeployment "" "" "" "" "" "" 0 0 0.

(** The payloads; the encoder writes the keys of a map in order. *)
Definition init_payload (name defaultBranch rootDir : string) : Json :=
  JObj [("default_branch", JStr defaultBranch); ("name", JStr name); ("root_dir", JStr rootDir)].

Definition deploy_payload (params : DeployParams) : Json :=
  JObj [("env", match dp_Env params with None => JNull | Some m => json_map m end);
        ("image", JStr (dp_Image params)); ("instance_count", JNum (Itoa (dp_InstanceCount params)));
        ("source_path", JStr (dp_SourcePath params))].

(** The first value of a body into a record. *)
Definition decode_one {T} (fields : list (Field T)) (ty : string) (zero : T) (resp : InResponse) : T * option error :=
  match parse_first (ir_Body resp) with
  | inl (v, _) => (decode_record fields ty v zero).1
  | inr _ => (zero, Some (default (jt_syntax_error (ir_Body resp)) (ir_ReadErr resp)))
  end.

(** The elements of a slice of pointers, with the error. *)
Fixpoint decode_list {T} (fields : list (Field T)) (ty : string) (zero : T) (l : list Json) (err : option error) :
    list (option T) * option error :=
  match l with
  | [] => ([], err)
  | JNull :: l' => let '(r, err) := decode_list fields ty zero l' err in (None :: r, err)
  | v :: l' =>
    let '(x, err', stop) := decode_record fields ty v zero in
    if stop : bool then ([Some x], err')
    else let '(r, err) := decode_list fields ty zero l' (keep_first err err') in (Some x :: r, err)
  end.

Definition decode_many {T} (fields : list (Field T)) (ty : string) (zero : T) (resp : InResponse) :
    list (option T) * option error :=
  match parse_first (ir_Body resp) with
  | inl (JArr l, _) => decode_list fields ty zero l None
  | inl (JNull, _) => ([], None)
  | inl (v, _) => ([], Some (top_mismatch ("[]*" +:+ ty) (value_kind v)))
  | inr _ => ([], Some (default (jt_syntax_error (ir_Body resp)) (ir_ReadErr resp)))
  end.

Definition as_project : InResponse → CliProject * option error := decode_one cli_project_fields "cli.Project" zero_cli_project.
Definition as_deployment : InResponse → CliDeployment * option error :=
  decode_one cli_deployment_fields "cli.Deployment" zero_cli_deployment.

(** The message of an error response. *)
Definition error_fields : list (Field (string * string)) :=
  [("error", into_string "" "error" (λ s m, (s, m.2))); ("message", into_string "" "message" (λ s m, (m.1, s)))].

Definition api_error (resp : InResponse) : ClientError :=
  APIError (ir_Code resp)
    match Unmarshal error_fields "struct { Error string; Message string }" (ir_Body resp) ("", "") with
    | ((e, m), None) =>
      if negb (String.eqb e "") then e else if negb (String.eqb m "") then m else ir_Body resp
    | (_, Some _) => TrimSpace (ir_Body resp)
    end.

(** ** Requests *)

Context {X : Type} {net : HTTPClient X}.
Implicit Types (c : Client) (x : X).

Definition auth_headers c : list (string * string) :=
  (if decide (cl_Token c = "") then [] else [("Authorization", "Bearer " +:+ cl_Token c)])
  ++ (if decide (cl_ClientVersion c = "") then [] else [(HeaderClientVersion, cl_ClientVersion c)]).

(** [Client.do] with the body that is sent and the value that the answer is
    decoded into; [keep] is that value when there is no error but no body. *)
Definition do {T} c (method path : string) (body : option Json) (out : InResponse → T * option error) (keep : T) x :
    option ClientError * T * X :=
  let url := cl_Endpoint c +:+ path in
  match http_NewRequest method url with
  | Some err => (Some (PlainError ("failed to create request: " +:+ err)), keep, x)
  | None =>
    let headers := [("Content-Type", "application/json"); ("Accept", "application/json")] ++ auth_headers c in
    match http_Do (mkOut method url headers (default "" (json_text <$> body))) x with
    | (inl err, x) =>
      (Some (PlainError ("connection to Control Plane failed at " +:+ cl_Endpoint c +:+ ": " +:+ err)), keep, x)
    | (inr resp, x) =>
      if (ir_Code resp <? 200) || (300 <=? ir_Code resp) then (Some (api_error resp), keep, x)
      else if ir_Code resp =? 204 then (None, keep, x)
      else match out resp with
           | (v, None) => (None, v, x)
           | (v, Some err) => (Some (PlainError ("failed to decode API response: " +:+ err)), v, x)
           end
    end
  end.

Definition get_projects c x := do c "GET" "/v1/projects" None (decode_many cli_project_fields "cli.Project" zero_cli_project) [] x.

(** The token is kept in the client whether it is accepted or not. *)
Definition Login (token : string) c x : option ClientError * Client * X :=
  if decide (token = "") then (Some (PlainError "authentication token cannot be empty"), c, x)
  else
  let c := mkClient (cl_Endpoint c) token (cl_ClientVersion c) in
  match get_projects c x with
  | (None, _, x) => (None, c, x)
  | (Some (APIError code msg), _, x) =>
    (Some (if (code =? 401) || (code =? 403)
           then PlainError "authentication failed: invalid or unauthorized token" else APIError code msg), c, x)
  | (Some e, _, x) => (Some e, c, x)
  end.

Definition InitProject (name defaultBranch rootDir : string) c x : (ClientError + CliProject) * X :=
  if decide (TrimSpace name = "") then (inl (PlainError "project name is required"), x)
  else
  match do c "POST" "/v1/projects" (Some (init_payload name defaultBranch rootDir)) as_project zero_cli_project x with
  | (Some e, _, x) => (inl e, x)
  | (None, created, x) => (inr created, x)
  end.

(** ** Deployments *)

Context {env : CliEnv X}.

Definition settled (dep : CliDeployment) : bool :=
  bool_decide (cd_Status dep ∈ ["RUNNING"; "FAILED"; "STOPPED"; "ROLLED_BACK"]).

Definition get_deployment c (id : string) x := do c "GET" ("/v1/deployments/" +:+ id) None as_deployment zero_cli_deployment x.

(** The deployment after one more poll. *)
Definition poll c (dep : CliDeployment) x : CliDeployment * X :=
  match get_deployment c (cd_ID dep) (clock_sleep (100 * Millisecond) x) with
  | (None, latest, x) => (latest, x)
  | (Some _, _, x) => (dep, x)
  end.

(** The loop until the deadline: the deployment, and the error of a context that
    is done. [None] is a loop that [fuel] turns do not end. *)
Fixpoint poll_until (fuel : nat) c (deadline : Time) (dep : CliDeployment) x : option (CliDeployment * option error * X) :=
  match fuel with
  | O => None
  | S fuel =>
    let '(t, x) := clock_now x in
    if deadline <=? t then Some (dep, None, x)
    else match ctx_err x with
    | Some err => Some (dep, Some err, x)
    | None =>
      if settled dep then Some (dep, None, x)
      else let '(dep, x) := poll c dep x in poll_until fuel c deadline dep x
    end
  end.

Definition poll_timeout (params : DeployParams) : Z :=
  if dp_PollTimeout params <=? 0 then 60 * Second else dp_PollTimeout params.

Definition post_deployment (params : DeployParams) c x :=
  do c "POST" ("/v1/projects/" +:+ dp_ProjectID params +:+ "/deployments") (Some (deploy_payload params)) as_deployment
    zero_cli_deployment x.

(** The result is the deployment, if there is one, and the error. *)
Definition Deploy (fuel : nat) (params : DeployParams) c x : option (option CliDeployment * option ClientError * X) :=
  if decide (dp_ProjectID params = "") then Some (None, Some (PlainError "project ID is required for deployment"), x)
  else if decide (dp_Image params = "" ∧ dp_SourcePath params = "")
  then Some (None, Some (PlainError "either --image or source path must be specified"), x)
  else
  match post_deployment params c x with
  | (Some e, _, x) => Some (None, Some e, x)
  | (None, dep, x) =>
    let '(t, x) := clock_now x in
    '(dep, err, x) ← poll_until fuel c (t + poll_timeout params) dep x;
    Some (Some dep,
      match err with
      | Some err => Some (PlainError err)
      | None =>
        if decide (cd_Status dep = "FAILED") then Some (PlainError ("deployment failed at stage " +:+ cd_Stage dep)) else None
      end, x)
  end.

(** ** Status and logs *)

(** The error of the list of deployments is not looked at. *)
Definition Status (projectID : string) c x : (ClientError + ProjectStatus) * X :=
  if decide (projectID = "") then (inl (PlainError "project ID is required"), x)
  else
  match do c "GET" ("/v1/projects/" +:+ projectID) None as_project zero_cli_project x with
  | (Some e, _, x) => (inl e, x)
  | (None, proj, x) =>
    let '(_, deps, x) := do c "GET" ("/v1/projects/" +:+ projectID +:+ "/deployments") None
                           (decode_many cli_deployment_fields "cli.Deployment" zero_cli_deployment) [] x in
    (inr (mkProjectStatus proj (default None (last deps)) deps (cl_Endpoint c +:+ "/services/" +:+ cp_ID proj +:+ "/")), x)
  end.

(** The lines that are printed, and the error of the scanner. *)
Fixpoint print_lines (limit : Z) (readErr : option error) (lines : list string) : string * option error :=
  match lines with
  | [] => ("", readErr)
  | line :: lines' =>
    if limit <=? Z.of_nat (String.length line) then ("", Some "bufio.Scanner: token too long")
    else let '(out, err) := print_lines limit readErr lines' in (drop_return line +:+ newline +:+ out, err)
  end.

(** [MaxScanTokenSize]. *)
Definition max_token : Z := 64 * 1024.

Definition logs_path (projectID deploymentID : string) (follow : bool) : option string :=
  (λ p, p +:+ if follow then "?follow=true" else "") <$>
  if negb (String.eqb deploymentID "") then Some ("/v1/deployments/" +:+ deploymentID +:+ "/logs")
  else if negb (String.eqb projectID "") then Some ("/v1/projects/" +:+ projectID +:+ "/logs")
  else None.

(** What is written to [out], and the error. *)
Definition Logs (projectID deploymentID : string) (follow : bool) c x : string * option ClientError * X :=
  match logs_path projectID deploymentID follow with
  | None => ("", Some (PlainError "either project ID or deployment ID must be provided"), x)
  | Some path =>
    let url := cl_Endpoint c +:+ path in
    match http_NewRequest "GET" url with
    | Some err => ("", Some (PlainError err), x)
    | None =>
      match http_Do (mkOut "GET" url (auth_headers c) "") x with
      | (inl err, x) => ("", Some (PlainError ("failed to connect to log stream: " +:+ err)), x)
      | (inr resp, x) =>
        if negb (ir_Code resp =? 200) then ("", Some (APIError (ir_Code resp) (TrimSpace (ir_Body resp))), x)
        else let '(out, err) := print_lines max_token (ir_ReadErr resp) (raw_lines (Split (ir_Body resp) (ascii_of_nat 10))) in
             (out, PlainError <$> err, x)
      end
    end
  end.

End client.
