(* ===== verification/CliFacts.v ===== *)
(** * What the client of the command line promises

    A deployment from the command line returns: the loop that polls ends by its
    deadline, and what it returns is an answer of the server. What the client
    sends is what the handlers of the API decode, and it reads what they answer. *)

From stdpp Require Import base option gmap strings list pretty.
From Stdlib Require Import ZArith Lia Ascii.
From S2P Require Import Prelude GoLib GoFloat GoTime TimeParse Workers Deployments Fleet Platform Service Projects Policy Secrets Http Json JsonDecode ApiData Api Records Cli.

(** What is promised of the clock: [time_of] is the time of a state, which no
    call turns back, and a sleep takes at least as long as it is told to. *)
Class CliEnvLaws {X} (net : HTTPClient X) (env : CliEnv X) (time_of : X → Time) : Prop := {
  clock_law x : time_of x ≤ (clock_now x).1 ∧ (clock_now x).1 ≤ time_of (clock_now x).2;
  sleep_law d x : time_of x + d ≤ time_of (clock_sleep d x);
  do_law r x : time_of x ≤ time_of (http_Do r x).2
}.

Section termination.
Context {uni : Unicode} {jt : JsonText} {ft : FloatText}.
Context {X : Type} {net : HTTPClient X} {env : CliEnv X} (time_of : X → Time) {laws : CliEnvLaws net env time_of}.
Implicit Types (c : Client) (x : X).

Lemma do_time {T} c method path body (out : InResponse → T * option error) keep x :
  time_of x ≤ time_of (do c method path body out keep x).2.
Proof.
  unfold do. destruct (http_NewRequest _ _); [cbn; lia|].
  pose proof (do_law (mkOut method (cl_Endpoint c +:+ path)
    ([("Content-Type", "application/json"); ("Accept", "application/json")] ++ auth_headers c) (default "" (json_text <$> body))) x) as H.
  destruct (http_Do _ _) as [[err|resp] x']; [done|]. repeat case_match; done.
Qed.

Lemma poll_time c dep x : time_of x + 100 * Millisecond ≤ time_of (poll c dep x).2.
Proof.
  unfold poll. pose proof (sleep_law (100 * Millisecond) x) as Hs. set (x1 := clock_sleep _ x) in *.
  pose proof (do_time c "GET" ("/v1/deployments/" +:+ cd_ID dep) None as_deployment zero_cli_deployment x1) as Hd.
  unfold get_deployment. destruct (do _ _ _ _ _ _ x1) as [[[e|] d] x']; cbn in *; lia.
Qed.

(** An answer of the server about a deployment. *)
Definition an_answer c (params : DeployParams) (dep : CliDeployment) : Prop :=
  (∃ x x', post_deployment params c x = (None, dep, x')) ∨ ∃ id x x', get_deployment c id x = (None, dep, x').

(** How the loop ends. *)
Definition poll_ends c params (deadline : Time) (r : CliDeployment * option error * X) : Prop :=
  let '(dep, err, x) := r in
  an_answer c params dep ∧
  match err with
  | Some err => ∃ x, ctx_err x = Some err
  | None => settled dep = true ∨ deadline ≤ time_of x
  end.

Lemma poll_answer c params dep x : an_answer c params dep → an_answer c params (poll c dep x).1.
Proof.
  intros H. unfold poll. destruct (get_deployment _ _ _) as [[[e|] d] x'] eqn:E; [done|]. right. eauto.
Qed.

(** As many turns as there are polls until the deadline, and one more. *)
Lemma poll_until_ends (n : nat) c params deadline dep x :
  an_answer c params dep → deadline ≤ time_of x + Z.of_nat n * (100 * Millisecond) →
  ∃ r, poll_ends c params deadline r ∧ ∀ fuel, (n < fuel)%nat → poll_until fuel c deadline dep x = Some r.
Proof.
  revert dep x. induction n as [|n IH]; intros dep x Ha Hd.
  all: destruct (clock_law x) as [H1 H2]; destruct (clock_now x) as [t x1] eqn:Et; cbn [fst snd] in H1, H2.
  - exists (dep, None, x1). split; [split; [done|right; lia]|]. intros [|fuel] Hf; [lia|]. cbn. rewrite Et.
    by rewrite (proj2 (Z.leb_le _ _)) by lia.
  - destruct (Z.leb_spec deadline t) as [Hl|Hl].
    { exists (dep, None, x1). split; [split; [done|right; lia]|]. intros [|fuel] Hf; [lia|]. cbn. rewrite Et.
      by rewrite (proj2 (Z.leb_le _ _)) by lia. }
    destruct (ctx_err x1) as [err|] eqn:Ec.
    { exists (dep, Some err, x1). split; [split; [done|eauto]|]. intros [|fuel] Hf; [lia|]. cbn. rewrite Et.
      by rewrite (proj2 (Z.leb_gt _ _)), Ec by lia. }
    destruct (settled dep) eqn:Es.
    { exists (dep, None, x1). split; [split; [done|by left]|]. intros [|fuel] Hf; [lia|]. cbn. rewrite Et.
      by rewrite (proj2 (Z.leb_gt _ _)), Ec, Es by lia. }
    pose proof (poll_time c dep x1) as Hp. pose proof (poll_answer c params dep x1 Ha) as Ha'.
    destruct (poll c dep x1) as [dep' x2] eqn:Ep. cbn [fst snd] in *.
    destruct (IH dep' x2 Ha') as (r & Hr & Hf); [lia|]. exists r. split; [done|].
    intros [|fuel] Hl'; [lia|]. cbn [poll_until]. rewrite Et, (proj2 (Z.leb_gt _ _)), Ec, Es, Ep by lia. apply Hf. lia.
Qed.

(** The turns that a deployment needs at most. *)
Definition deploy_turns (params : DeployParams) : nat := S (S (Z.to_nat (poll_timeout params / (100 * Millisecond)))).

(** How a deployment ends. *)
Definition deploy_ends c params x (r : option CliDeployment * option ClientError * X) : Prop :=
  let '(dep, err, x') := r in
  match dep with
  | None =>
    (dp_ProjectID params = "" ∧ err = Some (PlainError "project ID is required for deployment") ∧ x' = x)
    ∨ (dp_Image params = "" ∧ dp_SourcePath params = ""
       ∧ err = Some (PlainError "either --image or source path must be specified") ∧ x' = x)
    ∨ ∃ e d, err = Some e ∧ post_deployment params c x = (Some e, d, x')
  | Some dep =>
    an_answer c params dep ∧
    match err with
    | None => cd_Status dep ≠ "FAILED" ∧ (settled dep = true ∨ time_of x + poll_timeout params ≤ time_of x')
    | Some e => (cd_Status dep = "FAILED" ∧ e = PlainError ("deployment failed at stage " +:+ cd_Stage dep))
                ∨ ∃ ctx x1, ctx_err x1 = Some ctx ∧ e = PlainError ctx
    end
  end.

Lemma poll_timeout_pos params : 0 < poll_timeout params.
Proof. unfold poll_timeout. destruct (Z.leb_spec (dp_PollTimeout params) 0); [done|lia]. Qed.

Lemma deploy_ends_total params c x :
  ∃ r, deploy_ends c params x r ∧ ∀ fuel, (deploy_turns params ≤ fuel)%nat → Deploy fuel params c x = Some r.
Proof.
  unfold Deploy. case_decide as Hp; [eexists; split; [|done]; by left|].
  case_decide as Hi; [eexists; split; [|done]; right; left; destruct Hi; by split_and!|].
  destruct (post_deployment params c x) as [[[e|] dep] x1] eqn:Epost.
  { eexists. split; [|done]. right. right. eauto. }
  assert (time_of x ≤ time_of x1) as H1.
  { unfold post_deployment in Epost. match type of Epost with ?e = _ => pose proof (f_equal snd Epost) as E end.
    cbn in E. rewrite <- E. apply do_time. }
  destruct (clock_law x1) as [H2 H3]. destruct (clock_now x1) as [t x2] eqn:Et. cbn [fst snd] in H2, H3.
  pose proof (poll_timeout_pos params) as Hpos.
  destruct (poll_until_ends (S (Z.to_nat (poll_timeout params / (100 * Millisecond)))) c params (t + poll_timeout params) dep x2)
    as ([[d err] x3] & [Ha He] & Hr).
  { left. eauto. }
  { rewrite Nat2Z.inj_succ, Z2Nat.id by (apply Z.div_pos; [lia|done]).
    pose proof (Z.mul_succ_div_gt (poll_timeout params) (100 * Millisecond) ltac:(done)). lia. }
  eexists. split; [|intros fuel Hf; rewrite Hr by (unfold deploy_turns in Hf; lia); reflexivity].
  split; [done|]. destruct err as [err|]; [right; destruct He as [x' He]; eauto|].
  case_decide as Hfail; [by left|]. split; [done|]. destruct He as [He|He]; [by left|right; lia].
Qed.


End termination.

(** ** Over the wire *)

Section wire.
Context {uni : Unicode} {jt : JsonText} {ft : FloatText}.

(** A member that a strict decoder takes. *)
Lemma decode_strict {T} (fields : list (Field T)) key v l (x y : T) f :
  field_of key fields = Some f → f.2 v x = (y, None) →
  decode_members true fields ((key, v) :: l) x None = decode_members true fields l y None.
Proof. intros Hf Hv. cbn [decode_members]. by rewrite Hf, Hv. Qed.

(** A member that is unknown to a decoder that is not strict. *)
Lemma decode_unknown {T} (fields : list (Field T)) l1 l2 (x : T) :
  Forall (λ kv : string * Json, field_of kv.1 fields = None) l1 →
  decode_members_stop fields (l1 ++ l2) x None = decode_members_stop fields l2 x None.
Proof. induction 1 as [|[k v] l1 Hk _ IH]; [done|]. cbn [app decode_members_stop]. cbn in Hk. by rewrite Hk. Qed.

Lemma into_date_range {T} (set : Time → T → T) t x :
  year_in_range t = true → into_time set (json_date t) x = (set (t / Second * Second) x, None).
Proof. intros H. unfold into_time, json_date. by rewrite parse_format_seconds. Qed.

(** What the client makes of a deployment. *)
Definition seen_deployment (d : Deployment) : CliDeployment :=
  mkCliDeployment (d_ID d) (d_ProjectID d) (d_Image d) (d_ImageDigest d) (status_string (d_Status d)) (d_Stage d)
    (d_InstanceCount d) 0 (d_CreatedAt d / Second * Second).

(** The answer that a written reply is for a client, headers apart. *)
Definition answer_of (w : Writer) : InResponse := mkIn (w_status w) [] (w_Body w) None.

Lemma answer_JSON code v : answer_of (writeJSON code v NewWriter) = mkIn code [] (json_text v +:+ newline) None.
Proof. reflexivity. Qed.

Lemma parse_reply v : json_ok 0 v = true → ∃ rest, parse_first (json_text v +:+ newline) = inl (v, rest).
Proof.
  intros Hok. pose proof (json_roundtrip v newline Hok (or_intror eq_refl)) as H. unfold parse_whole in H.
  destruct (parse_first _) as [[w r]|]; [|done]. case_decide; [|done]. simplify_eq. eauto.
Qed.

#[local] Arguments decode_members_stop : simpl never.
#[local] Arguments decode_members : simpl never.

Lemma decode_request (params : DeployParams) :
  - 2 ^ 63 ≤ dp_InstanceCount params < 2 ^ 63 →
  decode_struct true deployment_fields (top_mismatch "api.DeploymentCreateRequest") (deploy_payload params) empty_deployment_request
  = (mkDeploymentCreate (dp_Image params) (dp_SourcePath params) "" (dp_InstanceCount params) (default ∅ (dp_Env params)) ∅ [], None).
Proof.
  intros Hn. unfold deploy_payload, decode_struct.
  erewrite decode_strict with (y := empty_deployment_request <| dq_Env := default ∅ (dp_Env params) |>);
    [|reflexivity|by destruct (dp_Env params); [apply (into_map_map _ _ dq_Env (λ m r, r <| dq_Env := m |>))|reflexivity]].
  erewrite decode_strict; [|reflexivity|reflexivity].
  erewrite decode_strict; [|reflexivity|by apply into_int_range].
  erewrite decode_strict; [|reflexivity|reflexivity]. by destruct (dp_Env params).
Qed.

(** A deployment as the API answers it. *)
Lemma decode_answer (d : Deployment) (instances : list Instance_) :
  year_in_range (d_CreatedAt d) = true → - 2 ^ 63 ≤ d_InstanceCount d < 2 ^ 63 →
  decode_record cli_deployment_fields "cli.Deployment" (newDeploymentResponse d instances) zero_cli_deployment
  = (seen_deployment d, None, false).
Proof.
  intros Hy Hn. unfold newDeploymentResponse, decode_record. cbn [app].
  assert (∀ key v l (x : CliDeployment), field_of key cli_deployment_fields = None →
    decode_members_stop cli_deployment_fields ((key, v) :: l) x None = decode_members_stop cli_deployment_fields l x None) as Hu.
  { intros key v l x H. apply (decode_unknown _ [(key, v)] l). by repeat constructor. }
  do 2 (erewrite decode_member; [|reflexivity|reflexivity]). rewrite Hu by reflexivity.
  do 2 (erewrite decode_member; [|reflexivity|reflexivity]). rewrite Hu by reflexivity.
  do 2 (erewrite decode_member; [|reflexivity|reflexivity]).
  erewrite decode_member; [|reflexivity|by apply into_int_range].
  rewrite decode_unknown by (unfold omit_zero; case_match; repeat constructor).
  rewrite decode_unknown by (case_match; repeat constructor).
  erewrite decode_member; [|reflexivity|by apply into_date_range].
  rewrite Hu by reflexivity. reflexivity.
Qed.

(** What the handlers of the API make of the client's request, and the client of
    their answers. *)
Record over_the_wire (params : DeployParams) (d : Deployment) (instances : list Instance_) (msg : string) : Prop := {
  wire_request : Decode true deployment_fields "api.DeploymentCreateRequest" (json_text (deploy_payload params)) empty_deployment_request
    = (mkDeploymentCreate (dp_Image params) (dp_SourcePath params) "" (dp_InstanceCount params) (default ∅ (dp_Env params)) ∅ [], None);
  wire_answer code : as_deployment (answer_of (writeJSON code (newDeploymentResponse d instances) NewWriter)) = (seen_deployment d, None);
  wire_error code : api_error (answer_of (writeErr code msg NewWriter)) = APIError code msg
}.

(** C27: What the command line sends for a deployment is decoded by the API's
    handler as the image, source, count and environment given and nothing else,
    and the client reads the fields of the deployment that the handler answers,
    its time in whole seconds, and the message of an error. *)
Theorem deploy_over_the_wire params d instances msg :
  json_ok 0 (deploy_payload params) = true → - 2 ^ 63 ≤ dp_InstanceCount params < 2 ^ 63 →
  json_ok 0 (newDeploymentResponse d instances) = true → - 2 ^ 63 ≤ d_InstanceCount d < 2 ^ 63 →
  year_in_range (d_CreatedAt d) = true → isASCII msg = true → msg ≠ "" →
  over_the_wire params d instances msg.
Proof.
  intros Hp Hn Hd Hi Hy Hm Hne. split.
  - rewrite Decode_text by done. by apply decode_request.
  - intros code. unfold as_deployment, decode_one. rewrite answer_JSON. cbn [ir_Body].
    destruct (parse_reply _ Hd) as [rest ->]. by rewrite decode_answer.
  - intros code. unfold api_error, writeErr. rewrite answer_JSON. cbn [ir_Body ir_Code]. unfold Unmarshal.
    rewrite json_roundtrip; [|by cbn; rewrite Hm|by right]. cbn.
    by destruct msg.
Qed.

End wire.
