(* ===== verification/CliDemo.v ===== *)
(** * The command line against the API

    The client of Cli.v with a network that leads to the concrete API server of
    ApiDemo.v, whose requests run through the whole tree of the router, and with
    servers that never finish. *)

From stdpp Require Import base option gmap strings list pretty.
From Stdlib Require Import ZArith Lia Ascii.
From S2P Require Import Prelude GoLib GoFloat GoTime TimeParse PtrStore ApiLogs Workers Deployments Fleet Platform Service Projects Policy Autoscaler Demo ServiceTheorems Secrets Registry Http Auth Json JsonDecode ApiData Api ApiRouter ApiFacts ApiDemo Records Cli CliFacts.

#[local] Existing Instance unicode_none.
#[local] Existing Instance demo_float_text.
#[local] Existing Instance json_ascii.

(** ** The network

    The state is the server and the clock; an answer takes a millisecond. *)

Definition api_origin : string := "http://api:8081".

Definition incoming (r : OutRequest) : Http.Request (option User) :=
  let uri := TrimPrefix (or_URL r) api_origin in
  let '(path, query, _) := Cut uri "?" in
  Http.mkRequest (or_Method r) path path query uri (foldr (λ kv h, hdr_Set kv.1 kv.2 h) ∅ (or_Header r)) (or_Body r)
    (Z.of_nat (String.length (or_Body r))) "api" "10.0.0.1:1" false None.

#[local] Instance api_net : HTTPClient (DemoApi * Z) := {|
  http_NewRequest _ _ := None;
  http_Do r x :=
    let '(o, s') := serve (incoming r) NewWriter x.1 in
    match reply_of o with
    | Some w => (inr (answer_of w), (s', x.2 + Millisecond))
    | None => (inl "context deadline exceeded", (s', x.2 + 30 * Second))
    end |}.

#[local] Instance api_env : CliEnv (DemoApi * Z) := {|
  clock_now x := (x.2, x);
  clock_sleep d x := (x.1, x.2 + d);
  ctx_err _ := None |}.

Lemma api_laws : CliEnvLaws api_net api_env snd.
Proof.
  split; [done| |].
  - intros d x. cbn. lia.
  - intros r [s t]. unfold http_Do, api_net. cbn [fst]. destruct (serve (incoming r) NewWriter s) as [o s'].
    destruct (reply_of o); cbn [snd]; unfold Millisecond, Second; lia.
Qed.

Definition alice : Client := NewClient (api_origin +:+ "/") "t-alice".

Definition shop_deploy : DeployParams := mkDeployParams "proj" "img:2" "" 1 (Some {[ "MODE" := "demo" ]}) 0.

Definition summary (d : CliDeployment) := (cd_Image d, cd_Status d, cd_InstanceCount d, cd_RunningCount d).

(** A deployment with the token of the project's user runs, and it is the state
    of the server that says so; the number of running instances is always 0 at
    the client. *)
Example alice_deploys :
  match Deploy 2 shop_deploy alice (demo_api, 0) with
  | Some (Some d, None, x) => (summary d, (λ e, lookup_str (d_Env e) "MODE") <$> v_deps (view (platform x.1)) !! cd_ID d)
  | _ => (summary zero_cli_deployment, None)
  end = (("img:2", "RUNNING", 1, 0), Some "demo").
Proof. vm_compute. reflexivity. Qed.

Definition fails {A B} (r : option ClientError * A * B) : option error := client_error_text <$> r.1.1.

(** Another user's token, and none that is known. *)
Example others_are_refused :
  match Deploy 2 shop_deploy (NewClient api_origin "t-bob") (demo_api, 0) with
  | Some (None, Some (APIError 403 msg), _) => msg | _ => "" end = "forbidden: project access denied"
  ∧ fails (Login "t-nobody" (NewClient api_origin "") (demo_api, 0)) = Some "authentication failed: invalid or unauthorized token"
  ∧ fails (Login "t-alice" (NewClient api_origin "") (demo_api, 0)) = None.
Proof. vm_compute. done. Qed.

Example status_of_project :
  match Status "proj" alice (demo_api, 0) with
  | (inr st, _) => (cp_Name (ps_Project st), summary <$> ps_LatestDeployment st, ps_ServiceURL st)
  | _ => ("", None, "")
  end = ("shop", Some ("img:1", "RUNNING", 2, 0), "http://api:8081/services/proj/").
Proof. vm_compute. reflexivity. Qed.

(** ** The theorems at these inputs *)


Definition built : Deployment :=
  mkDeployment "d1" "proj" "v1" "img:1" "sha256:0" "RUNNING" StatusBuilding "build" 2 2 ∅ ∅ (5 * Second + 7) 0.

Lemma deploy_over_the_wire_witness :
  over_the_wire shop_deploy built [] "no such image" ∧ seen_deployment built = mkCliDeployment "d1" "proj" "img:1" "sha256:0" "BUILDING" "build" 2 0 (5 * Second).
Proof.
  split; [|reflexivity].
  exact (deploy_over_the_wire shop_deploy built [] "no such image" ltac:(vm_compute; reflexivity) ltac:(cbn; lia)
    ltac:(vm_compute; reflexivity) ltac:(cbn; lia) ltac:(vm_compute; reflexivity) eq_refl ltac:(discriminate)).
Defined.

(** ** Servers that never finish

    The state is the clock. *)

Definition frozen (status : string) : HTTPClient Z := {|
  http_NewRequest _ _ := None;
  http_Do r t := (inr (answer_of (writeJSON 200 (newDeploymentResponse (built <| d_Status := parse_status status |>) []) NewWriter)), t) |}.

Definition broken : HTTPClient Z := {|
  http_NewRequest _ _ := None;
  http_Do r t :=
    (inr (answer_of (if decide (or_Method r = "POST") then writeJSON 201 (newDeploymentResponse built []) NewWriter
                     else writeErr 401 "token expired" NewWriter)), t) |}.

Definition tick : CliEnv Z := {| clock_now t := (t, t); clock_sleep d t := t + d; ctx_err _ := None |}.

Definition short_deploy : DeployParams := mkDeployParams "proj" "img:2" "" 1 None (250 * Millisecond).

Definition outcome_of (net : HTTPClient Z) : option (option string * option ClientError * Z) :=
  match Deploy (net := net) (env := tick) 5 short_deploy alice 0 with
  | Some (d, err, t) => Some (cd_Status <$> d, err, t)
  | None => None
  end.

(** A deployment that is still being built when the time is over is returned
    without an error, and so is one whose polls are all refused. *)
Example timeout_is_no_error :
  outcome_of (frozen "BUILDING") = Some (Some "BUILDING", None, 300 * Millisecond)
  ∧ outcome_of broken = Some (Some "BUILDING", None, 300 * Millisecond)
  ∧ outcome_of (frozen "FAILED") = Some (Some "FAILED", Some (PlainError "deployment failed at stage build"), 0).
Proof. vm_compute. done. Qed.

(** A line of the logs that does not fit into the scanner's buffer ends the
    output. *)
Fixpoint repeat_char (c : ascii) (n : nat) : string := match n with O => "" | S n => String c (repeat_char c n) end.

Example long_line_ends_logs :
  (print_lines max_token None ["first"; repeat_char "x" (256 * 256); "last"]).2 = Some "bufio.Scanner: token too long"
  ∧ (print_lines max_token None ["first"; repeat_char "x" (256 * 256); "last"]).1 = "first" +:+ newline.
Proof. vm_compute. done. Qed.
