(* ===== verification/CliConfig.v ===== *)
(** * The configuration of the command line: internal/cli/client.go

    The configuration is a file of indented JSON in the home directory. The
    operating system is the class [OS], with the state [X]. *)

From stdpp Require Import base option gmap strings list pretty.
From Stdlib Require Import ZArith Lia Ascii.
From S2P Require Import Prelude GoLib GoFloat Http Json JsonDecode Build.

Class OS (X : Type) := {
  os_UserHomeDir : error + string;
  os_MkdirAll : string → X → option error * X;
  os_WriteFile : string → string → X → option error * X;
  os_ReadFile : string → X → error + string
}.

(** What is written without an error is read. *)
Class OSLaws {X} (os : OS X) : Prop := {
  read_written path data x x' : os_WriteFile path data x = (None, x') → os_ReadFile path x' = inr data
}.

Record Config := mkConfig {
  cc_Endpoint : string;
  cc_Token : string;
  cc_DefaultProject : string
}.

#[export] Instance Config_eta : Settable Config := λ c, mkConfig (cc_Endpoint c) (cc_Token c) (cc_DefaultProject c).

Definition DefaultConfigFile : string := ".nebula/config.json".

(** What is before the last slash, with it. *)
Fixpoint upto_slash (s : string) : string :=
  match s with
  | EmptyString => EmptyString
  | String c s' =>
    match upto_slash s' with
    | EmptyString => if Ascii.eqb c "/" then String c EmptyString else EmptyString
    | t => String c t
    end
  end.

(** [filepath.Dir]. *)
Definition Dir (path : string) : string := clean_path (upto_slash path).

Section config.
Context {uni : Unicode} {jt : JsonText} {ft : FloatText}.

(** *** [json.MarshalIndent] with two spaces, for a struct of plain values *)

Fixpoint indent_members (l : list (string * Json)) : string :=
  match l with
  | [] => newline +:+ "}"
  | [x] => newline +:+ "  " +:+ json_string x.1 +:+ ": " +:+ json_text x.2 +:+ newline +:+ "}"
  | x :: l' => newline +:+ "  " +:+ json_string x.1 +:+ ": " +:+ json_text x.2 +:+ "," +:+ indent_members l'
  end.

Definition indent_object (l : list (string * Json)) : string :=
  match l with [] => "{}" | _ => "{" +:+ indent_members l end.

Definition config_members (cfg : Config) : list (string * Json) :=
  [("endpoint", JStr (cc_Endpoint cfg)); ("token", JStr (cc_Token cfg))] ++ omit_empty "default_project" (cc_DefaultProject cfg).

Definition config_fields : list (Field Config) :=
  let st := "Config" in
  [("endpoint", into_string st "endpoint" (λ s c, c <| cc_Endpoint := s |>));
   ("token", into_string st "token" (λ s c, c <| cc_Token := s |>));
   ("default_project", into_string st "default_project" (λ s c, c <| cc_DefaultProject := s |>))].

Context {X : Type} {os : OS X}.

(** The path of the file. *)
Definition config_path (path : string) : error + string :=
  if decide (path = "") then
    match os_UserHomeDir with
    | inl err => inl err
    | inr home => inr (join_path home DefaultConfigFile)
    end
  else inr path.

Definition SaveConfig (path : string) (cfg : Config) (x : X) : option error * X :=
  match config_path path with
  | inl err => (Some err, x)
  | inr path =>
    match os_MkdirAll (Dir path) x with
    | (Some err, x) => (Some err, x)
    | (None, x) => os_WriteFile path (indent_object (config_members cfg)) x
    end
  end.

Definition LoadConfig (path : string) (x : X) : error + Config :=
  match config_path path with
  | inl err => inl err
  | inr path =>
    match os_ReadFile path x with
    | inl err => inl err
    | inr data =>
      match Unmarshal config_fields "cli.Config" data (mkConfig "" "" "") with
      | (cfg, None) => inr cfg
      | (_, Some err) => inl err
      end
    end
  end.

(** ** Indented text is read back *)

Lemma indent_members_cons x y l :
  indent_members (x :: y :: l)
  = newline +:+ "  " +:+ json_string x.1 +:+ ": " +:+ json_text x.2 +:+ "," +:+ indent_members (y :: l).
Proof. done. Qed.

Lemma skip_indent s : skip_space (newline +:+ "  " +:+ s) = skip_space s.
Proof. done. Qed.

Lemma parse_value_space fuel d s : parse_value fuel d (String " " s) = parse_value fuel d s.
Proof. by destruct fuel. Qed.

(** One member, up to what follows its value. *)
Lemma parse_indented fuel d b k v u :
  isASCII k = true →
  parse_members (S fuel) d b (newline +:+ "  " +:+ json_string k +:+ ": " +:+ json_text v +:+ u) =
  match parse_value fuel d (json_text v +:+ u) with
  | inl (v, r) =>
    match eat "," (skip_space r) with
    | Some r => match parse_members fuel d false r with inl (l, r) => inl ((k, v) :: l, r) | inr e => inr e end
    | None => match eat "}" (skip_space r) with Some r => inl ([(k, v)], r) | None => inr Malformed end
    end
  | inr e => inr e
  end.
Proof.
  intros Hk. cbn [parse_members]. rewrite !skip_indent, json_string_app by done.
  change (skip_space (String dquote ?s)) with (String dquote s). cbn [eat]. change (Ascii.eqb dquote "}") with false.
  rewrite Ascii.eqb_refl. cbn [mbind option_bind]. rewrite string_rest_chars by done.
  change (": " +:+ json_text v +:+ u) with (String ":" (String " " (json_text v +:+ u))).
  change (skip_space (String ":" ?s)) with (String ":" s). rewrite eat_same, parse_value_space. done.
Qed.

Lemma reads_indented l fuel d b rest :
  forallb (λ kv, isASCII kv.1 && json_ok d kv.2) l = true → l ≠ [] →
  parse_members fuel d b (indent_members l +:+ rest) ≠ inr NoFuel →
  parse_members fuel d b (indent_members l +:+ rest) = inl (l, rest).
Proof.
  revert fuel b. induction l as [|[k v] l IH]; intros fuel b Hok Hne; [done|]. clear Hne.
  cbn [forallb fst snd] in Hok. rewrite !andb_true_iff in Hok. destruct Hok as [[Hk Hv] Hok].
  destruct fuel as [|fuel]; [done|].
  destruct l as [|y l].
  - cbn [indent_members fst snd]. rewrite !str_app_assoc, parse_indented by done. intros Hf.
    rewrite json_reads; [done|done|done|]. intros E. by rewrite E in Hf.
  - rewrite indent_members_cons. cbn [fst snd]. rewrite !str_app_assoc, parse_indented by done.
    change ("," +:+ indent_members (y :: l) +:+ rest) with (String "," (indent_members (y :: l) +:+ rest)). intros Hf.
    assert (parse_value fuel d (json_text v +:+ String "," (indent_members (y :: l) +:+ rest))
      = inl (v, String "," (indent_members (y :: l) +:+ rest))) as E.
    { apply json_reads; [done|done|]. intros E. by rewrite E in Hf. }
    rewrite E in *. change (skip_space (String "," ?s)) with (String "," s) in *. rewrite eat_same in *.
    rewrite IH by (done || by intros E'; rewrite E' in Hf). done.
Qed.

Lemma indent_members_ascii l :
  forallb (λ kv, isASCII kv.1 && json_ok 1 kv.2) l = true → isASCII (indent_members l) = true.
Proof.
  induction l as [|[k v] l IH]; [done|]. cbn [forallb fst snd]. rewrite !andb_true_iff. intros [[Hk Hv] Hl].
  specialize (IH Hl).
  destruct l as [|y l]; [cbn [indent_members fst snd]|rewrite indent_members_cons; cbn [fst snd]];
    rewrite !isASCII_app, json_string_ascii, (json_text_ascii v 1) by done; [done|by rewrite IH].
Qed.

Lemma parse_indent_object l :
  forallb (λ kv, isASCII kv.1 && json_ok 1 kv.2) l = true → l ≠ [] → parse_whole (indent_object l) = Some (JObj l).
Proof.
  intros Hok Hne. unfold parse_whole, parse_first. destruct l as [|x l]; [done|].
  change (indent_object (x :: l)) with (String "{" (indent_members (x :: l))).
  assert (isASCII (String "{" (indent_members (x :: l))) = true) as -> by (cbn [isASCII]; by rewrite indent_members_ascii).
  set (s := indent_members (x :: l)). set (fuel := (2 * String.length (String "{" s))%nat).
  pose proof (parse_fueled (S fuel)) as (Hf & _). specialize (Hf 0 (String "{" s) ltac:(unfold fuel; lia)).
  cbn [parse_value] in *. change (skip_space (String "{" s)) with (String "{" s) in *. cbv beta iota in *.
  change (Ascii.eqb "{" dquote) with false in *. change (Ascii.eqb "{" "[") with false in *.
  change (Ascii.eqb "{" "{") with true in *. change (max_depth <=? 0) with false in *. cbv iota in *.
  change (0 + 1) with 1 in *.
  rewrite <- (str_app_nil s) in Hf |- *. unfold s in *.
  rewrite reads_indented; [done|done|done|]. intros E. by rewrite E in Hf.
Qed.

(** A configuration of plain characters that was saved without an error is the
    one that is loaded from the same path. *)
Theorem config_roundtrip {laws : OSLaws os} (path : string) (cfg : Config) (x x' : X) :
  isASCII (cc_Endpoint cfg) = true → isASCII (cc_Token cfg) = true → isASCII (cc_DefaultProject cfg) = true →
  SaveConfig path cfg x = (None, x') → LoadConfig path x' = inr cfg.
Proof.
  intros He Ht Hp. unfold SaveConfig, LoadConfig. destruct (config_path path) as [|p]; [done|].
  destruct (os_MkdirAll _ x) as [[|] x1]; [done|]. intros Hw. rewrite (read_written _ _ _ _ Hw).
  unfold Unmarshal. rewrite parse_indent_object.
  - unfold config_members, omit_empty. destruct cfg as [e t d]. cbn in *. by case_decide; subst.
  - unfold config_members, omit_empty. case_decide; cbn; by rewrite He, Ht, ?Hp.
  - done.
Qed.

End config.

(** ** On a concrete disk *)

#[local] Existing Instance unicode_none.
#[local] Existing Instance json_ascii.

#[local] Instance demo_os : OS (gmap string string) := {|
  os_UserHomeDir := inr "/home/alice";
  os_MkdirAll _ x := (None, x);
  os_WriteFile path data x := (None, <[path := data]> x);
  os_ReadFile path x := match x !! path with Some data => inr data | None => inl "file does not exist" end |}.

Lemma demo_os_laws : OSLaws demo_os.
Proof. split. intros path data x x' [= <-]. cbn. by rewrite lookup_insert_eq. Qed.

Definition demo_cli_config : Config := mkConfig "http://api:8081" "t-alice" "".

Definition demo_disk : gmap string string := (SaveConfig "" demo_cli_config ∅).2.

Lemma demo_saved : SaveConfig "" demo_cli_config ∅ = (None, demo_disk).
Proof. vm_compute. reflexivity. Qed.

Lemma config_roundtrip_witness :
  SaveConfig "" demo_cli_config ∅ = (None, demo_disk) ∧ LoadConfig "" demo_disk = inr demo_cli_config.
Proof.
  split; [exact demo_saved|].
  exact (config_roundtrip (laws := demo_os_laws) "" demo_cli_config ∅ demo_disk eq_refl eq_refl eq_refl demo_saved).
Defined.

Example config_file : (map_to_list demo_disk).*1 = ["/home/alice/.nebula/config.json"].
Proof. vm_compute. reflexivity. Qed.

Example config_text :
  indent_object (config_members (mkConfig "e" "t" "p")) =
"{
  " +:+ quote "endpoint" +:+ ": " +:+ quote "e" +:+ ",
  " +:+ quote "token" +:+ ": " +:+ quote "t" +:+ ",
  " +:+ quote "default_project" +:+ ": " +:+ quote "p" +:+ "
}".
Proof. vm_compute. reflexivity. Qed.
