(* ===== verification/ControlPlane.v ===== *)
(** * The control plane's RPC service and the sender of heartbeats

    internal/grpcapi/controlplane_service.go on the platform of Platform.v, whose
    registry is the one that the server is given, and internal/heartbeat/sender.go
    against the interface of its client, which the service implements. *)

From stdpp Require Import base option gmap strings list pretty.
From Stdlib Require Import ZArith Lia Ascii.
From S2P Require Import Prelude GoLib GoFloat PtrStore Workers Scheduler LoadBalancer HA Deployments Fleet Platform Service ServiceFacts Runtime RuntimeFacts WorkerService Demo ServiceTheorems RuntimeFleet.

(** ** The messages *)

Record RegisterWorkerRequest := mkRegisterWorker {
  rw_WorkerKey : string;
  rw_Hostname : string;
  rw_IpAddress : string;
  rw_GrpcPort : Z;
  rw_Capacity : Z;
  rw_Labels : gmap string string
}.

Record RegisterWorkerResponse := mkRegisterWorkerResponse {
  rwr_WorkerId : string;
  rwr_Success : bool;
  rwr_Message : string
}.

Record HeartbeatRequest := mkHeartbeat { hq_WorkerId : string; hq_Timestamp : Z }.
Record HeartbeatResponse := mkHeartbeatResponse { hp_Success : bool; hp_RecordedAt : Z }.

Record DrainWorkerResponse := mkDrainResponse {
  dw_WorkerId : string;
  dw_Success : bool;
  dw_State : WorkerState
}.

Record CreateDeploymentRequest := mkCreateRequest {
  cq_ProjectId : string;
  cq_Image : string;
  cq_SourcePath : string;
  cq_InstanceCount : Z;
  cq_Env : gmap string string;
  cq_Labels : gmap string string
}.

Record CreateDeploymentResponse := mkCreateResponse {
  cr_DeploymentId : string;
  cr_Status : string;
  cr_InstanceIds : list string;
  cr_ImageDigest : string;
  cr_Error : string
}.

Record DeploymentInstanceInfo := mkInstanceInfo {
  di_InstanceId : string;
  di_WorkerId : string;
  di_Status : string;
  di_ContainerId : string
}.

Record GetDeploymentResponse := mkGetDeployment {
  gd_DeploymentId : string;
  gd_ProjectId : string;
  gd_Image : string;
  gd_Status : string;
  gd_Instances : list DeploymentInstanceInfo
}.

(** [t.Unix()], for a time in nanoseconds since the year 1. *)
Definition Unix (t : Time) : Z := t / Second - 62135596800.

Section service.
Context {DR IR WR F X : Type}.
Context {ent : Entropy} `{!DeploymentRepository DR, !InstanceRepository IR, !WorkerRepository WR}.
Context `{!WorkerClientFactory F, !Externals X} {uni : Unicode} {net : NetURL} {grpc : GRPC}.

Abbreviation state := (Sys DR IR WR F X).
Abbreviation M := (ST state).

(** ** The handlers *)

Definition on_registry {A} (f : Registry WR → A * Registry WR) : M A :=
  λ s, let '(a, r) := f (s_registry s) in (a, s <| s_registry := r |>).

Definition register_params (req : RegisterWorkerRequest) : RegisterParams :=
  mkRegisterParams (rw_WorkerKey req) (rw_Hostname req) (rw_IpAddress req) (rw_GrpcPort req) (rw_Capacity req) (rw_Labels req).

Definition cps_RegisterWorker (req : RegisterWorkerRequest) : M (error + RegisterWorkerResponse) :=
  if decide (rw_WorkerKey req = "") then ret (inl (grpc_status InvalidArgument "worker_key is required"))
  else
    let! uuid := draw_uuid in let! now := draw_now in let! now' := draw_now in
    let! r := on_registry (Register now now' uuid (register_params req)) in
    ret (match r with
         | inl err => inl (grpc_status Internal ("failed to register worker: " +:+ err))
         | inr w => inr (mkRegisterWorkerResponse (w_ID w) true "worker registered successfully")
         end).

(** The time of the request is not looked at. *)
Definition cps_Heartbeat (req : HeartbeatRequest) : M (error + HeartbeatResponse) :=
  if decide (hq_WorkerId req = "") then ret (inl (grpc_status InvalidArgument "worker_id is required"))
  else
    let! now := draw_now in let! now' := draw_now in
    let! err := on_registry (Heartbeat now now' (hq_WorkerId req)) in
    match err with
    | Some _ => ret (inr (mkHeartbeatResponse false 0))
    | None => let! t := draw_now in ret (inr (mkHeartbeatResponse true (Unix t)))
    end.

Definition cps_DrainWorker (workerId : string) : M (error + DrainWorkerResponse) :=
  if decide (workerId = "") then ret (inl (grpc_status InvalidArgument "worker_id is required"))
  else
    let! now := draw_now in let! now' := draw_now in
    let! r := on_registry (Drain now now' workerId) in
    ret (match r with
         | inl err => inl (grpc_status NotFound ("failed to drain worker: " +:+ err))
         | inr w => inr (mkDrainResponse (w_ID w) true (w_State w))
         end).

Definition create_params (req : CreateDeploymentRequest) : CreateDeploymentParams :=
  mkCreateParams (cq_ProjectId req) (cq_SourcePath req) (cq_Image req) (cq_InstanceCount req) (cq_Env req) (cq_Labels req) [].

(** [None] is a panic. *)
Definition cps_CreateDeployment (req : CreateDeploymentRequest) : M (option (error + CreateDeploymentResponse)) :=
  if decide (cq_Image req = "" ∧ cq_SourcePath req = "")
  then ret (Some (inl (grpc_status InvalidArgument "either image or source_path is required")))
  else
    let! ' (dep, instances, err) := CreateAndDeploy (create_params req) in
    ret (match err, dep with
         | Some err, _ => Some (inr (mkCreateResponse (default "" (d_ID <$> dep)) "FAILED" [] "" err))
         | None, Some dep =>
           Some (inr (mkCreateResponse (d_ID dep) (status_string (d_Status dep)) (i_ID <$> instances) (d_ImageDigest dep) ""))
         | None, None => None
         end).

Definition instance_info (i : Instance_) : DeploymentInstanceInfo :=
  mkInstanceInfo (i_ID i) (i_WorkerID i) (i_Status i) (i_ContainerID i).

Definition cps_GetDeployment (deploymentId : string) : M (error + GetDeploymentResponse) :=
  if decide (deploymentId = "") then ret (inl (grpc_status InvalidArgument "deployment_id is required"))
  else
    let! r := GetDeployment deploymentId in
    ret (match r with
         | inl err => inl (grpc_status NotFound ("deployment not found: " +:+ err))
         | inr (dep, instances) =>
           inr (mkGetDeployment (d_ID dep) (d_ProjectID dep) (d_Image dep) (status_string (d_Status dep)) (instance_info <$> instances))
         end).

End service.

(** ** sender.go *)

(** The client of the service that the sender is given, with its state. *)
Class ControlPlaneClient (Y : Type) := cpc_Heartbeat : HeartbeatRequest → Y → (error + HeartbeatResponse) * Y.

(** [hs_hook] tells whether there is a hook, and [hs_told] what it was called
    with. *)
Record HeartbeatSender := mkSender {
  hs_workerID : string;
  hs_interval : Duration;
  hs_paused : bool;
  hs_stopped : bool;
  hs_hook : bool;
  hs_told : list bool
}.

#[export] Instance Sender_eta : Settable HeartbeatSender := λ h,
  mkSender (hs_workerID h) (hs_interval h) (hs_paused h) (hs_stopped h) (hs_hook h) (hs_told h).

Definition NewHeartbeatSender (workerID : string) (interval : Duration) : HeartbeatSender :=
  mkSender workerID (if interval <=? 0 then Second else interval) false false false [].

Definition SetSendHook (hook : bool) (h : HeartbeatSender) : HeartbeatSender := h <| hs_hook := hook |>.
Definition SetPaused (paused : bool) (h : HeartbeatSender) : HeartbeatSender := h <| hs_paused := paused |>.
Definition sender_Stop (h : HeartbeatSender) : HeartbeatSender := h <| hs_stopped := true |>.

Definition tell (success : bool) (h : HeartbeatSender) : HeartbeatSender :=
  if hs_hook h then h <| hs_told ::= λ l, l ++ [success] |> else h.

Section sender.
Context {Y : Type} {client : ControlPlaneClient Y}.

Definition SendOne (now : Time) (h : HeartbeatSender) (y : Y) : option error * HeartbeatSender * Y :=
  if hs_paused h then (None, tell false h, y)
  else
    match cpc_Heartbeat (mkHeartbeat (hs_workerID h) (Unix now)) y with
    | (inl err, y) => (Some err, tell false h, y)
    | (inr _, y) => (None, tell true h, y)
    end.

(** What the goroutine of [Start] wakes up for, and the calls that other
    goroutines make in between. *)
Inductive SenderEvent := Tick (now : Time) | CtxDone | StopChosen | Pausing (paused : bool) | Hooking (hook : bool).

Fixpoint beat_loop (events : list SenderEvent) (h : HeartbeatSender) (y : Y) : HeartbeatSender * Y :=
  match events with
  | [] => (h, y)
  | CtxDone :: _ | StopChosen :: _ => (h, y)
  | Tick now :: events => let '(_, h, y) := SendOne now h y in beat_loop events h y
  | Pausing b :: events => beat_loop events (SetPaused b h) y
  | Hooking b :: events => beat_loop events (SetSendHook b h) y
  end.

(** The first heartbeat is sent at once. *)
Definition sender_Start (now : Time) (events : list SenderEvent) (h : HeartbeatSender) (y : Y) : HeartbeatSender * Y :=
  let '(_, h, y) := SendOne now h y in beat_loop events h y.

End sender.

(** ** A worker's registration and its heartbeats *)

Section facts.
Context {DR IR WR F X : Type}.
Context {ent : Entropy} `{!DeploymentRepository DR, !InstanceRepository IR, !WorkerRepository WR, !WorkerRepositoryLaws WR}.
Context `{!WorkerClientFactory F, !Externals X} {uni : Unicode} {net : NetURL} {grpc : GRPC}.

Abbreviation state := (Sys DR IR WR F X).

(** The service as the sender's client. *)
#[local] Instance direct_client : ControlPlaneClient state := λ req s, cps_Heartbeat req s.

(** The record of a registered worker. *)
Definition registered (req : RegisterWorkerRequest) (w : Worker) : Prop :=
  w_WorkerKey w = rw_WorkerKey req ∧ w_Hostname w = rw_Hostname req ∧ w_IPAddress w = rw_IpAddress req
  ∧ w_GRPCPort w = rw_GrpcPort req ∧ w_Capacity w = rw_Capacity req ∧ w_Labels w = rw_Labels req
  ∧ w_State w = StateReady ∧ w_Health w = HealthHealthy ∧ w_Schedulable w = true.

(** A write to the cell of a key shows under that key and no other. *)
Lemma linked_pri (st : Store Worker) key l w id :
  st_wf st → (∀ k, st_pri st !! k = Some l → k = key) →
  let st' := link_pri key l (st_write l w st) in
  let st' := if decide (id = "") then st' else link_sec id l st' in
  get_pri key st' = Some w ∧ ∀ k, k ≠ key → get_pri k st' = get_pri k st.
Proof.
  intros Hwf Hl. cbv zeta.
  assert (∀ k, get_pri k (if decide (id = "") then link_pri key l (st_write l w st)
                          else link_sec id l (link_pri key l (st_write l w st)))
    = get_pri k (link_pri key l (st_write l w st))) as Hs by (intros k; case_decide; [done|apply get_pri_link_sec]).
  setoid_rewrite Hs. unfold get_pri, link_pri, st_write. cbn. split.
  - rewrite lookup_insert_eq. cbn. by rewrite lookup_insert_eq.
  - intros k Hk. rewrite lookup_insert_ne by done. destruct (st_pri st !! k) as [l'|] eqn:E; [|done]. cbn.
    rewrite lookup_insert_ne; [done|]. intros <-. by apply Hk, Hl.
Qed.

Lemma Register_outcome (r : Registry WR) now now' uuid req :
  reg_inv (rg_store r) → st_sec (rg_store r) !! uuid = None → rw_WorkerKey req ≠ "" →
  capability_error (register_params req) = None →
  ∃ w r', Register now now' uuid (register_params req) r = (inr w, r') ∧ reg_inv (rg_store r') ∧ registered req w
    ∧ rg_healthCfg r' = rg_healthCfg r
    ∧ get_pri (rw_WorkerKey req) (rg_store r') = Some w
    ∧ ∀ k, k ≠ rw_WorkerKey req → get_pri k (rg_store r') = get_pri k (rg_store r).
Proof.
  intros Hi Hu Hk Hc. pose proof (reg_inv_Register r now now' uuid (register_params req) Hi Hu) as Hi'.
  unfold Register in *. cbn [rp_WorkerKey register_params] in *. rewrite decide_False, Hc in * by done.
  assert (∃ l w0 st, (match st_pri (rg_store r) !! rw_WorkerKey req, get_pri (rw_WorkerKey req) (rg_store r) with
      | Some l, Some w => (l, w, rg_store r)
      | _, _ => (st_next (rg_store r), new_worker uuid (rw_WorkerKey req) now,
                 st_alloc (new_worker uuid (rw_WorkerKey req) now) (rg_store r)) end) = (l, w0, st)
    ∧ w_WorkerKey w0 = rw_WorkerKey req ∧ st_wf st ∧ (∀ k, st_pri st !! k = Some l → k = rw_WorkerKey req)
    ∧ ∀ k, get_pri k st = get_pri k (rg_store r)) as (l & w0 & st & E & Hw0 & Hwf & Hl & Hst).
  { pose proof (ri_wf _ Hi) as W.
    assert (∃ l w0 st, (st_next (rg_store r), new_worker uuid (rw_WorkerKey req) now,
                 st_alloc (new_worker uuid (rw_WorkerKey req) now) (rg_store r)) = (l, w0, st)
      ∧ w_WorkerKey w0 = rw_WorkerKey req ∧ st_wf st ∧ (∀ k, st_pri st !! k = Some l → k = rw_WorkerKey req)
      ∧ ∀ k, get_pri k st = get_pri k (rg_store r)) as Hnew.
    { eexists _, _, _. split; [done|]. split; [done|]. split; [by apply st_wf_alloc|]. split.
      - intros k Hl. cbn in Hl. by apply wf_pri_fresh in Hl.
      - intros k. by apply get_pri_alloc. }
    destruct (st_pri (rg_store r) !! rw_WorkerKey req) as [l|] eqn:El; [|done].
    destruct (get_pri _ _) as [w0|] eqn:Ew; [|done]. eexists _, _, _. split; [done|].
    unfold get_pri in Ew. rewrite El in Ew. split; [by apply (ri_key _ Hi _ l w0)|].
    split_and!; [done| |done]. intros k Hl. by apply (wf_inj _ W _ _ l). }
  rewrite E in *. pose proof (upsert_frame now' (apply_params (register_params req) now w0) (rg_repo r)) as Hf. cbv zeta in Hf.
  destruct (wr_Upsert _ _ _) as [[err w] repo]. cbn [fst snd] in Hf.
  assert (registered req w) as Hreg by (rewrite Hf; by repeat split).
  pose proof (linked_pri st (w_WorkerKey w) l w (w_ID w) Hwf) as Hlink. destruct Hreg as [HK Hreg].
  rewrite HK in *. destruct (Hlink Hl) as [H1 H2].
  eexists w, _. split; [reflexivity|]. split; [exact Hi'|]. split; [by split|]. split; [done|].
  split; [exact H1|]. intros k Hne. rewrite <- Hst. by apply H2.
Qed.

(** A heartbeat of a healthy worker by its identifier, which is no key. *)
Lemma HeartbeatAt_outcome (r : Registry WR) now' at_ key w :
  reg_inv (rg_store r) → get_pri key (rg_store r) = Some w → w_ID w ≠ "" → st_pri (rg_store r) !! w_ID w = None →
  w_Health w = HealthHealthy →
  ∃ w' r', HeartbeatAt now' (w_ID w) at_ r = (None, r')
    ∧ get_pri key (rg_store r') = Some w' ∧ w_ID w' = w_ID w ∧ w_Health w' = HealthHealthy
    ∧ w_LastBeatAt w' = Some at_ ∧ w_ConsecutiveMisses w' = 0
    ∧ ∀ k, k ≠ key → get_pri k (rg_store r') = get_pri k (rg_store r).
Proof.
  intros Hi (l & Hl & Hw)%get_pri_cell Hid Hno Hh. unfold HeartbeatAt.
  assert (findWorkerLocked (w_ID w) r = Some (l, w)) as ->.
  { unfold findWorkerLocked. rewrite Hno, (ri_id _ Hi _ _ _ Hl Hw Hid). by rewrite Hw. }
  destruct (wr_UpdateHeartbeat _ _ _ _) as [err repo].
  eexists _, _. split; [reflexivity|]. unfold write_worker. cbn [rg_store set_field].
  pose proof (get_pri_write (rg_store r) key l) as Hg.
  split; [cbn; rewrite Hg by (apply Hi || done); by rewrite decide_True|].
  unfold ApplyHeartbeatSuccess. cbn. rewrite Hh. cbn. split_and!; try done.
  intros k Hk. rewrite Hg by (apply Hi || done). by rewrite decide_False.
Qed.

(** A registration over RPC with a key and an acceptable capability is answered
    with the identifier of the worker under that key, which is ready, healthy
    and open for placement; a heartbeat that a sender with that identifier sends
    next is delivered and reported, and stamps that worker alone, which stays
    healthy. *)
Theorem registered_worker_beats (req : RegisterWorkerRequest) (h : HeartbeatSender) (now : Time) (s : state) :
  reg_inv (rg_store (s_registry s)) → st_sec (rg_store (s_registry s)) !! uuid_at (s_tick s) = None →
  rw_WorkerKey req ≠ "" → capability_error (register_params req) = None →
  let '(r, s1) := cps_RegisterWorker req s in
  ∃ resp w, r = inr resp ∧ rwr_Success resp = true ∧ reg_inv (rg_store (s_registry s1))
    ∧ get_pri (rw_WorkerKey req) (rg_store (s_registry s1)) = Some w ∧ registered req w ∧ w_ID w = rwr_WorkerId resp
    ∧ (∀ k, k ≠ rw_WorkerKey req → get_pri k (rg_store (s_registry s1)) = get_pri k (rg_store (s_registry s)))
    ∧ (w_ID w ≠ "" → st_pri (rg_store (s_registry s1)) !! w_ID w = None → hs_workerID h = w_ID w → hs_paused h = false →
       let '(err, h', s2) := SendOne now h s1 in
       err = None ∧ h' = tell true h
       ∧ (∃ w' t, get_pri (rw_WorkerKey req) (rg_store (s_registry s2)) = Some w' ∧ w_ID w' = w_ID w
           ∧ w_Health w' = HealthHealthy ∧ w_LastBeatAt w' = Some t ∧ t = now_at (s_tick s1) ∧ w_ConsecutiveMisses w' = 0)
       ∧ ∀ k, k ≠ rw_WorkerKey req → get_pri k (rg_store (s_registry s2)) = get_pri k (rg_store (s_registry s1))).
Proof.
  intros Hi Hu Hk Hc. unfold cps_RegisterWorker. rewrite decide_False by done.
  unfold bind, draw_uuid, draw_now, on_registry, ret. cbn.
  edestruct (Register_outcome (s_registry s)) as (w & r' & -> & Hi' & Hreg & _ & Hw & Ho); [done..|].
  eexists _, w. split; [done|]. split; [done|]. split_and!; try done. intros Hid Hno Hh Hp.
  unfold SendOne. rewrite Hp, Hh. unfold cpc_Heartbeat, direct_client, cps_Heartbeat. cbn [hq_WorkerId].
  rewrite decide_False by done. unfold bind, draw_now, on_registry, Heartbeat, ret. cbn [s_registry s_tick set_field Sys_eta].
  destruct Hreg as (_ & _ & _ & _ & _ & _ & _ & Hh' & _).
  edestruct (HeartbeatAt_outcome r') as (w' & r2 & -> & Hw' & Hid' & Hhe & Hb & Hm & Ho2); [done..|].
  cbn. split; [done|]. split; [done|]. split; [|done]. eauto 10.
Qed.

(** ** Deployments over RPC *)

Context {entl : EntropyLaws} `{!DeploymentStore DR, !InstanceStore IR}.

(** How a request for a deployment is answered. *)
Definition rpc_create_post (req : CreateDeploymentRequest) (s : state)
    (r : option (error + CreateDeploymentResponse)) (s' : state) : Prop :=
  sys_ok s' ∧
  match r with
  | None => False
  | Some (inl _) => cq_Image req = "" ∧ cq_SourcePath req = "" ∧ s' = s
  | Some (inr resp) =>
    (∃ dep created, dep_at (view s') dep ∧ d_Status dep = StatusRunning ∧ launched (d_ID dep) s s' created
       ∧ length created = Z.to_nat (replicas (cq_InstanceCount req))
       ∧ touches (d_ID dep) (cq_ProjectId req) (view s) (view s')
       ∧ resp = mkCreateResponse (d_ID dep) "RUNNING" (i_ID <$> created) (d_ImageDigest dep) "")
    ∨ (∃ err, resp = mkCreateResponse "" "FAILED" [] "" err ∧ view s' = view s)
    ∨ ∃ dep err, resp = mkCreateResponse (d_ID dep) "FAILED" [] "" err ∧ dep_at (view s') dep
        ∧ (x_crashHook (X := X) = None → d_Status dep = StatusFailed) ∧ touches (d_ID dep) (cq_ProjectId req) (view s) (view s')
  end.

(** A request for a deployment over RPC is always answered: by an error when it
    has neither image nor source, with nothing changed; otherwise by a
    deployment that runs with as many instances as asked for, or by a failure
    that names the deployment stored as failed, unless none was made. *)
Theorem rpc_create_deployment (req : CreateDeploymentRequest) (s : state) :
  sys_ok s → wp (cps_CreateDeployment req) (rpc_create_post req s) s.
Proof.
  intros H. unfold cps_CreateDeployment. case_decide as Hi; [apply wp_ret; by destruct Hi|].
  apply wp_bind. eapply wp_wand; [by apply wp_CreateAndDeploy|]. intros [[od created] err] s' [Hok Hp].
  apply wp_ret. split; [done|]. destruct od as [dep|].
  - destruct Hp as (_ & Ht & Hat & Hl & Hrun & Hfail & Hlen). destruct err as [err|]; cbn.
    + right. right. exists dep, err. split_and!; try done. intros Hx. by apply Hfail.
    + left. exists dep, created. specialize (Hrun eq_refl). split_and!; try done; [by apply Hlen|]. by rewrite Hrun.
  - destruct Hp as (_ & He & Hv). destruct err as [err|]; [|done]. right. left. by exists err.
Qed.

End facts.

(** ** On the concrete platform *)

#[local] Existing Instance demo_entropy.
#[local] Existing Instance demo_entropy_laws.
#[local] Existing Instance demo_url.
#[local] Existing Instance demo_externals.
#[local] Existing Instance unicode_none.
#[local] Existing Instance amd64.
#[local] Existing Instance demo_grpc.
#[local] Existing Instance direct_client.

Definition edge_request : RegisterWorkerRequest := mkRegisterWorker "edge" "host" "10.0.0.7" 9091 4 ∅.
Definition edge_sender (id : string) : HeartbeatSender := SetSendHook true (NewHeartbeatSender id 0).

Lemma registered_worker_beats_witness :
  let '(r, s1) := cps_RegisterWorker edge_request demo_sys in
  ∃ w h' s2, get_pri "edge" (rg_store (s_registry s1)) = Some w ∧ w_ID w = uuid_at 0
    ∧ SendOne 5 (edge_sender (uuid_at 0)) s1 = (None, h', s2) ∧ hs_told h' = [true].
Proof.
  pose proof (registered_worker_beats edge_request (edge_sender (uuid_at 0)) 5 demo_sys
    (ok_registry _ demo_sys_ok) eq_refl ltac:(discriminate) eq_refl) as H.
  destruct (cps_RegisterWorker edge_request demo_sys) as [r s1] eqn:E.
  destruct H as (resp & w & -> & _ & _ & Hw & _ & Hid & _ & Hb).
  assert (rwr_WorkerId resp = uuid_at 0) as Hr by (vm_compute in E; injection E as <- _; reflexivity).
  rewrite Hr in Hid. specialize (Hb ltac:(rewrite Hid; discriminate)
    ltac:(rewrite Hid; vm_compute in E; injection E as _ <-; reflexivity) ltac:(by rewrite Hid) eq_refl).
  destruct (SendOne _ _ _) as [[err h'] s2]. destruct Hb as (-> & -> & _).
  exists w, (tell true (edge_sender (uuid_at 0))), s2. split; [exact Hw|]. split; [exact Hid|]. split; reflexivity.
Defined.

Lemma rpc_create_deployment_witness :
  sys_ok demo_sys ∧
  wp (cps_CreateDeployment (mkCreateRequest "proj" "img:1" "" 2 ∅ ∅)) (rpc_create_post (mkCreateRequest "proj" "img:1" "" 2 ∅ ∅) demo_sys) demo_sys.
Proof. split; [exact demo_sys_ok|]. apply rpc_create_deployment. exact demo_sys_ok. Defined.

(** A control plane that lost its memory refuses the heartbeats of a worker that
    it does not know; the sender counts them as delivered, and nothing makes the
    worker register again. *)
Example unknown_worker_beats_on :
  let '(h, s) := sender_Start 1 [Tick 2; Tick 3] (edge_sender "gone") demo_sys in
  hs_told h = [true; true; true] ∧ s_registry s = s_registry demo_sys
  ∧ (cps_Heartbeat (mkHeartbeat "gone" 1) demo_sys).1 = inr (mkHeartbeatResponse false 0).
Proof. vm_compute. done. Qed.

(** A sender that is paused reports failures and sends nothing; it goes on when it
    is resumed, and ends when it is stopped. *)
Example paused_sender :
  let '(h, s) := sender_Start 1 [Pausing true; Tick 2; Tick 3; Pausing false; Tick 4; StopChosen; Tick 5] (edge_sender "gone") demo_sys in
  hs_told h = [true; false; false; true].
Proof. vm_compute. done. Qed.

(** The time of the sender is not looked at. *)
Example senders_clock_unused (t t' : Z) (s : DemoSys) :
  cps_Heartbeat (mkHeartbeat "w" t) s = cps_Heartbeat (mkHeartbeat "w" t') s.
Proof. reflexivity. Qed.
