(* ===== verification/Config.v ===== *)
(** * Configuration: internal/config/config.go

    The settings that the processes read from their environment, with
    [strconv.Atoi] and [time.ParseDuration]; [os.Getenv] is the parameter
    [Environ]. *)

From stdpp Require Import base option gmap strings list pretty.
From Stdlib Require Import ZArith Lia Ascii SpecFloat.
From S2P Require Import Prelude GoLib GoFloat Http Json Build.

(** ** time.ParseDuration *)

(** [leadingInt]: the digits at the front, as a uint64 that is at most 2^63. *)
Fixpoint leadingInt (x : Z) (s : string) : option (Z * string) :=
  match s with
  | String c s' =>
    if is_digit c then
      if 2 ^ 63 / 10 <? x then None
      else
        let x := 10 * x + (Z.of_N (N_of_ascii c) - 48) in
        if 2 ^ 63 <? x then None else leadingInt x s'
    else Some (x, s)
  | EmptyString => Some (x, s)
  end.

(** [leadingFraction]: digits that no longer fit are dropped. *)
Fixpoint leadingFraction (x : Z) (scale : float64) (overflow : bool) (s : string) : Z * float64 * string :=
  match s with
  | String c s' =>
    if is_digit c then
      if overflow || ((2 ^ 63 - 1) / 10 <? x) then leadingFraction x scale true s'
      else
        let y := 10 * x + (Z.of_N (N_of_ascii c) - 48) in
        if 2 ^ 63 <? y then leadingFraction x scale true s'
        else leadingFraction y (fmul scale (float_of_int 10)) false s'
    else (x, scale, s)
  | EmptyString => (x, scale, s)
  end.

(** The text up to the next digit or point, and the rest. *)
Fixpoint unit_name (s : string) : string * string :=
  match s with
  | String c s' =>
    if Ascii.eqb c "." || is_digit c then (EmptyString, s)
    else let '(u, r) := unit_name s' in (String c u, r)
  | EmptyString => (EmptyString, EmptyString)
  end.

Definition Minute : Duration := 60 * Second.
Definition Hour : Duration := 60 * Minute.

(** [unitMap]; the micro sign and the Greek letter are both accepted. *)
Definition unitMap : gmap string Z :=
  {["ns" := Nanosecond; "us" := 1000; micros := 1000;
    String (ascii_of_nat 206) (String (ascii_of_nat 188) "s") := 1000;
    "ms" := Millisecond; "s" := Second; "m" := Minute; "h" := Hour]}.

(** [uint64(x)] of a float that is not negative and fits. *)
Definition uint64_of_float (x : float64) : Z := default 0 (int_of_floor x).

(** The fraction after a point: its digits, their scale, whether there are any,
    and the rest. *)
Definition fraction (s : string) : Z * float64 * bool * string :=
  match eat "." s with
  | Some s' =>
    let '(f, scale, rest) := leadingFraction 0 fone false s' in
    (f, scale, negb (String.length rest =? String.length s')%nat, rest)
  | None => (0, fone, false, s)
  end.

(** One number with its unit, and the rest. *)
Definition duration_term (s : string) : option (Z * string) :=
  match s with
  | EmptyString => None
  | String c _ =>
    if Ascii.eqb c "." || is_digit c then
      match leadingInt 0 s with
      | None => None
      | Some (v, s1) =>
        let pre := negb (String.length s1 =? String.length s)%nat in
        let '(f, scale, post, s2) := fraction s1 in
        if negb pre && negb post then None
        else
          let '(u, rest) := unit_name s2 in
          if decide (u = "") then None
          else
            match unitMap !! u with
            | None => None
            | Some unit_ =>
              if 2 ^ 63 / unit_ <? v then None
              else
                let v := v * unit_ in
                let v := if 0 <? f
                         then v + uint64_of_float (fmul (float_of_int f) (fdiv (float_of_int unit_) scale))
                         else v in
                if (0 <? f) && (2 ^ 63 <? v) then None else Some (v, rest)
            end
      end
    else None
  end.

(** The loop over the terms; each has a character, so that their number is at
    most the length of the text. *)
Fixpoint duration_terms (fuel : nat) (d : Z) (s : string) : option Z :=
  match s, fuel with
  | EmptyString, _ => Some d
  | _, O => None
  | _, S fuel' =>
    match duration_term s with
    | None => None
    | Some (v, rest) => if 2 ^ 63 <? d + v then None else duration_terms fuel' (d + v) rest
    end
  end.

Definition ParseDuration (s : string) : option Duration :=
  let '(neg, s) :=
    match eat "-" s, eat "+" s with
    | Some s', _ => (true, s')
    | None, Some s' => (false, s')
    | None, None => (false, s)
    end in
  if decide (s = "0") then Some 0
  else if decide (s = "") then None
  else
    match duration_terms (String.length s) 0 s with
    | None => None
    | Some d =>
      if neg then Some (int64 (- int64 d))
      else if 2 ^ 63 - 1 <? d then None else Some d
    end.

Example ParseDuration_ex :
  ParseDuration "1h15m30.918273645s" = Some 4530918273645 ∧ ParseDuration "-1.5h" = Some (- 5400 * Second)
  ∧ ParseDuration "300ms" = Some (300 * Millisecond) ∧ ParseDuration ".5s" = Some (500 * Millisecond)
  ∧ ParseDuration "10" = None ∧ ParseDuration "" = None ∧ ParseDuration "3 s" = None
  ∧ ParseDuration "1.s" = Some Second ∧ ParseDuration ".s" = None ∧ ParseDuration "0" = Some 0
  ∧ ParseDuration "9223372036854775808ns" = None
  ∧ ParseDuration "-9223372036854775808ns" = Some (- 2 ^ 63).
Proof. vm_compute. split_and!; reflexivity. Qed.

(** ** Settings *)

Class Environ := os_Getenv : string → string.

(** The environment of the variables in a map. *)
Definition environ_of (m : gmap string string) : Environ := λ k, lookup_str m k.

(** [strconv.Atoi], which fails out of the range of int. *)
Definition Atoi_int (s : string) : option Z :=
  match Atoi s with
  | Some n => if (- 2 ^ 63 <=? n) && (n <? 2 ^ 63) then Some n else None
  | None => None
  end.

Record PostgresConfig := mkPostgres {
  pg_Host : string;
  pg_Port : Z;
  pg_User : string;
  pg_Password : string;
  pg_Database : string;
  pg_SSLMode : string;
  pg_MaxOpenConns : Z;
  pg_MaxIdleConns : Z;
  pg_MaxLifetime : Duration
}.

Definition DSN (p : PostgresConfig) : string :=
  "postgres://" +:+ pg_User p +:+ ":" +:+ pg_Password p +:+ "@" +:+ pg_Host p +:+ ":" +:+ Itoa (pg_Port p)
  +:+ "/" +:+ pg_Database p +:+ "?sslmode=" +:+ pg_SSLMode p.

Record WorkerConfig := mkWorkerConfig {
  wk_ID : string;
  wk_HeartbeatInt : Duration;
  wk_ListenAddr : string
}.

Record ReconcileConfig := mkReconcileConfig {
  rcf_Interval : Duration;
  rcf_Timeout : Duration
}.

Record AuthConfig := mkAuthConfig {
  au_Enabled : bool;
  au_AdminToken : string
}.

Record SecretsConfig := mkSecretsConfig {
  se_MasterKey : string;
  se_KeyVersion : Z
}.

(** The fields of AppConfig, GRPCConfig and HTTPConfig are those of Config. *)
Record Config := mkProcessConfig {
  cf_Env : string;
  cf_Name : string;
  cf_Postgres : PostgresConfig;
  cf_GRPCListenAddr : string;
  cf_HTTPListenAddr : string;
  cf_Worker : WorkerConfig;
  cf_Reconcile : ReconcileConfig;
  cf_Auth : AuthConfig;
  cf_Secrets : SecretsConfig
}.

Section config.
Context {env : Environ}.

Definition getEnv (key fallback : string) : string :=
  let v := os_Getenv key in if decide (v = "") then fallback else v.

(** A variable that is empty or does not parse is as good as none. *)
Definition getEnvWith {A} (parse : string → option A) (key : string) (fallback : A) : A :=
  let v := os_Getenv key in if decide (v = "") then fallback else default fallback (parse v).

Definition getEnvInt : string → Z → Z := getEnvWith Atoi_int.
Definition getEnvDuration : string → Duration → Duration := getEnvWith ParseDuration.

Definition Load : Config := mkProcessConfig
  (getEnv "NEBULA_ENV" "development")
  (getEnv "NEBULA_APP_NAME" "nebula")
  (mkPostgres
    (getEnv "NEBULA_DB_HOST" "localhost")
    (getEnvInt "NEBULA_DB_PORT" 5432)
    (getEnv "NEBULA_DB_USER" "nebula")
    (getEnv "NEBULA_DB_PASSWORD" "nebula")
    (getEnv "NEBULA_DB_NAME" "nebula")
    (getEnv "NEBULA_DB_SSLMODE" "disable")
    (getEnvInt "NEBULA_DB_MAX_OPEN_CONNS" 25)
    (getEnvInt "NEBULA_DB_MAX_IDLE_CONNS" 5)
    (getEnvDuration "NEBULA_DB_MAX_LIFETIME" (5 * Minute)))
  (getEnv "NEBULA_GRPC_ADDR" ":9090")
  (getEnv "NEBULA_HTTP_ADDR" ":8081")
  (mkWorkerConfig
    (getEnv "NEBULA_WORKER_ID" "")
    (getEnvDuration "NEBULA_HEARTBEAT_INTERVAL" (10 * Second))
    (getEnv "NEBULA_WORKER_ADDR" ":9091"))
  (mkReconcileConfig
    (getEnvDuration "NEBULA_RECONCILE_INTERVAL" (5 * Second))
    (getEnvDuration "NEBULA_RECONCILE_TIMEOUT" (15 * Second)))
  (mkAuthConfig
    (bool_decide (getEnv "NEBULA_AUTH_ENABLED" "true" = "true"))
    (getEnv "NEBULA_ADMIN_TOKEN" "nebula-admin-token-secret-key-12345"))
  (mkSecretsConfig
    (getEnv "NEBULA_SECRETS_KEY" "nebula-32-byte-master-key-passphrase-01")
    (getEnvInt "NEBULA_SECRETS_KEY_VERSION" 1)).

End config.

(** ** What a setting in nanoseconds to hours is read as *)

Definition no_digit (s : string) : bool :=
  match s with String c _ => negb (Ascii.eqb c "." || is_digit c) | EmptyString => false end.

Lemma digit_value c : is_digit c = true → 0 ≤ Z.of_N (N_of_ascii c) - 48 ≤ 9.
Proof. unfold is_digit. intros [H1%N.leb_le H2%N.ltb_lt]%andb_true_iff. lia. Qed.

Lemma dec_value_ge s : ∀ x v, 0 ≤ x → dec_value x s = Some v → x ≤ v.
Proof.
  induction s as [|c s IH]; intros x v Hx; cbn [dec_value]; [by intros [= ->]|].
  destruct (is_digit c) eqn:Hc; [|done]. apply digit_value in Hc. intros Hv%IH; lia.
Qed.

(** The digits are read exactly when their value is at most 2^63. *)
Lemma leadingInt_digits s rest : no_digit rest = true → ∀ x v, 0 ≤ x ≤ 2 ^ 63 →
  dec_value x s = Some v →
  leadingInt x (s +:+ rest) = if v <=? 2 ^ 63 then Some (v, rest) else None.
Proof.
  intros Hr. induction s as [|c s IH]; intros x v Hx.
  - intros [= ->]. rewrite (proj2 (Z.leb_le _ _)) by lia. destruct rest as [|c rest]; [done|].
    change ("" +:+ String c rest) with (String c rest). cbn [no_digit leadingInt] in Hr |- *. apply negb_true_iff, orb_false_iff in Hr as [_ Hr].
    by rewrite Hr.
  - change (String c s +:+ rest) with (String c (s +:+ rest)). cbn [dec_value leadingInt]. destruct (is_digit c) eqn:Hc; [|done]. apply digit_value in Hc.
    intros Hv. pose proof Hv as Hge. apply dec_value_ge in Hge; [|lia].
    destruct (Z.ltb_spec (2 ^ 63 / 10) x) as [Hb|Hb].
    { rewrite (proj2 (Z.leb_gt v (2 ^ 63))); [done|]. change (2 ^ 63 / 10) with 922337203685477580 in Hb. lia. }
    destruct (Z.ltb_spec (2 ^ 63) (10 * x + (Z.of_N (N_of_ascii c) - 48))) as [Hb2|Hb2].
    { by rewrite (proj2 (Z.leb_gt v (2 ^ 63))) by lia. }
    apply IH; [lia|done].
Qed.

Lemma unitMap_good u unit_ : unitMap !! u = Some unit_ →
  no_digit u = true ∧ unit_name u = (u, "") ∧ u ≠ "" ∧ 0 < unit_.
Proof.
  revert u unit_. apply (bool_decide_unpack (map_Forall (λ u unit_,
    no_digit u = true ∧ unit_name u = (u, "") ∧ u ≠ "" ∧ 0 < unit_) unitMap)). vm_compute. exact I.
Qed.

Lemma no_digit_eat u : no_digit u = true → eat "." u = None.
Proof.
  destruct u as [|c u]; [done|]. cbn [no_digit eat]. intros [Hc _]%negb_true_iff%orb_false_iff. by rewrite Hc.
Qed.

(** A number in digits with its unit. *)
Lemma duration_term_digits c t u unit_ v :
  all_digits (String c t) = true → dec_value 0 (String c t) = Some v → unitMap !! u = Some unit_ →
  duration_term (String c t +:+ u) = if v * unit_ <=? 2 ^ 63 then Some (v * unit_, "") else None.
Proof.
  intros Hd Hv Hu. destruct (unitMap_good u unit_ Hu) as (Hn & Hname & Hne & Hpos).
  assert (is_digit c = true) as Hc by (unfold all_digits in Hd; cbn [str_forall] in Hd; by apply andb_true_iff in Hd as [? _]).
  pose proof (dec_value_ge _ 0 v ltac:(lia) Hv) as Hv0.
  change (String c t +:+ u) with (String c (t +:+ u)). unfold duration_term. rewrite Hc, orb_true_r.
  change (String c (t +:+ u)) with (String c t +:+ u).
  rewrite (leadingInt_digits (String c t) u Hn 0 v) by (done || lia).
  destruct (Z.leb_spec v (2 ^ 63)) as [Hle|Hgt].
  2: { rewrite (proj2 (Z.leb_gt _ _)) by nia. done. }
  unfold fraction. rewrite (no_digit_eat u Hn), str_app_length. cbn [String.length].
  rewrite (proj2 (Nat.eqb_neq (String.length u) (S (String.length t) + String.length u)) ltac:(lia)).
  cbn [negb andb]. rewrite Hname, decide_False, Hu by done.
  replace (0 <? 0) with false by done. cbn [andb].
  pose proof (Z.div_mod (2 ^ 63) unit_ ltac:(lia)). pose proof (Z.mod_pos_bound (2 ^ 63) unit_ Hpos).
  destruct (Z.ltb_spec (2 ^ 63 / unit_) v) as [Hb|Hb], (Z.leb_spec (v * unit_) (2 ^ 63)) as [Hl|Hl]; done || nia.
Qed.

Lemma duration_terms_one c t u unit_ v :
  all_digits (String c t) = true → dec_value 0 (String c t) = Some v → unitMap !! u = Some unit_ →
  duration_terms (String.length (String c t +:+ u)) 0 (String c t +:+ u)
  = if v * unit_ <=? 2 ^ 63 then Some (v * unit_) else None.
Proof.
  intros Hd Hv Hu. pose proof (duration_term_digits c t u unit_ v Hd Hv Hu) as E.
  change (String c t +:+ u) with (String c (t +:+ u)) in E |- *. cbn [String.length duration_terms]. rewrite E.
  destruct (Z.leb_spec (v * unit_) (2 ^ 63)) as [Hl|Hl]; [|done].
  rewrite (proj2 (Z.ltb_ge _ _)) by lia. by destruct (String.length _).
Qed.

Lemma unit_not_alone c t u unit_ : unitMap !! u = Some unit_ →
  String c t +:+ u ≠ "0" ∧ String c t +:+ u ≠ "".
Proof.
  intros (_ & _ & Hne & _)%unitMap_good. split; [|done]. intros [= _ E]. by destruct t, u.
Qed.

Lemma ParseDuration_Itoa z u unit_ : unitMap !! u = Some unit_ →
  ParseDuration (Itoa z +:+ u)
  = if (- 2 ^ 63 <=? z * unit_) && (z * unit_ <? 2 ^ 63) then Some (z * unit_) else None.
Proof.
  intros Hu. destruct (unitMap_good u unit_ Hu) as (Hn & Hname & Hne & Hpos).
  assert (∀ (neg : bool) p, ∃ c t, pretty p = String c t ∧ Ascii.eqb c "-" = false ∧ Ascii.eqb c "+" = false
    ∧ duration_terms (String.length (pretty p +:+ u)) 0 (pretty p +:+ u)
      = if Z.pos p * unit_ <=? 2 ^ 63 then Some (Z.pos p * unit_) else None) as Hp.
  { intros neg p. destruct (pretty_pos_spec p) as (c & t & E & _ & Hm & Hd & Hv). exists c, t.
    split_and!; [done|done| |rewrite E; by apply duration_terms_one].
    unfold all_digits in Hd. cbn [str_forall] in Hd. apply andb_true_iff in Hd as [Hd _].
    destruct (Ascii.eqb_spec c "+"); [by subst|done]. }
  unfold ParseDuration, Itoa. destruct z as [|p|p].
  - change (pretty 0 +:+ u) with (String "0" u). cbn [eat]. change (Ascii.eqb "0" "-") with false.
    change (Ascii.eqb "0" "+") with false. cbv iota beta.
    destruct (unit_not_alone "0" "" u unit_ Hu) as [H1 H2]. change ("0" +:+ u) with (String "0" u) in H1, H2.
    rewrite !decide_False by done. pose proof (duration_terms_one "0" "" u unit_ 0 eq_refl eq_refl Hu) as E.
    change ("0" +:+ u) with (String "0" u) in E. rewrite E. done.
  - change (pretty (Z.pos p)) with (pretty p). destruct (Hp false p) as (c & t & E & Hm & Hplus & Hv).
    destruct (unit_not_alone c t u unit_ Hu) as [H1 H2]. rewrite E in Hv |- *.
    change (String c t +:+ u) with (String c (t +:+ u)) in H1, H2, Hv |- *. cbn [eat]. rewrite Hm, Hplus.
    rewrite !decide_False, Hv by done. rewrite (proj2 (Z.leb_le (- 2 ^ 63) _)) by lia. cbn [andb].
    destruct (Z.leb_spec (Z.pos p * unit_) (2 ^ 63)), (Z.ltb_spec (Z.pos p * unit_) (2 ^ 63)); try lia; [|..]; try done.
    all: destruct (Z.ltb_spec (2 ^ 63 - 1) (Z.pos p * unit_)); (done || lia).
  - change (pretty (Z.neg p)) with (String "-" (pretty p)). destruct (Hp true p) as (c & t & E & Hm & Hplus & Hv).
    change (String "-" (pretty p) +:+ u) with (String "-" (pretty p +:+ u)). rewrite eat_same.
    rewrite E in Hv |- *. destruct (unit_not_alone c t u unit_ Hu) as [H1 H2].
    rewrite !decide_False, Hv by done. rewrite (proj2 (Z.ltb_lt (Z.neg p * unit_) _)) by lia. rewrite andb_true_r.
    destruct (Z.leb_spec (Z.pos p * unit_) (2 ^ 63)), (Z.leb_spec (- 2 ^ 63) (Z.neg p * unit_)); try lia; [|done].
    f_equal. unfold int64. Z.div_mod_to_equations. lia.
Qed.

(** A setting of a whole number with one unit is that number of nanoseconds
    exactly when it fits into an int64, and the default otherwise. *)
Theorem duration_setting_bounds {env : Environ} key fallback z u unit_ :
  unitMap !! u = Some unit_ → os_Getenv key = Itoa z +:+ u →
  getEnvDuration key fallback
  = if (- 2 ^ 63 <=? z * unit_) && (z * unit_ <? 2 ^ 63) then z * unit_ else fallback.
Proof.
  intros Hu E. unfold getEnvDuration, getEnvWith. rewrite E, (ParseDuration_Itoa z u unit_ Hu).
  rewrite decide_False; [by case_match|]. intros H0. destruct (unitMap_good u unit_ Hu) as (_ & _ & Hne & _).
  by destruct (Itoa z).
Qed.

(** ** Environments *)

Definition slow_env : gmap string string :=
  {["NEBULA_RECONCILE_INTERVAL" := "30s"; "NEBULA_RECONCILE_TIMEOUT" := "9223372037s"]}.

(** The second does not fit, so that the default is used. *)
Lemma duration_setting_bounds_witness :
  getEnvDuration (env := environ_of slow_env) "NEBULA_RECONCILE_INTERVAL" (5 * Second) = 30 * Second
  ∧ getEnvDuration (env := environ_of slow_env) "NEBULA_RECONCILE_TIMEOUT" (15 * Second) = 15 * Second.
Proof.
  split.
  - exact (duration_setting_bounds (env := environ_of slow_env) "NEBULA_RECONCILE_INTERVAL" (5 * Second) 30 "s"
      Second eq_refl eq_refl).
  - exact (duration_setting_bounds (env := environ_of slow_env) "NEBULA_RECONCILE_TIMEOUT" (15 * Second) 9223372037
      "s" Second eq_refl eq_refl).
Defined.

(** Only the text [true] switches authentication on; any other spelling of it
    switches it off. *)
Example auth_needs_exact_true :
  au_Enabled (cf_Auth (Load (env := environ_of ∅))) = true
  ∧ au_Enabled (cf_Auth (Load (env := environ_of {["NEBULA_AUTH_ENABLED" := "TRUE"]}))) = false
  ∧ au_Enabled (cf_Auth (Load (env := environ_of {["NEBULA_AUTH_ENABLED" := "1"]}))) = false.
Proof. vm_compute. split_and!; reflexivity. Qed.

(** A number without a unit is not a duration, and is passed over in silence. *)
Example bare_number_ignored :
  rcf_Interval (cf_Reconcile (Load (env := environ_of {["NEBULA_RECONCILE_INTERVAL" := "30"]}))) = 5 * Second.
Proof. vm_compute. reflexivity. Qed.

(** A password goes into the address of the database as it is: a slash in it
    ends the host. *)
Example password_ends_host :
  DSN (cf_Postgres (Load (env := environ_of {["NEBULA_DB_PASSWORD" := "s3cr/t"]})))
  = "postgres://nebula:s3cr/t@localhost:5432/nebula?sslmode=disable".
Proof. vm_compute. reflexivity. Qed.
