(* ===== verification/Startup.v ===== *)
(** * Startup: cmd/control-plane/main.go

    What the control plane does between the start of its process and its first
    request: the choice of the repositories, the wiring of the API, the recovery
    from the crash of its predecessor, and the first pass of the reconciler. *)

From stdpp Require Import base option gmap strings list pretty.
From Stdlib Require Import ZArith Lia.
From S2P Require Import Prelude GoLib GoFloat PtrStore Workers Scheduler LoadBalancer Discovery HA Deployments Fleet Platform Service ServiceFacts Lifecycle Scaling Demo ServiceTheorems Recovery Diff Repair Draining Reconcile Replicas Convergence Registry Secrets Http Auth Api Config.

(** ** Wiring *)

Inductive Storage := InMemory | Postgres.

(** [log.Fatal] ends the process. *)
Inductive Choice := Exit (msg : string) | Use (storage : Storage).

(** The errors of [storage.Open] and [storage.Migrate]. *)
Class PostgresServer := {
  storage_Open : PostgresConfig → option error;
  storage_Migrate : option error
}.

Definition choose_storage {env : Environ} `{!PostgresServer} (cfg : Config) : Choice :=
  if decide (os_Getenv "NEBULA_DB_DISABLED" = "true") then Use InMemory
  else
    match storage_Open (cf_Postgres cfg) with
    | Some _ =>
      if decide (cf_Env cfg = "development") then Use InMemory else Exit "failed to connect to postgres"
    | None =>
      match storage_Migrate with
      | Some _ => Exit "failed to apply migrations"
      | None => Use Postgres
      end
    end.

Definition admin : User := mkUser "admin" "admin" "admin" ["*"].

Definition token_store (cfg : Config) : TokenStore :=
  if decide (au_AdminToken (cf_Auth cfg) = "") then NewTokenStore
  else RegisterToken (au_AdminToken (cf_Auth cfg)) (Some admin) NewTokenStore.

(** The autoscaler, HTTPS, the audit log, the rate limiter and the request
    filter have setters that the process does not call. *)
Definition server_config (cfg : Config) : ServerConfig :=
  mkServerConfig (au_Enabled (cf_Auth cfg)) false false false false false false.

Definition key_provider {cipher : Cipher} (cfg : Config) : StaticKeyProvider :=
  NewSingleKeyProvider (se_MasterKey (cf_Secrets cfg)).

(** The interval and the timeout of the reconciler. *)
Record LoopTimes := mkLoopTimes { lt_interval : Duration; lt_timeout : Duration }.

Definition NewReconciler_times : LoopTimes := mkLoopTimes (5 * Second) (15 * Second).
Definition SetInterval (d : Duration) (r : LoopTimes) : LoopTimes :=
  if 0 <? d then mkLoopTimes d (lt_timeout r) else r.
Definition SetTimeout (d : Duration) (r : LoopTimes) : LoopTimes :=
  if 0 <? d then mkLoopTimes (lt_interval r) d else r.

Definition loop_times (cfg : Config) : LoopTimes :=
  SetTimeout (rcf_Timeout (cf_Reconcile cfg)) (SetInterval (rcf_Interval (cf_Reconcile cfg)) NewReconciler_times).

(** ** Recovery and the first pass *)

Section startup.
Context {DR IR WR F X : Type}.
Context {ent : Entropy} `{!DeploymentRepository DR, !InstanceRepository IR, !WorkerRepository WR}.
Context `{!WorkerClientFactory F, !Externals X} {uni : Unicode} {net : NetURL}.

(** A process that starts where [s] ended: the repositories of deployments,
    instances and workers outlive it, as do the workers; the registry is read
    from its repository, the rest of the memory is new. *)
Definition restart (o : Order) (ext : X) (s : Sys DR IR WR F X) : Sys DR IR WR F X :=
  mkSys (s_tick s) (s_deps s) (s_insts s) ∅ [] (NewRegistry o (rg_repo (s_registry s)))
    LoadBalancer.NewRouter None (s_fleet s) ext.

(** The reconciler is given neither a service registry nor a router. *)
Definition NewReconciler (s : Sys DR IR WR F X) : RecSys DR IR WR F X := mkRec s None false.

Definition startup :
    ST (RecSys DR IR WR F X) ((error + RecoveryReport) * (error + ReconcileActions)) :=
  let! report := lift (RecoverDeployments RecoveryPolicyFailSafe) in
  let! actions := ReconcileOnce in
  ret (report, actions).

End startup.

(** ** What the first steps leave of the memory *)

Section memory.
Context {DR IR WR F X : Type}.
Context {ent : Entropy} `{!DeploymentRepository DR, !InstanceRepository IR, !WorkerRepository WR}.
Context `{!WorkerClientFactory F, !Externals X} {uni : Unicode} {net : NetURL}.
Context {B : Type} (g : Registry WR → Router → B).
Implicit Types s : Sys DR IR WR F X.

(** The observation [g] of the registry and the router does not change. *)
Definition keeps s s' : Prop := g (s_registry s') (s_router s') = g (s_registry s) (s_router s).

#[export] Instance keeps_preorder : PreOrder keeps.
Proof. split; [by intros s|]. intros s1 s2 s3 E1 E2. unfold keeps in *. congruence. Qed.

Lemma keeps_draw_now : steps keeps draw_now. Proof. by intros s. Qed.
Lemma keeps_draw_order : steps keeps draw_order. Proof. by intros s. Qed.

Lemma keeps_dep_status id status stage : steps keeps (dep_status (DR := DR) id status stage).
Proof. intros s. unfold dep_status, bind. cbn. by destruct (dr_UpdateStatus _ _ _ _ _). Qed.

Lemma keeps_dep_image id image digest : steps keeps (dep_image (DR := DR) id image digest).
Proof. intros s. unfold dep_image, bind. cbn. by destruct (dr_UpdateImage _ _ _ _ _). Qed.

Lemma keeps_inst_update i : steps keeps (inst_update (IR := IR) i).
Proof. intros s. unfold inst_update, bind. cbn. by destruct (ir_Update _ _ _) as [[??]?]. Qed.

Lemma keeps_on_fleet {A} (f : F → A * F) : steps keeps (on_fleet f).
Proof. intros s. unfold on_fleet. by destruct (f _). Qed.

Lemma keeps_recovery policy : steps keeps (RecoverDeployments (DR := DR) (IR := IR) (X := X) policy).
Proof.
  pose proof keeps_draw_now. pose proof keeps_draw_order. pose proof keeps_dep_status. pose proof keeps_dep_image.
  pose proof keeps_inst_update. pose proof (λ w, keeps_on_fleet (wc_GetClient w)).
  pose proof (λ w, keeps_on_fleet (wc_ListContainers w)). pose proof (λ w r, keeps_on_fleet (wc_StopContainer w r)).
  unfold RecoverDeployments, DetectStuckDeployments, recover_one, recovered, fail_listed, fail_instances,
    fail_instance, cleanupPartialContainers, cleanup_worker, stop_partial, dep_list, inst_list, get_client,
    list_containers, stop_container. steps_tac.
Qed.

End memory.

(** A reconciler without router and service registry changes no route. *)
Section unrouted.
Context {DR IR WR F X : Type}.
Context {ent : Entropy} `{!DeploymentRepository DR, !InstanceRepository IR, !WorkerRepository WR}.
Context `{!WorkerClientFactory F, !Externals X} {uni : Unicode} {net : NetURL}.
Implicit Types t : RecSys DR IR WR F X.

Abbreviation same_router := (keeps (DR := DR) (IR := IR) (WR := WR) (F := F) (X := X) (λ _ r, r)).

Definition unrouted t t' : Prop :=
  rc_hasRouter t = false → rc_services t = None →
  same_router (rc_sys t) (rc_sys t') ∧ rc_hasRouter t' = false ∧ rc_services t' = None.

#[export] Instance unrouted_preorder : PreOrder unrouted.
Proof.
  split; [by intros t|]. intros t1 t2 t3 H12 H23 Hr Hs.
  destruct (H12 Hr Hs) as (E12 & Hr2 & Hs2). destruct (H23 Hr2 Hs2) as (E23 & Hr3 & Hs3).
  split; [by etransitivity|done].
Qed.

Lemma unrouted_lift {A} (m : ST (Sys DR IR WR F X) A) : steps same_router m → steps unrouted (lift m).
Proof. intros Hm t Hr Hs. unfold lift. specialize (Hm (rc_sys t)). by destruct (m (rc_sys t)) as [a y]. Qed.

Lemma unrouted_services f : steps unrouted (on_services (DR := DR) (IR := IR) (WR := WR) (F := F) (X := X) f).
Proof. intros t Hr Hs. unfold on_services, modify. cbn. by rewrite Hs. Qed.

Lemma keeps_worker_load key d : steps same_router (worker_load key d).
Proof. by intros s. Qed.

Lemma keeps_migration : steps same_router ReconcileDraining.
Proof.
  pose proof (keeps_draw_now (DR := DR) (IR := IR) (WR := WR) (F := F) (X := X) (λ _ r, r)).
  pose proof (keeps_draw_order (DR := DR) (IR := IR) (WR := WR) (F := F) (X := X) (λ _ r, r)).
  pose proof keeps_worker_load.
  pose proof (keeps_inst_update (DR := DR) (IR := IR) (WR := WR) (F := F) (X := X) (λ _ r, r)).
  pose proof (λ A, keeps_on_fleet (DR := DR) (IR := IR) (WR := WR) (F := F) (X := X) (A := A) (λ _ r, r)).
  unfold ReconcileDraining, drain_worker, migrate_instance, finish_migration, inst_list_worker, dep_get,
    select_worker, get_client, run_container, stop_container. steps_tac.
Qed.

Lemma keeps_repair missing running desired :
  steps same_router (RepairMissing (DR := DR) (IR := IR) missing running desired).
Proof.
  pose proof (keeps_draw_order (DR := DR) (IR := IR) (WR := WR) (F := F) (X := X) (λ _ r, r)).
  pose proof (keeps_inst_update (DR := DR) (IR := IR) (WR := WR) (F := F) (X := X) (λ _ r, r)).
  pose proof (λ A, keeps_on_fleet (DR := DR) (IR := IR) (WR := WR) (F := F) (X := X) (A := A) (λ _ r, r)).
  unfold RepairMissing, assigned_worker, repair_on, rewrite_instance, select_worker, worker_get, inst_get_key,
    get_client, run_container. steps_tac.
Qed.

Lemma keeps_stop_record m : steps same_router (stop_record (DR := DR) m).
Proof.
  pose proof (keeps_inst_update (DR := DR) (IR := IR) (WR := WR) (F := F) (X := X) (λ _ r, r)).
  unfold stop_record, inst_get_key, inst_get. steps_tac.
Qed.

Lemma unrouted_fleet {A} (f : F → A * F) : steps unrouted (lift (DR := DR) (IR := IR) (WR := WR) (X := X) (on_fleet f)).
Proof. apply unrouted_lift, keeps_on_fleet. Qed.

Lemma unrouted_order : steps unrouted (lift (DR := DR) (IR := IR) (WR := WR) (F := F) (X := X) draw_order).
Proof. apply unrouted_lift, keeps_draw_order. Qed.

(** The router is called only when there is one. *)
Lemma unrouted_prune_one clients dep m : steps unrouted (prune_one (DR := DR) clients dep m).
Proof.
  unfold prune_one, stop_container. pose proof (@unrouted_fleet). pose proof unrouted_services.
  pose proof (λ m, unrouted_lift _ (keeps_stop_record m)).
  apply steps_bind; [apply _|steps_tac|intros _]. apply steps_bind; [apply _|auto|intros _].
  apply steps_bind; [apply _|auto|intros _]. intros t Hr Hs. unfold bind, gets. cbn. by rewrite Hr.
Qed.

Lemma unrouted_prune_matching clients depID dep excess l : ∀ n st,
  steps unrouted (prune_matching (DR := DR) clients depID dep excess n l st).
Proof.
  induction l as [|m l IH]; intros n st; cbn [prune_matching]; [by steps_tac|].
  pose proof unrouted_prune_one. steps_tac.
Qed.

Lemma unrouted_repair_one active missing st : steps unrouted (repair_one (DR := DR) active missing st).
Proof.
  pose proof (λ m r d, unrouted_lift _ (keeps_repair m r d)). pose proof unrouted_services.
  pose proof (λ x, unrouted_lift _ (steps_gets same_router (λ s, Get x (s_registry s)))).
  pose proof (unrouted_lift _ (keeps_draw_now (DR := DR) (IR := IR) (WR := WR) (F := F) (X := X) (λ _ r, r))).
  unfold repair_one, register_repaired, worker_get. steps_tac.
Qed.

Lemma unrouted_pass : steps unrouted (ReconcileOnce (DR := DR) (IR := IR) (X := X)).
Proof.
  pose proof unrouted_order. pose proof (@unrouted_fleet). pose proof (unrouted_lift _ keeps_migration).
  pose proof unrouted_repair_one. pose proof unrouted_prune_matching.
  assert (∀ A (f : Order → Sys DR IR WR F X → A), steps unrouted (lift (bind draw_order (λ o, gets (f o))))) as Hgets.
  { intros A f. apply unrouted_lift, steps_bind; [apply _|apply keeps_draw_order|intros o; apply steps_gets; apply _]. }
  assert (∀ c w, steps unrouted (lift (DR := DR) (IR := IR) (WR := WR) (F := F) (X := X) (EnforceOrphanPolicy c w))) as Henf.
  { intros c w. apply unrouted_lift. unfold EnforceOrphanPolicy, stop_container.
    pose proof (λ A, keeps_on_fleet (DR := DR) (IR := IR) (WR := WR) (F := F) (X := X) (A := A) (λ _ r, r)). steps_tac. }
  unfold ReconcileOnce, fetch_desired, dep_list, inst_list_all, collect_observed, collect_worker, enforce_orphans,
    reconcile_replicas, prune_deployment, get_client, list_containers, stop_container.
  steps_tac.
Qed.

End unrouted.

(** ** A start after a crash *)

Section start.
Context {DR IR WR F X : Type}.
Context {ent : Entropy} `{!DeploymentRepository DR, !InstanceRepository IR, !WorkerRepository WR}.
Context `{!WorkerClientFactory F, !Externals X} {uni : Unicode} {net : NetURL}.
Context {entl : EntropyLaws} `{!DeploymentStore DR, !InstanceStore IR, !WorkerRepositoryLaws WR}.
Implicit Types s : Sys DR IR WR F X.
Implicit Types t : RecSys DR IR WR F X.

(** What the workers' repository is read as. *)
Definition stored_workers (o : Order) s (l : list Worker) : Prop :=
  wr_List o (rg_repo (s_registry s)) = inr l ∧ listable l.

Lemma restart_ready o ext s l : sys_ok s → stored_workers o s l →
  ready (restart o ext s)
  ∧ ∀ k w, get_pri k (rg_store (s_registry (restart o ext s))) = Some w ↔ w ∈ l ∧ w_WorkerKey w = k.
Proof.
  intros H [El Hl]. destruct (NewRegistry_warm o (rg_repo (s_registry s)) l El Hl) as [Hr Hw].
  split; [|exact Hw]. split.
  - destruct H as [H1 H2 H3 H4 H5 _ _]. split; [done..|]. exact (proj1 (rt_reachable_wf _ rt_reach_new)).
  - intros k w [Hin _]%Hw. pose proof (la_good _ Hl) as Hg. rewrite Forall_forall in Hg. by apply Hg.
Qed.

(** The state that the predecessor left in [s], the workers [l] of its
    repository, and what the start makes of them: the recovery, by which [s1]
    is reached, and a pass over the outcome; no deployment is in flight any
    more, those that were not are as they were, and there is no route. *)
Definition startup_post s (l : list Worker)
    (r : (error + RecoveryReport) * (error + ReconcileActions)) t' : Prop :=
  ∃ s1, recovery_post s r.1 s1 ∧ pass_post (NewReconciler s1) r.2 t'
    ∧ (∀ k w, get_pri k (rg_store (s_registry s1)) = Some w ↔ w ∈ l ∧ w_WorkerKey w = k)
    ∧ (∀ k d, ¬ in_flight_in (view (rc_sys t')) k d)
    ∧ (∀ k d, v_deps (view s) !! k = Some d → IsInFlight (d_Status d) = false →
         v_deps (view (rc_sys t')) !! k = Some d)
    ∧ s_router (rc_sys t') = LoadBalancer.NewRouter.

Lemma recovered_ready policy s : ready s →
  wp (RecoverDeployments policy) (λ r s', ready s' ∧ recovery_post s r s'
    ∧ s_registry s' = s_registry s ∧ s_router s' = s_router s) s.
Proof.
  intros [H Hid]. pose proof (steps_wp _ _ s (keeps_recovery (λ g r, (g, r)) policy)) as Hk.
  eapply wp_wand; [exact (wp_and _ _ _ s (wp_recovery policy s H) Hk)|]. intros r s' ([Hok R] & [= Eg Er]).
  split_and!; [|done..]. split; [done|]. by rewrite Eg.
Qed.


End start.

(** ** The concrete platform *)

#[local] Existing Instance demo_entropy.
#[local] Existing Instance demo_entropy_laws.
#[local] Existing Instance demo_url.
#[local] Existing Instance demo_externals.
#[local] Existing Instance unicode_none.

Definition demo_stored : list Worker := Eval vm_compute in
  match wr_List order_id (rg_repo (s_registry demo_stuck)) with inr l => l | inl _ => [] end.

Lemma demo_stored_workers : stored_workers order_id demo_stuck demo_stored.
Proof.
  split; [vm_compute; reflexivity|]. split.
  - apply (bool_decide_unpack (NoDup (w_WorkerKey <$> demo_stored))). vm_compute. exact I.
  - apply (bool_decide_unpack (NoDup (w_ID <$> demo_stored))). vm_compute. exact I.
  - apply (bool_decide_unpack (Forall (λ w, w_ID w ≠ "" ∧ 0 ≤ w_ActiveWorkloads w) demo_stored)). vm_compute. exact I.
Qed.


Example crashed_start_is_failed :
  let '((report, actions), t') := startup (NewReconciler (restart order_id tt demo_stuck)) in
  match report with inr r => rp_StartingRecovered r = 1 ∧ rp_OrphanContainersStopped r = 2 | inl _ => False end
  ∧ d_Status <$> (dr_view (s_deps (rc_sys t')) !! demo_id) = Some StatusFailed
  ∧ actions = inr no_actions.
Proof. vm_compute. split_and!; reflexivity. Qed.

(** A deployment that runs loses its routes with the memory of the process, and
    the start, which finds every container in place, does not bring them back. *)
Example restart_loses_routes :
  let '((_, actions), t') := startup (NewReconciler (restart order_id tt demo_created)) in
  length (project_targets "proj" (s_router demo_created)) = 2%nat
  ∧ d_Status <$> (dr_view (s_deps (rc_sys t')) !! demo_id) = Some StatusRunning
  ∧ actions = inr no_actions
  ∧ project_targets "proj" (s_router (rc_sys t')) = [].
Proof. vm_compute. split_and!; reflexivity. Qed.

(** Without any setting the API is open to a token of the source code. *)
Example default_token_is_admin :
  let cfg := Load (env := environ_of ∅) in
  sc_auth (server_config cfg) = true
  ∧ ValidateToken "nebula-admin-token-secret-key-12345" (token_store cfg) = inr admin
  ∧ loop_times cfg = NewReconciler_times.
Proof. vm_compute. split_and!; reflexivity. Qed.
