(* ===== verification/Metrics.v ===== *)
(** * Metrics: internal/observability/metrics.go

    The registry of metric families and its page in the text format of
    Prometheus. Families are shared by pointer and never removed, so that a
    family is named by its key in the registry. The verb [%g] is the class
    [FloatText]. *)

From stdpp Require Import base option gmap strings list pretty sorting.
From Stdlib Require Import ZArith Lia Ascii.
From S2P Require Import Prelude GoLib GoFloat Http Json.

Inductive MetricType := TypeCounter | TypeGauge | TypeHistogram.

Definition metric_type_string (t : MetricType) : string :=
  match t with TypeCounter => "counter" | TypeGauge => "gauge" | TypeHistogram => "histogram" end.

(** Labels as they are passed, [None] for a nil map. *)
Abbreviation Labels := (option (gmap string string)) (only parsing).

Record MetricFamily := mkFamily {
  mf_Name : string;
  mf_Help : string;
  mf_Type : MetricType;
  mf_values : gmap string float64;
  mf_labels : gmap string (gmap string string)
}.

#[export] Instance MetricFamily_eta : Settable MetricFamily := λ f,
  mkFamily (mf_Name f) (mf_Help f) (mf_Type f) (mf_values f) (mf_labels f).

Abbreviation MetricRegistry := (gmap string MetricFamily) (only parsing).

Definition NewMetricRegistry : MetricRegistry := ∅.

(** The three ways to register differ in the type; a family that exists keeps
    its own. *)
Definition RegisterFamily (type : MetricType) (name help : string) (r : MetricRegistry) : MetricRegistry :=
  match r !! name with
  | Some _ => r
  | None => <[name := mkFamily name help type ∅ ∅]> r
  end.

Definition RegisterCounter : string → string → MetricRegistry → MetricRegistry := RegisterFamily TypeCounter.
Definition RegisterGauge : string → string → MetricRegistry → MetricRegistry := RegisterFamily TypeGauge.
Definition RegisterHistogram : string → string → MetricRegistry → MetricRegistry := RegisterFamily TypeHistogram.

(** The keys of a map, sorted; the order in which the map is read does not
    matter. *)
Definition sorted_keys {V} (m : gmap string V) : list string := sort_Strings (map_to_list m).*1.

Definition label_part (labels : gmap string string) (k : string) : string :=
  k +:+ "=" +:+ lookup_str labels k.

Definition labelKey (labels : gmap string string) : string :=
  Join (label_part labels <$> sorted_keys labels) ",".

Definition Add (labels : Labels) (val : float64) (f : MetricFamily) : MetricFamily :=
  let key := labelKey (default ∅ labels) in
  let f := f <| mf_values ::= λ vs, <[key := fadd (default fzero (vs !! key)) val]> vs |> in
  match labels with Some l => f <| mf_labels ::= <[key := l]> |> | None => f end.

Definition Inc (labels : Labels) : MetricFamily → MetricFamily := Add labels fone.

Definition Set_ (labels : Labels) (val : float64) (f : MetricFamily) : MetricFamily :=
  let key := labelKey (default ∅ labels) in
  let f := f <| mf_values ::= <[key := val]> |> in
  match labels with Some l => f <| mf_labels ::= <[key := l]> |> | None => f end.

Definition Observe : Labels → float64 → MetricFamily → MetricFamily := Set_.

Definition Get (labels : Labels) (f : MetricFamily) : float64 :=
  default fzero (mf_values f !! labelKey (default ∅ labels)).

(** ** The page *)

Definition double_quote : string := String dquote EmptyString.

Section page.
Context {ft : FloatText}.

(** One sample; the values of the labels are written as they are. *)
Definition sample_line (name : string) (labels : gmap string string) (val : float64) : string :=
  if decide (labels = ∅) then name +:+ " " +:+ ft_g val
  else name +:+ "{"
    +:+ Join ((λ lk, lk +:+ "=" +:+ double_quote +:+ lookup_str labels lk +:+ double_quote) <$> sorted_keys labels) ","
    +:+ "} " +:+ ft_g val.

Definition sample_of (f : MetricFamily) (k : string) : string :=
  sample_line (mf_Name f) (default ∅ (mf_labels f !! k)) (default fzero (mf_values f !! k)).

Definition samples (f : MetricFamily) : list string :=
  if decide (mf_values f = ∅) then [mf_Name f +:+ " 0"]
  else sample_of f <$> sorted_keys (mf_values f).

Definition family_lines (f : MetricFamily) : list string :=
  ["# HELP " +:+ mf_Name f +:+ " " +:+ mf_Help f;
   "# TYPE " +:+ mf_Name f +:+ " " +:+ metric_type_string (mf_Type f)] ++ samples f.

Definition page_lines (r : MetricRegistry) : list string :=
  sorted_keys r ≫= λ name, match r !! name with Some f => family_lines f | None => [] end.

Definition FormatPrometheus (r : MetricRegistry) : string :=
  foldr (λ line page, line +:+ newline +:+ page) "" (page_lines r).

(** The handler of the page, on a server whose state holds the registry. *)
Definition HTTPHandler {C S} (metrics : S → MetricRegistry) : Handler C S := λ r w,
  let! reg := gets metrics in
  ret (Returned (Write (FormatPrometheus reg) (WriteHeader 200
    (SetHeader "Content-Type" "text/plain; version=0.0.4; charset=utf-8" w)))).

End page.

Definition ResetAll (r : MetricRegistry) : MetricRegistry :=
  (λ f, f <| mf_values := ∅ |> <| mf_labels := ∅ |>) <$> r.

(** The minimum metric set. *)
Definition DefaultRegistry : MetricRegistry :=
  RegisterCounter "image_pull_failure_total" "Cumulative count of image pull failures encountered by workers"
  (RegisterCounter "scheduler_placement_total" "Cumulative count of scheduler placement decisions"
  (RegisterCounter "container_restart_total" "Cumulative count of container restarts on workers"
  (RegisterCounter "deployment_status_total" "Cumulative count of deployments partitioned by terminal or active status"
  (RegisterHistogram "deployment_duration_seconds" "Total duration in seconds for deployment lifecycle completion"
  (RegisterGauge "worker_memory_percent" "Current memory utilization percentage on the worker host"
  (RegisterGauge "worker_cpu_percent" "Current CPU utilization percentage on the worker host"
  (RegisterGauge "worker_heartbeat_age_seconds"
     "Time in seconds elapsed since last received heartbeat from worker" NewMetricRegistry))))))).

(** ** Label sets and their keys

    Keys of labels without the equals sign and the comma, and values without
    the comma, can be read off the key that they are joined to. *)

Definition plain_labels (l : gmap string string) : Prop :=
  map_Forall (λ k v, str_free "=" k = true ∧ str_free "," k = true ∧ str_free "," v = true) l.

#[export] Instance plain_labels_dec l : Decision (plain_labels l).
Proof. unfold plain_labels. apply _. Defined.

Lemma sorted_keys_perm {V} (m : gmap string V) : sorted_keys m ≡ₚ (map_to_list m).*1.
Proof. apply SliceStable_perm. Qed.

Lemma sorted_keys_elem {V} (m : gmap string V) k : k ∈ sorted_keys m ↔ is_Some (m !! k).
Proof.
  rewrite sorted_keys_perm, list_elem_of_fmap. split.
  - intros ([k' v] & -> & H%elem_of_map_to_list). by exists v.
  - intros [v H]. exists (k, v). by rewrite elem_of_map_to_list.
Qed.

Lemma sorted_keys_NoDup {V} (m : gmap string V) : NoDup (sorted_keys m).
Proof. rewrite sorted_keys_perm. apply NoDup_fst_map_to_list. Qed.

Lemma plain_part l k : plain_labels l → k ∈ sorted_keys l →
  str_free "," (label_part l k) = true ∧ Cut (label_part l k) "=" = (k, lookup_str l k, true).
Proof.
  intros Hl [v Hv]%sorted_keys_elem. destruct (Hl k v Hv) as (H1 & H2 & H3).
  assert (lookup_str l k = v) as Ev by (unfold lookup_str; by rewrite Hv). unfold label_part. rewrite Ev. split.
  - rewrite !str_free_app, H2, H3. done.
  - by apply Cut_sep.
Qed.

(** The pairs that a key is read as. *)
Definition read_key (key : string) : list (string * string) :=
  if decide (key = "") then [] else (λ p, (Cut p "=").1) <$> Split key ",".

Lemma read_labelKey l : plain_labels l →
  read_key (labelKey l) = (λ k, (k, lookup_str l k)) <$> sorted_keys l.
Proof.
  intros Hl. unfold read_key, labelKey. destruct (sorted_keys l) as [|k ks] eqn:E; [done|].
  assert (∀ k', k' ∈ k :: ks → str_free "," (label_part l k') = true
    ∧ Cut (label_part l k') "=" = (k', lookup_str l k', true)) as Hp
    by (intros k' Hk; apply plain_part; [done|by rewrite E]).
  rewrite decide_False.
  - rewrite Split_Join; [|done|apply Forall_fmap, Forall_forall; intros k' Hk; by apply Hp].
    rewrite <- list_fmap_compose. apply list_fmap_ext. intros i k' Hk%list_elem_of_lookup_2. cbn.
    by rewrite (proj2 (Hp k' Hk)).
  - cbn [fmap list_fmap Join]. destruct ks; cbn; unfold label_part; by destruct k.
Qed.

Lemma labelKey_inj l l' : plain_labels l → plain_labels l' → labelKey l = labelKey l' → l = l'.
Proof.
  intros Hl Hl' E. apply (f_equal read_key) in E. rewrite !read_labelKey in E by done.
  assert (∀ m : gmap string string,
    list_to_map ((λ k, (k, lookup_str m k)) <$> sorted_keys m) = m) as Hm; [|by rewrite <- (Hm l), E, Hm].
  intros m. apply map_eq. intros k. destruct (m !! k) as [v|] eqn:Ev.
  - apply elem_of_list_to_map_1.
    + rewrite <- list_fmap_compose, list_fmap_id. apply sorted_keys_NoDup.
    + apply list_elem_of_fmap. exists k. unfold lookup_str. rewrite Ev. split; [done|].
      apply sorted_keys_elem. by exists v.
  - apply not_elem_of_list_to_map_1. rewrite <- list_fmap_compose, list_fmap_id, sorted_keys_elem, Ev.
    by intros [? ?].
Qed.

(** ** A family implements a map of series *)

Inductive MetricOp :=
| OpAdd (labels : Labels) (val : float64)
| OpSet (labels : Labels) (val : float64).

Definition op_labels (o : MetricOp) : gmap string string :=
  match o with OpAdd labels _ | OpSet labels _ => default ∅ labels end.

Definition metric_op (f : MetricFamily) (o : MetricOp) : MetricFamily :=
  match o with OpAdd labels val => Add labels val f | OpSet labels val => Set_ labels val f end.

(** The value of each label set. *)
Abbreviation Series := (gmap (gmap string string) float64) (only parsing).

Definition series_op (m : Series) (o : MetricOp) : Series :=
  match o with
  | OpAdd labels val => <[op_labels o := fadd (default fzero (m !! op_labels o)) val]> m
  | OpSet labels val => <[op_labels o := val]> m
  end.

Record implements (m : Series) (f : MetricFamily) : Prop := {
  im_plain : ∀ l v, m !! l = Some v → plain_labels l;
  im_values : ∀ k v, mf_values f !! k = Some v ↔ ∃ l, m !! l = Some v ∧ labelKey l = k;
  im_labels : ∀ k l, mf_labels f !! k = Some l → plain_labels l ∧ labelKey l = k;
  im_stored : ∀ l v, m !! l = Some v → l ≠ ∅ → mf_labels f !! labelKey l = Some l
}.

Lemma implements_values m f l : implements m f → plain_labels l → mf_values f !! labelKey l = m !! l.
Proof.
  intros [H1 H2 _ _] Hl. apply option_eq. intros v. rewrite H2. split; [|by eauto].
  intros (l' & Hv & E). apply labelKey_inj in E; [by subst|by eapply H1|done].
Qed.

Lemma implements_labels m f l v : implements m f → m !! l = Some v → default ∅ (mf_labels f !! labelKey l) = l.
Proof.
  intros [H1 _ H3 H4] Hv. destruct (decide (l = ∅)) as [->|Hne]; [|by rewrite (H4 l v)].
  destruct (mf_labels f !! labelKey ∅) as [l|] eqn:El; [|done]. destruct (H3 _ _ El) as [Hl E].
  by apply labelKey_inj in E.
Qed.

Lemma implements_set m f labels v : implements m f → plain_labels (default ∅ labels) →
  implements (<[default ∅ labels := v]> m) (Set_ labels v f).
Proof.
  intros H Hl. pose proof H as [H1 H2 H3 H4]. set (l := default ∅ labels) in *.
  assert (mf_values (Set_ labels v f) = <[labelKey l := v]> (mf_values f)) as Ev by (unfold Set_; by destruct labels).
  assert (∀ k, k ≠ labelKey l → mf_labels (Set_ labels v f) !! k = mf_labels f !! k) as Eo.
  { intros k Hk. unfold Set_. destruct labels; [|done]. cbn. by rewrite lookup_insert_ne. }
  assert (mf_labels (Set_ labels v f) !! labelKey l = Some l
    ∨ l = ∅ ∧ mf_labels (Set_ labels v f) !! labelKey l = mf_labels f !! labelKey l) as En.
  { unfold Set_. destruct labels; [left; cbn; apply lookup_insert_eq|by right]. }
  split.
  - intros l' v'. rewrite lookup_insert. case_decide; [by subst|apply H1].
  - intros k v'. rewrite Ev, lookup_insert. case_decide as Ek.
    + subst k. split; [intros [= <-]; exists l; by rewrite lookup_insert_eq|].
      intros (l' & Hv & E). rewrite lookup_insert in Hv. case_decide as El; [done|].
      apply labelKey_inj in E; [by subst|by eapply H1|done].
    + rewrite H2. apply exist_proper. intros l'. rewrite lookup_insert. case_decide as El; [|done].
      rewrite <- El. split; intros [_ E]; by rewrite E in Ek.
  - intros k l'. destruct (decide (k = labelKey l)) as [->|Hk]; [|rewrite Eo by done; apply H3].
    destruct En as [->|[_ ->]]; [by intros [= <-]|apply H3].
  - intros l' v'. rewrite lookup_insert. case_decide as El.
    + subst l'. intros _ Hne. destruct En as [->|[? _]]; done.
    + intros Hv Hne. rewrite Eo; [by eapply H4|]. intros E. apply El. symmetry.
      apply labelKey_inj; [by eapply H1|done..].
Qed.

Lemma Add_Set labels v f : Add labels v f = Set_ labels (fadd (Get labels f) v) f.
Proof. by destruct labels. Qed.

Lemma implements_op m f o : implements m f → plain_labels (op_labels o) →
  implements (series_op m o) (metric_op f o).
Proof.
  intros H Hl. destruct o as [labels v|labels v]; cbn [series_op metric_op op_labels] in *.
  - rewrite Add_Set. unfold Get. rewrite (implements_values m f) by done. by apply implements_set.
  - by apply implements_set.
Qed.

Lemma implements_ops ops : ∀ m f, implements m f → Forall (λ o, plain_labels (op_labels o)) ops →
  implements (fold_left series_op ops m) (fold_left metric_op ops f).
Proof.
  induction ops as [|o ops IH]; intros m f H; [done|]. intros [Ho Hops]%Forall_cons. cbn.
  apply IH; [by apply implements_op|done].
Qed.

Lemma implements_new name help type : implements ∅ (mkFamily name help type ∅ ∅).
Proof.
  split; cbn; [intros l v|intros k v|intros k l|intros l v]; rewrite lookup_empty; try done.
  split; [done|]. intros (l & H & _). by rewrite lookup_empty in H.
Qed.

Section samples.
Context {ft : FloatText}.

(** The samples of a family are one for each of its series. *)
Lemma implements_samples m f : implements m f →
  samples f ≡ₚ (if decide (m = ∅) then [mf_Name f +:+ " 0"]
                else (λ p, sample_line (mf_Name f) p.1 p.2) <$> map_to_list m).
Proof.
  intros H. unfold samples.
  assert (mf_values f = ∅ ↔ m = ∅) as He.
  { split; intros E; apply map_eq; intros k; rewrite lookup_empty.
    - destruct (m !! k) as [v|] eqn:Ek; [|done]. pose proof (proj2 (im_values _ _ H (labelKey k) v)) as Hv.
      rewrite E, lookup_empty in Hv. exfalso. discriminate Hv. by eauto.
    - destruct (mf_values f !! k) as [v|] eqn:Ek; [|done]. apply (im_values _ _ H) in Ek as (l & Hv & _).
      by rewrite E, lookup_empty in Hv. }
  destruct (decide (mf_values f = ∅)), (decide (m = ∅)); [done|tauto..|].
  assert (sorted_keys (mf_values f) ≡ₚ (λ p, labelKey p.1) <$> map_to_list m) as ->.
  { apply NoDup_Permutation; [apply sorted_keys_NoDup| |].
    - change (NoDup (labelKey ∘ fst <$> map_to_list m)). rewrite list_fmap_compose. apply NoDup_fmap_2_strong; [|apply NoDup_fst_map_to_list].
      intros l l' Hl Hl' E. apply list_elem_of_fmap in Hl as ([k v] & -> & Hv%elem_of_map_to_list).
      apply list_elem_of_fmap in Hl' as ([k' v'] & -> & Hv'%elem_of_map_to_list).
      apply labelKey_inj; [by eapply im_plain..|done].
    - intros k. rewrite sorted_keys_elem, list_elem_of_fmap. split.
      + intros [v (l & Hv & <-)%(im_values _ _ H)]. exists (l, v). by rewrite elem_of_map_to_list.
      + intros ([l v] & -> & Hv%elem_of_map_to_list). exists v. apply (im_values _ _ H). by exists l. }
  rewrite <- list_fmap_compose. apply reflexive_eq, list_fmap_ext.
  intros i [l v] Hi%list_elem_of_lookup_2%elem_of_map_to_list. unfold compose, sample_of. cbn [fst snd].
  rewrite (implements_labels m f l v H Hi), (implements_values m f l H) by by eapply im_plain. by rewrite Hi.
Qed.

(** After every sequence of additions and settings with label sets whose keys
    can be read back, a metric family behaves like a map from label sets to
    values: Get reads that map, and the page has exactly one sample for each of
    its entries, or a zero. *)
Theorem family_refines_series name help type ops :
  Forall (λ o, plain_labels (op_labels o)) ops →
  let f := fold_left metric_op ops (mkFamily name help type ∅ ∅) in
  let m := fold_left series_op ops ∅ in
  (∀ labels, plain_labels (default ∅ labels) → Get labels f = default fzero (m !! default ∅ labels))
  ∧ samples f ≡ₚ (if decide (m = ∅) then [mf_Name f +:+ " 0"]
                  else (λ p, sample_line (mf_Name f) p.1 p.2) <$> map_to_list m).
Proof.
  intros Hops f m. pose proof (implements_ops ops ∅ _ (implements_new name help type) Hops) as H.
  split; [|by apply implements_samples]. intros labels Hl. unfold Get. by rewrite (implements_values m f).
Qed.

End samples.

(** ** Pages *)

(** The texts of whole numbers are enough here. *)
#[local] Instance whole_text : FloatText := {|
  ft_g := λ x, match int_of_floor x with Some n => Itoa n | None => "NaN" end;
  ft_json := λ _, ""; ft_parse := λ _, None
|}.

Definition demo_ops : list MetricOp :=
  [OpAdd (Some {["status" := "RUNNING"; "project_id" := "p1"]}) fone;
   OpAdd (Some {["status" := "FAILED"; "project_id" := "p1"]}) fone;
   OpAdd (Some {["project_id" := "p1"; "status" := "RUNNING"]}) fone; OpSet None (float_of_int 7)].

Definition demo_family : MetricFamily :=
  fold_left metric_op demo_ops (mkFamily "deployment_status_total" "Deployments" TypeCounter ∅ ∅).

Lemma family_refines_series_witness :
  let m := fold_left series_op demo_ops ∅ in
  size m = 3%nat ∧ Get (Some {["status" := "RUNNING"; "project_id" := "p1"]}) demo_family = float_of_int 2
  ∧ samples demo_family ≡ₚ (λ p, sample_line "deployment_status_total" p.1 p.2) <$> map_to_list m.
Proof.
  assert (Forall (λ o, plain_labels (op_labels o)) demo_ops) as H
    by (apply (bool_decide_unpack (Forall (λ o, plain_labels (op_labels o)) demo_ops)); vm_compute; exact I).
  destruct (family_refines_series "deployment_status_total" "Deployments" TypeCounter demo_ops H) as [H1 H2].
  split; [vm_compute; reflexivity|]. split; [|exact H2].
  etransitivity; [apply H1, (bool_decide_unpack (plain_labels {["status" := "RUNNING"; "project_id" := "p1"]})); vm_compute; exact I|].
  vm_compute. reflexivity.
Defined.

Example demo_page :
  FormatPrometheus {["deployment_status_total" := demo_family]} = Join
    ["# HELP deployment_status_total Deployments"; "# TYPE deployment_status_total counter";
     "deployment_status_total 7";
     "deployment_status_total{project_id=" +:+ double_quote +:+ "p1" +:+ double_quote +:+ ",status="
       +:+ double_quote +:+ "FAILED" +:+ double_quote +:+ "} 1";
     "deployment_status_total{project_id=" +:+ double_quote +:+ "p1" +:+ double_quote +:+ ",status="
       +:+ double_quote +:+ "RUNNING" +:+ double_quote +:+ "} 2"; ""] newline.
Proof. vm_compute. reflexivity. Qed.

(** Joined with commas, different label sets have one key: their values are
    added up, and appear under the labels that came last. *)
Example label_keys_collide :
  let a : gmap string string := {["reason" := "x,stage=y"]} in
  let b : gmap string string := {["reason" := "x"; "stage" := "y"]} in
  let f := Inc (Some b) (Inc (Some a) (mkFamily "m" "" TypeCounter ∅ ∅)) in
  Get (Some a) f = float_of_int 2 ∧ length (samples f) = 1%nat.
Proof. vm_compute. split; reflexivity. Qed.

(** The reference of an image, which its user chooses, is printed as it is: one
    with a quote and a line end writes samples of its own. *)
Example image_writes_samples :
  let image := "x" +:+ double_quote +:+ "} 1" +:+ newline +:+ "worker_cpu_percent 99" +:+ newline +:+ "y{a="
               +:+ double_quote in
  let f := Inc (Some {["image_ref" := image]}) (mkFamily "image_pull_failure_total" "" TypeCounter ∅ ∅) in
  "worker_cpu_percent 99" ∈ Split (FormatPrometheus {["image_pull_failure_total" := f]}) (ascii_of_nat 10).
Proof. apply (bool_decide_unpack (_ ∈ _)). vm_compute. exact I. Qed.

(** A histogram keeps its last observation only. *)
Example histogram_is_last_value :
  Get None (Observe None (float_of_int 3) (Observe None (float_of_int 90) (mkFamily "d" "" TypeHistogram ∅ ∅)))
  = float_of_int 3.
Proof. vm_compute. reflexivity. Qed.

Example default_families : sorted_keys DefaultRegistry =
  ["container_restart_total"; "deployment_duration_seconds"; "deployment_status_total"; "image_pull_failure_total";
   "scheduler_placement_total"; "worker_cpu_percent"; "worker_heartbeat_age_seconds"; "worker_memory_percent"].
Proof. vm_compute. reflexivity. Qed.
