(* ===== verification/NebulaCli.v ===== *)
(** * The command line program: cmd/nebula-cli/main.go

    The commands over the client of Cli.v and the configuration of CliConfig.v,
    with the package flag. A run ends with what it wrote to its outputs and an
    exit code; of the text that the package flag writes for wrong arguments the
    first line is kept. *)

From stdpp Require Import base option gmap strings list pretty.
From Stdlib Require Import ZArith Lia Ascii.
From S2P Require Import Prelude GoLib GoFloat GoTime TimeParse Http Json JsonDecode Records Build Cli CliFacts CliConfig.

(** ** strconv.ParseInt with base 0 and strconv.ParseBool *)

Definition lower_char (c : ascii) : ascii := ascii_of_N (N.lor (N_of_ascii c) 32).

Definition is_base_char (c : ascii) : bool := existsb (Ascii.eqb (lower_char c)) ["b"; "o"; "x"]%char.

(** What the last character was. *)
Inductive Saw := SawDigit | SawUnderscore | SawOther.

Fixpoint underscores_from (hex : bool) (saw : Saw) (s : string) : bool :=
  match s with
  | EmptyString => match saw with SawUnderscore => false | _ => true end
  | String c s' =>
    let l := N_of_ascii (lower_char c) in
    if is_digit c || (hex && ((97 <=? l) && (l <=? 102))%N) then underscores_from hex SawDigit s'
    else if Ascii.eqb c "_" then match saw with SawDigit => underscores_from hex SawUnderscore s' | _ => false end
    else match saw with SawUnderscore => false | _ => underscores_from hex SawOther s' end
  end.

(** [underscoreOK], of the digits without their sign. *)
Definition underscoreOK (s : string) : bool :=
  match s with
  | String z (String b s') =>
    if Ascii.eqb z "0" && is_base_char b then underscores_from (Ascii.eqb (lower_char b) "x") SawDigit s'
    else underscores_from false SawOther s
  | _ => underscores_from false SawOther s
  end.

(** The digits in [base], with underscores between them. *)
Fixpoint base_value (base acc : Z) (s : string) : option Z :=
  match s with
  | EmptyString => Some acc
  | String c s' =>
    if Ascii.eqb c "_" then base_value base acc s'
    else
      let l := Z.of_N (N_of_ascii (lower_char c)) in
      let d := if is_digit c then Z.of_N (N_of_ascii c) - 48
               else if (97 <=? l) && (l <=? 122) then l - 97 + 10 else 99 in
      if d <? base then base_value base (base * acc + d) s' else None
  end.

Definition unsigned_value (s : string) : option Z :=
  let '(base, digits) :=
    match s with
    | String z s' =>
      if Ascii.eqb z "0" then
        match s' with
        | String b (String _ _ as s2) =>
          if Ascii.eqb (lower_char b) "b" then (2, drop_string 2 s)
          else if Ascii.eqb (lower_char b) "o" then (8, drop_string 2 s)
          else if Ascii.eqb (lower_char b) "x" then (16, drop_string 2 s)
          else (8, s')
        | _ => (8, s')
        end
      else (10, s)
    | EmptyString => (10, s)
    end in
  if decide (s = "") then None else if underscoreOK s then base_value base 0 digits else None.

Definition int_digits (s : string) : option Z :=
  match eat "-" s, eat "+" s with
  | Some s', _ => Z.opp <$> unsigned_value s'
  | None, Some s' => unsigned_value s'
  | None, None => unsigned_value s
  end.

Definition int_literal (s : string) : option Z :=
  match int_digits s with
  | Some z => if (- 2 ^ 63 <=? z) && (z <? 2 ^ 63) then Some z else None
  | None => None
  end.

Definition ParseBool (s : string) : option bool :=
  if decide (s ∈ ["1"; "t"; "T"; "true"; "TRUE"; "True"]) then Some true
  else if decide (s ∈ ["0"; "f"; "F"; "false"; "FALSE"; "False"]) then Some false
  else None.

Example int_literal_ex :
  int_literal "3" = Some 3 ∧ int_literal "-0x1F" = Some (-31) ∧ int_literal "010" = Some 8 ∧ int_literal "0" = Some 0
  ∧ int_literal "1_000" = Some 1000 ∧ int_literal "1__0" = None ∧ int_literal "0x" = None ∧ int_literal "08" = None
  ∧ int_literal "" = None ∧ int_literal "ten" = None ∧ int_literal "9223372036854775808" = None.
Proof. vm_compute. split_and!; reflexivity. Qed.

(** ** The package flag *)

Inductive FlagKind := StringFlag | IntFlag | BoolFlag.

Inductive FlagValue := StringValue (s : string) | IntValue (n : Z) | BoolValue (b : bool).

(** Each name with its kind and the variable that it sets. *)
Abbreviation FlagSet := (gmap string (FlagKind * string)) (only parsing).

Definition flag_Set (kind : FlagKind) (s : string) : option FlagValue :=
  match kind with
  | StringFlag => Some (StringValue s)
  | IntFlag => IntValue <$> int_literal s
  | BoolFlag => BoolValue <$> ParseBool s
  end.

(** The message for a value that is not taken. *)
Definition bad_value {uni : Unicode} (kind : FlagKind) (name value : string) : error :=
  match kind with
  | BoolFlag => "invalid boolean value " +:+ Quote value +:+ " for -" +:+ name +:+ ": parse error"
  | _ => "invalid value " +:+ Quote value +:+ " for flag -" +:+ name +:+ ": "
         +:+ match int_digits value with Some _ => "value out of range" | None => "parse error" end
  end.

(** The argument cut at its first equals sign, which is not its first character. *)
Definition cut_value (name : string) : string * option string :=
  match name with
  | String c s => let '(n, v, found) := Cut s "=" in (String c n, if (found : bool) then Some v else None)
  | EmptyString => (EmptyString, None)
  end.

(** [FlagSet.Parse]: the variables that are set and the other arguments, or the
    message of the first argument that is wrong. *)
Fixpoint flag_Parse {uni : Unicode} (fs : FlagSet) (vals : gmap string FlagValue) (args : list string) :
    error + (gmap string FlagValue * list string) :=
  match args with
  | [] => inr (vals, [])
  | s :: rest =>
    match s with
    | String "-" (String _ _ as s1) =>
      if decide (s = "--") then inr (vals, rest)
      else
        let name := TrimPrefix s1 "-" in
        if HasPrefix name "-" || HasPrefix name "=" then inl ("bad flag syntax: " +:+ s)
        else
          let '(name, value) := cut_value name in
          match fs !! name with
          | None =>
            if decide (name = "help" ∨ name = "h") then inl "flag: help requested"
            else inl ("flag provided but not defined: -" +:+ name)
          | Some (kind, var) =>
            match (if kind is BoolFlag then Some (default "true" value) else value), rest with
            | Some value, _ =>
              match flag_Set kind value with
              | Some v => flag_Parse fs (<[var := v]> vals) rest
              | None => inl (bad_value kind name value)
              end
            | None, value :: rest' =>
              match flag_Set kind value with
              | Some v => flag_Parse fs (<[var := v]> vals) rest'
              | None => inl (bad_value kind name value)
              end
            | None, [] => inl ("flag needs an argument: -" +:+ name)
            end
          end
    | _ => inr (vals, args)
    end
  end.

(** The variables after parsing, with their defaults. *)
Definition string_var (vals : gmap string FlagValue) (var fallback : string) : string :=
  match vals !! var with Some (StringValue s) => s | _ => fallback end.

Definition int_var (vals : gmap string FlagValue) (var : string) (fallback : Z) : Z :=
  match vals !! var with Some (IntValue n) => n | _ => fallback end.

Definition bool_var (vals : gmap string FlagValue) (var : string) (fallback : bool) : bool :=
  match vals !! var with Some (BoolValue b) => b | _ => fallback end.

Definition string_flag (name : string) : string * (FlagKind * string) := (name, (StringFlag, name)).

Definition login_flags : FlagSet := list_to_map [string_flag "endpoint"; string_flag "token"].
Definition init_flags : FlagSet := list_to_map [string_flag "endpoint"; string_flag "branch"; string_flag "root"].
Definition deploy_flags : FlagSet := list_to_map
  [string_flag "endpoint"; string_flag "project"; string_flag "image"; string_flag "dir"; ("replicas", (IntFlag, "replicas"))].
Definition status_flags : FlagSet := list_to_map [string_flag "endpoint"; string_flag "project"].
Definition logs_flags : FlagSet := list_to_map
  [string_flag "endpoint"; string_flag "project"; string_flag "deployment"; ("follow", (BoolFlag, "follow")); ("f", (BoolFlag, "follow"))].

Example flag_Parse_ex (uni := unicode_none) :
  flag_Parse init_flags ∅ ["--branch=dev"; "-root"; "app"; "shop"; "-x"]
  = inr (<["root" := StringValue "app"]> {["branch" := StringValue "dev"]}, ["shop"; "-x"])
  ∧ flag_Parse logs_flags ∅ ["-f"; "--follow=false"] = inr ({["follow" := BoolValue false]}, [])
  ∧ flag_Parse deploy_flags ∅ ["--replicas"; "two"]
    = inl ("invalid value " +:+ Quote "two" +:+ " for flag -replicas: parse error")
  ∧ flag_Parse deploy_flags ∅ ["--image"] = inl "flag needs an argument: -image".
Proof. vm_compute. split_and!; reflexivity. Qed.

(** ** main *)

(** What was written to the outputs, and the code of the exit. *)
Record Run := mkRun { rn_out : string; rn_err : string; rn_code : Z }.

Definition line (s : string) : string := s +:+ newline.

Definition fails_with (msg : string) : Run := mkRun "" (line msg) 1.

Definition usage : string := line "Nebula CLI — Cloud Control Plane Tool" +:+ newline +:+ line "Usage:"
  +:+ line "  nebula <command> [arguments]" +:+ newline +:+ line "Available Commands:"
  +:+ line "  login     Authenticate with the Nebula Control Plane API"
  +:+ line "  init      Initialize and register a new project"
  +:+ line "  deploy    Deploy an application image or source code to the cluster"
  +:+ line "  status    Show status of a project and its active deployment"
  +:+ line "  logs      Stream or print project and deployment logs"
  +:+ line "  version   Display CLI version" +:+ newline
  +:+ line ("Use " +:+ quote "nebula <command> --help" +:+ " for more information about a command.").

Section main.
Context {uni : Unicode} {jt : JsonText} {ft : FloatText}.
Context {X : Type} {net : HTTPClient X} {env : CliEnv X} {os : OS X}.
Implicit Types (cfg : Config) (x : X).

(** The error of the home directory is dropped. *)
Definition main_config_path : string :=
  join_path (match os_UserHomeDir with inr home => home | inl _ => "" end) DefaultConfigFile.

(** A configuration that cannot be read is as good as none. *)
Definition main_config x : Config :=
  match LoadConfig main_config_path x with
  | inr cfg => cfg
  | inl _ => mkConfig "http://127.0.0.1:8080" "" ""
  end.

Definition run_login cfg (args : list string) x : Run * X :=
  match flag_Parse login_flags ∅ args with
  | inl err => (fails_with err, x)
  | inr (vals, _) =>
    let endpoint := string_var vals "endpoint" (cc_Endpoint cfg) in
    let token := string_var vals "token" "" in
    if decide (token = "") then (fails_with "Error: --token is required", x)
    else
      match Login token (NewClient endpoint token) x with
      | (Some e, _, x) => (fails_with ("Login failed: " +:+ client_error_text e), x)
      | (None, _, x) =>
        let cfg := cfg <| cc_Endpoint := endpoint |> <| cc_Token := token |> in
        let '(err, x) := SaveConfig main_config_path cfg x in
        (mkRun (line ("✅ Successfully authenticated to " +:+ endpoint))
           (match err with
            | Some e => line ("Warning: failed to save config to " +:+ main_config_path +:+ ": " +:+ e)
            | None => ""
            end) 0, x)
      end
  end.

Definition run_init cfg (args : list string) x : Run * X :=
  match flag_Parse init_flags ∅ args with
  | inl err => (fails_with err, x)
  | inr (_, []) => (fails_with "Error: project name is required: nebula init <project-name>", x)
  | inr (vals, projectName :: _) =>
    let client := NewClient (string_var vals "endpoint" (cc_Endpoint cfg)) (cc_Token cfg) in
    match InitProject projectName (string_var vals "branch" "main") (string_var vals "root" ".") client x with
    | (inl e, x) => (fails_with ("Init failed: " +:+ client_error_text e), x)
    | (inr project, x) =>
      let '(_, x) := SaveConfig main_config_path (cfg <| cc_DefaultProject := cp_ID project |>) x in
      (mkRun (line "✅ Project initialized successfully!" +:+ line ("  Project ID: " +:+ cp_ID project)
                +:+ line ("  Name:       " +:+ cp_Name project)) "" 0, x)
    end
  end.

(** The parameters of a deployment; without an image and a directory it is the
    directory of the server that is called a dot. *)
Definition main_deploy_params cfg (vals : gmap string FlagValue) : DeployParams :=
  let image := string_var vals "image" "" in
  let dir := string_var vals "dir" "" in
  mkDeployParams (string_var vals "project" (cc_DefaultProject cfg)) image
    (if decide (image = "" ∧ dir = "") then "." else dir) (int_var vals "replicas" 1) None 0.

Definition run_deploy (fuel : nat) cfg (args : list string) x : option (Run * X) :=
  match flag_Parse deploy_flags ∅ args with
  | inl err => Some (fails_with err, x)
  | inr (vals, _) =>
    let params := main_deploy_params cfg vals in
    if decide (dp_ProjectID params = "")
    then Some (fails_with "Error: project ID is required via --project flag or prior 'nebula init'", x)
    else
      let client := NewClient (string_var vals "endpoint" (cc_Endpoint cfg)) (cc_Token cfg) in
      let started := line ("🚀 Initiating deployment for project " +:+ dp_ProjectID params +:+ "...") in
      '(dep, err, x) ← Deploy fuel params client x;
      Some (match err, dep with
            | Some e, _ => mkRun started (line ("Deployment failed: " +:+ client_error_text e)) 1
            | None, Some dep =>
              mkRun (started +:+ line ("✅ Deployment successful! (Status: " +:+ cd_Status dep +:+ ", ID: " +:+ cd_ID dep +:+ ")")
                +:+ (if decide (cd_ImageDigest dep = "") then "" else line ("  Image Digest: " +:+ cd_ImageDigest dep))) "" 0
            | None, None => mkRun started "" 2
            end, x)
  end.

Definition status_text (status : ProjectStatus) : string :=
  line ("Project: " +:+ cp_Name (ps_Project status) +:+ " (" +:+ cp_ID (ps_Project status) +:+ ")")
  +:+ line ("Service URL: " +:+ ps_ServiceURL status)
  +:+ match ps_LatestDeployment status with
      | Some d => line ("Latest Deployment: " +:+ cd_ID d)
        +:+ line ("  Status:    " +:+ cd_Status d +:+ " (Stage: " +:+ cd_Stage d +:+ ")")
        +:+ line ("  Instances: " +:+ Itoa (cd_RunningCount d) +:+ " / " +:+ Itoa (cd_InstanceCount d) +:+ " running")
        +:+ line ("  Image:     " +:+ cd_Image d)
      | None => line "No deployments recorded for this project."
      end.

Definition run_status cfg (args : list string) x : Run * X :=
  match flag_Parse status_flags ∅ args with
  | inl err => (fails_with err, x)
  | inr (vals, _) =>
    let projectID := string_var vals "project" (cc_DefaultProject cfg) in
    if decide (projectID = "") then (fails_with "Error: project ID is required: nebula status --project=<id>", x)
    else
      match Status projectID (NewClient (string_var vals "endpoint" (cc_Endpoint cfg)) (cc_Token cfg)) x with
      | (inl e, x) => (fails_with ("Status check failed: " +:+ client_error_text e), x)
      | (inr status, x) => (mkRun (status_text status) "" 0, x)
      end
  end.

Definition run_logs cfg (args : list string) x : Run * X :=
  match flag_Parse logs_flags ∅ args with
  | inl err => (fails_with err, x)
  | inr (vals, _) =>
    let projectID := string_var vals "project" (cc_DefaultProject cfg) in
    let deploymentID := string_var vals "deployment" "" in
    if decide (projectID = "" ∧ deploymentID = "")
    then (fails_with "Error: either --project or --deployment must be specified", x)
    else
      let '(out, err, x) := Logs projectID deploymentID (bool_var vals "follow" false)
        (NewClient (string_var vals "endpoint" (cc_Endpoint cfg)) (cc_Token cfg)) x in
      (match err with
       | Some e =>
         if Contains (client_error_text e) "context canceled" then mkRun out "" 0
         else mkRun out (line ("Logs error: " +:+ client_error_text e)) 1
       | None => mkRun out "" 0
       end, x)
  end.

(** [main], with the arguments after the name of the program. *)
Definition nebula_main (fuel : nat) (args : list string) x : option (Run * X) :=
  match args with
  | [] => Some (mkRun usage "" 1, x)
  | cmd :: args =>
    if decide (cmd = "version" ∨ cmd = "--version" ∨ cmd = "-v")
    then Some (mkRun (line ("nebula CLI version " +:+ CurrentClientVersion)) "" 0, x)
    else
      let cfg := main_config x in
      if decide (cmd = "login") then Some (run_login cfg args x)
      else if decide (cmd = "init") then Some (run_init cfg args x)
      else if decide (cmd = "deploy") then run_deploy fuel cfg args x
      else if decide (cmd = "status") then Some (run_status cfg args x)
      else if decide (cmd = "logs") then Some (run_logs cfg args x)
      else Some (fails_with ("Unknown command " +:+ Quote cmd +:+ ". Run 'nebula --help' for usage."), x)
  end.

End main.

(** ** How a run ends *)

Section facts.
Context {uni : Unicode} {jt : JsonText} {ft : FloatText}.
Context {X : Type} {net : HTTPClient X} {env : CliEnv X} {os : OS X} (time_of : X → Time).
Implicit Types (cfg : Config) (x : X).

(** A run succeeds, or fails with a text for its user. *)
Definition run_ends (r : Run * X) : Prop := rn_code r.1 = 0 ∨ rn_code r.1 = 1 ∧ (rn_err r.1 ≠ "" ∨ rn_out r.1 = usage).

Lemma line_not_empty s : line s ≠ "".
Proof. by destruct s. Qed.

Lemma fails_ends msg x : run_ends (fails_with msg, x).
Proof. right. split; [done|]. left. apply line_not_empty. Qed.

Lemma run_login_ends cfg args x : run_ends (run_login cfg args x).
Proof.
  unfold run_login. destruct (flag_Parse _ _ _) as [e|[vals l]]; [apply fails_ends|].
  case_decide; [apply fails_ends|]. destruct (Login _ _ _) as [[[e|] c] x1]; [apply fails_ends|].
  destruct (SaveConfig _ _ _) as [err x2]. by left.
Qed.

Lemma run_init_ends cfg args x : run_ends (run_init cfg args x).
Proof.
  unfold run_init. destruct (flag_Parse _ _ _) as [e|[vals [|n l]]]; [apply fails_ends..|].
  destruct (InitProject _ _ _ _ _) as [[e|p] x1]; [apply fails_ends|].
  destruct (SaveConfig _ _ _) as [err x2]. by left.
Qed.

Lemma run_status_ends cfg args x : run_ends (run_status cfg args x).
Proof.
  unfold run_status. destruct (flag_Parse _ _ _) as [e|[vals l]]; [apply fails_ends|].
  case_decide; [apply fails_ends|]. destruct (Status _ _ _) as [[e|st] x1]; [apply fails_ends|by left].
Qed.

Lemma run_logs_ends cfg args x : run_ends (run_logs cfg args x).
Proof.
  unfold run_logs. destruct (flag_Parse _ _ _) as [e|[vals l]]; [apply fails_ends|].
  case_decide; [apply fails_ends|]. destruct (Logs _ _ _ _ _) as [[out [e|]] x1]; [|by left].
  case_match; [by left|]. right. split; [done|]. left. apply line_not_empty.
Qed.

(** The polls of a deployment have the default timeout. *)
Definition main_turns : nat := deploy_turns (mkDeployParams "" "" "" 0 None 0).

Context {laws : CliEnvLaws net env time_of}.

Lemma run_deploy_ends cfg args x :
  ∃ r, run_ends r ∧ ∀ fuel, (main_turns ≤ fuel)%nat → run_deploy fuel cfg args x = Some r.
Proof.
  unfold run_deploy. destruct (flag_Parse _ _ _) as [e|[vals l]]; [eexists; split; [apply fails_ends|done]|].
  case_decide; [eexists; split; [apply fails_ends|done]|].
  match goal with |- context [Deploy _ ?p ?c x] =>
    destruct (deploy_ends_total time_of p c x) as ([[dep err] x1] & He & Hr) end.
  eexists. split; [|intros fuel Hf; rewrite Hr by exact Hf; cbn; reflexivity].
  destruct err as [e|]; [right; split; [done|]; left; apply line_not_empty|].
  destruct dep as [dep|]; [by left|]. cbn in He. exfalso.
  destruct He as [(_ & ? & _)|[(_ & _ & ? & _)|(e & d & ? & _)]]; done.
Qed.

(** Every run of the command line program, against any server, ends after a
    bounded number of polls: with success, or with exit code 1 and a message, or
    the usage text. *)
Theorem nebula_returns args x :
  ∃ r, run_ends r ∧ ∀ fuel, (main_turns ≤ fuel)%nat → nebula_main fuel args x = Some r.
Proof.
  unfold nebula_main. destruct args as [|cmd args]; [eexists; split; [|done]; right; split; [done|by right]|].
  case_decide; [eexists; split; [|done]; by left|].
  case_decide; [eexists; split; [apply run_login_ends|done]|].
  case_decide; [eexists; split; [apply run_init_ends|done]|].
  case_decide; [apply run_deploy_ends|].
  case_decide; [eexists; split; [apply run_status_ends|done]|].
  case_decide; [eexists; split; [apply run_logs_ends|done]|].
  eexists. split; [apply fails_ends|done].
Qed.

(** After a login that succeeded without a warning, the endpoint and the token
    given are those of the next run, the default project is kept, and the server
    accepted the token. *)
Theorem login_is_remembered {ol : OSLaws os} fuel args vals rest x run x' :
  flag_Parse login_flags ∅ args = inr (vals, rest) →
  let endpoint := string_var vals "endpoint" (cc_Endpoint (main_config x)) in
  let token := string_var vals "token" "" in
  let project := cc_DefaultProject (main_config x) in
  isASCII endpoint = true → isASCII token = true → isASCII project = true →
  nebula_main fuel ("login" :: args) x = Some (run, x') → rn_code run = 0 → rn_err run = "" →
  main_config x' = mkConfig endpoint token project
  ∧ (Login token (NewClient endpoint token) x).1.1 = None.
Proof.
  intros Hf endpoint token project He Ht Hp. unfold nebula_main. rewrite decide_False by (by intros [|[|]]).
  rewrite decide_True by done. unfold run_login. rewrite Hf. cbv zeta. fold endpoint token.
  case_decide; [by intros [= <- <-]|].
  destruct (Login token (NewClient endpoint token) x) as [[[e|] c] x1] eqn:El; [by intros [= <- <-]|].
  destruct (SaveConfig _ _ _) as [err x2] eqn:Es. intros [= <- <-] _. cbn [rn_err]. intros Herr.
  destruct err as [e|]; [by destruct (line_not_empty _ Herr)|]. split; [|done].
  change (SaveConfig main_config_path (mkConfig endpoint token project) x1 = (None, x2)) in Es.
  unfold main_config at 1.
  by rewrite (config_roundtrip main_config_path (mkConfig endpoint token project) x1 x2 He Ht Hp Es).
Qed.

End facts.
