(* ===== verification/NebulaDemo.v ===== *)
(** * Sessions of the command line program

    The program of NebulaCli.v on a disk, against the API of ApiDemo.v. *)

From stdpp Require Import base option gmap strings list pretty.
From Stdlib Require Import ZArith Lia Ascii.
From S2P Require Import Prelude GoLib GoFloat GoTime TimeParse ApiLogs Workers Deployments Fleet Platform Service Projects Demo Secrets Registry Http Auth Json JsonDecode ApiData Api ApiRouter ApiFacts ApiDemo Records Build Cli CliFacts CliDemo CliConfig NebulaCli.

#[local] Existing Instance unicode_none.
#[local] Existing Instance demo_float_text.
#[local] Existing Instance json_ascii.

(** The server with its clock, and the disk. *)
Abbreviation Desk := (DemoApi * Z * gmap string string)%type.

#[local] Instance desk_net : HTTPClient Desk := {|
  http_NewRequest _ _ := None;
  http_Do r x := let '(a, y) := http_Do (HTTPClient := api_net) r x.1 in (a, (y, x.2)) |}.

#[local] Instance desk_env : CliEnv Desk := {|
  clock_now x := (x.1.2, x);
  clock_sleep d x := ((x.1.1, x.1.2 + d), x.2);
  ctx_err _ := None |}.

#[local] Instance desk_os : OS Desk := {|
  os_UserHomeDir := inr "/home/alice";
  os_MkdirAll _ x := (None, x);
  os_WriteFile path data x := (None, (x.1, <[path := data]> x.2));
  os_ReadFile path x := match x.2 !! path with Some data => inr data | None => inl "file does not exist" end |}.

Lemma desk_laws : CliEnvLaws desk_net desk_env (λ x, x.1.2).
Proof.
  split; [done| |].
  - intros d x. cbn. lia.
  - intros r x. unfold http_Do, desk_net. pose proof (do_law (CliEnvLaws := api_laws) r x.1) as H.
    destruct (http_Do r x.1) as [a y]. exact H.
Qed.

Lemma desk_os_laws : OSLaws desk_os.
Proof. split. intros path data x x' [= <-]. cbn. by rewrite lookup_insert_eq. Qed.

Definition desk : Desk := (demo_api, 0, ∅).

Definition type_in (args : list string) (x : Desk) : option Run * Desk :=
  match nebula_main (net := desk_net) (env := desk_env) (os := desk_os) 5 args x with
  | Some (r, x') => (Some r, x')
  | None => (None, x)
  end.

Definition login_args : list string := ["--endpoint=" +:+ api_origin; "--token"; "t-alice"].

Definition remembered : Config := main_config (os := desk_os) (type_in ("login" :: login_args) desk).2.

Definition deploy_args : list string := ["deploy"; "--project"; "proj"; "--image"; "img:2"].

(** A login, then a deployment with the token of the file. *)
Example session :
  let '(first, x) := type_in ("login" :: login_args) desk in
  let '(second, y) := type_in deploy_args x in
  (rn_code <$> first, rn_out <$> second)
  = (Some 0, Some (line "🚀 Initiating deployment for project proj..."
       +:+ line "✅ Deployment successful! (Status: RUNNING, ID: uuid-0000000-31)" +:+ line "  Image Digest: sha256:0"))
  ∧ remembered = mkConfig api_origin "t-alice" ""
  ∧ (rn_err <$> (type_in ["deploy"; "--image=img:2"] x).1)
    = Some (line "Error: project ID is required via --project flag or prior 'nebula init'").
Proof. vm_compute. split_and!; reflexivity. Qed.

(** Success is printed for a deployment that is over but does not run, and for
    one that did not finish in time. *)
Definition stuck_desk (status : string) : option Run :=
  fst <$> run_deploy (net := frozen status) (env := tick) 1100 (mkConfig api_origin "t" "proj") ["--image=img:2"] 0.

Example success_of_the_unfinished :
  (rn_code <$> stuck_desk "BUILDING") = Some 0
  ∧ (rn_out <$> stuck_desk "BUILDING")
    = Some (line "🚀 Initiating deployment for project proj..."
        +:+ line "✅ Deployment successful! (Status: BUILDING, ID: d1)" +:+ line "  Image Digest: sha256:0")
  ∧ (rn_code <$> stuck_desk "ROLLED_BACK") = Some 0.
Proof. vm_compute. split_and!; reflexivity. Qed.

Lemma nebula_returns_witness :
  CliEnvLaws desk_net desk_env (λ x, x.1.2)
  ∧ ∃ r, run_ends r ∧ nebula_main (env := desk_env) (os := desk_os) main_turns deploy_args desk = Some r.
Proof.
  split; [exact desk_laws|].
  destruct (nebula_returns (os := desk_os) (λ x, x.1.2) (laws := desk_laws) deploy_args desk) as (r & Hr & Hf).
  exists r. split; [exact Hr|]. exact (Hf _ (le_n _)).
Defined.

Lemma login_is_remembered_witness : OSLaws desk_os ∧ remembered = mkConfig api_origin "t-alice" "".
Proof.
  split; [exact desk_os_laws|].
  assert (flag_Parse login_flags ∅ login_args
    = inr (<["token" := StringValue "t-alice"]> {["endpoint" := StringValue api_origin]}, [])) as Hf
    by (vm_compute; reflexivity).
  destruct (nebula_main (net := desk_net) (env := desk_env) (os := desk_os) 5 ("login" :: login_args) desk)
    as [[run x']|] eqn:E; [|by vm_compute in E].
  assert (rn_code run = 0 ∧ rn_err run = "") as [Hc He].
  { assert ((fst <$> nebula_main (net := desk_net) (env := desk_env) (os := desk_os) 5 ("login" :: login_args) desk)
      = Some (mkRun (line ("✅ Successfully authenticated to " +:+ api_origin)) "" 0)) as H by (vm_compute; reflexivity).
    rewrite E in H. injection H as ->. split; reflexivity. }
  assert (remembered = main_config (os := desk_os) x') as -> by (unfold remembered, type_in; by rewrite E).
  pose proof (login_is_remembered (ol := desk_os_laws) 5 login_args _ _ desk run x' Hf) as H. cbv zeta in H.
  specialize (H ltac:(vm_compute; reflexivity) ltac:(vm_compute; reflexivity) ltac:(vm_compute; reflexivity) E Hc He).
  destruct H as [-> _]. vm_compute. reflexivity.
Defined.
