(* ===== verification/Sql.v ===== *)
(** * The SQL of the code

    The statements that internal/storage sends to PostgreSQL, as data with their
    documented meaning on tables: parameters are converted to the types that the
    server infers for them, a row is checked against the types, the NOT NULL,
    UNIQUE and REFERENCES constraints of its table, and a statement that fails
    changes nothing. No statement of the code deletes rows. Expressions are
    evaluated row by row: a server that folds constants may report a cast that
    fails also on an empty table. What a text must
    look like to be a UUID, a text or a JSON value for the server, and the
    identifiers that it draws, are the class [PgTypes]; the texts of its errors,
    and which of them the driver reports only after the rows of a query, are the
    class [SqlTexts]. *)

From stdpp Require Import base option gmap strings list.
From Stdlib Require Import ZArith Lia.
From S2P Require Import Prelude GoLib.

(** ** Values and types *)

Inductive ColType := TText | TInt | TBool | TUuid | TTime | TJson | TBytes | TDouble.

(** The values of the columns, and of the arguments that the code passes. No
    statement touches the column of floats. *)
Inductive Value :=
| VNull | VText (s : string) | VInt (n : Z) | VBool (b : bool) | VUuid (s : string)
| VTime (t : Time) | VJson (s : string) | VBytes (s : string).

#[export] Instance Value_eq_dec : EqDecision Value.
Proof. solve_decision. Defined.

Class PgTypes := {
  uuid_in : string → option string;
  text_ok : string → bool;
  jsonb_in : string → option string;
  gen_random_uuid : nat → string
}.

(** What is read back is accepted again, and unchanged; the empty text is one. *)
Class PgTypesLaws `{!PgTypes} : Prop := {
  text_empty : text_ok "" = true;
  uuid_canonical s u : uuid_in s = Some u → uuid_in u = Some u;
  jsonb_canonical s j : jsonb_in s = Some j → jsonb_in j = Some j;
  random_canonical n : uuid_in (gen_random_uuid n) = Some (gen_random_uuid n)
}.

Inductive SqlError :=
| NoRows | BadArgument (v : Value) | CastFailed (v : Value) | NullViolation (col : string) | TypeMismatch (col : string)
| UniqueViolation (name : string) | ForeignKeyViolation (col : string)
| UndefinedTable (name : string) | UndefinedColumn (col : string) | ScanFailed (v : Value)
| Unavailable (why : string).

#[export] Instance SqlError_eq_dec : EqDecision SqlError.
Proof. solve_decision. Defined.

Class SqlTexts := { sql_text : SqlError → string; sql_late : SqlError → bool }.

Definition ebind {E A B} (m : E + A) (k : A → E + B) : E + B :=
  match m with inl e => inl e | inr x => k x end.

Notation "'let?' x := m 'in' k" := (ebind m (λ x, k)) (at level 10, x name, k at level 200) : go_scope.

Fixpoint traverse {E A B} (f : A → E + B) (l : list A) : E + list B :=
  match l with
  | [] => inr []
  | x :: l' => let? y := f x in let? ys := traverse f l' in inr (y :: ys)
  end.

Fixpoint keep {E A} (p : A → E + bool) (l : list A) : E + list A :=
  match l with
  | [] => inr []
  | x :: l' => let? b := p x in let? ys := keep p l' in inr (if (b : bool) then x :: ys else ys)
  end.

Fixpoint assoc {A} (k : string) (l : list (string * A)) : option A :=
  match l with
  | [] => None
  | (k', x) :: l' => if String.eqb k' k then Some x else assoc k l'
  end.

(** INT has 32 bits, TIMESTAMPTZ counts microseconds. *)
Definition int4 (n : Z) : bool := (- 2 ^ 31 <=? n) && (n <? 2 ^ 31).
Definition micro (t : Time) : Time := t - t `mod` 1000.

(** ** Expressions and statements *)

Inductive Expr :=
| ECol (c : string) | EParam (n : nat) | ELit (v : Value) | ENow | EUuid | EExcluded (c : string)
| EEq (a b : Expr) | EGt (a b : Expr) | EOr (a b : Expr) | EAnd (a b : Expr) | EIsNull (a : Expr) | ENot (a : Expr)
| ECast (a : Expr) (ty : ColType) | ECase (c a b : Expr) | ECoalesce (a b : Expr).

(** ON DELETE; no row is ever deleted. *)
Inductive OnDelete := Cascade | SetNull.

Record Column := mkColumn {
  c_name : string; c_type : ColType; c_null : bool; c_default : option Expr; c_ref : option (string * OnDelete)
}.

(** A unique index, of the rows in which [u_null] is null if it is there. *)
Record Unique := mkUnique { u_name : string; u_cols : list string; u_null : option string }.

Abbreviation Row := (list (string * Value)) (only parsing).

Record Table := mkTable { t_cols : list Column; t_uniques : list Unique; t_rows : list Row }.

#[export] Instance Table_eta : Settable Table := λ t, mkTable (t_cols t) (t_uniques t) (t_rows t).

(** The tables, and how many identifiers the server has drawn. *)
Record Database := mkDatabase { db_tables : gmap string Table; db_uuids : nat }.

#[export] Instance Database_eta : Settable Database := λ d, mkDatabase (db_tables d) (db_uuids d).

Record Select := mkSelect {
  q_items : list Expr;
  q_from : string;
  q_where : Expr;
  q_distinct : option string;
  q_order : list (string * bool);
  q_limit : option nat
}.

(** ON CONFLICT, with the columns of the unique index. *)
Inductive Conflict := OnError | DoNothing (cols : list string) | DoUpdate (cols : list string) (sets : list (string * Expr)).

Inductive Stmt :=
| SSelect (q : Select)
| SCountBy (col from : string) (cond : Expr)
| SMax (col from : string) (dflt : Value) (cond : Expr)
| SInsert (into : string) (vals : list (string * Expr)) (conflict : Conflict) (returning : list Expr)
| SInsertSelect (into : string) (cols : list string) (q : Select)
| SUpdate (table : string) (sets : list (string * Expr)) (cond : Expr).

(** A statement with the types that are inferred for its parameters. *)
Record Prepared := mkPrepared { pr_params : list ColType; pr_stmt : Stmt }.

Record Reply := mkReply { rp_rows : list (list Value); rp_affected : Z }.

(** When a statement runs: the clock, and the order in which rows are found. *)
Record Moment := mkMoment { mo_now : Time; mo_order : Order }.

Section sql.
Context {pg : PgTypes}.

Definition has_type (ty : ColType) (v : Value) : bool :=
  match ty, v with
  | TText, VText s => text_ok s
  | TInt, VInt n => int4 n
  | TBool, VBool _ => true
  | TUuid, VUuid s => bool_decide (uuid_in s = Some s)
  | TTime, VTime t => t `mod` 1000 =? 0
  | TJson, VJson s => bool_decide (jsonb_in s = Some s)
  | TBytes, VBytes _ => true
  | _, _ => false
  end.

(** An argument as a parameter of a type. *)
Definition encode (ty : ColType) (v : Value) : SqlError + Value :=
  match ty, v with
  | _, VNull => inr VNull
  | TText, VText s => if text_ok s then inr v else inl (BadArgument v)
  | TUuid, VText s => match uuid_in s with Some u => inr (VUuid u) | None => inl (BadArgument v) end
  | TInt, VInt n => if int4 n then inr v else inl (BadArgument v)
  | TBool, VBool _ => inr v
  | TTime, VTime t => inr (VTime (micro t))
  | TJson, VBytes s => match jsonb_in s with Some j => inr (VJson j) | None => inl (BadArgument v) end
  | TBytes, VBytes _ => inr v
  | _, _ => inl (BadArgument v)
  end.

Fixpoint encode_all (tys : list ColType) (args : list Value) : SqlError + list Value :=
  match tys, args with
  | [], [] => inr []
  | ty :: tys, v :: args => let? x := encode ty v in let? xs := encode_all tys args in inr (x :: xs)
  | _, _ => inl (BadArgument VNull)
  end.

(** ** Evaluation *)

Record Env := mkEnv { en_params : list Value; en_now : Time; en_uuid : string; en_row : Row; en_excluded : Row }.

Definition column (c : string) (r : Row) : SqlError + Value :=
  match assoc c r with Some v => inr v | None => inl (UndefinedColumn c) end.

(** Comparisons with NULL are NULL; OR and AND look at their left side first. *)
Fixpoint eval (e : Env) (x : Expr) : SqlError + Value :=
  match x with
  | ECol c => column c (en_row e)
  | EExcluded c => column c (en_excluded e)
  | EParam n => match en_params e !! n with Some v => inr v | None => inl (BadArgument VNull) end
  | ELit v => inr v
  | ENow => inr (VTime (micro (en_now e)))
  | EUuid => inr (VUuid (en_uuid e))
  | EEq a b =>
    let? v := eval e a in let? w := eval e b in
    inr (match v, w with VNull, _ | _, VNull => VNull | _, _ => VBool (bool_decide (v = w)) end)
  | EGt a b =>
    let? v := eval e a in let? w := eval e b in
    match v, w with
    | VInt m, VInt n => inr (VBool (n <? m))
    | VNull, _ | _, VNull => inr VNull
    | _, _ => inl (BadArgument v)
    end
  | EOr a b =>
    let? v := eval e a in
    match v with
    | VBool true => inr (VBool true)
    | VBool false => eval e b
    | _ => let? w := eval e b in inr (match w with VBool true => w | _ => VNull end)
    end
  | EAnd a b =>
    let? v := eval e a in
    match v with
    | VBool false => inr (VBool false)
    | VBool true => eval e b
    | _ => let? w := eval e b in inr (match w with VBool false => w | _ => VNull end)
    end
  | EIsNull a => let? v := eval e a in inr (VBool (bool_decide (v = VNull)))
  | ENot a => let? v := eval e a in inr (match v with VBool b => VBool (negb b) | _ => VNull end)
  | ECast a ty => let? v := eval e a in match encode ty v with inl _ => inl (CastFailed v) | inr w => inr w end
  | ECase c a b => let? v := eval e c in match v with VBool true => eval e a | _ => eval e b end
  | ECoalesce a b => let? v := eval e a in match v with VNull => eval e b | _ => inr v end
  end.

Definition holds (e : Env) (cond : Expr) (r : Row) : SqlError + bool :=
  let? v := eval (mkEnv (en_params e) (en_now e) (en_uuid e) r []) cond in inr (bool_decide (v = VBool true)).

Definition items (e : Env) (xs : list Expr) (r : Row) : SqlError + list Value :=
  traverse (eval (mkEnv (en_params e) (en_now e) (en_uuid e) r [])) xs.

(** ** Queries *)

(** The order of two values of one type; NULL is the greatest. *)
Definition value_lt (v w : Value) : bool :=
  match v, w with
  | VNull, _ => false
  | _, VNull => true
  | VInt m, VInt n => m <? n
  | VTime m, VTime n => m <? n
  | VText s, VText t | VUuid s, VUuid t => String.ltb s t
  | _, _ => false
  end.

(** The sort by several columns: stably by the last one first. *)
Fixpoint order_by (keys : list (string * bool)) (rows : list Row) : list Row :=
  match keys with
  | [] => rows
  | (c, desc) :: keys =>
    let key r := default VNull (assoc c r) in
    SliceStable (λ r r', if (desc : bool) then value_lt (key r') (key r) else value_lt (key r) (key r')) (order_by keys rows)
  end.

(** DISTINCT ON keeps the first row of each value. *)
Fixpoint distinct_on (c : string) (seen : list Value) (rows : list Row) : list Row :=
  match rows with
  | [] => []
  | r :: rows =>
    let v := default VNull (assoc c r) in
    if decide (v ∈ seen) then distinct_on c seen rows else r :: distinct_on c (v :: seen) rows
  end.

Definition table (name : string) (db : Database) : SqlError + Table :=
  match db_tables db !! name with Some t => inr t | None => inl (UndefinedTable name) end.

(** The rows of a query before its items. *)
Definition found (e : Env) (o : Order) (q : Select) (db : Database) : SqlError + list Row :=
  let? t := table (q_from q) db in
  let? rows := keep (holds e (q_where q)) (permute o (t_rows t)) in
  let rows := order_by (q_order q) rows in
  let rows := match q_distinct q with Some c => distinct_on c [] rows | None => rows end in
  inr (match q_limit q with Some n => take n rows | None => rows end).

Definition count_row (key : Value) (counts : list (Value * Z)) : list (Value * Z) :=
  if existsb (λ kn, bool_decide (kn.1 = key)) counts
  then (λ kn, if decide (kn.1 = key) then (key, kn.2 + 1) else kn) <$> counts
  else counts ++ [(key, 1)].

Definition max_value (v w : Value) : Value :=
  match v, w with
  | VInt m, VInt n => VInt (Z.max m n)
  | VNull, w => w
  | v, _ => v
  end.

(** ** Changes *)

Definition check_value (col : Column) (v : Value) : SqlError + Value :=
  match v with
  | VNull => if c_null col then inr VNull else inl (NullViolation (c_name col))
  | _ => if has_type (c_type col) v then inr v else inl (TypeMismatch (c_name col))
  end.

Definition ids (t : Table) : list Value := omap (assoc "id") (t_rows t).

Definition fk_ok (db : Database) (col : Column) (v : Value) : bool :=
  match c_ref col, v with
  | None, _ | _, VNull => true
  | Some (other, _), _ => match db_tables db !! other with Some t => bool_decide (v ∈ ids t) | None => false end
  end.

Definition check_fk (db : Database) (cols : list Column) (r : Row) : SqlError + unit :=
  match base.filter (λ col, fk_ok db col (default VNull (assoc (c_name col) r)) = false) cols with
  | [] => inr tt
  | col :: _ => inl (ForeignKeyViolation (c_name col))
  end.

(** The key of a row in a unique index: none with a null in it. *)
Definition unique_key (u : Unique) (r : Row) : option (list Value) :=
  let key := (λ c, default VNull (assoc c r)) <$> u_cols u in
  if match u_null u with Some c => bool_decide (default VNull (assoc c r) = VNull) | None => true end
     && bool_decide (VNull ∉ key)
  then Some key else None.

Definition same_key (u : Unique) (r r' : Row) : bool :=
  match unique_key u r with
  | Some key => bool_decide (unique_key u r' = Some key)
  | None => false
  end.

Definition check_unique (us : list Unique) (others : list Row) (r : Row) : SqlError + unit :=
  match base.filter (λ u, existsb (same_key u r) others = true) us with
  | [] => inr tt
  | u :: _ => inl (UniqueViolation (u_name u))
  end.

Definition check_row (db : Database) (t : Table) (others : list Row) (r : Row) : SqlError + unit :=
  let? _ := check_unique (t_uniques t) others r in check_fk db (t_cols t) r.

Definition known (cols : list Column) (names : list string) : SqlError + unit :=
  match base.filter (λ c, c ∉ c_name <$> cols) names with
  | [] => inr tt
  | c :: _ => inl (UndefinedColumn c)
  end.

(** A new row: the values that are given, and the defaults of the other columns. *)
Definition new_row (e : Env) (cols : list Column) (vals : list (string * Value)) : SqlError + Row :=
  let? _ := known cols vals.*1 in
  traverse (λ col,
    let? v := match assoc (c_name col) vals, c_default col with
              | Some v, _ => inr v
              | None, Some x => eval e x
              | None, None => inr VNull
              end in
    let? v := check_value col v in inr (c_name col, v)) cols.

Definition changed_row (e : Env) (cols : list Column) (sets : list (string * Expr)) (r : Row) : SqlError + Row :=
  let? _ := known cols sets.*1 in
  traverse (λ col,
    let? v := match assoc (c_name col) sets with
              | Some x => eval (mkEnv (en_params e) (en_now e) (en_uuid e) r (en_excluded e)) x
              | None => column (c_name col) r
              end in
    let? v := check_value col v in inr (c_name col, v)) cols.

Fixpoint update_rows (e : Env) (db : Database) (t : Table) (sets : list (string * Expr)) (cond : Row → SqlError + bool)
    (done todo : list Row) : SqlError + (list Row * Z) :=
  match todo with
  | [] => inr (done, 0)
  | r :: todo =>
    let? b := cond r in
    if (b : bool) then
      let? r' := changed_row e (t_cols t) sets r in
      let? _ := check_row db t (done ++ todo) r' in
      let? rest := update_rows e db t sets cond (done ++ [r']) todo in inr (rest.1, rest.2 + 1)
    else update_rows e db t sets cond (done ++ [r]) todo
  end.

(** The first row that [r] conflicts with, between those before and after it. *)
Fixpoint split_conflict (u : Unique) (r : Row) (before rows : list Row) : option (list Row * Row * list Row) :=
  match rows with
  | [] => None
  | x :: rows => if same_key u r x then Some (before, x, rows) else split_conflict u r (before ++ [x]) rows
  end.

Definition arbiter (us : list Unique) (cols : list string) : option Unique :=
  head (base.filter (λ u, u_cols u = cols ∧ u_null u = None) us).

Definition conflict_of (t : Table) (conflict : Conflict) (r : Row) : option (list Row * Row * list Row) :=
  match conflict with
  | OnError => None
  | DoNothing cols | DoUpdate cols _ => arbiter (t_uniques t) cols ≫= λ u, split_conflict u r [] (t_rows t)
  end.

(** A row is put into its table; the row that is there afterwards, if the
    statement did something. *)
Definition put_row (e : Env) (db : Database) (t : Table) (conflict : Conflict) (r : Row) :
    SqlError + (list Row * option Row) :=
  match conflict_of t conflict r, conflict with
  | Some (before, x, after), DoUpdate _ sets =>
    let? x' := changed_row (mkEnv (en_params e) (en_now e) (en_uuid e) x r) (t_cols t) sets x in
    let? _ := check_row db t (before ++ after) x' in
    inr (before ++ x' :: after, Some x')
  | Some _, _ => inr (t_rows t, None)
  | None, _ =>
    let? _ := check_row db t (t_rows t) r in inr (t_rows t ++ [r], Some r)
  end.

Definition set_rows (name : string) (t : Table) (rows : list Row) (db : Database) : Database :=
  db <| db_tables ::= <[name := t <| t_rows := rows |>]> |>.

(** The rows of INSERT ... SELECT, one after the other. *)
Fixpoint insert_all (e : Env) (into : string) (cols : list string) (its : list Expr) (rows : list Row) (db : Database) :
    SqlError + Database :=
  match rows with
  | [] => inr db
  | r :: rows =>
    let e' := mkEnv (en_params e) (en_now e) (gen_random_uuid (db_uuids db)) [] [] in
    let? t := table into db in
    let? vs := items e' its r in
    let? r' := new_row e' (t_cols t) (zip cols vs) in
    let db := db <| db_uuids ::= S |> in
    let? put := put_row e' db t OnError r' in
    insert_all e into cols its rows (set_rows into t put.1 db)
  end.

Definition exec (m : Moment) (params : list Value) (st : Stmt) (db : Database) : SqlError + (Reply * Database) :=
  let e := mkEnv params (mo_now m) (gen_random_uuid (db_uuids db)) [] [] in
  match st with
  | SSelect q =>
    let? rows := found e (mo_order m) q db in
    let? vs := traverse (items e (q_items q)) rows in
    inr (mkReply vs (Z.of_nat (length vs)), db)
  | SCountBy col from cond =>
    let? t := table from db in
    let? rows := keep (holds e cond) (permute (mo_order m) (t_rows t)) in
    let counts := fold_left (λ acc r, count_row (default VNull (assoc col r)) acc) rows [] in
    inr (mkReply ((λ kn, [kn.1; VInt kn.2]) <$> counts) (Z.of_nat (length counts)), db)
  | SMax col from dflt cond =>
    let? t := table from db in
    let? rows := keep (holds e cond) (t_rows t) in
    let top := foldr (λ r acc, max_value (default VNull (assoc col r)) acc) VNull rows in
    inr (mkReply [[match top with VNull => dflt | v => v end]] 1, db)
  | SInsert into vals conflict returning =>
    let? t := table into db in
    let? vs := items e vals.*2 [] in
    let? r := new_row e (t_cols t) (zip vals.*1 vs) in
    let db := db <| db_uuids ::= S |> in
    let? put := put_row e db t conflict r in
    let db := set_rows into t put.1 db in
    match put.2 with
    | None => inr (mkReply [] 0, db)
    | Some r => let? out := items e returning r in inr (mkReply [out] 1, db)
    end
  | SInsertSelect into cols q =>
    let? rows := found e (mo_order m) q db in
    let? db := insert_all e into cols (q_items q) rows db in
    inr (mkReply [] (Z.of_nat (length rows)), db)
  | SUpdate name sets cond =>
    let? t := table name db in
    let? rest := update_rows e db t sets (holds e cond) [] (t_rows t) in
    inr (mkReply [] rest.2, set_rows name t rest.1 db)
  end.

Definition sql_run (m : Moment) (p : Prepared) (args : list Value) (db : Database) : (SqlError + Reply) * Database :=
  match (let? params := encode_all (pr_params p) args in exec m params (pr_stmt p) db) with
  | inl err => (inl err, db)
  | inr (reply, db) => (inr reply, db)
  end.

End sql.

(** ** Types and constraints are kept *)

Section typed.
Context {pg : PgTypes}.
Implicit Types (r : Row) (t : Table) (db : Database) (u : Unique) (cols : list Column).

Definition row_ok cols r : Prop := Forall2 (λ col kv, kv.1 = c_name col ∧ check_value col kv.2 = inr kv.2) cols r.

Definition apart (us : list Unique) r r' : Prop := ∀ u, u ∈ us → same_key u r r' = false.

(** The rows have the types of their columns, no null where none may be, no
    two of them share the key of a unique index, and references lead to rows. *)
Record table_ok db t : Prop := {
  to_rows : Forall (row_ok (t_cols t)) (t_rows t);
  to_apart : ForallOrdPairs (apart (t_uniques t)) (t_rows t);
  to_refs : Forall (λ r, check_fk db (t_cols t) r = inr tt) (t_rows t)
}.

Definition db_ok db : Prop := ∀ name t, db_tables db !! name = Some t → table_ok db t.

(** The columns, constraints and identifiers that stay. *)
Record grows db db' : Prop := {
  gr_schema : (λ t, (t_cols t, t_uniques t)) <$> db_tables db' = (λ t, (t_cols t, t_uniques t)) <$> db_tables db;
  gr_ids : ∀ name t, db_tables db !! name = Some t →
    ∃ t', db_tables db' !! name = Some t' ∧ ∀ v, v ∈ ids t → v ∈ ids t'
}.

#[export] Instance grows_preorder : PreOrder grows.
Proof.
  split; [by intros db; split; [done|eauto]|].
  intros a b c [H1 H2] [H3 H4]. split; [congruence|]. intros name t Ht.
  destruct (H2 _ _ Ht) as (t' & Ht' & Hs). destruct (H4 _ _ Ht') as (t'' & Ht'' & Hs'). exists t''. auto.
Qed.

Lemma ebind_inr {E A B} (m : E + A) (k : A → E + B) y : ebind m k = inr y ↔ ∃ x, m = inr x ∧ k x = inr y.
Proof. destruct m; cbn; naive_solver. Qed.

Lemma traverse_Forall2 {E A B} (f : A → E + B) l k : traverse f l = inr k ↔ Forall2 (λ x y, f x = inr y) l k.
Proof.
  revert k. induction l as [|x l IH]; intros k; cbn.
  - split; [intros [= <-]; constructor|]. by inversion 1.
  - split.
    + intros (y & Hy & (ys & Hys & [= <-])%ebind_inr)%ebind_inr. constructor; [done|by apply IH].
    + inversion 1 as [|? y ? ys Hy Hys]; subst. rewrite Hy. cbn. apply IH in Hys. by rewrite Hys.
Qed.

Lemma check_value_inr col v w : check_value col v = inr w → w = v ∧ check_value col v = inr v.
Proof. unfold check_value. destruct v; repeat case_match; intros; by simplify_eq. Qed.

Lemma same_key_sym u r r' : same_key u r r' = same_key u r' r.
Proof.
  unfold same_key. destruct (unique_key u r) as [k|], (unique_key u r') as [k'|]; try done.
  - apply bool_decide_ext. naive_solver.
Qed.

#[export] Instance apart_sym us : Symmetric (apart us).
Proof. intros r r' H u Hu. rewrite same_key_sym. by apply H. Qed.

Lemma FOP_perm {A} (R : A → A → Prop) `{!Symmetric R} l l' : l ≡ₚ l' → ForallOrdPairs R l → ForallOrdPairs R l'.
Proof.
  induction 1 as [|x l l' Hp IH|x y l|l l' l'' _ IH1 _ IH2]; intros H; auto.
  - inversion H as [|? ? Hx Hl]; subst. constructor; [by rewrite <- Hp|auto].
  - inversion H as [|? ? Hx Hl]; subst. inversion Hl as [|? ? Hy Hl']; subst.
    inversion Hx; subst. constructor; [constructor; [by symmetry|done]|]. by constructor.
Qed.

Lemma filter_head_nil {A B} (P : A → Prop) `{!∀ x, Decision (P x)} l (e : A → B) :
  match base.filter P l with [] => inr tt | x :: _ => inl (e x) end = inr tt ↔ Forall (λ x, ¬ P x) l.
Proof.
  split.
  - destruct (base.filter P l) as [|x k] eqn:E; [|done]. intros _. apply Forall_forall. intros x Hx Hp.
    apply (not_elem_of_nil x). rewrite <- E. by apply list_elem_of_filter.
  - intros HF. destruct (base.filter P l) as [|x k] eqn:E; [done|]. exfalso.
    assert (x ∈ base.filter P l) as [Hp Hx]%list_elem_of_filter by (rewrite E; left).
    rewrite Forall_forall in HF. by apply (HF x).
Qed.

Lemma check_unique_inr us others r : check_unique us others r = inr tt ↔ Forall (apart us r) others.
Proof.
  unfold check_unique. rewrite (filter_head_nil (λ u, existsb (same_key u r) others = true)). split.
  - intros H. apply Forall_forall. intros r' Hr u Hu. rewrite Forall_forall in H. specialize (H u Hu).
    destruct (same_key u r r') eqn:E; [|done]. destruct H. apply existsb_exists. exists r'.
    split; [by apply list_elem_of_In|done].
  - intros H. apply Forall_forall. intros u Hu (r' & Hr%list_elem_of_In & E)%existsb_exists.
    rewrite Forall_forall in H. by rewrite (H r' Hr u Hu) in E.
Qed.

Lemma check_fk_inr db cols r :
  check_fk db cols r = inr tt ↔ Forall (λ col, fk_ok db col (default VNull (assoc (c_name col) r)) = true) cols.
Proof.
  unfold check_fk. rewrite (filter_head_nil (λ col, fk_ok db col _ = false)).
  apply Forall_iff. intros col. by rewrite not_false_iff_true.
Qed.

Lemma check_row_inr db t others r :
  check_row db t others r = inr tt ↔ Forall (apart (t_uniques t) r) others ∧ check_fk db (t_cols t) r = inr tt.
Proof.
  unfold check_row. rewrite ebind_inr, <- check_unique_inr. split; [|by intros [H1 H2]; exists tt].
  intros ([] & H1 & H2). done.
Qed.

Lemma fk_ok_grows db db' col v : grows db db' → fk_ok db col v = true → fk_ok db' col v = true.
Proof.
  intros [_ Hg]. unfold fk_ok. destruct (c_ref col) as [[other d]|]; [|done].
  destruct (db_tables db !! other) as [tb|] eqn:E; [|by destruct v].
  destruct (Hg _ _ E) as (tb' & -> & Hs). destruct v; try done; rewrite !bool_decide_eq_true; apply Hs.
Qed.

Lemma check_fk_grows db db' cols r : grows db db' → check_fk db cols r = inr tt → check_fk db' cols r = inr tt.
Proof.
  intros Hg. rewrite !check_fk_inr. intros Hf. eapply Forall_impl; [exact Hf|]. intros col. by apply fk_ok_grows.
Qed.

(** The rows of a new or changed row's columns are checked. *)
Lemma new_row_ok e cols vals r : new_row e cols vals = inr r → row_ok cols r.
Proof.
  unfold new_row. intros (? & _ & H%traverse_Forall2)%ebind_inr. eapply Forall2_impl; [exact H|].
  intros col [k v] (w & _ & (w' & Hw & [= <- <-])%ebind_inr)%ebind_inr. cbn.
  by destruct (check_value_inr _ _ _ Hw) as [-> ?].
Qed.

Lemma changed_row_spec e cols sets r r' : changed_row e cols sets r = inr r' →
  row_ok cols r' ∧ (assoc "id" sets = None → row_ok cols r → assoc "id" r' = assoc "id" r).
Proof.
  unfold changed_row. intros (? & _ & H%traverse_Forall2)%ebind_inr. split.
  - eapply Forall2_impl; [exact H|]. intros col [k v] (w & _ & (w' & Hw & [= <- <-])%ebind_inr)%ebind_inr. cbn.
    by destruct (check_value_inr _ _ _ Hw) as [-> ?].
  - intros Hid Hr.
    assert (∀ cs rs rs', Forall2 (λ col y, (let? v := match assoc (c_name col) sets with
        | Some x0 => eval (mkEnv (en_params e) (en_now e) (en_uuid e) r (en_excluded e)) x0
        | None => column (c_name col) r end in let? v' := check_value col v in inr (c_name col, v')) = inr y) cs rs' →
      Forall2 (λ col kv, kv.1 = c_name col ∧ check_value col kv.2 = inr kv.2) cs rs →
      (assoc "id" rs = None → assoc "id" rs' = None) ∧
      (is_Some (assoc "id" rs) → assoc "id" rs' = assoc "id" r)) as Hgen.
    { clear Hr H. intros cs rs rs' F. revert rs. induction F as [|col [k v] cs rs' Hc F IH]; intros rs Hrs.
      - inversion Hrs; subst. split; [done|]. by intros [].
      - inversion Hrs as [|? [k0 v0] ? rs0 [Hk0 _] Hrs0]; subst. cbn in Hk0. subst k0.
        apply ebind_inr in Hc as (w & Hw & (w' & Hw' & [= <- <-])%ebind_inr). cbn.
        destruct (String.eqb_spec (c_name col) "id") as [Ek|Ek]; [|by apply IH].
        split; [done|]. intros _. rewrite Ek, Hid in Hw. unfold column in Hw.
        destruct (assoc "id" r) as [y|]; [|done]. injection Hw as ->.
        by destruct (check_value_inr _ _ _ Hw') as [-> _]. }
    destruct (Hgen _ _ _ H Hr) as [H1 H2]. destruct (assoc "id" r) eqn:E; [by apply H2|by apply H1].
Qed.

(** What a statement leaves of a table: valid rows, and all identifiers. *)
Lemma set_rows_ok name t rows db :
  db_ok db → db_tables db !! name = Some t →
  Forall (row_ok (t_cols t)) rows → ForallOrdPairs (apart (t_uniques t)) rows →
  Forall (λ r, check_fk db (t_cols t) r = inr tt) rows →
  (∀ v, v ∈ ids t → v ∈ ids (t <| t_rows := rows |>)) →
  db_ok (set_rows name t rows db) ∧ grows db (set_rows name t rows db).
Proof.
  intros Hdb Ht Hr Ha Hf Hi.
  assert (grows db (set_rows name t rows db)) as Hg.
  { split.
    - unfold set_rows. cbn. apply map_eq. intros k. rewrite !lookup_fmap, lookup_insert. case_decide; [subst|done].
      by rewrite Ht.
    - intros k t' Hk. unfold set_rows. cbn. destruct (decide (name = k)) as [<-|Hne].
      + exists (t <| t_rows := rows |>). rewrite lookup_insert_eq. split; [done|]. assert (t' = t) as -> by congruence. done.
      + exists t'. by rewrite lookup_insert_ne. }
  split; [|done]. intros k t' Hk. unfold set_rows in Hk. cbn in Hk. rewrite lookup_insert in Hk. case_decide.
  - injection Hk as <-. split; cbn; [done..|]. eapply Forall_impl; [exact Hf|]. intros r. by apply check_fk_grows.
  - destruct (Hdb _ _ Hk) as [H1 H2 H3]. split; [done..|]. eapply Forall_impl; [exact H3|]. intros r. by apply check_fk_grows.
Qed.

Lemma split_conflict_spec u r rows before a x b :
  split_conflict u r before rows = Some (a, x, b) → before ++ rows = a ++ x :: b.
Proof.
  revert before. induction rows as [|y rows IH]; intros before; cbn; [done|].
  case_match; [by intros [= <- <- <-]|]. intros Hs%IH. by rewrite <- Hs, <- app_assoc.
Qed.

Lemma conflict_of_spec t conflict r a x b : conflict_of t conflict r = Some (a, x, b) → t_rows t = a ++ x :: b.
Proof.
  unfold conflict_of. destruct conflict; [done|..]; intros (u & _ & Hs)%bind_Some; by apply split_conflict_spec in Hs.
Qed.

Lemma ids_app t rows rows' : ids (t <| t_rows := rows ++ rows' |>) = omap (assoc "id") rows ++ omap (assoc "id") rows'.
Proof. unfold ids. cbn. apply omap_app. Qed.

(** No assignment to the column that others refer to. *)
Definition keeps_ids (conflict : Conflict) : bool :=
  match conflict with DoUpdate _ sets => bool_decide (assoc "id" sets = None) | _ => true end.

Lemma put_row_ok e db name t conflict r rows out :
  db_ok db → db_tables db !! name = Some t → row_ok (t_cols t) r → keeps_ids conflict = true →
  put_row e db t conflict r = inr (rows, out) →
  db_ok (set_rows name t rows db) ∧ grows db (set_rows name t rows db).
Proof.
  intros Hdb Ht Hr Hc. unfold put_row. destruct (Hdb _ _ Ht) as [Ho Ha Hf].
  destruct (conflict_of t conflict r) as [[[a x] b]|] eqn:E.
  - pose proof (conflict_of_spec _ _ _ _ _ _ E) as Es. destruct conflict as [|cs|cs sets].
    + done.
    + intros [= <- <-]. by apply set_rows_ok.
    + intros (x' & Hx & ([] & [Hq Hk]%check_row_inr & [= <- <-])%ebind_inr)%ebind_inr.
      destruct (changed_row_spec _ _ _ _ _ Hx) as [Hx' Hid].
      rewrite Es in Ho, Ha, Hf. apply Forall_app in Ho as [Ho1 Ho2]. apply Forall_cons in Ho2 as [Ho2 Ho3].
      apply Forall_app in Hf as [Hf1 Hf2]. apply Forall_cons in Hf2 as [_ Hf3].
      apply (FOP_perm _ _ (x :: a ++ b)) in Ha; [|by rewrite Permutation_middle].
      inversion Ha as [|? ? _ Ha']; subst.
      apply set_rows_ok; try done.
      * apply Forall_app. split; [done|]. by constructor.
      * apply (FOP_perm _ (x' :: a ++ b)); [by rewrite Permutation_middle|]. by constructor.
      * apply Forall_app. split; [done|]. by constructor.
      * cbn in Hc. apply bool_decide_eq_true in Hc. intros v Hv. rewrite ids_app.
        unfold ids in Hv. rewrite Es, omap_app in Hv. cbn in Hv |- *. by rewrite (Hid Hc Ho2).
  - intros ([] & [Hq Hk]%check_row_inr & [= <- <-])%ebind_inr.
    apply set_rows_ok; try done.
    + apply Forall_app. split; [done|]. by constructor.
    + apply (FOP_perm _ (r :: t_rows t)); [by rewrite Permutation_cons_append|]. by constructor.
    + apply Forall_app. split; [done|]. by constructor.
    + intros v Hv. rewrite ids_app. apply elem_of_app. by left.
Qed.

Lemma update_rows_ok e db t sets cond done_ todo rest :
  assoc "id" sets = None →
  Forall (row_ok (t_cols t)) (done_ ++ todo) → ForallOrdPairs (apart (t_uniques t)) (done_ ++ todo) →
  Forall (λ r, check_fk db (t_cols t) r = inr tt) (done_ ++ todo) →
  update_rows e db t sets cond done_ todo = inr rest →
  Forall (row_ok (t_cols t)) rest.1 ∧ ForallOrdPairs (apart (t_uniques t)) rest.1
  ∧ Forall (λ r, check_fk db (t_cols t) r = inr tt) rest.1
  ∧ omap (assoc "id") rest.1 = omap (assoc "id") (done_ ++ todo).
Proof.
  intros Hid. revert done_ rest. induction todo as [|r todo IH]; intros done_ rest Ho Ha Hf; cbn.
  { intros [= <-]. by rewrite app_nil_r in *. }
  intros (b & _ & H)%ebind_inr. destruct b.
  - apply ebind_inr in H as (r' & Hr & ([] & [Hq Hk]%check_row_inr & (rest' & Hrest & [= <-])%ebind_inr)%ebind_inr).
    destruct (changed_row_spec _ _ _ _ _ Hr) as [Hr' Hi]. cbn.
    apply Forall_app in Ho as [Ho1 Ho2]. apply Forall_cons in Ho2 as [Ho2 Ho3].
    apply Forall_app in Hf as [Hf1 Hf2]. apply Forall_cons in Hf2 as [_ Hf3].
    apply (FOP_perm _ _ (r :: done_ ++ todo)) in Ha; [|by rewrite Permutation_middle].
    inversion Ha as [|? ? _ Ha']; subst.
    destruct (IH (done_ ++ [r']) rest') as (H1 & H2 & H3 & H4); rewrite <- ?app_assoc; cbn.
    + apply Forall_app. split; [done|]. by constructor.
    + apply (FOP_perm _ (r' :: done_ ++ todo)); [by rewrite Permutation_middle|]. by constructor.
    + apply Forall_app. split; [done|]. by constructor.
    + done.
    + split_and!; [done..|]. rewrite H4, <- app_assoc, !omap_app. cbn. rewrite (Hi Hid Ho2). by destruct (assoc "id" r).
  - assert ((done_ ++ [r]) ++ todo = done_ ++ r :: todo) as Es by by rewrite <- app_assoc.
    rewrite <- Es in Ho, Ha, Hf |- *. by apply IH.
Qed.

(** ** The whole statement *)

(** No statement assigns the column that others refer to. *)
Definition stmt_keeps_ids (st : Stmt) : bool :=
  match st with
  | SInsert _ _ conflict _ => keeps_ids conflict
  | SUpdate _ sets _ => bool_decide (assoc "id" sets = None)
  | _ => true
  end.

Lemma table_inr name db t : table name db = inr t ↔ db_tables db !! name = Some t.
Proof. unfold table. destruct (db_tables db !! name); naive_solver. Qed.

Lemma draw_ok db : db_ok db → db_ok (db <| db_uuids ::= S |>) ∧ grows db (db <| db_uuids ::= S |>).
Proof. intros H. split; [|split; [done|eauto]]. intros name t Ht. destruct (H name t Ht). by split. Qed.

Lemma insert_all_ok e into cs its rows db db' :
  db_ok db → insert_all e into cs its rows db = inr db' → db_ok db' ∧ grows db db'.
Proof.
  revert db. induction rows as [|r rows IH]; intros db Hdb; cbn [insert_all]; [by intros [= <-]|].
  intros (t & Ht%table_inr & (vs & _ & (r' & Hr%new_row_ok & ([rows' out] & Hp & Hi)%ebind_inr)%ebind_inr)%ebind_inr)%ebind_inr.
  destruct (draw_ok db Hdb) as [Hdb1 Hg1].
  destruct (put_row_ok _ _ into t OnError r' rows' out Hdb1 Ht Hr eq_refl Hp) as [Hdb2 Hg2].
  destruct (IH _ Hdb2 Hi) as [Hdb3 Hg3]. split; [done|]. by do 2 (etrans; [done|]).
Qed.

Lemma exec_ok m params st db reply db' :
  db_ok db → stmt_keeps_ids st = true → exec m params st db = inr (reply, db') → db_ok db' ∧ grows db db'.
Proof.
  intros Hdb Hk. destruct st as [q|col from cond|col from dflt cond|into vals conflict ret|into cs q|name sets cond]; cbn [exec].
  - by intros (rows & _ & (vs & _ & [= _ <-])%ebind_inr)%ebind_inr.
  - by intros (t & _ & (rows & _ & [= _ <-])%ebind_inr)%ebind_inr.
  - by intros (t & _ & (rows & _ & [= _ <-])%ebind_inr)%ebind_inr.
  - intros (t & Ht%table_inr & (vs & _ & (r & Hr%new_row_ok & ([rows out] & Hp & Hi)%ebind_inr)%ebind_inr)%ebind_inr)%ebind_inr.
    destruct (draw_ok db Hdb) as [Hdb1 Hg1].
    destruct (put_row_ok _ _ into t conflict r rows out Hdb1 Ht Hr Hk Hp) as [Hdb2 Hg2].
    cbn in Hi. destruct out as [x|]; [apply ebind_inr in Hi as (out & _ & [= _ <-])|injection Hi as _ <-];
      (split; [done|]; by etrans).
  - intros (rows & _ & (db1 & Hi & [= _ <-])%ebind_inr)%ebind_inr. by eapply insert_all_ok.
  - intros (t & Ht%table_inr & (rest & Hu & [= _ <-])%ebind_inr)%ebind_inr. cbn in Hk.
    apply bool_decide_eq_true in Hk. destruct (Hdb _ _ Ht) as [Ho Ha Hf].
    destruct (update_rows_ok _ _ t sets _ [] (t_rows t) rest Hk Ho Ha Hf Hu) as (H1 & H2 & H3 & H4).
    apply set_rows_ok; try done. intros v. unfold ids. cbn. by rewrite H4.
Qed.

Lemma sql_keeps_types m p args db :
  db_ok db → stmt_keeps_ids (pr_stmt p) = true →
  db_ok (sql_run m p args db).2 ∧ grows db (sql_run m p args db).2.
Proof.
  intros Hdb Hk. unfold sql_run. destruct (encode_all _ args) as [err|params]; [done|]. cbn [ebind].
  destruct (exec m params (pr_stmt p) db) as [err|[reply db']] eqn:E; [done|]. cbn [snd].
  exact (exec_ok m params _ db reply db' Hdb Hk E).
Qed.

End typed.
