(* ===== verification/Migrations.v ===== *)
(** * The schema: internal/storage/migrations and migrate.go

    The files of the migrations as data, with the meaning of their statements
    on the tables of Sql.v, and [Migrate] and [Rollback]. The files of the
    directory are in the order of their names, in which embed.FS reads it. Plain
    indexes change no answer and are only checked. *)

From stdpp Require Import base option gmap strings list pretty.
From Stdlib Require Import ZArith Lia.
From S2P Require Import Prelude GoLib Sql.

(** ** Statements of the migrations *)

Inductive Ddl :=
| CreateTable (name : string) (cols : list Column) (uniques : list Unique)
| AddColumn (table : string) (col : Column)
| DropNotNull (table col : string)
| CreateIndex (table : string) (cols : list string)
| CreateUniqueIndex (table : string) (u : Unique)
| DropTable (name : string) (cascade : bool)
| DropColumn (table col : string)
| DropIndex (name : string).

Section ddl.
Context {pg : PgTypes}.

Definition refers_to (name : string) (col : Column) : bool :=
  match c_ref col with Some (other, _) => bool_decide (other = name) | None => false end.

(** The table that a column refers to is there, unless it is the new one. *)
Definition missing_ref (self : string) (db : Database) (col : Column) : bool :=
  match c_ref col with
  | Some (other, _) => bool_decide (other ≠ self) && bool_decide (db_tables db !! other = None)
  | None => false
  end.

Definition check_refs (self : string) (cols : list Column) (db : Database) : SqlError + unit :=
  match base.filter (λ col, missing_ref self db col = true) cols with
  | [] => inr tt
  | col :: _ => inl (UndefinedTable (c_name col))
  end.

Definition set_table (name : string) (t : Table) (db : Database) : Database := db <| db_tables ::= <[name := t]> |>.

Definition lose_ref (name : string) (col : Column) : Column :=
  if refers_to name col then mkColumn (c_name col) (c_type col) (c_null col) (c_default col) None else col.

Definition mentions (col : string) (u : Unique) : bool :=
  bool_decide (col ∈ u_cols u) || bool_decide (u_null u = Some col).

(** One statement, with IF [NOT] EXISTS where the files have it. *)
Definition run_ddl (now : Time) (d : Ddl) (db : Database) : SqlError + Database :=
  match d with
  | CreateTable name cols uniques =>
    match db_tables db !! name with
    | Some _ => inr db
    | None => let? _ := check_refs name cols db in inr (set_table name (mkTable cols uniques []) db)
    end
  | AddColumn name col =>
    let? t := table name db in
    if decide (c_name col ∈ c_name <$> t_cols t) then inr db
    else
      let? _ := check_refs name [col] db in
      let? v := match c_default col with Some x => eval (mkEnv [] now "" [] []) x | None => inr VNull end in
      inr (set_table name (mkTable (t_cols t ++ [col]) (t_uniques t) ((λ r, r ++ [(c_name col, v)]) <$> t_rows t)) db)
  | DropNotNull name col =>
    let? t := table name db in
    if decide (col ∈ c_name <$> t_cols t)
    then inr (set_table name (t <| t_cols ::= fmap (λ c, if decide (c_name c = col)
           then mkColumn (c_name c) (c_type c) true (c_default c) (c_ref c) else c) |>) db)
    else inl (UndefinedColumn col)
  | CreateIndex name cols => let? t := table name db in let? _ := known (t_cols t) cols in inr db
  | CreateUniqueIndex name u =>
    let? t := table name db in
    let? _ := known (t_cols t) (u_cols u) in
    if decide (u_name u ∈ u_name <$> t_uniques t) then inr db
    else if forallb (λ r, bool_decide (length (base.filter (λ r', same_key u r r' = true) (t_rows t)) ≤ 1)%nat) (t_rows t)
    then inr (set_table name (t <| t_uniques ::= λ us, us ++ [u] |>) db)
    else inl (UniqueViolation (u_name u))
  | DropTable name cascade =>
    if negb cascade && existsb (λ kt, bool_decide (kt.1 ≠ name) && existsb (refers_to name) (t_cols kt.2)) (map_to_list (db_tables db))
    then inl (ForeignKeyViolation name)
    else inr (db <| db_tables ::= λ m, (λ t, t <| t_cols ::= fmap (lose_ref name) |>) <$> delete name m |>)
  | DropColumn name col =>
    let? t := table name db in
    inr (set_table name (mkTable (base.filter (λ c, c_name c ≠ col) (t_cols t))
      (base.filter (λ u, mentions col u = false) (t_uniques t))
      ((λ r, base.filter (λ kv, kv.1 ≠ col) r) <$> t_rows t)) db)
  | DropIndex name =>
    inr (db <| db_tables ::= fmap (λ t, t <| t_uniques ::= base.filter (λ u, u_name u ≠ name) |>) |>)
  end.

Fixpoint run_script (now : Time) (script : list Ddl) (db : Database) : SqlError + Database :=
  match script with
  | [] => inr db
  | d :: script => let? db := run_ddl now d db in run_script now script db
  end.

End ddl.

(** ** The pool of connections

    A script is one implicit transaction. *)

Class Pool (DB : Type) := {
  pool_Ping : DB → option SqlError;
  pool_run : Moment → Prepared → list Value → DB → (SqlError + Reply) * DB;
  pool_script : Time → list Ddl → DB → option SqlError * DB
}.

Definition script_run {pg : PgTypes} (now : Time) (script : list Ddl) (db : Database) : option SqlError * Database :=
  match run_script now script db with inl err => (Some err, db) | inr db => (None, db) end.

(** A server that can be reached and runs the statements. *)
Class PoolLaws {pg : PgTypes} (DB : Type) `{!Pool DB} := {
  pool_db : DB → Database;
  ping_law s : pool_Ping s = None;
  run_law m p args s :
    (pool_run m p args s).1 = (sql_run m p args (pool_db s)).1
    ∧ pool_db (pool_run m p args s).2 = (sql_run m p args (pool_db s)).2;
  script_law now script s :
    (pool_script now script s).1 = (script_run now script (pool_db s)).1
    ∧ pool_db (pool_script now script s).2 = (script_run now script (pool_db s)).2
}.

(** The tables themselves are such a server. *)
#[export] Instance local_pool {pg : PgTypes} : Pool Database := {
  pool_Ping _ := None; pool_run := sql_run; pool_script := script_run
}.

#[export] Instance local_laws {pg : PgTypes} : PoolLaws Database.
Proof. refine {| pool_db := λ s : Database, s |}; done. Defined.

(** ** The files *)

Definition text (s : string) : option Expr := Some (ELit (VText s)).
Definition int (n : Z) : option Expr := Some (ELit (VInt n)).

Definition id_column : Column := mkColumn "id" TUuid false (Some EUuid) None.
Definition text_column (name : string) : Column := mkColumn name TText false (text "") None.
Definition int_column (name : string) (n : Z) : Column := mkColumn name TInt false (int n) None.
Definition stamp_column (name : string) : Column := mkColumn name TTime false (Some ENow) None.
Definition time_column (name : string) : Column := mkColumn name TTime true None None.
Definition json_column (name : string) : Column := mkColumn name TJson false (Some (ELit (VJson "{}"))) None.
Definition required (name : string) (ty : ColType) : Column := mkColumn name ty false None None.
Definition ref_column (name : string) (null : bool) (other : string) (d : OnDelete) : Column :=
  mkColumn name TUuid null None (Some (other, d)).

Definition pkey (t : string) : Unique := mkUnique (t +:+ "_pkey") ["id"] None.
Definition unique (t : string) (cols : list string) : Unique :=
  mkUnique (t +:+ "_" +:+ Join cols "_" +:+ "_key") cols None.

Definition m0001_init : list Ddl :=
  [CreateTable "projects"
     [id_column; required "name" TText; text_column "description"; text_column "repo_url";
      stamp_column "created_at"; stamp_column "updated_at"]
     [pkey "projects"; unique "projects" ["name"]];
   CreateTable "workers"
     [id_column; required "worker_key" TText; text_column "hostname"; text_column "ip_address"; int_column "capacity" 0;
      json_column "labels"; mkColumn "state" TText false (text "UNREGISTERED") None;
      mkColumn "health" TText false (text "UNKNOWN") None; mkColumn "schedulable" TBool false (Some (ELit (VBool false))) None;
      time_column "last_beat_at"; stamp_column "created_at"; stamp_column "updated_at"]
     [pkey "workers"; unique "workers" ["worker_key"]];
   CreateTable "deployments"
     [id_column; ref_column "project_id" false "projects" Cascade; text_column "revision"; text_column "image";
      text_column "image_digest"; mkColumn "desired_state" TText false (text "RUNNING") None;
      mkColumn "status" TText false (text "QUEUED") None; mkColumn "stage" TText false (text "QUEUED") None;
      int_column "instance_count" 1; json_column "env"; stamp_column "created_at"; stamp_column "updated_at"]
     [pkey "deployments"];
   CreateTable "instances"
     [id_column; ref_column "deployment_id" false "deployments" Cascade; ref_column "worker_id" true "workers" SetNull;
      required "instance_key" TText; mkColumn "status" TText false (text "PENDING") None;
      stamp_column "created_at"; stamp_column "updated_at"]
     [pkey "instances"; unique "instances" ["instance_key"]];
   CreateIndex "deployments" ["project_id"]; CreateIndex "deployments" ["status"];
   CreateIndex "instances" ["deployment_id"]; CreateIndex "instances" ["worker_id"]; CreateIndex "workers" ["state"]].

Definition m0001_init_down : list Ddl :=
  [DropTable "instances" true; DropTable "deployments" true; DropTable "workers" true; DropTable "projects" true].

Definition m0002_secrets : list Ddl :=
  [CreateTable "secrets"
     [id_column; ref_column "deployment_id" true "deployments" Cascade; required "name" TText; required "ciphertext" TBytes;
      int_column "key_version" 1; stamp_column "created_at"; stamp_column "updated_at"]
     [pkey "secrets"; unique "secrets" ["deployment_id"; "name"]];
   CreateIndex "secrets" ["deployment_id"]].

Definition m0002_secrets_down : list Ddl := [DropTable "secrets" true].

Definition m0003_deployment_state : list Ddl :=
  [AddColumn "deployments" (int_column "attempts" 0); AddColumn "deployments" (text_column "last_error");
   AddColumn "deployments" (time_column "building_at"); AddColumn "deployments" (time_column "scheduling_at");
   AddColumn "deployments" (time_column "started_at"); AddColumn "deployments" (time_column "finished_at")].

Definition m0003_deployment_state_down : list Ddl :=
  [DropColumn "deployments" "finished_at"; DropColumn "deployments" "started_at"; DropColumn "deployments" "scheduling_at";
   DropColumn "deployments" "building_at"; DropColumn "deployments" "last_error"; DropColumn "deployments" "attempts"].

Definition uq_secrets_project_name_ver : Unique :=
  mkUnique "uq_secrets_project_name_ver" ["project_id"; "name"; "version"] (Some "deployment_id").

Definition m0004_secrets_project : list Ddl :=
  [AddColumn "projects" (text_column "webhook_secret"); AddColumn "secrets" (ref_column "project_id" true "projects" Cascade);
   AddColumn "secrets" (int_column "version" 1); DropNotNull "secrets" "deployment_id";
   CreateIndex "secrets" ["project_id"]; CreateUniqueIndex "secrets" uq_secrets_project_name_ver].

Definition m0004_secrets_project_down : list Ddl :=
  [DropIndex "uq_secrets_project_name_ver"; DropIndex "idx_secrets_project_id"; DropColumn "secrets" "version";
   DropColumn "secrets" "project_id"; DropColumn "projects" "webhook_secret"].

Definition m0005_releases : list Ddl :=
  [CreateTable "releases"
     [id_column; ref_column "project_id" false "projects" Cascade; ref_column "deployment_id" true "deployments" SetNull;
      text_column "version"; required "image_ref" TText; required "image_digest" TText; text_column "signature";
      stamp_column "created_at"]
     [pkey "releases"];
   CreateIndex "releases" ["project_id"]; CreateIndex "releases" ["image_digest"]].

Definition m0005_releases_down : list Ddl := [DropTable "releases" true].

Definition m0006_events : list Ddl :=
  [CreateTable "events"
     [id_column; ref_column "project_id" true "projects" Cascade; ref_column "deployment_id" true "deployments" Cascade;
      required "event_type" TText; required "message" TText; json_column "metadata"; stamp_column "created_at"]
     [pkey "events"];
   CreateIndex "events" ["project_id"]; CreateIndex "events" ["deployment_id"]; CreateIndex "events" ["event_type"]].

Definition m0006_events_down : list Ddl := [DropTable "events" true].

Definition m0007_autoscaling : list Ddl :=
  [AddColumn "projects" (int_column "desired_replicas" 1); AddColumn "projects" (int_column "min_replicas" 1);
   AddColumn "projects" (int_column "max_replicas" 10); AddColumn "deployments" (int_column "desired_replicas" 1);
   CreateTable "scaling_policies"
     [id_column; ref_column "project_id" false "projects" Cascade; required "metric_type" TText;
      required "target_value" TDouble; int_column "min_replicas" 1; int_column "max_replicas" 10;
      int_column "scale_up_cooldown_seconds" 60; int_column "scale_down_cooldown_seconds" 300;
      stamp_column "created_at"; stamp_column "updated_at"]
     [pkey "scaling_policies"; unique "scaling_policies" ["project_id"]];
   CreateIndex "scaling_policies" ["project_id"]].

Definition m0007_autoscaling_down : list Ddl :=
  [DropTable "scaling_policies" false; DropColumn "deployments" "desired_replicas";
   DropColumn "projects" "max_replicas"; DropColumn "projects" "min_replicas"; DropColumn "projects" "desired_replicas"].

Definition migrationsFS : list (string * list Ddl) :=
  [("0001_init.down.sql", m0001_init_down); ("0001_init.sql", m0001_init);
   ("0002_secrets.down.sql", m0002_secrets_down); ("0002_secrets.sql", m0002_secrets);
   ("0003_deployment_state.down.sql", m0003_deployment_state_down); ("0003_deployment_state.sql", m0003_deployment_state);
   ("0004_secrets_project.down.sql", m0004_secrets_project_down); ("0004_secrets_project.sql", m0004_secrets_project);
   ("0005_releases.down.sql", m0005_releases_down); ("0005_releases.sql", m0005_releases);
   ("0006_events.down.sql", m0006_events_down); ("0006_events.sql", m0006_events);
   ("0007_autoscaling.down.sql", m0007_autoscaling_down); ("0007_autoscaling.sql", m0007_autoscaling)].

(** ** migrate.go *)

(** [strings.HasSuffix(s, p)]. *)
Definition HasSuffix (s p : string) : bool :=
  (String.length p <=? String.length s)%nat && String.eqb (drop_string (String.length s - String.length p) s) p.

Section migrate.
Context {pg : PgTypes} {tx : SqlTexts} {DB : Type} `{!Pool DB}.
Implicit Types s : DB.

Fixpoint execute (now : Time) (files : list (string * list Ddl)) s : option error * DB :=
  match files with
  | [] => (None, s)
  | (name, script) :: files =>
    match pool_script now script s with
    | (Some err, s) => (Some ("execute " +:+ name +:+ ": " +:+ sql_text err), s)
    | (None, s) => execute now files s
    end
  end.

Definition up_files : list (string * list Ddl) :=
  base.filter (λ e, ¬ (negb (HasSuffix e.1 ".sql") || HasSuffix e.1 ".down.sql" = true))
    (SliceStable (λ x y, String.ltb x.1 y.1) migrationsFS).

Definition down_files : list (string * list Ddl) :=
  SliceStable (λ x y, String.ltb y.1 x.1) (base.filter (λ e, HasSuffix e.1 ".down.sql" = true) migrationsFS).

Definition Migrate (now : Time) s : option error * DB :=
  match pool_Ping s with
  | Some err => (Some ("ping before migrate: " +:+ sql_text err), s)
  | None => execute now up_files s
  end.

(** All files when [steps] is not positive. *)
Definition Rollback (now : Time) (steps : Z) s : option error * DB :=
  match pool_Ping s with
  | Some err => (Some ("ping before rollback: " +:+ sql_text err), s)
  | None => execute now (if 0 <? steps then take (Z.to_nat steps) down_files else down_files) s
  end.

Definition RollbackAll (now : Time) : DB → option error * DB := Rollback now 0.

End migrate.

(** ** What the migrations make *)

Section facts.
Context {pg : PgTypes}.
Implicit Types db : Database.

(** The schema of a database, as a database without rows. *)
Definition strip (db : Database) : Database := mkDatabase ((λ t, t <| t_rows := [] |>) <$> db_tables db) 0.

Definition no_tables : Database := mkDatabase ∅ 0.

Definition script_of (files : list (string * list Ddl)) : list Ddl := files.*2 ≫= id.

Definition nebula_schema : Database := match run_script 0 (script_of up_files) no_tables with inr db => db | inl _ => no_tables end.


Lemma run_script_app now l l' db : run_script now (l ++ l') db = let? db := run_script now l db in run_script now l' db.
Proof. revert db. induction l as [|d l IH]; intros db; cbn; [done|]. destruct (run_ddl now d db); [done|apply IH]. Qed.

(** ** Scripts that do nothing *)

Definition has_table (name : string) (p : Table → bool) db : bool :=
  match db_tables db !! name with Some t => p t | None => false end.

Definition noop (d : Ddl) db : bool :=
  match d with
  | CreateTable name _ _ => has_table name (λ _, true) db
  | AddColumn name col => has_table name (λ t, bool_decide (c_name col ∈ c_name <$> t_cols t)) db
  | DropNotNull name col => has_table name (λ t, bool_decide (col ∈ c_name <$> t_cols t)
      && forallb (λ c, negb (bool_decide (c_name c = col)) || c_null c) (t_cols t)) db
  | CreateIndex name cols => has_table name (λ t, match known (t_cols t) cols with inr _ => true | inl _ => false end) db
  | CreateUniqueIndex name u => has_table name (λ t, bool_decide (u_name u ∈ u_name <$> t_uniques t)
      && match known (t_cols t) (u_cols u) with inr _ => true | inl _ => false end) db
  | _ => false
  end.

Lemma has_table_strip name p db :
  (∀ t, p (t <| t_rows := [] |>) = p t) → has_table name p (strip db) = true →
  ∃ t, db_tables db !! name = Some t ∧ table name db = inr t ∧ p t = true.
Proof.
  intros Hp. unfold has_table, table, strip. cbn [db_tables]. rewrite lookup_fmap.
  destruct (db_tables db !! name) as [t|]; cbn; [|done]. rewrite Hp. eauto.
Qed.

Lemma set_table_same name t db : db_tables db !! name = Some t → set_table name t db = db.
Proof. intros H. destruct db as [ts n]. change (mkDatabase (<[name:=t]> ts) n = mkDatabase ts n). by rewrite insert_id. Qed.

Lemma noop_run now d db : noop d (strip db) = true → run_ddl now d db = inr db.
Proof.
  destruct d as [name cols us|name col|name col|name cols|name u|name c|name col|name]; cbn [noop run_ddl]; try done.
  - intros (t & -> & _ & _)%has_table_strip; done.
  - intros (t & _ & -> & Hc%bool_decide_eq_true)%has_table_strip; [|done]. cbn [ebind]. by rewrite decide_True.
  - intros (t & Ht & -> & [Hc%bool_decide_eq_true Hn]%andb_prop)%has_table_strip; [|done]. cbn [ebind].
    rewrite decide_True by done. f_equal. apply set_table_same. rewrite Ht. f_equal. destruct t as [cs us rs]. cbn in *.
    symmetry. refine (f_equal (λ cs', mkTable cs' us rs) (_ : _ = cs)). etrans; [|apply list_fmap_id]. apply list_fmap_ext. intros j c Hj. rewrite forallb_forall in Hn.
    specialize (Hn c (proj1 (list_elem_of_In _ _) (list_elem_of_lookup_2 _ _ _ Hj))).
    case_decide as E; [|done]. rewrite bool_decide_true in Hn by done. cbn in Hn. rewrite <- Hn. by destruct c.
  - intros (t & _ & -> & Hc)%has_table_strip; [|done]. cbn [ebind]. by destruct (known (t_cols t) cols).
  - intros (t & _ & -> & [Hu%bool_decide_eq_true Hc]%andb_prop)%has_table_strip; [|done]. cbn [ebind].
    destruct (known (t_cols t) (u_cols u)); [done|]. cbn [ebind]. by rewrite decide_True.
Qed.

Lemma noop_script now script db :
  forallb (λ d, noop d (strip db)) script = true → run_script now script db = inr db.
Proof.
  induction script as [|d script IH]; cbn; [done|]. intros [Hd Hs]%andb_prop. rewrite (noop_run now d db Hd). cbn. auto.
Qed.

(** ** Scripts on a schema *)

(** Statements that do not look at rows. *)
Definition schema_only (d : Ddl) : bool := match d with CreateUniqueIndex _ _ => false | _ => true end.

Lemma known_strip (t : Table) cols : known (t_cols (t <| t_rows := [] |>)) cols = known (t_cols t) cols.
Proof. done. Qed.

Lemma strip_set name t db : strip (set_table name t db) = set_table name (t <| t_rows := [] |>) (strip db).
Proof. unfold strip. cbn. by rewrite fmap_insert. Qed.

Lemma check_refs_strip self cols db : check_refs self cols (strip db) = check_refs self cols db.
Proof.
  unfold check_refs. assert (∀ col, missing_ref self (strip db) col = missing_ref self db col) as H.
  { intros col. unfold missing_ref, strip. destruct (c_ref col) as [[other d]|]; [|done]. cbn. rewrite lookup_fmap.
    by destruct (db_tables db !! other). }
  assert (base.filter (λ col, missing_ref self (strip db) col = true) cols
    = base.filter (λ col, missing_ref self db col = true) cols) as ->; [|done].
  apply list_filter_iff. intros col. by rewrite H.
Qed.

Lemma references_strip name db :
  existsb (λ kt, bool_decide (kt.1 ≠ name) && existsb (refers_to name) (t_cols kt.2)) (map_to_list (db_tables (strip db)))
  = existsb (λ kt, bool_decide (kt.1 ≠ name) && existsb (refers_to name) (t_cols kt.2)) (map_to_list (db_tables db)).
Proof.
  unfold strip. cbn [db_tables]. rewrite map_to_list_fmap. induction (map_to_list (db_tables db)) as [|[k t] l IH]; cbn; [done|].
  by rewrite IH.
Qed.

Lemma ddl_strip now d db :
  schema_only d = true →
  run_ddl now d (strip db) = match run_ddl now d db with inl e => inl e | inr db' => inr (strip db') end.
Proof.
  assert (∀ name, table name (strip db) = match table name db with inl e => inl e | inr t => inr (t <| t_rows := [] |>) end) as Ht.
  { intros name. unfold table, strip. cbn. rewrite lookup_fmap. by destruct (db_tables db !! name). }
  destruct d as [name cols us|name col|name col|name cols|name u|name c|name col|name]; cbn [run_ddl schema_only]; intros; try done.
  - unfold strip at 1. cbn [db_tables]. rewrite lookup_fmap, check_refs_strip. destruct (db_tables db !! name); [done|]. cbn.
    destruct (check_refs name cols db); [done|]. cbn. by rewrite strip_set.
  - rewrite Ht, check_refs_strip. destruct (table name db) as [|t]; [done|]. cbn [ebind]. cbn [t_cols set_field].
    change (t_cols (t <| t_rows := [] |>)) with (t_cols t). case_decide; [done|].
    destruct (check_refs name [col] db); [done|]. cbn [ebind].
    destruct (match c_default col with Some x => _ | None => _ end); [done|]. cbn [ebind]. by rewrite strip_set.
  - rewrite Ht. destruct (table name db) as [|t]; [done|]. cbn [ebind].
    change (t_cols (t <| t_rows := [] |>)) with (t_cols t). case_decide; [|done]. by rewrite strip_set.
  - rewrite Ht. destruct (table name db) as [|t]; [done|]. cbn [ebind]. rewrite known_strip. by destruct (known _ _).
  - rewrite references_strip. case_match; [done|]. f_equal. unfold strip, set_field. cbn. f_equal.
    rewrite <- fmap_delete, <- !map_fmap_compose. by apply map_fmap_ext.
  - rewrite Ht. destruct (table name db) as [|t]; [done|]. cbn [ebind]. by rewrite strip_set.
  - f_equal. unfold strip, set_field. cbn. f_equal. rewrite <- !map_fmap_compose. by apply map_fmap_ext.
Qed.

Lemma script_strip now script db :
  forallb schema_only script = true →
  run_script now script (strip db) = match run_script now script db with inl e => inl e | inr db' => inr (strip db') end.
Proof.
  revert db. induction script as [|d script IH]; intros db; cbn; [done|]. intros [Hd Hs]%andb_prop.
  rewrite (ddl_strip now d db Hd). destruct (run_ddl now d db); [done|]. cbn. by apply IH.
Qed.

End facts.

Lemma schema_up {pg : PgTypes} now n :
  run_script now (script_of up_files) (mkDatabase ∅ n) = inr (mkDatabase (db_tables nebula_schema) n).
Proof. vm_compute. reflexivity. Qed.

(** A database with these tables has no rows yet. *)
Lemma schema_strip {pg : PgTypes} db : db_tables db = db_tables nebula_schema → strip db = nebula_schema.
Proof. intros H. unfold strip. rewrite H. vm_compute. reflexivity. Qed.

Lemma schema_tables_empty {pg : PgTypes} : map_Forall (λ _ t, t_rows t = []) (db_tables nebula_schema).
Proof.
  assert (bool_decide (map_Forall (λ _ t, t_rows t = []) (db_tables nebula_schema)) = true) as H by (vm_compute; reflexivity).
  by apply bool_decide_eq_true in H.
Qed.

Lemma schema_rows {pg : PgTypes} db : db_tables db = db_tables nebula_schema → db_ok db.
Proof.
  intros H name t Ht. rewrite H in Ht. pose proof (schema_tables_empty name t Ht) as E. cbn in E.
  split; rewrite E; constructor.
Qed.

Lemma schema_noop {pg : PgTypes} : forallb (λ d, noop d nebula_schema) (script_of up_files) = true.
Proof. vm_compute. reflexivity. Qed.

(** The last [k] migrations are undone. *)
Lemma schema_down {pg : PgTypes} now k : (k ≤ 7)%nat →
  run_script now (script_of (take k down_files)) nebula_schema
  = run_script 0 (script_of (take (7 - k) up_files)) no_tables
  ∧ is_Some (match run_script now (script_of (take k down_files)) nebula_schema with inr db => Some db | inl _ => None end).
Proof. intros H. do 8 (destruct k as [|k]; [split; vm_compute; [reflexivity|eauto]|]). lia. Qed.

Lemma down_length : length down_files = 7%nat.
Proof. vm_compute. reflexivity. Qed.

Lemma down_schema_only k : forallb schema_only (script_of (take k down_files)) = true.
Proof.
  destruct (decide (k ≤ 7)%nat) as [H|H].
  - do 8 (destruct k as [|k]; [reflexivity|]). lia.
  - rewrite take_ge; [reflexivity|]. rewrite down_length. lia.
Qed.

Section migrated.
Context {pg : PgTypes} {tx : SqlTexts} {DB : Type} `{!Pool DB} {laws : PoolLaws DB}.
Implicit Types s : DB.

Lemma execute_runs now files s db :
  run_script now (script_of files) (pool_db s) = inr db → ∃ s', execute now files s = (None, s') ∧ pool_db s' = db.
Proof.
  revert s. induction files as [|[name script] files IH]; intros s; cbn; [intros [= <-]; eauto|].
  change (script_of ((name, script) :: files)) with (script ++ script_of files). rewrite run_script_app.
  destruct (script_law now script s) as [H1 H2]. unfold script_run in H1, H2.
  destruct (run_script now script (pool_db s)) as [|db1]; [done|]. cbn. destruct (pool_script now script s) as [err s1].
  cbn in *. subst err. rewrite <- H2. apply IH.
Qed.

(** How many of the seven migrations [Rollback] leaves. *)
Definition steps_left (steps : Z) : nat := if 0 <? steps then 7 - Z.to_nat steps else 0.

Lemma rollback_runs now k s :
  strip (pool_db s) = nebula_schema →
  ∃ s', execute now (take k down_files) s = (None, s')
    ∧ run_script 0 (script_of (take (7 - k) up_files)) no_tables = inr (strip (pool_db s')).
Proof.
  intros Hs. assert (take k down_files = take (k `min` 7) down_files) as ->.
  { destruct (decide (k ≤ 7)%nat); [by rewrite Nat.min_l|]. rewrite Nat.min_r by lia. by rewrite !take_ge by (rewrite down_length; lia). }
  replace (7 - k)%nat with (7 - k `min` 7)%nat by lia. set (j := (k `min` 7)%nat).
  destruct (schema_down now j ltac:(lia)) as [He [db Hd]]. rewrite <- He.
  pose proof (script_strip now _ (pool_db s) (down_schema_only j)) as H. rewrite Hs in H.
  destruct (run_script now (script_of (take j down_files)) (pool_db s)) as [err|db'] eqn:E.
  - rewrite H in Hd. done.
  - destruct (execute_runs now _ s db' E) as (s' & Hx & <-). eauto.
Qed.

Lemma migrate_empty now s : db_tables (pool_db s) = ∅ →
  ∃ s', Migrate now s = (None, s') ∧ db_tables (pool_db s') = db_tables nebula_schema.
Proof.
  intros Ht. unfold Migrate. rewrite ping_law.
  destruct (execute_runs now up_files s (mkDatabase (db_tables nebula_schema) (db_uuids (pool_db s))))
    as (s' & Hx & Hd); [|exists s'; by rewrite Hd].
  destruct (pool_db s) as [ts n]. cbn in *. subst ts. apply schema_up.
Qed.

Lemma migrate_again now s : strip (pool_db s) = nebula_schema →
  ∃ s', Migrate now s = (None, s') ∧ pool_db s' = pool_db s.
Proof.
  intros Hs. unfold Migrate. rewrite ping_law. apply execute_runs, noop_script. rewrite Hs. apply schema_noop.
Qed.

Lemma rollback_steps now steps s : strip (pool_db s) = nebula_schema →
  ∃ s', Rollback now steps s = (None, s')
    ∧ run_script 0 (script_of (take (steps_left steps) up_files)) no_tables = inr (strip (pool_db s')).
Proof.
  intros Hs. unfold Rollback, steps_left. rewrite ping_law. destruct (0 <? steps); [by apply rollback_runs|].
  destruct (rollback_runs now 7 s Hs) as (s' & Hx & Hd). exists s'. split; [exact Hx|exact Hd].
Qed.

(** C33: On an empty database Migrate runs every file without an error and makes
    the schema; on a migrated database with any rows it runs again without an
    error and changes nothing; and Rollback of any number of steps succeeds
    there and leaves exactly the schema that the files before those steps make,
    the empty one if the number is zero or negative. *)
Theorem migrations_apply_and_revert now s :
  (db_tables (pool_db s) = ∅ →
    ∃ s', Migrate now s = (None, s') ∧ db_tables (pool_db s') = db_tables nebula_schema)
  ∧ (strip (pool_db s) = nebula_schema →
    (∃ s', Migrate now s = (None, s') ∧ pool_db s' = pool_db s)
    ∧ ∀ steps, ∃ s', Rollback now steps s = (None, s')
        ∧ run_script 0 (script_of (take (steps_left steps) up_files)) no_tables = inr (strip (pool_db s'))).
Proof.
  split; [apply migrate_empty|]. intros Hs. split; [by apply migrate_again|]. intros steps. by apply rollback_steps.
Qed.

End migrated.

(** ** On concrete types *)

(** Every text is accepted; a UUID is a text that starts with u-. *)
Definition demo_pg : PgTypes := {|
  uuid_in s := if HasPrefix s "u-" then Some s else None;
  text_ok _ := true;
  jsonb_in s := Some s;
  gen_random_uuid n := "u-" +:+ Itoa (Z.of_nat n)
|}.

Lemma demo_pg_laws : @PgTypesLaws demo_pg.
Proof.
  split; cbn.
  - done.
  - intros s u. destruct (HasPrefix s "u-") eqn:E; [|done]. intros [= <-]. by rewrite E.
  - by intros s j [= <-].
  - intros n. by destruct (Itoa (Z.of_nat n)).
Qed.

#[local] Existing Instance demo_pg.
Definition demo_texts : SqlTexts := {|
  sql_text err := match err with
                  | UndefinedTable t => "relation " +:+ t +:+ " does not exist"
                  | UniqueViolation u => "duplicate key in " +:+ u
                  | ForeignKeyViolation c => "no row for " +:+ c
                  | BadArgument (VText s) | CastFailed (VText s) => "invalid input " +:+ quote s
                  | BadArgument (VInt n) => Itoa n +:+ " is out of range"
                  | NoRows => "no rows in result set"
                  | _ => "error" end;
  sql_late err := match err with BadArgument _ | Unavailable _ => false | _ => true end
|}.

#[local] Existing Instance demo_texts.

Definition migrated : Database := (Migrate 0 no_tables).2.

Lemma migrations_apply_and_revert_witness :
  (∃ s', Migrate 5 no_tables = (None, s') ∧ db_tables s' = db_tables nebula_schema)
  ∧ strip migrated = nebula_schema ∧ (∃ s', Migrate 5 migrated = (None, s') ∧ s' = migrated).
Proof.
  destruct (migrations_apply_and_revert (laws := local_laws) 5 no_tables) as [H1 _].
  destruct (migrations_apply_and_revert (laws := local_laws) 5 migrated) as [_ H2].
  assert (strip migrated = nebula_schema) as E by (vm_compute; reflexivity).
  split; [exact (H1 eq_refl)|]. split; [exact E|]. exact (proj1 (H2 E)).
Defined.

(** Nothing records what is applied: two single steps undo one migration, and
    without tables the second file already fails. *)
Example rollback_has_no_memory :
  (Rollback 0 1 (Rollback 0 1 migrated).2).2 = (Rollback 0 1 migrated).2
  ∧ (RollbackAll 0 (RollbackAll 0 migrated).2).1
    = Some "execute 0007_autoscaling.down.sql: relation deployments does not exist".
Proof. vm_compute. split; reflexivity. Qed.
