(* ===== verification/Storage.v ===== *)
(** * The Postgres repositories: internal/storage

    deployments_repo.go, instances_repo.go, workers_repo.go, projects_repo.go,
    releases_repo.go, events_repo.go and secrets_repo.go: the statements, as
    data of Sql.v with the types that the server infers for their parameters,
    and the methods that run them on a [Pool]. Four of them are instances of the
    interfaces that the in-memory repositories implement. postgres.go opens the
    pool, whose driver is the class [Driver]. *)

From stdpp Require Import base option gmap strings list pretty.
From Stdlib Require Import ZArith Lia.
From S2P Require Import Prelude GoLib GoFloat GoTime PtrStore Workers Deployments Projects Secrets Json JsonDecode ApiData Records Config Sql Migrations.

(** ** Reading values *)

Definition scan_string (v : Value) : SqlError + string :=
  match v with VText s | VUuid s => inr s | _ => inl (ScanFailed v) end.

(** [sql.NullString], of which the code takes the string. *)
Definition scan_null_string (v : Value) : SqlError + string :=
  match v with VNull => inr "" | _ => scan_string v end.

Definition scan_int (v : Value) : SqlError + Z := match v with VInt n => inr n | _ => inl (ScanFailed v) end.
Definition scan_bool (v : Value) : SqlError + bool := match v with VBool b => inr b | _ => inl (ScanFailed v) end.
Definition scan_time (v : Value) : SqlError + Time := match v with VTime t => inr t | _ => inl (ScanFailed v) end.

Definition scan_time_ptr (v : Value) : SqlError + option Time :=
  match v with VNull => inr None | VTime t => inr (Some t) | _ => inl (ScanFailed v) end.

Definition scan_bytes (v : Value) : SqlError + string :=
  match v with VNull => inr "" | VBytes s | VJson s => inr s | _ => inl (ScanFailed v) end.

(** A pointer to a string that is nil when the string is empty. *)
Definition or_null (s : string) : Value := if decide (s = "") then VNull else VText s.

Definition time_ptr (t : option Time) : Value := match t with Some t => VTime t | None => VNull end.

(** A query by a key, which depends neither on the clock nor on an order. *)
Definition quiet : Moment := mkMoment 0 order_id.
Definition at_ (now : Time) : Moment := mkMoment now order_id.
Definition in_order (o : Order) : Moment := mkMoment 0 o.

Definition col_is (c : string) (n : nat) : Expr := EEq (ECol c) (EParam n).
Definition set (c : string) (n : nat) : string * Expr := (c, EParam n).
Definition touch : string * Expr := ("updated_at", ENow).
Definition always : Expr := ELit (VBool true).

(** ** Statements *)

Definition deployment_items : list Expr :=
  ECol <$> ["id"; "project_id"; "revision"; "image"; "image_digest"; "desired_state"; "status"; "stage";
            "instance_count"; "env"; "created_at"; "updated_at"].

Definition insert_deployment : Prepared := mkPrepared
  [TUuid; TUuid; TText; TText; TText; TText; TText; TText; TInt; TJson]
  (SInsert "deployments"
     [set "id" 0; set "project_id" 1; set "revision" 2; set "image" 3; set "image_digest" 4; set "desired_state" 5;
      set "status" 6; set "stage" 7; set "instance_count" 8; set "env" 9; ("created_at", ENow); ("updated_at", ENow)]
     OnError [ECol "created_at"; ECol "updated_at"]).

Definition select_deployment : Prepared := mkPrepared [TUuid]
  (SSelect (mkSelect deployment_items "deployments" (col_is "id" 0) None [] None)).

Definition update_deployment_status : Prepared := mkPrepared [TText; TText; TUuid]
  (SUpdate "deployments" [set "status" 0; set "stage" 1; touch] (col_is "id" 2)).

Definition update_deployment_image : Prepared := mkPrepared [TText; TText; TUuid]
  (SUpdate "deployments" [set "image" 0; set "image_digest" 1; touch] (col_is "id" 2)).

Definition update_deployment_scale : Prepared := mkPrepared [TInt; TUuid]
  (SUpdate "deployments" [set "instance_count" 0; set "desired_replicas" 0; touch] (col_is "id" 1)).

Definition list_deployments : Prepared := mkPrepared [TText]
  (SSelect (mkSelect deployment_items "deployments"
     (EOr (EEq (EParam 0) (ELit (VText ""))) (EEq (ECol "project_id") (ECast (EParam 0) TUuid)))
     None [("created_at", true)] None)).

Definition instance_items : list Expr :=
  ECol <$> ["id"; "deployment_id"; "worker_id"; "instance_key"; "status"; "created_at"; "updated_at"].

Definition insert_instance : Prepared := mkPrepared [TUuid; TUuid; TUuid; TText; TText]
  (SInsert "instances"
     [set "id" 0; set "deployment_id" 1; set "worker_id" 2; set "instance_key" 3; set "status" 4;
      ("created_at", ENow); ("updated_at", ENow)]
     OnError [ECol "created_at"; ECol "updated_at"]).

Definition select_instances (params : list ColType) (cond : Expr) (order : list (string * bool)) : Prepared :=
  mkPrepared params (SSelect (mkSelect instance_items "instances" cond None order None)).

Definition instance_by_id : Prepared := select_instances [TUuid] (col_is "id" 0) [].
Definition instance_by_key : Prepared := select_instances [TText] (col_is "instance_key" 0) [].
Definition instances_of_deployment : Prepared := select_instances [TUuid] (col_is "deployment_id" 0) [("created_at", false)].
Definition instances_of_worker : Prepared := select_instances [TUuid] (col_is "worker_id" 0) [("created_at", false)].
Definition all_instances : Prepared := select_instances [] always [("created_at", false)].

Definition update_instance : Prepared := mkPrepared [TUuid; TText; TUuid]
  (SUpdate "instances" [set "worker_id" 0; set "status" 1; touch] (col_is "id" 2)).

Definition count_instances : Prepared := mkPrepared [TUuid]
  (SCountBy "worker_id" "instances" (EAnd (col_is "deployment_id" 0) (ENot (EIsNull (ECol "worker_id"))))).

Definition worker_items : list Expr :=
  ECol <$> ["id"; "worker_key"; "hostname"; "ip_address"; "capacity"; "labels"; "state"; "health"; "schedulable";
            "last_beat_at"; "created_at"; "updated_at"].

Definition excluded (c : string) : string * Expr := (c, EExcluded c).

Definition upsert_worker : Prepared := mkPrepared
  [TText; TText; TText; TInt; TJson; TText; TText; TBool; TTime]
  (SInsert "workers"
     [set "worker_key" 0; set "hostname" 1; set "ip_address" 2; set "capacity" 3; set "labels" 4; set "state" 5;
      set "health" 6; set "schedulable" 7; set "last_beat_at" 8; ("updated_at", ENow)]
     (DoUpdate ["worker_key"]
        ((excluded <$> ["hostname"; "ip_address"; "capacity"; "labels"; "state"; "health"; "schedulable"; "last_beat_at"])
         ++ [touch]))
     [ECol "id"; ECol "created_at"; ECol "updated_at"]).

Definition select_workers (params : list ColType) (cond : Expr) (order : list (string * bool)) : Prepared :=
  mkPrepared params (SSelect (mkSelect worker_items "workers" cond None order None)).

Definition worker_by_id : Prepared := select_workers [TUuid] (col_is "id" 0) [].
Definition worker_by_key : Prepared := select_workers [TText] (col_is "worker_key" 0) [].
Definition list_workers : Prepared := select_workers [] always [("created_at", false)].

Definition update_heartbeat : Prepared := mkPrepared [TTime; TText]
  (SUpdate "workers" [set "last_beat_at" 0; touch] (col_is "worker_key" 1)).

Definition set_drain : Prepared := mkPrepared [TText; TBool; TText]
  (SUpdate "workers" [set "state" 0; set "schedulable" 1; touch] (col_is "worker_key" 2)).

Definition insert_project : Prepared := mkPrepared [TText; TText; TText; TText; TInt; TInt; TInt]
  (SInsert "projects"
     [set "name" 0; set "description" 1; set "repo_url" 2; set "webhook_secret" 3; set "desired_replicas" 4;
      set "min_replicas" 5; set "max_replicas" 6]
     (DoNothing ["name"]) [ECol "id"; ECol "created_at"; ECol "updated_at"]).

Definition if_positive_param (c : string) (n : nat) : string * Expr :=
  (c, ECase (EGt (EParam n) (ELit (VInt 0))) (EParam n) (ECol c)).

Definition update_project_scale : Prepared := mkPrepared [TInt; TInt; TInt; TUuid]
  (SUpdate "projects"
     [if_positive_param "desired_replicas" 0; if_positive_param "min_replicas" 1; if_positive_param "max_replicas" 2; touch]
     (col_is "id" 3)).

Definition project_items : list Expr :=
  (ECol <$> ["id"; "name"; "description"; "repo_url"])
  ++ [ECoalesce (ECol "webhook_secret") (ELit (VText "")); ECoalesce (ECol "desired_replicas") (ELit (VInt 1));
      ECoalesce (ECol "min_replicas") (ELit (VInt 1)); ECoalesce (ECol "max_replicas") (ELit (VInt 10));
      ECol "created_at"; ECol "updated_at"].

Definition select_projects (params : list ColType) (cond : Expr) (order : list (string * bool)) : Prepared :=
  mkPrepared params (SSelect (mkSelect project_items "projects" cond None order None)).

Definition project_by_id : Prepared := select_projects [TUuid] (col_is "id" 0) [].
Definition project_by_name : Prepared := select_projects [TText] (col_is "name" 0) [].
Definition list_projects : Prepared := select_projects [] always [("created_at", false)].

Definition insert_release : Prepared := mkPrepared [TUuid; TUuid; TUuid; TText; TText; TText; TText; TTime]
  (SInsert "releases"
     [set "id" 0; set "project_id" 1; set "deployment_id" 2; set "version" 3; set "image_ref" 4; set "image_digest" 5;
      set "signature" 6; set "created_at" 7] OnError []).

Definition select_releases (params : list ColType) (cond : Expr) (order : list (string * bool)) (limit : option nat) : Prepared :=
  mkPrepared params (SSelect (mkSelect
    (ECol <$> ["id"; "project_id"; "deployment_id"; "version"; "image_ref"; "image_digest"; "signature"; "created_at"])
    "releases" cond None order limit)).

Definition release_by_id : Prepared := select_releases [TUuid] (col_is "id" 0) [] None.
Definition release_by_digest : Prepared := select_releases [TText] (col_is "image_digest" 0) [("created_at", true)] (Some 1%nat).
Definition releases_of_project : Prepared := select_releases [TUuid] (col_is "project_id" 0) [("created_at", true)] None.

Definition insert_event : Prepared := mkPrepared [TUuid; TUuid; TUuid; TText; TText; TJson; TTime]
  (SInsert "events"
     [set "id" 0; set "project_id" 1; set "deployment_id" 2; set "event_type" 3; set "message" 4; set "metadata" 5;
      set "created_at" 6] OnError []).

Definition select_events (cond : Expr) : Prepared := mkPrepared [TUuid]
  (SSelect (mkSelect (ECol <$> ["id"; "project_id"; "deployment_id"; "event_type"; "message"; "metadata"; "created_at"])
    "events" cond None [("created_at", true)] None)).

(** The secrets of a project that are not part of a snapshot. *)
Definition of_project (n : nat) : Expr := EAnd (col_is "project_id" n) (EIsNull (ECol "deployment_id")).

Definition max_secret_version : Prepared := mkPrepared [TUuid; TText]
  (SMax "version" "secrets" (VInt 0) (EAnd (EAnd (col_is "project_id" 0) (col_is "name" 1)) (EIsNull (ECol "deployment_id")))).

Definition insert_secret_stmt : Prepared := mkPrepared [TUuid; TUuid; TText; TBytes; TInt; TInt; TTime; TTime]
  (SInsert "secrets"
     [set "id" 0; set "project_id" 1; set "name" 2; set "ciphertext" 3; set "key_version" 4; set "version" 5;
      set "created_at" 6; set "updated_at" 7] OnError []).

Definition latest_secret : Prepared := mkPrepared [TUuid; TText]
  (SSelect (mkSelect
    (ECol <$> ["id"; "project_id"; "name"; "ciphertext"; "key_version"; "version"; "created_at"; "updated_at"]) "secrets"
    (EAnd (EAnd (col_is "project_id" 0) (col_is "name" 1)) (EIsNull (ECol "deployment_id")))
    None [("version", true)] (Some 1%nat))).

Definition by_name : list (string * bool) := [("name", false); ("version", true)].

Definition project_secrets : Prepared := mkPrepared [TUuid]
  (SSelect (mkSelect (ECol <$> ["name"; "ciphertext"; "key_version"]) "secrets" (of_project 0) (Some "name") by_name None)).

(** The items of the outer query, on the rows of the inner one. *)
Definition freeze_secrets : Prepared := mkPrepared [TUuid; TUuid]
  (SInsertSelect "secrets"
     ["id"; "deployment_id"; "project_id"; "name"; "ciphertext"; "key_version"; "version"; "created_at"; "updated_at"]
     (mkSelect ([EUuid; EParam 0] ++ (ECol <$> ["project_id"; "name"; "ciphertext"; "key_version"; "version"]) ++ [ENow; ENow])
        "secrets" (of_project 1) (Some "name") by_name None)).

Definition deployment_secrets : Prepared := mkPrepared [TUuid]
  (SSelect (mkSelect (ECol <$> ["name"; "ciphertext"; "key_version"]) "secrets" (col_is "deployment_id" 0) None [] None)).

Definition list_secrets : Prepared := mkPrepared [TUuid]
  (SSelect (mkSelect (ECol <$> ["id"; "project_id"; "name"; "key_version"; "version"; "created_at"; "updated_at"])
     "secrets" (of_project 0) (Some "name") by_name None)).

(** ** Calls of the pool *)

Section storage.
Context {pg : PgTypes} {tx : SqlTexts} {uni : Unicode} {jt : JsonText} {ft : FloatText}.
Context {DB : Type} `{!Pool DB}.
Implicit Types s : DB.

Definition Exec (m : Moment) (p : Prepared) (args : list Value) s : (SqlError + Z) * DB :=
  let '(r, s) := pool_run m p args s in (let? reply := r in inr (rp_affected reply), s).

Definition QueryRow {A} (m : Moment) (p : Prepared) (args : list Value) (scan : list Value → SqlError + A) s :
    (SqlError + A) * DB :=
  let '(r, s) := pool_run m p args s in
  (let? reply := r in match rp_rows reply with row :: _ => scan row | [] => inl NoRows end, s).

(** What a query answers; it changes nothing. *)
Definition query_row {A} (m : Moment) (p : Prepared) (args : list Value) (scan : list Value → SqlError + A) s : SqlError + A :=
  (QueryRow m p args scan s).1.

(** The error of the call, of a row that cannot be read, or of [rows.Err]. *)
Definition query_all {A} (m : Moment) (p : Prepared) (args : list Value) (failed last : string)
    (scan : list Value → error + A) s : error + list A :=
  match (pool_run m p args s).1 with
  | inl err => inl ((if sql_late err then last else failed) +:+ sql_text err)
  | inr reply => traverse scan (rp_rows reply)
  end.

(** [fmt.Errorf] with the verb for an error, and the texts of the driver. *)
Definition wrap (prefix : string) (err : SqlError) : error := prefix +:+ sql_text err.

Definition wrapped {A} (prefix : string) (r : SqlError + A) : error + A :=
  match r with inl err => inl (wrap prefix err) | inr x => inr x end.

(** An update by a key, which must find a row. *)
Definition update_one (failed : string) (missing : error) (r : (SqlError + Z) * DB) : option error * DB :=
  let '(r, s) := r in
  (match r with
   | inl err => Some (wrap failed err)
   | inr n => if n =? 0 then Some missing else None
   end, s).

Definition found_or (missing : error) (prefix : string) {A} (r : SqlError + A) : error + A :=
  match r with
  | inl NoRows => inl missing
  | inl err => inl (wrap prefix err)
  | inr x => inr x
  end.

(** Two stamps that a statement returns. *)
Definition scan_stamps (row : list Value) : SqlError + (Time * Time) :=
  match row with
  | [c; u] => let? created := scan_time c in let? updated := scan_time u in inr (created, updated)
  | _ => inl (ScanFailed VNull)
  end.

Definition scan_identity (row : list Value) : SqlError + (string * Time * Time) :=
  match row with
  | [i; c; u] =>
    let? id := scan_string i in let? created := scan_time c in let? updated := scan_time u in inr (id, created, updated)
  | _ => inl (ScanFailed VNull)
  end.

(** A JSON object as a map of strings; what cannot be decoded is dropped. *)
Definition marshal_map (m : gmap string string) : Value := VBytes (json_text (json_map m)).

Definition unmarshal_map (body : string) : gmap string string :=
  match parse_whole body with
  | Some v => (into_map (T := gmap string string) "" "" (λ m, m) (λ m _, m) v ∅).1
  | None => ∅
  end.

(** ** deployments_repo.go *)

Definition pgd_Create (now : Time) (d : Deployment) s : option error * Deployment * DB :=
  let '(r, s) := QueryRow (at_ now) insert_deployment
    [VText (d_ID d); VText (d_ProjectID d); VText (d_Revision d); VText (d_Image d); VText (d_ImageDigest d);
     VText (d_DesiredState d); VText (status_string (d_Status d)); VText (d_Stage d); VInt (d_InstanceCount d);
     marshal_map (d_Env d)] scan_stamps s in
  match r with
  | inl err => (Some (wrap "failed to create deployment: " err), d, s)
  | inr (created, updated) => (None, d <| d_CreatedAt := created |> <| d_UpdatedAt := updated |>, s)
  end.

Definition scan_deployment (row : list Value) : SqlError + Deployment :=
  match row with
  | [id; project; revision; image; digest; desired; status; stage; count; env; created; updated] =>
    let? id := scan_string id in let? project := scan_string project in let? revision := scan_string revision in
    let? image := scan_string image in let? digest := scan_string digest in let? desired := scan_string desired in
    let? status := scan_string status in let? stage := scan_string stage in let? count := scan_int count in
    let? env := scan_bytes env in let? created := scan_time created in let? updated := scan_time updated in
    inr (mkDeployment id project revision image digest desired (parse_status status) stage count 0
           (if decide (env = "") then ∅ else unmarshal_map env) ∅ created updated)
  | _ => inl (ScanFailed VNull)
  end.

Definition pgd_GetByID (id : string) s : error + Deployment :=
  found_or ErrDeploymentNotFound "scan deployment: " (query_row quiet select_deployment [VText id] scan_deployment s).

Definition pgd_UpdateStatus (now : Time) (id : string) (status : DeploymentStatus) (stage : string) s : option error * DB :=
  update_one "failed to update deployment status: " ErrDeploymentNotFound
    (Exec (at_ now) update_deployment_status [VText (status_string status); VText stage; VText id] s).

Definition pgd_UpdateImage (now : Time) (id image imageDigest : string) s : option error * DB :=
  update_one "failed to update deployment image: " ErrDeploymentNotFound
    (Exec (at_ now) update_deployment_image [VText image; VText imageDigest; VText id] s).

Definition pgd_UpdateScale (now : Time) (id : string) (replicaCount : Z) s : option error * DB :=
  update_one "failed to update deployment scale: " ErrDeploymentNotFound
    (Exec (at_ now) update_deployment_scale [VInt replicaCount; VText id] s).

(** The error of a row is returned as it is. *)
Definition pgd_List (o : Order) (projectID : string) s : error + list Deployment :=
  query_all (in_order o) list_deployments [VText projectID] "failed to list deployments: " ""
    (λ row, wrapped "" (scan_deployment row)) s.

#[export] Instance postgres_deployment_repository : DeploymentRepository DB := {
  dr_Create := pgd_Create; dr_GetByID := pgd_GetByID; dr_UpdateStatus := pgd_UpdateStatus;
  dr_UpdateImage := pgd_UpdateImage; dr_UpdateScale := pgd_UpdateScale; dr_List := pgd_List
}.

(** ** instances_repo.go *)

Definition pgi_Create (now : Time) (i : Instance_) s : option error * Instance_ * DB :=
  let '(r, s) := QueryRow (at_ now) insert_instance
    [VText (i_ID i); VText (i_DeploymentID i); or_null (i_WorkerID i); VText (i_InstanceKey i); VText (i_Status i)]
    scan_stamps s in
  match r with
  | inl err => (Some (wrap "failed to create instance: " err), i, s)
  | inr (created, updated) => (None, i <| i_CreatedAt := created |> <| i_UpdatedAt := updated |>, s)
  end.

Definition scan_instance (row : list Value) : SqlError + Instance_ :=
  match row with
  | [id; deployment; worker; key; status; created; updated] =>
    let? id := scan_string id in let? deployment := scan_string deployment in let? worker := scan_null_string worker in
    let? key := scan_string key in let? status := scan_string status in let? created := scan_time created in
    let? updated := scan_time updated in inr (mkInstance id deployment worker key status "" created updated)
  | _ => inl (ScanFailed VNull)
  end.

Definition pgi_GetByID (id : string) s : error + Instance_ :=
  found_or ErrInstanceNotFound "scan instance: " (query_row quiet instance_by_id [VText id] scan_instance s).

Definition pgi_GetByInstanceKey (key : string) s : error + Instance_ :=
  found_or ErrInstanceNotFound "scan instance: " (query_row quiet instance_by_key [VText key] scan_instance s).

Definition scanInstanceFromRows (row : list Value) : error + Instance_ := wrapped "scan instance row: " (scan_instance row).

Definition pgi_ListByDeployment (o : Order) (deploymentID : string) s : error + list Instance_ :=
  query_all (in_order o) instances_of_deployment [VText deploymentID] "failed to list instances: " "" scanInstanceFromRows s.

Definition pgi_ListByWorker (o : Order) (workerID : string) s : error + list Instance_ :=
  query_all (in_order o) instances_of_worker [VText workerID] "failed to list instances by worker: " "" scanInstanceFromRows s.

Definition pgi_Update (now : Time) (i : Instance_) s : option error * Instance_ * DB :=
  let '(err, s) := update_one "failed to update instance: " ErrInstanceNotFound
    (Exec (at_ now) update_instance [or_null (i_WorkerID i); VText (i_Status i); VText (i_ID i)] s) in
  (err, i, s).

Definition scan_count (row : list Value) : SqlError + (string * Z) :=
  match row with
  | [w; n] => let? worker := scan_string w in let? count := scan_int n in inr (worker, count)
  | _ => inl (ScanFailed VNull)
  end.

Definition pgi_CountByWorkerForDeployment (deploymentID : string) s : error + gmap string Z :=
  let? counts := query_all quiet count_instances [VText deploymentID] "failed to count instances by worker: " ""
                   (λ row, wrapped "" (scan_count row)) s in
  inr (fold_left (λ m kn, <[kn.1 := kn.2]> m) counts ∅).

Definition pgi_ListAll (o : Order) s : error + list Instance_ :=
  query_all (in_order o) all_instances [] "failed to query all instances: " "iterate instances: " scanInstanceFromRows s.

#[export] Instance postgres_instance_repository : InstanceRepository DB := {
  ir_Create := pgi_Create; ir_GetByID := pgi_GetByID; ir_GetByInstanceKey := pgi_GetByInstanceKey;
  ir_ListByDeployment := pgi_ListByDeployment; ir_ListByWorker := pgi_ListByWorker; ir_Update := pgi_Update;
  ir_CountByWorkerForDeployment := pgi_CountByWorkerForDeployment; ir_ListAll := pgi_ListAll
}.

(** ** workers_repo.go *)

(** The statements write the texts of the constants only. *)
Definition parse_worker_state (s : string) : WorkerState :=
  if decide (s = "READY") then StateReady else if decide (s = "DRAINING") then StateDraining
  else if decide (s = "DOWN") then StateDown else StateUnregistered.

Definition parse_worker_health (s : string) : WorkerHealth :=
  if decide (s = "HEALTHY") then HealthHealthy else if decide (s = "SUSPECTED") then HealthSuspected
  else if decide (s = "UNHEALTHY") then HealthUnhealthy else if decide (s = "UNREACHABLE") then HealthUnreachable
  else HealthUnknown.

Definition pgw_Upsert (now : Time) (w : Worker) s : option error * Worker * DB :=
  let '(r, s) := QueryRow (at_ now) upsert_worker
    [VText (w_WorkerKey w); VText (w_Hostname w); VText (w_IPAddress w); VInt (w_Capacity w); marshal_map (w_Labels w);
     VText (worker_state_string (w_State w)); VText (worker_health_string (w_Health w)); VBool (w_Schedulable w);
     time_ptr (w_LastBeatAt w)] scan_identity s in
  match r with
  | inl err => (Some (wrap "failed to upsert worker: " err), w, s)
  | inr (id, created, updated) =>
    (None, w <| w_ID := id |> <| w_CreatedAt := created |> <| w_UpdatedAt := updated |>, s)
  end.

Definition scan_worker (row : list Value) : SqlError + Worker :=
  match row with
  | [id; key; host; ip; capacity; labels; state; health; schedulable; beat; created; updated] =>
    let? id := scan_string id in let? key := scan_string key in let? host := scan_string host in
    let? ip := scan_string ip in let? capacity := scan_int capacity in let? labels := scan_bytes labels in
    let? state := scan_string state in let? health := scan_string health in let? schedulable := scan_bool schedulable in
    let? beat := scan_time_ptr beat in let? created := scan_time created in let? updated := scan_time updated in
    inr (mkWorker id key host ip 0 capacity (if decide (labels = "") then ∅ else unmarshal_map labels)
           (parse_worker_state state) (parse_worker_health health) schedulable 0 beat 0 0 false created updated)
  | _ => inl (ScanFailed VNull)
  end.

Definition pgw_GetByID (id : string) s : error + Worker :=
  found_or ErrWorkerNotFound "scan worker: " (query_row quiet worker_by_id [VText id] scan_worker s).

Definition pgw_GetByWorkerKey (key : string) s : error + Worker :=
  found_or ErrWorkerNotFound "scan worker: " (query_row quiet worker_by_key [VText key] scan_worker s).

Definition pgw_List (o : Order) s : error + list Worker :=
  query_all (in_order o) list_workers [] "failed to list workers: " ""
    (λ row, wrapped "scan worker row: " (scan_worker row)) s.

Definition pgw_UpdateHeartbeat (now : Time) (workerKey : string) (beatAt : Time) s : option error * DB :=
  update_one "failed to update heartbeat: " ErrWorkerNotFound
    (Exec (at_ now) update_heartbeat [VTime beatAt; VText workerKey] s).

Definition pgw_SetDrain (now : Time) (workerKey : string) (draining : bool) s : option error * DB :=
  let state := if draining then StateDraining else StateReady in
  let schedulable := negb draining in
  update_one "failed to set drain status: " ErrWorkerNotFound
    (Exec (at_ now) set_drain [VText (worker_state_string state); VBool schedulable; VText workerKey] s).

Definition pgw_UpdateActiveWorkloads (now : Time) (workerKey : string) (delta : Z) s : option error * DB := (None, s).

#[export] Instance postgres_worker_repository : WorkerRepository DB := {
  wr_Upsert := pgw_Upsert; wr_GetByID := pgw_GetByID; wr_GetByWorkerKey := pgw_GetByWorkerKey; wr_List := pgw_List;
  wr_UpdateHeartbeat := pgw_UpdateHeartbeat; wr_SetDrain := pgw_SetDrain;
  wr_UpdateActiveWorkloads := pgw_UpdateActiveWorkloads
}.

(** ** projects_repo.go *)

Definition pgp_Create (now : Time) (p : Project) s : option error * Project * DB :=
  let p := p <| p_DesiredReplicas ::= λ n, or_default n 1 |> <| p_MinReplicas ::= λ n, or_default n 1 |>
             <| p_MaxReplicas ::= λ n, or_default n 10 |> in
  let '(r, s) := QueryRow (at_ now) insert_project
    [VText (p_Name p); VText (p_Description p); VText (p_RepoURL p); VText (p_WebhookSecret p);
     VInt (p_DesiredReplicas p); VInt (p_MinReplicas p); VInt (p_MaxReplicas p)] scan_identity s in
  match r with
  | inl err => (Some (wrap "failed to create project: " err), p, s)
  | inr (id, created, updated) => (None, p <| p_ID := id |> <| p_CreatedAt := created |> <| p_UpdatedAt := updated |>, s)
  end.

Definition pgp_UpdateScale (now : Time) (id : string) (desired min max : Z) s : option error * DB :=
  update_one "failed to update project scale: " ErrProjectNotFound
    (Exec (at_ now) update_project_scale [VInt desired; VInt min; VInt max; VText id] s).

Definition scan_project (row : list Value) : SqlError + Project :=
  match row with
  | [id; name; description; repo; webhook; desired; min; max; created; updated] =>
    let? id := scan_string id in let? name := scan_string name in let? description := scan_string description in
    let? repo := scan_string repo in let? webhook := scan_string webhook in let? desired := scan_int desired in
    let? min := scan_int min in let? max := scan_int max in let? created := scan_time created in
    let? updated := scan_time updated in
    inr (mkProject id name description repo "" "" webhook desired min max created updated)
  | _ => inl (ScanFailed VNull)
  end.

Definition pgp_GetByID (id : string) s : error + Project :=
  found_or ErrProjectNotFound "scan project: " (query_row quiet project_by_id [VText id] scan_project s).

Definition pgp_GetByName (name : string) s : error + Project :=
  found_or ErrProjectNotFound "scan project: " (query_row quiet project_by_name [VText name] scan_project s).

Definition pgp_List (o : Order) s : error + list Project :=
  query_all (in_order o) list_projects [] "failed to list projects: " "" (λ row, wrapped "" (scan_project row)) s.

#[export] Instance postgres_project_repository : ProjectRepository DB := {
  pr_Create := pgp_Create; pr_GetByID := pgp_GetByID; pr_GetByName := pgp_GetByName; pr_List := pgp_List;
  pr_UpdateScale := pgp_UpdateScale
}.

(** ** releases_repo.go *)

Definition inserted (failed : string) (r : (SqlError + Z) * DB) : option error * DB :=
  (match r.1 with inl err => Some (wrap failed err) | inr _ => None end, r.2).

(** [uuid] and [now] are drawn only where the record has none. *)
Definition pgr_Create (now : Time) (uuid : string) (rel : Release) s : option error * DB :=
  let rel := if decide (rl_ID rel = "") then rel <| rl_ID := uuid |> else rel in
  let rel := if IsZero (rl_CreatedAt rel) then rel <| rl_CreatedAt := now |> else rel in
  inserted "insert release: " (Exec (at_ now) insert_release
    [VText (rl_ID rel); VText (rl_ProjectID rel); VText (rl_DeploymentID rel); VText (rl_Version rel);
     VText (rl_ImageRef rel); VText (rl_ImageDigest rel); VText (rl_Signature rel); VTime (rl_CreatedAt rel)] s).

Definition scan_release (row : list Value) : SqlError + Release :=
  match row with
  | [id; project; deployment; version; image; digest; signature; created] =>
    let? id := scan_string id in let? project := scan_string project in let? deployment := scan_string deployment in
    let? version := scan_string version in let? image := scan_string image in let? digest := scan_string digest in
    let? signature := scan_string signature in let? created := scan_time created in
    inr (mkRelease id project deployment version image digest signature created)
  | _ => inl (ScanFailed VNull)
  end.

Definition pgr_Get (id : string) s : error + Release :=
  found_or ErrReleaseNotFound "query release by id: " (query_row quiet release_by_id [VText id] scan_release s).

Definition pgr_GetByDigest (o : Order) (digest : string) s : error + Release :=
  found_or ErrReleaseNotFound "query release by digest: "
    (query_row (in_order o) release_by_digest [VText digest] scan_release s).

Definition pgr_ListByProject (o : Order) (projectID : string) s : error + list Release :=
  query_all (in_order o) releases_of_project [VText projectID] "query releases by project: " ""
    (λ row, wrapped "scan release: " (scan_release row)) s.

(** ** events_repo.go *)

(** Metadata that cannot be encoded is replaced. *)
Definition pge_Create (now : Time) (uuid : string) (ev : Event) s : option error * DB :=
  let ev := if decide (ev_ID ev = "") then ev <| ev_ID := uuid |> else ev in
  let ev := if IsZero (ev_CreatedAt ev) then ev <| ev_CreatedAt := now |> else ev in
  let meta := if meta_ok (MMap (ev_Metadata ev)) then json_text (json_metadata (ev_Metadata ev)) else "{}" in
  inserted "insert event: " (Exec (at_ now) insert_event
    [VText (ev_ID ev); VText (ev_ProjectID ev); VText (ev_DeploymentID ev); VText (ev_EventType ev);
     VText (ev_Message ev); VBytes meta; VTime (ev_CreatedAt ev)] s).

Definition unmarshal_metadata (body : string) : list (string * MetaValue) :=
  match parse_whole body with
  | Some v => (into_any_map (T := list (string * MetaValue)) "" "" (λ m, m) (λ m _, m) v []).1
  | None => []
  end.

Definition scan_event (row : list Value) : SqlError + Event :=
  match row with
  | [id; project; deployment; type; message; meta; created] =>
    let? id := scan_string id in let? project := scan_string project in let? deployment := scan_string deployment in
    let? type := scan_string type in let? message := scan_string message in let? meta := scan_bytes meta in
    let? created := scan_time created in
    inr (mkEvent id project deployment type message (if decide (meta = "") then [] else unmarshal_metadata meta) created)
  | _ => inl (ScanFailed VNull)
  end.

Definition pge_ListByProject (o : Order) (projectID : string) s : error + list Event :=
  query_all (in_order o) (select_events (col_is "project_id" 0)) [VText projectID] "query events by project: " ""
    (λ row, wrapped "scan event row: " (scan_event row)) s.

Definition pge_ListByDeployment (o : Order) (deploymentID : string) s : error + list Event :=
  query_all (in_order o) (select_events (col_is "deployment_id" 0)) [VText deploymentID] "query events by deployment: " ""
    (λ row, wrapped "scan event row: " (scan_event row)) s.

(** ** secrets_repo.go

    The store keeps the pool and the keys; the two statements of [SetSecret] are
    separate calls, between which other sessions run. *)

Section secrets.
Context {ci : Cipher} {K : Type} `{!KeyProvider K}.

Definition scan_version (row : list Value) : SqlError + Z :=
  match row with [v] => scan_int v | _ => inl (ScanFailed VNull) end.

(** The key, the text under it and the next version. *)
Definition prepare_secret (keys : K) (dw : Draw) (projectID name plaintext : string) s : (error + Secret) * DB :=
  let keyVer := kp_CurrentVersion keys in
  match kp_GetKey keyVer keys with
  | inl err => (inl ("get encryption key: " +:+ err), s)
  | inr key =>
    match Encrypt (dw_nonce dw) plaintext key with
    | inl err => (inl ("encrypt secret: " +:+ err), s)
    | inr ciphertext =>
      let '(r, s) := QueryRow (at_ (dw_now dw)) max_secret_version [VText projectID; VText name] scan_version s in
      let sec currentVer := mkSecret (dw_uuid dw) projectID "" name ciphertext keyVer (currentVer + 1) (dw_now dw) (dw_now dw) in
      (match r with
       | inl NoRows => inr (sec 0)
       | inl err => inl (wrap "query secret version: " err)
       | inr currentVer => inr (sec currentVer)
       end, s)
    end
  end.

Definition insert_secret (sec : Secret) s : (error + Secret) * DB :=
  let '(r, s) := Exec (at_ (sc_CreatedAt sec)) insert_secret_stmt
    [VText (sc_ID sec); VText (sc_ProjectID sec); VText (sc_Name sec); VBytes (sc_Ciphertext sec); VInt (sc_KeyVersion sec);
     VInt (sc_Version sec); VTime (sc_CreatedAt sec); VTime (sc_UpdatedAt sec)] s in
  (match r with inl err => inl (wrap "insert secret: " err) | inr _ => inr sec end, s).

Definition pgs_SetSecret (keys : K) (dw : Draw) (projectID name plaintext : string) s : (error + Secret) * DB :=
  match prepare_secret keys dw projectID name plaintext s with
  | (inl err, s) => (inl err, s)
  | (inr sec, s) => insert_secret sec s
  end.

Definition scan_secret (row : list Value) : SqlError + Secret :=
  match row with
  | [id; project; name; ciphertext; key; version; created; updated] =>
    let? id := scan_string id in let? project := scan_string project in let? name := scan_string name in
    let? ciphertext := scan_bytes ciphertext in let? key := scan_int key in let? version := scan_int version in
    let? created := scan_time created in let? updated := scan_time updated in
    inr (mkSecret id project "" name ciphertext key version created updated)
  | _ => inl (ScanFailed VNull)
  end.

Definition pgs_GetSecret (keys : K) (projectID name : string) s : error + (Secret * string) :=
  match query_row quiet latest_secret [VText projectID; VText name] scan_secret s with
  | inl NoRows => inl ErrSecretNotFound
  | inl err => inl (wrap "query secret: " err)
  | inr sec =>
    match kp_GetKey (sc_KeyVersion sec) keys with
    | inl err => inl ("get key version " +:+ Itoa (sc_KeyVersion sec) +:+ ": " +:+ err)
    | inr key =>
      match Decrypt (sc_Ciphertext sec) key with
      | inl err => inl ("decrypt secret " +:+ name +:+ ": " +:+ err)
      | inr pt => inr (sec, pt)
      end
    end
  end.

(** One row of the two readers. *)
Definition scan_sealed (row : list Value) : SqlError + (string * string * Z) :=
  match row with
  | [n; c; k] => let? name := scan_string n in let? ciphertext := scan_bytes c in let? keyVer := scan_int k in
                 inr (name, ciphertext, keyVer)
  | _ => inl (ScanFailed VNull)
  end.

Definition open_row (keys : K) (scan_failed decrypt_failed : string) (row : list Value) : error + (string * string) :=
  match scan_sealed row with
  | inl err => inl (wrap scan_failed err)
  | inr (name, ciphertext, keyVer) =>
    match kp_GetKey keyVer keys with
    | inl err => inl ("get key version " +:+ Itoa keyVer +:+ " for " +:+ name +:+ ": " +:+ err)
    | inr key =>
      match Decrypt ciphertext key with
      | inl err => inl (decrypt_failed +:+ name +:+ ": " +:+ err)
      | inr pt => inr (name, pt)
      end
    end
  end.

Definition as_map (l : list (string * string)) : gmap string string := fold_left (λ m kv, <[kv.1 := kv.2]> m) l ∅.

Definition pgs_GetSecretsForProject (keys : K) (o : Order) (projectID : string) s : error + gmap string string :=
  let? l := query_all (in_order o) project_secrets [VText projectID] "query project secrets: " ""
              (open_row keys "scan secret row: " "decrypt secret ") s in inr (as_map l).

Definition pgs_SnapshotForDeployment (o : Order) (now : Time) (projectID deploymentID : string) s : option error * DB :=
  inserted ("snapshot secrets for deployment " +:+ deploymentID +:+ ": ")
    (Exec (mkMoment now o) freeze_secrets [VText deploymentID; VText projectID] s).

Definition pgs_GetSecretsForDeployment (keys : K) (o : Order) (deploymentID : string) s : error + gmap string string :=
  let? l := query_all (in_order o) deployment_secrets [VText deploymentID] "query deployment secrets: " ""
              (open_row keys "scan deployment secret: " "decrypt deployment secret ") s in inr (as_map l).

Definition scan_metadata (row : list Value) : SqlError + Secret :=
  match row with
  | [id; project; name; key; version; created; updated] =>
    let? id := scan_string id in let? project := scan_string project in let? name := scan_string name in
    let? key := scan_int key in let? version := scan_int version in let? created := scan_time created in
    let? updated := scan_time updated in inr (mkSecret id project "" name "" key version created updated)
  | _ => inl (ScanFailed VNull)
  end.

Definition pgs_ListSecrets (o : Order) (projectID : string) s : error + list Secret :=
  query_all (in_order o) list_secrets [VText projectID] "list secrets: " "" (λ row, wrapped "scan secret: " (scan_metadata row)) s.

End secrets.
End storage.

(** ** postgres.go *)

(** The configuration of a pool, its three limits that are set, and a pool. *)
Class Driver (C DB : Type) := {
  ParseConfig : string → error + C;
  set_limits : Z → Z → Duration → C → C;
  NewWithConfig : C → error + DB;
  pool_Close : DB → DB
}.

(** The pool, or the error and the pool that was closed again. *)
Definition Open {tx : SqlTexts} {C DB : Type} `{!Driver C DB} `{!Pool DB} (cfg : PostgresConfig) :
    (error + DB) * option DB :=
  match ParseConfig (DSN cfg) with
  | inl err => (inl ("parse postgres config: " +:+ err), None)
  | inr c =>
    match NewWithConfig (set_limits (int32 (pg_MaxOpenConns cfg)) (int32 (pg_MaxIdleConns cfg)) (pg_MaxLifetime cfg) c) with
    | inl err => (inl ("create postgres pool: " +:+ err), None)
    | inr pool =>
      match pool_Ping pool with
      | Some err => (inl ("ping postgres: " +:+ sql_text err), Some (pool_Close pool))
      | None => (inr pool, None)
      end
    end
  end.
