(* ===== verification/StorageFacts.v ===== *)
(** * Theorems about the Postgres repositories

    Every method keeps the types and constraints of the schema, and on valid
    input the deployments of the database answer like those in memory, but for
    the columns that are not there. *)

From stdpp Require Import base option gmap strings list pretty.
From Stdlib Require Import ZArith Lia.
From S2P Require Import Prelude GoLib GoFloat GoTime PtrStore Workers Deployments Projects Secrets Json JsonDecode ApiData Records Sql Migrations Storage.

#[local] Opaque nebula_schema.

(** ** Types and constraints *)

Section types.
Context {pg : PgTypes} {tx : SqlTexts} {uni : Unicode} {jt : JsonText} {ft : FloatText}.
Context {ci : Cipher} {K : Type} `{!KeyProvider K} {DB : Type} `{!Pool DB} {laws : PoolLaws DB}.
Implicit Types s : DB.

(** Every method that changes the database. *)
Inductive StorageOp :=
| OpDeployment (now : Time) (d : Deployment) | OpStatus (now : Time) (id : string) (status : DeploymentStatus) (stage : string)
| OpImage (now : Time) (id image digest : string) | OpScale (now : Time) (id : string) (replicas : Z)
| OpInstance (now : Time) (i : Instance_) | OpUpdateInstance (now : Time) (i : Instance_)
| OpUpsert (now : Time) (w : Worker) | OpHeartbeat (now : Time) (key : string) (beat : Time)
| OpDrain (now : Time) (key : string) (draining : bool)
| OpProject (now : Time) (p : Project) | OpProjectScale (now : Time) (id : string) (desired min max : Z)
| OpRelease (now : Time) (uuid : string) (rel : Release) | OpEvent (now : Time) (uuid : string) (ev : Event)
| OpSecret (keys : K) (dw : Draw) (projectID name plaintext : string)
| OpSnapshot (o : Order) (now : Time) (projectID deploymentID : string)
| OpMigrate (now : Time).

Definition storage_op (op : StorageOp) s : DB :=
  match op with
  | OpDeployment now d => (pgd_Create now d s).2
  | OpStatus now id status stage => (pgd_UpdateStatus now id status stage s).2
  | OpImage now id image digest => (pgd_UpdateImage now id image digest s).2
  | OpScale now id n => (pgd_UpdateScale now id n s).2
  | OpInstance now i => (pgi_Create now i s).2
  | OpUpdateInstance now i => (pgi_Update now i s).2
  | OpUpsert now w => (pgw_Upsert now w s).2
  | OpHeartbeat now key beat => (pgw_UpdateHeartbeat now key beat s).2
  | OpDrain now key draining => (pgw_SetDrain now key draining s).2
  | OpProject now p => (pgp_Create now p s).2
  | OpProjectScale now id desired min max => (pgp_UpdateScale now id desired min max s).2
  | OpRelease now uuid rel => (pgr_Create now uuid rel s).2
  | OpEvent now uuid ev => (pge_Create now uuid ev s).2
  | OpSecret keys dw p n pt => (pgs_SetSecret keys dw p n pt s).2
  | OpSnapshot o now p d => (pgs_SnapshotForDeployment o now p d s).2
  | OpMigrate now => (Migrate now s).2
  end.

(** A database of the schema whose rows are as the schema says. *)
Definition sound (s s' : DB) : Prop :=
  strip (pool_db s) = nebula_schema → db_ok (pool_db s) →
  strip (pool_db s') = nebula_schema ∧ db_ok (pool_db s') ∧ grows (pool_db s) (pool_db s').

#[export] Instance sound_preorder : PreOrder sound.
Proof.
  split; [intros s Hs H; split_and!; [exact Hs|exact H|reflexivity]|]. intros a b c H1 H2 Hs H. destruct (H1 Hs H) as (Hs1 & Hk1 & Hg1).
  destruct (H2 Hs1 Hk1) as (Hs2 & Hk2 & Hg2). split_and!; [done..|]. by etrans.
Qed.

Lemma strip_grows db db' : grows db db' → strip db' = strip db.
Proof.
  intros [H _]. unfold strip. f_equal. apply map_eq. intros k. rewrite !lookup_fmap.
  assert (((λ t, (t_cols t, t_uniques t)) <$> db_tables db') !! k = ((λ t, (t_cols t, t_uniques t)) <$> db_tables db) !! k)
    as E by (by rewrite H).
  rewrite !lookup_fmap in E. destruct (db_tables db' !! k) as [[c u r]|], (db_tables db !! k) as [[c' u' r']|]; try done.
  injection E as -> ->. done.
Qed.

Lemma pool_sound m p args s : stmt_keeps_ids (pr_stmt p) = true → sound s (pool_run m p args s).2.
Proof.
  intros Hk Hs H. destruct (run_law m p args s) as [_ E]. rewrite E.
  destruct (sql_keeps_types m p args (pool_db s) H Hk) as [H1 H2].
  split_and!; [|done..]. by rewrite (strip_grows _ _ H2).
Qed.

Lemma exec_sound m p args s : stmt_keeps_ids (pr_stmt p) = true → sound s (Exec m p args s).2.
Proof. intros H. pose proof (pool_sound m p args s H) as Hp. unfold Exec. by destruct (pool_run m p args s). Qed.

Lemma query_sound {A} m p args (scan : list Value → SqlError + A) s :
  stmt_keeps_ids (pr_stmt p) = true → sound s (QueryRow m p args scan s).2.
Proof. intros H. pose proof (pool_sound m p args s H) as Hp. unfold QueryRow. by destruct (pool_run m p args s). Qed.

Lemma update_one_state failed missing (r : (SqlError + Z) * DB) : (update_one failed missing r).2 = r.2.
Proof. by destruct r. Qed.

Lemma insert_sound {A B} m p args (scan : list Value → SqlError + A) s (k : SqlError + A → DB → B * DB) :
  stmt_keeps_ids (pr_stmt p) = true → (∀ r s1, (k r s1).2 = s1) →
  sound s (let '(r, s1) := QueryRow m p args scan s in k r s1).2.
Proof.
  intros H Hk. pose proof (query_sound m p args scan s H) as Hq. destruct (QueryRow m p args scan s) as [r s1].
  by rewrite Hk.
Qed.

Lemma set_secret_sound keys dw p n pt s : sound s (pgs_SetSecret (K := K) keys dw p n pt s).2.
Proof.
  unfold pgs_SetSecret, prepare_secret. destruct (kp_GetKey _ keys) as [e|key]; [reflexivity|].
  destruct (Encrypt _ pt key) as [e|ct]; [reflexivity|].
  pose proof (query_sound (at_ (dw_now dw)) max_secret_version [VText p; VText n] scan_version s eq_refl) as H1.
  destruct (QueryRow _ _ _ scan_version s) as [r s1]. cbn [snd] in H1.
  assert (∀ sec, sound s (insert_secret sec s1).2) as H2.
  { intros sec. etrans; [exact H1|]. unfold insert_secret.
    match goal with |- context [Exec ?m ?p ?a s1] => pose proof (exec_sound m p a s1 eq_refl) as H2; destruct (Exec m p a s1) end.
    exact H2. }
  destruct r as [[]|v]; try exact H1; apply H2.
Qed.

Lemma migrate_sound now s : sound s (Migrate now s).2.
Proof.
  intros Hs H. destruct (migrate_again now s Hs) as (s' & -> & E). cbn [snd]. rewrite E.
  split_and!; [exact Hs|exact H|reflexivity].
Qed.

Lemma storage_op_sound op s : sound s (storage_op op s).
Proof.
  destruct op; cbn [storage_op];
    unfold pgd_UpdateStatus, pgd_UpdateImage, pgd_UpdateScale, pgw_UpdateHeartbeat, pgw_SetDrain, pgp_UpdateScale,
      pgr_Create, pge_Create, pgs_SnapshotForDeployment, inserted; rewrite ?update_one_state; try (by apply exec_sound).
  - apply insert_sound; [done|]. by intros [|[]] ?.
  - apply insert_sound; [done|]. by intros [|[]] ?.
  - unfold pgi_Update. match goal with |- context [update_one ?a ?b ?r] => pose proof (update_one_state a b r) as E;
      destruct (update_one a b r) as [err s1] end. cbn in *. subst s1. by apply exec_sound.
  - apply insert_sound; [done|]. by intros [|[[]]] ?.
  - apply insert_sound; [done|]. by intros [|[[]]] ?.
  - apply set_secret_sound.
  - apply migrate_sound.
Qed.


End types.

(** ** Rows by their cells *)

Section cells.
Context {pg : PgTypes}.
Implicit Types (r : list (string * Value)) (cols : list Column) (t : Table) (db : Database).

Definition cell (c : string) r : Value := default VNull (assoc c r).

Definition names cols : list string := c_name <$> cols.

(** A row with new values in some of its columns. *)
Definition overwrite (vals : list (string * Value)) r : list (string * Value) :=
  (λ kv, (kv.1, default kv.2 (assoc kv.1 vals))) <$> r.

Lemma cell_overwrite vals c r :
  cell c (overwrite vals r) = match assoc c r with Some v => default v (assoc c vals) | None => VNull end.
Proof.
  unfold cell, overwrite. induction r as [|[k v] r IH]; cbn; [done|]. destruct (String.eqb_spec k c) as [->|]; [done|]. apply IH.
Qed.

Lemma cell_kept vals c r : assoc c vals = None → cell c (overwrite vals r) = cell c r.
Proof. intros H. rewrite cell_overwrite, H. unfold cell. by destruct (assoc c r). Qed.

Lemma row_ok_assoc cols r col : NoDup (names cols) → row_ok cols r → col ∈ cols →
  ∃ v, assoc (c_name col) r = Some v ∧ check_value col v = inr v.
Proof.
  intros Hn H. induction H as [|col' [k v] cols r [Hk Hv] H IH]; [by intros ?%not_elem_of_nil|].
  cbn in Hn, Hk |- *. apply NoDup_cons in Hn as [Hn1 Hn2]. intros [->|Hc]%elem_of_cons.
  - subst k. rewrite String.eqb_refl. eauto.
  - destruct (String.eqb_spec k (c_name col)) as [->|]; [|by apply IH]. exfalso. apply Hn1. rewrite <- Hk.
    by apply list_elem_of_fmap_2.
Qed.

Lemma row_ok_cell cols r col : NoDup (names cols) → row_ok cols r → col ∈ cols →
  column (c_name col) r = inr (cell (c_name col) r) ∧ check_value col (cell (c_name col) r) = inr (cell (c_name col) r).
Proof.
  intros Hn Hr Hc. destruct (row_ok_assoc cols r col Hn Hr Hc) as (v & E & Hv). unfold column, cell. by rewrite E.
Qed.

Lemma overwritten cols r (vals : list (string * Value)) : row_ok cols r →
  (∀ col v, col ∈ cols → assoc (c_name col) vals = Some v → check_value col v = inr v) →
  row_ok cols (overwrite vals r).
Proof.
  intros H. induction H as [|col [k v] cols r [Hk Hv] H IH]; intros Hs; constructor.
  - cbn in *. subst k. split; [done|]. destruct (assoc (c_name col) vals) as [w|] eqn:E; cbn; [|done].
    apply Hs; [left|done].
  - apply IH. intros col' w Hc. apply Hs. by right.
Qed.

(** An update whose assignments evaluate to values of the right types. *)
Lemma changed_overwrite e cols sets r (vals : list (string * Value)) :
  NoDup (names cols) → row_ok cols r → known cols sets.*1 = inr tt →
  (∀ col, col ∈ cols →
    match assoc (c_name col) sets, assoc (c_name col) vals with
    | Some x, Some v =>
      eval (mkEnv (en_params e) (en_now e) (en_uuid e) r (en_excluded e)) x = inr v ∧ check_value col v = inr v
    | None, None => True
    | _, _ => False
    end) →
  changed_row e cols sets r = inr (overwrite vals r).
Proof.
  intros Hn Hr Hk Hs. unfold changed_row. rewrite Hk. cbn [ebind]. apply traverse_Forall2.
  assert (∀ cs rs, Forall2 (λ col kv, kv.1 = c_name col ∧ check_value col kv.2 = inr kv.2) cs rs →
    (∀ col, col ∈ cs → col ∈ cols) → (∀ k v, (k, v) ∈ rs → (k, v) ∈ r) →
    Forall2 (λ col y, (let? v := match assoc (c_name col) sets with
      | Some x => eval (mkEnv (en_params e) (en_now e) (en_uuid e) r (en_excluded e)) x
      | None => column (c_name col) r end in let? v' := check_value col v in inr (c_name col, v')) = inr y) cs (overwrite vals rs)) as Hgen.
  { induction 1 as [|col [k v] cs rs [Hk' Hv] H IH]; intros Hc Hin; constructor.
    - cbn in Hk'. subst k. cbn [fst snd]. assert (col ∈ cols) as Hcol by (apply Hc; left).
      specialize (Hs col Hcol). destruct (assoc (c_name col) sets) as [x|], (assoc (c_name col) vals) as [w|]; try done.
      + destruct Hs as [-> Hw]. cbn. by rewrite Hw.
      + destruct (row_ok_assoc cols r col Hn Hr Hcol) as (w & E & Hw). cbn.
        assert (w = v) as ->.
        { clear - Hn Hr Hin E Hcol. specialize (Hin (c_name col) v ltac:(left)).
          assert (NoDup r.*1) as Hnr.
          { assert (r.*1 = names cols) as ->; [|done]. clear - Hr.
            induction Hr as [|c' [k' v'] cs' rs' [Hk' _] _ IH]; cbn in *; [done|]. by rewrite Hk', IH. }
          clear Hr. induction r as [|[k' v'] r IH]; [by apply not_elem_of_nil in Hin|]. cbn in *.
          apply NoDup_cons in Hnr as [Hn1 Hn2]. apply elem_of_cons in Hin as [[= <- <-]|Hin].
          - rewrite String.eqb_refl in E. by injection E.
          - destruct (String.eqb_spec k' (c_name col)) as [->|]; [|by apply IH].
            destruct Hn1. apply list_elem_of_fmap. by exists (c_name col, v). }
        unfold column. rewrite E. cbn. by rewrite Hw.
    - apply IH; [intros c Hx; apply Hc; by right|]. intros k' v' Hx. apply Hin. by right. }
  by apply Hgen.
Qed.

(** ** Queries and updates on encoded rows *)

Lemma keep_rows e cond (p : list (string * Value) → bool) rows :
  (∀ r, r ∈ rows → holds e cond r = inr (p r)) →
  keep (holds e cond) rows = inr (base.filter (λ r, p r = true) rows).
Proof.
  induction rows as [|r rows IH]; intros H; cbn [keep]; [done|]. rewrite (H r) by left. cbn [ebind].
  rewrite IH by (intros x Hx; apply H; by right). cbn [ebind]. rewrite filter_cons. by destruct (p r).
Qed.

Lemma order_by_perm keys rows : order_by keys rows ≡ₚ rows.
Proof. induction keys as [|[c desc] keys IH]; cbn; [done|]. by rewrite SliceStable_perm. Qed.

Lemma found_rows e o q db t (p : list (string * Value) → bool) :
  db_tables db !! q_from q = Some t → q_distinct q = None → q_limit q = None →
  (∀ r, r ∈ t_rows t → holds e (q_where q) r = inr (p r)) →
  ∃ rows, found e o q db = inr rows ∧ rows ≡ₚ base.filter (λ r, p r = true) (t_rows t).
Proof.
  intros Ht Hd Hl Hp. unfold found, table. rewrite Ht, Hd, Hl. cbn [ebind].
  rewrite (keep_rows e (q_where q) p) by (intros r Hr; apply Hp; by apply elem_of_permute in Hr).
  eexists. split; [reflexivity|]. rewrite order_by_perm. by rewrite permute_perm.
Qed.

Lemma update_rows_spec e db t sets cond (p : list (string * Value) → bool) (f : list (string * Value) → list (string * Value)) done_ todo :
  (∀ r, r ∈ todo → cond r = inr (p r)) →
  (∀ r, r ∈ todo → p r = true → changed_row e (t_cols t) sets r = inr (f r)
    ∧ (∀ u, u ∈ t_uniques t → unique_key u (f r) = unique_key u r) ∧ check_fk db (t_cols t) (f r) = inr tt) →
  ForallOrdPairs (apart (t_uniques t)) (done_ ++ todo) →
  update_rows e db t sets cond done_ todo
  = inr (done_ ++ ((λ r, if p r then f r else r) <$> todo), Z.of_nat (length (base.filter (λ r, p r = true) todo))).
Proof.
  revert done_. induction todo as [|r todo IH]; intros done_ Hc Hf Ha; cbn [update_rows]; [by rewrite app_nil_r|].
  rewrite (Hc r) by left. cbn [ebind]. rewrite filter_cons, fmap_cons. destruct (p r) eqn:Ep.
  - destruct (Hf r ltac:(left) Ep) as (-> & Hu & Hk). cbn [ebind].
    apply (FOP_perm _ _ (r :: done_ ++ todo)) in Ha; [|by rewrite Permutation_middle].
    inversion Ha as [|? ? Hr Ha']; subst.
    assert (Forall (apart (t_uniques t) (f r)) (done_ ++ todo)) as Hr'.
    { eapply Forall_impl; [exact Hr|]. intros x Hx u Hin. specialize (Hx u Hin). unfold same_key in *. by rewrite Hu. }
    rewrite (proj2 (check_row_inr db t (done_ ++ todo) (f r))) by done. cbn [ebind].
    rewrite (IH (done_ ++ [f r])); [|intros x Hx; apply Hc; by right|intros x Hx; apply Hf; by right|].
    + cbn [ebind fst snd length]. rewrite decide_True, <- app_assoc by done. cbn. repeat f_equal. lia.
    + rewrite <- app_assoc. apply (FOP_perm _ (f r :: done_ ++ todo)); [by rewrite Permutation_middle|]. by constructor.
  - rewrite decide_False by done.
    rewrite (IH (done_ ++ [r])); [by rewrite <- app_assoc|intros x Hx; apply Hc; by right|intros x Hx; apply Hf; by right|].
    by rewrite <- app_assoc.
Qed.

End cells.

(** ** Reading typed rows *)

Ltac by_decision :=
  match goal with
  | |- ?P => let H := fresh in
             assert (bool_decide P = true) as H by (vm_compute; reflexivity); exact (proj1 (bool_decide_eq_true P) H)
  end.

Definition string_of (v : Value) : string := match v with VText s | VUuid s => s | _ => "" end.
Definition int_of (v : Value) : Z := match v with VInt n => n | _ => 0 end.
Definition time_of (v : Value) : Time := match v with VTime t => t | _ => 0 end.
Definition bytes_of (v : Value) : string := match v with VBytes s | VJson s => s | _ => "" end.

Definition str (c : string) (r : list (string * Value)) : string := string_of (cell c r).

(** A column that may not be null, of one of some types. *)
Definition col_in (tys : list ColType) (c : string) (cols : list Column) : bool :=
  existsb (λ col, String.eqb (c_name col) c && negb (c_null col)
    && existsb (λ ty, match ty, c_type col with
                      | TText, TText | TUuid, TUuid | TInt, TInt | TTime, TTime | TJson, TJson => true
                      | _, _ => false end) tys) cols.

Section reading.
Context {pg : PgTypes} (cols : list Column) (Hn : NoDup (names cols)).
Implicit Types r : list (string * Value).

Lemma items_cells e cs r : row_ok cols r → (∀ c, c ∈ cs → c ∈ names cols) →
  items e (ECol <$> cs) r = inr ((λ c, cell c r) <$> cs).
Proof.
  intros Hr Hc. unfold items. apply traverse_Forall2, Forall2_fmap, Forall_Forall2_diag, Forall_forall. intros c Hin.
  destruct (proj1 (list_elem_of_fmap _ _ _) (Hc c Hin)) as (col & -> & Hcol).
  exact (proj1 (row_ok_cell cols r col Hn Hr Hcol)).
Qed.

Lemma cell_typed tys c r : row_ok cols r → col_in tys c cols = true →
  ∃ ty, ty ∈ tys ∧ has_type ty (cell c r) = true ∧ cell c r ≠ VNull.
Proof.
  intros Hr (col & Hcol & [[Ec%String.eqb_eq Hnull%negb_true_iff]%andb_prop
    (ty & Hty & E)%existsb_exists]%andb_prop)%existsb_exists. subst c.
  destruct (row_ok_cell cols r col Hn Hr (proj2 (list_elem_of_In _ _) Hcol)) as [_ H].
  exists ty. split; [by apply list_elem_of_In|]. unfold check_value in H. rewrite Hnull in H.
  assert (c_type col = ty) as Et by (by destruct ty, (c_type col)). rewrite Et in H.
  destruct (cell (c_name col) r); try done; (split; [|done]); by destruct (has_type ty _).
Qed.

Lemma scan_string_cell c r : row_ok cols r → col_in [TText; TUuid] c cols = true → scan_string (cell c r) = inr (str c r).
Proof.
  intros Hr Hc. destruct (cell_typed _ c r Hr Hc) as (ty & Hty & H & Hv). unfold str.
  apply elem_of_cons in Hty as [Hty|Hty%list_elem_of_singleton]; subst ty; by destruct (cell c r).
Qed.

Lemma scan_int_cell c r : row_ok cols r → col_in [TInt] c cols = true → scan_int (cell c r) = inr (int_of (cell c r)).
Proof.
  intros Hr Hc. destruct (cell_typed _ c r Hr Hc) as (ty & Hty%list_elem_of_singleton & H & Hv); subst ty. by destruct (cell c r).
Qed.

Lemma scan_time_cell c r : row_ok cols r → col_in [TTime] c cols = true → scan_time (cell c r) = inr (time_of (cell c r)).
Proof.
  intros Hr Hc. destruct (cell_typed _ c r Hr Hc) as (ty & Hty%list_elem_of_singleton & H & Hv); subst ty. by destruct (cell c r).
Qed.

Lemma scan_bytes_cell c r : row_ok cols r → col_in [TJson] c cols = true → scan_bytes (cell c r) = inr (bytes_of (cell c r)).
Proof.
  intros Hr Hc. destruct (cell_typed _ c r Hr Hc) as (ty & Hty%list_elem_of_singleton & H & Hv); subst ty. by destruct (cell c r).
Qed.

Lemma uuid_cell c r : row_ok cols r → col_in [TUuid] c cols = true →
  cell c r = VUuid (str c r) ∧ uuid_in (str c r) = Some (str c r).
Proof.
  intros Hr Hc. destruct (cell_typed _ c r Hr Hc) as (ty & Hty%list_elem_of_singleton & H & Hv); subst ty. unfold str.
  destruct (cell c r); try done. cbn in *. by apply bool_decide_eq_true in H.
Qed.

(** The condition that compares a column of identifiers with a parameter. *)
Lemma holds_id e c n id r : row_ok cols r → col_in [TUuid] c cols = true → c ∈ names cols →
  en_params e !! n = Some (VUuid id) → holds e (col_is c n) r = inr (bool_decide (str c r = id)).
Proof.
  intros Hr Hc Hin Hp. destruct (uuid_cell c r Hr Hc) as [E _]. unfold holds, col_is. cbn [eval en_row en_params].
  destruct (proj1 (list_elem_of_fmap _ _ _) Hin) as (col & -> & Hcol).
  destruct (row_ok_cell cols r col Hn Hr Hcol) as [-> _]. rewrite E, Hp. cbn [ebind]. f_equal. apply bool_decide_ext.
  split; [intros H|intros ->].
  - injection H as H. apply bool_decide_eq_true in H. by injection H.
  - f_equal. by apply bool_decide_true.
Qed.

End reading.

(** ** The deployments of a database *)

Definition deployment_cols : list Column :=
  [id_column; ref_column "project_id" false "projects" Cascade; text_column "revision"; text_column "image";
   text_column "image_digest"; mkColumn "desired_state" TText false (text "RUNNING") None;
   mkColumn "status" TText false (text "QUEUED") None; mkColumn "stage" TText false (text "QUEUED") None;
   int_column "instance_count" 1; json_column "env"; stamp_column "created_at"; stamp_column "updated_at";
   int_column "attempts" 0; text_column "last_error"; time_column "building_at"; time_column "scheduling_at";
   time_column "started_at"; time_column "finished_at"; int_column "desired_replicas" 1].

Lemma deployment_names : NoDup (names deployment_cols).
Proof. by_decision. Qed.

Lemma deployment_schema {pg : PgTypes} :
  db_tables nebula_schema !! "deployments" = Some (mkTable deployment_cols [pkey "deployments"] []).
Proof. vm_compute. reflexivity. Qed.

Lemma filter_one {A} (f : A → string) (k : string) l : NoDup (f <$> l) →
  (∃ x, x ∈ l ∧ f x = k ∧ base.filter (λ y, bool_decide (f y = k) = true) l = [x])
  ∨ base.filter (λ y, bool_decide (f y = k) = true) l = [] ∧ ∀ x, x ∈ l → f x ≠ k.
Proof.
  induction l as [|x l IH]; [right; split; [done|]; by intros ? ?%not_elem_of_nil|].
  rewrite fmap_cons, filter_cons. intros [Hx Hl]%NoDup_cons. destruct (decide (f x = k)) as [E|E].
  - left. exists x. split; [left|]. split; [done|]. rewrite decide_True by by apply bool_decide_eq_true.
    destruct (IH Hl) as [(y & Hy & Ey & _)|[-> _]]; [|done]. destruct Hx. rewrite E, <- Ey. by apply list_elem_of_fmap_2.
  - rewrite decide_False by by rewrite bool_decide_eq_true. destruct (IH Hl) as [(y & Hy & Ey & Ef)|[Ef Hf]].
    + left. exists y. split; [by right|done].
    + right. split; [done|]. intros y [->|Hy]%elem_of_cons; [done|auto].
Qed.

Lemma filter_image {A B} (f : A → B) (P : B → Prop) `{!∀ x, Decision (P x)} (l : list A) :
  base.filter P (f <$> l) = f <$> base.filter (λ x, P (f x)) l.
Proof.
  induction l as [|x l IH]; [done|]. rewrite fmap_cons, !filter_cons, IH. by destruct (decide (P (f x))).
Qed.

Section deployments.
Context {pg : PgTypes} {pgl : PgTypesLaws} {tx : SqlTexts} {uni : Unicode} {jt : JsonText} {ft : FloatText}.
Context {DB : Type} `{!Pool DB} {laws : PoolLaws DB}.
Implicit Types (s : DB) (r : list (string * Value)) (d : Deployment).

Definition deployment_of r : Deployment :=
  mkDeployment (str "id" r) (str "project_id" r) (str "revision" r) (str "image" r) (str "image_digest" r)
    (str "desired_state" r) (parse_status (str "status" r)) (str "stage" r) (int_of (cell "instance_count" r)) 0
    (if decide (bytes_of (cell "env" r) = "") then ∅ else unmarshal_map (bytes_of (cell "env" r))) ∅
    (time_of (cell "created_at" r)) (time_of (cell "updated_at" r)).

(** A row is read as the deployment of its cells. *)
Lemma read_deployment_view e r : row_ok deployment_cols r →
  ∃ row, items e deployment_items r = inr row ∧ scan_deployment row = inr (deployment_of r).
Proof.
  intros Hr. eexists. split.
  { unfold deployment_items. apply (items_cells deployment_cols deployment_names); [exact Hr|].
    apply Forall_forall. by_decision. }
  cbn [fmap list_fmap scan_deployment].
  rewrite ?(scan_string_cell deployment_cols deployment_names) by (exact Hr || reflexivity).
  rewrite ?(scan_int_cell deployment_cols deployment_names) by (exact Hr || reflexivity).
  rewrite ?(scan_time_cell deployment_cols deployment_names) by (exact Hr || reflexivity).
  rewrite ?(scan_bytes_cell deployment_cols deployment_names) by (exact Hr || reflexivity).
  reflexivity.
Qed.

Lemma read_deployments e rows : Forall (row_ok deployment_cols) rows →
  ∃ vs, traverse (items e deployment_items) rows = inr vs
    ∧ Forall2 (λ row r, scan_deployment row = inr (deployment_of r)) vs rows.
Proof.
  induction 1 as [|r rows Hr _ (vs & E1 & E2)]; [by exists []|].
  destruct (read_deployment_view e r Hr) as (row & E3 & E4). exists (row :: vs). split; [|by constructor].
  cbn [traverse]. by rewrite E3, E1.
Qed.

(** A database after its migrations. *)
Definition ready s : Prop := strip (pool_db s) = nebula_schema ∧ db_ok (pool_db s).

Definition rows_of (name : string) s : list (list (string * Value)) :=
  match db_tables (pool_db s) !! name with Some t => t_rows t | None => [] end.

Lemma ready_table s : ready s →
  db_tables (pool_db s) !! "deployments" = Some (mkTable deployment_cols [pkey "deployments"] (rows_of "deployments" s))
  ∧ Forall (row_ok deployment_cols) (rows_of "deployments" s)
  ∧ ForallOrdPairs (apart [pkey "deployments"]) (rows_of "deployments" s)
  ∧ Forall (λ r, check_fk (pool_db s) deployment_cols r = inr tt) (rows_of "deployments" s).
Proof.
  intros [Hs Ho]. pose proof deployment_schema as E. rewrite <- Hs in E. unfold strip in E. cbn [db_tables] in E.
  rewrite lookup_fmap in E. unfold rows_of. destruct (db_tables (pool_db s) !! "deployments") as [[cs us rs]|] eqn:Et; [|done].
  cbn in E. injection E as -> ->. destruct (Ho _ _ Et) as [H1 H2 H3].
  split_and!; [reflexivity|exact H1|exact H2|exact H3].
Qed.

Lemma pkey_unique name r : row_ok deployment_cols r → unique_key (pkey name) r = Some [VUuid (str "id" r)].
Proof.
  intros Hr. destruct (uuid_cell deployment_cols deployment_names "id" r Hr eq_refl) as [E _].
  unfold unique_key. cbn [u_cols u_null pkey fmap list_fmap andb]. fold (cell "id" r). rewrite E. by rewrite bool_decide_true by set_solver.
Qed.

Lemma ready_ids s : ready s → NoDup (str "id" <$> rows_of "deployments" s).
Proof.
  intros (_ & Hr & Ha & _)%ready_table. induction Ha as [|r rows Hx _ IH]; cbn; [constructor|].
  apply Forall_cons in Hr as [Hr Hrs]. constructor; [|by apply IH].
  intros (r' & E & Hin)%list_elem_of_fmap. rewrite Forall_forall in Hx, Hrs. specialize (Hx r' Hin (pkey "deployments") ltac:(left)).
  unfold same_key in Hx. rewrite (pkey_unique _ r Hr), (pkey_unique _ r' (Hrs r' Hin)), E in Hx.
  by rewrite bool_decide_true in Hx.
Qed.

(** The deployments by their identifiers. *)
Definition deployments_view s : gmap string Deployment :=
  list_to_map ((λ r, (str "id" r, deployment_of r)) <$> rows_of "deployments" s).

Lemma view_keys rows : ((λ r, (str "id" r, deployment_of r)) <$> rows).*1 = str "id" <$> rows.
Proof. by rewrite <- list_fmap_compose. Qed.

Lemma view_row s r : ready s → r ∈ rows_of "deployments" s → deployments_view s !! str "id" r = Some (deployment_of r).
Proof.
  intros Hs Hr. apply elem_of_list_to_map_1; [rewrite view_keys; by apply ready_ids|].
  apply list_elem_of_fmap. eauto.
Qed.

Lemma view_none s id : (∀ r, r ∈ rows_of "deployments" s → str "id" r ≠ id) → deployments_view s !! id = None.
Proof.
  intros H. apply not_elem_of_list_to_map_1. rewrite view_keys. intros (r & E & Hr)%list_elem_of_fmap. by apply (H r).
Qed.

(** ** Queries *)

Lemma select_rows m tys cond order args params p s : ready s → encode_all tys args = inr params →
  (∀ e r, en_params e = params → row_ok deployment_cols r → holds e cond r = inr (p r)) →
  ∃ vs rows, (pool_run m (mkPrepared tys (SSelect (mkSelect deployment_items "deployments" cond None order None))) args s).1
      = inr (mkReply vs (Z.of_nat (length vs)))
    ∧ Forall2 (λ row r, scan_deployment row = inr (deployment_of r)) vs rows
    ∧ rows ≡ₚ base.filter (λ r, p r = true) (rows_of "deployments" s).
Proof.
  intros Hs Ha Hp. rewrite (proj1 (run_law _ _ _ _)). unfold sql_run. cbn [pr_params pr_stmt]. rewrite Ha. cbn [ebind exec].
  destruct (ready_table s Hs) as (Ht & Hr & _ & _). rewrite Forall_forall in Hr.
  set (e := mkEnv params _ _ [] []). set (q := mkSelect deployment_items "deployments" cond None order None).
  destruct (found_rows e (mo_order m) q (pool_db s) _ p Ht eq_refl eq_refl) as (rows & -> & Hperm).
  { intros r Hin. by apply Hp; [|apply Hr]. }
  cbn [ebind t_rows] in *. destruct (read_deployments e rows) as (vs & E & Hf).
  { apply Forall_forall. intros r Hin. apply Hr. rewrite Hperm in Hin. by apply list_elem_of_filter in Hin as [_ ?]. }
  change (q_items q) with deployment_items. rewrite E. cbn [ebind]. eauto.
Qed.

Lemma traverse_read vs rows : Forall2 (λ row r, scan_deployment row = inr (deployment_of r)) vs rows →
  traverse (λ row, wrapped "" (scan_deployment row)) vs = inr (deployment_of <$> rows).
Proof. induction 1 as [|row r vs rows E _ IH]; [done|]. cbn [traverse]. unfold wrapped at 1. by rewrite E, IH. Qed.

Lemma holds_by_id e n id r : row_ok deployment_cols r → en_params e !! n = Some (VUuid id) →
  holds e (col_is "id" n) r = inr (bool_decide (str "id" r = id)).
Proof. intros Hr. apply (holds_id deployment_cols deployment_names); [exact Hr|reflexivity|]. left. Qed.

Lemma encode_uuid id : uuid_in id = Some id → encode TUuid (VText id) = inr (VUuid id).
Proof. intros H. cbn. by rewrite H. Qed.

Lemma get_spec id s : ready s → uuid_in id = Some id →
  pgd_GetByID id s = match deployments_view s !! id with Some d => inr d | None => inl ErrDeploymentNotFound end.
Proof.
  intros Hs Hu. unfold pgd_GetByID, query_row, QueryRow.
  destruct (select_rows quiet [TUuid] (col_is "id" 0) [] [VText id] [VUuid id] (λ r, bool_decide (str "id" r = id)) s Hs)
    as (vs & rows & E & Hf & Hp).
  { cbn [encode_all]. by rewrite (encode_uuid id Hu). }
  { intros e r He Hr. apply holds_by_id; [exact Hr|]. by rewrite He. }
  fold select_deployment in E. destruct (pool_run quiet select_deployment [VText id] s) as [res s1]. cbn [fst] in *. subst res.
  cbn [ebind rp_rows]. destruct (filter_one (str "id") id _ (ready_ids s Hs)) as [(r & Hin & Er & Ef)|[Ef Hno]]; rewrite Ef in Hp.
  - apply Permutation_singleton_r in Hp as ->. inversion Hf as [|row ? ? ? Hrow Hnil]; subst. cbn.
    rewrite Hrow. by rewrite (view_row s r Hs Hin).
  - apply Permutation_nil_r in Hp as ->. inversion Hf; subst. cbn. by rewrite (view_none s id Hno).
Qed.

Lemma list_spec o p s : ready s → p = "" ∨ (p ≠ "" ∧ uuid_in p = Some p ∧ text_ok p = true) →
  ∃ l, pgd_List o p s = inr l ∧ l ≡ₚ base.filter (d_of_project p) (map_to_list (deployments_view s)).*2.
Proof.
  intros Hs Hp. pose proof text_empty as Ht. unfold pgd_List, query_all.
  destruct (select_rows (in_order o) [TText]
     (EOr (EEq (EParam 0) (ELit (VText ""))) (EEq (ECol "project_id") (ECast (EParam 0) TUuid)))
     [("created_at", true)] [VText p] [VText p] (λ r, bool_decide (p = "" ∨ str "project_id" r = p)) s Hs)
    as (vs & rows & E & Hf & Hperm).
  { cbn [encode_all]. unfold encode. destruct Hp as [->|(_ & _ & Hp)]; [by rewrite Ht|by rewrite Hp]. }
  { intros e r He Hr. unfold holds. cbn [eval en_params]. rewrite He. cbn [lookup list_lookup ebind].
    destruct (decide (p = "")) as [->|Hne]; [by rewrite bool_decide_true by auto|].
    destruct Hp as [|(_ & Hu & _)]; [done|].
    rewrite (bool_decide_false (VText p = VText "")) by congruence. cbn [ebind en_row].
    destruct (uuid_cell deployment_cols deployment_names "project_id" r Hr eq_refl) as [Ec _].
    pose proof (proj1 (row_ok_cell deployment_cols r (ref_column "project_id" false "projects" Cascade)
      deployment_names Hr ltac:(right; left))) as Ek.
    change (c_name _) with "project_id" in Ek. rewrite Ek, Ec, (encode_uuid p Hu). cbn [ebind]. f_equal.
    apply bool_decide_ext. split; [intros H|intros [|H]; [done|]].
    - injection H as H. apply bool_decide_eq_true in H. injection H as H. by right.
    - f_equal. apply bool_decide_true. by rewrite H. }
  fold list_deployments in E. rewrite E. cbn [rp_rows]. rewrite (traverse_read _ _ Hf). eexists. split; [reflexivity|].
  rewrite Hperm. clear -Hs pg pgl laws. unfold deployments_view. rewrite map_to_list_to_map by (rewrite view_keys; by apply ready_ids).
  rewrite <- list_fmap_compose. change (snd ∘ _) with deployment_of. rewrite filter_image. match goal with |- ?a ≡ₚ ?b => assert (a = b) as ->; [|done] end. f_equal.
  apply list_filter_iff. intros r. by rewrite bool_decide_eq_true.
Qed.

(** ** Updates *)

Lemma rows_of_set name t rows db s' : pool_db s' = set_rows name t rows db → rows_of name s' = rows.
Proof. intros E. unfold rows_of. rewrite E. unfold set_rows. cbn. by rewrite lookup_insert_eq. Qed.

Lemma fk_same db r r' :
  (∀ col, col ∈ deployment_cols → c_ref col ≠ None → cell (c_name col) r' = cell (c_name col) r) →
  check_fk db deployment_cols r = inr tt → check_fk db deployment_cols r' = inr tt.
Proof.
  intros Hc. rewrite !check_fk_inr, !Forall_forall. intros H col Hin. specialize (H col Hin). specialize (Hc col Hin).
  unfold cell in Hc. unfold fk_ok in *. destruct (c_ref col) as [ref|]; [|done]. by rewrite Hc.
Qed.

Lemma view_updated (f : Deployment → Deployment) (g : list (string * Value) → list (string * Value)) id rows :
  (∀ r, r ∈ rows → str "id" (g r) = str "id" r ∧ deployment_of (g r) = f (deployment_of r)) →
  list_to_map ((λ r, (str "id" r, deployment_of r)) <$> ((λ r, if bool_decide (str "id" r = id) then g r else r) <$> rows))
  = alter f id (list_to_map ((λ r, (str "id" r, deployment_of r)) <$> rows) : gmap string Deployment).
Proof.
  induction rows as [|r rows IH]; intros H; [apply map_eq; intros k; cbn; rewrite lookup_alter, lookup_empty; by case_decide|]. rewrite !fmap_cons, !list_to_map_cons.
  rewrite IH by (intros x Hx; apply H; by right). destruct (H r ltac:(left)) as [H1 H2].
  destruct (decide (str "id" r = id)) as [E|E].
  - rewrite (bool_decide_true (str "id" r = id)) by done. rewrite H1, H2, E.
    apply map_eq. intros k. destruct (decide (id = k)) as [<-|Hk].
    + by rewrite lookup_insert_eq, lookup_alter_eq, lookup_insert_eq.
    + by rewrite lookup_insert_ne, !lookup_alter_ne, lookup_insert_ne.
  - rewrite (bool_decide_false (str "id" r = id)) by done. by rewrite alter_insert_ne.
Qed.

(** Assignments whose values are [vals] and have the types of their columns. *)
Definition assigns (e : Env) (sets : list (string * Expr)) (vals : list (string * Value)) : Prop :=
  ∀ row col, col ∈ deployment_cols →
    match assoc (c_name col) sets, assoc (c_name col) vals with
    | Some x, Some v =>
      eval (mkEnv (en_params e) (en_now e) (en_uuid e) row (en_excluded e)) x = inr v ∧ check_value col v = inr v
    | None, None => True
    | _, _ => False
    end.

Lemma assigns_typed e sets vals r : assigns e sets vals → row_ok deployment_cols r → row_ok deployment_cols (overwrite vals r).
Proof.
  intros He Hr. apply overwritten; [done|]. intros col v Hc Hv. specialize (He [] col Hc). rewrite Hv in He.
  destruct (assoc (c_name col) sets); [by destruct He|done].
Qed.

Lemma fk_overwrite db vals r : assoc "project_id" vals = None →
  check_fk db deployment_cols r = inr tt → check_fk db deployment_cols (overwrite vals r) = inr tt.
Proof.
  intros Hp. apply fk_same. intros col Hc Href. apply cell_kept.
  repeat (apply elem_of_cons in Hc as [->|Hc]; [first [exact Hp|by destruct Href]|]). by apply not_elem_of_nil in Hc.
Qed.

(** The rows after an update of one deployment. *)
Lemma deployment_rows_updated e db t sets n vals id rows :
  t = mkTable deployment_cols [pkey "deployments"] rows →
  Forall (row_ok deployment_cols) rows → ForallOrdPairs (apart [pkey "deployments"]) rows →
  Forall (λ r, check_fk db deployment_cols r = inr tt) rows →
  en_params e !! n = Some (VUuid id) → known deployment_cols sets.*1 = inr tt → assigns e sets vals →
  assoc "id" vals = None → assoc "project_id" vals = None →
  update_rows e db t sets (holds e (col_is "id" n)) [] rows
  = inr ((λ r, if bool_decide (str "id" r = id) then overwrite vals r else r) <$> rows,
         Z.of_nat (length (base.filter (λ r, bool_decide (str "id" r = id) = true) rows))).
Proof.
  intros -> Hr Hap Hfk Hn Hk He Hvi Hvp. rewrite Forall_forall in Hr, Hfk.
  apply (update_rows_spec _ _ _ _ _ (λ r, bool_decide (str "id" r = id)) (overwrite vals) []); [| |exact Hap].
  - intros r Hin. by apply holds_by_id; [apply Hr|].
  - intros r Hin _. split_and!.
    + apply (changed_overwrite _ deployment_cols sets r vals deployment_names (Hr r Hin) Hk). intros col Hc. by apply He.
    + intros u ->%list_elem_of_singleton. rewrite !pkey_unique; [|by apply Hr|by eapply assigns_typed, Hr].
      unfold str. by rewrite cell_kept.
    + apply fk_overwrite; [done|by apply Hfk].
Qed.

Lemma exec_runs m p args s :
  ∃ s', Exec m p args s = (let? reply := (sql_run m p args (pool_db s)).1 in inr (rp_affected reply), s')
    ∧ pool_db s' = (sql_run m p args (pool_db s)).2.
Proof.
  unfold Exec. destruct (run_law m p args s) as [E1 E2]. destruct (pool_run m p args s) as [r s']. cbn [fst snd] in *.
  exists s'. by rewrite E1, E2.
Qed.

(** An update of one deployment. *)
Lemma update_spec m tys sets n args params vals id f failed s :
  ready s → encode_all tys args = inr params → params !! n = Some (VUuid id) →
  known deployment_cols sets.*1 = inr tt → assoc "id" sets = None →
  (∀ uuid, assigns (mkEnv params (mo_now m) uuid [] []) sets vals) →
  assoc "id" vals = None → assoc "project_id" vals = None →
  (∀ r, row_ok deployment_cols r → deployment_of (overwrite vals r) = f (deployment_of r)) →
  let res := update_one failed ErrDeploymentNotFound
    (Exec m (mkPrepared tys (SUpdate "deployments" sets (col_is "id" n))) args s) in
  res.1 = (if deployments_view s !! id is Some _ then None else Some ErrDeploymentNotFound)
  ∧ ready res.2 ∧ grows (pool_db s) (pool_db res.2) ∧ deployments_view res.2 = alter f id (deployments_view s).
Proof.
  intros Hs Ha Hn Hk Hi He Hvi Hvp Hf res. set (p := mkPrepared tys _) in res.
  destruct (ready_table s Hs) as (Ht & Hr & Hap & Hfk). pose proof (ready_ids s Hs) as Hids.
  assert (sound s (Exec m p args s).2) as Hsound by (apply exec_sound; cbn; by apply bool_decide_true).
  destruct (Hsound (proj1 Hs) (proj2 Hs)) as (H1 & H2 & H3). clear Hsound.
  destruct (exec_runs m p args s) as (s' & E & Edb). subst res. rewrite E in *. cbn [snd update_one] in *.
  assert (∃ rows', rows' = ((λ r, if bool_decide (str "id" r = id) then overwrite vals r else r) <$> rows_of "deployments" s)
    ∧ sql_run m p args (pool_db s)
      = (inr (mkReply [] (Z.of_nat (length (base.filter (λ r, bool_decide (str "id" r = id) = true) (rows_of "deployments" s))))),
         set_rows "deployments" (mkTable deployment_cols [pkey "deployments"] (rows_of "deployments" s)) rows' (pool_db s)))
    as (rows' & Erows & Erun).
  { eexists. split; [reflexivity|]. unfold sql_run. cbn [p pr_params pr_stmt]. rewrite Ha. cbn [ebind exec].
    unfold table. rewrite Ht. cbn [ebind t_rows].
    rewrite (deployment_rows_updated (mkEnv params (mo_now m) (gen_random_uuid (db_uuids (pool_db s))) [] []) (pool_db s) _
      sets n vals id (rows_of "deployments" s) eq_refl Hr Hap Hfk Hn Hk (He _) Hvi Hvp). reflexivity. }
  rewrite Erun in Edb |- *. cbn [fst snd ebind rp_affected] in *. split_and!; [|split; [exact H1|exact H2]|exact H3|].
  - destruct (filter_one (str "id") id _ Hids) as [(r & Hin & <- & ->)|[-> Hno]].
    + by rewrite (view_row s r Hs Hin).
    + by rewrite (view_none s id Hno).
  - unfold deployments_view at 1. rewrite (rows_of_set _ _ _ _ _ Edb). subst rows'. apply view_updated. intros r Hin. rewrite Forall_forall in Hr. split; [|by apply Hf, Hr].
    unfold str. by rewrite cell_kept.
Qed.

Lemma cell_assigned vals c v r : row_ok deployment_cols r → c ∈ names deployment_cols → assoc c vals = Some v →
  cell c (overwrite vals r) = v.
Proof.
  intros Hr (col & -> & Hc)%list_elem_of_fmap Hv. destruct (row_ok_assoc _ r col deployment_names Hr Hc) as (w & E & _).
  by rewrite cell_overwrite, E, Hv.
Qed.

Ltac each_column Hc :=
  repeat (apply elem_of_cons in Hc as [->|Hc]; [|]); [..|by apply not_elem_of_nil in Hc].

Ltac cells Hr :=
  repeat match goal with
  | |- context [cell ?c (overwrite ?vals ?r)] =>
    first [rewrite (cell_kept vals c r) by reflexivity
          |erewrite (cell_assigned vals c _ r Hr) by (by_decision || reflexivity)]
  end.

Lemma micro_stamp now : ((micro now) `mod` 1000 =? 0) = true.
Proof. unfold micro. apply Z.eqb_eq. Z.div_mod_to_equations. lia. Qed.

Definition with_status (now : Time) (status : DeploymentStatus) (stage : string) d : Deployment :=
  d <| d_Status := status |> <| d_Stage := stage |> <| d_UpdatedAt := micro now |>.

Definition status_ok (status : DeploymentStatus) : Prop :=
  text_ok (status_string status) = true ∧ parse_status (status_string status) = status.

Lemma status_spec now id status stage s :
  ready s → uuid_in id = Some id → status_ok status → text_ok stage = true →
  let res := pgd_UpdateStatus now id status stage s in
  res.1 = (if deployments_view s !! id is Some _ then None else Some ErrDeploymentNotFound)
  ∧ ready res.2 ∧ grows (pool_db s) (pool_db res.2) ∧ deployments_view res.2 = alter (with_status now status stage) id (deployments_view s).
Proof.
  intros Hs Hu [Hst Hp] Hg. unfold pgd_UpdateStatus, update_deployment_status.
  apply (update_spec (at_ now) _ _ 2 _ [VText (status_string status); VText stage; VUuid id]
    [("status", VText (status_string status)); ("stage", VText stage); ("updated_at", VTime (micro now))]); try done.
  - cbn [encode_all encode]. by rewrite Hst, Hg, Hu.
  - intros uuid row col Hc. each_column Hc; try exact I; (split; [reflexivity|]); cbn -[Z.modulo]; by rewrite ?Hst, ?Hg, ?micro_stamp.
  - intros r Hr. unfold deployment_of, str.
    cells Hr. cbn. by rewrite Hp.
Qed.

Definition with_image (now : Time) (image digest : string) d : Deployment :=
  d <| d_Image := image |> <| d_ImageDigest := digest |> <| d_UpdatedAt := micro now |>.

Lemma image_spec now id image digest s :
  ready s → uuid_in id = Some id → text_ok image = true → text_ok digest = true →
  let res := pgd_UpdateImage now id image digest s in
  res.1 = (if deployments_view s !! id is Some _ then None else Some ErrDeploymentNotFound)
  ∧ ready res.2 ∧ grows (pool_db s) (pool_db res.2) ∧ deployments_view res.2 = alter (with_image now image digest) id (deployments_view s).
Proof.
  intros Hs Hu Hi Hd. unfold pgd_UpdateImage, update_deployment_image.
  apply (update_spec (at_ now) _ _ 2 _ [VText image; VText digest; VUuid id]
    [("image", VText image); ("image_digest", VText digest); ("updated_at", VTime (micro now))]); try done.
  - cbn [encode_all encode]. by rewrite Hi, Hd, Hu.
  - intros uuid row col Hc. each_column Hc; try exact I; (split; [reflexivity|]); cbn -[Z.modulo]; by rewrite ?Hi, ?Hd, ?micro_stamp.
  - intros r Hr. unfold deployment_of, str. by cells Hr.
Qed.

Definition with_scale (now : Time) (n : Z) d : Deployment := d <| d_InstanceCount := n |> <| d_UpdatedAt := micro now |>.

Lemma scale_spec now id n s :
  ready s → uuid_in id = Some id → int4 n = true →
  let res := pgd_UpdateScale now id n s in
  res.1 = (if deployments_view s !! id is Some _ then None else Some ErrDeploymentNotFound)
  ∧ ready res.2 ∧ grows (pool_db s) (pool_db res.2) ∧ deployments_view res.2 = alter (with_scale now n) id (deployments_view s).
Proof.
  intros Hs Hu Hn. unfold pgd_UpdateScale, update_deployment_scale.
  apply (update_spec (at_ now) _ _ 1 _ [VInt n; VUuid id]
    [("instance_count", VInt n); ("desired_replicas", VInt n); ("updated_at", VTime (micro now))]); try done.
  - cbn [encode_all encode]. by rewrite Hn, Hu.
  - intros uuid row col Hc. each_column Hc; try exact I; (split; [reflexivity|]); cbn -[Z.modulo int4]; by rewrite ?Hn, ?micro_stamp.
  - intros r Hr. unfold deployment_of, str. by cells Hr.
Qed.
(** ** New deployments *)

(** A map that survives the server's JSON type. *)
Definition stores_map (m : gmap string string) : Prop :=
  ∃ j, jsonb_in (json_text (json_map m)) = Some j ∧ j ≠ "" ∧ unmarshal_map j = m.

Record valid_deployment d : Prop := {
  vd_id : uuid_in (d_ID d) = Some (d_ID d);
  vd_project : uuid_in (d_ProjectID d) = Some (d_ProjectID d);
  vd_texts : forallb text_ok [d_Revision d; d_Image d; d_ImageDigest d; d_DesiredState d; d_Stage d] = true;
  vd_status : status_ok (d_Status d);
  vd_count : int4 (d_InstanceCount d) = true;
  vd_env : stores_map (d_Env d)
}.

(** What is read back of a new deployment. *)
Definition stored (now : Time) d : Deployment :=
  d <| d_DesiredReplicas := 0 |> <| d_Labels := ∅ |> <| d_CreatedAt := micro now |> <| d_UpdatedAt := micro now |>.

Definition deployment_record (now : Time) d (j : string) : list (string * Value) :=
  [("id", VUuid (d_ID d)); ("project_id", VUuid (d_ProjectID d)); ("revision", VText (d_Revision d));
   ("image", VText (d_Image d)); ("image_digest", VText (d_ImageDigest d)); ("desired_state", VText (d_DesiredState d));
   ("status", VText (status_string (d_Status d))); ("stage", VText (d_Stage d));
   ("instance_count", VInt (d_InstanceCount d)); ("env", VJson j); ("created_at", VTime (micro now));
   ("updated_at", VTime (micro now)); ("attempts", VInt 0); ("last_error", VText ""); ("building_at", VNull);
   ("scheduling_at", VNull); ("started_at", VNull); ("finished_at", VNull); ("desired_replicas", VInt 1)].

Definition deployment_params d (j : string) : list Value :=
  [VUuid (d_ID d); VUuid (d_ProjectID d); VText (d_Revision d); VText (d_Image d); VText (d_ImageDigest d);
   VText (d_DesiredState d); VText (status_string (d_Status d)); VText (d_Stage d); VInt (d_InstanceCount d); VJson j].

Lemma new_deployment_row e now d j : valid_deployment d → jsonb_in j = Some j →
  en_params e = deployment_params d j → en_now e = now →
  ∃ vs, items e (match pr_stmt insert_deployment with SInsert _ vals _ _ => vals.*2 | _ => [] end) [] = inr vs
    ∧ new_row e deployment_cols (zip (match pr_stmt insert_deployment with SInsert _ vals _ _ => vals.*1 | _ => [] end) vs)
      = inr (deployment_record now d j).
Proof.
  intros [Hi Hp Ht [Hst _] Hc _] Hj He Hn. exists (deployment_params d j ++ [VTime (micro now); VTime (micro now)]).
  cbn [forallb] in Ht. rewrite !andb_true_iff in Ht. destruct Ht as (T1 & T2 & T3 & T4 & T5 & _).
  split; [unfold items; rewrite He, Hn; reflexivity|]. unfold new_row.
  assert (∀ t, text_ok t = true → ∀ n dflt ref, check_value (mkColumn n TText false dflt ref) (VText t) = inr (VText t)) as Ct
    by (intros t H n dflt ref; cbn; by rewrite H).
  assert (∀ u, uuid_in u = Some u → ∀ n dflt ref, check_value (mkColumn n TUuid false dflt ref) (VUuid u) = inr (VUuid u)) as Cu
    by (intros u H n dflt ref; cbn; by rewrite bool_decide_true).
  assert (∀ n dflt ref, check_value (mkColumn n TTime false dflt ref) (VTime (micro now)) = inr (VTime (micro now))) as Cm
    by (intros n dflt ref; cbn -[Z.modulo]; by rewrite micro_stamp).
  assert (∀ z, int4 z = true → ∀ n dflt ref, check_value (mkColumn n TInt false dflt ref) (VInt z) = inr (VInt z)) as Ci
    by (intros z H n dflt ref; cbn -[int4]; by rewrite H).
  assert (∀ n dflt ref, check_value (mkColumn n TJson false dflt ref) (VJson j) = inr (VJson j)) as Cj
    by (intros n dflt ref; cbn; by rewrite bool_decide_true).
  set (kn := known _ _). assert (kn = inr tt) as -> by (vm_compute; reflexivity). cbn [ebind].
  unfold deployment_cols, id_column, ref_column, text_column, int_column, json_column, stamp_column, time_column.
  unfold deployment_record. apply traverse_Forall2.
  repeat apply Forall2_cons_2; try apply Forall2_nil_2; cbn -[check_value micro];
    rewrite ?(Ct _ T1), ?(Ct _ T2), ?(Ct _ T3), ?(Ct _ T4), ?(Ct _ T5), ?(Ct _ Hst), ?(Ct _ text_empty), ?(Cu _ Hi), ?(Cu _ Hp), ?Cm, ?Cj,
      ?(Ci _ Hc); reflexivity.
Qed.

(** The identifiers of the projects. *)
Definition project_ids s : list Value := match db_tables (pool_db s) !! "projects" with Some t => ids t | None => [] end.

Definition deployment_args d : list Value :=
  [VText (d_ID d); VText (d_ProjectID d); VText (d_Revision d); VText (d_Image d); VText (d_ImageDigest d);
   VText (d_DesiredState d); VText (status_string (d_Status d)); VText (d_Stage d); VInt (d_InstanceCount d);
   marshal_map (d_Env d)].

Lemma encode_deployment d j : valid_deployment d → jsonb_in (json_text (json_map (d_Env d))) = Some j →
  encode_all (pr_params insert_deployment) (deployment_args d) = inr (deployment_params d j).
Proof.
  intros [Hi Hp Ht [Hst _] Hc _] Hj. cbn [forallb] in Ht. rewrite !andb_true_iff in Ht.
  destruct Ht as (T1 & T2 & T3 & T4 & T5 & _). unfold deployment_args, marshal_map.
  cbn [pr_params insert_deployment encode_all encode]. by rewrite Hi, Hp, T1, T2, T3, T4, T5, Hst, Hc, Hj.
Qed.

Lemma deployment_row_ok now d j : valid_deployment d → jsonb_in j = Some j → row_ok deployment_cols (deployment_record now d j).
Proof.
  intros Hv Hj. destruct (new_deployment_row (mkEnv (deployment_params d j) now "" [] []) now d j Hv Hj eq_refl eq_refl)
    as (vs & _ & E). exact (new_row_ok _ _ _ _ E).
Qed.

Lemma check_new_deployment now d j s db :
  ready s → valid_deployment d → jsonb_in j = Some j → db_tables db = db_tables (pool_db s) →
  VUuid (d_ProjectID d) ∈ project_ids s → (∀ r, r ∈ rows_of "deployments" s → str "id" r ≠ d_ID d) →
  check_row db (mkTable deployment_cols [pkey "deployments"] (rows_of "deployments" s)) (rows_of "deployments" s)
    (deployment_record now d j) = inr tt.
Proof.
  intros Hs Hv Hj Hdb Hpr Hfresh. destruct (ready_table s Hs) as (_ & Hr & _). rewrite Forall_forall in Hr.
  apply check_row_inr. split.
  - apply Forall_forall. intros r Hin u ->%list_elem_of_singleton. unfold same_key.
    rewrite (pkey_unique _ _ (deployment_row_ok now d j Hv Hj)), (pkey_unique _ r (Hr r Hin)).
    apply bool_decide_eq_false. intros E. injection E as E. by apply (Hfresh r Hin).
  - apply check_fk_inr. apply Forall_forall. intros col Hcol. unfold fk_ok. each_column Hcol; try reflexivity.
    cbn [c_ref ref_column c_name]. change (default VNull (assoc "project_id" (deployment_record now d j))) with (VUuid (d_ProjectID d)).
    cbv match. unfold project_ids in Hpr. rewrite Hdb.
    destruct (db_tables (pool_db s) !! "projects"); [by apply bool_decide_true|by apply not_elem_of_nil in Hpr].
Qed.

Lemma insert_runs now d j s :
  ready s → valid_deployment d → jsonb_in (json_text (json_map (d_Env d))) = Some j → VUuid (d_ProjectID d) ∈ project_ids s →
  (∀ r, r ∈ rows_of "deployments" s → str "id" r ≠ d_ID d) →
  sql_run (at_ now) insert_deployment (deployment_args d) (pool_db s)
  = (inr (mkReply [[VTime (micro now); VTime (micro now)]] 1),
     set_rows "deployments" (mkTable deployment_cols [pkey "deployments"] (rows_of "deployments" s))
       (rows_of "deployments" s ++ [deployment_record now d j]) ((pool_db s) <| db_uuids ::= S |>)).
Proof.
  intros Hs Hv Ej Hpr Hfresh. assert (jsonb_in j = Some j) as Hj by by eapply jsonb_canonical.
  destruct (ready_table s Hs) as (Ht & _). unfold sql_run. rewrite (encode_deployment d j Hv Ej). cbn [ebind].
  unfold insert_deployment at 1. cbn [pr_stmt exec]. unfold table. rewrite Ht. cbn [ebind].
  set (e := mkEnv (deployment_params d j) _ _ [] []).
  destruct (new_deployment_row e now d j Hv Hj eq_refl eq_refl) as (vs & E1 & E2).
  unfold insert_deployment in E1, E2. cbn [pr_stmt] in E1, E2. rewrite E1. cbn [ebind t_cols]. rewrite E2. cbn [ebind].
  unfold put_row. cbn [conflict_of t_rows].
  rewrite (check_new_deployment now d j s ((pool_db s) <| db_uuids ::= S |>)) by done. reflexivity.
Qed.

Lemma create_spec now d s :
  ready s → valid_deployment d → VUuid (d_ProjectID d) ∈ project_ids s → deployments_view s !! d_ID d = None →
  let res := pgd_Create now d s in
  res.1 = (None, d <| d_CreatedAt := micro now |> <| d_UpdatedAt := micro now |>)
  ∧ ready res.2 ∧ grows (pool_db s) (pool_db res.2) ∧ deployments_view res.2 = <[d_ID d := stored now d]> (deployments_view s).
Proof.
  intros Hs Hv Hpr Hno res. pose proof (vd_env d Hv) as (j & Ej & Hj & Hm).
  assert (∀ r, r ∈ rows_of "deployments" s → str "id" r ≠ d_ID d) as Hfresh.
  { intros r Hin E. pose proof (view_row s r Hs Hin) as Hview. rewrite E, Hno in Hview. done. }
  pose proof (insert_runs now d j s Hs Hv Ej Hpr Hfresh) as Erun.
  assert (sound s res.2) as Hsound by (apply insert_sound; [done|]; by intros [|[]] ?).
  destruct (Hsound (proj1 Hs) (proj2 Hs)) as (H1 & H2 & H3). clear Hsound.
  assert (res.1 = (None, d <| d_CreatedAt := micro now |> <| d_UpdatedAt := micro now |>)
    ∧ pool_db res.2 = (sql_run (at_ now) insert_deployment (deployment_args d) (pool_db s)).2) as [E1 E2].
  { unfold res, pgd_Create, QueryRow. fold (deployment_args d).
    destruct (run_law (at_ now) insert_deployment (deployment_args d) s) as [R1 R2].
    destruct (pool_run (at_ now) insert_deployment (deployment_args d) s) as [r0 s']. cbn [fst snd] in R1, R2.
    rewrite Erun in R1, R2 |- *. cbn [fst snd] in *. subst r0. cbn. split; [reflexivity|exact R2]. }
  split_and!; [exact E1|split; [exact H1|exact H2]|exact H3|]. rewrite Erun in E2.
  unfold deployments_view at 1. rewrite (rows_of_set _ _ _ _ _ E2), fmap_app. cbn [fmap list_fmap]. change (str "id" (deployment_record now d j)) with (d_ID d). rewrite list_to_map_snoc.
  - f_equal. unfold deployment_of, stored. cbn. rewrite (proj2 (vd_status d Hv)), Hm. by rewrite decide_False.
  - rewrite view_keys. intros (r & E & Hin)%list_elem_of_fmap. by apply (Hfresh r Hin).
Qed.
End deployments.

(** ** The database answers like the memory *)

Inductive DeploymentOp :=
| DCreate (d : Deployment) | DStatus (id : string) (status : DeploymentStatus) (stage : string)
| DImage (id image digest : string) | DScale (id : string) (replicas : Z) | DGet (id : string) | DList (projectID : string).

Inductive DeploymentAnswer := ADone (err : option error) | AGot (r : error + Deployment) | AListed (r : error + list Deployment).

(** An operation on any repository. *)
Definition deployment_op {DR} `{!DeploymentRepository DR} (now : Time) (o : Order) (op : DeploymentOp) (r : DR) :
    DeploymentAnswer * DR :=
  match op with
  | DCreate d => let '(err, _, r) := dr_Create now d r in (ADone err, r)
  | DStatus id status stage => let '(err, r) := dr_UpdateStatus now id status stage r in (ADone err, r)
  | DImage id image digest => let '(err, r) := dr_UpdateImage now id image digest r in (ADone err, r)
  | DScale id n => let '(err, r) := dr_UpdateScale now id n r in (ADone err, r)
  | DGet id => (AGot (dr_GetByID id r), r)
  | DList p => (AListed (dr_List o p r), r)
  end.

(** A run, each operation with its clock and its order. *)
Fixpoint deployment_run {DR} `{!DeploymentRepository DR} (ops : list (Time * Order * DeploymentOp)) (r : DR) :
    list DeploymentAnswer * DR :=
  match ops with
  | [] => ([], r)
  | (now, o, op) :: ops =>
    let '(a, r) := deployment_op now o op r in
    let '(l, r) := deployment_run ops r in (a :: l, r)
  end.

(** What both repositories keep of a deployment. *)
Definition kept (d : Deployment) : Deployment :=
  d <| d_DesiredReplicas := 0 |> <| d_Labels := ∅ |> <| d_CreatedAt := 0 |> <| d_UpdatedAt := 0 |>.

Definition same_answer (a b : DeploymentAnswer) : Prop :=
  match a, b with
  | ADone err, ADone err' => err = err'
  | AGot (inr d), AGot (inr d') => kept d = kept d'
  | AGot (inl err), AGot (inl err') => err = err'
  | AListed (inr l), AListed (inr l') => kept <$> l ≡ₚ kept <$> l'
  | _, _ => False
  end.

Section simulation.
Context {pg : PgTypes} {pgl : PgTypesLaws} {tx : SqlTexts} {uni : Unicode} {jt : JsonText} {ft : FloatText}.
Context {DB : Type} `{!Pool DB} {laws : PoolLaws DB}.
Implicit Types (s : DB) (d : Deployment) (m : gmap string Deployment).

(** What the code passes: identifiers as the server writes them, texts and
    numbers that it takes, a new identifier and a known project for a new
    deployment, and a stage that is not empty. *)
Definition op_ok (projects : list string) m (op : DeploymentOp) : Prop :=
  match op with
  | DCreate d => valid_deployment d ∧ d_ProjectID d ∈ projects ∧ m !! d_ID d = None
  | DStatus id status stage => uuid_in id = Some id ∧ status_ok status ∧ text_ok stage = true ∧ stage ≠ ""
  | DImage id image digest => uuid_in id = Some id ∧ text_ok image = true ∧ text_ok digest = true
  | DScale id n => uuid_in id = Some id ∧ int4 n = true
  | DGet id => uuid_in id = Some id
  | DList p => p = "" ∨ (p ≠ "" ∧ uuid_in p = Some p ∧ text_ok p = true)
  end.

Fixpoint ops_ok (projects : list string) m (ops : list (Time * Order * DeploymentOp)) : Prop :=
  match ops with
  | [] => True
  | (now, o, op) :: ops => op_ok projects m op ∧ ops_ok projects (deployment_op now o op m).2 ops
  end.

(** The database and the memory hold the same deployments. *)
Record mirrors (projects : list string) s m : Prop := {
  mi_ready : ready s;
  mi_projects : ∀ p, p ∈ projects → VUuid p ∈ project_ids s;
  mi_same : kept <$> deployments_view s = kept <$> m
}.

Lemma mirrors_lookup projects s m id : mirrors projects s m → kept <$> deployments_view s !! id = kept <$> m !! id.
Proof. intros [_ _ H]. by rewrite <- !lookup_fmap, H. Qed.

Lemma mirrors_step projects s s' m m' : mirrors projects s m → ready s' → grows (pool_db s) (pool_db s') →
  kept <$> deployments_view s' = kept <$> m' → mirrors projects s' m'.
Proof.
  intros [_ Hp _] Hr [_ Hg] Hm. split; [done| |done]. intros p Hin. specialize (Hp p Hin). unfold project_ids in *.
  destruct (db_tables (pool_db s) !! "projects") as [t|] eqn:E; [|by apply not_elem_of_nil in Hp].
  destruct (Hg _ _ E) as (t' & -> & Hs). by apply Hs.
Qed.

(** An update that both repositories make alike. *)
Lemma mirrors_update projects s s' m id (f g : Deployment → Deployment) (err : option error) :
  mirrors projects s m → (∀ d d', kept d = kept d' → kept (f d) = kept (g d')) →
  err = (if deployments_view s !! id is Some _ then None else Some ErrDeploymentNotFound) → ready s' →
  grows (pool_db s) (pool_db s') → deployments_view s' = alter f id (deployments_view s) →
  err = (mdr_update g id m).1 ∧ mirrors projects s' (mdr_update g id m).2.
Proof.
  intros Hm Hfg He Hr Hg Hv. pose proof (mirrors_lookup projects s m id Hm) as Hl. split.
  - rewrite He. unfold mdr_update. by destruct (deployments_view s !! id), (m !! id).
  - apply (mirrors_step projects s s' m); [done..|]. rewrite Hv, mdr_update_alter. apply map_eq. intros k. rewrite !lookup_fmap, !lookup_alter.
    case_decide as E; [subst k|by eapply mirrors_lookup].
    destruct (deployments_view s !! id) as [d|], (m !! id) as [d'|]; cbn [fmap option_fmap option_map] in *; try done.
    f_equal. apply Hfg. by apply (inj Some).
Qed.

(** The kept parts of the deployments of a project. *)
Lemma kept_values p (m : gmap string Deployment) :
  kept <$> base.filter (d_of_project p) (map_to_list m).*2 = base.filter (d_of_project p) (map_to_list (kept <$> m)).*2.
Proof.
  rewrite map_to_list_fmap, <- list_fmap_compose.
  assert (snd ∘ prod_map id kept = kept ∘ (@snd string Deployment)) as -> by done.
  rewrite (list_fmap_compose _ kept), (filter_image kept (d_of_project p)). f_equal.
Qed.

Lemma op_simulated projects s m now o op : mirrors projects s m → op_ok projects m op →
  same_answer (deployment_op now o op s).1 (deployment_op now o op m).1
  ∧ mirrors projects (deployment_op now o op s).2 (deployment_op now o op m).2.
Proof.
  intros Hm Hop. pose proof Hm as [Hr Hp Hsame]. destruct op as [d|id st stage|id image digest|id n|id|p]; cbn [deployment_op op_ok] in *.
  - destruct Hop as (Hv & Hin & Hno). pose proof (mirrors_lookup projects s m (d_ID d) Hm) as Hl. rewrite Hno in Hl.
    assert (deployments_view s !! d_ID d = None) as Hno' by by destruct (deployments_view s !! d_ID d).
    destruct (create_spec now d s Hr Hv (Hp _ Hin) Hno') as (E1 & E2 & E3 & E4). cbn [dr_Create postgres_deployment_repository].
    destruct (pgd_Create now d s) as [[err d'] s']. cbn [fst snd] in *. injection E1 as -> ->. split; [done|].
    apply (mirrors_step projects s s' m); [done..|]. rewrite E4.
    change (_ <$> snd _) with (kept <$> <[d_ID (d_stamp now d) := d_stamp now d]> m).
    rewrite (proj1 (d_stamp_frame now d)), !fmap_insert, Hsame. f_equal. unfold d_stamp. by destruct (IsZero _).
  - destruct Hop as (Hu & Hst & Hsg & Hne). destruct (status_spec now id st stage s Hr Hu Hst Hsg) as (E1 & E2 & E3 & E4).
    cbn [dr_UpdateStatus postgres_deployment_repository]. destruct (pgd_UpdateStatus now id st stage s) as [err s'].
    cbn [fst snd] in *. edestruct (mirrors_update projects s s' m id (with_status now st stage) (d_set_status now st stage)) as [H1 H2]; [done| |done..|].
    { intros d d' E. unfold d_set_status. rewrite decide_False by done. unfold kept in *. destruct d, d'. cbn in *. by simplify_eq. }
    cbn. unfold mdr_UpdateStatus. by destruct (mdr_update _ id m).
  - destruct Hop as (Hu & Hi & Hd). destruct (image_spec now id image digest s Hr Hu Hi Hd) as (E1 & E2 & E3 & E4).
    cbn [dr_UpdateImage postgres_deployment_repository]. destruct (pgd_UpdateImage now id image digest s) as [err s'].
    cbn [fst snd] in *. edestruct (mirrors_update projects s s' m id (with_image now image digest) (d_set_image now image digest)) as [H1 H2]; [done| |done..|].
    { intros d d' E. unfold kept in *. destruct d, d'. cbn in *. by simplify_eq. }
    cbn. unfold mdr_UpdateImage. by destruct (mdr_update _ id m).
  - destruct Hop as (Hu & Hn). destruct (scale_spec now id n s Hr Hu Hn) as (E1 & E2 & E3 & E4).
    cbn [dr_UpdateScale postgres_deployment_repository]. destruct (pgd_UpdateScale now id n s) as [err s'].
    cbn [fst snd] in *. edestruct (mirrors_update projects s s' m id (with_scale now n) (d_set_scale now n)) as [H1 H2]; [done| |done..|].
    { intros d d' E. unfold kept in *. destruct d, d'. cbn in *. by simplify_eq. }
    cbn. unfold mdr_UpdateScale. by destruct (mdr_update _ id m).
  - cbn [fst snd dr_GetByID postgres_deployment_repository memory_deployment_repository]. split; [|done].
    rewrite (get_spec id s Hr Hop). unfold mdr_GetByID. pose proof (mirrors_lookup projects s m id Hm) as Hl.
    destruct (deployments_view s !! id), (m !! id); cbn [fmap option_fmap option_map] in *; try done. by apply (inj Some) in Hl.
  - cbn [fst snd dr_List postgres_deployment_repository memory_deployment_repository]. split; [|done].
    destruct (list_spec o p s Hr Hop) as (l & -> & Hl). cbn. rewrite Hl. unfold map_values.
    by rewrite permute_perm, !kept_values, Hsame.
Qed.

(** C18: The Postgres repository of deployments simulates the in-memory one:
    from a migrated database that holds the same deployments as the memory,
    every sequence of creations, updates, reads and lists, at any times and in
    any orders of rows, gets the same answers from both (the same errors, the
    same deployments in lists up to order, apart from labels, wanted replicas
    and stamps, which the tables do not keep), and at the end both hold the same
    deployments again; for identifiers that are UUIDs, texts and numbers the
    columns take, new identifiers of known projects and stages that are not
    empty. *)
Theorem postgres_answers_like_memory projects ops s m :
  mirrors projects s m → ops_ok projects m ops →
  Forall2 same_answer (deployment_run ops s).1 (deployment_run ops m).1
  ∧ mirrors projects (deployment_run ops s).2 (deployment_run ops m).2.
Proof.
  revert s m. induction ops as [|[[now o] op] ops IH]; intros s m Hm; cbn [deployment_run ops_ok]; [split; [constructor|exact Hm]|].
  intros [Hop Hops]. destruct (op_simulated projects s m now o op Hm Hop) as [Ha Hm'].
  destruct (deployment_op now o op s) as [a s'], (deployment_op now o op m) as [b m']. cbn [fst snd] in *.
  specialize (IH s' m' Hm' Hops). destruct (deployment_run ops s'), (deployment_run ops m'). cbn [fst snd] in *.
  destruct IH as [H1 H2]. split; [by constructor|exact H2].
Qed.

End simulation.

(** ** On a concrete database *)

#[local] Existing Instance demo_pg.
#[local] Existing Instance demo_pg_laws.
#[local] Existing Instance demo_texts.
#[local] Existing Instance unicode_none.
#[local] Existing Instance json_ascii.
#[local] Instance no_floats : FloatText := {| ft_g := λ _, ""; ft_json := λ _, ""; ft_parse := λ _, None |}.

Definition shop : Project := mkProject "" "shop" "" "" "main" "app" "" 0 0 0 0 0.

(** One project, whose identifier the database has drawn. *)
Definition with_shop : Database := (pgp_Create (5 * Second) shop migrated).2.

Definition first_deployment : Deployment :=
  mkDeployment "u-d1" "u-0" "v1" "img:1" "" "RUNNING" StatusQueued "QUEUED" 2 2
    {["MODE" := "demo"]} {["zone" := "a"]} 0 0.

Definition demo_run : list (Time * Order * DeploymentOp) :=
  [(7, order_id, DCreate first_deployment); (8, order_id, DStatus "u-d1" StatusRunning "RUNNING");
   (9, order_id, DScale "u-d1" 3); (10, order_rev, DList "u-0"); (11, order_id, DImage "u-d2" "img:2" "sha256:0")].

#[local] Instance clear : Cipher := {| gcm_Seal _ nonce pt := pt; gcm_Open _ _ ct := inr ct; sha256_sum s := s |}.

Lemma migrated_ready : ready migrated.
Proof.
  destruct (migrate_empty (laws := local_laws) 0 no_tables eq_refl) as (s' & E & H). unfold migrated. rewrite E. cbn [snd].
  split; [exact (schema_strip s' H)|exact (schema_rows s' H)].
Qed.

Lemma with_shop_ready : ready with_shop.
Proof.
  destruct migrated_ready as [H1 H2].
  destruct (storage_op_sound (ci := clear) (K := StaticKeyProvider) (OpProject (5 * Second) shop) migrated H1 H2) as (H3 & H4 & _).
  split; [exact H3|exact H4].
Qed.

Lemma demo_mirrors : mirrors ["u-0"] with_shop ∅.
Proof.
  split; [exact with_shop_ready| |vm_compute; reflexivity].
  intros p ->%list_elem_of_singleton. vm_compute. left.
Qed.

Lemma first_valid : valid_deployment first_deployment.
Proof.
  split; [vm_compute; reflexivity..|split; vm_compute; reflexivity|vm_compute; reflexivity|].
  exists (json_text (json_map (d_Env first_deployment))). split_and!; [reflexivity|discriminate|vm_compute; reflexivity].
Qed.

Lemma demo_run_ok : ops_ok ["u-0"] ∅ demo_run.
Proof.
  cbn [ops_ok demo_run op_ok].
  split_and!; try exact first_valid; try (vm_compute; reflexivity); try discriminate; try exact I.
  - left.
  - split; vm_compute; reflexivity.
  - right. split_and!; [discriminate|reflexivity|reflexivity].
Qed.

Lemma postgres_answers_like_memory_witness :
  Forall2 same_answer (deployment_run demo_run with_shop).1 (deployment_run demo_run (∅ : gmap string Deployment)).1.
Proof.
  exact (proj1 (postgres_answers_like_memory ["u-0"] demo_run with_shop ∅ demo_mirrors demo_run_ok)).
Defined.


(** ** What the tables do not keep, and what they refuse *)

(** Labels and the number of wanted replicas are never written. *)
Example lost_columns :
  let '(err, d, s) := pgd_Create 7 first_deployment with_shop in
  err = None ∧ d_Labels d = {["zone" := "a"]} ∧ d_DesiredReplicas d = 2
  ∧ match pgd_GetByID "u-d1" s with inr d' => d_Labels d' = ∅ ∧ d_DesiredReplicas d' = 0 | inl _ => False end.
Proof. vm_compute. split_and!; reflexivity. Qed.

(** A second project of the name is not inserted, and the error does not say so. *)
Example duplicate_project_has_no_row :
  (pgp_Create 9 shop with_shop).1.1 = Some "failed to create project: no rows in result set".
Proof. vm_compute. reflexivity. Qed.

(** The identifier, the branch and the directory of the caller are dropped. *)
Example project_chooses_no_id :
  let p := mkProject "u-mine" "site" "" "" "release" "web" "" 0 0 0 0 0 in
  let '(err, _, s) := pgp_Create 9 p migrated in
  err = None
  ∧ match pgp_GetByName "site" s with
    | inr p' => p_ID p' = "u-0" ∧ p_DefaultBranch p' = "" ∧ p_RootDir p' = ""
    | inl _ => False
    end.
Proof. vm_compute. split_and!; reflexivity. Qed.

(** A name where an identifier is expected is an error of its own. *)
Example names_are_no_identifiers :
  pgd_GetByID "api" with_shop = inl ("scan deployment: invalid input " +:+ quote "api")
  ∧ pgp_GetByID "shop" with_shop = inl ("scan project: invalid input " +:+ quote "shop").
Proof. vm_compute. split; reflexivity. Qed.

(** The list of a name fails at its first row. *)
Example list_of_a_name_fails :
  pgd_List order_id "shop" (pgd_Create 7 first_deployment with_shop).2
  = inl ("invalid input " +:+ quote "shop").
Proof. vm_compute. reflexivity. Qed.

Definition web_worker : Worker :=
  mkWorker "u-w" "w-1" "host" "10.0.0.1" 7070 4 ∅ StateReady HealthHealthy true 3 (Some 5) 2 0 false 0 0.

(** The port, the workloads and the counters of beats are lost, and the worker
    gets another identifier; the port is what its address is made of. *)
Example upsert_forgets_port :
  let '(err, w, s) := pgw_Upsert 9 web_worker migrated in
  err = None ∧ w_ID w = "u-0"
  ∧ match pgw_GetByWorkerKey "w-1" s with
    | inr w' => w_GRPCPort w' = 0 ∧ w_ActiveWorkloads w' = 0 ∧ w_ConsecutiveBeats w' = 0
    | inl _ => False
    end.
Proof. vm_compute. split_and!; reflexivity. Qed.

Definition shop_deployed : Database := (pgd_Create 7 first_deployment with_shop).2.

(** An update without a stage empties the column. *)
Example empty_stage_is_written :
  match pgd_GetByID "u-d1" (pgd_UpdateStatus 8 "u-d1" StatusRunning "" shop_deployed).2 with
  | inr d => d_Stage d = ""
  | inl _ => False
  end.
Proof. vm_compute. reflexivity. Qed.

(** The container of an instance has no column. *)
Example container_is_not_stored :
  let i := mkInstance "u-i" "u-d1" "" "api-1" "PENDING" "" 0 0 in
  let s := (pgi_Create 8 i shop_deployed).2 in
  let '(err, _, s) := pgi_Update 9 (i <| i_Status := "RUNNING" |> <| i_ContainerID := "c-1" |>) s in
  err = None
  ∧ match pgi_GetByID "u-i" s with inr i' => i_Status i' = "RUNNING" ∧ i_ContainerID i' = "" | inl _ => False end.
Proof. vm_compute. split_and!; reflexivity. Qed.

(** An empty identifier is no UUID, although the column allows NULL. *)
Example event_without_deployment_fails :
  (pge_Create 9 "u-e" (mkEvent "" "u-0" "" "PROJECT_CREATED" "created" [] 0) with_shop).1
  = Some ("insert event: invalid input " +:+ quote "")
  ∧ (pgr_Create 9 "u-r" (mkRelease "" "u-0" "" "v1" "img:1" "sha256:0" "" 0) with_shop).1
    = Some ("insert release: invalid input " +:+ quote "").
Proof. vm_compute. split; reflexivity. Qed.

Definition sealed (name value : string) : Draw → Database → Database :=
  λ dw s, (pgs_SetSecret demo_keys dw "u-0" name value s).2.

Definition with_secret : Database := sealed "TOKEN" "t1" (mkDraw 8 "u-s1" "nonce") shop_deployed.

(** A second snapshot of a deployment breaks the constraint of the table. *)
Example second_snapshot_fails :
  let '(err, s) := pgs_SnapshotForDeployment order_id 9 "u-0" "u-d1" with_secret in
  err = None
  ∧ (pgs_SnapshotForDeployment order_id 10 "u-0" "u-d1" s).1
    = Some "snapshot secrets for deployment u-d1: duplicate key in secrets_deployment_id_name_key".
Proof. vm_compute. split; reflexivity. Qed.

(** Two sessions that read the version before either writes. *)
Example concurrent_secrets_collide :
  match prepare_secret demo_keys (mkDraw 8 "u-s1" "nonce") "u-0" "TOKEN" "t1" with_shop,
        prepare_secret demo_keys (mkDraw 8 "u-s2" "nonce") "u-0" "TOKEN" "t2" with_shop with
  | (inr a, _), (inr b, _) =>
    let '(r, s) := insert_secret a with_shop in
    sc_Version a = 1 ∧ sc_Version b = 1 ∧ match r with inr _ => True | inl _ => False end
    ∧ (insert_secret b s).1 = inl "insert secret: duplicate key in uq_secrets_project_name_ver"
  | _, _ => False
  end.
Proof. vm_compute. split_and!; first [reflexivity|exact I]. Qed.

(** The number of replicas has 32 bits. *)
Example replicas_overflow :
  (pgd_UpdateScale 9 "u-d1" (2 ^ 31) shop_deployed).1
  = Some "failed to update deployment scale: 2147483648 is out of range".
Proof. vm_compute. reflexivity. Qed.
