(* ===== verification/Pki.v ===== *)
(** * Certificates and transport security: internal/pki and internal/transport

    ca.go, the internal certificate authority, and grpc.go, the TLS
    configurations and the options of gRPC. What they use of crypto/x509 and
    crypto/tls is written out: the verification of a chain of one or two
    certificates and of a host name, and which certificate each side of a
    handshake asks for. The signature scheme, the encodings of certificates, keys
    and PEM blocks and the random draws are parameters. *)

From stdpp Require Import base option strings countable list.
From Stdlib Require Import ZArith Lia Ascii SpecFloat.
From S2P Require Import Prelude GoLib GoFloat GoTime Http Json.

(** ** [net.ParseIP]

    An address is its sixteen bytes. *)

Definition IP : Type := list Z.

(** One field of a dotted address. *)
Definition ip_octet (s : string) : option Z :=
  if str_forall is_digit s && (0 <? String.length s)%nat && (String.length s <=? 3)%nat
     && negb (HasPrefix s "0" && (1 <? String.length s)%nat)
  then match dec_value 0 s with Some n => if n <=? 255 then Some n else None | None => None end
  else None.

Definition ParseIPv4 (s : string) : option (list Z) :=
  match ip_octet <$> Split s "."%char with
  | [Some a; Some b; Some c; Some d] => Some [a; b; c; d]
  | _ => None
  end.

Fixpoint hex_run (s : string) : list N :=
  match s with
  | EmptyString => []
  | String c s' => match hex_value c with Some d => d :: hex_run s' | None => [] end
  end.

(** The groups from the bytes [acc] on, with the place of the ellipsis. *)
Fixpoint ip_groups (n : nat) (s : string) (acc : IP) (ellipsis : option nat) : option (IP * option nat) :=
  match n with
  | O => None
  | S n =>
    let run := hex_run s in
    let k := length run in
    if ((k =? 0) || (4 <? k))%nat then None
    else
      let v := Z.of_N (fold_left (λ a d, 16 * a + d)%N run 0%N) in
      let acc' := acc ++ [v / 256; v `mod` 256] in
      match drop_string k s with
      | EmptyString => Some (acc', ellipsis)
      | String "." _ =>
        if (bool_decide (ellipsis = None) && negb (length acc =? 12)%nat) || (16 <? length acc + 4)%nat then None
        else (λ q, (acc ++ q, ellipsis)) <$> ParseIPv4 s
      | String ":" EmptyString => None
      | String ":" (String ":" s') =>
        if decide (ellipsis = None) then
          if decide (s' = "") then Some (acc', Some (length acc')) else ip_groups n s' acc' (Some (length acc'))
        else None
      | String ":" s' => ip_groups n s' acc' ellipsis
      | _ => None
      end
  end.

Definition ParseIPv6 (s : string) : option IP :=
  let leading := HasPrefix s "::" in
  let s := if leading then drop_string 2 s else s in
  let start := if leading then Some O else None in
  if leading && bool_decide (s = "") then Some (replicate 16 0)
  else
    match ip_groups 8 s [] start with
    | Some (b, Some e) =>
      if (length b <? 16)%nat then Some (take e b ++ replicate (16 - length b) 0 ++ drop e b) else None
    | Some (b, None) => if (length b =? 16)%nat then Some b else None
    | None => None
    end.

(** The first of the marks decides; an address with a zone is none. *)
Fixpoint ip_mark (s : string) : option ascii :=
  match s with
  | EmptyString => None
  | String c s' => if Ascii.eqb c "." || Ascii.eqb c ":" || Ascii.eqb c "%" then Some c else ip_mark s'
  end.

Definition ParseIP (s : string) : option IP :=
  match ip_mark s with
  | Some "."%char => (λ q, replicate 10 0 ++ [255; 255] ++ q) <$> ParseIPv4 s
  | Some ":"%char => ParseIPv6 s
  | _ => None
  end.

Example parse_ip_ex :
  ParseIP "127.0.0.1" = Some (replicate 10 0 ++ [255; 255; 127; 0; 0; 1])
  ∧ ParseIP "::1" = Some (replicate 15 0 ++ [1])
  ∧ ParseIP "fe80::1:2" = Some ([254; 128] ++ replicate 11 0 ++ [1; 0; 2])
  ∧ ParseIP "::ffff:10.0.0.7" = ParseIP "10.0.0.7"
  ∧ (ParseIP <$> ["localhost"; "10.0.0"; "10.0.0.256"; "10.0.0.01"; "fe80::1%eth0"; "1::2::3"; "12345::"; ":1"; "a.b.c.d"])
    = replicate 9 None.
Proof. vm_compute. split_and!; reflexivity. Qed.

(** ** Certificates of crypto/x509 *)

Inductive ExtKeyUsage := ServerAuth | ClientAuth.

#[export] Instance ExtKeyUsage_eq_dec : EqDecision ExtKeyUsage.
Proof. solve_decision. Defined.

Record Name := mkName { nm_CommonName : string; nm_Organization : list string }.

#[export] Instance Name_eq_dec : EqDecision Name.
Proof. solve_decision. Defined.

(** The bits of [KeyUsage]. *)
Definition KeyUsageDigitalSignature : Z := 1.
Definition KeyUsageKeyEncipherment : Z := 4.
Definition KeyUsageCertSign : Z := 32.
Definition KeyUsageCRLSign : Z := 64.

(** The fields of a template that the code sets. *)
Record Template := mkTemplate {
  tp_SerialNumber : Z;
  tp_Subject : Name;
  tp_NotBefore : Time;
  tp_NotAfter : Time;
  tp_KeyUsage : Z;
  tp_ExtKeyUsage : list ExtKeyUsage;
  tp_BasicConstraintsValid : bool;
  tp_IsCA : bool;
  tp_MaxPathLenZero : bool;
  tp_IPAddresses : list IP;
  tp_DNSNames : list string
}.

#[export] Instance Template_eta : Settable Template := λ t,
  mkTemplate (tp_SerialNumber t) (tp_Subject t) (tp_NotBefore t) (tp_NotAfter t) (tp_KeyUsage t) (tp_ExtKeyUsage t)
    (tp_BasicConstraintsValid t) (tp_IsCA t) (tp_MaxPathLenZero t) (tp_IPAddresses t) (tp_DNSNames t).

#[export] Instance Template_eq_dec : EqDecision Template.
Proof. solve_decision. Defined.

(** A parsed certificate: its fields, who signed it, its key, and the bytes
    that are signed. *)
Record Certificate := mkCertificate {
  ct_fields : Template;
  ct_Issuer : Name;
  ct_PublicKey : string;
  ct_RawTBS : string;
  ct_Signature : string
}.

#[export] Instance Certificate_eq_dec : EqDecision Certificate.
Proof. solve_decision. Defined.

(** Dates of certificates have whole seconds. *)
Definition whole (t : Time) : Time := t - t `mod` Second.

Definition whole_seconds (t : Template) : Template := t <| tp_NotBefore ::= whole |> <| tp_NotAfter ::= whole |>.

(** ECDSA, the encodings of certificates and keys, and PEM. *)
Class X509 := {
  ec_Public : string → string;
  ec_Sign : string → string → string;
  ec_Verify : string → string → string → bool;
  der_TBS : Template → Name → string → error + string;
  der_Join : string → string → string;
  der_Parse : string → error + Certificate;
  key_Marshal : string → error + string;
  key_Parse : string → error + string;
  pem_Encode : string → string → string;
  pem_Decode : string → option (string * string * string);
  san_ok : string → bool
}.

(** Signatures verify under their own key only; the parser reads what the
    encoder wrote, and a PEM block alone is decoded to itself. *)
Class X509Laws `{!X509} : Prop := {
  ec_correct key m : ec_Verify (ec_Public key) m (ec_Sign key m) = true;
  ec_binding pub key m : ec_Verify pub m (ec_Sign key m) = true → pub = ec_Public key;
  der_reads t issuer pub tbs sig : der_TBS t issuer pub = inr tbs → forallb san_ok (tp_DNSNames t) = true →
    der_Parse (der_Join tbs sig) = inr (mkCertificate (whole_seconds t) issuer pub tbs sig);
  key_reads key der : key_Marshal key = inr der → key_Parse der = inr key;
  pem_empty : pem_Decode "" = None;
  pem_reads type bytes : pem_Decode (pem_Encode type bytes) = Some (type, bytes, "");
  pem_nonempty type bytes : pem_Encode type bytes ≠ ""
}.

Section pki.
Context {xl : X509}.

(** [x509.CreateCertificate]: the parent of a root is its own template. *)
Definition CreateCertificate (t : Template) (issuer : Name) (pub priv : string) : error + string :=
  match der_TBS t issuer pub with
  | inl err => inl err
  | inr tbs => inr (der_Join tbs (ec_Sign priv tbs))
  end.

Inductive VerifyError := NotYetOrExpired | NotAuthorizedToSign | UnknownAuthority | BadHostname | IncompatibleUsage.

Definition in_window (now : Time) (c : Certificate) : bool :=
  negb (now <? tp_NotBefore (ct_fields c)) && negb (tp_NotAfter (ct_fields c) <? now).

Definition may_sign (c : Certificate) : bool :=
  let f := ct_fields c in
  tp_BasicConstraintsValid f && tp_IsCA f
  && ((tp_KeyUsage f =? 0) || negb (Z.land (tp_KeyUsage f) KeyUsageCertSign =? 0)).

Definition CheckSignatureFrom (c parent : Certificate) : bool :=
  may_sign parent && ec_Verify (ct_PublicKey parent) (ct_RawTBS c) (ct_Signature c).

(** A chain serves a usage if none of its certificates excludes it. *)
Definition allows (usage : ExtKeyUsage) (chain : list Certificate) : bool :=
  forallb (λ c, match tp_ExtKeyUsage (ct_fields c) with [] => true | us => bool_decide (usage ∈ us) end) chain.

(** Names of hosts *)

Definition valid_host_char (c : ascii) (first : bool) : bool :=
  let n := N_of_ascii c in
  is_digit c || ((65 <=? n) && (n <=? 90))%N || ((97 <=? n) && (n <=? 122))%N
  || (Ascii.eqb c "-" && negb first) || Ascii.eqb c "_".

Fixpoint valid_label (s : string) (first : bool) : bool :=
  match s with EmptyString => true | String c s' => valid_host_char c first && valid_label s' false end.

Definition trim_dot (s : string) : string :=
  let n := String.length s in
  if String.eqb (drop_string (n - 1) s) "." then String.substring 0 (n - 1) s else s.

Definition valid_labels (labels : list string) : bool :=
  forallb (λ l, bool_decide (l ≠ "") && valid_label l true) labels.

Definition valid_host (host : string) : bool :=
  let host := trim_dot host in bool_decide (host ≠ "") && valid_labels (Split host "."%char).

Definition valid_pattern (p : string) : bool :=
  bool_decide (p ≠ "" ∧ p ≠ "*")
  && valid_labels (match Split p "."%char with "*" :: rest => rest | labels => labels end).

Definition lower (s : string) : string := string_map lower_char s.

Definition match_hostnames (pattern host : string) : bool :=
  let pattern := lower pattern in
  let host := lower (trim_dot host) in
  let ps := Split pattern "."%char in
  let hs := Split host "."%char in
  bool_decide (pattern ≠ "" ∧ host ≠ "")
  && match ps, hs with
     | "*" :: ps, _ :: hs => bool_decide (ps = hs)
     | _, _ => bool_decide (ps = hs)
     end.

Definition match_exactly (a b : string) : bool :=
  negb (bool_decide (a = "" ∨ a = "." ∨ b = "" ∨ b = ".")) && String.eqb (lower a) (lower b).

Definition without_brackets (h : string) : string :=
  let n := String.length h in
  if (3 <=? n)%nat && HasPrefix h "[" && String.eqb (drop_string (n - 1) h) "]" then String.substring 1 (n - 2) h else h.

Definition VerifyHostname (c : Certificate) (h : string) : bool :=
  match ParseIP (without_brackets h) with
  | Some ip => bool_decide (ip ∈ tp_IPAddresses (ct_fields c))
  | None =>
    let name := lower h in
    existsb (λ p, if valid_host name && valid_pattern p then match_hostnames p name else match_exactly p name)
      (tp_DNSNames (ct_fields c))
  end.

(** [x509_Verify] with the roots only: the certificate itself, or one step to a root. *)
Definition root_chains (now : Time) (roots : list Certificate) (c : Certificate) : VerifyError + list (list Certificate) :=
  if decide (c ∈ roots) then inr [[c]]
  else
    let candidates := base.filter (λ r, tp_Subject (ct_fields r) = ct_Issuer c) roots in
    let signers := base.filter (λ r, CheckSignatureFrom c r = true) candidates in
    match base.filter (λ r, in_window now r = true) signers with
    | [] => inl (match signers with [] => UnknownAuthority | _ => NotYetOrExpired end)
    | rs => inr ((λ r, [c; r]) <$> rs)
    end.

Definition x509_Verify (now : Time) (roots : list Certificate) (host : string) (usage : ExtKeyUsage) (c : Certificate) :
    option VerifyError :=
  if negb (in_window now c) then Some NotYetOrExpired
  else if bool_decide (host ≠ "") && negb (VerifyHostname c host) then Some BadHostname
  else
    match root_chains now roots c with
    | inl err => Some err
    | inr chains => if existsb (allows usage) chains then None else Some IncompatibleUsage
    end.

End pki.

(** ** ca.go *)

Definition ErrCAUnavailable : error := "internal certificate authority is unavailable".
Definition ErrInvalidTTL : error := "certificate TTL must be positive".

Section ca.
Context {xl : X509}.

Record CertificateAuthority := mkCA {
  ca_org : string;
  ca_cert : Certificate;
  ca_key : string;
  ca_certPEM : string;
  ca_keyPEM : string;
  ca_certPool : list Certificate;
  ca_available : bool
}.

#[export] Instance CertificateAuthority_eta : Settable CertificateAuthority := λ c,
  mkCA (ca_org c) (ca_cert c) (ca_key c) (ca_certPEM c) (ca_keyPEM c) (ca_certPool c) (ca_available c).

(** What one call draws; [cd_spare] is the serial number that the library takes
    when it is given none. *)
Record CertDraw := mkCertDraw {
  cd_key : error + string;
  cd_serial : error + Z;
  cd_spare : Z;
  cd_now : Time
}.

Definition with_prefix {A} (prefix : string) (r : error + A) : error + A :=
  match r with inl err => inl (prefix +:+ err) | inr x => inr x end.

Definition minute : Duration := 60 * Second.
Definition hour : Duration := 60 * minute.

Definition ca_template (dw : CertDraw) (serial : Z) (org : string) (ttl : Duration) : Template :=
  mkTemplate serial (mkName org [org]) (cd_now dw - 5 * minute) (cd_now dw + ttl)
    (Z.lor (Z.lor KeyUsageCertSign KeyUsageCRLSign) KeyUsageDigitalSignature) [] true true true [] [].

Notation "'let?' x := m 'in' k" := (match m with inl err => inl err | inr x => k end)
  (at level 10, x name, k at level 200).

Definition NewCertificateAuthority (dw : CertDraw) (org : string) (caTTL : Duration) : error + CertificateAuthority :=
  let org := if decide (org = "") then "Nebula Internal CA" else org in
  let caTTL := if caTTL <=? 0 then 10 * 365 * 24 * hour else caTTL in
  let? caKey := with_prefix "generate CA private key: " (cd_key dw) in
  let? serialNumber := with_prefix "generate CA serial number: " (cd_serial dw) in
  let caTemplate := ca_template dw serialNumber org caTTL in
  let? caDER := with_prefix "create CA certificate: "
                  (CreateCertificate caTemplate (tp_Subject caTemplate) (ec_Public caKey) caKey) in
  let? caCert := with_prefix "parse CA certificate: " (der_Parse caDER) in
  let? keyDER := with_prefix "marshal CA private key: " (key_Marshal caKey) in
  inr (mkCA org caCert caKey (pem_Encode "CERTIFICATE" caDER) (pem_Encode "EC PRIVATE KEY" keyDER) [caCert] true).

Definition SetAvailable (avail : bool) (ca : CertificateAuthority) : CertificateAuthority := ca <| ca_available := avail |>.

Definition CACertPEM (ca : CertificateAuthority) : string := ca_certPEM ca.

Definition CertPool (ca : CertificateAuthority) : list Certificate := [ca_cert ca].

(** A certificate with its private key. *)
Record KeyPair := mkKeyPair { kp_Leaf : Certificate; kp_PrivateKey : string }.

(** The blocks of a PEM text, of which each has at least one byte. *)
Fixpoint pem_blocks (n : nat) (s : string) : list (string * string) :=
  match n with
  | O => []
  | S n => match pem_Decode s with Some (type, bytes, rest) => (type, bytes) :: pem_blocks n rest | None => [] end
  end.

Definition private_key_type (type : string) : bool :=
  String.eqb type "PRIVATE KEY" || String.eqb (drop_string (String.length type - 12) type) " PRIVATE KEY".

(** [tls.X509KeyPair]: the first certificate and the first key must belong together. *)
Definition X509KeyPair (certPEM keyPEM : string) : error + KeyPair :=
  match base.filter (λ b, b.1 = "CERTIFICATE") (pem_blocks (String.length certPEM) certPEM),
        base.filter (λ b, private_key_type b.1 = true) (pem_blocks (String.length keyPEM) keyPEM) with
  | [], _ => inl "tls: failed to find any PEM data in certificate input"
  | _, [] => inl "tls: failed to find any PEM data in key input"
  | cert :: _, key :: _ =>
    let? leaf := der_Parse cert.2 in
    let? priv := key_Parse key.2 in
    if decide (ec_Public priv = ct_PublicKey leaf) then inr (mkKeyPair leaf priv)
    else inl "tls: private key does not match public key"
  end.

Definition leaf_template (dw : CertDraw) (serial : Z) (org cn : string) (ttl : Duration) : Template :=
  mkTemplate serial (mkName cn [org]) (cd_now dw - 1 * minute) (cd_now dw + ttl)
    (Z.lor KeyUsageDigitalSignature KeyUsageKeyEncipherment) [ClientAuth; ServerAuth] true false false [] [].

Definition add_san (t : Template) (s : string) : Template :=
  match ParseIP s with
  | Some ip => t <| tp_IPAddresses ::= λ l, l ++ [ip] |>
  | None => t <| tp_DNSNames ::= λ l, l ++ [s] |>
  end.

(** Whether the certificate is for a server has no effect. *)
Definition issueCertificate (dw : CertDraw) (cn : string) (ttl : Duration) (isServer : bool) (sans : list string)
    (ca : CertificateAuthority) : error + (KeyPair * string * string) :=
  if negb (ca_available ca) then inl ErrCAUnavailable
  else if ttl <=? 0 then inl ErrInvalidTTL
  else
    let? privKey := with_prefix "generate private key: " (cd_key dw) in
    let? serialNumber := with_prefix "generate serial number: " (cd_serial dw) in
    let template := fold_left add_san sans (leaf_template dw serialNumber (ca_org ca) cn ttl) in
    let? certDER := with_prefix "create certificate: "
                      (CreateCertificate template (tp_Subject (ct_fields (ca_cert ca))) (ec_Public privKey) (ca_key ca)) in
    let certPEM := pem_Encode "CERTIFICATE" certDER in
    let? keyDER := with_prefix "marshal private key: " (key_Marshal privKey) in
    let keyPEM := pem_Encode "EC PRIVATE KEY" keyDER in
    let? tlsCert := with_prefix "parse TLS key pair: " (X509KeyPair certPEM keyPEM) in
    inr (tlsCert, certPEM, keyPEM).

Definition node_names (name : string) : list string := [name; "localhost"; "127.0.0.1"].

Definition IssueWorkerCertificate (dw : CertDraw) (workerKey : string) (ttl : Duration) (ca : CertificateAuthority) :=
  issueCertificate dw workerKey ttl false (node_names workerKey) ca.

Definition IssueServerCertificate (dw : CertDraw) (hostname : string) (ttl : Duration) (ca : CertificateAuthority) :=
  issueCertificate dw hostname ttl true (node_names hostname) ca.

(** [t.Sub(u)], which is limited to the range of int64. *)
Definition time_Sub (t u : Time) : Duration := Z.max (- 2 ^ 63) (Z.min (2 ^ 63 - 1) (t - u)).

Definition ShouldRenew (now : Time) (cert : option Certificate) (threshold : float64) : bool :=
  match cert with
  | None => true
  | Some cert =>
    let f := ct_fields cert in
    if tp_NotAfter f <? now then true
    else
      let totalLifetime := time_Sub (tp_NotAfter f) (tp_NotBefore f) in
      if totalLifetime <=? 0 then true
      else
        let elapsed := time_Sub now (tp_NotBefore f) in
        fle threshold (fdiv (float_of_int elapsed) (float_of_int totalLifetime))
  end.

Definition IssueUntrustedCertificate (root dw : CertDraw) (cn : string) (ttl : Duration) : error + (KeyPair * string * string) :=
  let? rogueCA := NewCertificateAuthority root "Rogue Untrusted CA" (1 * hour) in
  IssueWorkerCertificate dw cn ttl rogueCA.

Definition expired_template (dw : CertDraw) (cn : string) : Template :=
  mkTemplate (match cd_serial dw with inr n => n | inl _ => cd_spare dw end) (mkName cn [])
    (cd_now dw - 10 * hour) (cd_now dw - 1 * hour) (Z.lor KeyUsageDigitalSignature KeyUsageKeyEncipherment)
    [ClientAuth; ServerAuth] true false false [] [].

Definition IssueExpiredCertificate (dw : CertDraw) (cn : string) (ca : CertificateAuthority) : error + KeyPair :=
  let? privKey := cd_key dw in
  let? certDER := CreateCertificate (expired_template dw cn) (tp_Subject (ct_fields (ca_cert ca)))
                    (ec_Public privKey) (ca_key ca) in
  let keyDER := match key_Marshal privKey with inr d => d | inl _ => "" end in
  X509KeyPair (pem_Encode "CERTIFICATE" certDER) (pem_Encode "EC PRIVATE KEY" keyDER).

(** The first block, whatever its type. *)
Definition ParseCertificateFromPEM (certPEM : string) : error + Certificate :=
  match pem_Decode certPEM with
  | None => inl "failed to decode PEM block"
  | Some (_, bytes, _) => der_Parse bytes
  end.

Definition HasCertInPool (now : Time) (pool : option (list Certificate)) (cert : option Certificate) : bool :=
  match pool, cert with
  | Some pool, Some cert => bool_decide (x509_Verify now pool "" ServerAuth cert = None)
  | _, _ => false
  end.

Definition BytesEqual (a b : string) : bool := String.eqb a b.

(** ** grpc.go *)

Definition VersionTLS13 : Z := 772.

(** [tls_ClientAuth] is [RequireAndVerifyClientCert]. *)
Record TLSConfig := mkTLSConfig {
  tls_ClientAuth : bool;
  tls_ClientCAs : list Certificate;
  tls_RootCAs : list Certificate;
  tls_Certificates : list KeyPair;
  tls_ServerName : string;
  tls_MinVersion : Z
}.

(** [AppendCertsFromPEM] on an empty pool: what cannot be parsed is skipped. *)
Definition pool_of_PEM (certPEM : string) : list Certificate :=
  omap (λ b, if decide (b.1 = "CERTIFICATE") then match der_Parse b.2 with inr c => Some c | inl _ => None end else None)
    (pem_blocks (String.length certPEM) certPEM).

Definition ca_pool (caCertPEM : string) : error + list Certificate :=
  if decide (caCertPEM = "") then inl "CA certificate PEM cannot be empty"
  else match pool_of_PEM caCertPEM with
       | [] => inl "failed to append CA certificate to pool"
       | pool => inr pool
       end.

Definition NewServerTLSConfig (caCertPEM : string) (serverCert : KeyPair) : error + TLSConfig :=
  let? caPool := ca_pool caCertPEM in inr (mkTLSConfig true caPool [] [serverCert] "" VersionTLS13).

Definition NewClientTLSConfig (caCertPEM : string) (clientCert : KeyPair) (serverName : string) : error + TLSConfig :=
  let? caPool := ca_pool caCertPEM in inr (mkTLSConfig false [] caPool [clientCert] serverName VersionTLS13).

Inductive Credentials := Insecure | NewTLS (cfg : TLSConfig).

Inductive DialOption := WithTransportCredentials (c : Credentials) | OtherDialOption (name : string).
Inductive ServerOption := Creds (c : Credentials) | OtherServerOption (name : string).

Definition ClientDialOptions (extraOpts : list DialOption) : list DialOption :=
  WithTransportCredentials Insecure :: extraOpts.

Definition ClientDialOptionsWithTLS (tlsCfg : TLSConfig) (extraOpts : list DialOption) : list DialOption :=
  WithTransportCredentials (NewTLS tlsCfg) :: extraOpts.

Definition ServerOptions (extraOpts : list ServerOption) : list ServerOption := extraOpts.

Definition ServerOptionsWithTLS (tlsCfg : option TLSConfig) (extraOpts : list ServerOption) : list ServerOption :=
  match tlsCfg with None => extraOpts | Some cfg => Creds (NewTLS cfg) :: extraOpts end.

(** [grpc.NewClient] is a parameter. *)
Definition NewClientConn {C} (NewClient : string → list DialOption → error + C) (target : string)
    (extraOpts : list DialOption) : error + C :=
  NewClient target (ClientDialOptions extraOpts).

Definition NewClientConnWithTLS {C} (NewClient : string → list DialOption → error + C) (target : string)
    (tlsCfg : option TLSConfig) (extraOpts : list DialOption) : error + C :=
  match tlsCfg with
  | None => inl "tls configuration cannot be nil"
  | Some cfg => NewClient target (ClientDialOptionsWithTLS cfg extraOpts)
  end.

(** ** Handshakes

    The last option that sets credentials counts; a server without any speaks
    plain text. *)

Definition dial_credentials (opts : list DialOption) : option Credentials :=
  last (omap (λ o, match o with WithTransportCredentials c => Some c | _ => None end) opts).

Definition server_credentials (opts : list ServerOption) : Credentials :=
  default Insecure (last (omap (λ o, match o with Creds c => Some c | _ => None end) opts)).

Inductive HandshakeError :=
| NoServerCertificate | BadServerCertificate (e : VerifyError)
| NoClientCertificate | BadClientCertificate (e : VerifyError) | PlainTextMismatch.

(** Each side shows its first certificate; the name of the server is by default
    the authority of the target. *)
Definition handshake (now : Time) (authority : string) (client server : TLSConfig) : option HandshakeError :=
  let name := if decide (tls_ServerName client = "") then authority else tls_ServerName client in
  match tls_Certificates server with
  | [] => Some NoServerCertificate
  | sc :: _ =>
    match x509_Verify now (tls_RootCAs client) name ServerAuth (kp_Leaf sc) with
    | Some e => Some (BadServerCertificate e)
    | None =>
      if negb (tls_ClientAuth server) then None
      else match tls_Certificates client with
           | [] => Some NoClientCertificate
           | cc :: _ => BadClientCertificate <$> x509_Verify now (tls_ClientCAs server) "" ClientAuth (kp_Leaf cc)
           end
    end
  end.

Definition connect (now : Time) (authority : string) (client server : Credentials) : option HandshakeError :=
  match client, server with
  | Insecure, Insecure => None
  | NewTLS c, NewTLS s => handshake now authority c s
  | _, _ => Some PlainTextMismatch
  end.

End ca.

(** ** What is issued *)

Section facts.
Context {xl : X509} {laws : X509Laws}.
Implicit Types (ca : CertificateAuthority) (dw : CertDraw) (leaf : Certificate).

(** What the operations keep of an authority. *)
Record ca_ok ca : Prop := {
  ok_key : ct_PublicKey (ca_cert ca) = ec_Public (ca_key ca);
  ok_signs : may_sign (ca_cert ca) = true;
  ok_usage : tp_ExtKeyUsage (ct_fields (ca_cert ca)) = [];
  ok_root : tp_IsCA (ct_fields (ca_cert ca)) = true;
  ok_pem : ∃ der, CACertPEM ca = pem_Encode "CERTIFICATE" der ∧ der_Parse der = inr (ca_cert ca)
}.

Definition ca_window dw ttl ca : Prop :=
  tp_NotBefore (ct_fields (ca_cert ca)) = whole (cd_now dw - 5 * minute)
  ∧ tp_NotAfter (ct_fields (ca_cert ca)) = whole (cd_now dw + (if ttl <=? 0 then 10 * 365 * 24 * hour else ttl)).

Lemma create_reads t issuer pub priv der :
  CreateCertificate t issuer pub priv = inr der → forallb san_ok (tp_DNSNames t) = true →
  ∃ tbs, der_TBS t issuer pub = inr tbs
    ∧ der_Parse der = inr (mkCertificate (whole_seconds t) issuer pub tbs (ec_Sign priv tbs)).
Proof.
  unfold CreateCertificate. destruct (der_TBS t issuer pub) as [e|tbs] eqn:E; [done|]. intros [= <-] Hs.
  exists tbs. split; [done|]. by apply der_reads.
Qed.

Lemma new_ca_ok dw org ttl ca : NewCertificateAuthority dw org ttl = inr ca → ca_ok ca ∧ ca_window dw ttl ca.
Proof.
  unfold NewCertificateAuthority. set (org' := if decide (org = "") then _ else org).
  destruct (cd_key dw) as [|key]; [done|]. cbn [with_prefix]. destruct (cd_serial dw) as [|serial]; [done|]. cbn [with_prefix].
  set (t := ca_template _ _ _ _). destruct (CreateCertificate t _ _ _) as [|der] eqn:Ec; [done|]. cbn [with_prefix].
  destruct (create_reads _ _ _ _ _ Ec) as (tbs & _ & Hp); [done|]. rewrite Hp. cbn [with_prefix].
  destruct (key_Marshal key) as [|kder]; [done|]. intros [= <-].
  split; [|by split]. split; try done. by exists der.
Qed.

(** A certificate for [names] under the authority. *)
Record issued ca (now : Time) (cn : string) (ttl : Duration) (names : list string) leaf : Prop := {
  iss_from : tp_NotBefore (ct_fields leaf) = whole (now - minute);
  iss_until : tp_NotAfter (ct_fields leaf) = whole (now + ttl);
  iss_subject : tp_Subject (ct_fields leaf) = mkName cn [ca_org ca];
  iss_usage : tp_ExtKeyUsage (ct_fields leaf) = [ClientAuth; ServerAuth];
  iss_leaf : tp_IsCA (ct_fields leaf) = false;
  iss_ips : tp_IPAddresses (ct_fields leaf) = omap ParseIP names;
  iss_dns : tp_DNSNames (ct_fields leaf) = base.filter (λ s, ParseIP s = None) names;
  iss_issuer : ct_Issuer leaf = tp_Subject (ct_fields (ca_cert ca));
  iss_signed : ct_Signature leaf = ec_Sign (ca_key ca) (ct_RawTBS leaf)
}.

Lemma san_fields names t :
  fold_left add_san names t
  = t <| tp_IPAddresses := tp_IPAddresses t ++ omap ParseIP names |>
      <| tp_DNSNames := tp_DNSNames t ++ base.filter (λ s, ParseIP s = None) names |>.
Proof.
  revert t. induction names as [|s names IH]; intros t; [by destruct t; cbn; rewrite !app_nil_r|].
  cbn [fold_left omap list_omap]. rewrite IH, filter_cons. unfold add_san.
  destruct t. destruct (ParseIP s) eqn:E; [rewrite decide_False by done|rewrite decide_True by done]; cbn; by rewrite <- !app_assoc.
Qed.

Lemma pem_one type bytes : pem_blocks (String.length (pem_Encode type bytes)) (pem_Encode type bytes)
  = (type, bytes) :: pem_blocks (String.length (pem_Encode type bytes) - 1) "".
Proof.
  pose proof (pem_nonempty type bytes) as Hn. destruct (String.length (pem_Encode type bytes)) as [|n] eqn:E;
    [by destruct (pem_Encode type bytes)|].
  cbn [pem_blocks]. rewrite pem_reads. by rewrite Nat.sub_1_r.
Qed.

Lemma key_pair_of leaf certDER key keyDER :
  der_Parse certDER = inr leaf → key_Marshal key = inr keyDER → ct_PublicKey leaf = ec_Public key →
  X509KeyPair (pem_Encode "CERTIFICATE" certDER) (pem_Encode "EC PRIVATE KEY" keyDER) = inr (mkKeyPair leaf key).
Proof.
  intros Hc Hk Hp. unfold X509KeyPair. rewrite !pem_one, !filter_cons. cbn [fst snd].
  rewrite !decide_True by done. cbn [snd]. rewrite Hc, (key_reads _ _ Hk). by rewrite decide_True.
Qed.

Lemma issue_succeeds dw cn ttl isServer names ca key serial tbs keyDER :
  ca_available ca = true → 0 < ttl → cd_key dw = inr key → cd_serial dw = inr serial →
  forallb san_ok (base.filter (λ s, ParseIP s = None) names) = true →
  der_TBS (fold_left add_san names (leaf_template dw serial (ca_org ca) cn ttl)) (tp_Subject (ct_fields (ca_cert ca)))
    (ec_Public key) = inr tbs → key_Marshal key = inr keyDER →
  ∃ leaf certPEM keyPEM, issueCertificate dw cn ttl isServer names ca = inr (mkKeyPair leaf key, certPEM, keyPEM)
    ∧ ParseCertificateFromPEM certPEM = inr leaf ∧ issued ca (cd_now dw) cn ttl names leaf.
Proof.
  intros Ha Ht Hk Hs Hn Htbs Hm. unfold issueCertificate. rewrite Ha, Hk, Hs. cbn [negb with_prefix].
  rewrite (proj2 (Z.leb_gt ttl 0)) by lia. set (t := fold_left _ _ _) in *.
  unfold CreateCertificate. rewrite Htbs. cbn [with_prefix]. rewrite Hm. cbn [with_prefix].
  assert (forallb san_ok (tp_DNSNames t) = true) as Hd by (unfold t; rewrite san_fields; exact Hn).
  pose proof (der_reads t _ _ tbs (ec_Sign (ca_key ca) tbs) Htbs Hd) as Hp.
  rewrite (key_pair_of _ _ key keyDER Hp Hm) by done. cbn [with_prefix]. do 3 eexists. split; [done|].
  split; [by unfold ParseCertificateFromPEM; rewrite pem_reads|].
  unfold t. rewrite san_fields. by split.
Qed.

(** Issuing a certificate: an unavailable authority and a period that is not
    positive have their errors; otherwise, if the draws and encoders succeed,
    the result is a certificate of the asked subject, names and period in whole
    seconds, signed by the authority, with its key, and its PEM text is parsed
    back to it. *)
Theorem issue_outcome dw cn ttl isServer names ca :
  (ca_available ca = false → issueCertificate dw cn ttl isServer names ca = inl ErrCAUnavailable)
  ∧ (ca_available ca = true → ttl ≤ 0 → issueCertificate dw cn ttl isServer names ca = inl ErrInvalidTTL)
  ∧ ∀ key serial tbs keyDER, ca_available ca = true → 0 < ttl → cd_key dw = inr key → cd_serial dw = inr serial →
    forallb san_ok (base.filter (λ s, ParseIP s = None) names) = true →
    der_TBS (fold_left add_san names (leaf_template dw serial (ca_org ca) cn ttl)) (tp_Subject (ct_fields (ca_cert ca)))
      (ec_Public key) = inr tbs → key_Marshal key = inr keyDER →
    ∃ leaf certPEM keyPEM, issueCertificate dw cn ttl isServer names ca = inr (mkKeyPair leaf key, certPEM, keyPEM)
      ∧ ParseCertificateFromPEM certPEM = inr leaf ∧ issued ca (cd_now dw) cn ttl names leaf.
Proof.
  split; [|split].
  - intros Ha. unfold issueCertificate. by rewrite Ha.
  - intros Ha Ht. unfold issueCertificate. rewrite Ha. cbn [negb]. by rewrite (proj2 (Z.leb_le ttl 0)).
  - intros. by eapply issue_succeeds.
Qed.

(** ** Who may connect *)

Lemma pem_none n : pem_blocks n "" = [].
Proof. destruct n as [|n]; [done|]. cbn [pem_blocks]. by rewrite pem_empty. Qed.

Lemma ca_config ca : ca_ok ca → ca_pool (CACertPEM ca) = inr [ca_cert ca].
Proof.
  intros [_ _ _ _ (der & Hp & Hd)]. unfold ca_pool, pool_of_PEM. rewrite decide_False by (rewrite Hp; apply pem_nonempty).
  rewrite Hp, pem_one, pem_none. cbn [omap list_omap fst snd]. by rewrite decide_True, Hd.
Qed.

Lemma verify_issued now ca host usage at_ cn ttl names leaf : ca_ok ca → issued ca at_ cn ttl names leaf →
  x509_Verify now [ca_cert ca] host usage leaf = None
  ↔ in_window now leaf = true ∧ in_window now (ca_cert ca) = true ∧ (host = "" ∨ VerifyHostname leaf host = true).
Proof.
  intros [Hk Hs Hu Hr _] [_ _ _ Hlu Hl _ _ Hi Hsig]. unfold x509_Verify.
  destruct (in_window now leaf); cbn [negb]; [|by split; [|intros [? _]]].
  assert (leaf ≠ ca_cert ca) as Hne by (intros ->; congruence).
  assert (CheckSignatureFrom leaf (ca_cert ca) = true) as Hc.
  { unfold CheckSignatureFrom. rewrite Hs, Hk, Hsig. apply ec_correct. }
  unfold root_chains. rewrite decide_False by (by rewrite list_elem_of_singleton).
  rewrite !filter_cons, !filter_nil, decide_True, filter_cons, filter_nil, decide_True, filter_cons, filter_nil by done.
  destruct (in_window now (ca_cert ca)) eqn:Er.
  - rewrite decide_True by done. cbn [existsb fmap list_fmap allows forallb]. rewrite Hlu, Hu.
    assert (bool_decide (usage ∈ [ClientAuth; ServerAuth]) = true) as -> by (destruct usage; done). cbn [andb orb].
    destruct (decide (host = "")) as [->|Hh]; [rewrite bool_decide_false by tauto; cbn; tauto|].
    rewrite bool_decide_true by done. destruct (VerifyHostname leaf host); cbn; [tauto|].
    split; [done|]. by intros (_ & _ & [?|?]).
  - rewrite decide_False by done. case_match; split; try done; by intros (_ & ? & _).
Qed.

(** What makes a leaf acceptable under one root. *)
Lemma verify_signed now root host usage leaf : x509_Verify now [root] host usage leaf = None → tp_IsCA (ct_fields leaf) = false →
  in_window now leaf = true ∧ (tp_IsCA (ct_fields root) = true → ec_Verify (ct_PublicKey root) (ct_RawTBS leaf) (ct_Signature leaf) = true).
Proof.
  unfold x509_Verify. destruct (in_window now leaf); cbn [negb]; [|done]. intros H Hl. split; [done|]. intros Hr.
  case_match; [done|]. unfold root_chains in H. rewrite decide_False in H by (rewrite list_elem_of_singleton; intros ->; congruence).
  rewrite filter_cons, filter_nil in H. case_decide; [|done]. rewrite filter_cons, filter_nil in H.
  case_decide as Hc; [|done]. unfold CheckSignatureFrom in Hc. by apply andb_true_iff in Hc as [_ ?].
Qed.

Lemma server_config ca pair : ca_ok ca →
  NewServerTLSConfig (CACertPEM ca) pair = inr (mkTLSConfig true [ca_cert ca] [] [pair] "" VersionTLS13).
Proof. intros H. unfold NewServerTLSConfig. by rewrite ca_config. Qed.

Lemma client_config ca pair name : ca_ok ca →
  NewClientTLSConfig (CACertPEM ca) pair name = inr (mkTLSConfig false [] [ca_cert ca] [pair] name VersionTLS13).
Proof. intros H. unfold NewClientTLSConfig. by rewrite ca_config. Qed.


(** A server configured with an authority accepts a client whose certificate
    another authority issued only if both have the same public key, and only
    within the period of the certificate. *)
Theorem strangers_are_refused now authority ca other t cn ttl names client server scfg ccfg :
  ca_ok ca → issued other t cn ttl names (kp_Leaf client) → tls_Certificates ccfg = [client] →
  NewServerTLSConfig (CACertPEM ca) server = inr scfg → connect now authority (NewTLS ccfg) (NewTLS scfg) = None →
  ec_Public (ca_key other) = ec_Public (ca_key ca) ∧ in_window now (kp_Leaf client) = true.
Proof.
  intros Hca [_ _ _ _ Hl _ _ _ Hsig] Hcc Hs. rewrite server_config in Hs by done. injection Hs as <-. cbn [connect]. unfold handshake.
  cbn [tls_Certificates tls_ClientAuth tls_ClientCAs negb]. case_match; [done|]. rewrite Hcc.
  destruct (x509_Verify now [ca_cert ca] "" ClientAuth (kp_Leaf client)) eqn:V; [done|]. intros _.
  apply verify_signed in V as [Hw V]; [|done]. split; [|done]. destruct Hca as [Hk _ _ Hr _].
  specialize (V Hr). rewrite Hsig in V. apply ec_binding in V. by rewrite <- V, Hk.
Qed.

(** A certificate of any node is one of the server localhost. *)
Lemma node_is_localhost ca t name ttl leaf : issued ca t name ttl (node_names name) leaf →
  VerifyHostname leaf "localhost" = true ∧ VerifyHostname leaf "127.0.0.1" = true.
Proof.
  intros [_ _ _ _ _ Hip Hdns _ _]. unfold VerifyHostname. rewrite Hip, Hdns.
  change (ParseIP (without_brackets "localhost")) with (@None IP).
  destruct (ParseIP (without_brackets "127.0.0.1")) as [ip|] eqn:E; [|discriminate E]. split.
  - apply existsb_exists. exists "localhost". split; [|vm_compute; reflexivity].
    apply list_elem_of_In, list_elem_of_filter. split; [reflexivity|]. right. left.
  - apply bool_decide_true, list_elem_of_omap. exists "127.0.0.1". split; [right; right; left|exact E].
Qed.

(** The certificate of any node is accepted for every usage as that of the
    server localhost, while it and its authority are within their periods. *)
Theorem worker_serves_localhost now ca t name ttl leaf usage : ca_ok ca → issued ca t name ttl (node_names name) leaf →
  in_window now leaf = true → in_window now (ca_cert ca) = true →
  x509_Verify now [ca_cert ca] "localhost" usage leaf = None.
Proof.
  intros Hca Hi Hw Hr. eapply verify_issued; [done..|]. split_and!; [done..|]. right. by eapply node_is_localhost.
Qed.

(** A certificate past its end, or without a positive period, is to be renewed
    whatever the threshold. *)
Theorem should_renew_due now leaf threshold :
  (tp_NotAfter (ct_fields leaf) < now ∨ tp_NotAfter (ct_fields leaf) ≤ tp_NotBefore (ct_fields leaf)) →
  ShouldRenew now (Some leaf) threshold = true.
Proof.
  unfold ShouldRenew. intros [H|H]; [by rewrite (proj2 (Z.ltb_lt _ _))|]. case_match; [done|].
  rewrite (proj2 (Z.leb_le _ _)); [done|]. unfold time_Sub. lia.
Qed.

End facts.

(** ** On concrete encodings

    Numbers are written as their bits, and a list of texts as the texts with a 1
    before each character and a 0 at the end. Keys are their own public part,
    and a signature is the key before the message. *)

Fixpoint bits (p : positive) : string :=
  match p with xH => "" | xO p => String "0" (bits p) | xI p => String "1" (bits p) end.

Fixpoint bits_value (s : string) : positive :=
  match s with EmptyString => xH | String c s => if Ascii.eqb c "0" then xO (bits_value s) else xI (bits_value s) end.

Lemma bits_value_bits p : bits_value (bits p) = p.
Proof. induction p as [p IH|p IH|]; cbn; by rewrite ?IH. Qed.

Definition write {A} `{Countable A} (x : A) : string := bits (encode x).
Definition read {A} `{Countable A} (s : string) : option A := decode (bits_value s).

Lemma read_write {A} `{Countable A} (x : A) : read (write x) = Some x.
Proof. unfold read, write. by rewrite bits_value_bits, decode_encode. Qed.

Fixpoint marked (s rest : string) : string :=
  match s with EmptyString => String "0" rest | String c s => String "1" (String c (marked s rest)) end.

Definition texts (l : list string) : string := foldr marked "" l.

Fixpoint texts_of (s : string) : list string :=
  match s with
  | String "0" s => "" :: texts_of s
  | String _ (String c s) => match texts_of s with t :: l => String c t :: l | [] => [] end
  | _ => []
  end.

Lemma texts_of_texts l : texts_of (texts l) = l.
Proof.
  induction l as [|t l IH]; [done|]. cbn [texts foldr]. fold (texts l).
  induction t as [|c t IHt]; cbn; [by rewrite IH|by rewrite IHt].
Qed.

#[local] Instance usage_countable : Countable ExtKeyUsage.
Proof.
  refine (inj_countable' (λ u, match u with ServerAuth => true | ClientAuth => false end)
    (λ b : bool, if b then ServerAuth else ClientAuth) _). by intros [].
Defined.

Definition write_name (n : Name) : string := texts (nm_CommonName n :: nm_Organization n).
Definition read_name (s : string) : option Name := match texts_of s with cn :: org => Some (mkName cn org) | [] => None end.

Definition write_template (t : Template) : string :=
  texts [write (tp_SerialNumber t); write_name (tp_Subject t); write (tp_NotBefore t); write (tp_NotAfter t);
         write (tp_KeyUsage t); write (tp_ExtKeyUsage t); write (tp_BasicConstraintsValid t); write (tp_IsCA t);
         write (tp_MaxPathLenZero t); texts (write <$> tp_IPAddresses t); texts (tp_DNSNames t)].

Definition read_template (s : string) : option Template :=
  match texts_of s with
  | [a; b; c; d; e; f; g; h; i; j; k] =>
    a ← read a; b ← read_name b; c ← read c; d ← read d; e ← read e; f ← read f; g ← read g; h ← read h; i ← read i;
    Some (mkTemplate a b c d e f g h i (omap read (texts_of j)) (texts_of k))
  | _ => None
  end.

Lemma read_write_name n : read_name (write_name n) = Some n.
Proof. unfold read_name, write_name. rewrite texts_of_texts. by destruct n. Qed.

Lemma omap_written (l : list IP) : omap read (write <$> l) = l.
Proof. induction l as [|x l IH]; [done|]. cbn [fmap list_fmap]. cbn [omap list_omap]. rewrite read_write. by rewrite IH. Qed.

Lemma read_write_template t : read_template (write_template t) = Some t.
Proof.
  unfold read_template, write_template. rewrite texts_of_texts. cbv beta iota.
  rewrite read_write_name, !texts_of_texts, omap_written, !(read_write (A := Z)), !(read_write (A := bool)),
    (read_write (A := list ExtKeyUsage)).
  by destruct t.
Qed.

Definition signature (key m : string) : string := key +:+ "|" +:+ m.

Definition parse (der : string) : error + Certificate :=
  match texts_of der with
  | [tbs; sig] =>
    match texts_of tbs with
    | [t; issuer; pub] =>
      match read_template t, read_name issuer with
      | Some t, Some issuer => inr (mkCertificate (whole_seconds t) issuer pub tbs sig)
      | _, _ => inl "x509: malformed tbs certificate"
      end
    | _ => inl "x509: malformed tbs certificate"
    end
  | _ => inl "x509: malformed certificate"
  end.

Definition unblock (s : string) : option (string * string * string) :=
  match s with
  | String "P" s => match texts_of s with [type; bytes] => Some (type, bytes, "") | _ => None end
  | _ => None
  end.

Definition tbs_of (t : Template) (issuer : Name) (pub : string) : string := texts [write_template t; write_name issuer; pub].

Lemma parse_joined t issuer pub sig :
  parse (texts [tbs_of t issuer pub; sig]) = inr (mkCertificate (whole_seconds t) issuer pub (tbs_of t issuer pub) sig).
Proof. unfold parse, tbs_of. rewrite texts_of_texts. cbv beta iota. by rewrite texts_of_texts, read_write_template, read_write_name. Qed.

Lemma unblock_block type bytes : unblock (String "P" (texts [type; bytes])) = Some (type, bytes, "").
Proof. unfold unblock. by rewrite texts_of_texts. Qed.

Definition demo_x509 : X509 := {|
  ec_Public key := key;
  ec_Sign := signature;
  ec_Verify pub m sig := String.eqb sig (signature pub m);
  der_TBS t issuer pub := inr (tbs_of t issuer pub);
  der_Join tbs sig := texts [tbs; sig];
  der_Parse := parse;
  key_Marshal := inr;
  key_Parse := inr;
  pem_Encode type bytes := String "P" (texts [type; bytes]);
  pem_Decode := unblock;
  san_ok _ := true
|}.

#[local] Existing Instance demo_x509.

Lemma string_app_inj_l (a b m : string) : a +:+ m = b +:+ m → a = b.
Proof.
  intros H. assert (String.length a = String.length b) as Hl by (apply (f_equal String.length) in H; rewrite !str_app_length in H; lia).
  revert b H Hl. induction a as [|c a IH]; intros [|d b]; cbn; try done. intros [= -> H] [= Hl]. f_equal. by apply IH.
Qed.

#[local] Instance demo_x509_laws : X509Laws.
Proof.
  split; cbn.
  - intros key m. apply String.eqb_refl.
  - intros pub key m H%String.eqb_eq. symmetry. by apply string_app_inj_l in H.
  - intros t issuer pub tbs sig [= <-] _. apply parse_joined.
  - by intros key der [= <-].
  - done.
  - intros type bytes. apply unblock_block.
  - done.
Qed.

Definition root_draw : CertDraw := mkCertDraw (inr "k0") (inr 1) 0 (1000 * Second).
Definition node_draw : CertDraw := mkCertDraw (inr "k1") (inr 2) 0 (2000 * Second).

(** What [NewCertificateAuthority] returns for these draws. *)
Definition authority_of (key org : string) : CertificateAuthority :=
  let t := ca_template root_draw 1 org hour in
  let tbs := tbs_of t (tp_Subject t) key in
  mkCA org (mkCertificate (whole_seconds t) (tp_Subject t) key tbs (signature key tbs)) key
    (pem_Encode "CERTIFICATE" (texts [tbs; signature key tbs])) (pem_Encode "EC PRIVATE KEY" key)
    [mkCertificate (whole_seconds t) (tp_Subject t) key tbs (signature key tbs)] true.

Lemma authority_made key org : org ≠ "" →
  NewCertificateAuthority (mkCertDraw (inr key) (inr 1) 0 (1000 * Second)) org hour = inr (authority_of key org).
Proof.
  intros H. unfold NewCertificateAuthority. rewrite decide_False by done. cbn -[texts tbs_of parse ca_template hour].
  rewrite parse_joined. reflexivity.
Qed.

Lemma authority_ok key org : org ≠ "" → ca_ok (authority_of key org).
Proof. intros H. exact (proj1 (new_ca_ok _ _ _ _ (authority_made key org H))). Qed.

Definition leaf_of (ca : CertificateAuthority) (name : string) (ttl : Duration) : Certificate :=
  let t := fold_left add_san (node_names name) (leaf_template node_draw 2 (ca_org ca) name ttl) in
  let tbs := tbs_of t (tp_Subject (ct_fields (ca_cert ca))) "k1" in
  mkCertificate (whole_seconds t) (tp_Subject (ct_fields (ca_cert ca))) "k1" tbs (signature (ca_key ca) tbs).

Lemma leaf_issued ca name ttl : issued ca (2000 * Second) name ttl (node_names name) (leaf_of ca name ttl).
Proof. unfold leaf_of. rewrite san_fields. by split. Qed.

Definition nebula_ca : CertificateAuthority := authority_of "k0" "Nebula".
Definition rogue_ca : CertificateAuthority := authority_of "k9" "Nebula".
Definition node (name : string) (ttl : Duration) : KeyPair := mkKeyPair (leaf_of nebula_ca name ttl) "k1".
Definition rogue_node : KeyPair := mkKeyPair (leaf_of rogue_ca "w-1" minute) "k1".

Lemma issue_outcome_witness :
  ca_available nebula_ca = true ∧ 0 < minute
  ∧ ∃ leaf certPEM keyPEM,
      issueCertificate node_draw "w-1" minute false (node_names "w-1") nebula_ca = inr (mkKeyPair leaf "k1", certPEM, keyPEM)
      ∧ issued nebula_ca (2000 * Second) "w-1" minute (node_names "w-1") leaf.
Proof.
  split; [reflexivity|]. split; [reflexivity|].
  destruct (issue_outcome node_draw "w-1" minute false (node_names "w-1") nebula_ca) as (_ & _ & H).
  destruct (H "k1" 2 _ "k1" eq_refl eq_refl eq_refl eq_refl eq_refl eq_refl eq_refl) as (leaf & c & k & H1 & _ & H2).
  exists leaf, c, k. split; [exact H1|exact H2].
Defined.


Lemma strangers_are_refused_witness :
  ∃ scfg ccfg, NewServerTLSConfig (CACertPEM nebula_ca) (node "cp" minute) = inr scfg
    ∧ tls_Certificates ccfg = [node "w-1" minute] ∧ in_window (2000 * Second) (kp_Leaf (node "w-1" minute)) = true.
Proof.
  pose proof (authority_ok "k0" "Nebula" ltac:(discriminate)) as Hca.
  pose proof (leaf_issued nebula_ca "w-1" minute) as Hl.
  exists (mkTLSConfig true [ca_cert nebula_ca] [] [node "cp" minute] "" VersionTLS13),
    (mkTLSConfig false [] [ca_cert nebula_ca] [node "w-1" minute] "cp" VersionTLS13).
  split; [exact (server_config nebula_ca _ Hca)|]. split; [reflexivity|].
  refine (proj2 (strangers_are_refused (2000 * Second) "" nebula_ca nebula_ca _ _ _ _ (node "w-1" minute) (node "cp" minute) _
    (mkTLSConfig false [] [ca_cert nebula_ca] [node "w-1" minute] "cp" VersionTLS13) Hca Hl eq_refl
    (server_config nebula_ca (node "cp" minute) Hca) _)).
  vm_compute. reflexivity.
Defined.

Lemma worker_serves_localhost_witness :
  x509_Verify (2000 * Second) [ca_cert nebula_ca] "localhost" ServerAuth (leaf_of nebula_ca "w-1" minute) = None.
Proof.
  eapply (worker_serves_localhost (2000 * Second) nebula_ca _ "w-1");
    [exact (authority_ok "k0" "Nebula" ltac:(discriminate))|exact (leaf_issued nebula_ca "w-1" minute)|reflexivity|reflexivity].
Defined.

Lemma should_renew_due_witness : ShouldRenew (2061 * Second) (Some (leaf_of nebula_ca "w-1" minute)) (float_of_int 1) = true.
Proof. apply should_renew_due. left. reflexivity. Defined.

(** An authority of the same name with another key is refused. *)
Example rogue_is_refused :
  match NewServerTLSConfig (CACertPEM nebula_ca) (node "cp" minute), NewClientTLSConfig (CACertPEM nebula_ca) rogue_node "cp" with
  | inr scfg, inr ccfg =>
    connect (2000 * Second) "" (NewTLS ccfg) (NewTLS scfg) = Some (BadClientCertificate UnknownAuthority)
  | _, _ => False
  end.
Proof. vm_compute. reflexivity. Qed.

(** Without a configuration the server speaks plain text, where the client fails. *)
Example nil_configuration_is_plaintext :
  server_credentials (ServerOptionsWithTLS None []) = Insecure
  ∧ (λ c, connect 0 "cp" c (server_credentials (ServerOptionsWithTLS None []))) <$> dial_credentials (ClientDialOptions [])
    = Some None
  ∧ NewClientConnWithTLS (λ target opts, inr (target, opts)) "cp" None [] = inl "tls configuration cannot be nil".
Proof. split_and!; reflexivity. Qed.

(** Dates have whole seconds: half a second is over before it begins. *)
Example short_ttl_is_expired :
  let leaf := leaf_of nebula_ca "w-1" 500000000 in
  in_window (2000 * Second + 1) leaf = false ∧ in_window (2000 * Second) leaf = true.
Proof. split; reflexivity. Qed.

(** A certificate may outlive its authority. *)
Example leaf_outlives_root :
  let leaf := leaf_of nebula_ca "w-1" (24 * hour) in
  in_window (6000 * Second) leaf = true
  ∧ x509_Verify (6000 * Second) [ca_cert nebula_ca] "" ClientAuth leaf = Some NotYetOrExpired.
Proof. split; [reflexivity|vm_compute; reflexivity]. Qed.

(** A certificate that the pool does not contain, but whose issuer it contains. *)
Example pool_has_every_leaf :
  (leaf_of nebula_ca "w-1" minute ∉ CertPool nebula_ca)
  ∧ HasCertInPool (2000 * Second) (Some (CertPool nebula_ca)) (Some (leaf_of nebula_ca "w-1" minute)) = true.
Proof.
  split; [|vm_compute; reflexivity]. unfold CertPool. rewrite list_elem_of_singleton. intros H.
  apply (f_equal (λ c, tp_IsCA (ct_fields c))) in H. discriminate H.
Qed.

(** Three quarters of eleven minutes, of which one is before the issue. *)
Example renewal_at_three_quarters :
  let leaf := Some (leaf_of nebula_ca "w-1" (10 * minute)) in
  let threshold := fdiv (float_of_int 3) (float_of_int 4) in
  ShouldRenew ((1940 + 495) * Second) leaf threshold = true
  ∧ ShouldRenew ((1940 + 495) * Second - 1) leaf threshold = false ∧ ShouldRenew 0 None threshold = true.
Proof. vm_compute. split_and!; reflexivity. Qed.
