(* ===== verification/DockerEngine.v ===== *)
(** * The client of the Docker engine: runtime/docker_client.go

    RealDockerClient against the API of the engine, the class [DockerAPI]. The
    client is one of the [DockerClient]s that the runtime runs on, and for an
    engine with the laws of [DockerAPILaws] it is a [ContainerEngine], so that
    the theorems of RuntimeFacts.v hold of it; the containers of an instance are
    those with its label. *)

From stdpp Require Import base option gmap strings list pretty.
From Stdlib Require Import ZArith Lia Ascii SpecFloat.
From S2P Require Import Prelude GoLib GoFloat GoTime TimeParse PtrStore Workers Scheduler LoadBalancer HA Deployments Fleet Platform Demo Runtime RuntimeFacts Reconcile.

(** ** The API *)

Record ContainerConfig := mkContainerConfig {
  cc_Image : string;
  cc_Cmd : list string;
  cc_Env : list string;
  cc_Labels : gmap string string;
  cc_ExposedPorts : gset string
}.

(** The bindings of a port are pairs of an address and a port of the host. *)
Record HostConfig := mkHostConfig {
  hc_PortBindings : gmap string (list (string * string));
  hc_RestartPolicy : string;
  hc_NanoCPUs : Z;
  hc_Memory : Z
}.

Record InspectState := mkInspectState { is_Status : string; is_ExitCode : Z; is_Error : string }.

(** The configuration is always part of an answer; the code dereferences it. *)
Record InspectResponse := mkInspect {
  in_ID : string;
  in_Created : string;
  in_State : option InspectState;
  in_HostConfig : option HostConfig;
  in_Config : ContainerConfig
}.

Record ListedContainer := mkListed {
  lc_ID : string;
  lc_Labels : gmap string string;
  lc_Image : string;
  lc_State : string;
  lc_Status : string;
  lc_Created : Z
}.

(** [nat.NewPort] and the calls of the engine; a pull includes its output. *)
Class DockerAPI (E : Type) := {
  nat_NewPort : string → string → error + string;
  api_ImageInspect : string → E → option error * E;
  api_ImagePull : string → E → option error * E;
  api_ContainerCreate : ContainerConfig → HostConfig → string → E → (error + string) * E;
  api_ContainerStart : string → E → option error * E;
  api_ContainerStop : string → option Z → E → option error * E;
  api_ContainerInspect : string → E → (error + InspectResponse) * E;
  api_ContainerList : E → (error + list ListedContainer) * E;
  api_ContainerRemove : string → bool → E → option error * E
}.

Section docker.
Context {E : Type} `{!DockerAPI E, !FloatConv}.
Implicit Types (e : E) (opts : CreateContainerOptions).

(** ** RealDockerClient *)

Definition pull_missing (img : string) e : option error * E :=
  let '(err, e) := api_ImageInspect img e in
  match err with
  | None => (None, e)
  | Some _ =>
    let '(pullErr, e) := api_ImagePull img e in
    ((λ m, "failed to pull image " +:+ img +:+ ": " +:+ m) <$> pullErr, e)
  end.

Definition container_labels opts : gmap string string :=
  let labels := <["nebula.instance_id" := co_InstanceID opts]> (co_Labels opts) in
  if decide (co_DeploymentID opts = "") then labels else <["nebula.deployment_id" := co_DeploymentID opts]> labels.

(** One mapping; a port that cannot be parsed is skipped. *)
Definition bind_port (st : gset string * gmap string (list (string * string))) (p : PortMapping) :
    gset string * gmap string (list (string * string)) :=
  let proto := if decide (pm_Protocol p = "") then "tcp" else pm_Protocol p in
  match nat_NewPort proto (Itoa (pm_ContainerPort p)) with
  | inl _ => st
  | inr key => ({[key]} ∪ st.1, <[key := [("0.0.0.0", Itoa (pm_HostPort p))]]> st.2)
  end.

Definition bind_ports (ports : list PortMapping) : gset string * gmap string (list (string * string)) :=
  fold_left bind_port ports (∅, ∅).

Definition container_config opts : ContainerConfig :=
  mkContainerConfig (co_Image opts) (co_Cmd opts) (co_Env opts) (container_labels opts) (bind_ports (co_Ports opts)).1.

Definition host_config opts : HostConfig :=
  mkHostConfig (bind_ports (co_Ports opts)).2 "no" (nano_cpus (co_CPULimit opts)) (memory_bytes (co_MemoryLimitMB opts)).

Definition container_name opts : string :=
  match co_Labels opts !! "nebula.worker_key" with
  | Some key => if decide (key = "") then "nebula-" +:+ co_InstanceID opts
                else "nebula-" +:+ key +:+ "-" +:+ co_InstanceID opts
  | None => "nebula-" +:+ co_InstanceID opts
  end.

Definition real_CreateContainer (now : Time) opts e : (error + string) * E :=
  let '(err, e) := pull_missing (co_Image opts) e in
  match err with
  | Some err => (inl err, e)
  | None =>
    let '(r, e) := api_ContainerCreate (container_config opts) (host_config opts) (container_name opts) e in
    (match r with inl err => inl ("failed to create docker container: " +:+ err) | inr id => inr id end, e)
  end.

Definition real_StartContainer (containerID : string) e : option error * E :=
  let '(err, e) := api_ContainerStart containerID e in
  ((λ m, "failed to start container " +:+ containerID +:+ ": " +:+ m) <$> err, e).

Definition real_StopContainer (containerID : string) (timeout : option Duration) e : option error * E :=
  let '(err, e) := api_ContainerStop containerID ((λ t, int_of_float (Seconds t)) <$> timeout) e in
  ((λ m, "failed to stop container " +:+ containerID +:+ ": " +:+ m) <$> err, e).

(** A creation time that cannot be parsed is the zero time. *)
Definition details_of (r : InspectResponse) : ContainerDetails :=
  let stateStr := match in_State r with Some s => is_Status s | None => "unknown" end in
  mkDetails (in_ID r) (cc_Image (in_Config r)) stateStr stateStr
    (match in_State r with Some s => is_ExitCode s | None => 0 end)
    (match in_State r with Some s => is_Error s | None => "" end)
    (cc_Labels (in_Config r)) (default 0 (parse_rfc3339 (in_Created r)))
    (match in_HostConfig r with Some h => hc_NanoCPUs h | None => 0 end)
    (match in_HostConfig r with Some h => hc_Memory h | None => 0 end).

Definition real_InspectContainer (containerID : string) e : (error + ContainerDetails) * E :=
  let '(r, e) := api_ContainerInspect containerID e in
  (match r with
   | inl err => inl ("failed to inspect container " +:+ containerID +:+ ": " +:+ err)
   | inr r => inr (details_of r)
   end, e).

Definition summary_of (c : ListedContainer) : ContainerSummary :=
  mkSummary (lc_ID c) (default "" (lc_Labels c !! "nebula.instance_id")) (lc_Image c) (lc_State c) (lc_Status c)
    (lc_Labels c) (Unix (lc_Created c)).

(** The order is the engine's. *)
Definition real_ListContainers (o : Order) e : (error + list ContainerSummary) * E :=
  let '(r, e) := api_ContainerList e in
  (match r with inl err => inl ("failed to list containers: " +:+ err) | inr l => inr (summary_of <$> l) end, e).

Definition real_RemoveContainer (containerID : string) (force : bool) e : option error * E :=
  api_ContainerRemove containerID force e.

#[export] Instance real_docker_client : DockerClient E := {
  dc_CreateContainer := real_CreateContainer; dc_StartContainer := real_StartContainer;
  dc_StopContainer := real_StopContainer; dc_InspectContainer := real_InspectContainer;
  dc_ListContainers := real_ListContainers; dc_RemoveContainer := real_RemoveContainer
}.

End docker.

(** ** What the engine promises

    Its containers are identifiers with the labels of their configuration and
    whether they run. *)

Abbreviation Labelled := (gmap string (gmap string string * bool)) (only parsing).

Definition calms (v v' : Labelled) : Prop := ∀ id l, v' !! id = Some (l, true) → v !! id = Some (l, true).

Class DockerAPILaws (E : Type) `{!DockerAPI E} := {
  api_view : E → Labelled;
  api_ok : E → Prop;
  image_inspect_law img e : api_ok e →
    let '(_, e') := api_ImageInspect img e in api_ok e' ∧ api_view e' = api_view e;
  image_pull_law img e : api_ok e →
    let '(_, e') := api_ImagePull img e in api_ok e' ∧ api_view e' = api_view e;
  create_law c h name e : api_ok e →
    let '(r, e') := api_ContainerCreate c h name e in
    api_ok e' ∧
    match r with
    | inr id => id ≠ "" ∧ api_view e !! id = None ∧ api_view e' = <[id := (cc_Labels c, false)]> (api_view e)
    | inl _ => calms (api_view e) (api_view e')
    end;
  start_law id e : api_ok e →
    let '(err, e') := api_ContainerStart id e in
    api_ok e' ∧
    match err with
    | None => ∃ l b, api_view e !! id = Some (l, b) ∧ api_view e' = <[id := (l, true)]> (api_view e)
    | Some _ => calms (api_view e) (api_view e')
    end;
  stop_law id t e : api_ok e →
    let '(err, e') := api_ContainerStop id t e in
    api_ok e' ∧
    match err with
    | None => ∃ l b, api_view e !! id = Some (l, b) ∧ api_view e' = <[id := (l, false)]> (api_view e)
    | Some _ => calms (api_view e) (api_view e')
    end;
  inspect_law id e : api_ok e →
    let '(r, e') := api_ContainerInspect id e in
    api_ok e' ∧ api_view e' = api_view e ∧
    match r with
    | inr r => ∃ b s, api_view e !! id = Some (cc_Labels (in_Config r), b) ∧ in_State r = Some s
        ∧ (b = true ↔ is_Status s = "running")
    | inl _ => True
    end
}.

Section engine.
Context {E : Type} `{!DockerAPI E} {laws : DockerAPILaws E} {fc : FloatConv}.
Implicit Types (e : E) (opts : CreateContainerOptions).

(** The instance of a container is the one of its label. *)
Definition owner (x : gmap string string * bool) : string * bool := (default "" (x.1 !! "nebula.instance_id"), x.2).

Definition docker_view e : Containers := owner <$> api_view e.

Lemma calms_quiets e e' : calms (api_view e) (api_view e') → quiets (docker_view e) (docker_view e').
Proof.
  intros H id i. unfold docker_view. rewrite !lookup_fmap. destruct (api_view e' !! id) as [[l b]|] eqn:E'; [|done].
  cbn. intros [= <- ->]. by rewrite (H _ _ E').
Qed.

Lemma pull_frame img e : api_ok e → let '(_, e') := pull_missing img e in api_ok e' ∧ api_view e' = api_view e.
Proof.
  intros H. unfold pull_missing. pose proof (image_inspect_law img e H) as H1.
  destruct (api_ImageInspect img e) as [[err|] e1]; [|done]. destruct H1 as [H1 E1].
  pose proof (image_pull_law img e1 H1) as H2. destruct (api_ImagePull img e1) as [err' e2]. by rewrite <- E1.
Qed.

Lemma owner_label opts : container_labels opts !! "nebula.instance_id" = Some (co_InstanceID opts).
Proof. unfold container_labels. case_decide; by simplify_map_eq. Qed.

Lemma real_create_spec now opts e : api_ok e →
  let '(r, e') := real_CreateContainer now opts e in
  api_ok e' ∧
  match r with
  | inr id => id ≠ "" ∧ docker_view e !! id = None ∧ docker_view e' = <[id := (co_InstanceID opts, false)]> (docker_view e)
  | inl _ => quiets (docker_view e) (docker_view e')
  end.
Proof.
  intros H. unfold real_CreateContainer. pose proof (pull_frame (co_Image opts) e H) as Hp.
  destruct (pull_missing (co_Image opts) e) as [err e1]. destruct Hp as [H1 E1].
  destruct err as [err|]; [split; [done|]; apply calms_quiets; rewrite E1; by intros ? ?|].
  pose proof (create_law (container_config opts) (host_config opts) (container_name opts) e1 H1) as Hc.
  destruct (api_ContainerCreate _ _ _ e1) as [[err|id] e2]; destruct Hc as [H2 Hc]; (split; [done|]).
  - apply calms_quiets. by rewrite <- E1.
  - rewrite E1 in Hc. destruct Hc as (Hn & Hf & Hv). unfold docker_view. rewrite lookup_fmap, Hf, Hv, fmap_insert.
    unfold owner at 2. cbn [fst snd cc_Labels container_config]. by rewrite owner_label.
Qed.

Lemma switch_spec id e e' (err : option error) b (wrap : error → error) :
  match err with
  | None => ∃ l b0, api_view e !! id = Some (l, b0) ∧ api_view e' = <[id := (l, b)]> (api_view e)
  | Some _ => calms (api_view e) (api_view e')
  end →
  match wrap <$> err with
  | None => ∃ i b0, docker_view e !! id = Some (i, b0) ∧ docker_view e' = <[id := (i, b)]> (docker_view e)
  | Some _ => quiets (docker_view e) (docker_view e')
  end.
Proof.
  destruct err as [err|]; cbn; [apply calms_quiets|]. intros (l & b0 & Hl & Hv).
  exists (default "" (l !! "nebula.instance_id")), b0. unfold docker_view. rewrite lookup_fmap, Hl, Hv, fmap_insert. by split.
Qed.

#[export] Program Instance docker_engine : ContainerEngine E := {
  ce_view := docker_view; ce_ok := api_ok; ce_create := real_create_spec
}.
Next Obligation.
  intros id e H. cbn. unfold real_StartContainer. pose proof (start_law id e H) as Hs.
  destruct (api_ContainerStart id e) as [err e']. destruct Hs as [H' Hs]. split; [done|]. by apply switch_spec.
Qed.
Next Obligation.
  intros id t e H. cbn. unfold real_StopContainer. pose proof (stop_law id ((λ t, int_of_float (Seconds t)) <$> t) e H) as Hs.
  destruct (api_ContainerStop id _ e) as [err e']. destruct Hs as [H' Hs]. split; [done|]. by apply switch_spec.
Qed.
Next Obligation.
  intros id e H. cbn. unfold real_InspectContainer. pose proof (inspect_law id e H) as Hi.
  destruct (api_ContainerInspect id e) as [[err|r] e']; destruct Hi as (H' & Hv & Hi); unfold docker_view at 1 2; rewrite Hv; [done|].
  split; [done|]. split; [done|]. destruct Hi as (b & s & Hl & Hs & Hb). unfold docker_view. rewrite lookup_fmap, Hl. cbn [details_of cd_State].
  rewrite Hs. by eexists _, b.
Qed.

End engine.

(** ** What the client asks for *)

Section request.
Context {E : Type} `{!DockerAPI E, !FloatConv}.
Implicit Types opts : CreateContainerOptions.

Definition port_key (p : PortMapping) : option string :=
  match nat_NewPort (if decide (pm_Protocol p = "") then "tcp" else pm_Protocol p) (Itoa (pm_ContainerPort p)) with
  | inl _ => None
  | inr key => Some key
  end.

Definition mappings_of (key : string) (ports : list PortMapping) : list PortMapping :=
  base.filter (λ p, port_key p = Some key) ports.

Lemma bind_ports_spec ports st key :
  (fold_left bind_port ports st).2 !! key
  = match list.last (mappings_of key ports) with
    | Some p => Some [("0.0.0.0", Itoa (pm_HostPort p))]
    | None => st.2 !! key
    end
  ∧ (dom st.2 = st.1 → dom (fold_left bind_port ports st).2 = (fold_left bind_port ports st).1).
Proof.
  revert st. induction ports as [|p ports IH]; intros st; [done|]. cbn [fold_left]. unfold mappings_of. rewrite filter_cons.
  destruct (IH (bind_port st p)) as [H1 H2]. split.
  - rewrite H1. fold (mappings_of key ports). unfold bind_port, port_key.
    destruct (nat_NewPort _ _) as [err|k]; [by rewrite decide_False|]. cbn [snd]. destruct (decide (Some k = Some key)) as [[= ->]|Hne].
    + rewrite last_cons. destruct (list.last (mappings_of key ports)); [done|]. by rewrite lookup_insert_eq.
    + destruct (list.last (mappings_of key ports)); [done|]. rewrite lookup_insert_ne by congruence. done.
  - intros Hd. apply H2. unfold bind_port. destruct (nat_NewPort _ _); [done|]. cbn. by rewrite dom_insert_L, Hd.
Qed.

(** What is asked of the engine for a container: the labels of the instance and
    of the deployment win over those of the caller, every other label is kept,
    the exposed ports are the bound ones, and each is bound on all addresses to
    the host port of its last mapping. *)
Theorem container_request opts :
  let c := container_config opts in
  let h := host_config opts in
  cc_Labels c !! "nebula.instance_id" = Some (co_InstanceID opts)
  ∧ (co_DeploymentID opts ≠ "" → cc_Labels c !! "nebula.deployment_id" = Some (co_DeploymentID opts))
  ∧ (∀ k, k ≠ "nebula.instance_id" → k ≠ "nebula.deployment_id" → cc_Labels c !! k = co_Labels opts !! k)
  ∧ cc_ExposedPorts c = dom (hc_PortBindings h)
  ∧ ∀ key, hc_PortBindings h !! key
           = (λ p, [("0.0.0.0", Itoa (pm_HostPort p))]) <$> list.last (mappings_of key (co_Ports opts)).
Proof.
  cbv zeta. split_and!.
  - apply owner_label.
  - intros Hdep. cbn. unfold container_labels. rewrite decide_False by done. by simplify_map_eq.
  - intros k H1 H2. cbn. unfold container_labels. case_decide; by rewrite ?lookup_insert_ne.
  - symmetry. apply (bind_ports_spec (co_Ports opts) (∅, ∅) ""). apply dom_empty_L.
  - intros key. cbn [hc_PortBindings host_config]. unfold bind_ports.
    destruct (bind_ports_spec (co_Ports opts) (∅, ∅) key) as [-> _]. by destruct (list.last _).
Qed.

End request.

Section workers.
Context {E : Type} `{!DockerAPI E} {laws : DockerAPILaws E} {fc : FloatConv} {ent : Entropy} {uni : Unicode}.

(** On a Docker engine that keeps the laws of its API, in every state reached by
    the operations of the runtime from an engine where nothing runs, at most one
    running container carries the label of an instance, and the tracker names
    it. *)
Theorem docker_one_running (e : E) (o : ContainerOps E) i :
  api_ok e → (∀ id l, api_view e !! id ≠ Some (l, true)) → rtc worker_step (NewContainerOps e NewInstanceTracker) o →
  ∀ id1 id2 l1 l2,
    api_view (op_client o) !! id1 = Some (l1, true) → api_view (op_client o) !! id2 = Some (l2, true) →
    l1 !! "nebula.instance_id" = Some i → l2 !! "nebula.instance_id" = Some i → id1 = id2 ∧ tracked i id1 o.
Proof.
  intros He Hq Hr id1 id2 l1 l2 H1 H2 L1 L2.
  assert (∀ id i', docker_view e !! id ≠ Some (i', true)) as Hq'.
  { intros id i'. unfold docker_view. rewrite lookup_fmap. destruct (api_view e !! id) as [[l b]|] eqn:Ev; [|done].
    cbn. intros [= _ ->]. by apply (Hq id l). }
  destruct (worker_reach_inv (D := E) (ContainerEngine0 := docker_engine) e o He Hq' Hr) as [_ _ Hw].
  assert (∀ id l, api_view (op_client o) !! id = Some (l, true) → l !! "nebula.instance_id" = Some i → tracked i id o) as Ht.
  { intros id l Hl Hi. apply Hw. change (docker_view (op_client o) !! id = Some (i, true)). unfold docker_view.
    rewrite lookup_fmap, Hl. cbn [fmap option_fmap option_map]. unfold owner. cbn [fst snd]. by rewrite Hi. }
  pose proof (Ht _ _ H1 L1) as T1. pose proof (Ht _ _ H2 L2) as (r2 & T2 & _ & <- & _). split; [|done].
  destruct T1 as (r1 & T1 & _ & <- & _). congruence.
Qed.

End workers.

(** ** A small engine *)

Record Engine := mkEngine {
  eg_containers : gmap string (ContainerConfig * HostConfig * string);
  eg_images : list string;
  eg_next : nat
}.

#[export] Instance Engine_eta : Settable Engine := λ e, mkEngine (eg_containers e) (eg_images e) (eg_next e).

Definition engine_id (n : nat) : string := "ctr" +:+ pretty n.

Definition engine_set (status id : string) (e : Engine) : option error * Engine :=
  match eg_containers e !! id with
  | None => (Some ("No such container: " +:+ id), e)
  | Some (c, h, _) => (None, e <| eg_containers ::= <[id := (c, h, status)]> |>)
  end.

Definition small_engine : DockerAPI Engine := {|
  nat_NewPort proto port := inr (port +:+ "/" +:+ proto);
  api_ImageInspect img e := (if bool_decide (img ∈ eg_images e) then None else Some "No such image", e);
  api_ImagePull img e := (None, e <| eg_images ::= λ l, img :: l |>);
  api_ContainerCreate c h name e :=
    (inr (engine_id (eg_next e)),
     e <| eg_containers ::= <[engine_id (eg_next e) := (c, h, "created")]> |> <| eg_next ::= S |>);
  api_ContainerStart := engine_set "running";
  api_ContainerStop id _ := engine_set "exited" id;
  api_ContainerInspect id e :=
    (match eg_containers e !! id with
     | None => inl ("No such container: " +:+ id)
     | Some (c, h, status) => inr (mkInspect id "2024-02-29T12:34:56Z" (Some (mkInspectState status 0 "")) (Some h) c)
     end, e);
  api_ContainerList e :=
    (inr ((λ kv, mkListed kv.1 (cc_Labels kv.2.1.1) (cc_Image kv.2.1.1) kv.2.2 kv.2.2 0) <$> map_to_list (eg_containers e)), e);
  api_ContainerRemove id _ e := (None, e <| eg_containers ::= delete id |>)
|}.

#[local] Existing Instance small_engine.

Definition engine_view (e : Engine) : Labelled :=
  (λ x : ContainerConfig * HostConfig * string, (cc_Labels x.1.1, bool_decide (x.2 = "running"))) <$> eg_containers e.

Lemma engine_set_spec status id e b : bool_decide (status = "running") = b →
  let '(err, e') := engine_set status id e in
  eg_next e' = eg_next e ∧ dom (eg_containers e') = dom (eg_containers e) ∧
  match err with
  | None => ∃ l b0, engine_view e !! id = Some (l, b0) ∧ engine_view e' = <[id := (l, b)]> (engine_view e)
  | Some _ => calms (engine_view e) (engine_view e')
  end.
Proof.
  intros Hb. unfold engine_set. destruct (eg_containers e !! id) as [[[c h] s]|] eqn:Ee; [|split; [done|]; split; [done|]; by intros ? ?].
  cbn. split; [done|]. split.
  - apply dom_insert_lookup_L. by eexists.
  - exists (cc_Labels c), (bool_decide (s = "running")). unfold engine_view. cbn.
    by rewrite lookup_fmap, Ee, fmap_insert, <- Hb.
Qed.

Definition engine_fresh (e : Engine) : Prop :=
  ∀ id, id ∈ dom (eg_containers e) → ∃ n, (n < eg_next e)%nat ∧ id = engine_id n.

#[local] Program Instance small_engine_laws : DockerAPILaws Engine := {
  api_view := engine_view; api_ok := engine_fresh
}.
Next Obligation. by intros img e H. Qed.
Next Obligation. by intros img e H. Qed.
Next Obligation.
  intros c h name e H. cbn. split.
  - intros id. cbn. rewrite dom_insert_L, elem_of_union, elem_of_singleton. intros [->|(n & Hn & ->)%H].
    + exists (eg_next e). split; [lia|done].
    + exists n. split; [lia|done].
  - split; [done|]. split; [|unfold engine_view; cbn; by rewrite fmap_insert].
    unfold engine_view. rewrite lookup_fmap. destruct (eg_containers e !! engine_id (eg_next e)) eqn:En; [|done].
    apply elem_of_dom_2, H in En as (n & Hn & Eq). unfold engine_id in Eq.
    apply (inj (String.append "ctr")), (inj pretty) in Eq. lia.
Qed.
Next Obligation.
  intros id e H. cbn. pose proof (engine_set_spec "running" id e true eq_refl) as Hs.
  destruct (engine_set "running" id e) as [err e']. destruct Hs as (Hn & Hd & Hs). split; [|done].
  intros id'. rewrite Hd, Hn. apply H.
Qed.
Next Obligation.
  intros id t e H. cbn. pose proof (engine_set_spec "exited" id e false eq_refl) as Hs.
  destruct (engine_set "exited" id e) as [err e']. destruct Hs as (Hn & Hd & Hs). split; [|done].
  intros id'. rewrite Hd, Hn. apply H.
Qed.
Next Obligation.
  intros id e H. cbn. split; [done|]. split; [done|]. destruct (eg_containers e !! id) as [[[c h] s]|] eqn:Ee; [|done].
  exists (bool_decide (s = "running")), (mkInspectState s 0 ""). cbn. split; [|split; [done|apply bool_decide_eq_true]].
  unfold engine_view. by rewrite lookup_fmap, Ee.
Qed.

#[local] Existing Instance demo_entropy.
#[local] Existing Instance amd64.
#[local] Existing Instance unicode_none.

Definition new_engine : Engine := mkEngine ∅ [] 0.
Definition engine_run : ContainerOps Engine := (RunContainer demo_opts (NewContainerOps new_engine NewInstanceTracker)).2.

Lemma docker_one_running_witness :
  engine_view (op_client engine_run) = {["ctr0" := ({["nebula.instance_id" := "i1"; "nebula.deployment_id" := "d1"]}, true)]}
  ∧ tracked "i1" "ctr0" engine_run.
Proof.
  split; [vm_compute; reflexivity|].
  refine (proj2 (docker_one_running new_engine engine_run "i1" _ _ (rtc_once _ _ (step_run demo_opts _))
    "ctr0" "ctr0" {["nebula.instance_id" := "i1"; "nebula.deployment_id" := "d1"]}
    {["nebula.instance_id" := "i1"; "nebula.deployment_id" := "d1"]} _ _ _ _)).
  - intros id. cbn. by rewrite dom_empty_L.
  - intros id l. cbn. unfold engine_view. cbn. by rewrite fmap_empty, lookup_empty.
  - vm_compute. reflexivity.
  - vm_compute. reflexivity.
  - vm_compute. reflexivity.
  - vm_compute. reflexivity.
Defined.

Definition options (ports : list PortMapping) (labels : gmap string string) (deployment : string) : CreateContainerOptions :=
  mkCreateOptions "i1" deployment "app:1" [] [] ports labels fzero 0.

(** Of two host ports for one port of the container only the last is bound. *)
Example second_mapping_replaces :
  hc_PortBindings (host_config (options [mkPortMapping 8080 80 ""; mkPortMapping 9090 80 "tcp"] ∅ "d1"))
  = {["80/tcp" := [("0.0.0.0", "9090")]]}.
Proof. vm_compute. reflexivity. Qed.

(** Without a deployment its label is whatever the caller's labels say. *)
Example deployment_label_passes :
  cc_Labels (container_config (options [] {["nebula.deployment_id" := "other"; "nebula.instance_id" := "other"]} ""))
  = {["nebula.deployment_id" := "other"; "nebula.instance_id" := "i1"]}.
Proof. vm_compute. reflexivity. Qed.

(** The name has the worker's key from the labels, so the same instance on two
    workers has two names. *)
Example names_of_workers :
  container_name (options [] {["nebula.worker_key" := "w-1"]} "d1") = "nebula-w-1-i1"
  ∧ container_name (options [] ∅ "d1") = "nebula-i1".
Proof. split; reflexivity. Qed.
